(* ===== verification/_CoqProject ===== *)
-Q . S2P
Prelude.v
EapolSm.v
EapolFacts.v
EapolRun.v
EapolSafety.v
EapolProps.v
Md5.v
Md5Props.v
Radius.v
RadiusRep.v
RadiusFacts.v
RadiusProps.v
Crc32.v
Flash.v
FlashProps.v
Io.v
Mtdpart.v
RaMtd.v
Raspi.v
SpiChip.v
RaspiFacts.v
RaspiOps.v
RaspiWrite.v
MtdpartSpec.v
RaMtdProps.v
RaspiProps.v
MtdChar.v
MtdTool.v
MtdToolFacts.v
MtdToolProps.v
KernelNvram.v
KernelNvramText.v
KernelNvramSpec.v
KernelNvramSim.v
KernelNvramProps.v
LibNvram.v
LibNvramProps.v
Eloop.v
EloopProps.v
Dot1xConfig.v
Dot1xConfigProps.v
Rtapd.v
RadiusClient.v
RadiusClientFacts.v
Ieee8021xTx.v
StaInfo.v
StaFacts.v
StaInfoProps.v
Ieee8021x.v
Rtdot1x.v
Ieee8021xProps.v
DaemonFacts.v
DaemonMain.v
DaemonProps.v
RadiusClientProps.v
PpeRegs.v
Policy.v
Acl.v
PolicyFacts.v
Accounting.v
Metering.v
PolicyEngine.v
PolicyRefine.v
PolicyGroups.v
PolicySteps.v
PolicyInv.v
PolicyBounds.v
PolicyProps.v
Foe.v
PacketTx.v
PacketSpec.v
PacketTxProps.v
KeepAlive.v
Checksum.v
KeepAliveFacts.v
KeepAliveProps.v
PpeConfig.v
HwNat.v
HwNatFacts.v
HwNatProps.v
