(* ===== verification/Prelude.v ===== *)
(** Verification of three programs of the Ralink router SDK.

    The SDK ([src/lktos_sdk/source]) builds the firmware of a wireless router.
    Most of it is third-party code; this library models three parts written for
    the router that have a specification worth proving:

    - the 802.1X daemon [rt2860apd] ([user/802.1x]), which keeps the port of a
      wireless station closed until a RADIUS server has accepted it;
    - the NVRAM stack, which keeps the settings of the router in flash: the
      library [lib/libnvram], the kernel's driver [arch/mips/rt2880/nvram.c],
      the flash access below both ([ralink-flash.c], [flash_api.c]), the kernel's
      MTD devices and partitions ([drivers/mtd]) and the driver of the SPI flash
      ([drivers/mtd/ralink/ralink_spi.c]); and, over the same devices, the
      program that installs firmware ([user/mtd_write/mtd.c]);
    - the driver of the hardware NAT ([net/nat/hw_nat] of the kernel), which
      programs a packet engine to forward, filter, count and limit packets.

    * Conventions

    A C function is a Gallina function of the same name.  [outcome] (this file)
    is its result: [Ret], or [Oob] for an access outside a buffer, through NULL
    or to released memory, or [NoFuel] for a loop that has not ended; [let*]
    sequences.  Integers are [Z] with their width written out ([u8], [u16],
    [u32], [s32]; [size_t] has 32 bits, [char] is signed, the target is little
    endian).  A buffer is a list of [Z], and [bytes_ok] says that they are
    bytes; [load] and [store] check every access.  [malloc] may fail: [Malloc]
    is an oracle over the size, and a theorem that needs memory assumes
    [malloc_never_fails].  [r ⦃ f := v ⦄] is the record update [r.f = v].

    * The 802.1X daemon

    A station sends EAPOL frames ([Handle_read]); its Authenticator, four
    communicating state machines, asks for its identity; the EAP messages go
    to the RADIUS server in Access-Requests that are retransmitted until they
    are answered; an Access-Accept makes the machines open the port, install
    keys in the driver and send a key to the station.  One event loop drives it.

    - [Md5], [Md5Props] ([md5.c]): MD5, HMAC-MD5, RC4, each against a reference
      that shares nothing with the code ([Rfc1321], with its sine table computed
      from the Taylor series, and [Rc4]): the streaming code is RFC 1321, the MAC
      is RFC 2104, RC4 is the published cipher and undoes itself.
    - [Radius] ([radius.c], [radius.h]): messages as a buffer with offsets.
      [RadiusRep] gives their meaning, a header and a list of attributes, and
      proves that building and searching work on it; [RadiusFacts] does so for
      parsing, verification and decryption; [RadiusProps] has the round trips,
      the exact condition of [Radius_msg_verify], and two defects (an over-read
      for a short Message-Authenticator, an endless loop on a vendor attribute
      of length zero).
    - [EapolSm] ([eapol_sm.c], [eapol_sm.h]): the four machines, over the class
      [EapolEnv] of the procedures they call.  [EapolFacts] has the invariant
      [sm_wf] and the cases of a step of the PAE machine, [EapolRun] the measure that shows
      that the loop of [eapol_sm_step] ends (at most [sm_step_bound] = 1300
      passes), [EapolSafety] what a run can do; [EapolProps] the theorems.
    - [Eloop], [EloopProps] ([eloop.c]): timeouts, readers, signals, and the
      loop over the results of [select].  The queue holds what was registered and
      not cancelled, by time and first-in first-out; a timeout runs when it is due.
    - [Dot1xConfig], [Dot1xConfigProps] ([config.c]): the driver's packed struct
      into the configuration, and what holds of one that is accepted.
    - [Rtapd] ([rtdot1x.h], [ap.h], [radius_client.h]): the state of the daemon.
      Stations live in a heap because the list, the hash table and the timeouts
      share them by pointer.  [World] is the oracle of system calls; a call
      leaves an [effect] in the trace [d_out].
    - [RadiusClient] ([radius_client.c]): pending requests, retransmission,
      fail-over, answers.  [RadiusClientFacts] and, behind [DaemonProps] because
      it is about runs of the whole daemon, [RadiusClientProps]: the invariant of
      the queue, and that a request expires with one server.
    - [Ieee8021xTx], [Ieee8021x] ([ieee802_1x.c]): frames, keys and requests
      that are sent, and the instance [daemon_env] of [EapolEnv]; frames and
      answers that are received.  [Ieee8021xProps]: the key of an EAPOL-Key
      frame arrives.
    - [StaInfo] ([sta_info.c]): the table of stations.  [StaFacts] frames what a
      run of a machine can change; [StaInfoProps]: the list and the hash chains
      implement a finite map, and a released station's timer reads freed memory.
    - [Rtdot1x] ([rtdot1x.c]): frames, driver commands, signals, [main] with its
      setting up and its main loop; [handle_event] is one of the things that can
      happen in between.
    - [DaemonFacts]: an invariant that every event keeps.  [DaemonMain]: setting
      up leaves no station and opens nothing, and the main loop is a sequence of
      events.  [DaemonProps]: the property of the whole program: over any run of
      the main loop a port opens, and a key is installed, only after a datagram
      with a verified Access-Accept for a pending request of that station.  The
      run of the witness starts the daemon with [main], associates a station and
      ends with an open port.

    * The NVRAM stack

    - [Crc32] ([lib/libnvram/crc32.c]): the unrolled table code is the
      bit-serial CRC, which detects every change of one byte.
    - [Flash] ([flash_api.c], [ralink-flash.c]): read-modify-erase-write of
      erase blocks over an interface of MTD operations; [FlashProps] proves it
      on a NOR flash (writing only clears bits), and says where [flash_write]
      leaves whole erase blocks that are not for the start of the device.
    - [KernelNvram] ([arch/mips/rt2880/nvram.c]): four blocks with caches,
      commits, the ioctl dispatcher.  [KernelNvramText] is the text format,
      [KernelNvramSpec] the abstract store (a volatile and a saved map for each
      block) and its relation to the driver, [KernelNvramSim] the simulation of
      each request and of a reboot; [KernelNvramProps] the refinement over whole
      histories, survival of values, the exact size at which a commit leaves its
      buffer, and a block that no boot survives.
    - [LibNvram], [LibNvramProps] ([nvram_env.c]): the library over that driver:
      what one process saves, another reads, at once and after a power loss; what a
      stale cache does not see.

    * The SPI flash and its partitions

    The NOR device that the NVRAM driver is verified on is, on the RT5350 boards, a
    partition of an SPI flash chip.  These files go down to the registers.

    - [Io]: a state monad with [outcome], loops with a bound ([rounds]), and a
      total-correctness [wp]: the call returns, and what it returns.
    - [Mtdpart] ([mtdpart.c], [mtdcore.c]): partition objects in a heap, the table
      of devices, over the class [MtdMaster] of a flash driver.  [RaMtd]:
      [ra_mtd_read_nm] and [ra_mtd_write_nm] over them.
    - [Raspi] ([ralink_spi.c]): the driver, over the class [SpiHw] of registers and
      delays.  [SpiChip]: what it relies on, the class [SpiFlash]: a controller and
      a flash chip as a state machine (write enable, protection, pages that wrap,
      cycles that take time, commands that are ignored), with a model of it.
    - [RaspiFacts], [RaspiOps], [RaspiWrite]: transfers, waits and
      address modes; reading, programming and erasing, each as what it does to the
      bytes in the chip.
    - [MtdpartSpec]: the class [NorMaster], what a driver promises; the
      specification of a partition, a device that knows its own bytes only; every
      partition of a [NorMaster] implements it.  [RaMtdProps]: the kernel's flash
      functions on a partition are those of [Flash] on a NOR device.
    - [RaspiProps]: the driver is a [NorMaster]; the probe; the whole stack from
      power on; an erase that is lost on a protected chip, and one that leaves its
      partition.
    - [MtdChar] ([mtdchar.c], and [/proc/mtd] of [mtdcore.c]): a partition as a
      file of user programs.  [MtdTool] ([user/mtd_write/mtd.c]): the program [mtd],
      in a monad of programs that may exit, over those files and the classes
      [Files] and [DevNodes] of the host.
    - [MtdToolFacts]: each call as what it does to the bytes of the partition
      ([holds]), on any [NorMaster]; the program's loops, with the
      partition as [flashed]: written, then erased, then as before.  [MtdToolProps]:
      an image is installed or too large, an erase, and a firmware upgrade from
      power on down to the chip.

    * The hardware NAT

    The configuration is that of the SDK's defaults for an RT3352: the first
    generation of the engine, IPv6, 4096 flows, no wireless or PCI devices.

    - [PpeRegs] ([util.c], [frame_engine.h]): the registers, as a map, and their
      accessors.  [Policy] ([policy.h]): the rules, as bit fields of two words,
      and the five tables in the policy memory with their pointers and enables.
      [Acl] ([acl_policy.c], [acl_ioctl.c]), [Accounting] ([ac_policy.c],
      [ac_ioctl.c]), [Metering] ([mtr_policy.c], [mtr_ioctl.c]): the three
      devices, each a rule list that is written to its tables at every change.
    - [PolicyEngine] joins them and states what the memory should hold;
      [PolicyFacts] and [PolicyRefine] (the class [Tracks]
      of what the basic operations keep) relate them; [PolicyGroups] is the
      allocation of counters and meters, [PolicySteps] what a request does to a
      list, [PolicyInv] and [PolicyBounds] the invariants; [PolicyProps] the
      theorems: the tables hold the rules, how far they can grow, groups are
      distinct, ranges and rule words are encoded right.
    - [Foe] ([foe_fdb.c]): the table of flows and its listing.
    - [PacketTx] ([ra_nat.c]): the parser and the transmit hook that binds a
      flow.  [PacketSpec] encodes a packet from an abstract [frame] and proves
      the parser on every frame; [PacketTxProps]: the entry that
      is bound describes exactly the headers of the packet.
    - [KeepAlive] ([ra_nat.c], [util.c], and the kernel's checksum): the receive
      hook, which undoes the translation of a keep-alive copy.  [Checksum] is
      arithmetic modulo 65535 as a setoid, with the checksum code against the sum
      of the words; [KeepAliveFacts], [KeepAliveProps]: behind its MAC
      addresses the copy gets back its addresses and ports, with valid checksums.
    - [PpeConfig] ([hwnat_ioctl.c], [ra_nat.c]): the settings and the start of the
      engine.  [HwNat]: the state of the whole driver, its ioctl, loading and
      unloading, and a step for everything that can happen.  [HwNatFacts] shows
      that settings leave the policy tables alone; [HwNatProps], that the tables
      are right in every run of the loaded module, and what can bind a flow.

    * Theorems

    Safety: [port_opens_only_on_valid_accept], [no_authorization_without_accept],
    [logoff_closes_port], [held_port_stays_held], [hwnat_entry_changes],
    [policy_groups_distinct].  Termination: [eapol_sm_step_terminates],
    [sm_alloc_then_ticks], [radius_request_expires], [eloop_timeout_fires].  Refinement and invariants:
    [radius_queue_invariant], [sta_table_refines_map], [nvram_refines_store],
    [eloop_queue_stable], [policy_tables_refine], [hwnat_policy_tables_ok],
    [tx_binds_mirror], [spi_partition_refines], [spi_config_is_nor].  Function:
    [firmware_upgrade_installs], [mtd_tool_installs], [mtd_tool_erases].  Reference
    equivalence: [md5_streaming_correct],
    [hmac_md5_rfc2104], [crc32_is_bit_serial], [keepalive_restores_packet].
    Round trips: messages, passwords, MPPE keys, EAP fragments, EAPOL keys, RC4,
    saved variables, policy rules.  Errors and bounds: [radius_verify_exact],
    [radius_parse_safe], [nvram_commit_overflows], [policy_tables_bounded], [mtd_tool_too_large], and the defects, each stated as
    what the code does.

    * Bounds

    Fuel stands for loops that end for a reason outside their body, and each
    bound is proved or explained where it is used: [sm_step_bound] (1300, by the
    measure of [EapolRun]), [carry_fuel] (2200: seconds carried out of a 32-bit
    count of microseconds), [FD_SETSIZE] (1024 readers), [chain_fuel] (1025: one
    more than MAX_STA_COUNT), [ms_scan_fuel] (256: a vendor attribute has fewer
    bytes), [grow_fuel] (8 doublings reach the largest message).  [range_shift]
    looks at 32 bits; the loop of [ip_fast_csum] leaves the buffer, if its end is
    wrong, before the length of the buffer runs out.  In the SPI driver a byte is
    through within 256 readings of the status and a sleep over within 16 rounds,
    which [SpiFlash] promises; pages are programmed within 5 ms and sectors erased
    within 950 ms, so that the waits of the driver, whose bounds are its own, end
    with a chip that is ready; [erase_loop] and [write_loop] run at most once for
    each sector and each byte.  The loops of [mtd] have no bound of their own
    and get 2^32 rounds ([ROUNDS]); each round erases a block or reads a byte, and
    both are counted in 32 bits.  [mtd_read] and [mtd_write] of [MtdChar] get a
    round for each byte.

    * Not modelled

    The command line and the child process of the daemon's [main], device
    registration of the NVRAM driver, debug output; code the build does not
    compile (a single RADIUS server, a kernel without the NVRAM driver).  A
    signal arrives between two handlers, not inside one, and the requests to
    the NVRAM driver are atomic, as its semaphore makes them.  The rest of
    the Linux kernel, the wireless driver, the C library and the flash hardware are
    oracles or interfaces.  Of the MTD layer the notifiers, the parsers of partition
    tables and the methods the SPI driver does not have (out-of-band data, bad
    blocks, protection registers, power) are left out; of the SPI driver, the
    command mode and the faster reads, which are not compiled for the RT5350, and
    [raspi_set_lock], which nothing calls; of the character devices, the requests for
    those methods; of [mtd], its messages, [sync], the reboot itself and the marks
    for two images, and [/proc/mtd] is taken to be read in one piece.  Of the hardware NAT, the second generation of the engine, the
    paths for wireless and PCI devices and the debug output are left out, and the
    engine itself is what may change the table of flows and the clock at any time.
    The web server and the other command line tools of the SDK are glue over these or
    third-party code. *)

From stdpp Require Export prelude list numbers.
From Stdlib Require Export ZArith Lia ZifyBool ZifyNat.

#[global] Set Default Goal Selector "!".

Declare Scope fw_scope.
Delimit Scope fw_scope with fw.
#[global] Open Scope Z_scope.
#[global] Open Scope fw_scope.

(** ** Record update

    C structs are records; an assignment [s->f = v] is [s ⦃ f := v ⦄] and an
    assignment to a field of an embedded struct [s->g.f = v] is
    [s ⦃ g / f := v ⦄].  A record type opts in with an [Eta] instance. *)

Class Eta (R : Type) := eta : R → R.
Class Setter {R A : Type} (proj : R → A) := set : A → R → R.
Arguments set {R A} proj {_} _ _ /.

Ltac solve_setter :=
  lazymatch goal with
  | |- @Setter ?R ?A ?proj =>
      let inst := constr:(_ : Eta R) in
      let body := eval red in inst in
      lazymatch eval pattern proj in body with
      | ?abs _ =>
          let t := eval cbv beta in (λ (v : A) (r : R), abs (λ _, v) r) in
          exact t
      end
  end.
#[export] Hint Extern 1 (Setter _) => solve_setter : typeclass_instances.

Notation "r ⦃ f := v ⦄" := (set f v r)
  (at level 1, f at level 1, left associativity, format "r ⦃ f  :=  v ⦄") : fw_scope.
Notation "r ⦃ g / f := v ⦄" := (set g%function (set f v (g%function r)) r)
  (at level 1, g at level 1, left associativity,
   format "r ⦃ g  /  f  :=  v ⦄") : fw_scope.

(** ** Machine integers

    A [w]-bit unsigned C value is a [Z] in [0, 2^w); [u8], [u16] and [u32] are
    the conversions to those types, [s32] the conversion to [int]. *)

Definition u8 (z : Z) : Z := z mod 256.
Definition u16 (z : Z) : Z := z mod 65536.
Definition u32 (z : Z) : Z := z mod 4294967296.
Definition s32 (z : Z) : Z := (z + 2147483648) mod 4294967296 - 2147483648.

(** [lia] with the Euclidean equations of every division and remainder. *)
Ltac zlia := zify; Z.div_mod_to_equations; lia.

Lemma u8_range z : 0 ≤ u8 z < 256.
Proof. unfold u8. zlia. Qed.
Lemma u16_range z : 0 ≤ u16 z < 65536.
Proof. unfold u16. zlia. Qed.
Lemma u32_range z : 0 ≤ u32 z < 4294967296.
Proof. unfold u32. zlia. Qed.
Lemma u8_id z : 0 ≤ z < 256 → u8 z = z.
Proof. intros. unfold u8. zlia. Qed.
Lemma u16_id z : 0 ≤ z < 65536 → u16 z = z.
Proof. intros. unfold u16. zlia. Qed.
Lemma u32_id z : 0 ≤ z < 4294967296 → u32 z = z.
Proof. intros. unfold u32. zlia. Qed.
Lemma s32_id z : -2147483648 ≤ z < 2147483648 → s32 z = z.
Proof. intros. unfold s32. zlia. Qed.

Create HintDb fw.
#[export] Hint Resolve u8_range u16_range u32_range : fw.

(** ** Outcomes

    [Ret a]: the C code returns [a].  [Oob]: it accesses memory outside the
    object it works on (undefined behaviour; nothing is claimed of the machine
    after it).  [NoFuel]: the step bound of the model ran out. *)

Inductive outcome (A : Type) : Type :=
| Ret (a : A)
| Oob
| NoFuel.
Arguments Ret {A} _.
Arguments Oob {A}.
Arguments NoFuel {A}.

#[export] Instance outcome_ret : MRet outcome := @Ret.
#[export] Instance outcome_bind : MBind outcome := λ A B k c,
  match c with Ret a => k a | Oob => Oob | NoFuel => NoFuel end.

Notation "'let*' x := c 'in' k" := (mbind (M:=outcome) (λ x, k) c)
  (at level 10, x pattern, c at level 100, k at level 200,
   format "'[v' 'let*'  x  :=  c  'in' '/' k ']'") : fw_scope.

Lemma outcome_bind_Ret {A B} (c : outcome A) (k : A → outcome B) b :
  mbind k c = Ret b ↔ ∃ a, c = Ret a ∧ k a = Ret b.
Proof. destruct c; cbn; [by split; [eauto|intros (? & [= ->] & ?)]|naive_solver..]. Qed.

(** Whether [malloc] (or [realloc]) of [n] bytes succeeds. *)
Class Malloc := malloc_ok : Z → bool.
Definition malloc_never_fails `{Malloc} : Prop := ∀ n, malloc_ok n = true.

(** ** Byte strings *)

Abbreviation bytes := (list Z).

Definition byte_ok (b : Z) : Prop := 0 ≤ b < 256.
Definition bytes_ok (l : bytes) : Prop := Forall byte_ok l.

#[export] Instance byte_ok_dec b : Decision (byte_ok b).
Proof. unfold byte_ok. apply _. Defined.
#[export] Instance bytes_ok_dec l : Decision (bytes_ok l).
Proof. unfold bytes_ok. apply _. Defined.

Lemma bytes_ok_app l k : bytes_ok (l ++ k) ↔ bytes_ok l ∧ bytes_ok k.
Proof. apply Forall_app. Qed.
Lemma bytes_ok_take n l : bytes_ok l → bytes_ok (take n l).
Proof. apply Forall_take. Qed.
Lemma bytes_ok_drop n l : bytes_ok l → bytes_ok (drop n l).
Proof. apply Forall_drop. Qed.
Lemma bytes_ok_replicate n b : byte_ok b → bytes_ok (replicate n b).
Proof. apply Forall_replicate. Qed.
#[export] Hint Resolve bytes_ok_take bytes_ok_drop bytes_ok_replicate : fw.

(** *** Byte order: network order is big endian; the target is little endian. *)

Definition be16 (z : Z) : bytes := [u8 (z / 256); u8 z].
Definition be32 (z : Z) : bytes :=
  [u8 (z / 16777216); u8 (z / 65536); u8 (z / 256); u8 z].
Definition le32 (z : Z) : bytes :=
  [u8 z; u8 (z / 256); u8 (z / 65536); u8 (z / 16777216)].

(** The value of a byte string read most (least) significant byte first. *)
Definition of_be (l : bytes) : Z := foldl (λ acc b, acc * 256 + b) 0 l.
Definition of_le (l : bytes) : Z := foldr (λ b acc, b + 256 * acc) 0 l.

Lemma of_be_be16 z : 0 ≤ z < 65536 → of_be (be16 z) = z.
Proof. intros. unfold of_be, be16, u8; cbn. zlia. Qed.
Lemma of_be_be32 z : 0 ≤ z < 4294967296 → of_be (be32 z) = z.
Proof. intros. unfold of_be, be32, u8; cbn. zlia. Qed.
Lemma of_le_le32 z : 0 ≤ z < 4294967296 → of_le (le32 z) = z.
Proof. intros. unfold of_le, le32, u8; cbn. zlia. Qed.
Lemma bytes_ok_be16 z : bytes_ok (be16 z).
Proof. repeat constructor; apply u8_range. Qed.
Lemma bytes_ok_be32 z : bytes_ok (be32 z).
Proof. repeat constructor; apply u8_range. Qed.
Lemma bytes_ok_le32 z : bytes_ok (le32 z).
Proof. repeat constructor; apply u8_range. Qed.
#[export] Hint Resolve bytes_ok_be16 bytes_ok_be32 bytes_ok_le32 : fw.

(** *** Exclusive or, byte by byte *)

Definition xor_bytes (l k : bytes) : bytes := zip_with Z.lxor l k.

Lemma xor_bytes_length l k :
  length l = length k → length (xor_bytes l k) = length l.
Proof. intros. unfold xor_bytes. rewrite length_zip_with. lia. Qed.

Lemma xor_bytes_involutive l k :
  length l = length k → xor_bytes (xor_bytes l k) k = l.
Proof.
  unfold xor_bytes. revert k.
  induction l as [|a l IH]; intros [|b k] Hlen; simplify_eq/=; [done|].
  f_equal; [|auto]. by rewrite Z.lxor_assoc, Z.lxor_nilpotent, Z.lxor_0_r.
Qed.

(** A number is a [w]-bit word when its bits from [w] on are clear. *)
Lemma bits_word w x :
  0 ≤ w → (∀ i, w ≤ i → Z.testbit x i = false) → 0 ≤ x < 2 ^ w.
Proof.
  intros Hw Hb. replace x with (x mod 2 ^ w).
  - apply Z.mod_pos_bound. lia.
  - apply Z.bits_inj'. intros i Hi. destruct (decide (i < w)).
    + by rewrite Z.mod_pow2_bits_low by lia.
    + rewrite Z.mod_pow2_bits_high, Hb by lia. done.
Qed.

Lemma word_bits w x i : 0 ≤ w → 0 ≤ x < 2 ^ w → w ≤ i → Z.testbit x i = false.
Proof.
  intros Hw Hx Hi. rewrite <-(Z.mod_small x (2 ^ w)) by done.
  by apply Z.mod_pow2_bits_high.
Qed.

Lemma lxor_word w a b :
  0 ≤ w → 0 ≤ a < 2 ^ w → 0 ≤ b < 2 ^ w → 0 ≤ Z.lxor a b < 2 ^ w.
Proof.
  intros Hw Ha Hb. apply bits_word; [done|]. intros i Hi.
  by rewrite Z.lxor_spec, !(word_bits w) by done.
Qed.

Lemma land_word w a b : 0 ≤ w → 0 ≤ a < 2 ^ w → 0 ≤ Z.land a b < 2 ^ w.
Proof.
  intros Hw Ha. apply bits_word; [done|]. intros i Hi.
  by rewrite Z.land_spec, (word_bits w) by done.
Qed.

Lemma lxor_byte_ok a b : byte_ok a → byte_ok b → byte_ok (Z.lxor a b).
Proof. apply (lxor_word 8). lia. Qed.
#[export] Hint Resolve lxor_byte_ok : fw.

Lemma xor_bytes_ok l k : bytes_ok l → bytes_ok k → bytes_ok (xor_bytes l k).
Proof.
  intros Hl. revert k. induction Hl; intros k Hk; destruct Hk; constructor;
    [by apply lxor_byte_ok | by apply IHHl].
Qed.

(** ** Bounds-checked access to a buffer

    A C buffer is the list of the bytes it holds.  [load buf off n] is
    [memcpy(dst, buf + off, n)] and [store buf off data] is
    [memcpy(buf + off, data, n)] with [n = length data]. *)

Definition load (buf : bytes) (off n : nat) : outcome bytes :=
  if decide (off + n ≤ length buf)%nat then Ret (take n (drop off buf)) else Oob.

Definition splice (buf : bytes) (off : nat) (data : bytes) : bytes :=
  take off buf ++ data ++ drop (off + length data) buf.

Definition store (buf : bytes) (off : nat) (data : bytes) : outcome bytes :=
  if decide (off + length data ≤ length buf)%nat then Ret (splice buf off data)
  else Oob.

Lemma splice_length buf off data :
  (off + length data ≤ length buf)%nat → length (splice buf off data) = length buf.
Proof. intros. unfold splice. rewrite !length_app, length_take, length_drop. lia. Qed.

Lemma splice_bytes_ok buf off data :
  bytes_ok buf → bytes_ok data → bytes_ok (splice buf off data).
Proof. intros. unfold splice. rewrite !bytes_ok_app. auto with fw. Qed.

Lemma load_Ret buf off n d :
  load buf off n = Ret d ↔ (off + n ≤ length buf)%nat ∧ d = take n (drop off buf).
Proof. unfold load. case_decide; naive_solver. Qed.

Lemma load_splice buf off data :
  (off + length data ≤ length buf)%nat →
  load (splice buf off data) off (length data) = Ret data.
Proof.
  intros H. apply load_Ret. rewrite splice_length by done. split; [done|].
  unfold splice. rewrite drop_app_length' by (rewrite length_take; lia).
  by rewrite take_app_length.
Qed.

Lemma store_Ret buf off data b :
  store buf off data = Ret b ↔ (off + length data ≤ length buf)%nat ∧ b = splice buf off data.
Proof. unfold store. case_decide; naive_solver. Qed.

Lemma lookup_splice (b d : bytes) off i :
  (off + length d ≤ length b)%nat →
  splice b off d !! i =
    if decide (off ≤ i < off + length d)%nat then d !! (i - off)%nat else b !! i.
Proof.
  intros Hl. unfold splice. destruct (decide (i < off)%nat) as [Hi|Hi].
  - rewrite decide_False, lookup_app_l by (rewrite ?length_take; lia).
    by rewrite lookup_take_lt.
  - rewrite lookup_app_r by (rewrite length_take; lia).
    rewrite length_take, Nat.min_l by lia. case_decide.
    + by rewrite lookup_app_l by lia.
    + rewrite lookup_app_r, lookup_drop by lia. f_equal. lia.
Qed.

(** Restoring the bytes a splice overwrote gives the buffer back. *)
Lemma splice_undo buf off data :
  (off + length data ≤ length buf)%nat →
  splice (splice buf off data) off (take (length data) (drop off buf)) = buf.
Proof.
  intros H. unfold splice at 1.
  rewrite length_take, length_drop, Nat.min_l by lia.
  unfold splice. rewrite take_app_length' by (rewrite length_take; lia).
  rewrite drop_app_ge by (rewrite length_take; lia).
  rewrite length_take, Nat.min_l by lia.
  replace (off + length data - off)%nat with (length data) by lia.
  rewrite drop_app_length. rewrite <-(drop_drop buf), take_drop, take_drop. done.
Qed.

(** ** Tactics *)

(** Split every conjunction and existential of the context. *)
Ltac destruct_hyps :=
  repeat match goal with
  | H : _ ∧ _ |- _ => destruct H
  | H : ∃ _, _ |- _ => destruct H
  end.

(** Case split on every boolean test the goal is stuck on. *)
Ltac split_ifs :=
  repeat match goal with
  | |- context [if ?b then _ else _] => destruct b eqn:?
  end.
