(* ===== verification/EapolSm.v ===== *)
(** The IEEE 802.1X Authenticator state machines of [rt2860apd]
    ([user/802.1x/eapol_sm.h] and [eapol_sm.c]).

    [eapol_state_machine] is the C struct with its four embedded machines.  The
    procedures the machines call on the rest of the daemon (the macros
    [setPortAuthorized], [txCannedFail], [txReq], ... at the top of
    [eapol_sm.c]) are the operations of the class [EapolEnv]: the machines are
    verified against that interface, whatever the daemon state [W] behind it
    is.  [sm_X_Y_Enter] is the body of [SM_STATE(X, Y)], [sm_X_Step] the body
    of [SM_STEP(X)]. *)

From S2P Require Import Prelude.

(** * Data *)

Inductive PortTypes := ForceUnauthorized | ForceAuthorized | Auto.
Inductive PortState := Unauthorized | Authorized.

Inductive auth_pae_state :=
| AUTH_PAE_INITIALIZE | AUTH_PAE_DISCONNECTED | AUTH_PAE_CONNECTING
| AUTH_PAE_AUTHENTICATING | AUTH_PAE_AUTHENTICATED | AUTH_PAE_ABORTING
| AUTH_PAE_HELD | AUTH_PAE_FORCE_AUTH | AUTH_PAE_FORCE_UNAUTH.

Inductive be_auth_state :=
| BE_AUTH_REQUEST | BE_AUTH_RESPONSE | BE_AUTH_SUCCESS | BE_AUTH_FAIL
| BE_AUTH_TIMEOUT | BE_AUTH_IDLE | BE_AUTH_INITIALIZE.

Inductive reauth_timer_state := REAUTH_TIMER_INITIALIZE | REAUTH_TIMER_REAUTHENTICATE.

Inductive auth_key_tx_state := AUTH_KEY_TX_NO_KEY_TRANSMIT | AUTH_KEY_TX_KEY_TRANSMIT.

#[export] Instance PortTypes_eq_dec : EqDecision PortTypes.
Proof. solve_decision. Defined.
#[export] Instance PortState_eq_dec : EqDecision PortState.
Proof. solve_decision. Defined.
#[export] Instance auth_pae_state_eq_dec : EqDecision auth_pae_state.
Proof. solve_decision. Defined.
#[export] Instance be_auth_state_eq_dec : EqDecision be_auth_state.
Proof. solve_decision. Defined.
#[export] Instance reauth_timer_state_eq_dec : EqDecision reauth_timer_state.
Proof. solve_decision. Defined.
#[export] Instance auth_key_tx_state_eq_dec : EqDecision auth_key_tx_state.
Proof. solve_decision. Defined.

(** [initialEAPMsg] (always [EAPRequestIdentity]) is read by no code and left
    out; the pointers [rtapd] and [sta] are the environment [W]. *)
Record eapol_auth_pae_sm := mk_auth_pae {
  eapLogoff : bool;
  eapStart : bool;
  portMode : PortTypes;
  reAuthCount : Z;
  rxInitialRsp : bool;
  quietPeriod : Z;
  reAuthMax : Z;
  txPeriod : Z;
  authEntersConnecting : Z;
  authEapLogoffsWhileConnecting : Z;
  authEntersAuthenticating : Z;
  authAuthSuccessesWhileAuthenticating : Z;
  authAuthTimeoutsWhileAuthenticating : Z;
  authAuthFailWhileAuthenticating : Z;
  authAuthReauthsWhileAuthenticating : Z;
  authAuthEapStartsWhileAuthenticating : Z;
  authAuthEapLogoffWhileAuthenticating : Z;
  authAuthReauthsWhileAuthenticated : Z;
  authAuthEapStartsWhileAuthenticated : Z;
  authAuthEapLogoffWhileAuthenticated : Z;
  pae_state : auth_pae_state
}.

Record eapol_backend_auth_sm := mk_be_auth {
  reqCount : Z;
  rxResp : bool;
  aSuccess : bool;
  aFail : bool;
  aReq : bool;
  idFromServer : Z;
  suppTimeout : Z;
  serverTimeout : Z;
  maxReq : Z;
  backendResponses : Z;
  backendAccessChallenges : Z;
  backendOtherRequestsToSupplicant : Z;
  backendNonNakResponsesFromSupplicant : Z;
  backendAuthSuccesses : Z;
  backendAuthFails : Z;
  be_state : be_auth_state
}.

Record eapol_reauth_timer_sm := mk_reauth_timer {
  reAuthPeriod : Z;
  reAuthEnabled : bool;
  rt_state : reauth_timer_state
}.

Record eapol_auth_key_tx := mk_auth_key_tx { kt_state : auth_key_tx_state }.

Record eapol_state_machine := mk_sm {
  aWhile : Z;
  quietWhile : Z;
  reAuthWhen : Z;
  txWhen : Z;
  authAbort : bool;
  authFail : bool;
  authStart : bool;
  authTimeout : bool;
  authSuccess : bool;
  currentId : Z;
  initialize : bool;
  keyAvailable : bool;
  keyTxEnabled : bool;
  portControl : PortTypes;
  portEnabled : bool;
  portStatus : PortState;
  portValid : bool;
  reAuthenticate : bool;
  auth_pae : eapol_auth_pae_sm;
  be_auth : eapol_backend_auth_sm;
  reauth_timer : eapol_reauth_timer_sm;
  auth_key_tx : eapol_auth_key_tx
}.

#[export] Instance eta_auth_pae : Eta eapol_auth_pae_sm := λ r,
  mk_auth_pae (eapLogoff r) (eapStart r) (portMode r) (reAuthCount r) (rxInitialRsp r)
    (quietPeriod r) (reAuthMax r) (txPeriod r) (authEntersConnecting r)
    (authEapLogoffsWhileConnecting r) (authEntersAuthenticating r)
    (authAuthSuccessesWhileAuthenticating r) (authAuthTimeoutsWhileAuthenticating r)
    (authAuthFailWhileAuthenticating r) (authAuthReauthsWhileAuthenticating r)
    (authAuthEapStartsWhileAuthenticating r) (authAuthEapLogoffWhileAuthenticating r)
    (authAuthReauthsWhileAuthenticated r) (authAuthEapStartsWhileAuthenticated r)
    (authAuthEapLogoffWhileAuthenticated r) (pae_state r).
#[export] Instance eta_be_auth : Eta eapol_backend_auth_sm := λ r,
  mk_be_auth (reqCount r) (rxResp r) (aSuccess r) (aFail r) (aReq r) (idFromServer r)
    (suppTimeout r) (serverTimeout r) (maxReq r) (backendResponses r)
    (backendAccessChallenges r) (backendOtherRequestsToSupplicant r)
    (backendNonNakResponsesFromSupplicant r) (backendAuthSuccesses r)
    (backendAuthFails r) (be_state r).
#[export] Instance eta_reauth_timer : Eta eapol_reauth_timer_sm := λ r,
  mk_reauth_timer (reAuthPeriod r) (reAuthEnabled r) (rt_state r).
#[export] Instance eta_auth_key_tx : Eta eapol_auth_key_tx := λ r,
  mk_auth_key_tx (kt_state r).
#[export] Instance eta_sm : Eta eapol_state_machine := λ r,
  mk_sm (aWhile r) (quietWhile r) (reAuthWhen r) (txWhen r) (authAbort r) (authFail r)
    (authStart r) (authTimeout r) (authSuccess r) (currentId r) (initialize r)
    (keyAvailable r) (keyTxEnabled r) (portControl r) (portEnabled r) (portStatus r)
    (portValid r) (reAuthenticate r) (auth_pae r) (be_auth r) (reauth_timer r)
    (auth_key_tx r).

(** Counters are [unsigned int]; [count_if b c] is [c] after [if (b) c++;]. *)
Definition incr (c : Z) : Z := u32 (c + 1).
Definition count_if (b : bool) (c : Z) : Z := if b then incr c else c.

(** * The procedures the machines call *)

(** [ieee802_1x_set_sta_authorized] also reads [sm->authSuccess], its first
    argument here; the last two are [eloop_register_timeout(1, 0,
    eapol_port_timers_tick, rtapd, sm)] and the matching
    [eloop_cancel_timeout]. *)
Class EapolEnv (W : Type) := {
  set_sta_authorized : bool → bool → W → W;
  tx_canned_eap : Z → bool → W → W;
  request_identity : Z → W → W;
  tx_req : Z → W → W;
  send_resp_to_server : W → W;
  tx_key : Z → W → W;
  eloop_register_tick : W → W;
  eloop_cancel_tick : W → W
}.

Section Machines.
Context {W : Type} `{EapolEnv W}.

Definition st : Type := eapol_state_machine * W.
Implicit Types sm : eapol_state_machine.
Implicit Types s : st.

Definition setPortAuthorized sm (w : W) : W := set_sta_authorized (authSuccess sm) true w.
Definition setPortUnauthorized sm (w : W) : W := set_sta_authorized (authSuccess sm) false w.
Definition txCannedFail (id : Z) (w : W) : W := tx_canned_eap id false w.
Definition txCannedSuccess (id : Z) (w : W) : W := tx_canned_eap id true w.

(** [if (b) s = f(s);] *)
Definition when {A} (b : bool) (f : A → A) (a : A) : A := if b then f a else a.

(** * Authenticator PAE state machine *)

Definition sm_AUTH_PAE_INITIALIZE_Enter (s : st) : st :=
  let '(sm, w) := s in
  let sm := sm ⦃ auth_pae / pae_state := AUTH_PAE_INITIALIZE ⦄ in
  let sm := sm ⦃ currentId := 1 ⦄ in
  (sm ⦃ auth_pae / portMode := Auto ⦄, w).

Definition sm_AUTH_PAE_DISCONNECTED_Enter (s : st) : st :=
  let '(sm, w) := s in
  let from_initialize := bool_decide (pae_state (auth_pae sm) = AUTH_PAE_INITIALIZE) in
  let sm := sm ⦃ auth_pae / authEapLogoffsWhileConnecting :=
      count_if (bool_decide (pae_state (auth_pae sm) = AUTH_PAE_CONNECTING) && eapLogoff (auth_pae sm))
        (authEapLogoffsWhileConnecting (auth_pae sm)) ⦄ in
  let sm := sm ⦃ auth_pae / pae_state := AUTH_PAE_DISCONNECTED ⦄ in
  let sm := sm ⦃ portStatus := Unauthorized ⦄ in
  let w := setPortUnauthorized sm w in
  let sm := sm ⦃ auth_pae / eapLogoff := false ⦄ in
  let sm := sm ⦃ auth_pae / reAuthCount := 0 ⦄ in
  let w := when (negb from_initialize) (txCannedFail (currentId sm)) w in
  (sm ⦃ currentId := if from_initialize then currentId sm else u8 (currentId sm + 1) ⦄, w).

Definition sm_AUTH_PAE_CONNECTING_Enter (s : st) : st :=
  let '(sm, w) := s in
  let sm := sm ⦃ auth_pae / authEntersConnecting :=
      count_if (bool_decide (pae_state (auth_pae sm) ≠ AUTH_PAE_CONNECTING))
        (authEntersConnecting (auth_pae sm)) ⦄ in
  let sm := sm ⦃ auth_pae / authAuthReauthsWhileAuthenticated :=
      count_if (bool_decide (pae_state (auth_pae sm) = AUTH_PAE_AUTHENTICATED) && reAuthenticate sm)
        (authAuthReauthsWhileAuthenticated (auth_pae sm)) ⦄ in
  let sm := sm ⦃ auth_pae / authAuthEapStartsWhileAuthenticated :=
      count_if (bool_decide (pae_state (auth_pae sm) = AUTH_PAE_AUTHENTICATED) && eapStart (auth_pae sm))
        (authAuthEapStartsWhileAuthenticated (auth_pae sm)) ⦄ in
  let sm := sm ⦃ auth_pae / authAuthEapLogoffWhileAuthenticated :=
      count_if (bool_decide (pae_state (auth_pae sm) = AUTH_PAE_AUTHENTICATED) && eapLogoff (auth_pae sm))
        (authAuthEapLogoffWhileAuthenticated (auth_pae sm)) ⦄ in
  let sm := sm ⦃ auth_pae / pae_state := AUTH_PAE_CONNECTING ⦄ in
  let sm := sm ⦃ auth_pae / eapStart := false ⦄ in
  let sm := sm ⦃ reAuthenticate := false ⦄ in
  let sm := sm ⦃ txWhen := s32 (txPeriod (auth_pae sm)) ⦄ in
  let sm := sm ⦃ auth_pae / rxInitialRsp := false ⦄ in
  let w := request_identity (currentId sm) w in
  (sm ⦃ auth_pae / reAuthCount := u32 (reAuthCount (auth_pae sm) + 1) ⦄, w).

Definition sm_AUTH_PAE_HELD_Enter (s : st) : st :=
  let '(sm, w) := s in
  let sm := sm ⦃ auth_pae / authAuthFailWhileAuthenticating :=
      count_if (bool_decide (pae_state (auth_pae sm) = AUTH_PAE_AUTHENTICATING) && authFail sm)
        (authAuthFailWhileAuthenticating (auth_pae sm)) ⦄ in
  let sm := sm ⦃ auth_pae / pae_state := AUTH_PAE_HELD ⦄ in
  let sm := sm ⦃ portStatus := Unauthorized ⦄ in
  let w := setPortUnauthorized sm w in
  let sm := sm ⦃ quietWhile := s32 (quietPeriod (auth_pae sm)) ⦄ in
  let sm := sm ⦃ auth_pae / eapLogoff := false ⦄ in
  (sm ⦃ currentId := u8 (currentId sm + 1) ⦄, w).

Definition sm_AUTH_PAE_AUTHENTICATED_Enter (s : st) : st :=
  let '(sm, w) := s in
  let sm := sm ⦃ auth_pae / authAuthSuccessesWhileAuthenticating :=
      count_if (bool_decide (pae_state (auth_pae sm) = AUTH_PAE_AUTHENTICATING) && authSuccess sm)
        (authAuthSuccessesWhileAuthenticating (auth_pae sm)) ⦄ in
  let sm := sm ⦃ auth_pae / pae_state := AUTH_PAE_AUTHENTICATED ⦄ in
  let sm := sm ⦃ portStatus := Authorized ⦄ in
  let w := setPortAuthorized sm w in
  let sm := sm ⦃ auth_pae / reAuthCount := 0 ⦄ in
  (sm ⦃ currentId := u8 (currentId sm + 1) ⦄, w).

Definition sm_AUTH_PAE_AUTHENTICATING_Enter (s : st) : st :=
  let '(sm, w) := s in
  let sm := sm ⦃ auth_pae / authEntersAuthenticating :=
      count_if (bool_decide (pae_state (auth_pae sm) = AUTH_PAE_CONNECTING) && rxInitialRsp (auth_pae sm))
        (authEntersAuthenticating (auth_pae sm)) ⦄ in
  let sm := sm ⦃ auth_pae / pae_state := AUTH_PAE_AUTHENTICATING ⦄ in
  let sm := sm ⦃ authSuccess := false ⦄ in
  let sm := sm ⦃ authFail := false ⦄ in
  let sm := sm ⦃ authTimeout := false ⦄ in
  (sm ⦃ authStart := true ⦄, w).

Definition sm_AUTH_PAE_ABORTING_Enter (s : st) : st :=
  let '(sm, w) := s in
  let sm := sm ⦃ auth_pae / authAuthTimeoutsWhileAuthenticating :=
      count_if (bool_decide (pae_state (auth_pae sm) = AUTH_PAE_AUTHENTICATING) && authTimeout sm)
        (authAuthTimeoutsWhileAuthenticating (auth_pae sm)) ⦄ in
  let sm := sm ⦃ auth_pae / authAuthReauthsWhileAuthenticating :=
      count_if (bool_decide (pae_state (auth_pae sm) = AUTH_PAE_AUTHENTICATING) && reAuthenticate sm)
        (authAuthReauthsWhileAuthenticating (auth_pae sm)) ⦄ in
  let sm := sm ⦃ auth_pae / authAuthEapStartsWhileAuthenticating :=
      count_if (bool_decide (pae_state (auth_pae sm) = AUTH_PAE_AUTHENTICATING) && eapStart (auth_pae sm))
        (authAuthEapStartsWhileAuthenticating (auth_pae sm)) ⦄ in
  let sm := sm ⦃ auth_pae / authAuthEapLogoffWhileAuthenticating :=
      count_if (bool_decide (pae_state (auth_pae sm) = AUTH_PAE_AUTHENTICATING) && eapLogoff (auth_pae sm))
        (authAuthEapLogoffWhileAuthenticating (auth_pae sm)) ⦄ in
  let sm := sm ⦃ auth_pae / pae_state := AUTH_PAE_ABORTING ⦄ in
  let sm := sm ⦃ authAbort := true ⦄ in
  (sm ⦃ currentId := u8 (currentId sm + 1) ⦄, w).

Definition sm_AUTH_PAE_FORCE_AUTH_Enter (s : st) : st :=
  let '(sm, w) := s in
  let sm := sm ⦃ auth_pae / pae_state := AUTH_PAE_FORCE_AUTH ⦄ in
  let sm := sm ⦃ portStatus := Authorized ⦄ in
  let w := setPortAuthorized sm w in
  let sm := sm ⦃ auth_pae / portMode := ForceAuthorized ⦄ in
  let sm := sm ⦃ auth_pae / eapStart := false ⦄ in
  let w := txCannedSuccess (currentId sm) w in
  (sm ⦃ currentId := u8 (currentId sm + 1) ⦄, w).

Definition sm_AUTH_PAE_FORCE_UNAUTH_Enter (s : st) : st :=
  let '(sm, w) := s in
  let sm := sm ⦃ auth_pae / pae_state := AUTH_PAE_FORCE_UNAUTH ⦄ in
  let sm := sm ⦃ portStatus := Unauthorized ⦄ in
  let w := setPortUnauthorized sm w in
  let sm := sm ⦃ auth_pae / portMode := ForceUnauthorized ⦄ in
  let sm := sm ⦃ auth_pae / eapStart := false ⦄ in
  let w := txCannedFail (currentId sm) w in
  (sm ⦃ currentId := u8 (currentId sm + 1) ⦄, w).

Definition sm_AUTH_PAE_Step (s : st) : st :=
  let '(sm, w) := s in
  let pae := auth_pae sm in
  if (bool_decide (portControl sm = Auto) && bool_decide (portMode pae ≠ portControl sm))
     || initialize sm || negb (portEnabled sm)
  then sm_AUTH_PAE_INITIALIZE_Enter s
  else if bool_decide (portControl sm = ForceAuthorized)
          && bool_decide (portMode pae ≠ portControl sm)
          && negb (initialize sm || negb (portEnabled sm))
  then sm_AUTH_PAE_FORCE_AUTH_Enter s
  else if bool_decide (portControl sm = ForceUnauthorized)
          && bool_decide (portMode pae ≠ portControl sm)
          && negb (initialize sm || negb (portEnabled sm))
  then sm_AUTH_PAE_FORCE_UNAUTH_Enter s
  else
    match pae_state pae with
    | AUTH_PAE_INITIALIZE => sm_AUTH_PAE_DISCONNECTED_Enter s
    | AUTH_PAE_DISCONNECTED => sm_AUTH_PAE_CONNECTING_Enter s
    | AUTH_PAE_HELD =>
        if quietWhile sm =? 0 then sm_AUTH_PAE_CONNECTING_Enter s else s
    | AUTH_PAE_CONNECTING =>
        if eapLogoff pae || (reAuthMax pae <? reAuthCount pae)
        then sm_AUTH_PAE_DISCONNECTED_Enter s
        else if rxInitialRsp pae && (reAuthCount pae <=? reAuthMax pae)
        then sm_AUTH_PAE_AUTHENTICATING_Enter s
        else if ((txWhen sm =? 0) || eapStart pae || reAuthenticate sm)
                && (reAuthCount pae <=? reAuthMax pae)
        then sm_AUTH_PAE_CONNECTING_Enter s
        else s
    | AUTH_PAE_AUTHENTICATED =>
        if eapStart pae || reAuthenticate sm then sm_AUTH_PAE_CONNECTING_Enter s
        else if eapLogoff pae || negb (portValid sm) then sm_AUTH_PAE_DISCONNECTED_Enter s
        else s
    | AUTH_PAE_AUTHENTICATING =>
        if authSuccess sm && portValid sm then sm_AUTH_PAE_AUTHENTICATED_Enter s
        else if authFail sm then sm_AUTH_PAE_HELD_Enter s
        else if reAuthenticate sm || eapStart pae || eapLogoff pae || authTimeout sm
        then sm_AUTH_PAE_ABORTING_Enter s
        else s
    | AUTH_PAE_ABORTING =>
        if eapLogoff pae && negb (authAbort sm) then sm_AUTH_PAE_DISCONNECTED_Enter s
        else if negb (eapLogoff pae) && negb (authAbort sm)
        then sm_AUTH_PAE_CONNECTING_Enter s
        else s
    | AUTH_PAE_FORCE_AUTH => if eapStart pae then sm_AUTH_PAE_FORCE_AUTH_Enter s else s
    | AUTH_PAE_FORCE_UNAUTH => if eapStart pae then sm_AUTH_PAE_FORCE_UNAUTH_Enter s else s
    end.

(** * Backend Authentication state machine *)

Definition sm_BE_AUTH_INITIALIZE_Enter (s : st) : st :=
  let '(sm, w) := s in
  let sm := sm ⦃ be_auth / be_state := BE_AUTH_INITIALIZE ⦄ in
  (sm ⦃ authAbort := false ⦄, w).

Definition sm_BE_AUTH_REQUEST_Enter (s : st) : st :=
  let '(sm, w) := s in
  let sm := sm ⦃ be_auth / be_state := BE_AUTH_REQUEST ⦄ in
  let sm := sm ⦃ currentId := idFromServer (be_auth sm) ⦄ in
  let w := tx_req (currentId sm) w in
  let sm := sm ⦃ be_auth / backendOtherRequestsToSupplicant :=
                 incr (backendOtherRequestsToSupplicant (be_auth sm)) ⦄ in
  let sm := sm ⦃ aWhile := s32 (suppTimeout (be_auth sm)) ⦄ in
  (sm ⦃ be_auth / reqCount := u32 (reqCount (be_auth sm) + 1) ⦄, w).

Definition sm_BE_AUTH_RESPONSE_Enter (s : st) : st :=
  let '(sm, w) := s in
  let sm := sm ⦃ be_auth / be_state := BE_AUTH_RESPONSE ⦄ in
  let sm := sm ⦃ be_auth / aSuccess := false ⦄ ⦃ be_auth / aReq := false ⦄ in
  let sm := sm ⦃ authTimeout := false ⦄ in
  let sm := sm ⦃ be_auth / aFail := false ⦄ ⦃ be_auth / rxResp := false ⦄ in
  let sm := sm ⦃ aWhile := s32 (serverTimeout (be_auth sm)) ⦄ in
  let sm := sm ⦃ be_auth / reqCount := 0 ⦄ in
  let w := send_resp_to_server w in
  (sm ⦃ be_auth / backendResponses := incr (backendResponses (be_auth sm)) ⦄, w).

Definition sm_BE_AUTH_SUCCESS_Enter (s : st) : st :=
  let '(sm, w) := s in
  let sm := sm ⦃ be_auth / be_state := BE_AUTH_SUCCESS ⦄ in
  let sm := sm ⦃ currentId := idFromServer (be_auth sm) ⦄ in
  let w := tx_req (currentId sm) w in
  (sm ⦃ authSuccess := true ⦄, w).

Definition sm_BE_AUTH_FAIL_Enter (s : st) : st :=
  let '(sm, w) := s in
  let sm := sm ⦃ be_auth / be_state := BE_AUTH_FAIL ⦄ in
  let sm := sm ⦃ currentId := idFromServer (be_auth sm) ⦄ in
  let w := tx_req (currentId sm) w in
  (sm ⦃ authFail := true ⦄, w).

Definition sm_BE_AUTH_TIMEOUT_Enter (s : st) : st :=
  let '(sm, w) := s in
  let sm := sm ⦃ be_auth / be_state := BE_AUTH_TIMEOUT ⦄ in
  let w := when (bool_decide (portStatus sm = Unauthorized))
             (txCannedFail (currentId sm)) w in
  (sm ⦃ authTimeout := true ⦄, w).

Definition sm_BE_AUTH_IDLE_Enter (s : st) : st :=
  let '(sm, w) := s in
  let sm := sm ⦃ be_auth / be_state := BE_AUTH_IDLE ⦄ in
  let sm := sm ⦃ authStart := false ⦄ in
  (sm ⦃ be_auth / reqCount := 0 ⦄, w).

Definition sm_BE_AUTH_Step (s : st) : st :=
  let '(sm, w) := s in
  let be := be_auth sm in
  if bool_decide (portControl sm ≠ Auto) || initialize sm || authAbort sm
  then sm_BE_AUTH_INITIALIZE_Enter s
  else
    match be_state be with
    | BE_AUTH_INITIALIZE => sm_BE_AUTH_IDLE_Enter s
    | BE_AUTH_REQUEST =>
        if (aWhile sm =? 0) && negb (reqCount be =? maxReq be)
        then sm_BE_AUTH_REQUEST_Enter s
        else if rxResp be then sm_BE_AUTH_RESPONSE_Enter s
        else if (aWhile sm =? 0) && (maxReq be <=? reqCount be)
        then sm_BE_AUTH_TIMEOUT_Enter s
        else s
    | BE_AUTH_RESPONSE =>
        if aReq be then
          let sm := sm ⦃ be_auth / backendAccessChallenges :=
                         incr (backendAccessChallenges (be_auth sm)) ⦄ in
          sm_BE_AUTH_REQUEST_Enter (sm, w)
        else if aWhile sm =? 0 then sm_BE_AUTH_TIMEOUT_Enter s
        else if aFail be then
          let sm := sm ⦃ be_auth / backendAuthFails :=
                         incr (backendAuthFails (be_auth sm)) ⦄ in
          sm_BE_AUTH_FAIL_Enter (sm, w)
        else if aSuccess be then
          let sm := sm ⦃ be_auth / backendAuthSuccesses :=
                         incr (backendAuthSuccesses (be_auth sm)) ⦄ in
          sm_BE_AUTH_SUCCESS_Enter (sm, w)
        else s
    | BE_AUTH_SUCCESS => sm_BE_AUTH_IDLE_Enter s
    | BE_AUTH_FAIL => sm_BE_AUTH_IDLE_Enter s
    | BE_AUTH_TIMEOUT => sm_BE_AUTH_IDLE_Enter s
    | BE_AUTH_IDLE => if authStart sm then sm_BE_AUTH_RESPONSE_Enter s else s
    end.

(** * Reauthentication Timer state machine *)

Definition sm_REAUTH_TIMER_INITIALIZE_Enter (s : st) : st :=
  let '(sm, w) := s in
  let sm := sm ⦃ reauth_timer / rt_state := REAUTH_TIMER_INITIALIZE ⦄ in
  (sm ⦃ reAuthWhen := s32 (reAuthPeriod (reauth_timer sm)) ⦄, w).

Definition sm_REAUTH_TIMER_REAUTHENTICATE_Enter (s : st) : st :=
  let '(sm, w) := s in
  let sm := sm ⦃ reauth_timer / rt_state := REAUTH_TIMER_REAUTHENTICATE ⦄ in
  (sm ⦃ reAuthenticate := true ⦄, w).

Definition sm_REAUTH_TIMER_Step (s : st) : st :=
  let '(sm, w) := s in
  if bool_decide (portControl sm ≠ Auto) || initialize sm
     || bool_decide (portStatus sm = Unauthorized)
     || negb (reAuthEnabled (reauth_timer sm))
  then sm_REAUTH_TIMER_INITIALIZE_Enter s
  else
    match rt_state (reauth_timer sm) with
    | REAUTH_TIMER_INITIALIZE =>
        if reAuthWhen sm =? 0 then sm_REAUTH_TIMER_REAUTHENTICATE_Enter s else s
    | REAUTH_TIMER_REAUTHENTICATE => sm_REAUTH_TIMER_INITIALIZE_Enter s
    end.

(** * Authenticator Key Transmit state machine *)

Definition sm_AUTH_KEY_TX_NO_KEY_TRANSMIT_Enter (s : st) : st :=
  let '(sm, w) := s in
  (sm ⦃ auth_key_tx / kt_state := AUTH_KEY_TX_NO_KEY_TRANSMIT ⦄, w).

Definition sm_AUTH_KEY_TX_KEY_TRANSMIT_Enter (s : st) : st :=
  let '(sm, w) := s in
  let sm := sm ⦃ auth_key_tx / kt_state := AUTH_KEY_TX_KEY_TRANSMIT ⦄ in
  let w := tx_key (currentId sm) w in
  (sm ⦃ keyAvailable := false ⦄, w).

Definition sm_AUTH_KEY_TX_Step (s : st) : st :=
  let '(sm, w) := s in
  if initialize sm || bool_decide (portControl sm ≠ Auto)
  then sm_AUTH_KEY_TX_NO_KEY_TRANSMIT_Enter s
  else
    match kt_state (auth_key_tx sm) with
    | AUTH_KEY_TX_NO_KEY_TRANSMIT =>
        if keyTxEnabled sm && keyAvailable sm && authSuccess sm
        then sm_AUTH_KEY_TX_KEY_TRANSMIT_Enter s
        else s
    | AUTH_KEY_TX_KEY_TRANSMIT =>
        if negb (keyTxEnabled sm) || authFail sm || eapLogoff (auth_pae sm)
        then sm_AUTH_KEY_TX_NO_KEY_TRANSMIT_Enter s
        else if keyAvailable sm then sm_AUTH_KEY_TX_KEY_TRANSMIT_Enter s
        else s
    end.

(** * Running the machines *)

(** One pass of the [do ... while] body of [eapol_sm_step]. *)
Definition sm_round (s : st) : st :=
  sm_AUTH_KEY_TX_Step (sm_REAUTH_TIMER_Step (sm_BE_AUTH_Step (sm_AUTH_PAE_Step s))).

(** The four states the loop condition compares. *)
Definition states (sm : eapol_state_machine) :
    auth_pae_state * be_auth_state * reauth_timer_state * auth_key_tx_state :=
  (pae_state (auth_pae sm), be_state (be_auth sm), rt_state (reauth_timer sm),
   kt_state (auth_key_tx sm)).

Fixpoint eapol_sm_step_fuel (fuel : nat) (s : st) : outcome st :=
  match fuel with
  | O => NoFuel
  | S fuel =>
      let s' := sm_round s in
      if bool_decide (states (fst s) ≠ states (fst s')) then eapol_sm_step_fuel fuel s'
      else Ret s'
  end.

(** [eapol_sm_step_terminates] below shows that this bound is never reached. *)
Definition sm_step_bound : nat := 1300.

Definition eapol_sm_step (s : st) : outcome st := eapol_sm_step_fuel sm_step_bound s.

(** [eapol_port_timers_tick], run once a second. *)
Definition tick_timer (t : Z) : Z := if 0 <? t then t - 1 else t.

Definition eapol_port_timers_tick (s : st) : outcome st :=
  let '(sm, w) := s in
  let sm := sm ⦃ aWhile := tick_timer (aWhile sm) ⦄ in
  let sm := sm ⦃ quietWhile := tick_timer (quietWhile sm) ⦄ in
  let sm := sm ⦃ reAuthWhen := tick_timer (reAuthWhen sm) ⦄ in
  let sm := sm ⦃ txWhen := tick_timer (txWhen sm) ⦄ in
  let* (sm, w) := eapol_sm_step (sm, w) in
  Ret (sm, eloop_register_tick w).

Definition eapol_sm_initialize (s : st) : outcome st :=
  let '(sm, w) := s in
  let* (sm, w) := eapol_sm_step (sm ⦃ initialize := true ⦄, w) in
  let* (sm, w) := eapol_sm_step (sm ⦃ initialize := false ⦄, w) in
  let w := eloop_cancel_tick w in
  let w := eloop_register_tick w in
  Ret (sm, w).

(** [memset(sm, 0, sizeof( *sm))] *)
Definition sm_zero : eapol_state_machine :=
  mk_sm 0 0 0 0 false false false false false 0 false false false ForceUnauthorized false
    Unauthorized false false
    (mk_auth_pae false false ForceUnauthorized 0 false 0 0 0 0 0 0 0 0 0 0 0 0 0 0 0
       AUTH_PAE_INITIALIZE)
    (mk_be_auth 0 false false false false 0 0 0 0 0 0 0 0 0 0 BE_AUTH_REQUEST)
    (mk_reauth_timer 0 false REAUTH_TIMER_INITIALIZE)
    (mk_auth_key_tx AUTH_KEY_TX_NO_KEY_TRANSMIT).

Definition AUTH_PAE_DEFAULT_reAuthMax : Z := 2.
Definition AUTH_PAE_DEFAULT_txPeriod : Z := 30.
Definition BE_AUTH_DEFAULT_suppTimeout : Z := 30.
Definition BE_AUTH_DEFAULT_serverTimeout : Z := 30.
Definition BE_AUTH_DEFAULT_maxReq : Z := 2.
Definition REAUTH_TIMER_DEFAULT_reAuthEnabled : bool := true.
Definition REAUTH_TIMER_DEFAULT_reAuthPeriod : Z := 3600.

(** The fields of [rtapd->conf] that [eapol_sm_alloc] reads. *)
Record sm_conf := mk_sm_conf {
  quiet_interval : Z;
  session_timeout_set : Z;
  session_timeout_interval : Z
}.

(** [eapol_sm_alloc] up to its call of [eapol_sm_initialize]. *)
Definition eapol_sm_defaults (conf : sm_conf) : eapol_state_machine :=
  let sm := sm_zero in
  let sm := sm ⦃ auth_pae / pae_state := AUTH_PAE_INITIALIZE ⦄ in
  let sm := sm ⦃ auth_pae / quietPeriod := u32 (quiet_interval conf) ⦄ in
  let sm := sm ⦃ auth_pae / reAuthMax := AUTH_PAE_DEFAULT_reAuthMax ⦄ in
  let sm := sm ⦃ auth_pae / txPeriod := AUTH_PAE_DEFAULT_txPeriod ⦄ in
  let sm := sm ⦃ be_auth / be_state := BE_AUTH_INITIALIZE ⦄ in
  let sm := sm ⦃ be_auth / suppTimeout := BE_AUTH_DEFAULT_suppTimeout ⦄ in
  let sm := sm ⦃ be_auth / serverTimeout := BE_AUTH_DEFAULT_serverTimeout ⦄ in
  let sm := sm ⦃ be_auth / maxReq := BE_AUTH_DEFAULT_maxReq ⦄ in
  let sm := sm ⦃ reauth_timer / rt_state := REAUTH_TIMER_INITIALIZE ⦄ in
  let sm := sm ⦃ reauth_timer / reAuthEnabled := REAUTH_TIMER_DEFAULT_reAuthEnabled ⦄ in
  let sm :=
    if session_timeout_set conf =? 1 then
      let sm := sm ⦃ reauth_timer / reAuthPeriod := u32 (session_timeout_interval conf) ⦄ in
      sm ⦃ reauth_timer / reAuthEnabled := true ⦄
    else sm ⦃ reauth_timer / reAuthPeriod := REAUTH_TIMER_DEFAULT_reAuthPeriod ⦄ in
  let sm := sm ⦃ portEnabled := false ⦄ in
  let sm := sm ⦃ portControl := Auto ⦄ in
  let sm := sm ⦃ currentId := 1 ⦄ in
  let sm := sm ⦃ keyAvailable := false ⦄ in
  let sm := sm ⦃ keyTxEnabled := true ⦄ in
  sm ⦃ portValid := true ⦄.

(** [sizeof(struct eapol_state_machine)] *)
Definition sizeof_eapol_state_machine : Z := 248.

(** [None] is NULL. *)
Definition eapol_sm_alloc `{Malloc} (conf : sm_conf) (w : W) : outcome (option st) :=
  if negb (malloc_ok sizeof_eapol_state_machine) then Ret None
  else let* s := eapol_sm_initialize (eapol_sm_defaults conf, w) in Ret (Some s).

(** [eapol_sm_free(sm)] of a machine that is not NULL. *)
Definition eapol_sm_free (w : W) : W := eloop_cancel_tick w.

End Machines.

#[global] Arguments sm_step_bound : simpl never.
#[global] Arguments eapol_sm_step {W _} s : simpl never.
