(* ===== verification/EapolFacts.v ===== *)
(** Facts about the 802.1X Authenticator state machines of [EapolSm]: the
    well-formedness invariant, the case analysis of a step of the PAE machine, and
    the rule of invariants for a run of the machines. *)

From S2P Require Import Prelude EapolSm.

(** * Well-formed machines

    What [eapol_sm_alloc] establishes and every operation of the daemon
    preserves: the port is under automatic control, the constants have their
    defaults where the code never changes them, the counters respect their
    bounds, and the states that stand for an unauthorized port do. *)

Record sm_wf (sm : eapol_state_machine) : Prop := {
  wf_control : portControl sm = Auto;
  wf_valid : portValid sm = true;
  wf_reAuthMax : reAuthMax (auth_pae sm) = AUTH_PAE_DEFAULT_reAuthMax;
  wf_txPeriod : txPeriod (auth_pae sm) = AUTH_PAE_DEFAULT_txPeriod;
  wf_serverTimeout : serverTimeout (be_auth sm) = BE_AUTH_DEFAULT_serverTimeout;
  wf_maxReq : maxReq (be_auth sm) = BE_AUTH_DEFAULT_maxReq;
  wf_noforce : pae_state (auth_pae sm) ≠ AUTH_PAE_FORCE_AUTH
               ∧ pae_state (auth_pae sm) ≠ AUTH_PAE_FORCE_UNAUTH;
  wf_held : pae_state (auth_pae sm) = AUTH_PAE_HELD → portStatus sm = Unauthorized;
  wf_authenticated :
    pae_state (auth_pae sm) = AUTH_PAE_AUTHENTICATED → portStatus sm = Authorized;
  wf_disabled : portEnabled sm = false → portStatus sm = Unauthorized;
  wf_reAuthCount : 0 ≤ reAuthCount (auth_pae sm) ≤ reAuthMax (auth_pae sm) + 1;
  wf_reAuthCount_low :
    pae_state (auth_pae sm) ≠ AUTH_PAE_CONNECTING →
    pae_state (auth_pae sm) ≠ AUTH_PAE_INITIALIZE →
    reAuthCount (auth_pae sm) ≤ reAuthMax (auth_pae sm);
  wf_reqCount : 0 ≤ reqCount (be_auth sm) ≤ maxReq (be_auth sm);
  wf_reqCount_response :
    be_state (be_auth sm) = BE_AUTH_RESPONSE → reqCount (be_auth sm) = 0;
  wf_currentId : byte_ok (currentId sm);
  wf_idFromServer : byte_ok (idFromServer (be_auth sm))
}.


(** * The steps of the Authenticator PAE machine

    [pae_arc sm q]: in [sm], under automatic port control, the code enters state
    [q] (re-entering the state it is in counts).  One constructor per branch of the
    code's step function; the proofs do their case analysis with it. *)

Definition pae_forced (sm : eapol_state_machine) : Prop :=
  portMode (auth_pae sm) ≠ Auto ∨ initialize sm = true ∨ portEnabled sm = false.

Inductive pae_arc (sm : eapol_state_machine) : auth_pae_state → Prop :=
| arc_initialize : pae_forced sm → pae_arc sm AUTH_PAE_INITIALIZE
| arc_init_disc :
    ¬ pae_forced sm → pae_state (auth_pae sm) = AUTH_PAE_INITIALIZE →
    pae_arc sm AUTH_PAE_DISCONNECTED
| arc_disc_conn :
    ¬ pae_forced sm → pae_state (auth_pae sm) = AUTH_PAE_DISCONNECTED →
    pae_arc sm AUTH_PAE_CONNECTING
| arc_held_conn :
    ¬ pae_forced sm → pae_state (auth_pae sm) = AUTH_PAE_HELD →
    quietWhile sm = 0 → pae_arc sm AUTH_PAE_CONNECTING
| arc_conn_disc :
    ¬ pae_forced sm → pae_state (auth_pae sm) = AUTH_PAE_CONNECTING →
    eapLogoff (auth_pae sm) = true ∨ reAuthMax (auth_pae sm) < reAuthCount (auth_pae sm) →
    pae_arc sm AUTH_PAE_DISCONNECTED
| arc_conn_authing :
    ¬ pae_forced sm → pae_state (auth_pae sm) = AUTH_PAE_CONNECTING →
    eapLogoff (auth_pae sm) = false → reAuthCount (auth_pae sm) ≤ reAuthMax (auth_pae sm) →
    rxInitialRsp (auth_pae sm) = true → pae_arc sm AUTH_PAE_AUTHENTICATING
| arc_conn_conn :
    ¬ pae_forced sm → pae_state (auth_pae sm) = AUTH_PAE_CONNECTING →
    eapLogoff (auth_pae sm) = false → reAuthCount (auth_pae sm) ≤ reAuthMax (auth_pae sm) →
    rxInitialRsp (auth_pae sm) = false →
    txWhen sm = 0 ∨ eapStart (auth_pae sm) = true ∨ reAuthenticate sm = true →
    pae_arc sm AUTH_PAE_CONNECTING
| arc_authed_conn :
    ¬ pae_forced sm → pae_state (auth_pae sm) = AUTH_PAE_AUTHENTICATED →
    eapStart (auth_pae sm) = true ∨ reAuthenticate sm = true →
    pae_arc sm AUTH_PAE_CONNECTING
| arc_authed_disc :
    ¬ pae_forced sm → pae_state (auth_pae sm) = AUTH_PAE_AUTHENTICATED →
    eapStart (auth_pae sm) = false → reAuthenticate sm = false →
    eapLogoff (auth_pae sm) = true → pae_arc sm AUTH_PAE_DISCONNECTED
| arc_authing_authed :
    ¬ pae_forced sm → pae_state (auth_pae sm) = AUTH_PAE_AUTHENTICATING →
    authSuccess sm = true → pae_arc sm AUTH_PAE_AUTHENTICATED
| arc_authing_held :
    ¬ pae_forced sm → pae_state (auth_pae sm) = AUTH_PAE_AUTHENTICATING →
    authSuccess sm = false → authFail sm = true → pae_arc sm AUTH_PAE_HELD
| arc_authing_abort :
    ¬ pae_forced sm → pae_state (auth_pae sm) = AUTH_PAE_AUTHENTICATING →
    authSuccess sm = false → authFail sm = false →
    reAuthenticate sm = true ∨ eapStart (auth_pae sm) = true
    ∨ eapLogoff (auth_pae sm) = true ∨ authTimeout sm = true →
    pae_arc sm AUTH_PAE_ABORTING
| arc_abort_disc :
    ¬ pae_forced sm → pae_state (auth_pae sm) = AUTH_PAE_ABORTING →
    authAbort sm = false → eapLogoff (auth_pae sm) = true →
    pae_arc sm AUTH_PAE_DISCONNECTED
| arc_abort_conn :
    ¬ pae_forced sm → pae_state (auth_pae sm) = AUTH_PAE_ABORTING →
    authAbort sm = false → eapLogoff (auth_pae sm) = false →
    pae_arc sm AUTH_PAE_CONNECTING.

(** The conditions under which the machine rests. *)
Inductive pae_idle (sm : eapol_state_machine) : Prop :=
| idle_held :
    pae_state (auth_pae sm) = AUTH_PAE_HELD → quietWhile sm ≠ 0 → pae_idle sm
| idle_conn :
    pae_state (auth_pae sm) = AUTH_PAE_CONNECTING →
    eapLogoff (auth_pae sm) = false → reAuthCount (auth_pae sm) ≤ reAuthMax (auth_pae sm) →
    rxInitialRsp (auth_pae sm) = false → txWhen sm ≠ 0 →
    eapStart (auth_pae sm) = false → reAuthenticate sm = false → pae_idle sm
| idle_authed :
    pae_state (auth_pae sm) = AUTH_PAE_AUTHENTICATED →
    eapStart (auth_pae sm) = false → reAuthenticate sm = false →
    eapLogoff (auth_pae sm) = false → pae_idle sm
| idle_authing :
    pae_state (auth_pae sm) = AUTH_PAE_AUTHENTICATING →
    authSuccess sm = false → authFail sm = false → reAuthenticate sm = false →
    eapStart (auth_pae sm) = false → eapLogoff (auth_pae sm) = false →
    authTimeout sm = false → pae_idle sm
| idle_abort :
    pae_state (auth_pae sm) = AUTH_PAE_ABORTING → authAbort sm = true → pae_idle sm.

Section Proofs.
Context {W : Type} `{EapolEnv W}.
Implicit Types s : st (W:=W).
Implicit Types sm : eapol_state_machine.
Implicit Types w : W.

Definition pae_enter (q : auth_pae_state) : st → st :=
  match q with
  | AUTH_PAE_INITIALIZE => sm_AUTH_PAE_INITIALIZE_Enter
  | AUTH_PAE_DISCONNECTED => sm_AUTH_PAE_DISCONNECTED_Enter
  | AUTH_PAE_CONNECTING => sm_AUTH_PAE_CONNECTING_Enter
  | AUTH_PAE_AUTHENTICATING => sm_AUTH_PAE_AUTHENTICATING_Enter
  | AUTH_PAE_AUTHENTICATED => sm_AUTH_PAE_AUTHENTICATED_Enter
  | AUTH_PAE_ABORTING => sm_AUTH_PAE_ABORTING_Enter
  | AUTH_PAE_HELD => sm_AUTH_PAE_HELD_Enter
  | AUTH_PAE_FORCE_AUTH => sm_AUTH_PAE_FORCE_AUTH_Enter
  | AUTH_PAE_FORCE_UNAUTH => sm_AUTH_PAE_FORCE_UNAUTH_Enter
  end.

#[local] Strategy expand [pae_enter].

(** What a step of the machine does: move along an arc, or rest. *)
Inductive pae_result sm w : st → Prop :=
| pae_moved q : pae_arc sm q → pae_result sm w (pae_enter q (sm, w))
| pae_rested : ¬ pae_forced sm → pae_idle sm → pae_result sm w (sm, w).

Ltac pae_move :=
  lazymatch goal with
  | |- pae_result _ _ (?f _) =>
      lazymatch f with
      | sm_AUTH_PAE_DISCONNECTED_Enter => apply (pae_moved _ _ AUTH_PAE_DISCONNECTED)
      | sm_AUTH_PAE_CONNECTING_Enter => apply (pae_moved _ _ AUTH_PAE_CONNECTING)
      | sm_AUTH_PAE_AUTHENTICATING_Enter => apply (pae_moved _ _ AUTH_PAE_AUTHENTICATING)
      | sm_AUTH_PAE_AUTHENTICATED_Enter => apply (pae_moved _ _ AUTH_PAE_AUTHENTICATED)
      | sm_AUTH_PAE_ABORTING_Enter => apply (pae_moved _ _ AUTH_PAE_ABORTING)
      | sm_AUTH_PAE_HELD_Enter => apply (pae_moved _ _ AUTH_PAE_HELD)
      | _ => apply pae_rested; [done|]
      end
  end;
  solve [constructor;
         lazymatch goal with
         | |- pae_state _ = _ => assumption
         | |- ¬ pae_forced _ => assumption
         | |- pae_forced _ => fail
         | |- _ => first [assumption | lia]
         end].

(** Every step is one of these. *)
Lemma pae_step_result sm w : sm_wf sm → pae_result sm w (sm_AUTH_PAE_Step (sm, w)).
Proof.
  intros Hwf. unfold sm_AUTH_PAE_Step. rewrite (wf_control _ Hwf), (wf_valid _ Hwf).
  rewrite (bool_decide_true (Auto = Auto)), !(bool_decide_false (Auto = _)) by done.
  rewrite bool_decide_not. cbn [andb].
  destruct (_ || negb (portEnabled sm)) eqn:Hforce.
  { apply (pae_moved _ _ AUTH_PAE_INITIALIZE). constructor. unfold pae_forced.
    destruct (decide (portMode (auth_pae sm) = Auto)) as [e|]; [|tauto].
    rewrite (bool_decide_true _ e) in Hforce. right. lia. }
  assert (¬ pae_forced sm) as Hnf.
  { unfold pae_forced. apply orb_false_iff in Hforce as [[Hm%negb_false_iff%bool_decide_eq_true ?]%orb_false_iff ?%negb_false_iff].
    intros [?|[?|?]]; congruence. }
  destruct (wf_noforce _ Hwf).
  destruct (pae_state (auth_pae sm)) eqn:Hp; try done; repeat case_match; pae_move.
Qed.

(** ** Well-formedness is preserved *)

(** Solve the field-by-field obligations of [sm_wf]. *)
Ltac wf_solve :=
  constructor; cbn; try done; try (intros; congruence); repeat case_bool_decide;
  first [ assumption | apply u8_range | intros; rewrite ?u32_id by lia; lia ].

Lemma not_forced sm :
  ¬ pae_forced sm ↔
  portMode (auth_pae sm) = Auto ∧ initialize sm = false ∧ portEnabled sm = true.
Proof.
  unfold pae_forced.
  destruct (decide (portMode (auth_pae sm) = Auto)), (initialize sm), (portEnabled sm);
    intuition congruence.
Qed.

(** The re-authentication counter after a step away from [sm]'s state. *)
Lemma arc_reAuthCount sm q :
  pae_arc sm q → sm_wf sm → q ≠ AUTH_PAE_INITIALIZE → q ≠ AUTH_PAE_DISCONNECTED →
  0 ≤ reAuthCount (auth_pae sm) ≤ 2.
Proof.
  intros Harc Hwf. pose proof (wf_reAuthCount_low _ Hwf) as Hlow.
  pose proof (wf_reAuthCount _ Hwf). pose proof (wf_reAuthMax _ Hwf) as Hmax.
  rewrite Hmax in *. unfold AUTH_PAE_DEFAULT_reAuthMax in *.
  destruct Harc; try done; intros;
    first [lia | split; [lia | apply Hlow; congruence]].
Qed.

Lemma sm_wf_pae_enter sm w q :
  pae_arc sm q → sm_wf sm → sm_wf (fst (pae_enter q (sm, w))).
Proof.
  intros Harc Hwf. pose proof (arc_reAuthCount _ _ Harc Hwf) as Hcount.
  pose proof (wf_reAuthMax _ Hwf) as Hmax. unfold AUTH_PAE_DEFAULT_reAuthMax in Hmax.
  destruct Hwf, Harc; try specialize (Hcount ltac:(done) ltac:(done));
    try match goal with H : ¬ pae_forced sm |- _ => apply not_forced in H as (? & ? & ?) end;
    cbn [pae_enter]; wf_solve.
Qed.

Lemma sm_wf_pae_step s : sm_wf (fst s) → sm_wf (fst (sm_AUTH_PAE_Step s)).
Proof.
  destruct s as [sm w]. intros Hwf.
  destruct (pae_step_result sm w Hwf); [by apply sm_wf_pae_enter|done].
Qed.

Lemma sm_wf_be_step s : sm_wf (fst s) → sm_wf (fst (sm_BE_AUTH_Step s)).
Proof.
  destruct s as [sm w]. intros Hwf. unfold sm_BE_AUTH_Step.
  pose proof (wf_maxReq _ Hwf) as Hmax. unfold BE_AUTH_DEFAULT_maxReq in Hmax.
  pose proof (wf_reqCount_response _ Hwf) as Hresp.
  destruct Hwf; repeat case_match; cbn in *; try by constructor.
  all: try match goal with Hb : be_state _ = BE_AUTH_RESPONSE |- _ => specialize (Hresp Hb) end.
  all: wf_solve.
Qed.

Lemma sm_wf_reauth_step s : sm_wf (fst s) → sm_wf (fst (sm_REAUTH_TIMER_Step s)).
Proof.
  destruct s as [sm w]. intros []. unfold sm_REAUTH_TIMER_Step.
  repeat case_match; cbn in *; by constructor.
Qed.

Lemma sm_wf_key_step s : sm_wf (fst s) → sm_wf (fst (sm_AUTH_KEY_TX_Step s)).
Proof.
  destruct s as [sm w]. intros []. unfold sm_AUTH_KEY_TX_Step.
  repeat case_match; cbn in *; by constructor.
Qed.

Lemma sm_wf_round s : sm_wf (fst s) → sm_wf (fst (sm_round s)).
Proof.
  intros. unfold sm_round.
  by apply sm_wf_key_step, sm_wf_reauth_step, sm_wf_be_step, sm_wf_pae_step.
Qed.

(** Rule of invariants: what every pass preserves, a run preserves; and a run
    ends with a pass that changed none of the four states. *)
Lemma eapol_sm_step_invariant (P : st → Prop) s s' :
  (∀ s, sm_wf (fst s) → P s → P (sm_round s)) →
  sm_wf (fst s) → P s → eapol_sm_step s = Ret s' →
  sm_wf (fst s') ∧ P s' ∧
  ∃ s0, sm_wf (fst s0) ∧ P s0 ∧ s' = sm_round s0 ∧ states (fst s0) = states (fst s').
Proof.
  intros Hround. unfold eapol_sm_step. generalize sm_step_bound as fuel.
  intros fuel. revert s. induction fuel as [|fuel IH]; intros s Hwf HP; [done|].
  cbn. case_bool_decide as Hst.
  - apply IH; [by apply sm_wf_round | by apply Hround].
  - intros [= <-].
    split; [by apply sm_wf_round|]. split; [by apply Hround|]. eauto 10.
Qed.

End Proofs.
