(* ===== verification/EapolRun.v ===== *)
(** Runs of the 802.1X Authenticator machines: termination of
    [eapol_sm_step], and what a run can do to the port. *)

From S2P Require Import Prelude EapolSm EapolFacts.

Section Runs.
Context {W : Type} `{EapolEnv W}.
Implicit Types s : st (W:=W).
Implicit Types sm : eapol_state_machine.
Implicit Types w : W.

(** Case split on every comparison of states, then on every other test. *)
Ltac split_states := repeat case_bool_decide; try done; cbn; repeat case_match.

(** ** Termination

    [pae_rank], [be_rank], [reauth_rank] and [key_rank] bound how often each
    machine can still change state before some other machine does. *)

Definition reentry (sm : eapol_state_machine) : bool :=
  (txWhen sm =? 0) || eapStart (auth_pae sm) || reAuthenticate sm.

Definition pae_rank (sm : eapol_state_machine) : nat :=
  let pae := auth_pae sm in
  let auth := bool_decide (portStatus sm = Authorized) in
  if initialize sm || negb (portEnabled sm)
  then (if bool_decide (pae_state pae = AUTH_PAE_INITIALIZE) then 0 else 1)
  else if bool_decide (portMode pae ≠ Auto) then 12
  else
    match pae_state pae with
    | AUTH_PAE_CONNECTING =>
        if rxInitialRsp pae then 11
        else if auth then 5 + Z.to_nat (reAuthMax pae + 1 - reAuthCount pae)
        else if reentry sm then 4
        else if eapLogoff pae || (reAuthMax pae <? reAuthCount pae) then 3 else 1
    | AUTH_PAE_DISCONNECTED =>
        if eapLogoff pae || auth || (reAuthMax pae <=? reAuthCount pae) then 9 else 2
    | AUTH_PAE_AUTHENTICATING => 10
    | AUTH_PAE_AUTHENTICATED | AUTH_PAE_ABORTING | AUTH_PAE_HELD
    | AUTH_PAE_INITIALIZE => 9
    | AUTH_PAE_FORCE_AUTH | AUTH_PAE_FORCE_UNAUTH => 0
    end.

Definition be_rank (sm : eapol_state_machine) : nat :=
  let be := be_auth sm in
  if initialize sm then (if bool_decide (be_state be = BE_AUTH_INITIALIZE) then 0 else 1)
  else if authAbort sm then (if bool_decide (be_state be = BE_AUTH_INITIALIZE) then 2 else 7)
  else
    match be_state be with
    | BE_AUTH_INITIALIZE => 1
    | BE_AUTH_IDLE => if authStart sm then 2 else 0
    | BE_AUTH_RESPONSE =>
        if aReq be || aFail be || aSuccess be || (aWhile sm =? 0) then 5 else 1
    | BE_AUTH_REQUEST => 4
    | BE_AUTH_SUCCESS | BE_AUTH_FAIL | BE_AUTH_TIMEOUT => 3
    end.

Definition reauth_active (sm : eapol_state_machine) : bool :=
  negb (initialize sm) && bool_decide (portStatus sm = Authorized)
  && reAuthEnabled (reauth_timer sm).

Definition reauth_rank (sm : eapol_state_machine) : nat :=
  match rt_state (reauth_timer sm) with
  | REAUTH_TIMER_REAUTHENTICATE =>
      if reauth_active sm then (if reAuthenticate sm then 0 else 2) else 1
  | REAUTH_TIMER_INITIALIZE =>
      if reauth_active sm && (reAuthWhen sm =? 0) then 1 else 0
  end.

Definition key_rank (sm : eapol_state_machine) : nat :=
  (if keyAvailable sm then 2 else 0)
  + (if bool_decide (kt_state (auth_key_tx sm) = AUTH_KEY_TX_KEY_TRANSMIT) then 1 else 0).

Definition sm_rank (sm : eapol_state_machine) : nat :=
  96 * pae_rank sm + 12 * be_rank sm + 4 * reauth_rank sm + key_rank sm.

Lemma minor_rank_bound sm :
  (be_rank sm ≤ 7 ∧ reauth_rank sm ≤ 2 ∧ key_rank sm ≤ 3)%nat.
Proof. unfold be_rank, reauth_rank, key_rank. split_and!; repeat case_match; lia. Qed.

Lemma pae_rank_bound sm : sm_wf sm → (pae_rank sm ≤ 12)%nat.
Proof.
  intros []. unfold AUTH_PAE_DEFAULT_reAuthMax, pae_rank in *. repeat case_match; lia.
Qed.

(** A move of the PAE machine lowers [pae_rank]. *)
Lemma pae_rank_enter sm w q :
  sm_wf sm → pae_arc sm q →
  (pae_rank (fst (pae_enter q (sm, w))) < pae_rank sm)%nat
  ∨ (initialize sm = true ∨ portEnabled sm = false)
    ∧ q = AUTH_PAE_INITIALIZE ∧ pae_state (auth_pae sm) = AUTH_PAE_INITIALIZE.
Proof.
  intros Hwf Harc. pose proof (arc_reAuthCount _ _ Harc Hwf) as Hcount.
  pose proof (wf_reAuthMax _ Hwf) as Hmax. unfold AUTH_PAE_DEFAULT_reAuthMax in Hmax.
  pose proof (wf_txPeriod _ Hwf) as Htx. unfold AUTH_PAE_DEFAULT_txPeriod in Htx.
  pose proof (wf_noforce _ Hwf) as Hnoforce.
  destruct Harc as [Hf|Hf|Hf|Hf|Hf|Hf|Hf|Hf|Hf|Hf|Hf|Hf|Hf|Hf];
    try specialize (Hcount ltac:(done) ltac:(done)).
  1: { destruct (decide (initialize sm = true ∨ portEnabled sm = false)) as [Hd|Hd].
       - destruct (decide (pae_state (auth_pae sm) = AUTH_PAE_INITIALIZE)); [tauto|].
         left. unfold pae_rank; cbn. replace (initialize sm || negb (portEnabled sm)) with true by lia.
         repeat case_bool_decide; (done || lia).
       - left. unfold pae_rank; cbn. replace (initialize sm || negb (portEnabled sm)) with false by lia.
         destruct Hf; [|tauto]. repeat case_bool_decide; (done || lia). }
  all: left; apply not_forced in Hf as (Hm & Hi & Hen).
  all: unfold pae_rank; cbn; rewrite Hi, Hen, Hm; cbn.
  all: match goal with Hp : pae_state _ = _ |- _ => rewrite ?Hp end.
  all: unfold reentry; cbn; rewrite ?Htx, ?Hmax, ?u32_id by lia; cbn.
  all: destruct (wf_reAuthCount _ Hwf); rewrite ?Hmax in *.
  all: change (s32 30) with 30; split_states; lia.
Qed.

(** The other machines leave it alone. *)
Lemma be_step_others s :
  pae_rank (fst (sm_BE_AUTH_Step s)) = pae_rank (fst s)
  ∧ reauth_rank (fst (sm_BE_AUTH_Step s)) = reauth_rank (fst s)
  ∧ key_rank (fst (sm_BE_AUTH_Step s)) = key_rank (fst s)
  ∧ reauth_active (fst (sm_BE_AUTH_Step s)) = reauth_active (fst s)
  ∧ reAuthenticate (fst (sm_BE_AUTH_Step s)) = reAuthenticate (fst s)
  ∧ (be_state (be_auth (fst (sm_BE_AUTH_Step s))) = be_state (be_auth (fst s)) →
     states (fst (sm_BE_AUTH_Step s)) = states (fst s)).
Proof. destruct s as [sm w]. unfold sm_BE_AUTH_Step, states. repeat case_match; cbn; (split_and!; congruence || done). Qed.

Lemma reauth_step_others s :
  pae_rank (fst (sm_REAUTH_TIMER_Step s)) = pae_rank (fst s)
  ∧ be_rank (fst (sm_REAUTH_TIMER_Step s)) = be_rank (fst s)
  ∧ key_rank (fst (sm_REAUTH_TIMER_Step s)) = key_rank (fst s)
  ∧ (rt_state (reauth_timer (fst (sm_REAUTH_TIMER_Step s))) = rt_state (reauth_timer (fst s)) →
     states (fst (sm_REAUTH_TIMER_Step s)) = states (fst s)).
Proof.
  destruct s as [sm w]. unfold sm_REAUTH_TIMER_Step, sm_REAUTH_TIMER_REAUTHENTICATE_Enter.
  unfold states. repeat case_match; cbn; try (split_and!; congruence || done).
  split_and!; try congruence || done.
  assert (portStatus sm = Authorized) as Ha
    by (destruct (portStatus sm); [repeat case_bool_decide; done || lia|done]).
  unfold pae_rank; cbn. by rewrite Ha.
Qed.

Lemma key_step_others s :
  pae_rank (fst (sm_AUTH_KEY_TX_Step s)) = pae_rank (fst s)
  ∧ be_rank (fst (sm_AUTH_KEY_TX_Step s)) = be_rank (fst s)
  ∧ reauth_rank (fst (sm_AUTH_KEY_TX_Step s)) = reauth_rank (fst s)
  ∧ (kt_state (auth_key_tx (fst (sm_AUTH_KEY_TX_Step s))) = kt_state (auth_key_tx (fst s)) →
     states (fst (sm_AUTH_KEY_TX_Step s)) = states (fst s)).
Proof. destruct s as [sm w]. unfold sm_AUTH_KEY_TX_Step, states. repeat case_match; cbn; (split_and!; congruence || done). Qed.

(** A change of state lowers the machine's own rank. *)
Lemma be_step_rank s :
  sm_wf (fst s) →
  let s' := sm_BE_AUTH_Step s in
  (be_rank (fst s') ≤ be_rank (fst s))%nat
  ∧ ((initialize (fst s) = false ∧ authAbort (fst s) = true)
     ∨ be_state (be_auth (fst s')) ≠ be_state (be_auth (fst s)) →
     (be_rank (fst s') < be_rank (fst s))%nat).
Proof.
  destruct s as [sm w]. intros Hwf. unfold sm_BE_AUTH_Step. cbn [fst] in *.
  rewrite (wf_control _ Hwf), (bool_decide_false (_ ≠ _)) by auto. cbn [orb].
  pose proof (wf_serverTimeout _ Hwf) as Hto. unfold BE_AUTH_DEFAULT_serverTimeout in Hto.
  destruct (initialize sm) eqn:Hi, (authAbort sm) eqn:Ha, (be_state (be_auth sm)) eqn:Hb;
    cbn [orb]; repeat case_match; unfold be_rank; cbn;
    rewrite ?Hi, ?Ha, ?Hb; cbn; rewrite ?Hto; change (s32 30) with 30; cbn.
  all: repeat match goal with H : ?x = true |- context [?x] => rewrite H
                         | H : ?x = false |- context [?x] => rewrite H end; cbn.
  all: split_states; (split; [lia|intros [[? ?]|?]; congruence || lia]).
Qed.

Lemma reauth_step_rank s :
  sm_wf (fst s) → reauth_active (fst s) = false ∨ reAuthenticate (fst s) = false →
  let s' := sm_REAUTH_TIMER_Step s in
  (reauth_rank (fst s') ≤ reauth_rank (fst s))%nat
  ∧ (rt_state (reauth_timer (fst s')) ≠ rt_state (reauth_timer (fst s)) →
     (reauth_rank (fst s') < reauth_rank (fst s))%nat).
Proof.
  destruct s as [sm w]. intros Hwf Hre. unfold sm_REAUTH_TIMER_Step. cbn [fst] in *.
  rewrite (wf_control _ Hwf), (bool_decide_false (_ ≠ _)) by auto. cbn [orb].
  unfold reauth_rank, reauth_active in *. cbn in *.
  destruct (initialize sm) eqn:Hi, (portStatus sm) eqn:Hp,
    (reAuthEnabled (reauth_timer sm)) eqn:He, (rt_state (reauth_timer sm)) eqn:Hr,
    (reAuthenticate sm) eqn:Hra, (reAuthWhen sm =? 0) eqn:Hw;
    cbn in *; rewrite ?Hi, ?Hp, ?He, ?Hr, ?Hra, ?Hw; cbn.
  all: split_states; (split; [lia|intros; congruence || lia]) || (destruct Hre; done).
Qed.

Lemma key_step_rank s :
  let s' := sm_AUTH_KEY_TX_Step s in
  (key_rank (fst s') ≤ key_rank (fst s))%nat
  ∧ (kt_state (auth_key_tx (fst s')) ≠ kt_state (auth_key_tx (fst s)) →
     (key_rank (fst s') < key_rank (fst s))%nat).
Proof.
  destruct s as [sm w]. unfold sm_AUTH_KEY_TX_Step.
  destruct (kt_state (auth_key_tx sm)) eqn:Hk, (keyAvailable sm) eqn:Hka;
    repeat case_match; unfold key_rank; cbn; rewrite ?Hk, ?Hka; cbn.
  all: try lia.
  all: split_states; (split; [lia|intros; congruence || lia]).
Qed.

(** A PAE step that does not lower [pae_rank] leaves the ranks of the other
    machines alone, and any pending re-authentication has been served, unless
    an abort is in progress. *)
Lemma pae_step_rank s :
  sm_wf (fst s) →
  let s' := sm_AUTH_PAE_Step s in
  (pae_rank (fst s') < pae_rank (fst s))%nat
  ∨ pae_rank (fst s') = pae_rank (fst s)
    ∧ states (fst s') = states (fst s)
    ∧ be_rank (fst s') = be_rank (fst s)
    ∧ reauth_rank (fst s') = reauth_rank (fst s)
    ∧ key_rank (fst s') = key_rank (fst s)
    ∧ ((reauth_active (fst s') = false ∨ reAuthenticate (fst s') = false)
       ∨ initialize (fst s') = false ∧ authAbort (fst s') = true).
Proof.
  destruct s as [sm w]. intros Hwf. cbn [fst] in *.
  destruct (pae_step_result sm w Hwf) as [q Harc|Hnf Hidle].
  - destruct (pae_rank_enter sm w q Hwf Harc) as [?|(Hd & -> & Hp)]; [by left|right].
    unfold pae_rank, states; cbn. rewrite Hp.
    replace (initialize sm || negb (portEnabled sm)) with true by lia.
    split_and!; try done. left; left. unfold reauth_active; cbn.
    destruct Hd as [->|Hd]; [done|]. by rewrite (wf_disabled _ Hwf Hd), andb_false_r.
  - right. split_and!; try done. cbn [fst].
    destruct Hidle as [Hp| | | |]; auto.
    + left; left. unfold reauth_active. by rewrite (wf_held _ Hwf Hp), andb_false_r.
    + right. by apply not_forced in Hnf as (_ & ? & _).
Qed.

Lemma sm_round_rank s :
  sm_wf (fst s) → states (fst (sm_round s)) ≠ states (fst s) →
  (sm_rank (fst (sm_round s)) < sm_rank (fst s))%nat.
Proof.
  intros Hwf Hne. unfold sm_round in *.
  pose proof (sm_wf_pae_step _ Hwf) as Hwf1.
  pose proof (pae_step_rank _ Hwf) as Hpae. set (s1 := sm_AUTH_PAE_Step s) in *.
  pose proof (sm_wf_be_step _ Hwf1) as Hwf2.
  pose proof (be_step_others s1) as (Hb1 & Hb2 & Hb3 & Hb4 & Hb5 & Hbs).
  pose proof (be_step_rank _ Hwf1) as [Hble Hblt]. set (s2 := sm_BE_AUTH_Step s1) in *.
  pose proof (reauth_step_others s2) as (Hr1 & Hr2 & Hr3 & Hrs).
  pose proof (reauth_step_rank _ Hwf2) as Hrt. set (s3 := sm_REAUTH_TIMER_Step s2) in *.
  pose proof (key_step_others s3) as (Hk1 & Hk2 & Hk3 & Hks).
  pose proof (key_step_rank s3) as [Hkle Hklt]. set (s4 := sm_AUTH_KEY_TX_Step s3) in *.
  pose proof (minor_rank_bound (fst s4)). unfold sm_rank.
  destruct Hpae as [?|(Hp1 & Hst & Hp2 & Hp3 & Hp4 & Hcase)]; [lia|].
  destruct Hcase as [Hcase|Habort]; [|specialize (Hblt (or_introl Habort)); lia].
  rewrite <-Hb4, <-Hb5 in Hcase. destruct (Hrt Hcase) as [Hrle Hrlt].
  destruct (decide (be_state (be_auth (fst s2)) = be_state (be_auth (fst s1)))) as [Eb|Hx];
    [|specialize (Hblt (or_intror Hx)); lia].
  destruct (decide (rt_state (reauth_timer (fst s3)) = rt_state (reauth_timer (fst s2))))
    as [Er|Hx]; [|specialize (Hrlt Hx); lia].
  destruct (decide (kt_state (auth_key_tx (fst s4)) = kt_state (auth_key_tx (fst s3))))
    as [Ek|Hx]; [|specialize (Hklt Hx); lia].
  destruct Hne. rewrite Hks, Hrs, Hbs by done. done.
Qed.

Lemma eapol_sm_step_fuel_terminates fuel s :
  sm_wf (fst s) → (sm_rank (fst s) < fuel)%nat → ∃ s', eapol_sm_step_fuel fuel s = Ret s'.
Proof.
  revert s. induction fuel as [|fuel IH]; intros s Hwf Hr; [lia|]. cbn.
  case_bool_decide as Hne; [|by eauto].
  pose proof (sm_round_rank s Hwf ltac:(congruence)).
  apply IH; [by apply sm_wf_round|lia].
Qed.

Lemma eapol_sm_step_total s : sm_wf (fst s) → ∃ s', eapol_sm_step s = Ret s'.
Proof.
  intros Hwf. apply eapol_sm_step_fuel_terminates; [done|].
  pose proof (pae_rank_bound _ Hwf). pose proof (minor_rank_bound (fst s)).
  unfold sm_rank, sm_step_bound. lia.
Qed.
End Runs.
