(* ===== verification/EapolSafety.v ===== *)
(** What a run of the 802.1X Authenticator machines can do to the port, to the
    supplicant and to the daemon, and the life cycle of a machine:
    [eapol_sm_alloc], [eapol_sm_step] and [eapol_port_timers_tick] establish
    and keep the invariant of [EapolFacts] and always return. *)

From S2P Require Import Prelude EapolSm EapolFacts EapolRun.

Section Safety.
Context {W : Type} `{EapolEnv W}.
Implicit Types s : st (W:=W).
Implicit Types sm : eapol_state_machine.
Implicit Types w : W.

(** A property of the whole state that every pass keeps holds when the run
    ends, and the run ends. *)
Lemma eapol_sm_step_rule (P : st → Prop) s :
  (∀ s, sm_wf (fst s) → P s → P (sm_round s)) →
  sm_wf (fst s) → P s →
  ∃ s', eapol_sm_step s = Ret s' ∧ sm_wf (fst s') ∧ P s' ∧
        ∃ s0, sm_wf (fst s0) ∧ P s0 ∧ s' = sm_round s0 ∧ states (fst s0) = states (fst s').
Proof.
  intros Hround Hwf HP. destruct (eapol_sm_step_total s Hwf) as [s' Hs'].
  exists s'. split; [done|]. by eapply eapol_sm_step_invariant.
Qed.

(** ** No authorization without an accept *)

(** Nothing in the machine stands for a successful authentication. *)
Definition not_accepted (sm : eapol_state_machine) : Prop :=
  aSuccess (be_auth sm) = false ∧ authSuccess sm = false ∧ portStatus sm = Unauthorized
  ∧ kt_state (auth_key_tx sm) = AUTH_KEY_TX_NO_KEY_TRANSMIT.

(** [Q] is kept by every effect except opening the port and sending a key. *)
Record kept_unless_opened (Q : W → Prop) : Prop := {
  kept_unauthorize b w : Q w → Q (set_sta_authorized b false w);
  kept_canned id b w : Q w → Q (tx_canned_eap id b w);
  kept_identity id w : Q w → Q (request_identity id w);
  kept_req id w : Q w → Q (tx_req id w);
  kept_resp w : Q w → Q (send_resp_to_server w)
}.

Lemma not_accepted_pae Q s :
  kept_unless_opened Q → sm_wf (fst s) → not_accepted (fst s) → Q (snd s) →
  not_accepted (fst (sm_AUTH_PAE_Step s)) ∧ Q (snd (sm_AUTH_PAE_Step s)).
Proof.
  intros [] Hwf (Ha & Hs & Hp & Hk) HQ. destruct s as [sm w]. cbn [fst snd] in *.
  destruct (pae_step_result sm w Hwf) as [q Harc|]; [|done].
  destruct Harc; cbn in *; unfold when; try congruence;
    (split; [by unfold not_accepted|unfold setPortUnauthorized, txCannedFail; repeat case_match; auto]).
Qed.

Lemma not_accepted_be Q s :
  kept_unless_opened Q → not_accepted (fst s) → Q (snd s) →
  not_accepted (fst (sm_BE_AUTH_Step s)) ∧ Q (snd (sm_BE_AUTH_Step s)).
Proof.
  intros [] (Ha & Hs & Hp & Hk) HQ. destruct s as [sm w]. cbn [fst snd] in *.
  unfold sm_BE_AUTH_Step. rewrite Ha.
  repeat case_match; cbn in *; unfold when;
    (split; [by unfold not_accepted|unfold txCannedFail; repeat case_match; auto]).
Qed.

Lemma not_accepted_round Q s :
  kept_unless_opened Q → sm_wf (fst s) → not_accepted (fst s) ∧ Q (snd s) →
  not_accepted (fst (sm_round s)) ∧ Q (snd (sm_round s)).
Proof.
  intros HK Hwf [HP HQ]. unfold sm_round.
  destruct (not_accepted_pae Q s) as [HP1 HQ1]; [done..|].
  destruct (not_accepted_be Q (sm_AUTH_PAE_Step s)) as [HP2 HQ2]; [done..|].
  destruct (sm_BE_AUTH_Step (sm_AUTH_PAE_Step s)) as [sm w].
  destruct HP2 as (Ha & Hs & Hp & Hk). cbn [fst snd] in *.
  unfold sm_REAUTH_TIMER_Step. rewrite Hp, (bool_decide_true (_ = _)), orb_true_r by done.
  unfold sm_AUTH_KEY_TX_Step. cbn. rewrite Hk, Hs, andb_false_r.
  repeat case_match; done.
Qed.

(** ** What the other three machines leave alone *)

Lemma pae_frame s :
  let sm := fst (sm_AUTH_PAE_Step s) in let sm' := fst (sm_round s) in
  auth_pae sm' = auth_pae sm ∧ portStatus sm' = portStatus sm
  ∧ initialize sm' = initialize sm ∧ portEnabled sm' = portEnabled sm
  ∧ quietWhile sm' = quietWhile sm ∧ authAbort sm' = false.
Proof.
  unfold sm_round. generalize (sm_AUTH_PAE_Step s) as s1. clear s. intros [sm w]. cbn zeta.
  set (s1 := sm_BE_AUTH_Step (sm, w)).
  assert (auth_pae (fst s1) = auth_pae sm ∧ portStatus (fst s1) = portStatus sm
          ∧ initialize (fst s1) = initialize sm ∧ portEnabled (fst s1) = portEnabled sm
          ∧ quietWhile (fst s1) = quietWhile sm ∧ authAbort (fst s1) = false) as Hs1.
  { subst s1. unfold sm_BE_AUTH_Step. repeat case_match; cbn in *; split_and!; lia || done. }
  revert Hs1. generalize s1. clear s1. intros [sm1 w1] Hs1.
  unfold sm_REAUTH_TIMER_Step, sm_AUTH_KEY_TX_Step. repeat case_match; simplify_eq/=; done.
Qed.

Lemma pae_frame_forced s :
  pae_forced (fst (sm_round s)) ↔ pae_forced (fst (sm_AUTH_PAE_Step s)).
Proof. unfold pae_forced. destruct (pae_frame s) as (-> & _ & -> & -> & _). done. Qed.

(** An unforced machine stays unforced. *)
Lemma unforced_pae_step s :
  sm_wf (fst s) → ¬ pae_forced (fst s) → ¬ pae_forced (fst (sm_AUTH_PAE_Step s)).
Proof.
  destruct s as [sm w]. intros Hwf Hnf.
  destruct (pae_step_result sm w Hwf) as [q Harc|]; [|done].
  destruct Harc; try done; unfold pae_forced in *; cbn; tauto.
Qed.

(** ** Logoff *)

(** A log off is still pending, or the port has been closed and nothing that
    could open it again has been received. *)
Definition logging_off (sm : eapol_state_machine) : Prop :=
  eapLogoff (auth_pae sm) = true
  ∨ portStatus sm = Unauthorized
    ∧ (pae_state (auth_pae sm) = AUTH_PAE_CONNECTING ∧ rxInitialRsp (auth_pae sm) = false
       ∨ pae_state (auth_pae sm) = AUTH_PAE_DISCONNECTED
       ∨ pae_state (auth_pae sm) = AUTH_PAE_HELD).

Lemma logging_off_round s :
  sm_wf (fst s) →
  ¬ pae_forced (fst s) ∧ authAbort (fst s) = false ∧ logging_off (fst s) →
  ¬ pae_forced (fst (sm_round s)) ∧ authAbort (fst (sm_round s)) = false
  ∧ logging_off (fst (sm_round s)).
Proof.
  intros Hwf (Hnf & Ha & Hl). rewrite pae_frame_forced.
  split; [by apply unforced_pae_step|].
  pose proof (pae_frame s) as (Hp & Hs & _ & _ & _ & Hab). split; [done|].
  unfold logging_off in *. rewrite Hp, Hs. clear Hp Hs Hab.
  destruct s as [sm w]. cbn [fst] in *.
  destruct (pae_step_result sm w Hwf) as [q Harc|]; [|done].
  destruct Harc; try done; cbn; destruct Hl as [Hl|(? & [[? ?]|[?|?]])];
    auto; congruence || tauto || (right; split; [by apply Hwf|tauto]).
Qed.

Lemma logging_off_rest s :
  sm_wf (fst s) → ¬ pae_forced (fst s) → authAbort (fst s) = false → logging_off (fst s) →
  states (fst s) = states (fst (sm_round s)) → portStatus (fst (sm_round s)) = Unauthorized.
Proof.
  intros Hwf Hnf Ha Hl Hst. pose proof (pae_frame s) as (Hp & -> & _).
  unfold states in Hst. rewrite Hp in Hst. injection Hst as Hst _ _ _. clear Hp.
  destruct s as [sm w]. cbn [fst] in *.
  destruct (pae_step_result sm w Hwf) as [q Harc|_ Hidle]; cbn [fst] in *.
  - destruct Harc; try done; cbn in *;
      destruct Hl as [Hl|(? & [[? ?]|[?|?]])]; congruence || done.
  - destruct Hl as [Hl|(? & _)]; [|done].
    destruct Hidle; congruence || by apply Hwf.
Qed.

(** ** Quiet period *)

Lemma held_round n s :
  n ≠ 0 → sm_wf (fst s) →
  ¬ pae_forced (fst s) ∧ pae_state (auth_pae (fst s)) = AUTH_PAE_HELD ∧ quietWhile (fst s) = n →
  ¬ pae_forced (fst (sm_round s)) ∧ pae_state (auth_pae (fst (sm_round s))) = AUTH_PAE_HELD
  ∧ quietWhile (fst (sm_round s)) = n.
Proof.
  intros Hn Hwf (Hnf & Hp & Hq). rewrite pae_frame_forced.
  split; [by apply unforced_pae_step|].
  pose proof (pae_frame s) as (-> & _ & _ & _ & -> & _).
  destruct s as [sm w]. cbn [fst] in *.
  destruct (pae_step_result sm w Hwf) as [q Harc|_ Hidle]; [|done].
  destruct Harc; congruence || done.
Qed.

(** ** Keys *)

(** [f] counts key messages. *)
Record counts_keys (f : W → nat) : Prop := {
  count_tx_key id w : f (tx_key id w) = S (f w);
  count_authorized b c w : f (set_sta_authorized b c w) = f w;
  count_canned id b w : f (tx_canned_eap id b w) = f w;
  count_identity id w : f (request_identity id w) = f w;
  count_req id w : f (tx_req id w) = f w;
  count_resp w : f (send_resp_to_server w) = f w
}.

Definition key_budget (f : W → nat) (s : st) : nat :=
  (f (snd s) + if keyAvailable (fst s) then 1 else 0)%nat.

Lemma pae_key_budget f s :
  counts_keys f → sm_wf (fst s) → key_budget f (sm_AUTH_PAE_Step s) = key_budget f s.
Proof.
  intros [] Hwf. destruct s as [sm w].
  destruct (pae_step_result sm w Hwf) as [q Harc|]; [|done].
  destruct Harc; unfold key_budget; cbn;
    unfold when, setPortUnauthorized, setPortAuthorized, txCannedFail; repeat case_match; congruence.
Qed.

Lemma be_key_budget f s : counts_keys f → key_budget f (sm_BE_AUTH_Step s) = key_budget f s.
Proof.
  intros []. destruct s as [sm w]. unfold sm_BE_AUTH_Step.
  repeat case_match; unfold key_budget; cbn;
    unfold when, txCannedFail; repeat case_match; congruence.
Qed.

Lemma reauth_key_budget f s : key_budget f (sm_REAUTH_TIMER_Step s) = key_budget f s.
Proof. destruct s as [sm w]. unfold sm_REAUTH_TIMER_Step. repeat case_match; done. Qed.

Lemma key_key_budget f s : counts_keys f → key_budget f (sm_AUTH_KEY_TX_Step s) = key_budget f s.
Proof.
  intros Hf. destruct s as [sm w]. unfold sm_AUTH_KEY_TX_Step.
  destruct (keyAvailable sm) eqn:Hk; repeat case_match; unfold key_budget; cbn;
    rewrite ?Hk, ?(count_tx_key _ Hf); lia.
Qed.

Lemma key_budget_round f s :
  counts_keys f → sm_wf (fst s) → key_budget f (sm_round s) = key_budget f s.
Proof.
  intros Hf Hwf. unfold sm_round.
  by rewrite key_key_budget, reauth_key_budget, be_key_budget, pae_key_budget.
Qed.

(** ** Properties of a run *)

Lemma eapol_sm_step_no_accept Q s :
  kept_unless_opened Q → sm_wf (fst s) → not_accepted (fst s) → Q (snd s) →
  ∃ s', eapol_sm_step s = Ret s' ∧ sm_wf (fst s') ∧ not_accepted (fst s') ∧ Q (snd s').
Proof.
  intros HK Hwf HP HQ.
  destruct (eapol_sm_step_rule (λ s, not_accepted (fst s) ∧ Q (snd s)) s)
    as (s' & ? & ? & [? ?] & _); eauto 10 using not_accepted_round.
Qed.

Lemma eapol_sm_step_abort s s' :
  sm_wf (fst s) → eapol_sm_step s = Ret s' → authAbort (fst s') = false.
Proof.
  intros Hwf Hs.
  destruct (eapol_sm_step_invariant (λ _, True) s s') as (_ & _ & s0 & _ & _ & -> & _); [done..|].
  apply pae_frame.
Qed.

Lemma sm_wf_tick sm :
  sm_wf sm →
  sm_wf (sm ⦃ aWhile := tick_timer (aWhile sm) ⦄ ⦃ quietWhile := tick_timer (quietWhile sm) ⦄
            ⦃ reAuthWhen := tick_timer (reAuthWhen sm) ⦄ ⦃ txWhen := tick_timer (txWhen sm) ⦄).
Proof. intros []. by constructor. Qed.

Lemma sm_wf_defaults conf : sm_wf (eapol_sm_defaults conf).
Proof.
  unfold eapol_sm_defaults.
  destruct (session_timeout_set conf =? 1); constructor; cbn; try done; unfold byte_ok; lia.
Qed.

(** ** The timer tick *)

Lemma eapol_port_timers_tick_total s :
  sm_wf (fst s) → ∃ s', eapol_port_timers_tick s = Ret s' ∧ sm_wf (fst s').
Proof.
  destruct s as [sm w]. intros Hwf%sm_wf_tick. unfold eapol_port_timers_tick.
  destruct (eapol_sm_step_rule (λ _, True) (_, w) ltac:(done) Hwf I) as ([sm' w'] & Hs & Hwf' & _).
  cbn in *. rewrite Hs. cbn. eauto.
Qed.
End Safety.
