(* ===== verification/EapolProps.v ===== *)
(** The properties of the 802.1X Authenticator machines, and a recording
    environment in which they are exercised. *)

From S2P Require Import Prelude EapolSm EapolFacts EapolRun EapolSafety.

(** * A recording environment

    The daemon state is the list of the effects requested so far, latest
    first. *)

Inductive eapol_event :=
| EvAuthorized (authSuccess authorized : bool)
| EvCanned (id : Z) (success : bool)
| EvIdentity (id : Z)
| EvReq (id : Z)
| EvResp
| EvKey (id : Z)
| EvTickOn
| EvTickOff.

#[export] Instance trace_env : EapolEnv (list eapol_event) := {
  set_sta_authorized s a tr := EvAuthorized s a :: tr;
  tx_canned_eap id b tr := EvCanned id b :: tr;
  request_identity id tr := EvIdentity id :: tr;
  tx_req id tr := EvReq id :: tr;
  send_resp_to_server tr := EvResp :: tr;
  tx_key id tr := EvKey id :: tr;
  eloop_register_tick tr := EvTickOn :: tr;
  eloop_cancel_tick tr := EvTickOff :: tr
}.

Definition no_open (e : eapol_event) : bool :=
  match e with EvAuthorized _ true | EvKey _ => false | _ => true end.

Definition count_key (tr : list eapol_event) : nat :=
  length (filter (λ e, match e with EvKey _ => true | _ => false end = true) tr).

(** The machine of an outcome. *)
Definition machine (o : outcome (st (W := list eapol_event))) : st :=
  match o with Ret s => s | _ => (sm_zero, []) end.

(** One supplicant, from association to a logged-on port: the port is enabled
    ([ieee802_1x_new_station]), an EAP-Response/Identity arrives, the server
    challenges, the supplicant answers, the server accepts with keys. *)
Definition demo_conf : sm_conf := mk_sm_conf 60 0 0.
Definition demo_heap : Malloc := λ _, true.
Definition demo_alloc : st :=
  machine (let* s := eapol_sm_alloc (H0:=demo_heap) demo_conf [] in
           match s with Some s => Ret s | None => NoFuel end).
Definition demo_connecting : st :=
  let '(sm, w) := demo_alloc in machine (eapol_sm_step (sm ⦃ portEnabled := true ⦄, w)).
Definition demo_identity : st :=
  let '(sm, w) := demo_connecting in
  machine (eapol_sm_step (sm ⦃ auth_pae / rxInitialRsp := true ⦄, w)).
Definition demo_challenge : st :=
  let '(sm, w) := demo_identity in
  machine (eapol_sm_step (sm ⦃ be_auth / idFromServer := 7 ⦄ ⦃ be_auth / aReq := true ⦄, w)).
Definition demo_answer : st :=
  let '(sm, w) := demo_challenge in
  machine (eapol_sm_step (sm ⦃ be_auth / rxResp := true ⦄, w)).
Definition demo_accept_input : st :=
  let '(sm, w) := demo_answer in
  (sm ⦃ be_auth / idFromServer := 8 ⦄ ⦃ be_auth / aSuccess := true ⦄ ⦃ keyAvailable := true ⦄, w).
Definition demo_authenticated : st := machine (eapol_sm_step demo_accept_input).
Definition demo_logoff_input : st :=
  let '(sm, w) := demo_authenticated in (sm ⦃ auth_pae / eapLogoff := true ⦄, w).

Example demo_run :
  pae_state (auth_pae (fst demo_alloc)) = AUTH_PAE_INITIALIZE
  ∧ pae_state (auth_pae (fst demo_connecting)) = AUTH_PAE_CONNECTING
  ∧ pae_state (auth_pae (fst demo_identity)) = AUTH_PAE_AUTHENTICATING
  ∧ be_state (be_auth (fst demo_identity)) = BE_AUTH_RESPONSE
  ∧ be_state (be_auth (fst demo_challenge)) = BE_AUTH_REQUEST
  ∧ be_state (be_auth (fst demo_answer)) = BE_AUTH_RESPONSE
  ∧ pae_state (auth_pae (fst demo_authenticated)) = AUTH_PAE_AUTHENTICATED
  ∧ portStatus (fst demo_authenticated) = Authorized
  ∧ count_key (snd demo_authenticated) = 1%nat.
Proof. vm_compute. done. Qed.

Ltac wf_concrete := constructor; vm_compute; intuition (congruence || lia).

Lemma demo_wf_connecting : sm_wf (fst demo_connecting).
Proof. wf_concrete. Qed.
Lemma demo_wf_accept : sm_wf (fst demo_accept_input).
Proof. wf_concrete. Qed.
Lemma demo_wf_logoff : sm_wf (fst demo_logoff_input).
Proof. wf_concrete. Qed.


Lemma not_accepted_run {W} `{EapolEnv W} (s : st (W:=W)) :
  sm_wf (fst s) → not_accepted (fst s) →
  ∃ s', eapol_sm_step s = Ret s' ∧ sm_wf (fst s') ∧ not_accepted (fst s').
Proof.
  intros Hwf Hn. destruct (eapol_sm_step_no_accept (λ _, True) s) as (s' & ? & ? & ? & _);
    [by split|done..|eauto].
Qed.

Lemma not_accepted_defaults conf : not_accepted (eapol_sm_defaults conf).
Proof. unfold eapol_sm_defaults. destruct (_ =? 1); split_and!; reflexivity. Qed.

Lemma set_initialize_ok b sm :
  sm_wf sm → not_accepted sm →
  sm_wf (sm ⦃ initialize := b ⦄) ∧ not_accepted (sm ⦃ initialize := b ⦄).
Proof. intros [] ?. split; [by constructor|done]. Qed.

(** * Properties *)

(** C2. [eapol_sm_step] terminates: from every well-formed machine, and
    whatever the procedures it calls do, the [do ... while] loop of the four
    state machines stops changing state and returns, with the machine still
    well formed and no abort left pending. *)
Theorem eapol_sm_step_terminates W `{EapolEnv W} (s : st (W:=W)) :
  sm_wf (fst s) →
  ∃ s', eapol_sm_step s = Ret s' ∧ sm_wf (fst s') ∧ authAbort (fst s') = false.
Proof.
  intros Hwf. destruct (eapol_sm_step_rule (λ _, True) s) as (s' & Hs & ? & _); [done..|].
  eauto using eapol_sm_step_abort.
Qed.

Lemma eapol_sm_step_terminates_witness :
  ∃ s', eapol_sm_step demo_accept_input = Ret s' ∧ sm_wf (fst s') ∧ authAbort (fst s') = false.
Proof. apply eapol_sm_step_terminates. wf_concrete. Defined.

(** Life cycle: unless its allocation fails, [eapol_sm_alloc] returns a
    well-formed machine with its port closed and nothing accepted, whatever the
    configuration, and starts the one-second timer; every later timer tick returns, keeps the machine
    well formed and re-arms the timer. *)
Theorem sm_alloc_then_ticks W `{EapolEnv W} `{Malloc} (conf : sm_conf) (w : W) :
  (malloc_ok sizeof_eapol_state_machine = false ∧ eapol_sm_alloc conf w = Ret None
   ∨ ∃ sm w', eapol_sm_alloc conf w = Ret (Some (sm, eloop_register_tick (eloop_cancel_tick w')))
              ∧ sm_wf sm ∧ not_accepted sm)
  ∧ ∀ s : st, sm_wf (fst s) →
      ∃ sm' w', eapol_port_timers_tick s = Ret (sm', eloop_register_tick w') ∧ sm_wf sm'.
Proof.
  split.
  - unfold eapol_sm_alloc, eapol_sm_initialize.
    destruct (malloc_ok _); [right|by left]. cbn [negb].
    destruct (set_initialize_ok true (eapol_sm_defaults conf)
                (sm_wf_defaults conf) (not_accepted_defaults conf)) as [Hwf0 Hn0].
    destruct (not_accepted_run (_, w) Hwf0 Hn0) as ([sm1 w1] & Hs1 & Hwf1 & Hn1).
    destruct (set_initialize_ok false sm1 Hwf1 Hn1) as [Hwf2 Hn2].
    destruct (not_accepted_run (_, w1) Hwf2 Hn2) as ([sm2 w2] & Hs2 & Hwf3 & Hn3).
    exists sm2, w2. rewrite Hs1. cbn [mbind outcome_bind]. rewrite Hs2. auto.
  - intros s Hwf. destruct (eapol_port_timers_tick_total s Hwf) as ([sm' w'] & Hs & Hwf').
    unfold eapol_port_timers_tick in *. destruct s as [sm w0].
    destruct (eapol_sm_step _) as [[sm1 w1]| |]; [|done..]. cbn in *. injection Hs as <- <-. eauto.
Qed.

Lemma sm_alloc_then_ticks_witness :
  ∃ sm' w', eapol_port_timers_tick demo_connecting = Ret (sm', EvTickOn :: w') ∧ sm_wf sm'.
Proof.
  destruct (sm_alloc_then_ticks (H0:=demo_heap) _ demo_conf ([] : list eapol_event)) as [_ Htick].
  destruct (Htick demo_connecting) as (sm' & w' & Hs & Hwf); [wf_concrete|].
  exists sm', w'. split; [exact Hs|exact Hwf].
Defined.

(** C3. A port is never opened without an accept: from a machine in which the
    server has accepted nothing (no [aSuccess], no [authSuccess], port
    unauthorized, no key sent), a whole run of the machines, whatever flags
    the supplicant and the timers have raised, leaves the port unauthorized
    and performs neither [setPortAuthorized] nor [txKey]. *)
Theorem no_authorization_without_accept W `{EapolEnv W} (Q : W → Prop) (s : st) :
  kept_unless_opened Q → sm_wf (fst s) → not_accepted (fst s) → Q (snd s) →
  ∃ s', eapol_sm_step s = Ret s' ∧ not_accepted (fst s') ∧ Q (snd s').
Proof.
  intros HK Hwf HP HQ.
  destruct (eapol_sm_step_no_accept Q s HK Hwf HP HQ) as (s' & ? & ? & ? & ?). eauto.
Qed.

Lemma no_authorization_without_accept_witness :
  ∃ s', eapol_sm_step ((fst demo_connecting) ⦃ auth_pae / rxInitialRsp := true ⦄, [])
        = Ret s' ∧ not_accepted (fst s') ∧ Forall (λ e, no_open e = true) (snd s').
Proof.
  apply (no_authorization_without_accept _ (λ tr, Forall (λ e, no_open e = true) tr)).
  - split; intros; constructor; done.
  - wf_concrete.
  - vm_compute. auto.
  - constructor.
Defined.

(** C9. EAPOL-Logoff closes the port: on an enabled, initialized port whose
    machine has a pending [eapLogoff], whatever state it is in and whatever
    other flags are raised (a success, a start, a re-authentication, an
    expired timer), one run of the machines ends with the port unauthorized. *)
Theorem logoff_closes_port W `{EapolEnv W} (s : st (W:=W)) :
  sm_wf (fst s) → ¬ pae_forced (fst s) → authAbort (fst s) = false →
  eapLogoff (auth_pae (fst s)) = true →
  ∃ s', eapol_sm_step s = Ret s' ∧ portStatus (fst s') = Unauthorized.
Proof.
  intros Hwf Hnf Ha Hl.
  destruct (eapol_sm_step_rule (λ s, ¬ pae_forced (fst s) ∧ authAbort (fst s) = false
                                     ∧ logging_off (fst s)) s)
    as (s' & ? & ? & _ & s0 & ? & (? & ? & ?) & -> & ?);
    [by intros; apply logging_off_round | done | split_and!; [done..|by left] |].
  eauto using logging_off_rest.
Qed.

Lemma logoff_closes_port_witness :
  portStatus (fst demo_logoff_input) = Authorized ∧
  ∃ s', eapol_sm_step demo_logoff_input = Ret s' ∧ portStatus (fst s') = Unauthorized.
Proof.
  split; [by vm_compute|]. apply logoff_closes_port; [wf_concrete| |by vm_compute..].
  apply not_forced. by vm_compute.
Defined.

(** The quiet period holds: a machine in HELD on an enabled port stays in
    HELD, with its port unauthorized and its quiet timer untouched, through
    any run while the timer is not zero, whatever the supplicant and the
    server do. *)
Theorem held_port_stays_held W `{EapolEnv W} (s : st (W:=W)) :
  sm_wf (fst s) → ¬ pae_forced (fst s) → pae_state (auth_pae (fst s)) = AUTH_PAE_HELD →
  quietWhile (fst s) ≠ 0 →
  ∃ s', eapol_sm_step s = Ret s' ∧ pae_state (auth_pae (fst s')) = AUTH_PAE_HELD
        ∧ portStatus (fst s') = Unauthorized ∧ quietWhile (fst s') = quietWhile (fst s).
Proof.
  intros Hwf Hnf Hp Hq.
  destruct (eapol_sm_step_rule
    (λ s1, ¬ pae_forced (fst s1) ∧ pae_state (auth_pae (fst s1)) = AUTH_PAE_HELD
           ∧ quietWhile (fst s1) = quietWhile (fst s)) s)
    as (s' & ? & Hwf' & (_ & Hp' & ?) & _); [by intros; apply held_round | done..|].
  exists s'. split_and!; [done..|by apply Hwf'|done].
Qed.

(** A machine the server has just rejected. *)
Definition demo_rejected : st :=
  let '(sm, w) := demo_answer in machine (eapol_sm_step (sm ⦃ be_auth / aFail := true ⦄, w)).

Lemma held_port_stays_held_witness :
  ∃ s', eapol_sm_step ((fst demo_rejected) ⦃ auth_pae / eapStart := true ⦄, []) = Ret s'
        ∧ pae_state (auth_pae (fst s')) = AUTH_PAE_HELD
        ∧ portStatus (fst s') = Unauthorized ∧ quietWhile (fst s') = 60.
Proof.
  destruct (held_port_stays_held _ ((fst demo_rejected) ⦃ auth_pae / eapStart := true ⦄, []))
    as (s' & ? & ? & ? & Hq).
  - wf_concrete.
  - apply not_forced. by vm_compute.
  - by vm_compute.
  - by vm_compute.
  - exists s'. split_and!; [done..|]. rewrite Hq. by vm_compute.
Defined.

(** C18. Key messages are not duplicated: in a whole run of the machines, the
    number of [txKey] calls is one if [keyAvailable] was raised and has been
    consumed, and zero otherwise. *)
Theorem one_key_per_accept W `{EapolEnv W} (f : W → nat) (s : st) :
  counts_keys f → sm_wf (fst s) →
  ∃ s', eapol_sm_step s = Ret s'
        ∧ (f (snd s') + (if keyAvailable (fst s') then 1 else 0)
           = f (snd s) + (if keyAvailable (fst s) then 1 else 0))%nat.
Proof.
  intros Hf Hwf.
  destruct (eapol_sm_step_rule (λ s1, key_budget f s1 = key_budget f s) s)
    as (s' & ? & _ & ? & _); [|done..|eauto].
  intros s1 ? <-. by apply key_budget_round.
Qed.

Lemma one_key_per_accept_witness :
  ∃ s', eapol_sm_step demo_accept_input = Ret s'
        ∧ (count_key (snd s') + (if keyAvailable (fst s') then 1 else 0) = 1)%nat.
Proof.
  destruct (one_key_per_accept _ count_key demo_accept_input) as (s' & ? & Hk).
  - split; done.
  - wf_concrete.
  - exists s'. split; [done|]. rewrite Hk. by vm_compute.
Defined.
