(* ===== verification/Md5.v ===== *)
(** MD5, HMAC-MD5 and RC4 ([user/802.1x/md5.c]).

    [MD5_CTX] is the C struct; [MD5Update] and [MD5Final] work on it in place,
    block by block, as the code does.  [md5] is the reference: pad the whole
    message as RFC 1321 says and fold the compression function over its
    blocks.  Every word is a [Z] in [0, 2^32). *)

From S2P Require Import Prelude.

(** * Words *)

Definition not32 (x : Z) : Z := Z.lxor x 4294967295.

Definition MD5_F1 (x y z : Z) : Z := Z.lor (Z.land x y) (Z.land (not32 x) z).
Definition MD5_F2 (x y z : Z) : Z := Z.lor (Z.land x z) (Z.land y (not32 z)).
Definition MD5_F3 (x y z : Z) : Z := Z.lxor (Z.lxor x y) z.
Definition MD5_F4 (x y z : Z) : Z := Z.lxor y (Z.lor x (not32 z)).

Definition CYCLIC_LEFT_SHIFT (w s : Z) : Z :=
  Z.lor (u32 (Z.shiftl w s)) (Z.shiftr w (32 - s)).

Definition MD5Step (f : Z → Z → Z → Z) (w x y z data t s : Z) : Z :=
  let w := u32 (w + (f x y z + data + t)) in
  let w := Z.land (CYCLIC_LEFT_SHIFT w s) 4294967295 in
  u32 (w + x).

Definition LShiftVal : list Z :=
  [7; 12; 17; 22; 5; 9; 14; 20; 4; 11; 16; 23; 6; 10; 15; 21].

Definition MD5Table : list Z :=
  [0xd76aa478; 0xe8c7b756; 0x242070db; 0xc1bdceee;
   0xf57c0faf; 0x4787c62a; 0xa8304613; 0xfd469501;
   0x698098d8; 0x8b44f7af; 0xffff5bb1; 0x895cd7be;
   0x6b901122; 0xfd987193; 0xa679438e; 0x49b40821;
   0xf61e2562; 0xc040b340; 0x265e5a51; 0xe9b6c7aa;
   0xd62f105d; 0x02441453; 0xd8a1e681; 0xe7d3fbc8;
   0x21e1cde6; 0xc33707d6; 0xf4d50d87; 0x455a14ed;
   0xa9e3e905; 0xfcefa3f8; 0x676f02d9; 0x8d2a4c8a;
   0xfffa3942; 0x8771f681; 0x6d9d6122; 0xfde5380c;
   0xa4beea44; 0x4bdecfa9; 0xf6bb4b60; 0xbebfbc70;
   0x289b7ec6; 0xeaa127fa; 0xd4ef3085; 0x04881d05;
   0xd9d4d039; 0xe6db99e5; 0x1fa27cf8; 0xc4ac5665;
   0xf4292244; 0x432aff97; 0xab9423a7; 0xfc93a039;
   0x655b59c3; 0x8f0ccc92; 0xffeff47d; 0x85845dd1;
   0x6fa87e4f; 0xfe2ce6e0; 0xa3014314; 0x4e0811a1;
   0xf7537e82; 0xbd3af235; 0x2ad7d2bb; 0xeb86d391].

(** [ULONG Buf[4]] *)
Record md5_buf := mk_buf { Buf0 : Z; Buf1 : Z; Buf2 : Z; Buf3 : Z }.

Definition idx (l : list Z) (i : Z) : Z := nth (Z.to_nat i) l 0.

(** One iteration of a round: the step and the one-word right shift of [Reg]. *)
Definition md5_iter (f : Z → Z → Z → Z) (data t s : Z) (Reg : md5_buf) : md5_buf :=
  let '(mk_buf r0 r1 r2 r3) := Reg in
  mk_buf r3 (MD5Step f r0 r1 r2 r3 data t s) r1 r2.

Definition md5_round (f : Z → Z → Z → Z) (pick shift : Z → Z) (Mes : list Z)
    (first : Z) (Reg : md5_buf) : md5_buf :=
  foldl (λ Reg i, md5_iter f (idx Mes (pick i)) (idx MD5Table i) (idx LShiftVal (shift i)) Reg)
    Reg (seqZ first 16).

(** The cast [(ULONG * )pCtx->Input] of a 64-byte block on the little-endian target. *)
Definition le_words (block : bytes) : list Z :=
  map (λ i, of_le (take 4 (drop (4 * i) block))) (seq 0 16).

Definition MD5Transform (Buf : md5_buf) (Mes : list Z) : md5_buf :=
  let Reg := Buf in
  let Reg := md5_round MD5_F1 (λ i, i) (λ i, Z.land i 3) Mes 0 Reg in
  let Reg := md5_round MD5_F2 (λ i, Z.land (5 * Z.land i 15 + 1) 15)
               (λ i, 4 + Z.land i 3) Mes 16 Reg in
  let Reg := md5_round MD5_F3 (λ i, Z.land (3 * Z.land i 15 + 5) 15)
               (λ i, 8 + Z.land i 3) Mes 32 Reg in
  let Reg := md5_round MD5_F4 (λ i, Z.land (7 * Z.land i 15) 15)
               (λ i, 12 + Z.land i 3) Mes 48 Reg in
  mk_buf (u32 (Buf0 Buf + Buf0 Reg)) (u32 (Buf1 Buf + Buf1 Reg))
    (u32 (Buf2 Buf + Buf2 Reg)) (u32 (Buf3 Buf + Buf3 Reg)).

(** * The context *)

Record MD5_CTX := mk_ctx {
  Buf : md5_buf;
  LenInBitCount0 : Z;
  LenInBitCount1 : Z;
  Input : bytes
}.

#[export] Instance eta_MD5_CTX : Eta MD5_CTX := λ r,
  mk_ctx (Buf r) (LenInBitCount0 r) (LenInBitCount1 r) (Input r).

Definition md5_iv : md5_buf := mk_buf 0x67452301 0xefcdab89 0x98badcfe 0x10325476.

(** [Input] is left as it is: [input] is what the memory held. *)
Definition MD5Init (input : bytes) : MD5_CTX := mk_ctx md5_iv 0 0 input.

(** [MD5Transform(pCtx->Buf, (ULONG * )pCtx->Input)] *)
Definition transform_input (ctx : MD5_CTX) : MD5_CTX :=
  ctx ⦃ Buf := MD5Transform (Buf ctx) (le_words (Input ctx)) ⦄.

(** The [for] loop over whole blocks, and the buffering of the rest. *)
Fixpoint update_blocks (TfTimes : nat) (ctx : MD5_CTX) (pData : bytes) : MD5_CTX :=
  match TfTimes with
  | S n =>
      let ctx := ctx ⦃ Input := splice (Input ctx) 0 (take 64 pData) ⦄ in
      update_blocks n (transform_input ctx) (drop 64 pData)
  | O => ctx ⦃ Input := splice (Input ctx) 0 pData ⦄
  end.

(** The bit counter, carried by hand into its high word. *)
Definition count_bits (ctx : MD5_CTX) (LenInBytes : Z) : MD5_CTX :=
  let temp := LenInBitCount0 ctx in
  let ctx := ctx ⦃ LenInBitCount0 := u32 (temp + u32 (Z.shiftl LenInBytes 3)) ⦄ in
  let ctx := ctx ⦃ LenInBitCount1 := if LenInBitCount0 ctx <? temp
                                     then u32 (LenInBitCount1 ctx + 1)
                                     else LenInBitCount1 ctx ⦄ in
  ctx ⦃ LenInBitCount1 := u32 (LenInBitCount1 ctx + Z.shiftr LenInBytes 29) ⦄.

Definition MD5Update (ctx : MD5_CTX) (pData : bytes) : MD5_CTX :=
  let LenInBytes := Z.of_nat (length pData) in
  let temp := LenInBitCount0 ctx in
  let ctx := count_bits ctx LenInBytes in
  let temp := Z.land (Z.shiftr temp 3) 63 in
  if negb (temp =? 0) then
    if u32 (temp + LenInBytes) <? 64 then
      ctx ⦃ Input := splice (Input ctx) (Z.to_nat temp) pData ⦄
    else
      let n := Z.to_nat (64 - temp) in
      let ctx := ctx ⦃ Input := splice (Input ctx) (Z.to_nat temp) (take n pData) ⦄ in
      let ctx := transform_input ctx in
      let pData := drop n pData in
      update_blocks (length pData / 64) ctx pData
  else update_blocks (length pData / 64) ctx pData.

(** The loop that writes the data-length field at [Input[56..63]]. *)
Definition put_length (ctx : MD5_CTX) : MD5_CTX :=
  ctx ⦃ Input := splice (Input ctx) 56 (le32 (LenInBitCount0 ctx) ++ le32 (LenInBitCount1 ctx)) ⦄.

Definition digest_bytes (b : md5_buf) : bytes :=
  le32 (Buf0 b) ++ le32 (Buf1 b) ++ le32 (Buf2 b) ++ le32 (Buf3 b).

(** The digest and the context left behind: [NdisZeroMemory(pCtx, sizeof(pCtx))]
    clears [sizeof(void * ) = 4] bytes, the first word of [Buf]. *)
Definition MD5Final (ctx : MD5_CTX) : bytes * MD5_CTX :=
  let Remainder := u8 (Z.land (Z.shiftr (LenInBitCount0 ctx) 3) 63) in
  let PadLenInBytes := u8 (if Remainder <? 56 then 56 - Remainder else 120 - Remainder) in
  let off := Z.to_nat Remainder in
  let ctx :=
    if Remainder <? 56 then
      let ctx := ctx ⦃ Input := splice (Input ctx) off [0x80] ⦄ in
      let PadLenInBytes := u8 (PadLenInBytes - 1) in
      let ctx := ctx ⦃ Input := splice (Input ctx) (off + 1)
                                 (replicate (Z.to_nat PadLenInBytes) 0) ⦄ in
      transform_input (put_length ctx)
    else
      let ctx := ctx ⦃ Input := splice (Input ctx) off [0x80] ⦄ in
      let PadLenInBytes := u8 (PadLenInBytes - 1) in
      let ctx := ctx ⦃ Input := splice (Input ctx) (off + 1)
                                 (replicate (Z.to_nat (64 - Remainder - 1)) 0) ⦄ in
      let PadLenInBytes := u8 (PadLenInBytes - (64 - Remainder - 1)) in
      let ctx := transform_input ctx in
      let ctx := ctx ⦃ Input := splice (Input ctx) 0
                                 (replicate (Z.to_nat PadLenInBytes) 0) ⦄ in
      transform_input (put_length ctx) in
  (digest_bytes (Buf ctx),
   ctx ⦃ Buf := mk_buf 0 (Buf1 (Buf ctx)) (Buf2 (Buf ctx)) (Buf3 (Buf ctx)) ⦄).

(** What an uninitialised [MD5_CTX] on the stack holds in [Input]; the digests
    do not depend on it ([md5_run_correct]). *)
Definition stack_input : bytes := replicate 64 0xa5.

(** [MD5Init], one [MD5Update] per chunk, [MD5Final]. *)
Definition md5_run (input : bytes) (chunks : list bytes) : bytes :=
  fst (MD5Final (foldl MD5Update (MD5Init input) chunks)).

Definition md5_mac (key data : bytes) : bytes := md5_run stack_input [key; data; key].

Definition hmac_md5 (key data : bytes) : bytes :=
  let key := if 64 <? Z.of_nat (length key) then md5_run stack_input [key] else key in
  let k_ipad := splice (replicate 65 0) 0 key in
  let k_opad := splice (replicate 65 0) 0 key in
  let k_ipad := map (Z.lxor 0x36) (take 64 k_ipad) in
  let k_opad := map (Z.lxor 0x5c) (take 64 k_opad) in
  let mac := md5_run stack_input [k_ipad; data] in
  md5_run stack_input [k_opad; mac].

(** * RC4 *)

Definition S_SWAP (a b : Z) (S : list Z) : list Z :=
  let t := idx S a in
  <[Z.to_nat b := t]> (<[Z.to_nat a := idx S b]> S).

(** The key-setup loop; [key[kpos]] is read even when the key is empty. *)
Fixpoint rc4_setup (n : nat) (i j kpos : Z) (S : list Z) (key : bytes) : outcome (list Z) :=
  match n with
  | O => Ret S
  | Datatypes.S n =>
      let* k := load key (Z.to_nat kpos) 1 in
      let j := Z.land (j + idx S i + idx k 0) 255 in
      let kpos := u8 (kpos + 1) in
      let kpos := if Z.of_nat (length key) <=? kpos then 0 else kpos in
      rc4_setup n (i + 1) j kpos (S_SWAP i j S) key
  end.

Fixpoint rc4_apply (buf : bytes) (i j : Z) (S : list Z) : bytes :=
  match buf with
  | [] => []
  | b :: buf =>
      let i := Z.land (i + 1) 255 in
      let j := Z.land (j + idx S i) 255 in
      let S := S_SWAP i j S in
      Z.lxor b (idx S (Z.land (idx S i + idx S j) 255)) :: rc4_apply buf i j S
  end.

Definition rc4_init : list Z := seqZ 0 256.

Definition rc4 (buf key : bytes) : outcome bytes :=
  let* sbox := rc4_setup 256 0 0 0 rc4_init key in
  Ret (rc4_apply buf 0 0 sbox).
