(* ===== verification/Md5Props.v ===== *)
(** Correctness of the MD5, HMAC-MD5 and RC4 code of [Md5]: the streaming
    interface computes the RFC 1321 digest of the concatenated chunks
    ([Rfc1321.digest], written from the RFC alone), HMAC-MD5 is that of RFC
    2104, RC4 is the published cipher ([Rc4.crypt]) and its own inverse. *)

From S2P Require Import Prelude Md5.

(** * Reference definitions *)

(** Fold the compression function over the first [n] blocks. *)
Fixpoint absorb (n : nat) (buf : md5_buf) (data : bytes) : md5_buf :=
  match n with
  | O => buf
  | S n => absorb n (MD5Transform buf (le_words (take 64 data))) (drop 64 data)
  end.

(** The message length in bits, modulo 2^64, low word first. *)
Definition bit_length (n : nat) : bytes :=
  le32 (u32 (8 * Z.of_nat n)) ++ le32 (u32 (8 * Z.of_nat n / 4294967296)).

Definition md5_pad (m : bytes) : bytes :=
  m ++ [0x80] ++ replicate ((119 - length m mod 64) mod 64) 0 ++ bit_length (length m).

Definition md5 (m : bytes) : bytes :=
  digest_bytes (absorb (length (md5_pad m) / 64) md5_iv (md5_pad m)).

(** ** MD5 as RFC 1321 has it

    Nothing of the code's is used: the constants come from the sine, the
    rounds are the lines of the RFC. *)

Module Rfc1321.

(** [2^200 * sin i] for an angle of [i] radians: the Taylor series in fixed
    point, from the term of degree [k] on. *)
Fixpoint sin_series (n : nat) (i k term : Z) : Z :=
  match n with
  | O => 0
  | S n => term + sin_series n i (k + 2) (- (term * i * i) / ((k + 1) * (k + 2)))
  end.

(** [T[i]]: the integer part of [4294967296 * abs(sin(i))]. *)
Definition T (i : Z) : Z := 2 ^ 32 * Z.abs (sin_series 150 i 1 (i * 2 ^ 200)) / 2 ^ 200.

Definition word (x : Z) : Prop := 0 ≤ x < 2 ^ 32.
Definition lnot (x : Z) : Z := 2 ^ 32 - 1 - x.
Definition rotl (x s : Z) : Z := (x * 2 ^ s) mod 2 ^ 32 + x / 2 ^ (32 - s).

Definition F (x y z : Z) : Z := Z.lor (Z.land x y) (Z.land (lnot x) z).
Definition G (x y z : Z) : Z := Z.lor (Z.land x z) (Z.land y (lnot z)).
Definition H (x y z : Z) : Z := Z.lxor x (Z.lxor y z).
Definition I (x y z : Z) : Z := Z.lxor y (Z.lor x (lnot z)).

(** [a = b + ((a + f(b,c,d) + X[k] + T[i]) <<< s)] *)
Definition op (f : Z → Z → Z → Z) (X : list Z) (a b c d : Z) (k s i : Z) : Z :=
  (b + rotl ((a + f b c d + nth (Z.to_nat k) X 0 + T i) mod 2 ^ 32) s) mod 2 ^ 32.

Definition regs : Type := Z * Z * Z * Z.

(** A line [[ABCD k0 s0 i] [DABC k1 s1 i+1] [CDAB k2 s2 i+2] [BCDA k3 s3 i+3]]
    of the RFC. *)
Definition line (f : Z → Z → Z → Z) (X : list Z) (s : Z * Z * Z * Z) (st : regs)
    (l : Z * Z * Z * Z * Z) : regs :=
  let '(s0, s1, s2, s3) := s in
  let '(k0, k1, k2, k3, i) := l in
  let '(a, b, c, d) := st in
  let a := op f X a b c d k0 s0 i in
  let d := op f X d a b c k1 s1 (i + 1) in
  let c := op f X c d a b k2 s2 (i + 2) in
  let b := op f X b c d a k3 s3 (i + 3) in
  (a, b, c, d).

Definition round1 (X : list Z) (st : regs) : regs :=
  foldl (line F X (7, 12, 17, 22)) st
    [(0, 1, 2, 3, 1); (4, 5, 6, 7, 5); (8, 9, 10, 11, 9); (12, 13, 14, 15, 13)].
Definition round2 (X : list Z) (st : regs) : regs :=
  foldl (line G X (5, 9, 14, 20)) st
    [(1, 6, 11, 0, 17); (5, 10, 15, 4, 21); (9, 14, 3, 8, 25); (13, 2, 7, 12, 29)].
Definition round3 (X : list Z) (st : regs) : regs :=
  foldl (line H X (4, 11, 16, 23)) st
    [(5, 8, 11, 14, 33); (1, 4, 7, 10, 37); (13, 0, 3, 6, 41); (9, 12, 15, 2, 45)].
Definition round4 (X : list Z) (st : regs) : regs :=
  foldl (line I X (6, 10, 15, 21)) st
    [(0, 7, 14, 5, 49); (12, 3, 10, 1, 53); (8, 15, 6, 13, 57); (4, 11, 2, 9, 61)].

(** The four rounds, and the saved registers added to the result. *)
Definition compress (X : list Z) (st : regs) : regs :=
  let '(aa, bb, cc, dd) := st in
  let '(a, b, c, d) := round4 X (round3 X (round2 X (round1 X st))) in
  ((a + aa) mod 2 ^ 32, (b + bb) mod 2 ^ 32, (c + cc) mod 2 ^ 32, (d + dd) mod 2 ^ 32).

(** A word is read and written low-order byte first. *)
Definition word_of (b0 b1 b2 b3 : Z) : Z := b0 + 2 ^ 8 * b1 + 2 ^ 16 * b2 + 2 ^ 24 * b3.
Definition word_bytes (w : Z) : bytes := map (λ i, w / 2 ^ (8 * i) mod 2 ^ 8) [0; 1; 2; 3].

Fixpoint words (n : nat) (block : bytes) : list Z :=
  match n, block with
  | S n, b0 :: b1 :: b2 :: b3 :: block => word_of b0 b1 b2 b3 :: words n block
  | _, _ => []
  end.

(** A 1 bit, 0 bits up to 448 modulo 512, the length in bits modulo [2^64]. *)
Definition pad (m : bytes) : bytes :=
  let len := Z.of_nat (length m) in
  m ++ 0x80 :: replicate (Z.to_nat ((55 - len) mod 64)) 0
    ++ word_bytes ((8 * len) mod 2 ^ 32) ++ word_bytes ((8 * len) / 2 ^ 32 mod 2 ^ 32).

Definition init : regs :=
  (word_of 0x01 0x23 0x45 0x67, word_of 0x89 0xab 0xcd 0xef,
   word_of 0xfe 0xdc 0xba 0x98, word_of 0x76 0x54 0x32 0x10).

(** The 16-word blocks, one after the other. *)
Fixpoint blocks (n : nat) (st : regs) (m : bytes) : regs :=
  match n with
  | O => st
  | S n => blocks n (compress (words 16 (take 64 m)) st) (drop 64 m)
  end.

Definition digest (m : bytes) : bytes :=
  let '(a, b, c, d) := blocks (length (pad m) / 64) init (pad m) in
  word_bytes a ++ word_bytes b ++ word_bytes c ++ word_bytes d.

End Rfc1321.


(** ** RC4 as published

    The state is a function on [0..255]. *)
Module Rc4.

Definition swap (i j : Z) (f : Z → Z) : Z → Z :=
  λ x, if x =? i then f j else if x =? j then f i else f x.

(** Key scheduling: [j := j + S[i] + key[i mod keylength]], swap, for every [i]. *)
Definition schedule_step (key : bytes) (st : Z * (Z → Z)) (i : Z) : Z * (Z → Z) :=
  let '(j, f) := st in
  let j := (j + f i + nth (Z.to_nat (i mod Z.of_nat (length key))) key 0) mod 256 in
  (j, swap i j f).

Definition schedule (key : bytes) : Z → Z :=
  snd (foldl (schedule_step key) (0, λ x, x) (seqZ 0 256)).

(** The first [n] bytes of the key stream. *)
Fixpoint stream (n : nat) (i j : Z) (f : Z → Z) {struct n} : bytes :=
  match n with
  | O => []
  | S n =>
      let i := (i + 1) mod 256 in
      let j := (j + f i) mod 256 in
      let f := swap i j f in
      f ((f i + f j) mod 256) :: stream n i j f
  end.

Definition crypt (key data : bytes) : bytes :=
  zip_with Z.lxor data (stream (length data) 0 0 (schedule key)).

End Rc4.


(** * Blocks *)

Lemma absorb_app n k buf d :
  absorb (n + k) buf d = absorb k (absorb n buf d) (drop (64 * n) d).
Proof.
  revert buf d. induction n as [|n IH]; intros buf d; [done|].
  cbn [absorb Nat.add]. rewrite IH. f_equal. rewrite drop_drop. f_equal. lia.
Qed.

Lemma absorb_prefix n buf d e : (64 * n ≤ length d)%nat → absorb n buf (d ++ e) = absorb n buf d.
Proof.
  revert buf d. induction n as [|n IH]; intros buf d Hd; [done|]. cbn [absorb].
  rewrite take_app_le, drop_app_le by lia. apply IH. rewrite length_drop. lia.
Qed.

Lemma splice_all buf data : length data = length buf → splice buf 0 data = data.
Proof. intros Hl. unfold splice. cbn. rewrite drop_ge by lia. apply app_nil_r. Qed.

Lemma take_splice buf off data :
  (off + length data ≤ length buf)%nat →
  take (off + length data) (splice buf off data) = take off buf ++ data.
Proof.
  intros Hl. unfold splice. rewrite app_assoc.
  rewrite take_app_length'; [done|]. rewrite length_app, length_take. lia.
Qed.

(** Two adjacent writes are one; a write up to the end of the buffer. *)
Lemma splice_splice buf off d e :
  (off + length d + length e ≤ length buf)%nat →
  splice (splice buf off d) (off + length d) e = splice buf off (d ++ e).
Proof.
  intros Hl. unfold splice at 1. rewrite take_splice by lia. unfold splice.
  rewrite !(app_assoc (take off buf)), drop_app_ge by (rewrite length_app, length_take; lia).
  rewrite length_app, length_take, drop_drop, <-!app_assoc, length_app.
  do 4 f_equal. lia.
Qed.

Lemma splice_end buf off d :
  (off + length d = length buf)%nat → splice buf off d = take off buf ++ d.
Proof. intros Hl. unfold splice. rewrite (drop_ge buf) by lia. by rewrite app_nil_r. Qed.

(** A context holds the hash state [buf] and the unprocessed bytes [t]. *)
Record holds (buf : md5_buf) (t : bytes) (ctx : MD5_CTX) : Prop := {
  holds_buf : Buf ctx = buf;
  holds_tail : take (length t) (Input ctx) = t;
  holds_input : length (Input ctx) = 64%nat
}.

Lemma transform_Buf ctx input :
  Buf (transform_input (ctx ⦃ Input := input ⦄)) = MD5Transform (Buf ctx) (le_words input).
Proof. done. Qed.

Lemma transform_frame ctx :
  Buf (transform_input ctx) = MD5Transform (Buf ctx) (le_words (Input ctx))
  ∧ Input (transform_input ctx) = Input ctx.
Proof. done. Qed.

Lemma update_blocks_holds n ctx d :
  length (Input ctx) = 64%nat → n = (length d / 64)%nat →
  holds (absorb n (Buf ctx) d) (drop (64 * n) d) (update_blocks n ctx d).
Proof.
  revert ctx d. induction n as [|n IH]; intros ctx d Hi Hn.
  - cbn. assert (length d < 64)%nat by (apply Nat.div_small_iff; lia).
    split; cbn; [done| |rewrite splice_length; lia].
    rewrite drop_0. apply (take_splice _ 0). lia.
  - assert (64 ≤ length d)%nat.
    { destruct (decide (64 ≤ length d)%nat); [done|]. rewrite Nat.div_small in Hn; lia. }
    assert (length (take 64 d) = 64%nat) by (rewrite length_take; lia).
    cbn [update_blocks absorb].
    rewrite splice_all by lia.
    replace (64 * S n)%nat with (64 + 64 * n)%nat by lia. rewrite <-drop_drop.
    pose proof (IH (transform_input (ctx ⦃ Input := take 64 d ⦄)) (drop 64 d)) as Hh.
    rewrite transform_Buf in Hh. apply Hh; [done|].
    rewrite length_drop. zlia.
Qed.

(** Feeding [d] to a context that holds [t]. *)
Lemma MD5Update_holds buf t ctx d :
  holds buf t ctx → (length t < 64)%nat → Z.of_nat (length d) < 4294967232 →
  Z.land (Z.shiftr (LenInBitCount0 ctx) 3) 63 = Z.of_nat (length t) →
  let n := ((length t + length d) / 64)%nat in
  holds (absorb n buf (t ++ d)) (drop (64 * n) (t ++ d)) (MD5Update ctx d).
Proof.
  intros [Hb Ht Hi] Hlt Hd Htemp n. unfold MD5Update. cbv zeta. rewrite Htemp.
  set (ctx1 := count_bits ctx _).
  assert (Buf ctx1 = buf ∧ Input ctx1 = Input ctx) as [Hb1 Hi1] by done.
  clearbody ctx1. destruct (negb _) eqn:Hr.
  - destruct (_ <? 64) eqn:Hsmall.
    + assert (length t + length d < 64)%nat by (unfold u32 in *; zlia).
      assert (n = 0%nat) as Hn by (unfold n; zlia).
      rewrite Hn, Nat.mul_0_r, drop_0. cbn [absorb].
      split; cbn; rewrite ?Hi1; [done| |rewrite splice_length; lia].
      rewrite Nat2Z.id, length_app, take_splice by lia. by rewrite Ht.
    + assert (64 ≤ length t + length d)%nat by (unfold u32 in *; zlia).
      set (k := Z.to_nat _). assert (k = 64 - length t)%nat as Hk by lia.
      assert (length (take k d) = k) by (rewrite length_take; lia).
      rewrite Nat2Z.id.
      assert (splice (Input ctx1) (length t) (take k d) = t ++ take k d) as ->.
      { rewrite Hi1. rewrite <-(firstn_all (splice _ _ _)), splice_length by lia.
        replace (length (Input ctx)) with (length t + length (take k d))%nat by lia.
        rewrite take_splice by lia. by rewrite Ht. }
      pose proof (update_blocks_holds (length (drop k d) / 64)
                    (transform_input (ctx1 ⦃ Input := t ++ take k d ⦄)) (drop k d)) as Hh.
      specialize (Hh ltac:(cbn; rewrite length_app; lia) eq_refl).
      replace n with (S (length (drop k d) / 64)) by (unfold n; rewrite length_drop; zlia).
      set (q := (length (drop k d) / 64)%nat) in *. cbn [absorb].
      replace (64 * S q)%nat with (64 + 64 * q)%nat by lia.
      rewrite <-drop_drop, take_app_ge, drop_app_ge by lia.
      replace (64 - length t)%nat with k by lia. 
      by rewrite transform_Buf, Hb1 in Hh.
  - assert (t = []) as -> by (apply nil_length_inv; lia).
    rewrite <-Hb1. apply update_blocks_holds; [by rewrite Hi1|done].
Qed.

(** * Whole messages *)

(** What a context has seen. *)
Record hashed (m : bytes) (ctx : MD5_CTX) : Prop := {
  hashed_holds :
    holds (absorb (length m / 64) md5_iv m) (drop (64 * (length m / 64)) m) ctx;
  hashed_low : LenInBitCount0 ctx = u32 (8 * Z.of_nat (length m));
  hashed_high : LenInBitCount1 ctx = u32 (8 * Z.of_nat (length m) / 4294967296)
}.

Lemma tail_length (m : bytes) : length (drop (64 * (length m / 64)) m) = (length m mod 64)%nat.
Proof. rewrite length_drop. zlia. Qed.

Lemma hashed_temp m ctx :
  hashed m ctx → Z.land (Z.shiftr (LenInBitCount0 ctx) 3) 63 = Z.of_nat (length m mod 64).
Proof.
  intros [_ -> _]. change 63 with (Z.ones 6).
  rewrite Z.land_ones, Z.shiftr_div_pow2 by lia. unfold u32.
  change (2 ^ 6) with 64. change (2 ^ 3) with 8. zlia.
Qed.

Lemma hashed_init input : length input = 64%nat → hashed [] (MD5Init input).
Proof. intros. by split. Qed.

Lemma update_blocks_counts n ctx d :
  LenInBitCount0 (update_blocks n ctx d) = LenInBitCount0 ctx
  ∧ LenInBitCount1 (update_blocks n ctx d) = LenInBitCount1 ctx.
Proof. revert ctx d. induction n as [|n IH]; intros ctx d; [done|]. cbn [update_blocks]. by rewrite !(proj1 (IH _ _)), !(proj2 (IH _ _)). Qed.

Lemma MD5Update_counts ctx d :
  LenInBitCount0 (MD5Update ctx d) = LenInBitCount0 (count_bits ctx (Z.of_nat (length d)))
  ∧ LenInBitCount1 (MD5Update ctx d) = LenInBitCount1 (count_bits ctx (Z.of_nat (length d))).
Proof.
  unfold MD5Update. repeat case_match; [done| |];
    by rewrite (proj1 (update_blocks_counts _ _ _)), (proj2 (update_blocks_counts _ _ _)).
Qed.

(** The two counter words are the bit length modulo 2^64. *)
Lemma count_bits_correct ctx n len :
  0 ≤ n → 0 ≤ len < 4294967296 →
  LenInBitCount0 ctx = u32 (8 * n) → LenInBitCount1 ctx = u32 (8 * n / 4294967296) →
  LenInBitCount0 (count_bits ctx len) = u32 (8 * (n + len))
  ∧ LenInBitCount1 (count_bits ctx len) = u32 (8 * (n + len) / 4294967296).
Proof.
  intros Hn Hlen H0 H1. unfold count_bits; cbn. rewrite H0, H1.
  rewrite Z.shiftl_mul_pow2, Z.shiftr_div_pow2 by lia.
  change (2 ^ 3) with 8. change (2 ^ 29) with 536870912. unfold u32.
  split; [zlia|]. destruct (_ <? _) eqn:Hc; zlia.
Qed.

Lemma hashed_update m ctx d :
  hashed m ctx → Z.of_nat (length d) < 4294967232 → hashed (m ++ d) (MD5Update ctx d).
Proof.
  intros Hh Hd. pose proof (hashed_temp _ _ Hh) as Ht. destruct Hh as [Hh H0 H1].
  set (q := (length m / 64)%nat) in *.
  split.
  - rewrite <-tail_length in Ht. fold q in Ht.
    pose proof (MD5Update_holds _ _ ctx d Hh) as Hu. cbv zeta in Hu.
    specialize (Hu ltac:(unfold q; rewrite tail_length; zlia) Hd Ht).
    rewrite <-drop_app_le in Hu by (unfold q; zlia).
    set (k := ((length (drop (64 * q) m) + length d) / 64)%nat) in *.
    rewrite drop_drop in Hu.
    rewrite <-(absorb_prefix q md5_iv m d), <-absorb_app in Hu by (unfold q; zlia).
    rewrite length_app. replace ((length m + length d) / 64)%nat with (q + k)%nat
      by (unfold k, q; rewrite length_drop; zlia).
    by rewrite Nat.mul_add_distr_l.
  - destruct (MD5Update_counts ctx d) as [-> _]. rewrite length_app, Nat2Z.inj_add.
    apply count_bits_correct; lia.
  - destruct (MD5Update_counts ctx d) as [_ ->]. rewrite length_app, Nat2Z.inj_add.
    apply count_bits_correct; lia.
Qed.

Lemma hashed_chunks input chunks :
  length input = 64%nat → Forall (λ d, Z.of_nat (length d) < 4294967232) chunks →
  hashed (concat chunks) (foldl MD5Update (MD5Init input) chunks).
Proof.
  intros Hi. induction chunks as [|d ds IH] using rev_ind; [intros; by apply hashed_init|].
  rewrite Forall_app, Forall_singleton. intros [Hds Hd]. rewrite foldl_app, concat_app. cbn.
  rewrite app_nil_r. apply hashed_update; auto.
Qed.

Lemma bit_length_length n : length (bit_length n) = 8%nat.
Proof. done. Qed.

Ltac len := rewrite ?length_app, ?length_replicate, ?bit_length_length, ?length_cons; cbn [length]; lia.

Lemma absorb_pad m :
  absorb (length (md5_pad m) / 64) md5_iv (md5_pad m)
  = absorb ((length (md5_pad m) / 64) - length m / 64) (absorb (length m / 64) md5_iv m)
      (drop (64 * (length m / 64)) m ++ [0x80]
       ++ replicate ((119 - length m mod 64) mod 64) 0 ++ bit_length (length m)).
Proof.
  set (q := (length m / 64)%nat). set (p := (length (md5_pad m) / 64)%nat).
  assert (q ≤ p)%nat. { unfold q, p, md5_pad. rewrite length_app. zlia. }
  replace p with (q + (p - q))%nat at 1 by lia. rewrite absorb_app. unfold md5_pad.
  rewrite absorb_prefix, drop_app_le by (unfold q; zlia). done.
Qed.

Lemma md5_pad_length m :
  length (md5_pad m) = (length m + 9 + (119 - length m mod 64) mod 64)%nat.
Proof. unfold md5_pad. rewrite !length_app, length_replicate, bit_length_length. cbn. lia. Qed.

Lemma put_length_input m ctx :
  hashed m ctx → ∀ ctx', LenInBitCount0 ctx' = LenInBitCount0 ctx →
  LenInBitCount1 ctx' = LenInBitCount1 ctx →
  put_length ctx' = ctx' ⦃ Input := splice (Input ctx') 56 (bit_length (length m)) ⦄.
Proof. intros [_ H0 H1] ctx' E0 E1. unfold put_length, bit_length. by rewrite E0, E1, H0, H1. Qed.

(** The three writes that fill the last block. *)
Lemma last_block (input bl : bytes) (r k : nat) :
  length input = 64%nat → length bl = 8%nat → (r + 1 + k = 56)%nat →
  splice (splice (splice input r [0x80]) (r + 1) (replicate k 0)) 56 bl
  = take r input ++ [0x80] ++ replicate k 0 ++ bl.
Proof.
  intros Hi Hb Hk. rewrite (splice_splice _ r [0x80]) by len.
  rewrite <-Hk. replace (r + 1 + k)%nat with (r + length ([0x80%Z] ++ replicate k 0%Z))%nat by len.
  rewrite splice_splice, splice_end, <-app_assoc by len. done.
Qed.

Lemma MD5Final_hashed m ctx : hashed m ctx → fst (MD5Final ctx) = md5 m.
Proof.
  intros Hh. unfold MD5Final, md5. rewrite (hashed_temp _ _ Hh), absorb_pad.
  rewrite u8_id by zlia. cbn [fst]. f_equal.
  pose proof (put_length_input _ _ Hh) as Hput.
  destruct Hh as [[Hb Ht Hi] _ _]. rewrite tail_length in Ht.
  set (t := drop (64 * (length m / 64)) m) in *.
  assert (length t = length m mod 64)%nat as Hlen by apply tail_length.
  rewrite md5_pad_length, Nat2Z.id.
  set (r := (length m mod 64)%nat) in *.
  destruct (_ <? 56) eqn:Hr.
  - rewrite (Hput (ctx ⦃ Input := _ ⦄ ⦃ Input := _ ⦄)) by done. rewrite transform_Buf.
    cbn [set]. cbn [Buf Input].
    replace (Z.to_nat (u8 (u8 (56 - Z.of_nat r) - 1))) with (55 - r)%nat by (unfold u8; zlia).
    rewrite last_block, Ht, Hb by len.
    replace ((119 - r) mod 64)%nat with (55 - r)%nat by zlia.
    replace ((length m + 9 + (55 - r)) / 64 - length m / 64)%nat with 1%nat by (unfold r; zlia).
    cbn [absorb]. rewrite take_ge by len. done.
  - rewrite (Hput (_ ⦃ Input := _ ⦄)) by done. rewrite transform_Buf. cbn [set]. cbn [Buf Input].
    rewrite (proj1 (transform_frame _)), (proj2 (transform_frame _)). cbn [Buf Input].
    assert (r < 64)%nat by (unfold r; zlia).
    replace (Z.to_nat (u8 _)) with 56%nat by (unfold u8; zlia).
    replace (Z.to_nat (64 - Z.of_nat r - 1)) with (63 - r)%nat by lia.
    rewrite (splice_splice _ r [0x80]), (splice_end _ r), Ht, Hb by len.
    rewrite (splice_splice _ 0 (replicate 56 0)), splice_end, take_0 by len.
    replace ((119 - r) mod 64)%nat with (63 - r + 56)%nat by zlia.
    replace ((length m + 9 + (63 - r + 56)) / 64 - length m / 64)%nat with 2%nat by (unfold r; zlia).
    set (first := t ++ [0x80] ++ replicate (63 - r) 0).
    replace (t ++ _) with (first ++ replicate 56 0 ++ bit_length (length m))
      by (unfold first; rewrite replicate_add, <-!app_assoc; done).
    assert (length first = 64%nat) by (unfold first; len).
    cbn [absorb]. rewrite take_app_length', drop_app_length' by done.
    by rewrite (take_ge (replicate _ _ ++ _)) by len.
Qed.

(** * Reference correctness *)

Lemma md5_run_ref input chunks :
  length input = 64%nat → Forall (λ d, Z.of_nat (length d) < 4294967232) chunks →
  md5_run input chunks = md5 (concat chunks).
Proof. intros. by apply MD5Final_hashed, hashed_chunks. Qed.

Lemma md5_length m : length (md5 m) = 16%nat.
Proof. done. Qed.

Lemma md5_bytes_ok m : bytes_ok (md5 m).
Proof. unfold md5, digest_bytes. rewrite !bytes_ok_app. auto with fw. Qed.

(** * The code's hash is that of RFC 1321 *)

Section Rfc1321Facts.
Import Rfc1321.

Lemma word_ones x i : word x → Z.testbit x i = Z.testbit x i && Z.testbit (Z.ones 32) i.
Proof.
  intros Hx. destruct (Z_lt_le_dec i 0); [by rewrite !Z.testbit_neg_r|].
  destruct (Z_lt_le_dec i 32).
  - rewrite Z.ones_spec_low by lia. by rewrite andb_true_r.
  - by rewrite (word_bits 32) by done.
Qed.

Lemma not32_lnot x : word x → not32 x = lnot x.
Proof.
  intros Hx. unfold lnot, not32. change (2 ^ 32 - 1) with (Z.ones 32). change 4294967295 with (Z.ones 32).
  rewrite Z.sub_nocarry_ldiff; apply Z.bits_inj'; intros i _;
    rewrite ?Z.ldiff_spec, ?Z.lxor_spec, ?Z.bits_0, (word_ones x i Hx);
    by destruct (Z.testbit x i), (Z.testbit (Z.ones 32) i).
Qed.

Lemma shift_rotl x s : word x → 0 ≤ s ≤ 32 → Z.land (CYCLIC_LEFT_SHIFT x s) 4294967295 = rotl x s.
Proof.
  intros Hx Hs. unfold rotl, CYCLIC_LEFT_SHIFT, u32. unfold word in Hx.
  rewrite Z.shiftl_mul_pow2, Z.shiftr_div_pow2 by lia. change 4294967296 with (2 ^ 32).
  set (hi := (x * 2 ^ s) mod 2 ^ 32). set (lo := x / 2 ^ (32 - s)).
  assert (2 ^ 32 = 2 ^ s * 2 ^ (32 - s)) as Hpow by (rewrite <-Z.pow_add_r by lia; f_equal; lia).
  assert (0 < 2 ^ s ∧ 0 < 2 ^ (32 - s)) as [Hps Hpr] by (split; apply Z.pow_pos_nonneg; lia).
  assert (0 ≤ lo < 2 ^ s) as Hlo.
  { unfold lo. split; [apply Z.div_pos; lia|]. apply Z.div_lt_upper_bound; lia. }
  assert (hi = x mod 2 ^ (32 - s) * 2 ^ s) as Hhi.
  { unfold hi. rewrite Hpow, (Z.mul_comm (2 ^ s)). apply Z.mul_mod_distr_r; lia. }
  assert (Z.land hi lo = 0) as Hdis.
  { apply Z.bits_inj'. intros i Hi. rewrite Z.land_spec, Z.bits_0, Hhi, <-Z.shiftl_mul_pow2 by lia.
    destruct (Z_lt_le_dec i s); [by rewrite Z.shiftl_spec_low|].
    rewrite (word_bits s lo) by lia. apply andb_false_r. }
  assert (word (hi + lo)) as Hw.
  { unfold word. pose proof (Z.mod_pos_bound x (2 ^ (32 - s)) Hpr). nia. }
  rewrite <-Z.lxor_lor, <-Z.add_nocarry_lxor by done. change 4294967295 with (Z.ones 32).
  rewrite Z.land_ones by lia. by apply Z.mod_small.
Qed.

Lemma op_word f X a b c d k s i : word (op f X a b c d k s i).
Proof. apply Z.mod_pos_bound. lia. Qed.

(** The state of the code that stands for the registers. *)
Definition buf_of (st : regs) : md5_buf := let '(a, b, c, d) := st in mk_buf a b c d.
Definition words_ok (st : regs) : Prop := let '(a, b, c, d) := st in word a ∧ word b ∧ word c ∧ word d.

Definition agree (f g : Z → Z → Z → Z) : Prop := ∀ x y z, word x → word y → word z → f x y z = g x y z.

Lemma agree_F : agree MD5_F1 F.
Proof. intros x y z ???. unfold MD5_F1, F. by rewrite not32_lnot. Qed.
Lemma agree_G : agree MD5_F2 G.
Proof. intros x y z ???. unfold MD5_F2, G. by rewrite not32_lnot. Qed.
Lemma agree_H : agree MD5_F3 H.
Proof. intros x y z ???. apply Z.lxor_assoc. Qed.
Lemma agree_I : agree MD5_F4 I.
Proof. intros x y z ???. unfold MD5_F4, I. by rewrite not32_lnot. Qed.

Lemma iter_op f g X k s i a b c d :
  agree f g → words_ok (a, b, c, d) → 0 ≤ s ≤ 32 →
  md5_iter f (idx X k) (T i) s (mk_buf a b c d) = mk_buf d (op g X a b c d k s i) b c.
Proof.
  intros Hf (Ha & Hb & Hc & Hd) Hs. unfold md5_iter, MD5Step, op, idx. rewrite Hf by done.
  rewrite shift_rotl; [|apply u32_range|done]. f_equal. unfold u32. change 4294967296 with (2 ^ 32).
  rewrite Z.add_comm. by rewrite !Z.add_assoc.
Qed.

(** The sixteen steps of a round, as the code picks word, constant and shift. *)
Definition iters (f : Z → Z → Z → Z) (X : list Z) (Reg : md5_buf) (l : list (Z * Z * Z)) : md5_buf :=
  foldl (λ Reg '(k, t, s), md5_iter f (idx X k) t s Reg) Reg l.

Definition expand (s : Z * Z * Z * Z) (l : Z * Z * Z * Z * Z) : list (Z * Z * Z) :=
  let '(s0, s1, s2, s3) := s in
  let '(k0, k1, k2, k3, i) := l in
  [(k0, T i, s0); (k1, T (i + 1), s1); (k2, T (i + 2), s2); (k3, T (i + 3), s3)].

Definition shifts_ok (s : Z * Z * Z * Z) : Prop :=
  let '(s0, s1, s2, s3) := s in 0 ≤ s0 ≤ 32 ∧ 0 ≤ s1 ≤ 32 ∧ 0 ≤ s2 ≤ 32 ∧ 0 ≤ s3 ≤ 32.

Lemma iters_line f g X s st l :
  agree f g → words_ok st → shifts_ok s →
  iters f X (buf_of st) (expand s l) = buf_of (line g X s st l) ∧ words_ok (line g X s st l).
Proof.
  destruct st as [[[a b] c] d], s as [[[s0 s1] s2] s3], l as [[[[k0 k1] k2] k3] i].
  intros Hf Hst (H0 & H1 & H2 & H3). destruct Hst as (Ha & Hb & Hc & Hd).
  unfold iters, expand, line, buf_of. cbn [foldl]. cbv zeta.
  repeat (rewrite (iter_op f g); [|done|refine (conj _ (conj _ (conj _ _))); (done || apply op_word)|done]).
  split; [done|]. refine (conj _ (conj _ (conj _ _))); apply op_word.
Qed.

Lemma iters_lines f g X s ls st :
  agree f g → words_ok st → shifts_ok s →
  iters f X (buf_of st) (concat (map (expand s) ls)) = buf_of (foldl (line g X s) st ls)
  ∧ words_ok (foldl (line g X s) st ls).
Proof.
  intros Hf Hst Hs. revert st Hst. induction ls as [|l ls IH]; intros st Hst; [done|].
  cbn [map concat foldl]. unfold iters. rewrite foldl_app. fold (iters f X (buf_of st) (expand s l)).
  destruct (iters_line f g X s st l Hf Hst Hs) as [-> Hw]. by apply IH.
Qed.

Lemma round_lines f g pick shift X first s ls st :
  agree f g → words_ok st → shifts_ok s →
  map (λ i, (pick i, idx MD5Table i, idx LShiftVal (shift i))) (seqZ first 16) = concat (map (expand s) ls) →
  md5_round f pick shift X first (buf_of st) = buf_of (foldl (line g X s) st ls)
  ∧ words_ok (foldl (line g X s) st ls).
Proof.
  intros Hf Hst Hs Hl. rewrite <-(proj1 (iters_lines f g X s ls st Hf Hst Hs)), <-Hl.
  split; [|by apply (iters_lines f g X s)]. unfold md5_round, iters.
  generalize (buf_of st) (seqZ first 16). intros Reg l. revert Reg. induction l; intros; cbn; auto.
Qed.

Lemma round_1 X st :
  words_ok st →
  md5_round MD5_F1 (λ i, i) (λ i, Z.land i 3) X 0 (buf_of st) = buf_of (round1 X st) ∧ words_ok (round1 X st).
Proof. intros. apply round_lines; [exact agree_F|done|by vm_compute|by vm_compute]. Qed.

Lemma round_2 X st :
  words_ok st →
  md5_round MD5_F2 (λ i, Z.land (5 * Z.land i 15 + 1) 15) (λ i, 4 + Z.land i 3) X 16 (buf_of st)
    = buf_of (round2 X st) ∧ words_ok (round2 X st).
Proof. intros. apply round_lines; [exact agree_G|done|by vm_compute|by vm_compute]. Qed.

Lemma round_3 X st :
  words_ok st →
  md5_round MD5_F3 (λ i, Z.land (3 * Z.land i 15 + 5) 15) (λ i, 8 + Z.land i 3) X 32 (buf_of st)
    = buf_of (round3 X st) ∧ words_ok (round3 X st).
Proof. intros. apply round_lines; [exact agree_H|done|by vm_compute|by vm_compute]. Qed.

Lemma round_4 X st :
  words_ok st →
  md5_round MD5_F4 (λ i, Z.land (7 * Z.land i 15) 15) (λ i, 12 + Z.land i 3) X 48 (buf_of st)
    = buf_of (round4 X st) ∧ words_ok (round4 X st).
Proof. intros. apply round_lines; [exact agree_I|done|by vm_compute|by vm_compute]. Qed.

Lemma transform_compress X st :
  words_ok st → MD5Transform (buf_of st) X = buf_of (compress X st) ∧ words_ok (compress X st).
Proof.
  intros Hst. unfold MD5Transform, compress. cbv zeta.
  destruct (round_1 X st Hst) as [-> Hw1], (round_2 X _ Hw1) as [-> Hw2],
    (round_3 X _ Hw2) as [-> Hw3], (round_4 X _ Hw3) as [-> _].
  destruct (round4 X _) as [[[a b] c] d], st as [[[aa bb] cc] dd]. cbn [buf_of Buf0 Buf1 Buf2 Buf3].
  unfold u32. change 4294967296 with (2 ^ 32). split.
  - by rewrite (Z.add_comm aa), (Z.add_comm bb), (Z.add_comm cc), (Z.add_comm dd).
  - refine (conj _ (conj _ (conj _ _))); apply Z.mod_pos_bound; lia.
Qed.

Lemma words_le_words n block :
  (4 * n ≤ length block)%nat →
  words n block = map (λ i, of_le (take 4 (drop (4 * i) block))) (seq 0 n).
Proof.
  revert block. induction n as [|n IH]; intros block Hl; [done|].
  do 4 (destruct block as [|? block]; [cbn in Hl; lia|]).
  cbn [words seq map]. f_equal.
  - change (4 * 0)%nat with 0%nat. unfold word_of, of_le. cbn [drop take foldr].
    change (2 ^ 8) with 256. change (2 ^ 16) with 65536. change (2 ^ 24) with 16777216. rewrite take_0. cbn [foldr]. lia.
  - rewrite IH by (cbn in Hl; lia). rewrite <-seq_shift, map_map. apply map_ext. intros i.
    by replace (4 * S i)%nat with (4 + 4 * i)%nat by lia.
Qed.

Lemma absorb_blocks n st m :
  words_ok st → (64 * n ≤ length m)%nat → absorb n (buf_of st) m = buf_of (blocks n st m).
Proof.
  revert st m. induction n as [|n IH]; intros st m Hst Hl; [done|]. cbn [absorb blocks].
  assert (words 16 (take 64 m) = le_words (take 64 m)) as -> by (apply words_le_words; rewrite length_take; lia).
  destruct (transform_compress (le_words (take 64 m)) st Hst) as [-> Hw].
  apply IH; [done|]. rewrite length_drop. lia.
Qed.

Lemma word_bytes_le32 w : word_bytes w = le32 w.
Proof. unfold word_bytes, le32, u8. cbn -[Z.div Z.modulo]. by rewrite Z.div_1_r. Qed.

Lemma pad_md5_pad m : md5_pad m = pad m.
Proof.
  unfold md5_pad, pad, bit_length. cbv zeta. rewrite !word_bytes_le32. unfold u32. change (2 ^ 32) with 4294967296.
  do 2 f_equal. cbn [app]. f_equal. f_equal. f_equal. zlia.
Qed.

Lemma md5_rfc1321 m : md5 m = Rfc1321.digest m.
Proof.
  unfold md5, Rfc1321.digest. rewrite pad_md5_pad. change md5_iv with (buf_of init).
  rewrite absorb_blocks; [|by vm_compute|apply Nat.Div0.mul_div_le].
  destruct (blocks _ _ _) as [[[a b] c] d]. by rewrite !word_bytes_le32.
Qed.

End Rfc1321Facts.


(** A message that fits the length parameter of [MD5Update]. *)
Definition short (d : bytes) : Prop := Z.of_nat (length d) < 4294967232.

(** RFC 2104 over the digest of RFC 1321. *)
Definition md5_hmac_ref (key data : bytes) : bytes :=
  let k := if decide (64 < length key)%nat then Rfc1321.digest key else key in
  let k := k ++ replicate (64 - length k) 0 in
  Rfc1321.digest (map (Z.lxor 0x5c) k ++ Rfc1321.digest (map (Z.lxor 0x36) k ++ data)).

Lemma hmac_md5_ref key data : short key → short data → hmac_md5 key data = md5_hmac_ref key data.
Proof.
  intros Hk Hd. unfold hmac_md5, md5_hmac_ref. rewrite <-!md5_rfc1321.
  set (k := if decide _ then _ else _).
  assert ((if 64 <? Z.of_nat (length key) then md5_run stack_input [key] else key) = k) as ->.
  { unfold k. destruct (64 <? _) eqn:E; case_decide; try lia; [|done].
    rewrite md5_run_ref; [cbn; by rewrite app_nil_r|done|by repeat constructor]. }
  assert (length k ≤ 64)%nat.
  { unfold k. case_decide; [rewrite md5_length|]; lia. }
  clearbody k.
  assert (take 64 (splice (replicate 65 0) 0 k) = k ++ replicate (64 - length k) 0) as ->.
  { unfold splice. rewrite take_0, app_nil_l, Nat.add_0_l, drop_replicate.
    rewrite take_app_ge, take_replicate by lia. do 2 f_equal. lia. }
  set (kp := k ++ _). assert (length kp = 64%nat) by (unfold kp; len).
  rewrite !md5_run_ref; cbn [concat]; rewrite ?app_nil_r; try done.
  all: repeat constructor; rewrite ?length_map, ?md5_length; try lia; done.
Qed.

(** * RC4 *)

Lemma rc4_apply_length buf i j S : length (rc4_apply buf i j S) = length buf.
Proof. revert i j S. induction buf; intros; cbn; auto. Qed.

(** The key stream does not depend on the data. *)
Lemma rc4_apply_involutive buf i j S : rc4_apply (rc4_apply buf i j S) i j S = buf.
Proof.
  revert i j S. induction buf as [|b buf IH]; intros i j S; [done|]. cbn [rc4_apply].
  rewrite IH. f_equal. by rewrite Z.lxor_assoc, Z.lxor_nilpotent, Z.lxor_0_r.
Qed.

Lemma land_255 z : Z.land z 255 = z mod 256.
Proof. change 255 with (Z.ones 8). by apply Z.land_ones. Qed.

(** Exchanging two entries permutes the table. *)
Lemma S_SWAP_perm a b S :
  0 ≤ a < Z.of_nat (length S) → 0 ≤ b < Z.of_nat (length S) → S_SWAP a b S ≡ₚ S.
Proof.
  intros Ha Hb. unfold S_SWAP, idx.
  assert (∃ x, S !! Z.to_nat a = Some x) as [x Hx] by (apply lookup_lt_is_Some; lia).
  assert (∃ y, S !! Z.to_nat b = Some y) as [y Hy] by (apply lookup_lt_is_Some; lia).
  rewrite (nth_lookup_Some _ _ _ _ Hx), (nth_lookup_Some _ _ _ _ Hy).
  by apply Permutation_insert_swap.
Qed.

Lemma rc4_setup_perm n i j kpos S key :
  0 ≤ i → i + Z.of_nat n ≤ 256 → 0 ≤ kpos < Z.of_nat (length key) → S ≡ₚ rc4_init →
  ∃ S', rc4_setup n i j kpos S key = Ret S' ∧ S' ≡ₚ rc4_init.
Proof.
  revert i j kpos S. induction n as [|n IH]; intros i j kpos S Hi Hn Hk HS; [by exists S|].
  cbn [rc4_setup]. unfold load. rewrite decide_True by lia. cbn [mbind outcome_bind].
  assert (length S = 256%nat) by (by rewrite HS).
  rewrite land_255. apply IH; [lia..| |].
  - unfold u8. destruct (_ <=? _) eqn:E; zlia.
  - rewrite S_SWAP_perm; [done|lia|zlia].
Qed.

Lemma rc4_init_bytes S : S ≡ₚ rc4_init → bytes_ok S.
Proof.
  intros HS. unfold bytes_ok. rewrite HS.
  apply (bool_decide_unpack (bytes_ok rc4_init)). by vm_compute.
Qed.

Lemma rc4_apply_bytes buf i j S :
  bytes_ok buf → length S = 256%nat → bytes_ok S → bytes_ok (rc4_apply buf i j S).
Proof.
  intros Hb. revert i j S. induction Hb as [|b buf Hb _ IH]; intros i j S Hl HS; [constructor|].
  cbn [rc4_apply]. set (i' := Z.land (i + 1) 255). set (j' := Z.land (j + idx S i') 255).
  assert (S_SWAP i' j' S ≡ₚ S) as HP by (apply S_SWAP_perm; unfold i', j'; rewrite land_255; zlia).
  assert (bytes_ok (S_SWAP i' j' S)) as HS' by (unfold bytes_ok; by rewrite HP).
  constructor; [|apply IH; [by rewrite HP|done]].
  apply lxor_byte_ok; [done|]. unfold idx at 1. rewrite land_255.
  apply (proj1 (List.Forall_nth _ _) HS'). apply Permutation_length in HP. zlia.
Qed.

(** Twice the same key stream. *)
Lemma rc4_twice (buf key : bytes) :
  key ≠ [] → bytes_ok buf →
  ∃ c, rc4 buf key = Ret c ∧ length c = length buf ∧ bytes_ok c ∧ rc4 c key = Ret buf.
Proof.
  intros Hkey Hb. unfold rc4.
  destruct (rc4_setup_perm 256 0 0 0 rc4_init key) as (S & -> & HS);
    [lia..|destruct key; [done|cbn; lia]|done|].
  cbn [mbind outcome_bind]. eexists. split; [done|].
  split_and!; [apply rc4_apply_length| |by rewrite rc4_apply_involutive].
  apply rc4_apply_bytes; [done|by rewrite HS|by apply rc4_init_bytes].
Qed.

(** ** The code's cipher is the published one *)

(** The table of the code stands for the state. *)
Definition table_is (S : list Z) (f : Z → Z) : Prop :=
  length S = 256%nat ∧ ∀ x, 0 ≤ x < 256 → idx S x = f x.

Lemma table_swap S f a b :
  table_is S f → 0 ≤ a < 256 → 0 ≤ b < 256 → table_is (S_SWAP a b S) (Rc4.swap a b f).
Proof.
  intros [Hl Hf] Ha Hb. split; [unfold S_SWAP; by rewrite !length_insert|].
  intros x Hx. unfold S_SWAP, Rc4.swap. rewrite <-!Hf by done. unfold idx. rewrite !nth_lookup.
  destruct (Z.eqb_spec x a) as [->|Ha'].
  - destruct (decide (a = b)) as [->|Hab].
    + rewrite list_lookup_insert_eq by (rewrite length_insert; lia). done.
    + rewrite list_lookup_insert_ne, list_lookup_insert_eq by lia. done.
  - destruct (Z.eqb_spec x b) as [->|Hb'].
    + rewrite list_lookup_insert_eq by (rewrite length_insert; lia). done.
    + by rewrite !list_lookup_insert_ne by lia.
Qed.

Lemma setup_schedule n i j kpos S f key :
  key ≠ [] → 0 ≤ i → i + Z.of_nat n ≤ 256 → (i < 256 → kpos = i mod Z.of_nat (length key)) → table_is S f →
  ∃ S', rc4_setup n i j kpos S key = Ret S'
        ∧ table_is S' (snd (foldl (Rc4.schedule_step key) (j, f) (seqZ i (Z.of_nat n)))).
Proof.
  intros Hkey. assert (0 < length key)%nat by (destruct key; [done|cbn; lia]). clear Hkey.
  revert i j kpos S f. induction n as [|n IH]; intros i j kpos S f Hi Hn Hk HS; [by exists S|].
  specialize (Hk ltac:(lia)).
  assert (0 ≤ kpos < Z.of_nat (length key)) as Hkpos by (subst kpos; apply Z.mod_pos_bound; lia).
  cbn [rc4_setup]. unfold load. rewrite decide_True by lia. cbn [mbind outcome_bind].
  rewrite seqZ_cons by lia. cbn [foldl Rc4.schedule_step].
  replace (Z.pred (Z.of_nat (Datatypes.S n))) with (Z.of_nat n) by lia. change (Z.succ i) with (i + 1).
  rewrite land_255. rewrite <-(proj2 HS i), <-Hk by lia.
  assert (idx (take 1 (drop (Z.to_nat kpos) key)) 0 = nth (Z.to_nat kpos) key 0) as ->.
  { unfold idx. rewrite !nth_lookup. rewrite lookup_take_lt, lookup_drop by lia. by rewrite Nat.add_0_r. }
  apply IH; [lia..| |].
  - intros Hi1. subst kpos. unfold u8.
    pose proof (Z.mod_le i (Z.of_nat (length key)) Hi ltac:(lia)).
    rewrite (Z.mod_small (_ + 1) 256) by lia.
    destruct (Z.leb_spec (Z.of_nat (length key)) (i mod Z.of_nat (length key) + 1)).
    + rewrite <-Z.add_mod_idemp_l by lia.
      replace (i mod Z.of_nat (length key) + 1) with (Z.of_nat (length key)) by lia. by rewrite Z.mod_same by lia.
    + rewrite <-Z.add_mod_idemp_l by lia. symmetry. apply Z.mod_small. lia.
  - apply table_swap; [done|lia|apply Z.mod_pos_bound; lia].
Qed.

Lemma apply_stream buf i j S f :
  0 ≤ i < 256 → table_is S f → 
  rc4_apply buf i j S = zip_with Z.lxor buf (Rc4.stream (length buf) i j f).
Proof.
  revert i j S f. induction buf as [|b buf IH]; intros i j S f Hi HS; [done|].
  cbn [rc4_apply Rc4.stream length zip_with]. rewrite !land_255.
  assert (∀ z, 0 ≤ z mod 256 < 256) as Hm by (intros; apply Z.mod_pos_bound; lia).
  pose proof HS as [_ Hf]. rewrite (Hf ((i + 1) mod 256)) by done.
  pose proof (table_swap S f ((i + 1) mod 256) ((j + f ((i + 1) mod 256)) mod 256) HS
                ltac:(done) ltac:(done)) as HS'.
  pose proof HS' as [_ Hf']. rewrite !Hf' by done. f_equal. by apply IH.
Qed.

Lemma table_init : table_is rc4_init (λ x, x).
Proof.
  split; [done|]. intros x Hx. unfold idx, rc4_init. rewrite nth_lookup, lookup_seqZ_lt by lia. cbn. lia.
Qed.

Lemma rc4_published buf key : key ≠ [] → rc4 buf key = Ret (Rc4.crypt key buf).
Proof.
  intros Hkey. unfold rc4.
  destruct (setup_schedule 256 0 0 0 rc4_init (λ x, x) key) as (S & -> & HS);
    [done|lia..|by rewrite Z.mod_0_l by (destruct key; [done|cbn; lia])|apply table_init|].
  cbn [mbind outcome_bind]. f_equal. by apply apply_stream.
Qed.


(** * Properties *)

(** C19. The streaming MD5 code is MD5: whatever the chunks a message is fed in
    (each short enough for the 32-bit length parameter), and whatever the
    uninitialised block buffer held, [MD5Init], [MD5Update]s and [MD5Final]
    give the digest of the concatenated message that RFC 1321 defines: its
    sine table, its four rounds line by line, its initial registers, padding
    and 64-bit length. *)
Theorem md5_streaming_correct (input : bytes) (chunks : list bytes) :
  length input = 64%nat → Forall short chunks →
  fst (MD5Final (foldl MD5Update (MD5Init input) chunks)) = Rfc1321.digest (concat chunks).
Proof. intros Hi Hc. rewrite <-md5_rfc1321. by apply (md5_run_ref input chunks). Qed.

Lemma md5_streaming_correct_witness :
  fst (MD5Final (foldl MD5Update (MD5Init (replicate 64 0x77)) [[0x61]; []; replicate 120 0; [0x63]]))
    = Rfc1321.digest (concat [[0x61]; []; replicate 120 0; [0x63]])
  ∧ Rfc1321.digest [0x61; 0x62; 0x63]
    = [0x90; 0x01; 0x50; 0x98; 0x3c; 0xd2; 0x4f; 0xb0;
       0xd6; 0x96; 0x3f; 0x7d; 0x28; 0xe1; 0x7f; 0x72].
Proof.
  split; [|by vm_compute]. apply md5_streaming_correct; [done|]. unfold short. repeat constructor.
Defined.

(** C20. [hmac_md5] is the HMAC of RFC 2104 over the MD5 of RFC 1321: keys longer than 64 bytes
    are hashed first, shorter ones zero-padded. *)
Theorem hmac_md5_rfc2104 (key data : bytes) :
  short key → short data → hmac_md5 key data = md5_hmac_ref key data.
Proof. apply hmac_md5_ref. Qed.

Lemma hmac_md5_rfc2104_witness :
  hmac_md5 (replicate 80 0xaa) [1; 2; 3] = md5_hmac_ref (replicate 80 0xaa) [1; 2; 3]
  ∧ hmac_md5 (replicate 16 0x0b) [0x48; 0x69; 0x20; 0x54; 0x68; 0x65; 0x72; 0x65]
    = [0x92; 0x94; 0x72; 0x7a; 0x36; 0x38; 0xbb; 0x1c;
       0x13; 0xf4; 0x8e; 0xf8; 0x15; 0x8b; 0xfc; 0x9d].
Proof. split; [by apply hmac_md5_rfc2104|by vm_compute]. Defined.

(** RC4 decrypts what it encrypts: for every non-empty key, [rc4] stays
    inside its tables, keeps the length, produces bytes from bytes, and
    applying it twice gives the buffer back. *)
Theorem rc4_roundtrip (buf key : bytes) :
  key ≠ [] → bytes_ok buf →
  ∃ c, rc4 buf key = Ret c ∧ length c = length buf ∧ bytes_ok c ∧ rc4 c key = Ret buf.
Proof. apply rc4_twice. Qed.

Lemma rc4_roundtrip_witness :
  ∃ c, rc4 [0; 0; 0; 0; 0] [1; 2; 3; 4; 5] = Ret c ∧ length c = 5%nat ∧ bytes_ok c
       ∧ rc4 c [1; 2; 3; 4; 5] = Ret [0; 0; 0; 0; 0].
Proof. apply (rc4_roundtrip [0; 0; 0; 0; 0]); [done|]. apply (bool_decide_unpack _). by vm_compute. Defined.
