(* ===== verification/Radius.v ===== *)
(** RADIUS messages ([user/802.1x/radius.c] and [radius.h]).

    A [radius_msg] owns a buffer and an array of pointers to the attributes in
    it.  The pointers are offsets here, so that the relocation of
    [Radius_msg_add_attr] after a [realloc] (add the distance between the two
    buffers to each pointer) leaves them as they are; [buf_size] is the length
    of the buffer.  Every access to the buffer is checked: [Oob] is an access
    outside it. *)

From S2P Require Import Prelude Md5.

(** * Data *)

Record radius_msg := mk_msg {
  buf : bytes;
  buf_used : nat;
  attrs : list nat;
  attr_size : nat
}.
#[export] Instance eta_radius_msg : Eta radius_msg := λ r,
  mk_msg (buf r) (buf_used r) (attrs r) (attr_size r).

Definition buf_size (msg : radius_msg) : nat := length (buf msg).
Definition attr_used (msg : radius_msg) : nat := length (attrs msg).

Definition sizeof_radius_hdr : nat := 20.
Definition sizeof_radius_attr_hdr : nat := 2.
Definition RADIUS_MAX_ATTR_LEN : nat := 253.
Definition RADIUS_DEFAULT_MSG_SIZE : nat := 1024.
Definition RADIUS_DEFAULT_ATTR_COUNT : nat := 16.
Definition MD5_MAC_LEN : nat := 16.

Definition RADIUS_CODE_ACCESS_REQUEST : Z := 1.
Definition RADIUS_CODE_ACCESS_ACCEPT : Z := 2.
Definition RADIUS_CODE_ACCESS_REJECT : Z := 3.
Definition RADIUS_CODE_ACCESS_CHALLENGE : Z := 11.

Definition RADIUS_ATTR_USER_NAME : Z := 1.
Definition RADIUS_ATTR_USER_PASSWORD : Z := 2.
Definition RADIUS_ATTR_NAS_IP_ADDRESS : Z := 4.
Definition RADIUS_ATTR_NAS_PORT : Z := 5.
Definition RADIUS_ATTR_FRAMED_MTU : Z := 12.
Definition RADIUS_ATTR_STATE : Z := 24.
Definition RADIUS_ATTR_VENDOR_SPECIFIC : Z := 26.
Definition RADIUS_ATTR_SESSION_TIMEOUT : Z := 27.
Definition RADIUS_ATTR_IDLE_TIMEOUT : Z := 28.
Definition RADIUS_ATTR_TERMINATION_ACTION : Z := 29.
Definition RADIUS_ATTR_CALLED_STATION_ID : Z := 30.
Definition RADIUS_ATTR_CALLING_STATION_ID : Z := 31.
Definition RADIUS_ATTR_NAS_IDENTIFIER : Z := 32.
Definition RADIUS_ATTR_NAS_PORT_TYPE : Z := 61.
Definition RADIUS_ATTR_CONNECT_INFO : Z := 77.
Definition RADIUS_ATTR_EAP_MESSAGE : Z := 79.
Definition RADIUS_ATTR_MESSAGE_AUTHENTICATOR : Z := 80.

Definition RADIUS_VENDOR_ID_MICROSOFT : Z := 311.
Definition RADIUS_VENDOR_ATTR_MS_MPPE_SEND_KEY : Z := 16.
Definition RADIUS_VENDOR_ATTR_MS_MPPE_RECV_KEY : Z := 17.

Record radius_ms_mppe_keys := mk_mppe { mppe_send : option bytes; mppe_recv : option bytes }.

(** * Access to the header and to the attributes *)

Definition byte_at (b : bytes) (off : nat) : outcome Z :=
  let* x := load b off 1 in Ret (idx x 0).

(** [hdr->code], [hdr->identifier], [hdr->authenticator]; the header is the
    start of the buffer. *)
Definition hdr_code (msg : radius_msg) : Z := idx (buf msg) 0.
Definition hdr_identifier (msg : radius_msg) : Z := idx (buf msg) 1.
Definition hdr_authenticator (msg : radius_msg) : bytes := take 16 (drop 4 (buf msg)).

(** [attr->type], [attr->length] and [n] bytes from [attr + 1] on. *)
Definition attr_type (msg : radius_msg) (a : nat) : outcome Z := byte_at (buf msg) a.
Definition attr_length (msg : radius_msg) (a : nat) : outcome Z := byte_at (buf msg) (a + 1).
Definition attr_data (msg : radius_msg) (a n : nat) : outcome bytes := load (buf msg) (a + 2) n.

(** [memcpy(msg->buf + off, data, ...)] *)
Definition msg_write (msg : radius_msg) (off : nat) (data : bytes) : outcome radius_msg :=
  let* b := store (buf msg) off data in Ret (msg ⦃ buf := b ⦄).

(** The first attribute of type [type] among [as_]: the loops with a [break]. *)
Fixpoint find_attr (msg : radius_msg) (type : Z) (as_ : list nat) : outcome (option nat) :=
  match as_ with
  | [] => Ret None
  | a :: rest =>
      let* t := attr_type msg a in
      if t =? type then Ret (Some a) else find_attr msg type rest
  end.

Section Messages.
Context `{Malloc}.

(** * Building messages *)

(** [None] is the return value -1. *)
Definition Radius_msg_initialize (init_len : nat) : option radius_msg :=
  if decide (init_len < sizeof_radius_hdr)%nat then None
  else if negb (malloc_ok (Z.of_nat init_len)) then None
  else if negb (malloc_ok (Z.of_nat RADIUS_DEFAULT_ATTR_COUNT * 4)) then None
  else Some (mk_msg (replicate init_len 0) sizeof_radius_hdr [] RADIUS_DEFAULT_ATTR_COUNT).

Definition Radius_msg_set_hdr (msg : radius_msg) (code identifier : Z) : outcome radius_msg :=
  msg_write msg 0 [u8 code; u8 identifier].

(** [sizeof( *msg)] is 28 on the target. *)
Definition Radius_msg_new (code identifier : Z) : outcome (option radius_msg) :=
  if negb (malloc_ok 28) then Ret None
  else
    match Radius_msg_initialize RADIUS_DEFAULT_MSG_SIZE with
    | None => Ret None
    | Some msg => let* msg := Radius_msg_set_hdr msg code identifier in Ret (Some msg)
    end.

Definition Radius_msg_add_attr_to_array (msg : radius_msg) (attr : nat) : option radius_msg :=
  if decide (attr_size msg ≤ attr_used msg)%nat then
    let nlen := (attr_size msg * 2)%nat in
    if malloc_ok (Z.of_nat nlen * 4)
    then Some (msg ⦃ attr_size := nlen ⦄ ⦃ attrs := attrs msg ++ [attr] ⦄)
    else None
  else Some (msg ⦃ attrs := attrs msg ++ [attr] ⦄).

(** [while (nlen < buf_needed) nlen *= 2;] *)
Fixpoint grow_len (fuel nlen buf_needed : nat) : outcome nat :=
  if decide (nlen < buf_needed)%nat then
    match fuel with
    | O => NoFuel
    | S fuel => grow_len fuel (nlen * 2) buf_needed
    end
  else Ret nlen.

(** Eight doublings are enough: the message and the attribute it grows by are
    at least 20 and at most 255 bytes ([Radius_msg_add_attr_rep]). *)
Definition grow_fuel : nat := 8.

(** The message, and the offset of the new attribute unless NULL. *)
Definition Radius_msg_add_attr (msg : radius_msg) (type : Z) (data : bytes) :
    outcome (radius_msg * option nat) :=
  let data_len := length data in
  if decide (RADIUS_MAX_ATTR_LEN < data_len)%nat then Ret (msg, None)
  else
    let buf_needed := (buf_used msg + sizeof_radius_attr_hdr + data_len)%nat in
    let* room :=
      if decide (buf_size msg < buf_needed)%nat then
        let* nlen := grow_len grow_fuel (buf_size msg) buf_needed in
        if malloc_ok (Z.of_nat nlen)
        then Ret (Some (msg ⦃ buf := buf msg ++ replicate (nlen - buf_size msg) 0 ⦄))
        else Ret None
      else Ret (Some msg) in
    match room with
    | None => Ret (msg, None)
    | Some msg =>
        let attr := buf_used msg in
        let* msg := msg_write msg attr [u8 type; u8 (2 + Z.of_nat data_len)] in
        let* msg := msg_write msg (attr + 2) data in
        let msg := msg ⦃ buf_used := (buf_used msg + sizeof_radius_attr_hdr + data_len)%nat ⦄ in
        match Radius_msg_add_attr_to_array msg attr with
        | None => Ret (msg, None)
        | Some msg => Ret (msg, Some attr)
        end
    end.

Definition Radius_msg_add_attr_int32 (msg : radius_msg) (type value : Z) :
    outcome (radius_msg * bool) :=
  let* (msg, attr) := Radius_msg_add_attr msg type (be32 value) in
  Ret (msg, bool_decide (attr ≠ None)).

(** [msg->hdr->length = htons(msg->buf_used)] *)
Definition set_hdr_length (msg : radius_msg) : outcome radius_msg :=
  msg_write msg 2 (be16 (Z.of_nat (buf_used msg))).

(** With a secret, the Message-Authenticator is computed over the whole
    message with zeros in its place.  When the attribute cannot be added the
    code writes the digest through [NULL + 1]. *)
Definition Radius_msg_finish (msg : radius_msg) (secret : option bytes) : outcome radius_msg :=
  match secret with
  | Some secret =>
      let auth := replicate MD5_MAC_LEN 0 in
      let* (msg, attr) := Radius_msg_add_attr msg RADIUS_ATTR_MESSAGE_AUTHENTICATOR auth in
      let* msg := set_hdr_length msg in
      match attr with
      | None => Oob
      | Some attr =>
          let* covered := load (buf msg) 0 (buf_used msg) in
          msg_write msg (attr + 2) (hmac_md5 secret covered)
      end
  | None => set_hdr_length msg
  end.

(** The loop over the EAP message; [true] is the return value 1. *)
Fixpoint add_eap_loop (fuel : nat) (msg : radius_msg) (data : bytes) :
    outcome (radius_msg * bool) :=
  match data with
  | [] => Ret (msg, true)
  | _ =>
      match fuel with
      | O => NoFuel
      | S fuel =>
          let len := if decide (RADIUS_MAX_ATTR_LEN < length data)%nat
                     then RADIUS_MAX_ATTR_LEN else length data in
          let* (msg, attr) := Radius_msg_add_attr msg RADIUS_ATTR_EAP_MESSAGE (take len data) in
          match attr with
          | None => Ret (msg, false)
          | Some _ => add_eap_loop fuel msg (drop len data)
          end
      end
  end.

Definition Radius_msg_add_eap (msg : radius_msg) (data : bytes) : outcome (radius_msg * bool) :=
  add_eap_loop (length data) msg data.

Definition Radius_msg_copy_attr (dst src : radius_msg) (type : Z) : outcome (radius_msg * Z) :=
  let* found := find_attr src type (attrs src) in
  match found with
  | None => Ret (dst, 0)
  | Some a =>
      let* len := attr_length src a in
      let* data := attr_data src a (Z.to_nat (len - 2)) in
      let* (dst, attr) := Radius_msg_add_attr dst type data in
      Ret (dst, if bool_decide (attr = None) then -1 else 1)
  end.

(** [tv] and [l] are the bytes of the [struct timeval] of [gettimeofday] and
    of the result of [random]. *)
Definition Radius_msg_make_authenticator (msg : radius_msg) (data tv l : bytes) :
    outcome radius_msg :=
  msg_write msg 4 (md5_run stack_input [tv; data; l]).

(** The loop that chains the blocks: [buf[pos .. pos+15] ^= MD5(secret, prev)]. *)
Fixpoint hide_blocks (fuel : nat) (secret prev rest : bytes) : bytes :=
  match fuel with
  | O => []
  | S fuel =>
      match rest with
      | [] => []
      | _ =>
          let c := xor_bytes (take 16 rest) (md5_run stack_input [secret; prev]) in
          c ++ hide_blocks fuel secret c (drop 16 rest)
      end
  end.

(** For an empty password the first block is computed on uninitialised stack
    bytes and then left out ([buf_len] is 0). *)
Definition Radius_msg_add_attr_user_password (msg : radius_msg) (data secret : bytes) :
    outcome (radius_msg * option nat) :=
  let data_len := length data in
  if decide (128 < data_len)%nat then Ret (msg, None)
  else
    let padlen := (data_len mod 16)%nat in
    let pwd := if decide (padlen ≠ 0)%nat then data ++ replicate (16 - padlen) 0 else data in
    Radius_msg_add_attr msg RADIUS_ATTR_USER_PASSWORD
      (hide_blocks 8 secret (hdr_authenticator msg) pwd).

(** * Reading messages *)

(** The attribute loop of [Radius_msg_parse] from [pos] on; [None] is [goto fail]. *)
Fixpoint parse_attrs (fuel : nat) (msg : radius_msg) (pos : nat) : outcome (option radius_msg) :=
  let end_ := buf_used msg in
  if decide (pos < end_)%nat then
    match fuel with
    | O => NoFuel
    | S fuel =>
        if decide (end_ - pos < sizeof_radius_attr_hdr)%nat then Ret None
        else
          let* len := attr_length msg pos in
          if decide (Z.of_nat end_ < Z.of_nat pos + len ∨ len < 2) then Ret None
          else
            match Radius_msg_add_attr_to_array msg pos with
            | None => Ret None
            | Some msg => parse_attrs fuel msg (pos + Z.to_nat len)
            end
    end
  else Ret (Some msg).

Definition Radius_msg_parse (data : bytes) : outcome (option radius_msg) :=
  if decide (length data < sizeof_radius_hdr)%nat then Ret None
  else
    let* lenb := load data 2 2 in
    let msg_len := Z.to_nat (of_be lenb) in
    if decide (msg_len < sizeof_radius_hdr ∨ length data < msg_len)%nat then Ret None
    else if negb (malloc_ok 28) then Ret None
    else
      match Radius_msg_initialize msg_len with
      | None => Ret None
      | Some msg =>
          let* src := load data 0 msg_len in
          let* msg := msg_write msg 0 src in
          let msg := msg ⦃ buf_used := msg_len ⦄ in
          parse_attrs msg_len msg sizeof_radius_hdr
      end.

(** The two loops of [Radius_msg_get_eap]: the total length, then the bytes. *)
Fixpoint eap_len_loop (msg : radius_msg) (as_ : list nat) : outcome Z :=
  match as_ with
  | [] => Ret 0
  | a :: rest =>
      let* t := attr_type msg a in
      let* len := (if t =? RADIUS_ATTR_EAP_MESSAGE
                   then let* l := attr_length msg a in Ret (l - 2) else Ret 0) in
      let* more := eap_len_loop msg rest in
      Ret (u32 (len + more))
  end.

Fixpoint eap_copy_loop (msg : radius_msg) (as_ : list nat) : outcome bytes :=
  match as_ with
  | [] => Ret []
  | a :: rest =>
      let* t := attr_type msg a in
      let* part := (if t =? RADIUS_ATTR_EAP_MESSAGE
                    then let* l := attr_length msg a in attr_data msg a (Z.to_nat (l - 2))
                    else Ret []) in
      let* more := eap_copy_loop msg rest in
      Ret (part ++ more)
  end.

Definition Radius_msg_get_eap (msg : radius_msg) : outcome (option bytes) :=
  let* len := eap_len_loop msg (attrs msg) in
  if len =? 0 then Ret None
  else if negb (malloc_ok len) then Ret None
  else let* eap := eap_copy_loop msg (attrs msg) in Ret (Some eap).

(** All the attributes of one type: the scan of [Radius_msg_verify] keeps the
    first and fails on a second. *)
Fixpoint find_attrs (msg : radius_msg) (type : Z) (as_ : list nat) : outcome (list nat) :=
  match as_ with
  | [] => Ret []
  | a :: rest =>
      let* t := attr_type msg a in
      let* more := find_attrs msg type rest in
      Ret (if t =? type then a :: more else more)
  end.

Definition response_hash (msg : radius_msg) (secret : bytes) (sent_auth : bytes) : outcome bytes :=
  let* head := load (buf msg) 0 4 in
  let* tail := load (buf msg) 20 (buf_used msg - 20) in
  Ret (md5_run stack_input [head; sent_auth; tail; secret]).

(** The message as it is left and the return value, 0 for a valid message.
    [memcpy(orig, attr + 1, 16)] reads 16 bytes whatever the attribute's length. *)
Definition Radius_msg_verify (msg : radius_msg) (secret : bytes) (sent_msg : option radius_msg) :
    outcome (radius_msg * Z) :=
  match sent_msg with
  | None => Ret (msg, 1)
  | Some sent =>
      let* found := find_attrs msg RADIUS_ATTR_MESSAGE_AUTHENTICATOR (attrs msg) in
      match found with
      | [attr] =>
          let* orig := attr_data msg attr MD5_MAC_LEN in
          let* msg := msg_write msg (attr + 2) (replicate MD5_MAC_LEN 0) in
          let* orig_authenticator := load (buf msg) 4 16 in
          let* msg := msg_write msg 4 (hdr_authenticator sent) in
          let* covered := load (buf msg) 0 (buf_used msg) in
          let auth := hmac_md5 secret covered in
          let* msg := msg_write msg (attr + 2) orig in
          let* msg := msg_write msg 4 orig_authenticator in
          if bool_decide (orig ≠ auth) then Ret (msg, 1)
          else
            let* hash := response_hash msg secret (hdr_authenticator sent) in
            Ret (msg, if bool_decide (hash ≠ hdr_authenticator msg) then 1 else 0)
      | _ => Ret (msg, 1)
      end
  end.

Definition Radius_msg_verify_acct (msg : radius_msg) (secret : bytes) (sent : radius_msg) :
    outcome Z :=
  let* head := load (buf msg) 0 4 in
  let* tail := (if decide (sizeof_radius_hdr < buf_used msg)%nat
                then load (buf msg) sizeof_radius_hdr (buf_used msg - sizeof_radius_hdr)
                else Ret []) in
  let hash := md5_run stack_input [head; hdr_authenticator sent; tail; secret] in
  Ret (if bool_decide (hash ≠ hdr_authenticator msg) then 1 else 0).

(** The return value, and what is copied to [buf]. *)
Definition Radius_msg_get_attr (msg : radius_msg) (type : Z) (len : nat) :
    outcome (Z * bytes) :=
  let* found := find_attr msg type (attrs msg) in
  match found with
  | None => Ret (-1, [])
  | Some a =>
      let* l := attr_length msg a in
      let dlen := Z.to_nat (l - 2) in
      let* data := attr_data msg a (if decide (len < dlen)%nat then len else dlen) in
      Ret (Z.of_nat dlen, data)
  end.

(** [None] is the return value -1. *)
Definition Radius_msg_get_attr_int32 (msg : radius_msg) (type : Z) : outcome (option Z) :=
  let* (res, val) := Radius_msg_get_attr msg type 4 in
  Ret (if res =? 4 then Some (of_be val) else None).

(** * Microsoft vendor attributes *)

(** The [while (left >= sizeof( *ms))] loop over the sub-attributes of one
    attribute, at [pos] with [left] bytes to go.  [inl] is a [return] of the
    function, [inr] the end of the loop. *)
Fixpoint ms_scan (fuel : nat) (msg : radius_msg) (ms_type : Z) (pos : nat) (left_ : Z) :
    outcome (option bytes + unit) :=
  if 2 <=? left_ then
    match fuel with
    | O => NoFuel
    | S fuel =>
        let* vendor_type := byte_at (buf msg) pos in
        let* vendor_length := byte_at (buf msg) (pos + 1) in
        if left_ <? vendor_length then ms_scan fuel msg ms_type pos 0
        else if negb (vendor_type =? ms_type) then
          ms_scan fuel msg ms_type (pos + Z.to_nat vendor_length) (left_ - vendor_length)
        else
          let len := u32 (vendor_length - 2) in
          if negb (malloc_ok len) then Ret (inl None)
          else let* data := load (buf msg) (pos + 2) (Z.to_nat len) in Ret (inl (Some data))
    end
  else Ret (inr tt).

(** Sub-attributes of length 1 or more leave at most 249 iterations, and one of
    length 0 that is skipped is never left ([ms_scan_zero_length]). *)
Definition ms_scan_fuel : nat := 256.

Fixpoint get_ms_attr_loop (msg : radius_msg) (ms_type : Z) (as_ : list nat) :
    outcome (option bytes) :=
  match as_ with
  | [] => Ret None
  | attr :: rest =>
      let* t := attr_type msg attr in
      if negb (t =? RADIUS_ATTR_VENDOR_SPECIFIC) then get_ms_attr_loop msg ms_type rest
      else
        let* l := attr_length msg attr in
        let left_ := l - 2 in
        if left_ <? 4 then get_ms_attr_loop msg ms_type rest
        else
          let* vendor_id := attr_data msg attr 4 in
          if negb (of_be vendor_id =? RADIUS_VENDOR_ID_MICROSOFT)
          then get_ms_attr_loop msg ms_type rest
          else
            let* r := ms_scan ms_scan_fuel msg ms_type (attr + 6) (left_ - 4) in
            match r with
            | inl res => Ret res
            | inr _ => get_ms_attr_loop msg ms_type rest
            end
  end.

Definition Radius_msg_get_ms_attr (msg : radius_msg) (ms_type : Z) : outcome (option bytes) :=
  get_ms_attr_loop msg ms_type (attrs msg).

(** The decryption loop: [b(i) = MD5(Secret + c(i-1))], [p(i) = c(i) ^ b(i)]. *)
Fixpoint unhide_blocks (fuel : nat) (secret prev rest : bytes) : bytes :=
  match fuel with
  | O => []
  | S fuel =>
      match rest with
      | [] => []
      | _ =>
          let c := take 16 rest in
          xor_bytes c (md5_run stack_input (secret :: [prev]))
            ++ unhide_blocks fuel secret c (drop 16 rest)
      end
  end.

(** The first block's hash covers the request authenticator and the salt. *)
Definition decrypt_ms_key (key : bytes) (sent_msg : radius_msg) (secret : bytes) :
    outcome (option bytes) :=
  let len := length key in
  if decide (len < 2 + 16)%nat then Ret None
  else
    let left_ := (len - 2)%nat in
    if decide (left_ mod 16 ≠ 0)%nat then Ret None
    else if negb (malloc_ok (Z.of_nat left_)) then Ret None
    else
      let plen := left_ in
      let pos := drop 2 key in
      let first := xor_bytes (take 16 pos)
        (md5_run stack_input [secret; hdr_authenticator sent_msg; take 2 key]) in
      let plain := first ++ unhide_blocks (plen / 16) secret (take 16 pos) (drop 16 pos) in
      if decide (Z.of_nat plen - 1 < idx plain 0) then Ret None
      else if negb (malloc_ok (idx plain 0)) then Ret None
      else let* res := load plain 1 (Z.to_nat (idx plain 0)) in Ret (Some res).

(** [None] is NULL. *)
Definition Radius_msg_get_ms_keys (msg : option radius_msg) (sent_msg : option radius_msg)
    (secret : bytes) : outcome (option radius_ms_mppe_keys) :=
  match msg, sent_msg with
  | Some msg, Some sent =>
      if negb (malloc_ok 16) then Ret None
      else
        let get type :=
          let* key := Radius_msg_get_ms_attr msg type in
          match key with
          | Some key => decrypt_ms_key key sent secret
          | None => Ret None
          end in
        let* send := get RADIUS_VENDOR_ATTR_MS_MPPE_SEND_KEY in
        let* recv := get RADIUS_VENDOR_ATTR_MS_MPPE_RECV_KEY in
        Ret (Some (mk_mppe send recv))
  | _, _ => Ret None
  end.

End Messages.
