(* ===== verification/RadiusRep.v ===== *)
(** The abstract view of a RADIUS message, a header and a list of attributes,
    and the proof that the operations of [Radius] implement it: messages are
    built, parsed and searched as lists of attributes, inside their buffers. *)

From S2P Require Import Prelude Md5 Radius.

(** * Attribute lists and their encoding *)

Abbreviation radius_attr := (Z * bytes)%type.

Definition enc_attr (a : radius_attr) : bytes := a.1 :: (2 + Z.of_nat (length a.2)) :: a.2.
Definition enc (avs : list radius_attr) : bytes := concat (map enc_attr avs).

Definition attr_ok (a : radius_attr) : Prop :=
  byte_ok a.1 ∧ (length a.2 ≤ RADIUS_MAX_ATTR_LEN)%nat ∧ bytes_ok a.2.

(** Where the attributes start, the first one at [pos]. *)
Fixpoint offsets (pos : nat) (avs : list radius_attr) : list nat :=
  match avs with
  | [] => []
  | a :: rest => pos :: offsets (pos + length (enc_attr a)) rest
  end.

(** The bytes of the message that count. *)
Definition wire (m : radius_msg) : bytes := take (buf_used m) (buf m).

(** [m] represents the header [hdr] followed by the attributes [avs]. *)
Record msg_rep (m : radius_msg) (hdr : bytes) (avs : list radius_attr) : Prop := {
  rep_hdr : length hdr = sizeof_radius_hdr;
  rep_wire : wire m = hdr ++ enc avs;
  rep_fits : (buf_used m ≤ buf_size m)%nat;
  rep_attrs : attrs m = offsets sizeof_radius_hdr avs;
  rep_ok : Forall attr_ok avs;
  rep_array : (1 ≤ attr_size m)%nat
}.

(** The value of the first attribute of a type; the EAP message carried. *)
Definition first_attr (type : Z) (avs : list radius_attr) : option bytes :=
  snd <$> List.find (λ a, a.1 =? type) avs.

Definition eap_payload (avs : list radius_attr) : bytes :=
  concat (map (λ a, if a.1 =? RADIUS_ATTR_EAP_MESSAGE then a.2 else []) avs).

(** * Encoding *)

Lemma enc_attr_length a : length (enc_attr a) = (2 + length a.2)%nat.
Proof. done. Qed.

Lemma enc_app l k : enc (l ++ k) = enc l ++ enc k.
Proof. unfold enc. by rewrite map_app, concat_app. Qed.

Lemma enc_cons a k : enc (a :: k) = enc_attr a ++ enc k.
Proof. done. Qed.

Lemma offsets_app pos l k :
  offsets pos (l ++ k) = offsets pos l ++ offsets (pos + length (enc l)) k.
Proof.
  revert pos. induction l as [|a l IH]; intros pos; cbn [offsets app].
  - by rewrite Nat.add_0_r.
  - rewrite IH, enc_cons, length_app. do 3 f_equal. lia.
Qed.

Lemma offsets_length pos avs : length (offsets pos avs) = length avs.
Proof. revert pos. induction avs; intros; cbn; auto. Qed.

Lemma enc_bytes_ok avs : Forall attr_ok avs → bytes_ok (enc avs).
Proof.
  induction 1 as [|[t v] avs (Ht & Hl & Hv) _ IH]; [constructor|].
  rewrite enc_cons, bytes_ok_app. split; [|done].
  unfold RADIUS_MAX_ATTR_LEN, enc_attr in *. cbn [fst snd] in *.
  constructor; [done|]. constructor; [unfold byte_ok; lia|done].
Qed.

(** * Access at a known position *)

Lemma wire_length m : (buf_used m ≤ buf_size m)%nat → length (wire m) = buf_used m.
Proof. intros. unfold wire, buf_size in *. rewrite length_take. lia. Qed.

Lemma load_wire m pre mid post :
  wire m = pre ++ mid ++ post → (buf_used m ≤ buf_size m)%nat →
  load (buf m) (length pre) (length mid) = Ret mid.
Proof.
  intros Hw Hf. pose proof (wire_length m Hf) as Hl. rewrite Hw, !length_app in Hl.
  unfold load, buf_size in *. rewrite decide_True by lia. f_equal.
  rewrite <-(take_drop (buf_used m) (buf m)). fold (wire m).
  rewrite Hw, <-!app_assoc, drop_app_length, take_app_length. done.
Qed.

Lemma byte_at_wire m pre x post :
  wire m = pre ++ x :: post → (buf_used m ≤ buf_size m)%nat →
  byte_at (buf m) (length pre) = Ret x.
Proof. intros Hw Hf. unfold byte_at. pose proof (load_wire m pre [x] post Hw Hf) as Hl. cbn [length] in Hl. by rewrite Hl. Qed.

Lemma attr_at m pre t v post :
  wire m = pre ++ enc_attr (t, v) ++ post → (buf_used m ≤ buf_size m)%nat →
  attr_type m (length pre) = Ret t
  ∧ attr_length m (length pre) = Ret (2 + Z.of_nat (length v))
  ∧ ∀ n, (n ≤ length v)%nat → attr_data m (length pre) n = Ret (take n v).
Proof.
  intros Hw Hf. unfold attr_type, attr_length, attr_data. split_and!.
  - by apply (byte_at_wire m pre t ((2 + Z.of_nat (length v)) :: v ++ post)).
  - replace (length pre + 1)%nat with (length (pre ++ [t])) by (rewrite length_app; done).
    apply (byte_at_wire m _ _ (v ++ post)); [|done]. rewrite Hw, <-app_assoc. done.
  - intros n Hn.
    replace (length pre + 2)%nat with (length (pre ++ [t; 2 + Z.of_nat (length v)]))
      by (rewrite length_app; done).
    replace n with (length (take n v)) at 1 by (rewrite length_take; lia).
    eapply (load_wire _ _ _ (drop n v ++ post)); [|done].
    rewrite Hw, (app_assoc (take n v)), take_drop, <-app_assoc. done.
Qed.

(** * Searching *)

Lemma first_attr_cons type t v avs :
  first_attr type ((t, v) :: avs) = if t =? type then Some v else first_attr type avs.
Proof. unfold first_attr. cbn. by destruct (t =? type). Qed.

Lemma find_attr_spec m type pre avs :
  wire m = pre ++ enc avs → (buf_used m ≤ buf_size m)%nat →
  (find_attr m type (offsets (length pre) avs) = Ret None ∧ first_attr type avs = None)
  ∨ ∃ l v r, avs = l ++ (type, v) :: r ∧ first_attr type avs = Some v
             ∧ find_attr m type (offsets (length pre) avs) = Ret (Some (length (pre ++ enc l))).
Proof.
  revert pre. induction avs as [|[t v] avs IH]; intros pre Hw Hf; [by left|].
  destruct (attr_at m pre t v (enc avs)) as (Ht & _); [done..|].
  cbn [find_attr offsets]. rewrite Ht. cbn [mbind outcome_bind].
  rewrite first_attr_cons. destruct (t =? type) eqn:E.
  - right. exists [], v, avs. rewrite app_nil_r. split_and!; [|done..]. cbn. do 2 f_equal. lia.
  - rewrite <-length_app. rewrite enc_cons, app_assoc in Hw.
    destruct (IH _ Hw Hf) as [[? ?]|(l & v' & r & -> & ? & ?)]; [by left|right].
    exists ((t, v) :: l), v', r. split_and!; [done..|]. by rewrite enc_cons, app_assoc.
Qed.

Lemma find_attrs_spec m type pre avs :
  wire m = pre ++ enc avs → (buf_used m ≤ buf_size m)%nat →
  ∃ found, find_attrs m type (offsets (length pre) avs) = Ret found
           ∧ length found = length (filter (λ a, a.1 = type) avs)
           ∧ ∀ l v r, avs = l ++ (type, v) :: r → filter (λ a, a.1 = type) l = [] →
                      head found = Some (length (pre ++ enc l)).
Proof.
  revert pre. induction avs as [|[t v] avs IH]; intros pre Hw Hf.
  { exists []. split_and!; [done..|]. by intros [] ? ?. }
  destruct (attr_at m pre t v (enc avs)) as (Ht & _); [done..|].
  rewrite enc_cons, app_assoc in Hw. destruct (IH _ Hw Hf) as (found & Hfd & Hlen & Hhd).
  rewrite length_app in Hfd. cbn [find_attrs offsets]. rewrite Ht. cbn [mbind outcome_bind].
  rewrite Hfd. cbn [mbind outcome_bind]. eexists. split; [done|]. rewrite filter_cons. cbn.
  destruct (t =? type) eqn:E.
  - rewrite decide_True by lia. cbn. split; [lia|]. intros [|a l] v' r Heq Hl.
    + by rewrite app_nil_r.
    + rewrite filter_cons in Hl. simplify_eq/=. rewrite decide_True in Hl by lia. done.
  - rewrite decide_False by lia. split; [done|]. intros [|a l] v' r Heq Hl; simplify_eq/=; [lia|].
    rewrite filter_cons, decide_False in Hl by (cbn; lia).
    by rewrite (Hhd l v' r), enc_cons, app_assoc.
Qed.

Lemma eap_loops_spec m pre avs :
  wire m = pre ++ enc avs → (buf_used m ≤ buf_size m)%nat →
  eap_len_loop m (offsets (length pre) avs) = Ret (u32 (Z.of_nat (length (eap_payload avs))))
  ∧ eap_copy_loop m (offsets (length pre) avs) = Ret (eap_payload avs).
Proof.
  revert pre. induction avs as [|[t v] avs IH]; intros pre Hw Hf; [done|].
  destruct (attr_at m pre t v (enc avs)) as (Ht & Hl & Hd); [done..|].
  rewrite enc_cons, app_assoc in Hw. destruct (IH _ Hw Hf) as [IH1 IH2].
  rewrite length_app in IH1, IH2.
  cbn [eap_len_loop eap_copy_loop offsets]. rewrite Ht, IH1, IH2. cbn [mbind outcome_bind].
  unfold eap_payload; cbn [map concat fst snd]. fold (eap_payload avs).
  destruct (t =? _) eqn:E; cbn [mbind outcome_bind].
  - rewrite Hl. cbn [mbind outcome_bind].
    replace (Z.to_nat (2 + Z.of_nat (length v) - 2)) with (length v) by lia.
    rewrite Hd, take_ge by lia. cbn [mbind outcome_bind]. split; [|done]. f_equal.
    rewrite length_app. unfold u32. zlia.
  - split; [|done]. f_equal. cbn. unfold u32. zlia.
Qed.

(** * Building *)

Section Building.
Context `{Malloc}.

Lemma grow_len_spec fuel nlen need :
  (1 ≤ nlen)%nat → (need ≤ nlen * 2 ^ fuel)%nat →
  ∃ n, grow_len fuel nlen need = Ret n ∧ (need ≤ n)%nat ∧ (nlen ≤ n)%nat.
Proof.
  revert nlen. induction fuel as [|fuel IH]; intros nlen Hn Hneed; cbn [grow_len].
  - rewrite decide_False by (cbn in *; lia). exists nlen. cbn in *. split_and!; [done|lia..].
  - case_decide; [|exists nlen; split_and!; [done|lia..]].
    destruct (IH (nlen * 2)%nat) as (n & ? & ? & ?); [lia|cbn in Hneed; lia|].
    exists n. split_and!; [done|lia..].
Qed.

Lemma msg_write_Ret m off d :
  (off + length d ≤ buf_size m)%nat → msg_write m off d = Ret (m ⦃ buf := splice (buf m) off d ⦄).
Proof.
  intros. unfold msg_write, store, buf_size in *. by rewrite decide_True by lia.
Qed.

Lemma add_to_array_ok m a :
  malloc_never_fails →
  ∃ n, Radius_msg_add_attr_to_array m a = Some (m ⦃ attr_size := n ⦄ ⦃ attrs := attrs m ++ [a] ⦄)
       ∧ (attr_size m ≤ n)%nat.
Proof.
  intros HM. unfold Radius_msg_add_attr_to_array. rewrite HM. case_decide.
  - eexists. split; [done|lia].
  - exists (attr_size m). by destruct m.
Qed.

Lemma rep_used m hdr avs :
  msg_rep m hdr avs → buf_used m = (sizeof_radius_hdr + length (enc avs))%nat.
Proof.
  intros []. rewrite <-(wire_length m) by done. rewrite rep_wire0, length_app. lia.
Qed.

(** Appending a chunk right after the bytes in use. *)
Lemma take_splice_at (b : bytes) used d :
  (used + length d ≤ length b)%nat → take (used + length d) (splice b used d) = take used b ++ d.
Proof.
  intros Hl. unfold splice. rewrite app_assoc, take_app_length'; [done|].
  rewrite length_app, length_take. lia.
Qed.

(** Padding the buffer changes nothing. *)
Lemma rep_grow m hdr avs k :
  msg_rep m hdr avs → msg_rep (m ⦃ buf := buf m ++ replicate k 0 ⦄) hdr avs.
Proof.
  intros []. unfold wire, buf_size in *. constructor; try done; unfold wire, buf_size; cbn.
  - by rewrite take_app_le.
  - rewrite length_app. lia.
Qed.

(** The two writes of an attribute into a buffer with room for it. *)
Lemma write_attr_rep m hdr avs t d :
  malloc_never_fails → msg_rep m hdr avs → attr_ok (t, d) →
  (buf_used m + 2 + length d ≤ buf_size m)%nat →
  let m1 := m ⦃ buf := splice (splice (buf m) (buf_used m) [u8 t; u8 (2 + Z.of_nat (length d))])
                         (buf_used m + 2) d ⦄ ⦃ buf_used := (buf_used m + 2 + length d)%nat ⦄ in
  ∃ m', Radius_msg_add_attr_to_array m1 (buf_used m) = Some m' ∧ msg_rep m' hdr (avs ++ [(t, d)]).
Proof.
  intros HM Hrep Hok Hfit. pose proof Hok as (Ht & Hd & Hv). cbn [fst snd] in *.
  rewrite !u8_id by (unfold byte_ok, RADIUS_MAX_ATTR_LEN in *; lia).
  match goal with |- context [Radius_msg_add_attr_to_array ?x _] => set (m1 := x) end.
  destruct (add_to_array_ok m1 (buf_used m) HM) as (n & -> & Hn).
  eexists. split; [done|]. pose proof (rep_used _ _ _ Hrep) as Hused. destruct Hrep.
  unfold buf_size, RADIUS_MAX_ATTR_LEN in *.
  set (h := [t; 2 + Z.of_nat (length d)]) in *.
  constructor; try done.
  - unfold wire. cbn. change (buf_used m + 2)%nat with (buf_used m + length h)%nat.
    rewrite take_splice_at by (rewrite splice_length; cbn; lia).
    rewrite take_splice_at by (cbn; lia). fold (wire m). rewrite rep_wire0, enc_app.
    cbn [enc map concat]. by rewrite app_nil_r, <-!app_assoc.
  - unfold buf_size. cbn. rewrite !splice_length; cbn; [lia|lia|]. rewrite splice_length; cbn; lia.
  - cbn. rewrite rep_attrs0, offsets_app, Hused. done.
  - apply Forall_app. split; [done|]. by constructor.
  - cbn in *. lia.
Qed.

Lemma Radius_msg_add_attr_rep m hdr avs t d :
  malloc_never_fails → msg_rep m hdr avs → attr_ok (t, d) →
  ∃ m', Radius_msg_add_attr m t d = Ret (m', Some (buf_used m))
        ∧ msg_rep m' hdr (avs ++ [(t, d)]).
Proof.
  intros HM Hrep Hok. pose proof (rep_used _ _ _ Hrep) as Hused. pose proof (rep_fits _ _ _ Hrep).
  pose proof Hok as (_ & Hd & _). cbn [fst snd] in *.
  unfold Radius_msg_add_attr. rewrite decide_False by lia.
  set (need := (_ + _ + _)%nat).
  assert (∃ k, (need ≤ buf_size m + k)%nat ∧ (if decide (buf_size m < need)%nat then
        let* nlen := grow_len grow_fuel (buf_size m) need in
        if malloc_ok (Z.of_nat nlen)
        then Ret (Some (m ⦃ buf := buf m ++ replicate (nlen - buf_size m) 0 ⦄))
        else Ret None
      else Ret (Some m)) = Ret (Some (m ⦃ buf := buf m ++ replicate k 0 ⦄)))
    as (k & Hk & ->).
  { unfold sizeof_radius_hdr in *. case_decide; [|exists 0%nat; rewrite app_nil_r; split; [lia|by destruct m]].
    destruct (grow_len_spec grow_fuel (buf_size m) need) as (n & -> & ? & ?).
    - lia.
    - unfold need, grow_fuel, RADIUS_MAX_ATTR_LEN, sizeof_radius_attr_hdr in *.
      cbn [Nat.pow Nat.mul]. lia.
    - cbn [mbind outcome_bind]. rewrite HM. exists (n - buf_size m)%nat. split; [lia|done]. }
  cbn [mbind outcome_bind]. apply (rep_grow _ _ _ k) in Hrep.
  set (m1 := m ⦃ buf := _ ⦄) in *. change (buf_used m) with (buf_used m1) in *.
  assert (buf_size m1 = buf_size m + k)%nat as Hsize
    by (unfold buf_size; cbn; rewrite length_app, length_replicate; done).
  unfold need, sizeof_radius_attr_hdr in *. clearbody m1.
  rewrite msg_write_Ret by (cbn [length]; lia). cbn [mbind outcome_bind].
  rewrite msg_write_Ret by (unfold buf_size in *; cbn [set buf]; rewrite splice_length; cbn [length]; lia).
  cbn [mbind outcome_bind].
  destruct (write_attr_rep m1 hdr avs t d HM Hrep Hok) as (m' & Hm' & ?); [lia|].
  cbn in Hm' |- *. rewrite Hm'. eauto.
Qed.

(** Writing inside the header. *)
Lemma write_hdr_rep m hdr avs off d :
  msg_rep m hdr avs → (off + length d ≤ sizeof_radius_hdr)%nat →
  msg_write m off d = Ret (m ⦃ buf := splice (buf m) off d ⦄)
  ∧ msg_rep (m ⦃ buf := splice (buf m) off d ⦄) (splice hdr off d) avs.
Proof.
  intros Hrep Hd. pose proof (rep_used _ _ _ Hrep) as Hused. destruct Hrep.
  unfold buf_size in *. split; [apply msg_write_Ret; unfold buf_size; lia|].
  constructor; unfold buf_size; cbn; try done; try (rewrite splice_length; lia).
  unfold wire in *; cbn. unfold splice in *.
  assert (take off (buf m) = take off hdr) as ->.
  { transitivity (take off (take (buf_used m) (buf m))); [rewrite take_take; f_equal; lia|].
    rewrite rep_wire0, take_app_le by lia. done. }
  rewrite (app_assoc (take off hdr)), take_app_ge, <-!app_assoc by (rewrite length_app, length_take; lia).
  do 2 f_equal. rewrite length_app, length_take, Nat.min_l by lia.
  rewrite take_drop_commute. replace (off + length d + (buf_used m - (off + length d)))%nat
    with (buf_used m) by lia.
  rewrite rep_wire0, drop_app_le by lia. done.
Qed.

Lemma Radius_msg_new_rep code id :
  malloc_never_fails →
  ∃ m, Radius_msg_new code id = Ret (Some m)
       ∧ msg_rep m ([u8 code; u8 id] ++ replicate 18 0) [].
Proof.
  intros HM. unfold Radius_msg_new, Radius_msg_initialize. rewrite !HM. cbn [negb].
  rewrite decide_False by (cbv; lia).
  set (m0 := mk_msg _ _ _ _).
  assert (msg_rep m0 (replicate 20 0) []) as Hrep.
  { constructor; try done; cbv; lia. }
  destruct (write_hdr_rep m0 _ [] 0 [u8 code; u8 id] Hrep) as [Hw Hr]; [cbv; lia|].
  unfold Radius_msg_set_hdr. rewrite Hw. cbn [mbind outcome_bind]. eauto.
Qed.

Lemma set_hdr_length_rep m hdr avs :
  msg_rep m hdr avs →
  ∃ m', set_hdr_length m = Ret m'
        ∧ msg_rep m' (take 2 hdr ++ be16 (Z.of_nat (sizeof_radius_hdr + length (enc avs))) ++ drop 4 hdr) avs
        ∧ buf_used m' = buf_used m.
Proof.
  intros Hrep. unfold set_hdr_length.
  destruct (write_hdr_rep m hdr avs 2 (be16 (Z.of_nat (buf_used m))) Hrep) as [-> Hr]; [cbv; lia|].
  eexists. split; [done|]. split; [|done]. by rewrite <-(rep_used _ _ _ Hrep).
Qed.

(** The EAP message is split over attributes of 253 bytes. *)
Fixpoint eap_chunks (fuel : nat) (data : bytes) : list radius_attr :=
  match fuel, data with
  | S fuel, _ :: _ =>
      (RADIUS_ATTR_EAP_MESSAGE, take RADIUS_MAX_ATTR_LEN data)
        :: eap_chunks fuel (drop RADIUS_MAX_ATTR_LEN data)
  | _, _ => []
  end.

Lemma add_eap_loop_rep fuel m hdr avs data :
  malloc_never_fails → msg_rep m hdr avs → bytes_ok data → (length data ≤ fuel)%nat →
  ∃ m', add_eap_loop fuel m data = Ret (m', true)
        ∧ msg_rep m' hdr (avs ++ eap_chunks fuel data).
Proof.
  intros HM. revert m avs data. induction fuel as [|fuel IH]; intros m avs data Hrep Hb Hl.
  { destruct data; [|cbn in Hl; lia]. exists m. rewrite app_nil_r. done. }
  destruct data as [|b data]; [exists m; rewrite app_nil_r; done|].
  cbn [add_eap_loop eap_chunks]. set (dat := b :: data) in *.
  set (len := if decide _ then _ else _).
  assert (take len dat = take RADIUS_MAX_ATTR_LEN dat) as ->
    by (unfold len; case_decide; [done|]; rewrite !take_ge; lia || done).
  assert (drop len dat = drop RADIUS_MAX_ATTR_LEN dat) as ->
    by (unfold len; case_decide; [done|]; rewrite !drop_ge; lia || done).
  destruct (Radius_msg_add_attr_rep m hdr avs RADIUS_ATTR_EAP_MESSAGE (take RADIUS_MAX_ATTR_LEN dat))
    as (m1 & -> & Hrep1); [done..| |].
  { split_and!; cbn [fst snd]; [by unfold byte_ok, RADIUS_ATTR_EAP_MESSAGE| |by apply bytes_ok_take].
    rewrite length_take. lia. }
  cbn [mbind outcome_bind].
  destruct (IH m1 _ (drop RADIUS_MAX_ATTR_LEN dat) Hrep1) as (m' & -> & Hrep').
  - by apply bytes_ok_drop.
  - rewrite length_drop. unfold dat, RADIUS_MAX_ATTR_LEN in *. cbn [length] in *. lia.
  - exists m'. by rewrite <-app_assoc in Hrep'.
Qed.

Lemma eap_payload_app l k : eap_payload (l ++ k) = eap_payload l ++ eap_payload k.
Proof. unfold eap_payload. by rewrite map_app, concat_app. Qed.

Lemma eap_payload_chunks fuel data :
  (length data ≤ fuel)%nat → eap_payload (eap_chunks fuel data) = data.
Proof.
  revert data. induction fuel as [|fuel IH]; intros [|b data] Hl; try done; [cbn in Hl; lia|].
  cbn [eap_chunks]. set (dat := b :: data) in *.
  change (eap_payload (?a :: ?l)) with (a.2 ++ eap_payload l). cbn [snd].
  rewrite IH, take_drop; [done|]. rewrite length_drop.
  unfold dat, RADIUS_MAX_ATTR_LEN in *. cbn [length] in *. lia.
Qed.
End Building.
