(* ===== verification/RadiusFacts.v ===== *)
(** Parsing, verifying and decrypting RADIUS messages: correctness of
    [Radius_msg_parse], [Radius_msg_verify] and of the password and MPPE-key
    encodings of [Radius]. *)

From S2P Require Import Prelude Md5 Md5Props Radius RadiusRep.

Section Parsing.
Context `{Malloc}.

Lemma add_to_array_frame m a m1 :
  Radius_msg_add_attr_to_array m a = Some m1 → (1 ≤ attr_size m)%nat →
  m1 = m ⦃ attr_size := attr_size m1 ⦄ ⦃ attrs := attrs m ++ [a] ⦄ ∧ (1 ≤ attr_size m1)%nat.
Proof.
  unfold Radius_msg_add_attr_to_array. intros Ha Hs.
  repeat case_match; simplify_eq/=; split; done || lia.
Qed.

(** The attribute loop, started behind [pre] with the attributes of [pre]
    already in the array, accepts exactly the encodings of attribute lists. *)
Lemma parse_attrs_sound fuel m pre rest :
  bytes_ok rest → wire m = pre ++ rest → (buf_used m ≤ buf_size m)%nat →
  (length rest ≤ fuel)%nat → (1 ≤ attr_size m)%nat →
  parse_attrs fuel m (length pre) = Ret None ∨
  ∃ m' avs, parse_attrs fuel m (length pre) = Ret (Some m')
            ∧ rest = enc avs ∧ Forall attr_ok avs ∧ buf m' = buf m ∧ buf_used m' = buf_used m
            ∧ attrs m' = attrs m ++ offsets (length pre) avs ∧ (1 ≤ attr_size m')%nat.
Proof.
  revert m pre rest. induction fuel as [|fuel IH]; intros m pre rest Hb Hw Hf Hl Hs;
    pose proof (wire_length m Hf) as Hlen; rewrite Hw, length_app in Hlen; cbn [parse_attrs].
  { destruct rest; [|cbn in Hl; lia]. rewrite decide_False by (cbn in *; lia). right.
    exists m, []. rewrite app_nil_r. done. }
  destruct rest as [|t rest].
  { rewrite decide_False by (cbn in *; lia). right. exists m, []. rewrite app_nil_r. done. }
  rewrite decide_True by (cbn in *; lia).
  destruct rest as [|len rest]; [left; by rewrite decide_True by (cbn in *; unfold sizeof_radius_attr_hdr; lia)|].
  rewrite decide_False by (cbn [length] in *; unfold sizeof_radius_attr_hdr; lia).
  unfold attr_length.
  replace (length pre + 1)%nat with (length (pre ++ [t])) by (rewrite length_app; done).
  rewrite (byte_at_wire m _ len rest) by (rewrite ?Hw, <-?app_assoc; done).
  cbn [mbind outcome_bind]. case_decide as Hbad; [by left|].
  destruct (Radius_msg_add_attr_to_array m (length pre)) as [m1|] eqn:Ha; [|by left].
  destruct (add_to_array_frame _ _ _ Ha Hs) as [Hm1 Hs1].
  apply Forall_cons_1 in Hb as [Ht [Hlb Hb]%Forall_cons_1]. cbn [length] in *.
  set (v := take (Z.to_nat (len - 2)) rest).
  assert (length v = Z.to_nat (len - 2)) as Hv by (unfold v; rewrite length_take; lia).
  assert (enc_attr (t, v) = t :: len :: v) as Henc
    by (unfold enc_attr; cbn [fst snd]; do 2 f_equal; lia).
  assert (wire m1 = (pre ++ enc_attr (t, v)) ++ drop (Z.to_nat (len - 2)) rest) as Hw1.
  { rewrite Hm1. unfold wire in *; cbn. rewrite Hw, Henc, <-app_assoc. cbn.
    unfold v. by rewrite take_drop. }
  replace (length pre + Z.to_nat len)%nat with (length (pre ++ enc_attr (t, v)))
    by (rewrite length_app, enc_attr_length; cbn [snd]; lia).
  destruct (IH m1 _ _ ltac:(by apply bytes_ok_drop) Hw1) as [->|(m' & avs & -> & Hr & Hok & Hbm & Hum & Ham & Hsm)].
  - rewrite Hm1. done.
  - rewrite length_drop. lia.
  - done.
  - by left.
  - right. exists m', ((t, v) :: avs). split_and!; [done|..].
    + rewrite enc_cons, <-Hr, Henc. cbn. unfold v. by rewrite take_drop.
    + constructor; [|done]. split_and!; cbn [fst snd]; [done| |by apply bytes_ok_take].
      unfold byte_ok, RADIUS_MAX_ATTR_LEN in *. lia.
    + rewrite Hbm, Hm1. done.
    + rewrite Hum, Hm1. done.
    + rewrite Ham, Hm1. cbn [attrs set]. rewrite <-app_assoc, length_app. done.
    + done.
Qed.

Lemma parse_attrs_complete fuel m pre avs :
  malloc_never_fails → Forall attr_ok avs → wire m = pre ++ enc avs →
  (buf_used m ≤ buf_size m)%nat → (length (enc avs) ≤ fuel)%nat →
  ∃ m', parse_attrs fuel m (length pre) = Ret (Some m').
Proof.
  intros HM Hok. revert fuel m pre.
  induction Hok as [|[t v] avs (Ht & Hv & Hbv) _ IH]; intros fuel m pre Hw Hf Hl;
    pose proof (wire_length m Hf) as Hlen; rewrite Hw, length_app in Hlen.
  { exists m. destruct fuel; cbn [parse_attrs]; by rewrite decide_False by (cbn in *; lia). }
  rewrite enc_cons, length_app, enc_attr_length in *. cbn [fst snd] in *.
  destruct fuel as [|fuel]; [lia|]. cbn [parse_attrs].
  rewrite decide_True by lia. rewrite decide_False by (unfold sizeof_radius_attr_hdr; lia).
  destruct (attr_at m pre t v (enc avs)) as (_ & -> & _); [done..|].
  cbn [mbind outcome_bind]. rewrite decide_False by lia.
  destruct (add_to_array_ok m (length pre) HM) as (n & -> & _).
  replace (length pre + Z.to_nat (2 + Z.of_nat (length v)))%nat
    with (length (pre ++ enc_attr (t, v))) by (rewrite length_app, enc_attr_length; cbn [snd]; lia).
  apply IH; [|done|lia]. unfold wire in *. cbn. by rewrite Hw, <-app_assoc.
Qed.

Lemma enc_inj l k : enc l = enc k → l = k.
Proof.
  revert k. induction l as [|[t v] l IH]; intros [|[t' v'] k]; try done.
  rewrite !enc_cons. unfold enc_attr; cbn. intros [= -> Hlen Heq].
  apply app_inj_1 in Heq as [-> Heq]; [|lia]. f_equal. by apply IH.
Qed.

(** The part of [Radius_msg_parse] before the attribute loop. *)
Definition parse_start (data : bytes) (n : nat) : radius_msg :=
  mk_msg (take n data) n [] RADIUS_DEFAULT_ATTR_COUNT.

Definition length_field (data : bytes) : nat := Z.to_nat (of_be (take 2 (drop 2 data))).

Definition length_ok (data : bytes) : Prop :=
  (sizeof_radius_hdr ≤ length_field data ≤ length data)%nat.

Lemma parse_unfold data :
  Radius_msg_parse data = Ret None ∧ (malloc_never_fails → ¬ length_ok data)
  ∨ length_ok data
    ∧ Radius_msg_parse data = parse_attrs (length_field data)
                                (parse_start data (length_field data)) sizeof_radius_hdr.
Proof.
  unfold Radius_msg_parse, length_ok. case_decide; [left; split; [done|lia]|].
  assert (load data 2 2 = Ret (take 2 (drop 2 data))) as ->
    by (apply load_Ret; unfold sizeof_radius_hdr in *; split; [lia|done]).
  cbn [mbind outcome_bind]. fold (length_field data).
  set (n := length_field data). case_decide as Hbad; [left; split; [done|lia]|].
  unfold Radius_msg_initialize.
  destruct (negb _) eqn:M1; [left; split; [done|]; intros HM; by rewrite HM in M1|].
  case_decide; [lia|].
  destruct (negb (malloc_ok (Z.of_nat n))) eqn:M2;
    [left; split; [done|]; intros HM; by rewrite HM in M2|].
  destruct (negb (malloc_ok (_ * 4))) eqn:M3;
    [left; split; [done|]; intros HM; by rewrite HM in M3|].
  right. split; [lia|].
  assert (load data 0 n = Ret (take n data)) as -> by (apply load_Ret; split; [lia|done]).
  cbn [mbind outcome_bind].
  rewrite msg_write_Ret by (unfold buf_size; cbn; rewrite length_take, length_replicate; lia).
  cbn [mbind outcome_bind]. f_equal. unfold parse_start. cbn. f_equal.
  unfold splice. rewrite drop_ge by (rewrite length_replicate, length_take; lia).
  by rewrite app_nil_r.
Qed.

Lemma parse_start_wire data :
  length_ok data →
  let n := length_field data in
  let hdr := take sizeof_radius_hdr data in
  wire (parse_start data n) = hdr ++ take (n - sizeof_radius_hdr) (drop sizeof_radius_hdr data)
  ∧ length hdr = sizeof_radius_hdr
  ∧ buf_used (parse_start data n) = buf_size (parse_start data n).
Proof.
  intros [] n hdr. unfold wire, buf_size. cbn [parse_start buf buf_used].
  fold n. rewrite take_take, Nat.min_id, length_take. split_and!; [|unfold hdr; rewrite length_take; lia|lia].
  rewrite <-(take_drop sizeof_radius_hdr (take n data)), take_take, Nat.min_l by lia.
  by rewrite take_drop_commute, Nat.add_comm, Nat.sub_add by lia.
Qed.

Lemma parse_sound data :
  bytes_ok data →
  Radius_msg_parse data = Ret None ∨
  ∃ m hdr avs rest, Radius_msg_parse data = Ret (Some m) ∧ msg_rep m hdr avs
    ∧ data = hdr ++ enc avs ++ rest ∧ length_field data = buf_used m
    ∧ buf m = hdr ++ enc avs.
Proof.
  intros Hb. destruct (parse_unfold data) as [[? _]|[Hlen Heq]]; [by left|]. rewrite Heq. clear Heq.
  destruct (parse_start_wire data Hlen) as (Hw & Hh & Hu). destruct Hlen as [Hlo Hhi].
  set (n := length_field data) in *. set (hdr := take sizeof_radius_hdr data) in *.
  rewrite <-Hh.
  destruct (parse_attrs_sound n _ _ _ ltac:(by apply bytes_ok_take, bytes_ok_drop) Hw)
    as [->|(m & avs & -> & Hr & Hok & Hbm & Hum & Ham & Hsm)]; [lia| |cbv; lia|by left|].
  { rewrite length_take, length_drop. lia. }
  right. exists m, hdr, avs, (drop n data). rewrite Hr in Hw.
  assert (take n data = hdr ++ enc avs) as Hd.
  { rewrite <-Hw. unfold wire. cbn. by rewrite take_take, Nat.min_id. }
  split_and!; [done| | |by rewrite Hum|by rewrite Hbm].
  - constructor; [done| | | |done|done].
    + unfold wire in *. by rewrite Hbm, Hum.
    + unfold buf_size in *. rewrite Hbm, Hum. lia.
    + rewrite Ham, Hh. done.
  - rewrite app_assoc, <-Hd. by rewrite take_drop.
Qed.

Lemma parse_complete hdr avs rest :
  malloc_never_fails → length hdr = sizeof_radius_hdr → bytes_ok hdr → Forall attr_ok avs → bytes_ok rest →
  length_field hdr = (sizeof_radius_hdr + length (enc avs))%nat →
  ∃ m, Radius_msg_parse (hdr ++ enc avs ++ rest) = Ret (Some m) ∧ msg_rep m hdr avs
       ∧ buf m = hdr ++ enc avs.
Proof.
  intros HM Hh Hbh Hok Hbr Hn. set (data := hdr ++ enc avs ++ rest).
  assert (length_field data = (sizeof_radius_hdr + length (enc avs))%nat) as Hlf.
  { rewrite <-Hn. unfold length_field, data. unfold sizeof_radius_hdr in *.
    rewrite drop_app_le, take_app_le by (rewrite ?length_drop; lia). done. }
  assert (length_ok data) as Hlen.
  { unfold length_ok. rewrite Hlf. unfold data. rewrite !length_app. lia. }
  assert (∃ m, Radius_msg_parse data = Ret (Some m)) as [m Hm].
  { destruct (parse_unfold data) as [[_ Hno]|[_ ->]]; [by destruct (Hno HM)|].
    destruct (parse_start_wire data Hlen) as (Hw & Hlh & Hu).
    assert (take sizeof_radius_hdr data = hdr) as Hth
      by (unfold data; rewrite <-Hh; apply take_app_length).
    rewrite Hth in Hw. replace sizeof_radius_hdr with (length hdr) by done.
    apply parse_attrs_complete with avs; [done..| |lia|lia]. rewrite Hw. f_equal.
    rewrite Hlf, <-Hh. unfold data. rewrite drop_app_length, Nat.add_comm, Nat.add_sub. apply take_app_length. }
  destruct (parse_sound data) as [?|(m' & hdr' & avs' & rest' & Hm' & Hrep & Hd & Hu & Hb)];
    [unfold data; rewrite !bytes_ok_app; auto using enc_bytes_ok|congruence|].
  rewrite Hm in Hm'. injection Hm' as <-. exists m. pose proof (rep_used _ _ _ Hrep) as Hused. destruct (Hrep).
  assert (hdr' = hdr ∧ avs' = avs) as [-> ->]; [|done].
  unfold data in Hd. apply app_inj_1 in Hd as [-> Hd]; [|lia]. split; [done|].
  apply app_inj_1 in Hd as [Hd _]; [|unfold sizeof_radius_hdr in *; lia]. symmetry. by apply enc_inj.
Qed.

(** * Verification *)

(** Overwriting the value of one attribute by one of the same length. *)
Lemma write_value_rep m hdr l t v r v' :
  msg_rep m hdr (l ++ (t, v) :: r) → length v' = length v → bytes_ok v' →
  let off := (length (hdr ++ enc l) + 2)%nat in
  msg_write m off v' = Ret (m ⦃ buf := splice (buf m) off v' ⦄)
  ∧ msg_rep (m ⦃ buf := splice (buf m) off v' ⦄) hdr (l ++ (t, v') :: r).
Proof.
  intros Hrep Hlen Hb off. pose proof (rep_used _ _ _ Hrep) as Hused. destruct Hrep as [Hhdr Hwire Hfits Hattrs Hok Harr].
  rewrite enc_app, enc_cons, !length_app, enc_attr_length in Hused. cbn [snd] in Hused.
  assert (off + length v' ≤ buf_used m)%nat as Hin
    by (unfold off; rewrite length_app; unfold sizeof_radius_hdr in *; lia).
  unfold buf_size in *. split; [apply msg_write_Ret; unfold buf_size; lia|].
  apply Forall_app in Hok as [Hl [(Ht & Hv & _) Hr]%Forall_cons_1]. cbn [fst snd] in *.
  constructor; unfold buf_size; cbn; try done; try (rewrite splice_length; lia).
  - set (pre := hdr ++ enc l ++ [t; 2 + Z.of_nat (length v)]).
    assert (off = length pre) as -> by (unfold off, pre; rewrite !length_app; cbn; lia).
    unfold wire in *; cbn.
    rewrite <-(take_drop (buf_used m) (buf m)), Hwire.
    replace (hdr ++ enc (l ++ (t, v) :: r)) with (pre ++ v ++ enc r)
      by (unfold pre; rewrite enc_app, enc_cons, <-!app_assoc; done).
    unfold splice. rewrite <-!app_assoc, take_app_length, Hlen, <-length_app.
    rewrite (app_assoc pre v), drop_app_length.
    rewrite enc_app, enc_cons. unfold enc_attr; cbn [fst snd]. rewrite Hlen.
    rewrite !(app_assoc v'), !(app_assoc pre), take_app_length';
      [unfold pre; by rewrite <-!app_assoc|].
    rewrite !length_app. unfold pre. rewrite !length_app. cbn [length].
    unfold sizeof_radius_hdr in *. lia.
  - rewrite Hattrs, !offsets_app. f_equal. cbn [offsets]. do 2 f_equal.
    rewrite !enc_attr_length. cbn [snd]. lia.
  - apply Forall_app. split; [done|]. constructor; [|done]. split_and!; cbn [fst snd]; [done|lia|done].
Qed.

Lemma load_all m hdr avs : msg_rep m hdr avs → load (buf m) 0 (buf_used m) = Ret (hdr ++ enc avs).
Proof. intros [? Hw ? ? ? ?]. apply load_Ret. split; [done|]. rewrite drop_0. by rewrite <-Hw. Qed.

Lemma load_hdr m hdr avs off n :
  msg_rep m hdr avs → (off + n ≤ sizeof_radius_hdr)%nat →
  load (buf m) off n = Ret (take n (drop off hdr)).
Proof.
  intros Hrep Hn. pose proof (rep_used _ _ _ Hrep). destruct Hrep as [Hhdr Hwire Hfits _ _ _]. unfold buf_size in *.
  apply load_Ret. split; [lia|].
  rewrite <-(take_drop (buf_used m) (buf m)). fold (wire m).
  rewrite Hwire, <-app_assoc, drop_app_le, take_app_le by (rewrite ?length_drop; lia). done.
Qed.

(** A write inside the message leaves what is behind it. *)
Lemma drop_splice (b : bytes) off d n :
  (off + length d ≤ n)%nat → drop n (splice b off d) = drop n b.
Proof.
  intros. unfold splice. rewrite app_assoc, drop_app, drop_drop.
  rewrite drop_ge by (rewrite length_app, length_take; lia). cbn [app].
  destruct (decide (off ≤ length b)%nat).
  - rewrite length_app, length_take. f_equal. lia.
  - rewrite !drop_ge; [done|lia..].
Qed.

(** Two messages that differ in their buffers only, outside the bytes in use
    not at all, and represent the same thing, are the same. *)
Lemma rep_inj m b hdr avs :
  msg_rep m hdr avs → msg_rep (m ⦃ buf := b ⦄) hdr avs →
  drop (buf_used m) b = drop (buf_used m) (buf m) → m ⦃ buf := b ⦄ = m.
Proof.
  intros [_ Hw _ _ _ _] [_ Hw' _ _ _ _] Hd. destruct m as [b0 u a z]. cbn in *. f_equal. unfold wire in *; cbn in *.
  rewrite <-(take_drop u b), <-(take_drop u b0). congruence.
Qed.

Definition count_type (type : Z) (avs : list radius_attr) : nat :=
  length (filter (λ a, a.1 = type) avs).

Lemma count_type_app type l k : count_type type (l ++ k) = (count_type type l + count_type type k)%nat.
Proof. unfold count_type. by rewrite list.filter_app, length_app. Qed.

Lemma hdr_auth_rep m hdr avs : msg_rep m hdr avs → hdr_authenticator m = drop 4 hdr.
Proof.
  intros Hrep. pose proof (load_hdr m hdr avs 4 16 Hrep ltac:(cbv; lia)) as Hl.
  apply load_Ret in Hl as [_ Hl]. unfold hdr_authenticator. rewrite <-Hl.
  pose proof (rep_hdr _ _ _ Hrep). apply take_ge. rewrite length_drop. unfold sizeof_radius_hdr in *. lia.
Qed.

(** What the two authenticators of a response must be: the HMAC of the message
    with the request's authenticator in the header and zeros for the value,
    and the MD5 of RFC 2865 over the message, the request and the secret. *)
Definition mac_expected (secret hdr sauth : bytes) (l r : list radius_attr) : bytes :=
  hmac_md5 secret
    (take 4 hdr ++ sauth
     ++ enc (l ++ (RADIUS_ATTR_MESSAGE_AUTHENTICATOR, replicate 16 0) :: r)).

Definition auth_expected (secret hdr sauth : bytes) (avs : list radius_attr) : bytes :=
  md5_run stack_input [take 4 hdr; sauth; enc avs; secret].

Lemma splice_hdr (hdr sauth : bytes) :
  length hdr = sizeof_radius_hdr → length sauth = 16%nat → splice hdr 4 sauth = take 4 hdr ++ sauth.
Proof.
  intros Hh Hs. unfold splice. rewrite drop_ge; [by rewrite app_nil_r|].
  unfold sizeof_radius_hdr in *. lia.
Qed.

Lemma verify_found m hdr l v r :
  msg_rep m hdr (l ++ (RADIUS_ATTR_MESSAGE_AUTHENTICATOR, v) :: r) →
  count_type RADIUS_ATTR_MESSAGE_AUTHENTICATOR l = 0%nat →
  count_type RADIUS_ATTR_MESSAGE_AUTHENTICATOR r = 0%nat →
  find_attrs m RADIUS_ATTR_MESSAGE_AUTHENTICATOR (attrs m) = Ret [length (hdr ++ enc l)].
Proof.
  intros [Hhdr Hwire Hfits Hattrs _ _] Hl Hr. rewrite Hattrs, <-Hhdr.
  destruct (find_attrs_spec m RADIUS_ATTR_MESSAGE_AUTHENTICATOR hdr _ Hwire Hfits)
    as (found & -> & Hlen & Hhd). f_equal.
  specialize (Hhd l v r eq_refl ltac:(by apply nil_length_inv)).
  change (length found = count_type RADIUS_ATTR_MESSAGE_AUTHENTICATOR
                           (l ++ (RADIUS_ATTR_MESSAGE_AUTHENTICATOR, v) :: r)) in Hlen.
  rewrite count_type_app in Hlen. unfold count_type in Hlen at 2.
  rewrite filter_cons, decide_True in Hlen by done. cbn [length] in Hlen.
  fold (count_type RADIUS_ATTR_MESSAGE_AUTHENTICATOR r) in Hlen.
  destruct found as [|a [|? ?]]; cbn in Hlen; [lia| |lia]. cbn in Hhd. congruence.
Qed.

(** The in-place computation of the HMAC: clear the value, put the request's
    authenticator into the header, hash, and put both back. *)
Lemma verify_in_place m hdr l ma mac r sauth :
  msg_rep m hdr (l ++ (ma, mac) :: r) → length mac = 16%nat → length sauth = 16%nat →
  let off := (length (hdr ++ enc l) + 2)%nat in
  ∃ m1 m2 m3, msg_write m off (replicate MD5_MAC_LEN 0) = Ret m1
    ∧ load (buf m1) 4 16 = Ret (drop 4 hdr)
    ∧ msg_write m1 4 sauth = Ret m2
    ∧ load (buf m2) 0 (buf_used m2)
      = Ret (take 4 hdr ++ sauth ++ enc (l ++ (ma, replicate MD5_MAC_LEN 0) :: r))
    ∧ msg_write m2 off mac = Ret m3 ∧ msg_write m3 4 (drop 4 hdr) = Ret m.
Proof.
  intros Hrep Hmac Hsauth off.
  pose proof (rep_hdr _ _ _ Hrep) as Hh. pose proof (rep_fits _ _ _ Hrep) as Hfits.
  assert (attr_ok (ma, mac)) as (_ & _ & Hmb)
    by (pose proof (rep_ok _ _ _ Hrep) as [_ [? _]%Forall_cons_1]%Forall_app; done).
  destruct (write_value_rep m hdr l ma mac r (replicate MD5_MAC_LEN 0) Hrep) as [Hw1 Hrep1];
    [by rewrite length_replicate|by apply bytes_ok_replicate|].
  destruct (write_hdr_rep _ hdr _ 4 sauth Hrep1) as [Hw2 Hrep2];
    [rewrite Hsauth; cbv; lia|]. rewrite (splice_hdr hdr sauth) in Hrep2 by done.
  assert (length (take 4 hdr ++ sauth) = sizeof_radius_hdr) as Hh2
    by (rewrite length_app, length_take, Hh, Hsauth; done).
  destruct (write_value_rep _ _ l ma _ r mac Hrep2) as [Hw3 Hrep3];
    [by rewrite length_replicate|done|].
  assert (length ((take 4 hdr ++ sauth) ++ enc l) = length (hdr ++ enc l)) as Heq
    by (rewrite (length_app _ (enc l)), Hh2, <-Hh, <-length_app; done).
  rewrite Heq in Hw3, Hrep3.
  destruct (write_hdr_rep _ _ _ 4 (drop 4 hdr) Hrep3) as [Hw4 Hrep4];
    [rewrite length_drop, Hh; cbv; lia|].
  rewrite (splice_hdr (take 4 hdr ++ sauth) (drop 4 hdr)) in Hrep4
    by first [exact Hh2 | rewrite length_drop, Hh; reflexivity].
  rewrite take_app_length', take_drop in Hrep4 by (rewrite length_take, Hh; cbv; lia).
  eexists _, _, _. split_and!; [exact Hw1| |exact Hw2| |exact Hw3|].
  - rewrite (load_hdr _ _ _ 4 16 Hrep1) by (cbv; lia). f_equal. apply take_ge.
    rewrite length_drop, Hh. cbv. lia.
  - rewrite (load_all _ _ _ Hrep2). by rewrite <-app_assoc.
  - rewrite Hw4. f_equal. cbn [set buf] in Hrep4 |- *. apply (rep_inj m _ hdr _ Hrep Hrep4).
    pose proof (rep_used _ _ _ Hrep) as Hused.
    rewrite enc_app, enc_cons, !length_app, enc_attr_length in Hused. cbn [snd] in Hused.
    unfold buf_size, sizeof_radius_hdr in *.
    rewrite !drop_splice; [done|..].
    all: unfold off, MD5_MAC_LEN in *; rewrite ?length_replicate, ?length_app, ?length_drop; lia.
Qed.

Lemma response_hash_rep m hdr avs secret sauth :
  msg_rep m hdr avs → response_hash m secret sauth = Ret (auth_expected secret hdr sauth avs).
Proof.
  intros Hrep. unfold response_hash. rewrite (load_hdr m hdr avs 0 4 Hrep) by (cbv; lia).
  pose proof (rep_used _ _ _ Hrep) as Hused. destruct Hrep as [Hh Hw Hf _ _ _].
  cbn [mbind outcome_bind]. replace (buf_used m - 20)%nat with (length (enc avs))
    by (unfold sizeof_radius_hdr in *; lia).
  replace 20%nat with (length hdr) by done.
  rewrite (load_wire m hdr (enc avs) []) by (rewrite ?app_nil_r; done). done.
Qed.

Lemma verify_spec m hdr l mac r secret sent :
  msg_rep m hdr (l ++ (RADIUS_ATTR_MESSAGE_AUTHENTICATOR, mac) :: r) →
  count_type RADIUS_ATTR_MESSAGE_AUTHENTICATOR l = 0%nat →
  count_type RADIUS_ATTR_MESSAGE_AUTHENTICATOR r = 0%nat →
  length mac = 16%nat → length (hdr_authenticator sent) = 16%nat →
  Radius_msg_verify m secret (Some sent)
  = Ret (m, if bool_decide (mac = mac_expected secret hdr (hdr_authenticator sent) l r
                            ∧ drop 4 hdr = auth_expected secret hdr (hdr_authenticator sent)
                                 (l ++ (RADIUS_ATTR_MESSAGE_AUTHENTICATOR, mac) :: r))
            then 0 else 1).
Proof.
  intros Hrep Hl Hr Hmac Hsent. unfold Radius_msg_verify.
  rewrite (verify_found m hdr l mac r) by done. cbn [mbind outcome_bind].
  set (ma := RADIUS_ATTR_MESSAGE_AUTHENTICATOR) in *.
  assert (attr_data m (length (hdr ++ enc l)) MD5_MAC_LEN = Ret mac) as ->.
  { destruct (attr_at m (hdr ++ enc l) ma mac (enc r)) as (_ & _ & Hd).
    - rewrite (rep_wire _ _ _ Hrep). by rewrite enc_app, enc_cons, <-app_assoc.
    - by apply Hrep.
    - rewrite Hd, take_ge by (unfold MD5_MAC_LEN; lia). done. }
  cbn [mbind outcome_bind].
  destruct (verify_in_place m hdr l ma mac r (hdr_authenticator sent) Hrep Hmac Hsent)
    as (m1 & m2 & m3 & -> & E1 & E2 & E3 & E4 & E5).
  cbn [mbind outcome_bind]. rewrite E1. cbn [mbind outcome_bind]. rewrite E2.
  cbn [mbind outcome_bind]. rewrite E3. cbn [mbind outcome_bind]. rewrite E4.
  cbn [mbind outcome_bind]. rewrite E5. cbn [mbind outcome_bind].
  change (hmac_md5 secret _) with (mac_expected secret hdr (hdr_authenticator sent) l r).
  case_bool_decide as Hm; [rewrite bool_decide_false by (intros []; done); done|].
  rewrite (response_hash_rep m hdr _ _ _ Hrep). cbn [mbind outcome_bind].
  rewrite (hdr_auth_rep m hdr _ Hrep). do 2 f_equal.
  repeat case_bool_decide; destruct_hyps; try done; tauto || intuition congruence.
Qed.

(** The same two authenticators by the published definitions. *)
Lemma mac_expected_rfc secret hdr sauth l r :
  short secret → short (take 4 hdr ++ sauth ++ enc (l ++ (RADIUS_ATTR_MESSAGE_AUTHENTICATOR, replicate 16 0) :: r)) →
  mac_expected secret hdr sauth l r =
    md5_hmac_ref secret (take 4 hdr ++ sauth ++ enc (l ++ (RADIUS_ATTR_MESSAGE_AUTHENTICATOR, replicate 16 0) :: r)).
Proof. apply hmac_md5_ref. Qed.

Lemma auth_expected_rfc secret hdr sauth avs :
  short secret → short sauth → short (enc avs) →
  auth_expected secret hdr sauth avs = Rfc1321.digest (take 4 hdr ++ sauth ++ enc avs ++ secret).
Proof.
  intros Hs Ha He. unfold auth_expected. rewrite md5_run_ref, md5_rfc1321; [|done|].
  - cbn [concat]. by rewrite app_nil_r.
  - repeat constructor; try done. rewrite length_take. unfold short in *. lia.
Qed.

(** One attribute of a type, singled out. *)
Lemma count_one_split type avs :
  count_type type avs = 1%nat →
  ∃ l v r, avs = l ++ (type, v) :: r ∧ count_type type l = 0%nat ∧ count_type type r = 0%nat.
Proof.
  unfold count_type. induction avs as [|[t v] avs IH]; [done|]. rewrite filter_cons. cbn [fst].
  case_decide as Ht; intros H1.
  - subst t. exists [], v, avs. split_and!; [done..|]. cbn [length] in H1. lia.
  - destruct (IH H1) as (l & v' & r & -> & Hl & Hr). exists ((t, v) :: l), v', r.
    split_and!; [done| |done]. by rewrite filter_cons, decide_False.
Qed.

Lemma count_type_cons type t v l :
  count_type type ((t, v) :: l) = if decide (t = type) then S (count_type type l) else count_type type l.
Proof. unfold count_type. rewrite filter_cons. cbn [fst]. by case_decide. Qed.

Lemma first_split_unique type l l' v v' r r' :
  l ++ (type, v) :: r = l' ++ (type, v') :: r' → count_type type l = 0%nat → count_type type l' = 0%nat →
  l = l' ∧ v = v' ∧ r = r'.
Proof.
  revert l'. induction l as [|[t x] l IH]; intros [|[t' x'] l'] Heq Hl Hl'; cbn [app] in Heq.
  - by injection Heq as -> ->.
  - injection Heq as <- <- _. by rewrite count_type_cons, decide_True in Hl'.
  - injection Heq as -> -> _. by rewrite count_type_cons, decide_True in Hl.
  - injection Heq as <- <- Heq. rewrite count_type_cons in Hl, Hl'. case_decide; [done|].
    by destruct (IH l' Heq Hl Hl') as (-> & -> & ->).
Qed.

Lemma verify_rejects m hdr avs secret sent :
  msg_rep m hdr avs → count_type RADIUS_ATTR_MESSAGE_AUTHENTICATOR avs ≠ 1%nat →
  Radius_msg_verify m secret (Some sent) = Ret (m, 1).
Proof.
  intros [Hh Hw Hf Ha _ _] Hc. unfold Radius_msg_verify. rewrite Ha, <-Hh.
  destruct (find_attrs_spec m RADIUS_ATTR_MESSAGE_AUTHENTICATOR hdr avs Hw Hf)
    as (found & -> & Hlen & _). cbn [mbind outcome_bind]. unfold count_type in Hc.
  by destruct found as [|? [|? ?]].
Qed.

(** * Hidden passwords and keys *)

Lemma md5_run_length input chunks : length (md5_run input chunks) = 16%nat.
Proof. done. Qed.

(** The chained decryption undoes the chained encryption. *)
Lemma unhide_hide fuel secret prev p :
  (length p mod 16 = 0)%nat → (length p ≤ 16 * fuel)%nat →
  unhide_blocks fuel secret prev (hide_blocks fuel secret prev p) = p.
Proof.
  revert prev p. induction fuel as [|fuel IH]; intros prev p Hm Hl.
  { by destruct p; [|cbn in Hl; lia]. }
  destruct p as [|b p]; [done|]. cbn [hide_blocks]. set (q := b :: p) in *.
  assert (16 ≤ length q)%nat by (unfold q in *; cbn [length] in *; zlia).
  set (h := md5_run _ _). set (c := xor_bytes (take 16 q) h).
  assert (length (take 16 q) = length h) as Hlh
    by (rewrite length_take; unfold h; rewrite md5_run_length; lia).
  assert (length c = 16%nat) as Hc by (unfold c; rewrite xor_bytes_length, length_take; lia).
  cbn [unhide_blocks]. destruct (c ++ _) as [|x y] eqn:E.
  { apply (f_equal length) in E. rewrite length_app, Hc in E. discriminate E. }
  rewrite <-E. rewrite take_app_length', drop_app_length' by exact (eq_sym Hc).
  rewrite IH by (rewrite length_drop; zlia). fold h. unfold c.
  rewrite xor_bytes_involutive by exact Hlh. apply take_drop.
Qed.

(** The [i]-th block of 16 bytes. *)
Definition block16 (i : nat) (l : bytes) : bytes := take 16 (drop (16 * i) l).

Lemma block16_S i l : block16 (S i) l = block16 i (drop 16 l).
Proof. unfold block16. rewrite drop_drop. do 2 f_equal. lia. Qed.

Lemma hide_block fuel secret prev p i :
  (length p mod 16 = 0)%nat → (length p ≤ 16 * fuel)%nat → (16 * i < length p)%nat →
  block16 i (hide_blocks fuel secret prev p) =
    xor_bytes (block16 i p)
      (md5_run stack_input [secret; if decide (i = 0%nat) then prev
                                    else block16 (i - 1) (hide_blocks fuel secret prev p)]).
Proof.
  revert prev p i. induction fuel as [|fuel IH]; intros prev p i Hm Hl Hi; [lia|].
  destruct p as [|b p]; [cbn in Hi; lia|]. cbn [hide_blocks]. set (q := b :: p) in *.
  assert (16 ≤ length q)%nat by (unfold q in *; cbn [length] in *; zlia).
  set (c := xor_bytes (take 16 q) _).
  assert (length c = 16%nat) as Hc by (unfold c; rewrite xor_bytes_length; rewrite length_take, ?md5_run_length; lia).
  destruct i as [|i].
  - rewrite decide_True by done. unfold block16 at 1. rewrite drop_0, take_app_length' by done. done.
  - rewrite decide_False by done. rewrite block16_S, drop_app_length' by done.
    rewrite IH by (rewrite length_drop; zlia). rewrite block16_S. do 4 f_equal.
    replace (S i - 1)%nat with i by lia. case_decide as Hi0.
    + subst i. unfold block16. by rewrite drop_0, take_app_length'.
    + destruct i as [|i]; [done|]. rewrite block16_S, drop_app_length' by done. do 2 f_equal. lia.
Qed.

Lemma hide_length fuel secret prev p :
  (length p mod 16 = 0)%nat → (length p ≤ 16 * fuel)%nat →
  length (hide_blocks fuel secret prev p) = length p.
Proof.
  revert prev p. induction fuel as [|fuel IH]; intros prev p Hm Hl.
  { by destruct p; [|cbn in Hl; lia]. }
  destruct p as [|b p]; [done|]. cbn [hide_blocks]. set (q := b :: p) in *.
  assert (16 ≤ length q)%nat by (unfold q in *; cbn [length] in *; zlia).
  rewrite length_app, IH by (rewrite length_drop; zlia).
  rewrite xor_bytes_length, length_take, length_drop; [lia|].
  rewrite length_take, md5_run_length. lia.
Qed.

Lemma md5_run_bytes input chunks : bytes_ok (md5_run input chunks).
Proof. unfold md5_run, MD5Final. cbv zeta. cbn [fst]. unfold digest_bytes. rewrite !bytes_ok_app. auto with fw. Qed.

Lemma hide_bytes_ok fuel secret prev p : bytes_ok p → bytes_ok (hide_blocks fuel secret prev p).
Proof.
  revert prev p. induction fuel as [|fuel IH]; intros prev p Hp; [constructor|].
  cbn [hide_blocks]. destruct p; [constructor|]. rewrite bytes_ok_app.
  split; [apply xor_bytes_ok|apply IH]; auto using md5_run_bytes with fw.
Qed.

(** The encryption of RFC 2548, section 2.4.2, for a key of at most 255 bytes:
    the length and the key, zero-padded to whole blocks. *)
Definition mppe_plain (key : bytes) : bytes :=
  let p := Z.of_nat (length key) :: key in
  p ++ replicate ((16 - length p mod 16) mod 16) 0.

Definition mppe_encrypt (secret sauth salt key : bytes) : bytes :=
  let p := mppe_plain key in
  let c1 := xor_bytes (take 16 p) (md5_run stack_input [secret; sauth; salt]) in
  salt ++ c1 ++ hide_blocks (length p / 16) secret c1 (drop 16 p).

Lemma mppe_plain_length key :
  (length (mppe_plain key) mod 16 = 0)%nat ∧ (16 ≤ length (mppe_plain key))%nat
  ∧ (length key < length (mppe_plain key))%nat.
Proof.
  unfold mppe_plain. rewrite length_app, length_replicate. cbn [length]. zlia.
Qed.

Lemma decrypt_encrypt secret sent salt key :
  malloc_never_fails → length salt = 2%nat → (length key ≤ 255)%nat →
  decrypt_ms_key (mppe_encrypt secret (hdr_authenticator sent) salt key) sent secret
  = Ret (Some key).
Proof.
  intros HM Hs Hk. destruct (mppe_plain_length key) as (Hmod & Hlo & Hkl).
  unfold decrypt_ms_key, mppe_encrypt.
  set (p := mppe_plain key) in *. set (sauth := hdr_authenticator sent).
  set (h := md5_run _ [secret; sauth; salt]). set (c1 := xor_bytes (take 16 p) h).
  set (tl := hide_blocks _ _ _ _).
  assert (length (take 16 p) = length h) as Hlh
    by (rewrite length_take; unfold h; rewrite md5_run_length; lia).
  assert (length c1 = 16%nat) as Hc1 by (unfold c1; rewrite xor_bytes_length, length_take; [lia|exact Hlh]).
  assert (length tl = length p - 16)%nat as Htl
    by (unfold tl; rewrite hide_length; rewrite length_drop; [done|zlia|zlia]).
  assert (length (salt ++ c1 ++ tl) = 2 + length p)%nat as Hlen by (rewrite !length_app; lia).
  rewrite Hlen, decide_False by lia.
  replace (2 + length p - 2)%nat with (length p) by lia.
  rewrite decide_False by lia. rewrite !HM. cbn [negb].
  rewrite (take_app_length' salt) by exact (eq_sym Hs). rewrite (drop_app_length' salt) by exact (eq_sym Hs).
  rewrite (take_app_length' c1) by exact (eq_sym Hc1). rewrite (drop_app_length' c1) by exact (eq_sym Hc1).
  fold sauth h.
  replace (xor_bytes c1 h) with (take 16 p) by (symmetry; apply xor_bytes_involutive; exact Hlh).
  unfold tl. rewrite unhide_hide by (rewrite length_drop; zlia). rewrite take_drop.
  assert (idx p 0 = Z.of_nat (length key)) as -> by reflexivity.
  rewrite decide_False by lia. rewrite Nat2Z.id.
  assert (load p 1 (length key) = Ret key) as ->; [|done].
  apply load_Ret. split; [lia|]. symmetry.
  refine (take_app_length key (replicate _ 0)).
Qed.

(** * Looping and reading too far *)

(** A vendor sub-attribute of length 0 that is not the one looked for is never
    left, however long the loop runs. *)
Lemma ms_scan_zero_length fuel m ms_type pre t post left_ :
  wire m = pre ++ t :: 0 :: post → (buf_used m ≤ buf_size m)%nat → t ≠ ms_type → 2 ≤ left_ →
  ms_scan fuel m ms_type (length pre) left_ = NoFuel.
Proof.
  intros Hw Hf Ht Hl. induction fuel as [|fuel IH]; cbn [ms_scan];
    (replace (2 <=? left_) with true by lia); [done|].
  rewrite (byte_at_wire m pre t (0 :: post) Hw Hf). cbn [mbind outcome_bind].
  replace (length pre + 1)%nat with (length (pre ++ [t])) by (rewrite length_app; done).
  rewrite (byte_at_wire m (pre ++ [t]) 0 post) by (rewrite <-?app_assoc; done).
  cbn [mbind outcome_bind]. replace (left_ <? 0) with false by lia.
  replace (negb (t =? ms_type)) with true by lia.
  rewrite Nat.add_0_r, Z.sub_0_r. exact IH.
Qed.
End Parsing.
