(* ===== verification/RadiusProps.v ===== *)
(** The properties of the RADIUS message code. *)

From S2P Require Import Prelude Md5 Md5Props Radius RadiusRep RadiusFacts.

(** * Messages for the examples *)

(** A heap in which every allocation succeeds. *)
Definition heap : Malloc := λ _, true.

Lemma heap_never_fails : malloc_never_fails (H:=heap).
Proof. done. Qed.

Lemma attr_ok_intro t v :
  bool_decide (byte_ok t) = true → bool_decide (length v ≤ RADIUS_MAX_ATTR_LEN)%nat = true →
  bool_decide (bytes_ok v) = true → attr_ok (t, v).
Proof. intros ?%bool_decide_eq_true ?%bool_decide_eq_true ?%bool_decide_eq_true. done. Qed.

(** A header, and the message that holds it with the given attributes. *)
Definition demo_hdr (len : Z) : bytes := [2; 7] ++ be16 len ++ replicate 16 0x5a.

Definition demo_msg (avs : list radius_attr) : radius_msg :=
  let len := (20 + length (enc avs))%nat in
  mk_msg (demo_hdr (Z.of_nat len) ++ enc avs) len (offsets 20 avs) 16.

Lemma demo_rep avs :
  Forall attr_ok avs →
  msg_rep (demo_msg avs) (demo_hdr (Z.of_nat (20 + length (enc avs)))) avs.
Proof.
  intros Hok. assert (length (demo_hdr (Z.of_nat (20 + length (enc avs)))) = 20%nat) as Hh by done.
  unfold demo_msg. set (hdr := demo_hdr _) in *. clearbody hdr.
  split; [exact Hh| | |reflexivity|exact Hok|cbn; lia]; unfold wire, buf_size; cbn [buf buf_used].
  - apply take_ge. rewrite length_app. lia.
  - rewrite length_app. lia.
Qed.

Definition demo_avs : list radius_attr :=
  [(RADIUS_ATTR_USER_NAME, [0x61; 0x62]); (RADIUS_ATTR_STATE, [1; 2; 3; 4])].

Lemma demo_avs_ok : Forall attr_ok demo_avs.
Proof. repeat constructor; by vm_compute. Qed.

(** * Composed operations *)

(** A message built the way [radius.c]'s clients do: a new message, its
    attributes in order, and the length field. *)
Fixpoint add_attrs `{Malloc} (m : radius_msg) (avs : list radius_attr) : outcome radius_msg :=
  match avs with
  | [] => Ret m
  | (t, v) :: avs => let* (m, _) := Radius_msg_add_attr m t v in add_attrs m avs
  end.

Definition build `{Malloc} (code id : Z) (avs : list radius_attr) : outcome (option radius_msg) :=
  let* m := Radius_msg_new code id in
  match m with
  | None => Ret None
  | Some m => let* m := add_attrs m avs in let* m := Radius_msg_finish m None in Ret (Some m)
  end.

Lemma add_attrs_rep `{Malloc} m hdr l avs :
  malloc_never_fails → msg_rep m hdr l → Forall attr_ok avs →
  ∃ m', add_attrs m avs = Ret m' ∧ msg_rep m' hdr (l ++ avs).
Proof.
  intros HM Hrep Hok. revert m l Hrep. induction Hok as [|[t v] avs Ha _ IH]; intros m l Hrep.
  { exists m. rewrite app_nil_r. done. }
  cbn [add_attrs]. destruct (Radius_msg_add_attr_rep m hdr l t v HM Hrep Ha) as (m1 & -> & Hrep1).
  cbn [mbind outcome_bind]. destruct (IH m1 _ Hrep1) as (m' & -> & Hrep').
  exists m'. by rewrite <-app_assoc in Hrep'.
Qed.

Lemma get_attr_spec `{Malloc} m hdr avs type n :
  msg_rep m hdr avs →
  Radius_msg_get_attr m type n
  = Ret (match first_attr type avs with
         | Some v => (Z.of_nat (length v), take n v)
         | None => (-1, [])
         end).
Proof.
  intros [Hh Hw Hf Ha _ _]. unfold Radius_msg_get_attr. rewrite Ha, <-Hh.
  destruct (find_attr_spec m type hdr avs Hw Hf) as [[-> ->]|(l & v & r & -> & -> & ->)]; [done|].
  cbn [mbind outcome_bind].
  destruct (attr_at m (hdr ++ enc l) type v (enc r)) as (_ & -> & Hd);
    [by rewrite Hw, enc_app, enc_cons, <-app_assoc|done|]. cbn [mbind outcome_bind].
  replace (Z.to_nat (2 + Z.of_nat (length v) - 2)) with (length v) by lia.
  rewrite Hd by (case_decide; lia). cbn [mbind outcome_bind]. do 2 f_equal.
  case_decide; [done|]. rewrite !take_ge by lia. done.
Qed.

Lemma first_attr_app type l k :
  first_attr type (l ++ k)
  = match first_attr type l with Some v => Some v | None => first_attr type k end.
Proof.
  induction l as [|[t v] l IH]; [done|]. rewrite <-app_comm_cons, !first_attr_cons.
  by destruct (t =? type).
Qed.

(** * Properties *)

(** C21. Building and parsing are inverse: a message built from any list of
    well-formed attributes whose encoding fits the 16-bit length field is
    parsed back, from the bytes it occupies followed by anything, to the same
    code, identifier and attributes, in order. *)
Theorem radius_build_parse `{Malloc} code id avs rest :
  malloc_never_fails → Forall attr_ok avs → bytes_ok rest →
  20 + Z.of_nat (length (enc avs)) < 65536 →
  let hdr := [u8 code; u8 id] ++ be16 (Z.of_nat (20 + length (enc avs))) ++ replicate 16 0 in
  ∃ m m', build code id avs = Ret (Some m)
          ∧ Radius_msg_parse (wire m ++ rest) = Ret (Some m')
          ∧ msg_rep m' hdr avs ∧ wire m' = wire m.
Proof.
  intros HM Hok Hrest Hlen hdr. unfold build.
  destruct (Radius_msg_new_rep code id HM) as (m0 & -> & Hrep0). cbn [mbind outcome_bind].
  destruct (add_attrs_rep m0 _ [] avs HM Hrep0 Hok) as (m1 & -> & Hrep1). cbn [mbind outcome_bind].
  destruct (set_hdr_length_rep m1 _ _ Hrep1) as (m2 & Hm2 & Hrep2 & _).
  unfold Radius_msg_finish. rewrite Hm2. cbn [mbind outcome_bind]. cbn [app] in Hrep2.
  change (take 2 _ ++ _ ++ drop 4 _) with hdr in Hrep2.
  destruct (parse_complete hdr avs rest) as (m' & Hp & Hrep' & _); try done.
  - unfold hdr. rewrite !bytes_ok_app. split_and!; auto with fw.
    + repeat constructor; apply u8_range.
    + by apply bytes_ok_replicate.
  - unfold length_field. change (take 2 (drop 2 hdr)) with (be16 (Z.of_nat (20 + length (enc avs)))).
    rewrite of_be_be16 by lia. unfold sizeof_radius_hdr. lia.
  - exists m2, m'. rewrite (rep_wire _ _ _ Hrep2), <-app_assoc. split_and!; [done..|].
    by rewrite (rep_wire _ _ _ Hrep').
Qed.

Lemma radius_build_parse_witness :
  ∃ m m', build (H:=heap) 1 42 demo_avs = Ret (Some m)
          ∧ Radius_msg_parse (H:=heap) (wire m ++ [9; 9]) = Ret (Some m')
          ∧ msg_rep m' ([1; 42] ++ be16 30 ++ replicate 16 0) demo_avs ∧ wire m' = wire m.
Proof.
  apply (radius_build_parse (H:=heap) 1 42 demo_avs [9; 9]);
    [done|apply demo_avs_ok|by repeat constructor|done].
Defined.

(** C22. Parsing is safe and exact on any datagram: it never reads outside the
    datagram or the message buffer, always returns, and when it accepts, the
    bytes up to the length field are a header followed by the encoding of the
    attribute list that the pointer array describes. *)
Theorem radius_parse_safe `{Malloc} (data : bytes) :
  bytes_ok data →
  Radius_msg_parse data = Ret None ∨
  ∃ m hdr avs rest, Radius_msg_parse data = Ret (Some m) ∧ msg_rep m hdr avs
    ∧ data = hdr ++ enc avs ++ rest
    ∧ Z.to_nat (of_be (take 2 (drop 2 data))) = buf_used m.
Proof.
  intros Hb. destruct (parse_sound data Hb) as [?|(m & hdr & avs & rest & ? & ? & ? & ? & _)];
    [by left|right; eauto 10].
Qed.

Lemma radius_parse_safe_witness :
  Radius_msg_parse (H:=heap) (demo_hdr 23 ++ [79; 3; 1]) = Ret None ∨
  ∃ m hdr avs rest, Radius_msg_parse (H:=heap) (demo_hdr 23 ++ [79; 3; 1]) = Ret (Some m)
    ∧ msg_rep m hdr avs ∧ demo_hdr 23 ++ [79; 3; 1] = hdr ++ enc avs ++ rest
    ∧ Z.to_nat (of_be (take 2 (drop 2 (demo_hdr 23 ++ [79; 3; 1])))) = buf_used m.
Proof.
  apply (radius_parse_safe (H:=heap)). apply (bool_decide_unpack _). by vm_compute.
Defined.

(** An EAP message travels whole: [Radius_msg_add_eap] splits it over
    EAP-Message attributes of at most 253 bytes and [Radius_msg_get_eap] puts
    the fragments back together. *)
Theorem radius_eap_roundtrip `{Malloc} m hdr avs data :
  malloc_never_fails → msg_rep m hdr avs → eap_payload avs = [] → bytes_ok data →
  data ≠ [] → Z.of_nat (length data) < 4294967296 →
  ∃ m' frags, Radius_msg_add_eap m data = Ret (m', true) ∧ msg_rep m' hdr (avs ++ frags)
    ∧ Radius_msg_get_eap m' = Ret (Some data).
Proof.
  intros HM Hrep Hnone Hb Hne Hlen. unfold Radius_msg_add_eap.
  destruct (add_eap_loop_rep (length data) m hdr avs data HM Hrep Hb (le_n _)) as (m' & -> & Hrep').
  exists m', (eap_chunks (length data) data). split_and!; [done..|].
  destruct Hrep' as [Hh Hw Hf Ha _ _]. unfold Radius_msg_get_eap.
  destruct (eap_loops_spec m' hdr _ Hw Hf) as [Hl Hc].
  rewrite Ha, <-Hh, Hl, Hc. cbn [mbind outcome_bind]. rewrite HM.
  rewrite eap_payload_app, Hnone, eap_payload_chunks by lia. cbn [app].
  rewrite u32_id by lia. destruct data; [done|]. cbn [length].
  by replace (Z.of_nat (S (length data)) =? 0) with false by lia.
Qed.

Lemma radius_eap_roundtrip_witness :
  ∃ m' frags, Radius_msg_add_eap (H:=heap) (demo_msg demo_avs) (replicate 600 7) = Ret (m', true)
    ∧ msg_rep m' (demo_hdr 30) (demo_avs ++ frags)
    ∧ Radius_msg_get_eap (H:=heap) m' = Ret (Some (replicate 600 7)).
Proof.
  apply (radius_eap_roundtrip (H:=heap));
    [done|apply (demo_rep demo_avs), demo_avs_ok|done|by apply bytes_ok_replicate|done|done].
Defined.

(** Attribute lookup is lookup in the attribute list:
    [Radius_msg_get_attr] returns the length of the first attribute of the
    type, copies no more than the caller's buffer holds, and gives -1 when
    there is none; [Radius_msg_get_attr_int32] reads back what
    [Radius_msg_add_attr_int32] wrote. *)
Theorem radius_attr_lookup `{Malloc} m hdr avs type n :
  msg_rep m hdr avs →
  Radius_msg_get_attr m type n
  = Ret (match first_attr type avs with
         | Some v => (Z.of_nat (length v), take n v)
         | None => (-1, [])
         end)
  ∧ ∀ value, malloc_never_fails → byte_ok type → first_attr type avs = None →
      0 ≤ value < 4294967296 →
      ∃ m', Radius_msg_add_attr_int32 m type value = Ret (m', true)
            ∧ Radius_msg_get_attr_int32 m' type = Ret (Some value).
Proof.
  intros Hrep. split; [by apply get_attr_spec with hdr|]. intros value HM Ht Hnone Hv.
  unfold Radius_msg_add_attr_int32, Radius_msg_get_attr_int32.
  destruct (Radius_msg_add_attr_rep m hdr avs type (be32 value) HM Hrep) as (m' & -> & Hrep').
  { split_and!; [done|cbv; lia|apply bytes_ok_be32]. }
  cbn [mbind outcome_bind]. exists m'. split; [done|].
  rewrite (get_attr_spec m' hdr _ type 4 Hrep'), first_attr_app, Hnone, first_attr_cons, Z.eqb_refl.
  cbn [mbind outcome_bind]. change (take 4 (be32 value)) with (be32 value).
  rewrite of_be_be32 by done. done.
Qed.

Lemma radius_attr_lookup_witness :
  Radius_msg_get_attr (demo_msg demo_avs) RADIUS_ATTR_STATE 3 = Ret (4, [1; 2; 3])
  ∧ ∃ m', Radius_msg_add_attr_int32 (H:=heap) (demo_msg demo_avs) RADIUS_ATTR_SESSION_TIMEOUT 3600
          = Ret (m', true)
          ∧ Radius_msg_get_attr_int32 m' RADIUS_ATTR_SESSION_TIMEOUT = Ret (Some 3600).
Proof.
  split.
  - apply (radius_attr_lookup (H:=heap) (demo_msg demo_avs) (demo_hdr 30) demo_avs
             RADIUS_ATTR_STATE 3 (demo_rep demo_avs demo_avs_ok)).
  - apply (radius_attr_lookup (H:=heap) (demo_msg demo_avs) (demo_hdr 30) demo_avs
             RADIUS_ATTR_SESSION_TIMEOUT 4 (demo_rep demo_avs demo_avs_ok)); done.
Defined.

(** A response with the right authenticators, as the RFCs say: exactly one
    Message-Authenticator, which is the HMAC-MD5 (RFC 2104) of the message with
    the request's authenticator in the header and zeros for its value (RFC
    2869, 5.14), and a Response Authenticator that is the MD5 (RFC 1321) of
    code, identifier, length, request authenticator, attributes and secret
    (RFC 2865, 3). *)
Definition response_right (secret hdr sauth : bytes) (avs : list radius_attr) : Prop :=
  ∃ l mac r, avs = l ++ (RADIUS_ATTR_MESSAGE_AUTHENTICATOR, mac) :: r
    ∧ count_type RADIUS_ATTR_MESSAGE_AUTHENTICATOR l = 0%nat
    ∧ count_type RADIUS_ATTR_MESSAGE_AUTHENTICATOR r = 0%nat
    ∧ mac = md5_hmac_ref secret
              (take 4 hdr ++ sauth ++ enc (l ++ (RADIUS_ATTR_MESSAGE_AUTHENTICATOR, replicate 16 0) :: r))
    ∧ drop 4 hdr = Rfc1321.digest (take 4 hdr ++ sauth ++ enc avs ++ secret).

Lemma response_right_count secret hdr sauth avs :
  response_right secret hdr sauth avs → count_type RADIUS_ATTR_MESSAGE_AUTHENTICATOR avs = 1%nat.
Proof.
  intros (l & mac & r & -> & Hl & Hr & _). rewrite count_type_app, Hl. unfold count_type in *.
  rewrite filter_cons, decide_True by done. cbn [length]. lia.
Qed.

(** C13. Response verification is exact.  For any received message whose
    Message-Authenticator, if it has exactly one, is of 16 bytes (the code
    does not look at its length), [Radius_msg_verify] returns 0 if and only if
    the response is right in the sense of the RFCs ([response_right]: one
    Message-Authenticator and both authenticators as MD5 and HMAC-MD5 give
    them), 1 otherwise - in particular when there is no Message-Authenticator
    or more than one - and 1 when there is no request; in every case the
    message is left as it was. *)
Theorem radius_verify_exact m hdr avs secret sent :
  msg_rep m hdr avs → Z.of_nat (buf_used m) ≤ 65535 → short secret → length (hdr_authenticator sent) = 16%nat →
  (count_type RADIUS_ATTR_MESSAGE_AUTHENTICATOR avs = 1%nat →
   ∀ mac, (RADIUS_ATTR_MESSAGE_AUTHENTICATOR, mac) ∈ avs → length mac = 16%nat) →
  (∃ ret, Radius_msg_verify m secret (Some sent) = Ret (m, ret)
     ∧ (ret = 0 ∨ ret = 1)
     ∧ (ret = 0 ↔ response_right secret hdr (hdr_authenticator sent) avs))
  ∧ Radius_msg_verify m secret None = Ret (m, 1).
Proof.
  intros Hrep Hused Hsec Hs Hmac. split; [|done]. rewrite (rep_used _ _ _ Hrep) in Hused.
  destruct (decide (count_type RADIUS_ATTR_MESSAGE_AUTHENTICATOR avs = 1%nat)) as [H1|Hn].
  2:{ exists 1. split_and!; [by eapply verify_rejects|by right|]. split; [done|].
      intros Hr. by apply response_right_count in Hr. }
  destruct (count_one_split _ _ H1) as (l & mac & r & -> & Hl & Hr).
  assert (length mac = 16%nat) as Hm16 by (apply Hmac; [done|apply elem_of_app; right; left]).
  rewrite (verify_spec m hdr l mac r) by done. eexists. split; [reflexivity|].
  assert (length (enc (l ++ (RADIUS_ATTR_MESSAGE_AUTHENTICATOR, replicate 16 0) :: r))
          = length (enc (l ++ (RADIUS_ATTR_MESSAGE_AUTHENTICATOR, mac) :: r))) as Hlen.
  { rewrite !enc_app, !enc_cons, !length_app, !enc_attr_length. cbn [snd]. by rewrite length_replicate, Hm16. }
  assert (short (take 4 hdr ++ hdr_authenticator sent
                 ++ enc (l ++ (RADIUS_ATTR_MESSAGE_AUTHENTICATOR, replicate 16 0) :: r))) as Hshort.
  { unfold short. rewrite !length_app, Hlen, Hs, length_take. zify. lia. }
  rewrite mac_expected_rfc by done. rewrite auth_expected_rfc by (done || unfold short; lia).
  split; [case_bool_decide; tauto|]. case_bool_decide as Hb.
  - split; [|done]. intros _. exists l, mac, r. tauto.
  - split; [done|]. intros (l' & mac' & r' & Heq & Hl' & Hr' & Hmac' & Hauth').
    destruct (first_split_unique _ _ _ _ _ _ _ Heq Hl Hl') as (<- & <- & <-). by destruct Hb.
Qed.

(** An answer to [demo_msg []] with the authenticators as they have to be. *)
Definition demo_mac : bytes :=
  md5_hmac_ref [0x73] (take 4 (demo_hdr 38) ++ replicate 16 0x5a
                       ++ enc [(RADIUS_ATTR_MESSAGE_AUTHENTICATOR, replicate 16 0)]).
Definition demo_answer : radius_msg :=
  let avs := [(RADIUS_ATTR_MESSAGE_AUTHENTICATOR, demo_mac)] in
  mk_msg (take 4 (demo_hdr 38)
          ++ Rfc1321.digest (take 4 (demo_hdr 38) ++ replicate 16 0x5a ++ enc avs ++ [0x73]) ++ enc avs)
    38 [20%nat] 16.

(** A message without a Message-Authenticator is refused, the right answer is
    taken. *)
Lemma radius_verify_exact_witness :
  Radius_msg_verify (demo_msg demo_avs) [0x73] (Some (demo_msg [])) = Ret (demo_msg demo_avs, 1)
  ∧ Radius_msg_verify demo_answer [0x73] (Some (demo_msg [])) = Ret (demo_answer, 0).
Proof.
  destruct (radius_verify_exact (demo_msg demo_avs) (demo_hdr 30) demo_avs [0x73] (demo_msg []))
    as [(ret & Hret & H01 & Hok) _].
  - apply (demo_rep demo_avs demo_avs_ok).
  - cbn. lia.
  - reflexivity.
  - reflexivity.
  - discriminate.
  - split; [|vm_compute; reflexivity]. destruct H01 as [->| ->]; [|exact Hret].
    discriminate (response_right_count _ _ _ _ (proj1 Hok eq_refl)).
Defined.

(** C23. User passwords are hidden as RFC 2865 (5.2) says, and reversibly: for a
    password of at most 128 bytes, [Radius_msg_add_attr_user_password] pads it
    with zeros to the next multiple of 16 (none for a multiple of 16, the empty
    password included) and appends a User-Password attribute of that length
    whose every 16-byte block is the block of the padded password xored with
    the MD5 of the secret followed by the request authenticator (first block)
    or by the hidden block before it; the chained decryption gives the padded
    password back. *)
Theorem radius_password_roundtrip `{Malloc} m hdr avs pwd secret :
  malloc_never_fails → msg_rep m hdr avs → bytes_ok pwd → (length pwd ≤ 128)%nat → short secret →
  let padded := pwd ++ replicate ((16 - length pwd mod 16) mod 16) 0 in
  ∃ m' v, Radius_msg_add_attr_user_password m pwd secret = Ret (m', Some (buf_used m))
    ∧ msg_rep m' hdr (avs ++ [(RADIUS_ATTR_USER_PASSWORD, v)])
    ∧ length v = length padded ∧ (length padded mod 16 = 0)%nat
    ∧ (∀ i, (16 * i < length padded)%nat →
         block16 i v = xor_bytes (block16 i padded)
           (Rfc1321.digest (secret ++ if decide (i = 0%nat) then hdr_authenticator m else block16 (i - 1) v)))
    ∧ unhide_blocks 8 secret (hdr_authenticator m) v = padded.
Proof.
  intros HM Hrep Hb Hl Hsec padded. unfold Radius_msg_add_attr_user_password. rewrite decide_False by lia.
  set (p := if decide _ then _ else pwd).
  assert (p = padded) as ->.
  { unfold p, padded. case_decide as Hp.
    - by rewrite (Nat.mod_small (16 - _)) by zlia.
    - by rewrite Hp, app_nil_r. }
  assert (length padded mod 16 = 0 ∧ length padded ≤ 128)%nat as [Hmod Hmax].
  { unfold padded. rewrite length_app, length_replicate. zlia. }
  set (v := hide_blocks _ _ _ padded).
  assert (length v = length padded) as Hv by (unfold v; apply hide_length; lia).
  destruct (Radius_msg_add_attr_rep m hdr avs RADIUS_ATTR_USER_PASSWORD v HM Hrep) as (m' & -> & Hrep').
  { split_and!; cbn [fst snd]; [done|rewrite Hv; unfold RADIUS_MAX_ATTR_LEN; lia|].
    apply hide_bytes_ok. unfold padded. rewrite bytes_ok_app. split; [done|by apply bytes_ok_replicate]. }
  exists m', v. split_and!; [done..| |unfold v; by rewrite unhide_hide by lia].
  intros i Hi. unfold v at 1. rewrite hide_block by lia. fold v. f_equal.
  rewrite md5_run_ref, md5_rfc1321; [cbn [concat]; by rewrite app_nil_r|done|].
  repeat constructor; [done|]. case_decide; [|unfold block16]; unfold hdr_authenticator; rewrite length_take; lia.
Qed.

(** Two bytes, fourteen zeros, one block. *)
Lemma radius_password_roundtrip_witness :
  ∃ m' v, Radius_msg_add_attr_user_password (H:=heap) (demo_msg []) [0x70; 0x77] [0x73]
            = Ret (m', Some 20%nat)
    ∧ msg_rep m' (demo_hdr 20) ([] ++ [(RADIUS_ATTR_USER_PASSWORD, v)])
    ∧ v = xor_bytes ([0x70; 0x77] ++ replicate 14 0) (Rfc1321.digest (0x73 :: replicate 16 0x5a)).
Proof.
  destruct (radius_password_roundtrip (H:=heap) (demo_msg []) (demo_hdr 20) [] [0x70; 0x77] [0x73])
    as (m' & v & Hadd & Hrep & Hlen & _ & Hblock & _).
  - exact heap_never_fails.
  - apply (demo_rep []). constructor.
  - apply (bool_decide_unpack _). by vm_compute.
  - cbn. lia.
  - reflexivity.
  - exists m', v. split; [exact Hadd|]. split; [exact Hrep|].
    specialize (Hblock 0%nat ltac:(cbn; lia)). rewrite decide_True in Hblock by done.
    rewrite <-(take_ge v 16) by (rewrite Hlen; cbn; lia). exact Hblock.
Defined.

(** MPPE keys are recovered: [decrypt_ms_key] inverts the encryption of
    RFC 2548 (length byte, key, zero padding, chained MD5 blocks over the
    secret, the request authenticator and the salt) for every key of up to
    255 bytes. *)
Theorem mppe_key_roundtrip `{Malloc} secret sent salt key :
  malloc_never_fails → length salt = 2%nat → (length key ≤ 255)%nat →
  decrypt_ms_key (mppe_encrypt secret (hdr_authenticator sent) salt key) sent secret
  = Ret (Some key).
Proof. apply decrypt_encrypt. Qed.

Lemma mppe_key_roundtrip_witness :
  decrypt_ms_key (H:=heap)
    (mppe_encrypt [0x73] (hdr_authenticator (demo_msg [])) [0x80; 1] (replicate 32 0x11))
    (demo_msg []) [0x73] = Ret (Some (replicate 32 0x11)).
Proof. apply (mppe_key_roundtrip (H:=heap)); [done|done|cbn; lia]. Defined.

(** A received Message-Authenticator shorter than 16 bytes at the end of a
    message makes [Radius_msg_verify] read past the end of the message buffer:
    the attribute's length is never checked. *)
Theorem radius_verify_short_mac_overreads m hdr l v secret sent :
  msg_rep m hdr (l ++ [(RADIUS_ATTR_MESSAGE_AUTHENTICATOR, v)]) →
  count_type RADIUS_ATTR_MESSAGE_AUTHENTICATOR l = 0%nat →
  buf_size m = buf_used m → (length v < 16)%nat →
  Radius_msg_verify m secret (Some sent) = Oob.
Proof.
  intros Hrep Hl Hex Hv. unfold Radius_msg_verify.
  rewrite (verify_found m hdr l v []) by done. cbn [mbind outcome_bind].
  unfold attr_data, load. rewrite decide_False; [done|].
  pose proof (rep_used _ _ _ Hrep) as Hu. pose proof (rep_hdr _ _ _ Hrep).
  rewrite enc_app, enc_cons, length_app, length_app, enc_attr_length in Hu. cbn [snd enc map concat length] in Hu.
  unfold buf_size in Hex. rewrite length_app. unfold MD5_MAC_LEN, sizeof_radius_hdr in *. lia.
Qed.

Lemma radius_verify_short_mac_overreads_witness :
  Radius_msg_verify (demo_msg [(RADIUS_ATTR_MESSAGE_AUTHENTICATOR, [1; 2])]) [0x73] (Some (demo_msg []))
  = Oob.
Proof.
  apply (radius_verify_short_mac_overreads _ (demo_hdr 24) [] [1; 2]); [|done|done|cbn; lia].
  apply (demo_rep [(RADIUS_ATTR_MESSAGE_AUTHENTICATOR, [1; 2])]). repeat constructor; by vm_compute.
Defined.

(** A Microsoft vendor attribute with a sub-attribute of length 0 of another
    type hangs the daemon: the scan of [Radius_msg_get_ms_attr] never leaves
    it, whatever the number of iterations. *)
Theorem ms_attr_zero_length_hangs `{Malloc} fuel m hdr t ms_type rest :
  msg_rep m hdr [(RADIUS_ATTR_VENDOR_SPECIFIC, be32 RADIUS_VENDOR_ID_MICROSOFT ++ t :: 0 :: rest)] →
  t ≠ ms_type →
  ms_scan fuel m ms_type 26 (2 + Z.of_nat (length rest)) = NoFuel
  ∧ Radius_msg_get_ms_attr m ms_type = NoFuel.
Proof.
  intros Hrep Ht. destruct Hrep as [Hh Hw Hf Ha _ _].
  set (body := be32 RADIUS_VENDOR_ID_MICROSOFT ++ t :: 0 :: rest) in *.
  set (pre := hdr ++ [RADIUS_ATTR_VENDOR_SPECIFIC; 2 + Z.of_nat (length body)]
                  ++ be32 RADIUS_VENDOR_ID_MICROSOFT).
  assert (length pre = 26%nat) as Hpre by (unfold pre; rewrite length_app, Hh; done).
  assert (∀ fuel, ms_scan fuel m ms_type 26 (2 + Z.of_nat (length rest)) = NoFuel) as Hscan.
  { intros f. rewrite <-Hpre. apply (ms_scan_zero_length f m ms_type pre t rest); [|done..|lia].
    rewrite Hw. unfold pre, body. rewrite enc_cons, <-app_assoc. cbn. by rewrite app_nil_r. }
  split; [done|]. unfold Radius_msg_get_ms_attr. rewrite Ha, <-Hh. cbn [offsets get_ms_attr_loop].
  destruct (attr_at m hdr RADIUS_ATTR_VENDOR_SPECIFIC body []) as (-> & -> & Hd);
    [by rewrite Hw|done|]. cbn [mbind outcome_bind]. rewrite Z.eqb_refl. cbn [negb].
  assert (length body = 6 + length rest)%nat as Hbody by done.
  replace (_ <? 4) with false by lia. rewrite Hd by lia. cbn [mbind outcome_bind].
  change (take 4 body) with (be32 RADIUS_VENDOR_ID_MICROSOFT). rewrite of_be_be32 by done.
  rewrite Z.eqb_refl. cbn [negb]. rewrite Hh.
  replace (2 + Z.of_nat (length body) - 2 - 4) with (2 + Z.of_nat (length rest)) by lia.
  change (sizeof_radius_hdr + 6)%nat with 26%nat. by rewrite Hscan.
Qed.

Lemma ms_attr_zero_length_hangs_witness :
  let m := demo_msg [(RADIUS_ATTR_VENDOR_SPECIFIC, be32 RADIUS_VENDOR_ID_MICROSOFT ++ [9; 0])] in
  ms_scan (H:=heap) 1000 m RADIUS_VENDOR_ATTR_MS_MPPE_SEND_KEY 26 2 = NoFuel
  ∧ Radius_msg_get_ms_attr (H:=heap) m RADIUS_VENDOR_ATTR_MS_MPPE_SEND_KEY = NoFuel.
Proof.
  apply (ms_attr_zero_length_hangs (H:=heap) 1000 _ (demo_hdr 28) 9 _ []); [|done].
  apply (demo_rep [(RADIUS_ATTR_VENDOR_SPECIFIC, be32 RADIUS_VENDOR_ID_MICROSOFT ++ [9; 0])]).
  repeat constructor; by vm_compute.
Defined.
