(* ===== verification/Crc32.v ===== *)
(** The CRC-32 of the NVRAM blocks ([lib/libnvram/crc32.c], and its copy
    [nv_crc32] in [arch/mips/rt2880/nvram.c]): the table, the unrolled loop,
    and the proof that they compute the bit-serial CRC of the polynomial
    0xedb88320, a byte at a time. *)

From S2P Require Import Prelude Md5 Md5Props.

(** * The code *)

Definition crc_table : list Z :=
  [
   0x00000000; 0x77073096; 0xee0e612c; 0x990951ba; 0x076dc419;
   0x706af48f; 0xe963a535; 0x9e6495a3; 0x0edb8832; 0x79dcb8a4;
   0xe0d5e91e; 0x97d2d988; 0x09b64c2b; 0x7eb17cbd; 0xe7b82d07;
   0x90bf1d91; 0x1db71064; 0x6ab020f2; 0xf3b97148; 0x84be41de;
   0x1adad47d; 0x6ddde4eb; 0xf4d4b551; 0x83d385c7; 0x136c9856;
   0x646ba8c0; 0xfd62f97a; 0x8a65c9ec; 0x14015c4f; 0x63066cd9;
   0xfa0f3d63; 0x8d080df5; 0x3b6e20c8; 0x4c69105e; 0xd56041e4;
   0xa2677172; 0x3c03e4d1; 0x4b04d447; 0xd20d85fd; 0xa50ab56b;
   0x35b5a8fa; 0x42b2986c; 0xdbbbc9d6; 0xacbcf940; 0x32d86ce3;
   0x45df5c75; 0xdcd60dcf; 0xabd13d59; 0x26d930ac; 0x51de003a;
   0xc8d75180; 0xbfd06116; 0x21b4f4b5; 0x56b3c423; 0xcfba9599;
   0xb8bda50f; 0x2802b89e; 0x5f058808; 0xc60cd9b2; 0xb10be924;
   0x2f6f7c87; 0x58684c11; 0xc1611dab; 0xb6662d3d; 0x76dc4190;
   0x01db7106; 0x98d220bc; 0xefd5102a; 0x71b18589; 0x06b6b51f;
   0x9fbfe4a5; 0xe8b8d433; 0x7807c9a2; 0x0f00f934; 0x9609a88e;
   0xe10e9818; 0x7f6a0dbb; 0x086d3d2d; 0x91646c97; 0xe6635c01;
   0x6b6b51f4; 0x1c6c6162; 0x856530d8; 0xf262004e; 0x6c0695ed;
   0x1b01a57b; 0x8208f4c1; 0xf50fc457; 0x65b0d9c6; 0x12b7e950;
   0x8bbeb8ea; 0xfcb9887c; 0x62dd1ddf; 0x15da2d49; 0x8cd37cf3;
   0xfbd44c65; 0x4db26158; 0x3ab551ce; 0xa3bc0074; 0xd4bb30e2;
   0x4adfa541; 0x3dd895d7; 0xa4d1c46d; 0xd3d6f4fb; 0x4369e96a;
   0x346ed9fc; 0xad678846; 0xda60b8d0; 0x44042d73; 0x33031de5;
   0xaa0a4c5f; 0xdd0d7cc9; 0x5005713c; 0x270241aa; 0xbe0b1010;
   0xc90c2086; 0x5768b525; 0x206f85b3; 0xb966d409; 0xce61e49f;
   0x5edef90e; 0x29d9c998; 0xb0d09822; 0xc7d7a8b4; 0x59b33d17;
   0x2eb40d81; 0xb7bd5c3b; 0xc0ba6cad; 0xedb88320; 0x9abfb3b6;
   0x03b6e20c; 0x74b1d29a; 0xead54739; 0x9dd277af; 0x04db2615;
   0x73dc1683; 0xe3630b12; 0x94643b84; 0x0d6d6a3e; 0x7a6a5aa8;
   0xe40ecf0b; 0x9309ff9d; 0x0a00ae27; 0x7d079eb1; 0xf00f9344;
   0x8708a3d2; 0x1e01f268; 0x6906c2fe; 0xf762575d; 0x806567cb;
   0x196c3671; 0x6e6b06e7; 0xfed41b76; 0x89d32be0; 0x10da7a5a;
   0x67dd4acc; 0xf9b9df6f; 0x8ebeeff9; 0x17b7be43; 0x60b08ed5;
   0xd6d6a3e8; 0xa1d1937e; 0x38d8c2c4; 0x4fdff252; 0xd1bb67f1;
   0xa6bc5767; 0x3fb506dd; 0x48b2364b; 0xd80d2bda; 0xaf0a1b4c;
   0x36034af6; 0x41047a60; 0xdf60efc3; 0xa867df55; 0x316e8eef;
   0x4669be79; 0xcb61b38c; 0xbc66831a; 0x256fd2a0; 0x5268e236;
   0xcc0c7795; 0xbb0b4703; 0x220216b9; 0x5505262f; 0xc5ba3bbe;
   0xb2bd0b28; 0x2bb45a92; 0x5cb36a04; 0xc2d7ffa7; 0xb5d0cf31;
   0x2cd99e8b; 0x5bdeae1d; 0x9b64c2b0; 0xec63f226; 0x756aa39c;
   0x026d930a; 0x9c0906a9; 0xeb0e363f; 0x72076785; 0x05005713;
   0x95bf4a82; 0xe2b87a14; 0x7bb12bae; 0x0cb61b38; 0x92d28e9b;
   0xe5d5be0d; 0x7cdcefb7; 0x0bdbdf21; 0x86d3d2d4; 0xf1d4e242;
   0x68ddb3f8; 0x1fda836e; 0x81be16cd; 0xf6b9265b; 0x6fb077e1;
   0x18b74777; 0x88085ae6; 0xff0f6a70; 0x66063bca; 0x11010b5c;
   0x8f659eff; 0xf862ae69; 0x616bffd3; 0x166ccf45; 0xa00ae278;
   0xd70dd2ee; 0x4e048354; 0x3903b3c2; 0xa7672661; 0xd06016f7;
   0x4969474d; 0x3e6e77db; 0xaed16a4a; 0xd9d65adc; 0x40df0b66;
   0x37d83bf0; 0xa9bcae53; 0xdebb9ec5; 0x47b2cf7f; 0x30b5ffe9;
   0xbdbdf21c; 0xcabac28a; 0x53b39330; 0x24b4a3a6; 0xbad03605;
   0xcdd70693; 0x54de5729; 0x23d967bf; 0xb3667a2e; 0xc4614ab8;
   0x5d681b02; 0x2a6f2b94; 0xb40bbe37; 0xc30c8ea1; 0x5a05df1b;
   0x2d02ef8d
  ].

(** [make_crc_table], compiled with [DYNAMIC_CRC_TABLE]: the polynomial from
    its exponents, and the shift register for each byte. *)
Definition crc_exponents : list Z := [0; 1; 2; 4; 5; 7; 8; 10; 11; 12; 16; 22; 23; 26].

Definition crc_poly : Z := foldl (λ poly e, Z.lor poly (Z.shiftl 1 (31 - e))) 0 crc_exponents.

Definition crc_bit (c : Z) : Z :=
  if Z.land c 1 =? 1 then Z.lxor crc_poly (Z.shiftr c 1) else Z.shiftr c 1.

Definition make_crc_table : list Z :=
  map (λ n, Nat.iter 8 crc_bit n) (seqZ 0 256).

(** The register after one byte. *)
Definition crc_step (crc b : Z) : Z :=
  Z.lxor (idx crc_table (Z.land (Z.lxor crc b) 255)) (Z.shiftr crc 8).

(** The macros [DO1] to [DO8], on the register and the rest of the buffer. *)
Definition DO1 (s : Z * bytes) : Z * bytes :=
  let '(crc, buf) := s in (crc_step crc (idx buf 0), tail buf).
Definition DO2 (s : Z * bytes) : Z * bytes := DO1 (DO1 s).
Definition DO4 (s : Z * bytes) : Z * bytes := DO2 (DO2 s).
Definition DO8 (s : Z * bytes) : Z * bytes := DO4 (DO4 s).

(** [while (len >= 8) { DO8(buf); len -= 8; }], then
    [if (len) do { DO1(buf); } while (--len);]; [len] is [length buf]. *)
Definition crc32_loop (s : Z * bytes) (len : nat) : Z * bytes :=
  let s := Nat.iter (len / 8) DO8 s in
  Nat.iter (len mod 8) DO1 s.

Definition crc32 (crc : Z) (buf : bytes) : Z :=
  let crc := Z.lxor crc 0xffffffff in
  Z.lxor (fst (crc32_loop (crc, buf) (length buf))) 0xffffffff.

(** [nv_crc32] first tests [buf] for NULL; it never is. *)
Definition nv_crc32 (crc : Z) (buf : bytes) : Z := crc32 crc buf.

(** * Reference: one bit at a time *)

(** Eight shifts of the register after the byte has been added to it. *)
Definition crc_serial (crc b : Z) : Z := Nat.iter 8 crc_bit (Z.lxor crc b).

Definition crc32_ref (buf : bytes) : Z :=
  Z.lxor (foldl crc_serial 0xffffffff buf) 0xffffffff.

(** * Facts *)

Definition word_ok (x : Z) : Prop := 0 ≤ x < 2 ^ 32.

Lemma crc_table_made : crc_table = make_crc_table.
Proof. by vm_compute. Qed.

(** ** The unrolled loop *)

Lemma iter_DO1 n crc buf :
  (n ≤ length buf)%nat →
  Nat.iter n DO1 (crc, buf) = (foldl crc_step crc (take n buf), drop n buf).
Proof.
  revert crc buf. induction n as [|n IH]; intros crc buf Hn; [done|].
  rewrite Nat.iter_succ_r. destruct buf as [|b buf]; [cbn in Hn; lia|].
  cbn [DO1 tail]. rewrite IH by (cbn in Hn; lia). done.
Qed.

Lemma iter_DO8 n s : Nat.iter n DO8 s = Nat.iter (8 * n) DO1 s.
Proof.
  induction n as [|n IH]; [done|]. rewrite Nat.mul_succ_r, Nat.add_comm, Nat.iter_add.
  rewrite <-IH. done.
Qed.

Lemma crc32_loop_fold crc buf :
  crc32_loop (crc, buf) (length buf) = (foldl crc_step crc buf, []).
Proof.
  unfold crc32_loop. rewrite iter_DO8, <-Nat.iter_add.
  replace (length buf mod 8 + 8 * (length buf / 8))%nat with (length buf)
    by (pose proof (Nat.div_mod_eq (length buf) 8); lia).
  rewrite iter_DO1, take_ge, drop_ge by lia. done.
Qed.

(** ** The table *)

Lemma land_1_testbit c : (Z.land c 1 =? 1) = Z.testbit c 0.
Proof.
  change 1 with (Z.ones 1) at 1. rewrite Z.land_ones, Z.bit0_odd by lia.
  change (2 ^ 1) with 2. rewrite Zmod_odd. by destruct (Z.odd c).
Qed.

Lemma crc_bit_linear c d :
  Z.testbit d 0 = false → crc_bit (Z.lxor c d) = Z.lxor (crc_bit c) (Z.shiftr d 1).
Proof.
  intros Hlow. unfold crc_bit. rewrite !land_1_testbit, Z.lxor_spec, Hlow, xorb_false_r, Z.shiftr_lxor.
  case_match; [|done]. by rewrite Z.lxor_assoc.
Qed.

Lemma iter_crc_bit_linear k c d :
  (∀ i, 0 ≤ i < Z.of_nat k → Z.testbit d i = false) →
  Nat.iter k crc_bit (Z.lxor c d) = Z.lxor (Nat.iter k crc_bit c) (Z.shiftr d (Z.of_nat k)).
Proof.
  induction k as [|k IH]; intros Hd; [done|].
  rewrite !Nat.iter_succ, IH by (intros; apply Hd; lia). rewrite crc_bit_linear.
  - rewrite Z.shiftr_shiftr by lia. do 2 f_equal. lia.
  - rewrite Z.shiftr_spec by lia. apply Hd. lia.
Qed.

Lemma table_entry i : 0 ≤ i < 256 → idx crc_table i = Nat.iter 8 crc_bit i.
Proof.
  intros Hi. rewrite crc_table_made. unfold idx, make_crc_table.
  rewrite (nth_indep _ 0 (Nat.iter 8 crc_bit 0)) by (rewrite length_map, length_seqZ; lia).
  rewrite map_nth. f_equal.
  rewrite (nth_lookup_Some _ _ _ i); [done|]. apply lookup_seqZ. lia.
Qed.

(** One table step is eight steps of the shift register. *)
Lemma crc_step_serial crc b : 0 ≤ crc → byte_ok b → crc_step crc b = crc_serial crc b.
Proof.
  intros Hc Hb. unfold crc_step, crc_serial. set (x := Z.lxor crc b).
  assert (0 ≤ x) by (unfold x; apply Z.lxor_nonneg; unfold byte_ok in Hb; lia).
  rewrite land_255, table_entry by (apply Z.mod_pos_bound; lia).
  set (d := Z.shiftl (Z.shiftr x 8) 8).
  assert (x = Z.lxor (x mod 256) d) as Hx.
  { change 256 with (2 ^ 8). rewrite <-Z.land_ones by lia. apply Z.bits_inj'. intros i Hi.
    unfold d. rewrite Z.lxor_spec, Z.land_spec, Z.testbit_ones_nonneg by lia.
    destruct (i <? 8) eqn:E.
    - rewrite Z.shiftl_spec_low by lia. by destruct (Z.testbit x i).
    - rewrite Z.shiftl_spec, Z.shiftr_spec by lia. rewrite Z.sub_add. by destruct (Z.testbit x i). }
  rewrite Hx at 2. rewrite iter_crc_bit_linear.
  - f_equal. unfold d. change (Z.of_nat 8) with 8. rewrite Z.shiftr_shiftl_l, Z.sub_diag by lia.
    cbn [Z.shiftl]. unfold x. rewrite Z.shiftr_lxor.
    replace (Z.shiftr b 8) with 0; [by rewrite Z.lxor_0_r|].
    rewrite Z.shiftr_div_pow2 by lia. unfold byte_ok in Hb. symmetry. by apply Z.div_small.
  - intros i Hi. unfold d. by rewrite Z.shiftl_spec_low by lia.
Qed.

(** ** Words *)

Lemma table_word i : word_ok (idx crc_table i).
Proof.
  unfold idx, word_ok. destruct (decide (Z.to_nat i < 256)%nat).
  - assert (Forall (λ x, 0 ≤ x < 2 ^ 32) crc_table) as HF
      by (apply (bool_decide_unpack _); by vm_compute).
    apply (proj1 (List.Forall_nth _ _) HF). done.
  - rewrite nth_overflow by (change (length crc_table) with 256%nat; lia). lia.
Qed.

Lemma shiftr_8_bound c : word_ok c → 0 ≤ Z.shiftr c 8 < 2 ^ 24.
Proof. unfold word_ok. rewrite Z.shiftr_div_pow2 by lia. change (2 ^ 8) with 256. zlia. Qed.

Lemma crc_step_word c b : word_ok c → word_ok (crc_step c b).
Proof.
  intros Hc. apply lxor_word; [lia|apply table_word|]. apply shiftr_8_bound in Hc. lia.
Qed.

Lemma crc_fold_word buf c : word_ok c → word_ok (foldl crc_step c buf).
Proof. revert c. induction buf as [|b buf IH]; intros c Hc; [done|]. by apply IH, crc_step_word. Qed.

Lemma crc_fold_serial buf c :
  word_ok c → bytes_ok buf → foldl crc_step c buf = foldl crc_serial c buf.
Proof.
  revert c. induction buf as [|b buf IH]; intros c Hc Hb; [done|]. apply Forall_cons_1 in Hb as [Hb Hbuf].
  cbn [foldl]. rewrite <-crc_step_serial by (unfold word_ok in Hc; lia || done).
  apply IH; [by apply crc_step_word|done].
Qed.

Lemma crc32_fold buf : crc32 0 buf = Z.lxor (foldl crc_step 0xffffffff buf) 0xffffffff.
Proof. unfold crc32. by rewrite crc32_loop_fold. Qed.

Lemma crc32_word buf : word_ok (crc32 0 buf).
Proof. rewrite crc32_fold. apply lxor_word; [lia|by apply crc_fold_word|lia]. Qed.

(** ** Error detection *)

(** The top bytes of the table are all different. *)
Lemma table_top_inj i j :
  0 ≤ i < 256 → 0 ≤ j < 256 →
  Z.shiftr (idx crc_table i) 24 = Z.shiftr (idx crc_table j) 24 → i = j.
Proof.
  intros Hi Hj E.
  assert (NoDup (map (λ x, Z.shiftr x 24) crc_table)) as Hnd
    by (apply (bool_decide_unpack _); by vm_compute).
  assert (∀ k, 0 ≤ k < 256 →
    map (λ x, Z.shiftr x 24) crc_table !! Z.to_nat k = Some (Z.shiftr (idx crc_table k) 24)) as Hlk.
  { intros k Hk. change (map ?f ?l) with (f <$> l). rewrite list_lookup_fmap.
    destruct (lookup_lt_is_Some_2 crc_table (Z.to_nat k)) as [x Hx];
      [change (length crc_table) with 256%nat; lia|].
    unfold idx. rewrite (nth_lookup_Some _ _ _ _ Hx), Hx. reflexivity. }
  assert (Z.to_nat i = Z.to_nat j); [|lia].
  eapply NoDup_lookup; [exact Hnd|by apply Hlk|rewrite Hlk by done; by f_equal].
Qed.

(** The index into the table can be read off the new register. *)
Lemma crc_step_index c b c' b' :
  word_ok c → word_ok c' → crc_step c b = crc_step c' b' →
  Z.land (Z.lxor c b) 255 = Z.land (Z.lxor c' b') 255 ∧ Z.shiftr c 8 = Z.shiftr c' 8.
Proof.
  intros Hc Hc' E. unfold crc_step in E.
  assert (Z.land (Z.lxor c b) 255 = Z.land (Z.lxor c' b') 255) as Ei.
  { apply table_top_inj; [rewrite land_255; zlia..|].
    apply (f_equal (λ x, Z.shiftr x 24)) in E. rewrite !Z.shiftr_lxor in E.
    assert (∀ w, word_ok w → Z.shiftr (Z.shiftr w 8) 24 = 0) as H0.
    { intros w Hw%shiftr_8_bound. rewrite (Z.shiftr_div_pow2 _ 24) by lia. by apply Z.div_small. }
    by rewrite !H0, !Z.lxor_0_r in E by done. }
  split; [done|]. rewrite Ei in E.
  apply (f_equal (Z.lxor (idx crc_table (Z.land (Z.lxor c' b') 255)))) in E.
  by rewrite <-!Z.lxor_assoc, Z.lxor_nilpotent, !Z.lxor_0_l in E.
Qed.

Lemma lxor_mod_256 a b : Z.lxor a b mod 256 = Z.lxor (a mod 256) (b mod 256).
Proof.
  change 256 with (2 ^ 8). rewrite <-!Z.land_ones by lia. apply Z.bits_inj'. intros i Hi.
  rewrite !Z.lxor_spec, !Z.land_spec, Z.lxor_spec.
  destruct (Z.testbit a i), (Z.testbit b i), (Z.testbit (Z.ones 8) i); done.
Qed.

Lemma lxor_cancel_r a b c : Z.lxor a c = Z.lxor b c → a = b.
Proof.
  intros E. apply (f_equal (λ x, Z.lxor x c)) in E.
  by rewrite !Z.lxor_assoc, Z.lxor_nilpotent, !Z.lxor_0_r in E.
Qed.

Lemma crc_step_inj_crc c c' b : word_ok c → word_ok c' → crc_step c b = crc_step c' b → c = c'.
Proof.
  intros Hc Hc' E. destruct (crc_step_index _ _ _ _ Hc Hc' E) as [Ei Es].
  rewrite !land_255, !lxor_mod_256 in Ei. apply lxor_cancel_r in Ei.
  rewrite !Z.shiftr_div_pow2 in Es by lia. change (2 ^ 8) with 256 in Es. zlia.
Qed.

Lemma crc_step_inj_byte c b b' :
  word_ok c → byte_ok b → byte_ok b' → crc_step c b = crc_step c b' → b = b'.
Proof.
  intros Hc Hb Hb' E. destruct (crc_step_index _ _ _ _ Hc Hc E) as [Ei _].
  rewrite !land_255, !lxor_mod_256, !(Z.mod_small b), !(Z.mod_small b') in Ei by done.
  rewrite !(Z.lxor_comm (c mod 256)) in Ei. by apply lxor_cancel_r in Ei.
Qed.

Lemma crc_fold_inj buf c c' :
  word_ok c → word_ok c' → foldl crc_step c buf = foldl crc_step c' buf → c = c'.
Proof.
  revert c c'. induction buf as [|b buf IH]; intros c c' Hc Hc' E; [done|].
  apply (crc_step_inj_crc _ _ b); [done..|]. apply IH; auto using crc_step_word.
Qed.

(** * Properties *)

(** C24. The CRC code is the bit-serial CRC-32: the table, the eight-fold
    unrolled loop and the tail loop give, for every block of bytes, the CRC of
    the polynomial 0xedb88320 shifted out one bit at a time; the stored table
    is the one [make_crc_table] computes, and the result fits 32 bits. *)
Theorem crc32_is_bit_serial (buf : bytes) :
  bytes_ok buf →
  crc32 0 buf = crc32_ref buf ∧ crc_table = make_crc_table ∧ 0 ≤ crc32 0 buf < 2 ^ 32.
Proof.
  intros Hb. split_and!; [|apply crc_table_made|apply crc32_word..].
  rewrite crc32_fold. unfold crc32_ref. by rewrite crc_fold_serial.
Qed.

Lemma crc32_is_bit_serial_witness :
  crc32 0 [0x31; 0x32; 0x33; 0x34; 0x35; 0x36; 0x37; 0x38; 0x39] = 0xcbf43926
  ∧ crc32 0 [0x31; 0x32; 0x33] = crc32_ref [0x31; 0x32; 0x33].
Proof.
  split; [by vm_compute|]. apply crc32_is_bit_serial. apply (bool_decide_unpack _). by vm_compute.
Defined.

(** The CRC detects every corruption of a single byte: two blocks that
    differ in exactly one byte have different CRCs, whatever their length and
    wherever the byte. *)
Theorem crc32_detects_one_byte (pre post : bytes) (b b' : Z) :
  byte_ok b → byte_ok b' → b ≠ b' →
  crc32 0 (pre ++ b :: post) ≠ crc32 0 (pre ++ b' :: post).
Proof.
  intros Hb Hb' Hne E. rewrite !crc32_fold in E. apply lxor_cancel_r in E.
  rewrite !foldl_app in E. cbn [foldl] in E.
  assert (word_ok (foldl crc_step 0xffffffff pre)) as Hw by by apply crc_fold_word.
  apply crc_fold_inj in E; [|by apply crc_step_word..]. by apply crc_step_inj_byte in E.
Qed.

Lemma crc32_detects_one_byte_witness :
  crc32 0 ([1; 2] ++ 3 :: [4]) ≠ crc32 0 ([1; 2] ++ 7 :: [4]).
Proof. by apply crc32_detects_one_byte. Defined.
