(* ===== verification/Flash.v ===== *)
(** Flash access: the user-space [flash_read] and [flash_write] of
    [lib/libnvram/flash_api.c] and the kernel's [ra_mtd_read_nm] and
    [ra_mtd_write_nm] of [drivers/mtd/maps/ralink-flash.c].

    Both sit on the MTD layer of the kernel, the interface [Mtd]; what a NOR
    flash behind it promises is the class [NorFlash]. *)

From S2P Require Import Prelude.

(** * The MTD interface *)

(** [mtd_present]: a partition of the name looked for exists and opens.
    [mtd_info]: its size and its erase size, unless [MEMGETINFO] fails.  The
    other operations give a non-zero error code or their result. *)
Class Mtd (D : Type) := {
  mtd_present : D → bool;
  mtd_info : D → option (nat * nat);
  mtd_read : D → nat → nat → Z + bytes;
  mtd_erase : D → nat → nat → Z + D;
  mtd_write : D → nat → bytes → Z + D
}.

(** What [malloc]ed memory that nobody has written to holds. *)
Definition uninit (n : nat) : bytes := replicate n 0xa5.

Section Flash.
Context {D : Type} `{Mtd D} `{Malloc}.

Definition size_of (d : D) : nat := match mtd_info d with Some (s, _) => s | None => 0 end.

(** [read] and [write] on an MTD character device at the file position [pos]
    ([drivers/mtd/mtdchar.c]): truncated at the end of the device; [None] is -1. *)
Definition fd_read (d : D) (pos n : nat) : option (bytes * nat) :=
  match mtd_read d pos (n `min` (size_of d - pos)) with
  | inl _ => None
  | inr b => Some (b, (pos + length b)%nat)
  end.

Definition fd_write (d : D) (pos : nat) (b : bytes) : option (D * nat * Z) :=
  let b := take (size_of d - pos) b in
  match mtd_write d pos b with
  | inl _ => None
  | inr d => Some (d, (pos + length b)%nat, Z.of_nat (length b))
  end.

(** * [flash_api.c] *)

(** The return value and the bytes read. *)
Definition flash_read (d : D) (from len : nat) : Z * bytes :=
  if negb (mtd_present d) then (-1, [])
  else
    match mtd_info d with
    | None => (-1, [])
    | Some (size, _) =>
        if decide (size < len)%nat then (-1, [])
        else
          match fd_read d from len with
          | None => (-1, [])
          | Some (b, _) => (Z.of_nat (length b), b)
          end
    end.

(** The readers of the Factory partition: [n] bytes from [off]. *)
Definition flash_read_at (d : D) (off n : nat) : Z * bytes :=
  if negb (mtd_present d) then (-1, [])
  else match fd_read d off n with None => (-1, []) | Some (b, _) => (Z.of_nat (length b), b) end.

Definition flash_read_sharekey (d : D) : Z * bytes := flash_read_at d (Z.to_nat 0x5000) 8.
Definition flash_read_size_eeprom_rf (d : D) (size : nat) : Z * bytes := flash_read_at d (Z.to_nat 0x5000) size.
Definition flash_read_mac (d : D) : Z * bytes := flash_read_at d 0x2e 6.
Definition flash_read_wlan_mac (d : D) : Z * bytes := flash_read_at d 0x04 6.
Definition flash_read_NicConf (d : D) : Z * bytes := flash_read_at d 0x34 6.

(** The loop of [flash_write]: the device, the file position, what is left of
    the buffer, where it goes, and the last return value. *)
Fixpoint flash_write_loop (fuel es : nat) (d : D) (pos : nat) (buf : bytes) (to : nat) (ret : Z) :
    outcome (Z * D) :=
  match buf with
  | [] => Ret (ret, d)
  | _ =>
      match fuel with
      | O => NoFuel
      | S fuel =>
          let len := length buf in
          if negb (Z.land (Z.of_nat len) (Z.of_nat es - 1) =? 0) || bool_decide (len < es)%nat then
            if negb (malloc_ok (Z.of_nat es)) then Ret (-1, d)
            else
              let bakaddr := Z.to_nat (Z.land (Z.of_nat to) (Z.lnot (Z.of_nat es - 1))) in
              match fd_read d bakaddr es with
              | None => Ret (-1, d)
              | Some (rd, _) =>
                  let bak := rd ++ uninit (es - length rd) in
                  let piece := Z.to_nat (Z.land (Z.of_nat to) (Z.of_nat es - 1)) in
                  let piece_size := (len `min` (es - piece))%nat in
                  let* bak := store bak piece (take piece_size buf) in
                  match mtd_erase d bakaddr es with
                  | inl _ => Ret (-1, d)
                  | inr d =>
                      match fd_write d bakaddr bak with
                      | None => Ret (-1, d)
                      | Some (d, pos, ret) =>
                          flash_write_loop fuel es d pos (drop piece_size buf) (to + piece_size) ret
                      end
                  end
              end
          else
            match mtd_erase d to es with
            | inl _ => Ret (-1, d)
            | inr d =>
                match fd_write d pos (take es buf) with
                | None => Ret (-1, d)
                | Some (d, pos, ret) =>
                    flash_write_loop fuel es d pos (drop es buf) (to + es) ret
                end
            end
      end
  end.

(** The file position starts at 0; every iteration consumes at least a byte. *)
Definition flash_write (d : D) (buf : bytes) (to : nat) : outcome (Z * D) :=
  if negb (mtd_present d) then Ret (-1, d)
  else
    match mtd_info d with
    | None => Ret (-1, d)
    | Some (size, es) =>
        if decide (size < length buf)%nat then Ret (-1, d)
        else flash_write_loop (length buf) es d 0 buf to 0
    end.

(** The same code on the Factory partition. *)
Definition flash_write_ralink_eeprom (d : D) (buf : bytes) (to : nat) : outcome (Z * D) :=
  flash_write d buf to.

Definition flash_write_passkey_ralink (d : D) (buf : bytes) : outcome (Z * D) :=
  flash_write_ralink_eeprom d (take (Z.to_nat 0x1000) buf) (Z.to_nat 0x5000).

(** * [ralink-flash.c] *)

Definition ENODEV : Z := 19.
Definition E2BIG : Z := 7.
Definition ENOMEM : Z := 12.

(** [IS_ERR(mtd)] carries [-ENODEV]. *)
Definition ra_mtd_read_nm (d : D) (from len : nat) : Z * bytes :=
  if negb (mtd_present d) then (- ENODEV, [])
  else match mtd_read d from len with inl e => (e, []) | inr b => (0, b) end.

(** Read-modify-write of the first erase block of the partition. *)
Definition ra_mtd_write_nm (d : D) (to : nat) (buf : bytes) : outcome (Z * D) :=
  if negb (mtd_present d) then Ret (- ENODEV, d)
  else
    match mtd_info d with
    | None => Ret (- ENODEV, d)
    | Some (_, erasesize) =>
        if decide (erasesize < length buf)%nat then Ret (- E2BIG, d)
        else if negb (malloc_ok (Z.of_nat erasesize)) then Ret (- ENOMEM, d)
        else
          match mtd_read d 0 erasesize with
          | inl e => Ret (e, d)
          | inr rd =>
              let bak := rd ++ uninit (erasesize - length rd) in
              let* bak := store bak to buf in
              match mtd_erase d 0 erasesize with
              | inl e => Ret (e, d)
              | inr d =>
                  match mtd_write d 0 bak with
                  | inl e => Ret (e, d)
                  | inr d => Ret (0, d)
                  end
              end
          end
    end.

End Flash.

(** * What a NOR flash promises *)

(** Programming a byte can only clear bits; erasing sets every bit of a block;
    a device that answers keeps its geometry. *)
Class NorFlash (D : Type) `{Mtd D} := {
  contents : D → bytes;
  nor_geometry d size es :
    mtd_info d = Some (size, es) →
    length (contents d) = size ∧ ∃ k, Z.of_nat es = 2 ^ k ∧ 0 ≤ k ∧ (size mod es = 0)%nat;
  nor_bytes d : bytes_ok (contents d);
  nor_read d from n b :
    mtd_read d from n = inr b → (from + n ≤ length (contents d))%nat →
    b = take n (drop from (contents d));
  nor_read_error d from n e : mtd_read d from n = inl e → e < 0;
  nor_erase d a n d' :
    mtd_erase d a n = inr d' → (a + n ≤ length (contents d))%nat →
    contents d' = splice (contents d) a (replicate n 0xff) ∧ mtd_info d' = mtd_info d
    ∧ mtd_present d' = mtd_present d;
  nor_erase_error d a n e : mtd_erase d a n = inl e → e < 0;
  nor_write d a b d' :
    mtd_write d a b = inr d' → (a + length b ≤ length (contents d))%nat →
    contents d' = splice (contents d) a (zip_with Z.land (take (length b) (drop a (contents d))) b)
    ∧ mtd_info d' = mtd_info d ∧ mtd_present d' = mtd_present d;
  nor_write_error d a b e : mtd_write d a b = inl e → e < 0
}.
