(* ===== verification/FlashProps.v ===== *)
(** Correctness of the flash code of [Flash] on a NOR flash, an instance of
    it, and the properties of the component. *)

From S2P Require Import Prelude Flash.

(** * Overwriting parts of a buffer *)

Lemma splice_overwrite (b d e : bytes) off :
  (off + length d ≤ length b)%nat → length d = length e →
  splice (splice b off d) off e = splice b off e.
Proof.
  intros Hl He. apply list_eq. intros i.
  rewrite !lookup_splice by (rewrite ?splice_length; lia). repeat case_decide; lia || done.
Qed.

(** A change of part of a block is a change of the whole. *)
Lemma splice_nested (b data : bytes) a n piece :
  (a + n ≤ length b)%nat → (piece + length data ≤ n)%nat →
  splice b a (splice (take n (drop a b)) piece data) = splice b (a + piece) data.
Proof.
  intros Ha Hp. assert (length (take n (drop a b)) = n) as Hn
    by (rewrite length_take, length_drop; lia).
  apply list_eq. intros i.
  rewrite !lookup_splice by (rewrite ?splice_length; lia). rewrite splice_length by lia.
  repeat case_decide; try lia; try (f_equal; lia); try done.
  rewrite lookup_take_lt, lookup_drop by lia. f_equal. lia.
Qed.

Lemma splice_nil (b : bytes) off : splice b off [] = b.
Proof. unfold splice. rewrite Nat.add_0_r. apply take_drop. Qed.

(** Writing the first part and then the rest. *)
Lemma splice_two (b d e : bytes) off :
  (off + length d + length e ≤ length b)%nat →
  splice (splice b off d) (off + length d) e = splice b off (d ++ e).
Proof.
  intros Hl. apply list_eq. intros i.
  rewrite !lookup_splice by (rewrite ?splice_length, ?length_app; lia).
  rewrite length_app. repeat case_decide; try lia; try done.
  - rewrite lookup_app_r by lia. f_equal. lia.
  - rewrite lookup_app_l by lia. done.
Qed.

(** Programming erased bytes. *)
Lemma land_erased (l : bytes) n :
  bytes_ok l → length l = n → zip_with Z.land (replicate n 0xff) l = l.
Proof.
  intros Hl <-. induction Hl as [|b l Hb _ IH]; [done|]. cbn [length replicate zip_with].
  f_equal; [|done]. change 0xff with (Z.ones 8). rewrite Z.land_comm, Z.land_ones by lia.
  by apply Z.mod_small.
Qed.

(** * Rewriting a block *)

Section Nor.
Context {D : Type} `{NorFlash D} `{Malloc}.

Lemma rewrite_block d a es d1 d2 bak :
  mtd_erase d a es = inr d1 → mtd_write d1 a bak = inr d2 →
  (a + es ≤ length (contents d))%nat → length bak = es → bytes_ok bak →
  contents d2 = splice (contents d) a bak ∧ mtd_info d2 = mtd_info d
  ∧ mtd_present d2 = mtd_present d.
Proof.
  intros He Hw Ha Hl Hb.
  destruct (nor_erase _ _ _ _ He Ha) as (Hc1 & Hi1 & Hp1).
  assert (length (contents d1) = length (contents d)) as Hl1
    by (rewrite Hc1, splice_length; rewrite ?length_replicate; lia).
  destruct (nor_write _ _ _ _ Hw ltac:(lia)) as (Hc2 & Hi2 & Hp2).
  split_and!; [|congruence..]. rewrite Hc2, Hc1.
  replace (take (length bak) (drop a (splice (contents d) a (replicate es 0xff))))
    with (replicate es 0xff).
  - rewrite land_erased by done. apply splice_overwrite; rewrite length_replicate; lia.
  - symmetry. pose proof (load_splice (contents d) a (replicate es 0xff)) as HL.
    rewrite length_replicate in HL. specialize (HL Ha). apply load_Ret in HL as [_ HL].
    by rewrite Hl.
Qed.

(** * The kernel's write *)

Lemma ra_mtd_write_spec d to buf size es :
  mtd_info d = Some (size, es) → (es ≤ size)%nat → (to + length buf ≤ es)%nat → bytes_ok buf →
  ∃ r d', ra_mtd_write_nm d to buf = Ret (r, d') ∧
    (r = 0 → contents d' = splice (contents d) to buf ∧ mtd_info d' = mtd_info d
             ∧ mtd_present d' = mtd_present d).
Proof.
  intros Hi Hes Hto Hb. destruct (nor_geometry _ _ _ Hi) as (Hlen & _).
  unfold ra_mtd_write_nm. rewrite Hi.
  destruct (mtd_present d) eqn:Hp; cbn [negb]; [|eexists _, _; split; [done|]; unfold ENODEV; lia].
  rewrite decide_False by lia.
  destruct (malloc_ok _); cbn [negb]; [|eexists _, _; split; [done|]; unfold ENOMEM; lia].
  destruct (mtd_read d 0 es) as [e|rd] eqn:Hr;
    [apply nor_read_error in Hr; eexists _, _; split; [done|lia]|].
  apply nor_read in Hr; [|lia]. rewrite drop_0 in Hr.
  assert (length rd = es) as Hrd by (rewrite Hr, length_take; lia).
  rewrite Hrd, Nat.sub_diag, app_nil_r. unfold store. rewrite decide_True by lia.
  cbn [mbind outcome_bind].
  destruct (mtd_erase d 0 es) as [e|d1] eqn:He;
    [apply nor_erase_error in He; eexists _, _; split; [done|lia]|].
  destruct (mtd_write d1 0 _) as [e|d2] eqn:Hw;
    [apply nor_write_error in Hw; eexists _, _; split; [done|lia]|].
  eexists _, _. split; [done|]. intros _.
  destruct (rewrite_block _ _ _ _ _ _ He Hw) as (-> & ? & ?).
  - lia.
  - rewrite splice_length; lia.
  - apply splice_bytes_ok; [|done]. rewrite Hr. apply bytes_ok_take, nor_bytes.
  - split_and!; [|congruence..]. rewrite Hr. pose proof (splice_nested (contents d) buf 0 es to) as HS.
    rewrite drop_0 in HS. by apply HS; lia.
Qed.

(** * The user-space write *)

Lemma land_pow2 k x : 0 ≤ k → Z.land x (2 ^ k - 1) = x mod 2 ^ k.
Proof.
  intros Hk. rewrite <-Z.land_ones by done. f_equal. rewrite Z.ones_equiv. lia.
Qed.

Lemma lnot_pow2 k x : 0 ≤ k → Z.land x (Z.lnot (2 ^ k - 1)) = x - x mod 2 ^ k.
Proof.
  intros Hk. replace (2 ^ k - 1) with (Z.ones k) by (rewrite Z.ones_equiv; lia).
  rewrite <-Z.ldiff_land, Z.ldiff_ones_r, Z.shiftl_mul_pow2, Z.shiftr_div_pow2 by done.
  pose proof (Z.div_mod x (2 ^ k)). lia.
Qed.

(** A file position that a whole-block write may use: it is where the data is
    to go, at a block boundary; or the next write is not of a whole block. *)
Definition position_ok (es pos to len : nat) : Prop :=
  (len mod es ≠ 0 ∨ len < es)%nat ∨ pos = to ∧ (to mod es = 0)%nat.

(** Reading back a whole block. *)
Lemma fd_read_block d a es size rd pos :
  mtd_info d = Some (size, es) → (a + es ≤ size)%nat → fd_read d a es = Some (rd, pos) →
  rd = take es (drop a (contents d)) ∧ length rd = es.
Proof.
  intros Hi Ha Hr. destruct (nor_geometry _ _ _ Hi) as (Hlen & _).
  unfold fd_read, size_of in Hr. rewrite Hi, Nat.min_l in Hr by lia.
  destruct (mtd_read d a es) as [|b] eqn:E; [done|]. injection Hr as <- _.
  apply nor_read in E; [|lia]. rewrite E, length_take, length_drop. split; [done|lia].
Qed.

Lemma fd_write_block d a es size b d2 pos ret :
  mtd_info d = Some (size, es) → (a + length b ≤ size)%nat →
  fd_write d a b = Some (d2, pos, ret) →
  mtd_write d a b = inr d2 ∧ pos = (a + length b)%nat ∧ ret = Z.of_nat (length b).
Proof.
  intros Hi Ha Hw. unfold fd_write, size_of in Hw. rewrite Hi, take_ge in Hw by lia.
  destruct (mtd_write d a b); [done|]. by injection Hw as -> -> ->.
Qed.

(** Back up a block, change a piece of it, erase it and write it back. *)
Lemma piece_step d size es a piece data rd p0 d1 d2 pos ret :
  mtd_info d = Some (size, es) → (a + es ≤ size)%nat → (piece + length data ≤ es)%nat → bytes_ok data →
  fd_read d a es = Some (rd, p0) → mtd_erase d a es = inr d1 →
  fd_write d1 a (splice rd piece data) = Some (d2, pos, ret) →
  contents d2 = splice (contents d) (a + piece) data ∧ mtd_info d2 = mtd_info d
  ∧ pos = (a + es)%nat ∧ ret = Z.of_nat es.
Proof.
  intros Hi Ha Hp Hb Hr He Hw. destruct (nor_geometry _ _ _ Hi) as (Hlen & _).
  destruct (fd_read_block _ _ _ _ _ _ Hi Ha Hr) as [Hrd Hrl].
  destruct (nor_erase _ _ _ _ He ltac:(lia)) as (_ & Hi1 & _). rewrite Hi in Hi1.
  assert (length (splice rd piece data) = es) as Hl by (rewrite splice_length; lia).
  eapply fd_write_block in Hw as (Hw' & -> & ->); [|exact Hi1|lia].
  destruct (rewrite_block _ _ _ _ _ _ He Hw') as (-> & ? & _); [lia|done| |].
  { apply splice_bytes_ok; [|done]. rewrite Hrd. apply bytes_ok_take, bytes_ok_drop, nor_bytes. }
  rewrite Hl. split_and!; [|done..]. rewrite Hrd. apply splice_nested; lia.
Qed.

(** Erase a block and write it whole. *)
Lemma block_step d size es to data d1 d2 pos ret :
  mtd_info d = Some (size, es) → (to + es ≤ size)%nat → length data = es → bytes_ok data →
  mtd_erase d to es = inr d1 → fd_write d1 to data = Some (d2, pos, ret) →
  contents d2 = splice (contents d) to data ∧ mtd_info d2 = mtd_info d
  ∧ pos = (to + es)%nat ∧ ret = Z.of_nat es.
Proof.
  intros Hi Hto Hl Hb He Hw. destruct (nor_geometry _ _ _ Hi) as (Hlen & _).
  destruct (nor_erase _ _ _ _ He ltac:(lia)) as (_ & Hi1 & _). rewrite Hi in Hi1.
  eapply fd_write_block in Hw as (Hw' & -> & ->); [|exact Hi1|lia].
  destruct (rewrite_block _ _ _ _ _ _ He Hw') as (-> & ? & _); [lia|done|done|].
  by rewrite Hl.
Qed.

Lemma splice_take_drop (c buf : bytes) to n :
  (to + length buf ≤ length c)%nat → (n ≤ length buf)%nat →
  splice (splice c to (take n buf)) (to + n) (drop n buf) = splice c to buf.
Proof.
  intros Hl Hn. rewrite <-(take_drop n buf) at 3.
  assert (length (take n buf) = n) as Hlen by (rewrite length_take; lia).
  rewrite <-Hlen at 2. apply splice_two. rewrite Hlen, length_drop. lia.
Qed.

(** Where the block of [to] starts, and that it is inside the device. *)
Lemma block_of (to es size : nat) :
  (0 < es)%nat → (size mod es = 0)%nat → (to < size)%nat →
  let a := (to - to mod es)%nat in
  (a + to mod es = to)%nat ∧ (a + es ≤ size)%nat ∧ (a mod es = 0)%nat ∧ (to mod es < es)%nat.
Proof.
  intros Hes Hs Hto a. assert (to mod es < es)%nat by (apply Nat.mod_upper_bound; lia).
  pose proof (Nat.div_mod_eq to es) as Ht. pose proof (Nat.div_mod_eq size es) as Hsz.
  assert (a = es * (to / es))%nat as Ha by (unfold a; lia).
  split_and!; [lia| | |done].
  - assert (to / es < size / es)%nat; [|nia].
    destruct (decide (to / es < size / es)%nat); [done|nia].
  - rewrite Ha, Nat.mul_comm. apply Nat.Div0.mod_mul.
Qed.

(** The loop writes the buffer where it belongs, or fails. *)
Lemma flash_write_loop_spec fuel d size es pos buf to ret :
  mtd_info d = Some (size, es) → (to + length buf ≤ size)%nat → bytes_ok buf →
  (length buf ≤ fuel)%nat → position_ok es pos to (length buf) → 0 ≤ ret →
  ∃ r d', flash_write_loop fuel es d pos buf to ret = Ret (r, d') ∧
    (0 ≤ r → contents d' = splice (contents d) to buf ∧ mtd_info d' = mtd_info d).
Proof.
  revert d pos buf to ret. induction fuel as [|fuel IH]; intros d pos buf to ret Hi Hto Hb Hf Hpos Hret.
  { destruct buf; [|cbn in Hf; lia]. eexists _, _. split; [done|]. by rewrite splice_nil. }
  destruct buf as [|b0 buf0]; [eexists _, _; split; [done|]; by rewrite splice_nil|].
  cbn [flash_write_loop]. set (buf := b0 :: buf0) in *.
  destruct (nor_geometry _ _ _ Hi) as (Hlen & k & Hk & Hk0 & Hmod).
  assert (0 < es)%nat as Hes0 by (assert (0 < 2 ^ k) by lia; lia).
  assert (0 < length buf)%nat by (unfold buf; cbn; lia).
  rewrite Hk, !land_pow2, lnot_pow2, <-Hk by done. rewrite <-!Nat2Z.inj_mod.
  destruct (block_of to es size) as (Hat & Hae & Ham & Hpm); [lia..|].
  destruct (_ || _) eqn:Hbr.
  - destruct (malloc_ok _); cbn [negb]; [|eexists _, _; split; [done|lia]].
    replace (Z.to_nat (Z.of_nat to - Z.of_nat (to mod es))) with (to - to mod es)%nat by lia.
    rewrite Nat2Z.id. set (a := (to - to mod es)%nat) in *. set (piece := (to mod es)%nat) in *.
    destruct (fd_read d a es) as [[rd p0]|] eqn:Hr; [|eexists _, _; split; [done|lia]].
    destruct (fd_read_block _ _ _ _ _ _ Hi Hae Hr) as [_ Hrl].
    rewrite Hrl, Nat.sub_diag, app_nil_r. set (ps := (length buf `min` (es - piece))%nat).
    assert (length (take ps buf) = ps) as Hps by (rewrite length_take; lia).
    unfold store. rewrite decide_True by lia. cbn [mbind outcome_bind].
    destruct (mtd_erase d a es) as [|d1] eqn:He; [eexists _, _; split; [done|lia]|].
    destruct (fd_write d1 a _) as [[[d2 pos2] ret2]|] eqn:Hw; [|eexists _, _; split; [done|lia]].
    destruct (piece_step d size es a piece (take ps buf) rd p0 d1 d2 pos2 ret2 Hi Hae)
      as (Hc2 & Hi2 & -> & ->); [lia|by apply bytes_ok_take|done..|]. rewrite Hat in Hc2. rewrite Hi in Hi2.
    destruct (IH d2 (a + es)%nat (drop ps buf) (to + ps)%nat (Z.of_nat es)) as (r & d' & -> & Hd');
      [done|rewrite length_drop; lia|by apply bytes_ok_drop|rewrite length_drop; lia| |lia|].
    { unfold position_ok. rewrite length_drop. destruct (decide (ps = length buf)).
      - left. right. lia.
      - right. assert (to + ps = a + es)%nat as -> by lia. split; [done|].
        rewrite <-Nat.Div0.add_mod_idemp_l, Ham. apply Nat.Div0.mod_same. }
    eexists _, _. split; [done|]. intros Hr0. destruct (Hd' Hr0) as [-> ->]. rewrite Hc2.
    split; [apply splice_take_drop; lia|congruence].
  - apply orb_false_iff in Hbr as [Hb1 Hb2%bool_decide_eq_false].
    destruct Hpos as [Hpos|[-> Halign]]; [lia|].
    destruct (mtd_erase d to es) as [|d1] eqn:He; [eexists _, _; split; [done|lia]|].
    destruct (fd_write d1 to _) as [[[d2 pos2] ret2]|] eqn:Hw; [|eexists _, _; split; [done|lia]].
    destruct (block_step d size es to (take es buf) d1 d2 pos2 ret2 Hi) as (Hc2 & Hi2 & -> & ->);
      [lia|rewrite length_take; lia|by apply bytes_ok_take|done..|]. rewrite Hi in Hi2.
    destruct (IH d2 (to + es)%nat (drop es buf) (to + es)%nat (Z.of_nat es)) as (r & d' & -> & Hd');
      [done|rewrite length_drop; lia|by apply bytes_ok_drop|rewrite length_drop; lia| |lia|].
    { right. split; [done|]. rewrite <-Nat.Div0.add_mod_idemp_l, Halign. apply Nat.Div0.mod_same. }
    eexists _, _. split; [done|]. intros Hr0. destruct (Hd' Hr0) as [-> ->]. rewrite Hc2.
    split; [apply splice_take_drop; lia|congruence].
Qed.

(** Whole blocks that are not to start the device go astray: they are programmed,
    without an erase, where the file position is, and the blocks at [to] are erased. *)
Definition misplaced (c : bytes) (pos to : nat) (buf : bytes) : bytes :=
  splice (splice c to (replicate (length buf) 0xff)) pos
    (zip_with Z.land (take (length buf) (drop pos c)) buf).

Lemma length_misplaced c pos to buf :
  (pos + length buf ≤ to)%nat → (to + length buf ≤ length c)%nat → length (misplaced c pos to buf) = length c.
Proof.
  intros Hp Ht. unfold misplaced.
  rewrite !splice_length; rewrite ?splice_length, ?length_zip_with, ?length_take, ?length_drop; rewrite ?length_replicate; lia.
Qed.

Lemma lookup_misplaced c pos to buf i :
  (pos + length buf ≤ to)%nat → (to + length buf ≤ length c)%nat →
  misplaced c pos to buf !! i =
    if decide (pos ≤ i < pos + length buf)%nat then
      match c !! i, buf !! (i - pos)%nat with Some x, Some y => Some (Z.land x y) | _, _ => None end
    else if decide (to ≤ i < to + length buf)%nat then Some 0xff else c !! i.
Proof.
  intros Hp Ht. unfold misplaced.
  assert (length (zip_with Z.land (take (length buf) (drop pos c)) buf) = length buf) as Hz
    by (rewrite length_zip_with, length_take, length_drop; lia).
  rewrite lookup_splice, Hz by (rewrite Hz, splice_length; rewrite ?length_replicate; lia).
  case_decide as Hi.
  - rewrite lookup_zip_with, lookup_take_lt, lookup_drop by lia.
    replace (pos + (i - pos))%nat with i by lia.
    destruct (c !! i); cbn; [|done]. by destruct (buf !! (i - pos)%nat).
  - rewrite lookup_splice, length_replicate by (rewrite length_replicate; lia).
    case_decide; [|done]. apply lookup_replicate_2. lia.
Qed.

(** Block by block. *)
Lemma misplaced_blocks c pos to es buf :
  (es ≤ length buf)%nat → (pos + length buf ≤ to)%nat → (to + length buf ≤ length c)%nat →
  misplaced (misplaced c pos to (take es buf)) (pos + es) (to + es) (drop es buf) = misplaced c pos to buf.
Proof.
  intros Hes Hp Ht. assert (length (take es buf) = es) as Hl by (rewrite length_take; lia).
  assert (length (misplaced c pos to (take es buf)) = length c) as Hm by (apply length_misplaced; lia).
  apply list_eq. intros i.
  rewrite lookup_misplaced by (rewrite ?length_drop, ?Hm; lia).
  rewrite !(lookup_misplaced c) by lia. rewrite Hl, length_drop.
  repeat case_decide; try lia; try done.
  - rewrite lookup_drop. replace (es + (i - (pos + es)))%nat with (i - pos)%nat by lia. done.
  - rewrite lookup_take_lt by lia. done.
Qed.

Lemma flash_write_loop_whole fuel d size es pos buf to ret k :
  mtd_info d = Some (size, es) → length buf = (k * es)%nat → (length buf ≤ fuel)%nat →
  (pos + length buf ≤ to)%nat → (to + length buf ≤ size)%nat →
  ∃ r d', flash_write_loop fuel es d pos buf to ret = Ret (r, d') ∧
    (0 ≤ r → contents d' = misplaced (contents d) pos to buf ∧ mtd_info d' = mtd_info d).
Proof.
  revert k d pos buf to ret. induction fuel as [|fuel IH]; intros k d pos buf to ret Hi Hl Hf Hpos Hto.
  { destruct buf; [|cbn in Hf; lia]. eexists _, _. split; [done|]. unfold misplaced. cbn. by rewrite zip_with_nil_r, !splice_nil. }
  destruct buf as [|b0 buf0].
  { eexists _, _. split; [done|]. unfold misplaced. cbn. by rewrite zip_with_nil_r, !splice_nil. }
  destruct (nor_geometry _ _ _ Hi) as (Hlen & e & He & He0 & _).
  assert (0 < es)%nat as Hes by (assert (0 < 2 ^ e) by lia; lia).
  cbn [flash_write_loop]. set (buf := b0 :: buf0) in *.
  destruct k as [|k]; [by cbn in Hl|]. rewrite He, land_pow2, <-He, <-Nat2Z.inj_mod by done.
  assert (length buf mod es = 0)%nat as Hm by (rewrite Hl; apply Nat.Div0.mod_mul).
  destruct (_ || _) eqn:Hbr; [exfalso; apply orb_true_iff in Hbr as [Hbr|Hbr%bool_decide_eq_true]; cbn in *; lia|clear Hbr].
  destruct (mtd_erase d to es) as [|d1] eqn:Her; [eexists _, _; split; [done|lia]|].
  destruct (nor_erase _ _ _ _ Her ltac:(lia)) as (Hc1 & Hi1 & _). rewrite Hi in Hi1.
  assert (length (take es buf) = es) as Hps by (rewrite length_take; lia).
  assert (length (contents d1) = size) as Hl1 by (rewrite Hc1, splice_length; rewrite ?length_replicate; lia).
  destruct (fd_write d1 pos _) as [[[d2 pos2] ret2]|] eqn:Hw; [|eexists _, _; split; [done|lia]].
  eapply fd_write_block in Hw as (Hw & -> & ->); [|exact Hi1|lia].
  destruct (nor_write _ _ _ _ Hw ltac:(lia)) as (Hc2 & Hi2 & _). rewrite Hi1 in Hi2. rewrite Hps in Hc2 |- *.
  destruct (IH k d2 (pos + es)%nat (drop es buf) (to + es)%nat (Z.of_nat es)) as (r & d' & -> & Hd');
    [done|rewrite length_drop; lia..|].
  eexists _, _. split; [done|]. intros Hr. destruct (Hd' Hr) as [-> ->]. split; [|congruence].
  rewrite <-(misplaced_blocks _ pos to es) by lia. f_equal. rewrite Hc2. unfold misplaced. rewrite Hps, Hc1.
  f_equal. f_equal. apply list_eq. intros i. destruct (decide (i < es)%nat) as [Hlt|].
  - rewrite !lookup_take_lt, !lookup_drop, lookup_splice by (rewrite ?length_replicate; lia).
    rewrite length_replicate, decide_False by lia. done.
  - rewrite !lookup_take_ge by lia. done.
Qed.
End Nor.

(** * A NOR flash in memory *)

Record nor_dev := mk_nor { nor_mem : bytes; nor_es : nat }.

Definition nor_ok (d : nor_dev) : bool :=
  bool_decide (bytes_ok (nor_mem d)) && bool_decide (nor_es d ≠ 0%nat)
  && (Z.of_nat (nor_es d) =? 2 ^ Z.log2 (Z.of_nat (nor_es d)))
  && bool_decide (length (nor_mem d) mod nor_es d = 0)%nat.

Definition nor_contents (d : nor_dev) : bytes := if nor_ok d then nor_mem d else [].

#[export] Instance nor_mtd : Mtd nor_dev := {
  mtd_present d := nor_ok d;
  mtd_info d := if nor_ok d then Some (length (nor_mem d), nor_es d) else None;
  mtd_read d from n :=
    if nor_ok d && bool_decide (from + n ≤ length (nor_mem d))%nat
    then inr (take n (drop from (nor_mem d))) else inl (-22);
  mtd_erase d a n :=
    if nor_ok d && bool_decide (a + n ≤ length (nor_mem d))%nat && bool_decide (a mod nor_es d = 0)%nat
    then inr (mk_nor (splice (nor_mem d) a (replicate n 0xff)) (nor_es d)) else inl (-22);
  mtd_write d a b :=
    if nor_ok d && bool_decide (a + length b ≤ length (nor_mem d))%nat
    then inr (mk_nor (splice (nor_mem d) a
                (zip_with Z.land (take (length b) (drop a (nor_mem d))) b)) (nor_es d))
    else inl (-22)
}.

Lemma nor_ok_splice d a b :
  nor_ok d = true → (a + length b ≤ length (nor_mem d))%nat → bytes_ok b →
  nor_ok (mk_nor (splice (nor_mem d) a b) (nor_es d)) = true.
Proof.
  unfold nor_ok. cbn. rewrite !andb_true_iff, !bool_decide_eq_true.
  intros (((? & ?) & ?) & ?) ? ?. split_and!; [by apply splice_bytes_ok|done..|].
  by rewrite splice_length.
Qed.

Lemma zip_land_bytes (l k : bytes) : bytes_ok l → bytes_ok (zip_with Z.land l k).
Proof.
  intros Hl. revert k. induction Hl as [|b l Hb _ IH]; intros [|c k]; constructor; [|by apply IH].
  by apply (land_word 8).
Qed.

#[export] Instance nor_laws : NorFlash nor_dev.
Proof.
  refine {| contents := nor_contents |}.
  - intros d size es Hi. cbn in Hi. unfold nor_contents. destruct (nor_ok d) eqn:Hok; [|done].
    injection Hi as <- <-. split; [done|]. unfold nor_ok in Hok.
    rewrite !andb_true_iff, !bool_decide_eq_true in Hok. destruct Hok as (((? & ?) & Hp) & ?).
    exists (Z.log2 (Z.of_nat (nor_es d))). split_and!; [lia|apply Z.log2_nonneg|done].
  - intros d. unfold nor_contents. destruct (nor_ok d) eqn:Hok; [|constructor].
    unfold nor_ok in Hok. rewrite !andb_true_iff, !bool_decide_eq_true in Hok. tauto.
  - intros d from n b Hr _. cbn in Hr. unfold nor_contents. destruct (nor_ok d); [|done].
    cbn in Hr. by case_bool_decide; simplify_eq.
  - intros d from n e Hr. cbn in Hr. case_match; simplify_eq. lia.
  - intros d a n d' He _. cbn in He. unfold nor_contents. destruct (nor_ok d) eqn:Hok; [|done].
    cbn [andb] in He. repeat case_bool_decide; cbn in He; simplify_eq. cbn.
    rewrite nor_ok_splice; [|done|by rewrite length_replicate|by apply bytes_ok_replicate].
    rewrite Hok, splice_length by (rewrite length_replicate; lia). done.
  - intros d a n e He. cbn in He. case_match; simplify_eq. lia.
  - intros d a b d' Hw _. cbn in Hw. unfold nor_contents. destruct (nor_ok d) eqn:Hok; [|done].
    cbn [andb] in Hw. case_bool_decide; cbn in Hw; simplify_eq. cbn.
    assert (length (zip_with Z.land (take (length b) (drop a (nor_mem d))) b) ≤ length b)%nat
      by (rewrite length_zip_with; lia).
    rewrite nor_ok_splice; [|done|lia|].
    + rewrite Hok, splice_length by lia. done.
    + apply zip_land_bytes, bytes_ok_take, bytes_ok_drop. unfold nor_ok in Hok.
      rewrite !andb_true_iff, !bool_decide_eq_true in Hok. tauto.
  - intros d a b e Hw. cbn in Hw. case_match; simplify_eq. lia.
Defined.

(** * Properties *)

(** C25. [flash_write] on a NOR flash always returns.  When it reports success and
    the buffer is not a whole number of erase blocks, or is to start the device, the
    device holds the buffer at [to] and every other byte is as it was, across block
    boundaries.  When it reports success for whole blocks that are to go elsewhere,
    behind the first blocks of their number, they are lost: the blocks at [to] are
    left erased, and the buffer is programmed over the first blocks of the device,
    without an erase. *)
Theorem flash_write_correct `{NorFlash D} `{Malloc} (d : D) size es buf to :
  mtd_info d = Some (size, es) → (to + length buf ≤ size)%nat → bytes_ok buf →
  ((length buf mod es ≠ 0 ∨ to = 0)%nat →
    ∃ r d', flash_write d buf to = Ret (r, d') ∧
      (0 ≤ r → contents d' = splice (contents d) to buf ∧ mtd_info d' = mtd_info d)) ∧
  ((length buf mod es = 0)%nat → (length buf ≤ to)%nat →
    ∃ r d', flash_write d buf to = Ret (r, d') ∧
      (0 ≤ r →
        contents d' = splice (splice (contents d) to (replicate (length buf) 0xff)) 0
                        (zip_with Z.land (take (length buf) (contents d)) buf) ∧
        mtd_info d' = mtd_info d)).
Proof.
  intros Hi Hto Hb.
  assert (flash_write d buf to = Ret (-1, d)
          ∨ flash_write d buf to = flash_write_loop (length buf) es d 0 buf to 0) as Hfw.
  { unfold flash_write. rewrite Hi. destruct (mtd_present d); cbn [negb]; [right|by left].
    by rewrite decide_False by lia. }
  destruct Hfw as [-> | ->]; [split; intros; (eexists _, _; split; [done|lia])|]. split.
  - intros Hpos. apply (flash_write_loop_spec _ _ size); [done..|lia| |lia].
    destruct Hpos as [?| ->]; [left; by left|right].
    split; [done|]. destruct es; [done|]. apply Nat.Div0.mod_0_l.
  - intros Hmod Hle.
    destruct (flash_write_loop_whole (length buf) d size es 0 buf to 0 (length buf / es)) as (r & d' & -> & Hd');
      [done| |done|lia|done|].
    + pose proof (Nat.div_mod_eq (length buf) es). lia.
    + exists r, d'. split; [done|]. exact Hd'.
Qed.

Definition demo_nor : nor_dev := mk_nor (replicate 32 7) 16.

Lemma flash_write_correct_witness :
  (∃ r d', flash_write (H0:=λ _, true) demo_nor [1; 2; 3; 4; 5; 6] 13 = Ret (r, d') ∧
    (0 ≤ r → contents d' = splice (contents demo_nor) 13 [1; 2; 3; 4; 5; 6]
             ∧ mtd_info d' = mtd_info demo_nor)) ∧
  ∃ r d', flash_write (H0:=λ _, true) demo_nor (replicate 16 1) 16 = Ret (r, d') ∧
    (0 ≤ r → contents d' = replicate 16 1 ++ replicate 16 0xff ∧ mtd_info d' = mtd_info demo_nor).
Proof.
  split.
  - apply (flash_write_correct (H1:=λ _, true) demo_nor 32 16); [by vm_compute|cbn; lia| |left; by vm_compute].
    apply (bool_decide_unpack _). by vm_compute.
  - destruct (flash_write_correct (H1:=λ _, true) demo_nor 32 16 (replicate 16 1) 16) as [_ H];
      [by vm_compute|cbn; lia|apply (bool_decide_unpack _); by vm_compute|].
    destruct H as (r & d' & E & H); [by vm_compute|cbn; lia|]. exists r, d'. split; [exact E|].
    intros Hr. destruct (H Hr) as [Hc Hi]. rewrite Hc, Hi. split; reflexivity.
Defined.

(** C26. The kernel's [ra_mtd_write_nm] is a correct read-modify-write of the
    first erase block: it always returns, and on success exactly the bytes of
    the buffer have changed. *)
Theorem ra_mtd_write_correct `{NorFlash D} `{Malloc} (d : D) to buf size es :
  mtd_info d = Some (size, es) → (es ≤ size)%nat → (to + length buf ≤ es)%nat → bytes_ok buf →
  ∃ r d', ra_mtd_write_nm d to buf = Ret (r, d') ∧
    (r = 0 → contents d' = splice (contents d) to buf ∧ mtd_info d' = mtd_info d
             ∧ mtd_present d' = mtd_present d).
Proof. apply ra_mtd_write_spec. Qed.

Lemma ra_mtd_write_correct_witness :
  ∃ r d', ra_mtd_write_nm (H0:=λ _, true) demo_nor 3 [1; 2] = Ret (r, d') ∧
    (r = 0 → contents d' = splice (contents demo_nor) 3 [1; 2]
             ∧ mtd_info d' = mtd_info demo_nor ∧ mtd_present d' = mtd_present demo_nor).
Proof.
  apply (ra_mtd_write_correct (H1:=λ _, true) demo_nor 3 [1; 2] 32 16);
    [by vm_compute|lia|cbn; lia|apply (bool_decide_unpack _); by vm_compute].
Defined.
