(* ===== verification/Io.v ===== *)
(** The monad of the drivers: a computation that reads and changes a state and can
    fail as C code can ([outcome]), its loops, and total-correctness reasoning
    about it.  The flash driver and the layer above it ([Mtdcore], [Mtdpart],
    [Raspi]) are written in it. *)

From S2P Require Import Prelude.

(** * The monad *)

Definition io (S A : Type) : Type := S → outcome (A * S).

#[export] Instance io_ret S : MRet (io S) := λ A a s, Ret (a, s).
#[export] Instance io_bind S : MBind (io S) := λ A B k c s,
  match c s with Ret (a, s) => k a s | Oob => Oob | NoFuel => NoFuel end.

Section Io.
Context {S : Type}.

Definition gets {A} (f : S → A) : io S A := λ s, Ret (f s, s).
Definition modify (f : S → S) : io S () := λ s, Ret ((), f s).
(** An access outside an object, or through a null pointer. *)
Definition oob {A} : io S A := λ _, Oob.
(** A loop that is still running, or a call that blocks for ever. *)
Definition stuck {A} : io S A := λ _, NoFuel.

Definition when (b : bool) (c : io S ()) : io S () := if b then c else mret ().

(** ** A loop of at most [p] rounds with an early exit

    [inl a]: go on with [a]; [inr b]: leave the loop with [b].  The recursion is
    on the binary number, so that a loop of a million rounds is a small term. *)
Fixpoint rounds {A B} (p : positive) (body : A → io S (A + B)) (a : A) : io S (A + B) :=
  match p with
  | xH => body a
  | xO p => r ← rounds p body a; match r with inl a => rounds p body a | inr b => mret (inr b) end
  | xI p =>
      r ← body a;
      match r with
      | inl a => r ← rounds p body a; match r with inl a => rounds p body a | inr b => mret (inr b) end
      | inr b => mret (inr b)
      end
  end.

(** * Total correctness

    [wp c Q s]: from [s] the computation returns, in a state that satisfies [Q]. *)
Definition wp {A} (c : io S A) (Q : A → S → Prop) (s : S) : Prop :=
  ∃ a s', c s = Ret (a, s') ∧ Q a s'.

Lemma wp_ret {A} (a : A) Q s : Q a s → wp (mret a) Q s.
Proof. by exists a, s. Qed.

Lemma wp_bind {A B} (c : io S A) (k : A → io S B) Q s :
  wp c (λ a, wp (k a) Q) s → wp (c ≫= k) Q s.
Proof.
  intros (a & s1 & Hc & b & s2 & Hk & HQ). exists b, s2. split; [|done].
  unfold mbind, io_bind. by rewrite Hc.
Qed.

Lemma wp_bind_inv {A B} (c : io S A) (k : A → io S B) Q s :
  wp (c ≫= k) Q s → wp c (λ a, wp (k a) Q) s.
Proof.
  intros (b & s2 & E & HQ). revert E. unfold mbind, io_bind. destruct (c s) as [[a s1]| |] eqn:Ec; [|done..].
  intros Ek. exists a, s1. split; [done|]. by exists b, s2.
Qed.

Lemma wp_mono {A} (c : io S A) (P Q : A → S → Prop) s :
  wp c P s → (∀ a s', P a s' → Q a s') → wp c Q s.
Proof. intros (a & s' & Hc & HP) HPQ. exists a, s'. auto. Qed.

Lemma wp_gets {A} (f : S → A) Q s : Q (f s) s → wp (gets f) Q s.
Proof. by eexists _, _. Qed.

Lemma wp_modify f Q s : Q () (f s) → wp (modify f) Q s.
Proof. by eexists _, _. Qed.

Lemma wp_when b c Q s :
  (b = true → wp c Q s) → (b = false → Q () s) → wp (when b c) Q s.
Proof. destruct b; cbn; intros H1 H2; [auto|apply wp_ret; auto]. Qed.

(** ** The loop rule

    Every round that goes on makes the measure smaller. *)
Section Rounds.
Context {A B : Type} (body : A → io S (A + B)) (I : Z → A → S → Prop) (Q : B → S → Prop).

Definition goes_on (n : Z) (r : A + B) (s : S) : Prop :=
  match r with inl a => ∃ n', n' ≤ n ∧ I n' a s | inr b => Q b s end.

Lemma rounds_measure p n a s :
  (∀ n a s, I n a s → wp (body a) (goes_on (n - 1)) s) →
  I n a s → wp (rounds p body a) (goes_on (n - Z.pos p)) s.
Proof.
  intros body_ok. revert n a s. assert (∀ m n r s, m ≤ n → goes_on m r s → goes_on n r s) as Hmono.
  { intros m n [a|b] s Hmn; [|done]. intros (n' & ? & ?). exists n'. split; [lia|done]. }
  induction p as [p IH|p IH|]; intros n a s Ha; cbn [rounds].
  - apply wp_bind. eapply wp_mono; [by apply body_ok|]. intros [a1|b] s1 H1; [|by apply wp_ret].
    destruct H1 as (n1 & Hn1 & H1). apply wp_bind. eapply wp_mono; [by eapply IH|].
    intros [a2|b] s2 H2; [|by apply wp_ret]. destruct H2 as (n2 & Hn2 & H2).
    eapply wp_mono; [by eapply IH|]. intros r s3. apply Hmono. lia.
  - apply wp_bind. eapply wp_mono; [by eapply IH|].
    intros [a2|b] s2 H2; [|by apply wp_ret]. destruct H2 as (n2 & Hn2 & H2).
    eapply wp_mono; [by eapply IH|]. intros r s3. apply Hmono. lia.
  - by apply body_ok.
Qed.

(** With a round for all of the measure, the loop leaves early. *)
Lemma wp_rounds p n a s (R : A + B → S → Prop) :
  I n a s → n < Z.pos p → (∀ n a s, I n a s → 0 ≤ n) →
  (∀ n a s, I n a s → wp (body a) (goes_on (n - 1)) s) →
  (∀ b s', Q b s' → R (inr b) s') →
  wp (rounds p body a) R s.
Proof.
  intros Ha Hp Hpos Hbody HR. eapply wp_mono; [by apply rounds_measure|]. intros [a'|b] s'; [|by apply HR].
  intros (n' & ? & H'). apply Hpos in H'. lia.
Qed.
End Rounds.

End Io.

(** Go through the code of a computation. *)
Ltac wp_step :=
  lazymatch goal with
  | |- wp (_ ≫= _) _ _ => apply wp_bind
  | |- wp (mret _) _ _ => apply wp_ret
  | |- wp (gets _) _ _ => apply wp_gets
  | |- wp (modify _) _ _ => apply wp_modify
  end.
Ltac wp_steps := repeat (wp_step; cbn beta iota).
