(* ===== verification/Mtdpart.v ===== *)
(** The MTD layer of the kernel above a flash driver: the table of devices of
    [drivers/mtd/mtdcore.c] and the partitions of [drivers/mtd/mtdpart.c].

    The driver is an instance of [MtdMaster].  Partition objects live in a heap and
    are known by address.  The notifiers of the table, module reference counts
    and the optional methods that the driver of the SDK does not have
    (out-of-band data, bad blocks, protection registers, power) are left out, and
    so is [mtdp], which its partition table does not use. *)

From S2P Require Import Prelude Flash Io.
From stdpp Require Export gmap strings.
#[global] Open Scope Z_scope.
#[global] Open Scope fw_scope.

Definition EIO : Z := 5.
Definition EBUSY : Z := 16.
Definition EINVAL : Z := 22.
Definition EROFS : Z := 30.
Definition EBADMSG : Z := 77.
Definition EUCLEAN : Z := 135.

Definition MTD_WRITEABLE : Z := 0x400.
Definition MTD_BIT_WRITEABLE : Z := 0x800.
Definition MTD_STUPID_LOCK : Z := 0x2000.
Definition MTD_CAP_NORFLASH : Z := Z.lor MTD_WRITEABLE MTD_BIT_WRITEABLE.
Definition MTD_NORFLASH : Z := 3.
Definition MTD_ERASE_DONE : Z := 0x08.
Definition MTD_ERASE_FAILED : Z := 0x10.
Definition MAX_MTD_DEVICES : nat := 32.

(** * Objects *)

(** [struct mtd_info]; the methods are the functions below. *)
Record mtd_info_t := {
  mtd_name : string;
  mtd_type : Z;
  mtd_flags : Z;
  mtd_size : Z;
  mtd_erasesize : Z;
  mtd_writesize : Z;
  mtd_index : nat;
  (** [eraseregions]: the offset and the erase size of each. *)
  mtd_regions : list (Z * Z);
  ecc_corrected : Z;
  ecc_failed : Z;
  mtd_usecount : Z
}.
#[export] Instance mtd_info_eta : Eta mtd_info_t := λ r,
  {| mtd_name := mtd_name r; mtd_type := mtd_type r; mtd_flags := mtd_flags r;
     mtd_size := mtd_size r; mtd_erasesize := mtd_erasesize r; mtd_writesize := mtd_writesize r;
     mtd_index := mtd_index r; mtd_regions := mtd_regions r; ecc_corrected := ecc_corrected r;
     ecc_failed := ecc_failed r; mtd_usecount := mtd_usecount r |}.

(** What [kzalloc] leaves in it. *)
Definition mtd_zero : mtd_info_t :=
  {| mtd_name := ""; mtd_type := 0; mtd_flags := 0; mtd_size := 0; mtd_erasesize := 0;
     mtd_writesize := 0; mtd_index := 0; mtd_regions := []; ecc_corrected := 0; ecc_failed := 0;
     mtd_usecount := 0 |}.

(** [struct mtd_part]; [part_master] is the address of the master. *)
Record mtd_part := {
  part_mtd : mtd_info_t;
  part_master : nat;
  part_offset : Z;
  part_index : nat;
  part_registered : bool
}.
#[export] Instance mtd_part_eta : Eta mtd_part := λ r,
  {| part_mtd := part_mtd r; part_master := part_master r; part_offset := part_offset r;
     part_index := part_index r; part_registered := part_registered r |}.

(** [struct mtd_partition], a line of a partition table. *)
Record mtd_partition := {
  p_name : string;
  p_size : Z;
  p_offset : Z;
  p_mask_flags : Z
}.
Definition MTDPART_OFS_NXTBLK : Z := u32 (-2).
Definition MTDPART_OFS_APPEND : Z := u32 (-1).
Definition MTDPART_SIZ_FULL : Z := 0.

(** [struct erase_info].  [ei_mtd]: the partition the request was made on, or
    [None] for the master.  [ei_calls] counts the calls of its callback. *)
Record erase_info := {
  ei_mtd : option nat;
  ei_addr : Z;
  ei_len : Z;
  ei_fail_addr : Z;
  ei_state : Z;
  ei_callback : bool;
  ei_calls : nat
}.
#[export] Instance erase_info_eta : Eta erase_info := λ r,
  {| ei_mtd := ei_mtd r; ei_addr := ei_addr r; ei_len := ei_len r; ei_fail_addr := ei_fail_addr r;
     ei_state := ei_state r; ei_callback := ei_callback r; ei_calls := ei_calls r |}.

(** * The driver below

    [drv_read from len retlen buf] gives the return value and what is behind
    [retlen] ([None]: a null pointer) and [buf] afterwards.  [drv_erase] gets the
    [mtd_erase_callback] it calls. *)
Class MtdMaster (D : Type) := {
  drv_read : Z → Z → option Z → bytes → io D (Z * option Z * bytes);
  drv_write : Z → Z → option Z → bytes → io D (Z * option Z);
  drv_erase : (erase_info → erase_info) → mtd_info_t → erase_info → io D (Z * erase_info);
  drv_lock : Z → Z → io D Z;
  drv_unlock : Z → Z → io D Z
}.

(** Whether the [n]-th [kzalloc] of a partition succeeds. *)
Class Kzalloc := kzalloc_ok : nat → bool.

(** The driver, the partition objects, the list [mtd_partitions] and the table
    [mtd_table] of [MAX_MTD_DEVICES] devices. *)
Record mtd_core (D : Type) := mk_core {
  drv : D;
  slaves : gmap nat mtd_part;
  next_slave : nat;
  mtd_partitions : list nat;
  mtd_table : list (option nat)
}.
Arguments drv {D} _.
Arguments slaves {D} _.
Arguments next_slave {D} _.
Arguments mtd_partitions {D} _.
Arguments mtd_table {D} _.
Arguments mk_core {D} _ _ _ _ _.
#[export] Instance mtd_core_eta D : Eta (mtd_core D) := λ r,
  {| drv := drv r; slaves := slaves r; next_slave := next_slave r;
     mtd_partitions := mtd_partitions r; mtd_table := mtd_table r |}.

Section Mtdpart.
Context {D : Type} `{MtdMaster D} `{Kzalloc}.
Local Abbreviation core := (mtd_core D).

(** Run the driver. *)
Definition in_drv {A} (c : io D A) : io core A := λ s,
  match c (drv s) with Ret (a, d) => Ret (a, s ⦃ drv := d ⦄) | Oob => Oob | NoFuel => NoFuel end.

(** Follow a pointer to a partition; store through it; free it. *)
Definition slave (p : nat) : io core mtd_part := λ s,
  match slaves s !! p with Some part => Ret (part, s) | None => Oob end.
Definition set_slave (p : nat) (part : mtd_part) : io core () :=
  modify (λ s, s ⦃ slaves := <[p := part]> (slaves s) ⦄).
Definition kfree (p : nat) : io core () := modify (λ s, s ⦃ slaves := delete p (slaves s) ⦄).

(** * Reading, writing, erasing and locking a partition ([mtdpart.c]) *)

Definition clip (size from len : Z) : Z :=
  if size <=? from then 0 else if size <? from + len then u32 (size - from) else len.

Definition part_read (mtd : nat) (from len : Z) (retlen : option Z) (buf : bytes) :
    io core (Z * option Z * bytes) :=
  part ← slave mtd;
  let len := clip (mtd_size (part_mtd part)) from len in
  '(res, retlen, buf) ← in_drv (drv_read (from + part_offset part) len retlen buf);
  when (negb (res =? 0))
    (when (res =? - EUCLEAN)
       (set_slave mtd (part ⦃ part_mtd / ecc_corrected := ecc_corrected (part_mtd part) + 1 ⦄));;
     when (res =? - EBADMSG)
       (set_slave mtd (part ⦃ part_mtd / ecc_failed := ecc_failed (part_mtd part) + 1 ⦄)));;
  mret (res, retlen, buf).

Definition writeable (m : mtd_info_t) : bool := negb (Z.land (mtd_flags m) MTD_WRITEABLE =? 0).

Definition part_write (mtd : nat) (to len : Z) (retlen : option Z) (buf : bytes) :
    io core (Z * option Z) :=
  part ← slave mtd;
  if negb (writeable (part_mtd part)) then mret (- EROFS, retlen)
  else
    let len := clip (mtd_size (part_mtd part)) to len in
    in_drv (drv_write (to + part_offset part) len retlen buf).

(** [mtd_erase_callback]: undo the translation of a partition's address, and call
    the requester.  It reads the partitions [h]. *)
Definition mtd_erase_callback (h : gmap nat mtd_part) (instr : erase_info) : erase_info :=
  let instr :=
    match ei_mtd instr ≫= λ p, h !! p with
    | Some part =>
        let instr :=
          if negb (ei_fail_addr instr =? 0xffffffff)
          then instr ⦃ ei_fail_addr := u32 (ei_fail_addr instr - part_offset part) ⦄ else instr in
        instr ⦃ ei_addr := u32 (ei_addr instr - part_offset part) ⦄
    | None => instr
    end in
  if ei_callback instr then instr ⦃ ei_calls := S (ei_calls instr) ⦄ else instr.

(** [master] is the [struct mtd_info] of the driver. *)
Definition part_erase (master : mtd_info_t) (mtd : nat) (instr : erase_info) : io core (Z * erase_info) :=
  part ← slave mtd;
  if negb (writeable (part_mtd part)) then mret (- EROFS, instr)
  else if mtd_size (part_mtd part) <=? ei_addr instr then mret (- EINVAL, instr)
  else
    let instr := instr ⦃ ei_addr := u32 (ei_addr instr + part_offset part) ⦄ in
    h ← gets slaves;
    '(ret, instr) ← in_drv (drv_erase (mtd_erase_callback h) master instr);
    if negb (ret =? 0) then
      let instr :=
        if negb (ei_fail_addr instr =? 0xffffffff)
        then instr ⦃ ei_fail_addr := u32 (ei_fail_addr instr - part_offset part) ⦄ else instr in
      mret (ret, instr ⦃ ei_addr := u32 (ei_addr instr - part_offset part) ⦄)
    else mret (ret, instr).

Definition part_lock (mtd : nat) (ofs len : Z) : io core Z :=
  part ← slave mtd;
  if mtd_size (part_mtd part) <? len + ofs then mret (- EINVAL)
  else in_drv (drv_lock (ofs + part_offset part) len).

Definition part_unlock (mtd : nat) (ofs len : Z) : io core Z :=
  part ← slave mtd;
  if mtd_size (part_mtd part) <? len + ofs then mret (- EINVAL)
  else in_drv (drv_unlock (ofs + part_offset part) len).

(** * The table of devices ([mtdcore.c]) *)

Definition set_table (i : nat) (v : option nat) : io core () :=
  modify (λ s, s ⦃ mtd_table := <[i := v]> (mtd_table s) ⦄).

(** The first free slot; [BUG_ON] stops the kernel. *)
Definition add_mtd_device (mtd : nat) : io core Z :=
  part ← slave mtd;
  if mtd_writesize (part_mtd part) =? 0 then stuck
  else
    t ← gets mtd_table;
    match list_find (λ d, d = None) t with
    | None => mret 1
    | Some (i, _) =>
        set_table i (Some mtd);;
        let part := part ⦃ part_mtd / mtd_index := i ⦄ in
        set_slave mtd (part ⦃ part_mtd / mtd_usecount := 0 ⦄);;
        when (writeable (part_mtd part) && negb (Z.land (mtd_flags (part_mtd part)) MTD_STUPID_LOCK =? 0))
          (part_unlock mtd 0 (mtd_size (part_mtd part));; mret ());;
        mret 0
    end.

Definition del_mtd_device (mtd : nat) : io core Z :=
  part ← slave mtd;
  t ← gets mtd_table;
  match t !! mtd_index (part_mtd part) with
  | None => oob
  | Some d =>
      if negb (bool_decide (d = Some mtd)) then mret (- ENODEV)
      else if negb (mtd_usecount (part_mtd part) =? 0) then mret (- EBUSY)
      else set_table (mtd_index (part_mtd part)) None;; mret 0
  end.

(** Take a reference to a device that has been found. *)
Definition use_device (d : option nat) : io core (Z + nat) :=
  match d with
  | None => mret (inl (- ENODEV))
  | Some p =>
      part ← slave p;
      set_slave p (part ⦃ part_mtd / mtd_usecount := mtd_usecount (part_mtd part) + 1 ⦄);;
      mret (inr p)
  end.

Definition get_mtd_device (mtd : option nat) (num : Z) : io core (Z + nat) :=
  t ← gets mtd_table;
  if num =? -1 then use_device (if decide (mtd ∈ t) then mtd else None)
  else if num <? 0 then oob
  else if num <? Z.of_nat MAX_MTD_DEVICES then
    match t !! Z.to_nat num with
    | None => oob
    | Some d => use_device (if bool_decide (is_Some mtd ∧ mtd ≠ d) then None else d)
    end
  else use_device None.

(** The first device of that name in the table. *)
Fixpoint find_name (h : gmap nat mtd_part) (name : string) (t : list (option nat)) : option nat :=
  match t with
  | [] => None
  | d :: t =>
      match d ≫= λ p, h !! p with
      | Some part => if bool_decide (mtd_name (part_mtd part) = name) then d else find_name h name t
      | None => find_name h name t
      end
  end.

Definition get_mtd_device_nm (name : string) : io core (Z + nat) :=
  t ← gets mtd_table;
  h ← gets slaves;
  use_device (find_name h name t).

(** [BUG_ON(c < 0)]. *)
Definition put_mtd_device (mtd : nat) : io core () :=
  part ← slave mtd;
  let c := mtd_usecount (part_mtd part) - 1 in
  set_slave mtd (part ⦃ part_mtd / mtd_usecount := c ⦄);;
  if c <? 0 then stuck else mret ().

(** * Making and removing partitions ([mtdpart.c]) *)

Fixpoint for_each {A} (l : list A) (f : A → io core ()) : io core () :=
  match l with [] => mret () | a :: l => f a;; for_each l f end.

Definition del_mtd_partitions (master : nat) : io core Z :=
  nodes ← gets mtd_partitions;
  for_each nodes (λ p,
    part ← slave p;
    when (bool_decide (part_master part = master))
      (modify (λ s, s ⦃ mtd_partitions := filter (λ q, q ≠ p) (mtd_partitions s) ⦄);;
       when (part_registered part) (del_mtd_device p;; mret ());;
       kfree p));;
  mret 0.

(** The loops over [eraseregions]: the regions that start at or before [off], and
    the largest erase size from the last of these up to [fin]. *)
Fixpoint first_region (regions : list (Z * Z)) (off : Z) : nat :=
  match regions with
  | [] => 0
  | (o, _) :: regions => if o <=? off then S (first_region regions off) else 0
  end.
Fixpoint max_region (regions : list (Z * Z)) (fin es : Z) : Z :=
  match regions with
  | [] => es
  | (o, e) :: regions => if o <? fin then max_region regions fin (if es <? e then e else es) else es
  end.

(** Where a partition goes: its offset, its size and the next [cur_offset]. *)
Definition place (m : mtd_info_t) (parts_i : mtd_partition) (cur_offset : Z) : Z * Z * Z :=
  let offset := p_offset parts_i in
  let offset := if offset =? MTDPART_OFS_APPEND then cur_offset else offset in
  let offset :=
    if offset =? MTDPART_OFS_NXTBLK then
      if negb (cur_offset mod mtd_erasesize m =? 0)
      then u32 ((cur_offset / mtd_erasesize m + 1) * mtd_erasesize m)
      else cur_offset
    else offset in
  let size := if p_size parts_i =? MTDPART_SIZ_FULL then u32 (mtd_size m - offset) else p_size parts_i in
  let cur_offset := u32 (offset + size) in
  let '(offset, size) := if mtd_size m <=? offset then (0, 0) else (offset, size) in
  let size := if mtd_size m <? u32 (offset + size) then u32 (mtd_size m - offset) else size in
  (offset, size, cur_offset).

(** The partition object for line [i] of the table. *)
Definition make_part (master : nat) (m : mtd_info_t) (i : nat) (parts_i : mtd_partition) (cur_offset : Z) :
    outcome (mtd_part * Z) :=
  let '(offset, size, cur_offset) := place m parts_i cur_offset in
  let flags := Z.land (mtd_flags m) (Z.lnot (p_mask_flags parts_i)) in
  let* erasesize :=
    if (1 <? length (mtd_regions m))%nat then
      match first_region (mtd_regions m) offset with
      | O => Oob
      | S j => Ret (max_region (drop j (mtd_regions m)) (u32 (offset + size)) 0)
      end
    else Ret (mtd_erasesize m) in
  let flags :=
    if negb (Z.land flags MTD_WRITEABLE =? 0) && negb (offset mod erasesize =? 0)
    then Z.land flags (Z.lnot MTD_WRITEABLE) else flags in
  let flags :=
    if negb (Z.land flags MTD_WRITEABLE =? 0) && negb (size mod erasesize =? 0)
    then Z.land flags (Z.lnot MTD_WRITEABLE) else flags in
  Ret ({| part_mtd := {| mtd_name := p_name parts_i; mtd_type := mtd_type m; mtd_flags := flags;
                         mtd_size := size; mtd_erasesize := erasesize; mtd_writesize := mtd_writesize m;
                         mtd_index := 0; mtd_regions := []; ecc_corrected := 0; ecc_failed := 0;
                         mtd_usecount := 0 |};
          part_master := master; part_offset := offset; part_index := i; part_registered := false |},
       cur_offset).

(** The object is put into the list when it is allocated, and filled in after. *)
Fixpoint add_parts (master : nat) (m : mtd_info_t) (parts : list mtd_partition) (i : nat) (cur_offset : Z) :
    io core Z :=
  match parts with
  | [] => mret 0
  | parts_i :: parts =>
      n ← gets next_slave;
      if negb (kzalloc_ok n) then del_mtd_partitions master;; mret (- ENOMEM)
      else
        modify (λ s, s ⦃ next_slave := S n ⦄ ⦃ mtd_partitions := n :: mtd_partitions s ⦄);;
        match make_part master m i parts_i cur_offset with
        | Ret (part, cur_offset) =>
            set_slave n part;;
            add_mtd_device n;;
            part ← slave n;
            set_slave n (part ⦃ part_registered := true ⦄);;
            add_parts master m parts (S i) cur_offset
        | Oob => oob
        | NoFuel => stuck
        end
  end.

Definition add_mtd_partitions (master : nat) (m : mtd_info_t) (parts : list mtd_partition) : io core Z :=
  add_parts master m parts 0 0.

End Mtdpart.
