(* ===== verification/RaMtd.v ===== *)
(** The flash functions of the kernel, [ra_mtd_read_nm] and [ra_mtd_write_nm] of
    [drivers/mtd/maps/ralink-flash.c], over the device table and the partitions of
    [Mtdpart].  [Flash] has the same functions over an abstract device, which is
    what the NVRAM driver is verified on; [RaMtdProps] relates the two. *)

From S2P Require Import Prelude Flash Io Mtdpart.
#[global] Open Scope Z_scope.
#[global] Open Scope fw_scope.

Section RaMtd.
Context {D : Type} `{MtdMaster D} `{Malloc}.
Local Abbreviation core := (mtd_core D).

(** What an uninitialised variable holds. *)
Definition garbage : Z := 0xa5a5a5a5.

(** The return value and the buffer. *)
Definition ra_mtd_read_nm (name : string) (from len : Z) (buf : bytes) : io core (Z * bytes) :=
  d ← get_mtd_device_nm name;
  match d with
  | inl e => mret (e, buf)
  | inr mtd =>
      '(ret, _, buf) ← part_read mtd from len (Some garbage) buf;
      put_mtd_device mtd;;
      mret (ret, buf)
  end.

(** [memcpy] of [len] bytes of [buf] into the backup. *)
Definition ra_mtd_write_nm (master : mtd_info_t) (name : string) (to len : Z) (buf : bytes) : io core Z :=
  d ← get_mtd_device_nm name;
  match d with
  | inl e => mret e
  | inr mtd =>
      part ← slave mtd;
      let erasesize := mtd_erasesize (part_mtd part) in
      if erasesize <? len then put_mtd_device mtd;; mret (- E2BIG)
      else if negb (malloc_ok erasesize) then put_mtd_device mtd;; mret (- ENOMEM)
      else
        '(ret, _, bak) ← part_read mtd 0 erasesize (Some garbage) (uninit (Z.to_nat erasesize));
        if negb (ret =? 0) then put_mtd_device mtd;; mret ret
        else
          match (let* data := load buf 0 (Z.to_nat len) in store bak (Z.to_nat to) data) with
          | Ret bak =>
              let ei := {| ei_mtd := Some mtd; ei_addr := 0; ei_len := erasesize; ei_fail_addr := garbage;
                           ei_state := garbage; ei_callback := false; ei_calls := 0 |} in
              '(ret, _) ← part_erase master mtd ei;
              if negb (ret =? 0) then put_mtd_device mtd;; mret ret
              else
                '(ret, _) ← part_write mtd 0 erasesize (Some garbage) bak;
                put_mtd_device mtd;;
                mret ret
          | _ => oob
          end
  end.

End RaMtd.
