(* ===== verification/Raspi.v ===== *)
(** The driver of the SPI flash, [drivers/mtd/ralink/ralink_spi.c], in the
    configuration of the SDK's RT5350 boards: the legacy mode of the controller (no
    [COMMAND_MODE]), normal reads, a root file system in RAM, one image.

    The registers and the passing of time are the class [SpiHw]; what a
    controller with a flash chip promises about them is in [SpiChip].  [printk],
    the fields of [mtd_info] that only messages use and [raspi_set_lock], which
    nothing calls, are left out. *)

From S2P Require Import Prelude Flash Io Mtdpart.
#[global] Open Scope Z_scope.
#[global] Open Scope fw_scope.

(** * Constants ([ralink_spi.c], [ralink_spi.h], [rt_mmap.h]) *)

Definition FLASH_PAGESIZE : Z := 256.

Definition OPCODE_WREN : Z := 6.
Definition OPCODE_RDSR : Z := 5.
Definition OPCODE_WRDI : Z := 4.
Definition OPCODE_WRSR : Z := 1.
Definition OPCODE_READ : Z := 3.
Definition OPCODE_PP : Z := 2.
Definition OPCODE_SE : Z := 0xD8.
Definition OPCODE_RDID : Z := 0x9F.
Definition OPCODE_CLSR : Z := 0x30.
Definition OPCODE_BRRD : Z := 0x16.
Definition OPCODE_BRWR : Z := 0x17.

Definition SR_WIP : Z := 1.
Definition SR_BP0 : Z := 4.
Definition SR_BP1 : Z := 8.
Definition SR_BP2 : Z := 0x10.
Definition SR_EPE : Z := 0x20.

Definition RALINK_SYSCTL_BASE : Z := 0xB0000000.
Definition RALINK_SPI_BASE : Z := 0xB0000B00.
Definition RSTCTRL_SPI_RESET : Z := Z.shiftl 1 18.
Definition RT2880_RSTCTRL_REG : Z := RALINK_SYSCTL_BASE + 0x34.
Definition RALINK_REG_GPIOMODE : Z := RALINK_SYSCTL_BASE + 0x60.
Definition RT2880_SPISTAT_REG : Z := RALINK_SPI_BASE + 0x00.
Definition RT2880_SPICFG_REG : Z := RALINK_SPI_BASE + 0x10.
Definition RT2880_SPICTL_REG : Z := RALINK_SPI_BASE + 0x14.
Definition RT2880_SPIDATA_REG : Z := RALINK_SPI_BASE + 0x20.
Definition RT2880_SPI_DMA : Z := RALINK_SPI_BASE + 0x80.
Definition RT2880_SPI0_CTL_REG : Z := RT2880_SPICTL_REG.

Definition SPICFG_MSBFIRST : Z := Z.shiftl 1 8.
Definition SPICFG_TXCLKEDGE_FALLING : Z := Z.shiftl 1 4.
Definition SPICFG_SPICLKPOL : Z := Z.shiftl 1 6.
Definition SPICFG_SPICLK_DIV8 : Z := 2.
Definition CFG_CLK_DIV : Z := SPICFG_SPICLK_DIV8.
Definition SPICFG_ADDRMODE : Z := Z.shiftl 1 12.
Definition SPICTL_HIZSDO : Z := Z.shiftl 1 3.
Definition SPICTL_STARTWR : Z := Z.shiftl 1 2.
Definition SPICTL_STARTRD : Z := Z.shiftl 1 1.
Definition SPICTL_SPIENA_HIGH : Z := 1.
Definition SPIARB_SPI0_ACTIVE_MODE : Z := 0.

Definition SPIC_READ_BYTES : Z := 1.
Definition SPIC_WRITE_BYTES : Z := 2.

(** [SPICFG_MSBFIRST | SPICFG_TXCLKEDGE_FALLING | CFG_CLK_DIV | SPICFG_SPICLKPOL]. *)
Definition SPI_MODE : Z :=
  Z.lor (Z.lor (Z.lor SPICFG_MSBFIRST SPICFG_TXCLKEDGE_FALLING) CFG_CLK_DIV) SPICFG_SPICLKPOL.

(** Byte [n] of a number, as the assignment to a [u8] takes it. *)
Definition byte_of (z n : Z) : Z := u8 (Z.shiftr z (8 * n)).

(** * State *)

(** Reading and writing a register, [udelay] of some microseconds and
    [schedule_timeout_interruptible], which gives the jiffies left. *)
Class SpiHw (HW : Type) := {
  hw_read : Z → HW → Z * HW;
  hw_write : Z → Z → HW → HW;
  hw_udelay : Z → HW → HW;
  hw_schedule : Z → HW → Z * HW
}.

Record chip_info := mk_chip {
  chip_name : string;
  chip_id : Z;
  jedec_id : Z;
  sector_size : Z;
  n_sectors : Z;
  addr4b : bool
}.

(** [struct flash_info]; the semaphore is taken or not. *)
Record flash_info := {
  flash_lock : bool;
  flash_mtd : mtd_info_t;
  flash_chip : chip_info;
  command : bytes
}.
#[export] Instance flash_info_eta : Eta flash_info := λ r,
  {| flash_lock := flash_lock r; flash_mtd := flash_mtd r; flash_chip := flash_chip r;
     command := command r |}.

(** The hardware and the globals [spi_wait_nsec] and [flash]. *)
Record raspi (HW : Type) := mk_raspi {
  hw : HW;
  spi_wait_nsec : Z;
  flash : option flash_info
}.
Arguments hw {HW} _.
Arguments spi_wait_nsec {HW} _.
Arguments flash {HW} _.
Arguments mk_raspi {HW} _ _ _.
#[export] Instance raspi_eta HW : Eta (raspi HW) := λ r,
  {| hw := hw r; spi_wait_nsec := spi_wait_nsec r; flash := flash r |}.

Section Raspi.
Context {HW : Type} `{SpiHw HW}.
Local Abbreviation M := (io (raspi HW)).

(** * Registers *)

Definition ra_inl (addr : Z) : M Z := λ s,
  let '(v, h) := hw_read addr (hw s) in Ret (v, s ⦃ hw := h ⦄).
Definition ra_outl (addr value : Z) : M () := modify (λ s, s ⦃ hw := hw_write addr (u32 value) (hw s) ⦄).
Definition ra_aor (addr a_mask o_value : Z) : M () :=
  v ← ra_inl addr; ra_outl addr (Z.lor (Z.land v a_mask) o_value).
Definition ra_and (addr a_mask : Z) : M () := ra_aor addr a_mask 0.
Definition ra_or (addr o_value : Z) : M () := ra_aor addr (-1) o_value.
Definition udelay (n : Z) : M () := modify (λ s, s ⦃ hw := hw_udelay n (hw s) ⦄).
Definition schedule_timeout_interruptible (n : Z) : M Z := λ s,
  let '(v, h) := hw_schedule n (hw s) in Ret (v, s ⦃ hw := h ⦄).

(** [usecs_to_jiffies] with [HZ] = 250. *)
Definition usecs_to_jiffies (u : Z) : Z := (u + 3999) / 4000.

Definition usleep (usecs : Z) : M () :=
  r ← rounds 16 (λ timeout,
        if timeout =? 0 then mret (inr ())
        else timeout ← schedule_timeout_interruptible timeout; mret (inl timeout))
      (usecs_to_jiffies usecs);
  match r with inr _ => mret () | inl _ => stuck end.

(** * Transfers *)

(** The loop reads the status until a byte has gone through; with a small
    [spi_wait_nsec] it gives up at once. *)
Definition spic_busy_wait : M Z :=
  r ← rounds 256 (λ _ : (),
        v ← ra_inl RT2880_SPISTAT_REG;
        if Z.land v 0x01 =? 0 then mret (inr 0)
        else
          w ← gets spi_wait_nsec;
          if Z.shiftr w 1 =? 0 then mret (inr (-1)) else mret (inl ())) ();
  match r with inr z => mret z | inl _ => stuck end.

(** Shift out the bytes of [l]: the number sent, and whether all were. *)
Fixpoint spic_send (l : bytes) (retval : Z) : M (Z * bool) :=
  match l with
  | [] => mret (retval, true)
  | b :: l =>
      ra_outl RT2880_SPIDATA_REG b;;
      ra_or RT2880_SPICTL_REG SPICTL_STARTWR;;
      e ← spic_busy_wait;
      if negb (e =? 0) then mret (retval, false) else spic_send l (retval + 1)
  end.

(** Shift in [n] bytes to [buf] from [retval] on. *)
Fixpoint spic_receive (n : nat) (buf : bytes) (retval : nat) : M (Z * bytes) :=
  match n with
  | O => mret (Z.of_nat retval, buf)
  | S n =>
      ra_or RT2880_SPICTL_REG SPICTL_STARTRD;;
      e ← spic_busy_wait;
      if negb (e =? 0) then mret (Z.of_nat retval, buf)
      else
        v ← ra_inl RT2880_SPIDATA_REG;
        match store buf retval [u8 v] with
        | Ret buf => spic_receive n buf (S retval)
        | _ => oob
        end
  end.

(** [cmd] holds [n_cmd] bytes.  The return value and the buffer. *)
Definition spic_transfer (cmd buf : bytes) (n_buf : nat) (flag : Z) : M (Z * bytes) :=
  ra_outl RT2880_SPICFG_REG SPI_MODE;;
  ra_and RT2880_SPICTL_REG (Z.lnot SPICTL_SPIENA_HIGH);;
  '(retval, ok) ← spic_send cmd 0;
  r ← (if negb ok then mret (-1, buf)
       else if negb (Z.land flag SPIC_READ_BYTES =? 0) then spic_receive n_buf buf 0
       else if negb (Z.land flag SPIC_WRITE_BYTES =? 0) then
         match load buf 0 n_buf with
         | Ret data => '(retval, _) ← spic_send data 0; mret (retval, buf)
         | _ => oob
         end
       else mret (retval, buf));
  ra_or RT2880_SPICTL_REG SPICTL_SPIENA_HIGH;;
  mret r.

Definition spic_read (cmd rxbuf : bytes) (n_rx : nat) : M (Z * bytes) :=
  spic_transfer cmd rxbuf n_rx SPIC_READ_BYTES.
Definition spic_write (cmd txbuf : bytes) (n_tx : nat) : M Z :=
  '(r, _) ← spic_transfer cmd txbuf n_tx SPIC_WRITE_BYTES; mret r.

(** [sysclk] is what [get_surfboard_sysclk] gives. *)
Definition spic_init (sysclk : Z) : M Z :=
  ra_and RALINK_REG_GPIOMODE (Z.lnot (Z.shiftl 1 1));;
  ra_or RT2880_RSTCTRL_REG RSTCTRL_SPI_RESET;;
  udelay 1;;
  ra_and RT2880_RSTCTRL_REG (Z.lnot RSTCTRL_SPI_RESET);;
  ra_outl RT2880_SPI0_CTL_REG (Z.land (Z.lnot SPIARB_SPI0_ACTIVE_MODE) 1);;
  ra_outl RT2880_SPICFG_REG SPI_MODE;;
  ra_outl RT2880_SPICTL_REG (Z.lor SPICTL_HIZSDO SPICTL_SPIENA_HIGH);;
  modify (λ s, s ⦃ spi_wait_nsec := Z.shiftr (8 * 1000 / (sysclk / 1000 / 1000 / CFG_CLK_DIV)) 1 ⦄);;
  mret 0.

(** * The chips *)

Definition chips_data : list chip_info :=
  [ mk_chip "AT25DF321" 0x1f 0x47000000 (64 * 1024) 64 false;
    mk_chip "AT26DF161" 0x1f 0x46000000 (64 * 1024) 32 false;
    mk_chip "FL016AIF" 0x01 0x02140000 (64 * 1024) 32 false;
    mk_chip "FL064AIF" 0x01 0x02160000 (64 * 1024) 128 false;
    mk_chip "MX25L1605D" 0xc2 0x2015c220 (64 * 1024) 32 false;
    mk_chip "MX25L3205D" 0xc2 0x2016c220 (64 * 1024) 64 false;
    mk_chip "MX25L6405D" 0xc2 0x2017c220 (64 * 1024) 128 false;
    mk_chip "MX25L12805D" 0xc2 0x2018c220 (64 * 1024) 256 false;
    mk_chip "MX25L25635E" 0xc2 0x2019c220 (64 * 1024) 512 true;
    mk_chip "S25FL256S" 0x01 0x02194D01 (64 * 1024) 512 true;
    mk_chip "S25FL128P" 0x01 0x20180301 (64 * 1024) 256 false;
    mk_chip "S25FL129P" 0x01 0x20184D01 (64 * 1024) 256 false;
    mk_chip "S25FL032P" 0x01 0x02154D00 (64 * 1024) 64 false;
    mk_chip "S25FL064P" 0x01 0x02164D00 (64 * 1024) 128 false;
    mk_chip "EN25F16" 0x1c 0x31151c31 (64 * 1024) 32 false;
    mk_chip "EN25Q32B" 0x1c 0x30161c30 (64 * 1024) 64 false;
    mk_chip "EN25F32" 0x1c 0x31161c31 (64 * 1024) 64 false;
    mk_chip "EN25Q32B" 0x1c 0x30161c30 (64 * 1024) 64 false;
    mk_chip "EN25F64" 0x1c 0x20171c20 (64 * 1024) 128 false;
    mk_chip "EN25Q64" 0x1c 0x30171c30 (64 * 1024) 128 false;
    mk_chip "W25Q32BV" 0xef 0x40160000 (64 * 1024) 64 false;
    mk_chip "W25X32VS" 0xef 0x30160000 (64 * 1024) 64 false;
    mk_chip "W25Q64BV" 0xef 0x40170000 (64 * 1024) 128 false;
    mk_chip "W25Q128BV" 0xef 0x40180000 (64 * 1024) 256 false ].

(** [flash->...]; its fields, and the command buffer. *)
Definition get_flash : M flash_info := λ s,
  match flash s with Some f => Ret (f, s) | None => Oob end.
Definition set_flash (f : flash_info → flash_info) : M () :=
  f0 ← get_flash; modify (λ s, s ⦃ flash := Some (f f0) ⦄).
Definition chip : M chip_info := f ← get_flash; mret (flash_chip f).

(** Store the bytes [l] into [flash->command] from [i] on; its first [n] bytes. *)
Definition set_command (i : nat) (l : bytes) : M () :=
  f ← get_flash;
  match store (command f) i l with
  | Ret c => set_flash (λ f, f ⦃ command := c ⦄)
  | _ => oob
  end.
Definition get_command (n : nat) : M bytes :=
  f ← get_flash; match load (command f) 0 n with Ret c => mret c | _ => oob end.

(** [down] blocks while the semaphore is taken. *)
Definition down : M () :=
  f ← get_flash; if flash_lock f then stuck else set_flash (λ f, f ⦃ flash_lock := true ⦄).
Definition up : M () := set_flash (λ f, f ⦃ flash_lock := false ⦄).

(** * Commands *)

Definition raspi_read_devid (rxbuf : bytes) (n_rx : nat) : M (Z * bytes) :=
  spic_read [OPCODE_RDID] rxbuf n_rx.

(** The byte behind a [u8 *]. *)
Definition deref (b : bytes) : Z := default 0 (b !! 0%nat).

Definition raspi_read_rg (val opcode : Z) : M (Z * Z) :=
  '(_, b) ← spic_read [opcode] [val] 1; mret (0, deref b).

Definition raspi_write_rg (val opcode : Z) : M Z :=
  dr ← ra_inl RT2880_SPI_DMA;
  ra_outl RT2880_SPI_DMA 0;;
  spic_write [opcode] [val] 1;;
  ra_outl RT2880_SPI_DMA dr;;
  mret 0.

(** The return value and [*val]. *)
Definition raspi_read_sr (val : Z) : M (Z * Z) :=
  '(retval, b) ← spic_read [OPCODE_RDSR] [val] 1;
  if negb (retval =? 1) then mret (- EIO, deref b) else mret (0, deref b).

Definition raspi_write_sr (val : Z) : M Z :=
  retval ← spic_write [OPCODE_WRSR] [val] 1;
  if negb (retval =? 1) then mret (- EIO) else mret 0.

Definition raspi_clear_sr : M Z :=
  spic_read [OPCODE_CLSR] [] 0;; mret 0.

Definition raspi_write_enable : M Z := spic_write [OPCODE_WREN] [] 0.
Definition raspi_write_disable : M Z := spic_write [OPCODE_WRDI] [] 0.

(** * Waiting *)

(** Both waits: read the status up to [n] times, with a pause after each. *)
Definition wait_loop (n : positive) (pause : M ()) : M Z :=
  r ← rounds n (λ sr,
        '(e, sr) ← raspi_read_sr sr;
        if e <? 0 then mret (inr (- EIO))
        else if Z.land sr (Z.lor SR_WIP SR_EPE) =? 0 then mret (inr 0)
        else pause;; mret (inl sr)) 0;
  match r with inr z => mret z | inl _ => mret (- EIO) end.

Definition raspi_wait_ready (sleep_ms : Z) : M Z :=
  wait_loop (Z.to_pos ((sleep_ms + 1) * 1000 * 500)) (udelay 1).
Definition raspi_wait_sleep_ready (sleep_ms : Z) : M Z :=
  wait_loop (Z.to_pos ((sleep_ms + 1) * 1000)) (usleep 1).

(** * Addresses of four bytes *)

Definition raspi_4byte_mode (enable : bool) : M Z :=
  raspi_wait_ready 1;;
  c ← chip;
  if chip_id c =? 0x01 then
    let br := if enable then 0x81 else 0x0 in
    (if enable then ra_or RT2880_SPICFG_REG SPICFG_ADDRMODE
     else ra_and RT2880_SPICFG_REG (Z.lnot SPICFG_ADDRMODE));;
    raspi_write_rg br OPCODE_BRWR;;
    '(_, br_cfn) ← raspi_read_rg 0 OPCODE_BRRD;
    if negb (br_cfn =? br) then mret (-1) else mret 0
  else
    let code := if enable then 0xB7 else 0xE9 in
    '(retval, _) ← spic_read [code] [] 0;
    if negb (retval =? 0) then mret (-1) else mret 0.

(** Without a value when the status can be read: the function has no [return]
    there, and no caller looks at the result. *)
Definition raspi_unprotect : M (option Z) :=
  '(e, sr) ← raspi_read_sr 0;
  if e <? 0 then mret (Some (-1))
  else
    when (negb (Z.land sr (Z.lor (Z.lor SR_BP0 SR_BP1) SR_BP2) =? 0)) (raspi_write_sr 0;; mret ());;
    mret None.

(** Put an address into the command buffer, after the opcode. *)
Definition set_address (four : bool) (a : Z) : M () :=
  set_command 1 (if four then [byte_of a 3; byte_of a 2; byte_of a 1; byte_of a 0]
                 else [byte_of a 2; byte_of a 1; byte_of a 0]).

(** * Erasing *)

Definition raspi_erase_sector (offset : Z) : M Z :=
  e ← raspi_wait_ready 3;
  if negb (e =? 0) then mret (- EIO)
  else
    raspi_write_enable;;
    raspi_unprotect;;
    c ← chip;
    if addr4b c then
      set_command 0 [OPCODE_SE];; set_address true offset;;
      raspi_4byte_mode true;;
      raspi_write_enable;;
      cmd ← get_command 5;
      spic_write cmd [] 0;;
      raspi_wait_sleep_ready 950;;
      raspi_4byte_mode false;;
      mret 0
    else
      set_command 0 [OPCODE_SE];; set_address false offset;;
      cmd ← get_command 4;
      spic_write cmd [] 0;;
      raspi_wait_sleep_ready 950;;
      raspi_write_disable;;
      mret 0.

(** [addr] and [len] are [u32]; the loop ends when [len] reaches 0, which it does
    after [len / erasesize] sectors. *)
Fixpoint erase_loop (fuel : nat) (erasesize addr len : Z) : M bool :=
  if negb (0 <? len) then mret true
  else
    match fuel with
    | O => stuck
    | S fuel =>
        e ← raspi_erase_sector addr;
        if negb (e =? 0) then mret false
        else erase_loop fuel erasesize (u32 (addr + erasesize)) (u32 (len - erasesize))
    end.

(** [flash->mtd.size]. *)
Definition flash_size : M Z := f ← get_flash; mret (mtd_size (flash_mtd f)).

Definition ramtd_erase (callback : erase_info → erase_info) (mtd : mtd_info_t) (instr : erase_info) :
    M (Z * erase_info) :=
  size ← flash_size;
  if size <? u32 (ei_addr instr + ei_len instr) then mret (- EINVAL, instr)
  else if negb (ei_addr instr mod mtd_erasesize mtd =? 0) || negb (ei_len instr mod mtd_erasesize mtd =? 0)
  then mret (- EINVAL, instr)
  else
    down;;
    ok ← erase_loop (Z.to_nat (ei_len instr / mtd_erasesize mtd)) (mtd_erasesize mtd)
           (ei_addr instr) (ei_len instr);
    up;;
    if negb ok then mret (- EIO, instr ⦃ ei_state := MTD_ERASE_FAILED ⦄)
    else mret (0, callback (instr ⦃ ei_state := MTD_ERASE_DONE ⦄)).

(** [if (retlen) *retlen = v]. *)
Definition put_len (retlen : option Z) (v : Z) : option Z := (λ _, v) <$> retlen.

(** * Reading *)

Definition ramtd_read (from len : Z) (retlen : option Z) (buf : bytes) : M (Z * option Z * bytes) :=
  if len =? 0 then mret (0, retlen, buf)
  else
    size ← flash_size;
    if size <? from + len then mret (- EINVAL, retlen, buf)
    else
      let retlen := put_len retlen 0 in
      down;;
      e ← raspi_wait_ready 1;
      if negb (e =? 0) then up;; mret (- EIO, retlen, buf)
      else
        set_command 0 [OPCODE_READ];;
        c ← chip;
        '(readlen, buf) ←
          (if addr4b c then
             raspi_4byte_mode true;;
             set_address true from;;
             cmd ← get_command 5;
             r ← spic_read cmd buf (Z.to_nat len);
             raspi_4byte_mode false;;
             mret r
           else
             set_address false from;;
             cmd ← get_command 4;
             spic_read cmd buf (Z.to_nat len));
        up;;
        let retlen := put_len retlen (u32 readlen) in
        if negb (u32 readlen =? len) then mret (- EIO, retlen, buf) else mret (0, retlen, buf).

(** Locking is a stub: not every vendor supports it. *)
Definition ramtd_lock (to len : Z) : M Z := mret 0.
Definition ramtd_unlock (to len : Z) : M Z := mret 0.

(** * Writing *)

(** The loop over pages: what is left of [buf] and [len], the address [to], the
    offset in the first page and the count of pages.  [inl]: the early return
    after a short transfer, with its value. *)
Fixpoint write_loop (fuel : nat) (to len page_offset count : Z) (retlen : option Z) (buf : bytes) :
    M (Z * option Z + option Z) :=
  if negb (0 <? len) then mret (inr retlen)
  else
    match fuel with
    | O => stuck
    | S fuel =>
        let page_size := Z.min len (FLASH_PAGESIZE - page_offset) in
        c ← chip;
        set_address (addr4b c) to;;
        raspi_wait_ready 3;;
        raspi_write_enable;;
        raspi_unprotect;;
        cmd ← get_command (if addr4b c then 5 else 4)%nat;
        retval ← spic_write cmd buf (Z.to_nat page_size);
        let retlen := if 0 <? retval then (λ n, u32 (n + retval)) <$> retlen else retlen in
        if (0 <? retval) && (retval <? page_size) then
          up;; raspi_write_disable;; mret (inl (- EIO, retlen))
        else
          let count := count + 1 in
          when (Z.land count 0xf =? 0) (raspi_wait_sleep_ready 1;; mret ());;
          write_loop fuel (to + page_size) (len - page_size) 0 count retlen
            (drop (Z.to_nat page_size) buf)
    end.

Definition ramtd_write (to len : Z) (retlen : option Z) (buf : bytes) : M (Z * option Z) :=
  let retlen := put_len retlen 0 in
  if len =? 0 then mret (0, retlen)
  else
    size ← flash_size;
    if size <? to + len then mret (- EINVAL, retlen)
    else
      down;;
      e ← raspi_wait_ready 2;
      if negb (e =? 0) then up;; mret (-1, retlen)
      else
        raspi_write_enable;;
        set_command 0 [OPCODE_PP];;
        c ← chip;
        set_address (addr4b c) to;;
        let page_offset := to mod FLASH_PAGESIZE in
        when (addr4b c) (raspi_4byte_mode true;; mret ());;
        r ← write_loop (Z.to_nat len) to len page_offset 0 retlen buf;
        match r with
        | inl r => mret r
        | inr retlen =>
            when (addr4b c) (raspi_4byte_mode false;; mret ());;
            raspi_write_disable;;
            up;;
            mret (0, retlen)
        end.

(** The driver as the master of the partitions. *)
#[export] Instance raspi_master : MtdMaster (raspi HW) := {
  drv_read := ramtd_read;
  drv_write := ramtd_write;
  drv_erase := ramtd_erase;
  drv_lock := ramtd_lock;
  drv_unlock := ramtd_unlock
}.

(** * Setting up *)

(** The loop of [chip_prob]: the first entry that is exactly right, else the one
    of the same vendor whose id differs least. *)
Fixpoint match_chip (l : list chip_info) (id jedec weight : Z) (m : chip_info) : chip_info :=
  match l with
  | [] => m
  | info :: l =>
      if chip_id info =? id then
        if jedec_id info =? jedec then info
        else if Z.lxor (jedec_id info) jedec <? weight
        then match_chip l id jedec (Z.lxor (jedec_id info) jedec) info
        else match_chip l id jedec weight m
      else match_chip l id jedec weight m
  end.

Definition chip0 : chip_info := mk_chip "AT25DF321" 0x1f 0x47000000 (64 * 1024) 64 false.

(** [buf] is on the stack; it keeps what it held where nothing is read. *)
Definition chip_prob : M chip_info :=
  '(_, buf) ← raspi_read_devid (uninit 5) 5;
  mret (match_chip chips_data (deref buf) (of_be (drop 1 buf)) 0xffffffff chip0).

(** [ralink-flash.h]: the partitions of 16 MB ([CONFIG_MTD_PHYSMAP_LEN]). *)
Definition MTD_BOOT_PART_SIZE : Z := 0x30000.
Definition MTD_CONFIG_PART_SIZE : Z := 0x10000.
Definition MTD_FACTORY_PART_SIZE : Z := 0x10000.
Definition IMAGE1_SIZE : Z := 0x1000000.
Definition MTD_KERN_PART_SIZE : Z :=
  IMAGE1_SIZE - (MTD_BOOT_PART_SIZE + MTD_CONFIG_PART_SIZE + MTD_FACTORY_PART_SIZE).
Definition rt2880_partitions : list mtd_partition :=
  [ {| p_name := "ALL"; p_size := MTDPART_SIZ_FULL; p_offset := 0; p_mask_flags := 0 |};
    {| p_name := "Bootloader"; p_size := MTD_BOOT_PART_SIZE; p_offset := 0; p_mask_flags := 0 |};
    {| p_name := "Config"; p_size := MTD_CONFIG_PART_SIZE; p_offset := MTDPART_OFS_APPEND; p_mask_flags := 0 |};
    {| p_name := "Factory"; p_size := MTD_FACTORY_PART_SIZE; p_offset := MTDPART_OFS_APPEND; p_mask_flags := 0 |};
    {| p_name := "Kernel"; p_size := MTD_KERN_PART_SIZE; p_offset := MTDPART_OFS_APPEND; p_mask_flags := 0 |} ].

Definition BOOT_FROM_SPI : Z := 3.
Definition ra_check_flash_type : Z := BOOT_FROM_SPI.

(** The address of [flash->mtd]. *)
Definition raspi_mtd : nat := 0.

(** [flash->mtd] for a chip. *)
Definition raspi_mtd_info (c : chip_info) : mtd_info_t :=
  mtd_zero ⦃ mtd_name := "raspi" ⦄ ⦃ mtd_type := MTD_NORFLASH ⦄ ⦃ mtd_writesize := 1 ⦄
    ⦃ mtd_flags := MTD_CAP_NORFLASH ⦄ ⦃ mtd_size := u32 (sector_size c * n_sectors c) ⦄
    ⦃ mtd_erasesize := u32 (sector_size c) ⦄.

(** [kzalloc] of [struct flash_info], of about 200 bytes. *)
Definition raspi_prob `{Malloc} `{Kzalloc} (sysclk : Z) : io (mtd_core (raspi HW)) Z :=
  in_drv (spic_init sysclk);;
  if negb (ra_check_flash_type =? BOOT_FROM_SPI) then mret 0
  else
    c ← in_drv chip_prob;
    if negb (malloc_ok 200) then mret (- ENOMEM)
    else
      in_drv (modify (λ s, s ⦃ flash := Some {| flash_lock := false; flash_mtd := raspi_mtd_info c;
                                                flash_chip := c; command := replicate 5 0 |} ⦄));;
      add_mtd_partitions raspi_mtd (raspi_mtd_info c) rt2880_partitions.

(** After [kfree], [flash] is the null pointer. *)
Definition raspi_remove : io (mtd_core (raspi HW)) () :=
  del_mtd_partitions raspi_mtd;;
  in_drv (modify (λ s, s ⦃ flash := None ⦄)).

End Raspi.
