(* ===== verification/SpiChip.v ===== *)
(** What the driver of the SPI flash relies on: the registers of the controller and
    the flash chip behind it, as the documents of these parts describe them.

    The class [SpiFlash] says that the hardware has a view, a [spi_bus], on which
    every access to a register is a step of a device state machine.  The steps are
    relations: how long a byte, a page or a sector takes is up to the hardware,
    within bounds, and where the documents say nothing any view may follow.
    [model_hw] is an instance. *)

From S2P Require Import Prelude Flash Io Mtdpart Raspi.
#[global] Open Scope Z_scope.
#[global] Open Scope fw_scope.

(** * The chip *)

(** The array; the write enable latch; the block protection bits of the status
    register; the bank register, whose bit 7 selects addresses of four bytes; the
    microseconds until the cycle under way ends; the answer to RDID. *)
Record flash_chip_t := {
  fl_mem : bytes;
  fl_wel : bool;
  fl_bp : Z;
  fl_bank : Z;
  fl_busy : Z;
  fl_id : bytes
}.
#[export] Instance flash_chip_eta : Eta flash_chip_t := λ r,
  {| fl_mem := fl_mem r; fl_wel := fl_wel r; fl_bp := fl_bp r; fl_bank := fl_bank r;
     fl_busy := fl_busy r; fl_id := fl_id r |}.

Definition SECTOR : nat := Z.to_nat 65536.
Definition PAGE : nat := 256.
Definition BP_MASK : Z := 0x1c.

Definition four_byte (c : flash_chip_t) : bool := Z.testbit (fl_bank c) 7.
Definition addr_len (c : flash_chip_t) : nat := if four_byte c then 4 else 3.
Definition spansion (c : flash_chip_t) : bool := deref (fl_id c) =? 0x01.

(** Programming clears bits. *)
Definition nor_program (m : bytes) (a : nat) (data : bytes) : bytes :=
  splice m a (zip_with Z.land (take (length data) (drop a m)) data).

(** The address wraps around at the end of a page. *)
Fixpoint program_page (m : bytes) (a : nat) (data : bytes) : bytes :=
  match data with
  | [] => m
  | d :: data =>
      program_page (alter (λ b, Z.land b d) a m)
        (if decide (S a mod PAGE = 0)%nat then S a - PAGE else S a)%nat data
  end.

Definition erase_sector (m : bytes) (a : nat) : bytes :=
  splice m (a / SECTOR * SECTOR) (replicate SECTOR 0xff).

(** The longest cycles: 5 ms for a page, 950 ms for a sector or the status. *)
Definition PAGE_TIME : Z := 5000.
Definition SECTOR_TIME : Z := 950000.
Definition cycle (bound d : Z) : Z := Z.max 0 (Z.min d bound).

(** What a command does when the chip is deselected, with a cycle of [d]
    microseconds; [None]: it depends on the part. *)
Definition flash_exec (d : Z) (cmd : bytes) (c : flash_chip_t) : option flash_chip_t :=
  if 0 <? fl_busy c then Some c
  else
    match cmd with
    | [] => Some c
    | op :: args =>
        let a := Z.to_nat (of_be (take (addr_len c) args)) in
        let data := drop (addr_len c) args in
        if (op =? OPCODE_RDSR) || (op =? OPCODE_RDID) || (op =? OPCODE_READ) then Some c
        else if op =? OPCODE_WREN then Some (c ⦃ fl_wel := true ⦄)
        else if op =? OPCODE_WRDI then Some (c ⦃ fl_wel := false ⦄)
        else if op =? OPCODE_WRSR then
          match args with
          | [v] =>
              if fl_wel c
              then Some (c ⦃ fl_bp := Z.land v BP_MASK ⦄ ⦃ fl_wel := false ⦄ ⦃ fl_busy := cycle SECTOR_TIME d ⦄)
              else Some c
          | _ => None
          end
        else if op =? OPCODE_PP then
          if negb (fl_wel c) then Some c
          else if bool_decide (fl_bp c = 0 ∧ (0 < length data ≤ PAGE)%nat ∧ (a < length (fl_mem c))%nat)
          then Some (c ⦃ fl_mem := program_page (fl_mem c) a data ⦄ ⦃ fl_wel := false ⦄
                       ⦃ fl_busy := cycle PAGE_TIME d ⦄)
          else None
        else if op =? OPCODE_SE then
          if negb (fl_wel c) then Some c
          else if bool_decide (fl_bp c = 0 ∧ data = [] ∧ length args = addr_len c ∧ (a < length (fl_mem c))%nat)
          then Some (c ⦃ fl_mem := erase_sector (fl_mem c) a ⦄ ⦃ fl_wel := false ⦄
                       ⦃ fl_busy := cycle SECTOR_TIME d ⦄)
          else None
        else if spansion c then
          if op =? OPCODE_BRRD then Some c
          else if op =? OPCODE_BRWR then
            match args with [v] => Some (c ⦃ fl_bank := v ⦄) | _ => None end
          else None
        else if op =? 0xB7 then Some (c ⦃ fl_bank := Z.setbit (fl_bank c) 7 ⦄)
        else if op =? 0xE9 then Some (c ⦃ fl_bank := Z.clearbit (fl_bank c) 7 ⦄)
        else None
    end.

(** Byte [n] of the answer to a command. *)
Definition flash_answer (c : flash_chip_t) (cmd : bytes) (n : nat) (v : Z) : Prop :=
  match cmd with
  | [] => True
  | op :: args =>
      if op =? OPCODE_RDSR then
        Z.testbit v 0 = (0 <? fl_busy c) ∧ Z.testbit v 5 = false ∧ Z.land v BP_MASK = Z.land (fl_bp c) BP_MASK
      else if 0 <? fl_busy c then True
      else if op =? OPCODE_RDID then ∀ b, fl_id c !! n = Some b → v = u8 b
      else if op =? OPCODE_READ then
        length args = addr_len c → ∀ b, fl_mem c !! (Z.to_nat (of_be args) + n)%nat = Some b → v = u8 b
      else if (op =? OPCODE_BRRD) && spansion c then v = u8 (fl_bank c)
      else True
  end.

(** * The controller *)

(** The registers; for how many more readings of the status a byte is under way;
    what the chip has received and sent since it was selected. *)
Record spi_bus := {
  bus_cfg : Z;
  bus_ctl : Z;
  bus_data : Z;
  bus_pend : nat;
  bus_sel : option (bytes * nat);
  bus_chip : flash_chip_t
}.
#[export] Instance spi_bus_eta : Eta spi_bus := λ r,
  {| bus_cfg := bus_cfg r; bus_ctl := bus_ctl r; bus_data := bus_data r; bus_pend := bus_pend r;
     bus_sel := bus_sel r; bus_chip := bus_chip r |}.

(** Time passes. *)
Definition later (t : Z) (c : flash_chip_t) : flash_chip_t :=
  if t <=? 0 then c else c ⦃ fl_busy := Z.max 0 (fl_busy c - t) ⦄.
Definition elapse (t : Z) (b : spi_bus) : spi_bus := b ⦃ bus_chip := later t (bus_chip b) ⦄.

Definition bus_read_step (b : spi_bus) (a v : Z) (b' : spi_bus) : Prop :=
  0 ≤ v < 2 ^ 32 ∧ ∃ t, 0 ≤ t ∧
  if a =? RT2880_SPISTAT_REG then
    (Z.land v 1 = 0 ↔ bus_pend b = 0%nat) ∧ b' = elapse t (b ⦃ bus_pend := pred (bus_pend b) ⦄)
  else
    b' = elapse t b ∧
    if a =? RT2880_SPICTL_REG then v = u32 (bus_ctl b)
    else if a =? RT2880_SPICFG_REG then v = u32 (bus_cfg b)
    else if a =? RT2880_SPIDATA_REG then bus_pend b = 0%nat → v = u32 (bus_data b)
    else True.

(** The control register: bit 0 drives the chip select, high for none; bits 1 and
    2 start the transfer of a byte and clear themselves. *)
Definition ctl_step (t v : Z) (b b' : spi_bus) : Prop :=
  let b := b ⦃ bus_ctl := Z.land v 9 ⦄ in
  if Z.testbit v 0 then
    Z.testbit v 1 = false → Z.testbit v 2 = false → bus_pend b = 0%nat →
    match bus_sel b with
    | None => b' = elapse t b
    | Some (cmd, _) =>
        ∃ d, match flash_exec d cmd (bus_chip b) with
             | Some c => b' = elapse t (b ⦃ bus_sel := None ⦄ ⦃ bus_chip := c ⦄)
             | None => True
             end
    end
  else
    let '(cmd, n) := default ([], 0%nat) (bus_sel b) in
    let b := b ⦃ bus_sel := Some (cmd, n) ⦄ in
    if Z.testbit v 2 then
      bus_cfg b = SPI_MODE → bus_pend b = 0%nat → n = 0%nat →
      ∃ p, (p < 256)%nat ∧
        b' = elapse t (b ⦃ bus_sel := Some (cmd ++ [bus_data b], 0%nat) ⦄ ⦃ bus_pend := p ⦄)
    else if Z.testbit v 1 then
      bus_cfg b = SPI_MODE → bus_pend b = 0%nat →
      ∃ p x, (p < 256)%nat ∧ byte_ok x ∧ flash_answer (bus_chip b) cmd n x ∧
        b' = elapse t (b ⦃ bus_sel := Some (cmd, S n) ⦄ ⦃ bus_pend := p ⦄ ⦃ bus_data := x ⦄)
    else b' = elapse t b.

Definition bus_write_step (b : spi_bus) (a v : Z) (b' : spi_bus) : Prop :=
  ∃ t, 0 ≤ t ∧
  if a =? RT2880_SPICTL_REG then ctl_step t v b b'
  else if a =? RT2880_SPICFG_REG then b' = elapse t (b ⦃ bus_cfg := v ⦄)
  else if a =? RT2880_SPIDATA_REG then b' = elapse t (b ⦃ bus_data := u8 v ⦄)
  else if a =? RT2880_RSTCTRL_REG then
    (** The reset gives the registers values that are not said here. *)
    bus_sel b = None → bus_sel b' = None ∧ bus_pend b' = 0%nat ∧ bus_chip b' = later t (bus_chip b)
  else b' = elapse t b.

(** * The promise *)

Class SpiFlash (HW : Type) `{SpiHw HW} := {
  bus : HW → spi_bus;
  bus_read a h v h' : hw_read a h = (v, h') → bus_read_step (bus h) a v (bus h');
  bus_write a v h : 0 ≤ v < 2 ^ 32 → bus_write_step (bus h) a v (bus (hw_write a v h));
  bus_udelay n h : ∃ t, n ≤ t ∧ bus (hw_udelay n h) = elapse t (bus h);
  (** With no signal pending a jiffy is slept to its end. *)
  bus_schedule n h r h' : hw_schedule n h = (r, h') → 1 ≤ n →
    r = 0 ∧ ∃ t, 1 ≤ t ∧ bus h' = elapse t (bus h)
}.

(** * An instance *)

(** A byte of the answer. *)
Definition model_answer (c : flash_chip_t) (cmd : bytes) (n : nat) : Z :=
  match cmd with
  | [] => 0
  | op :: args =>
      if op =? OPCODE_RDSR then Z.lor (if 0 <? fl_busy c then 1 else 0) (Z.land (fl_bp c) BP_MASK)
      else if op =? OPCODE_RDID then default 0 (fl_id c !! n)
      else if op =? OPCODE_READ then default 0 (fl_mem c !! (Z.to_nat (of_be args) + n)%nat)
      else if (op =? OPCODE_BRRD) && spansion c then fl_bank c
      else 0
  end.

Definition model_ctl (v : Z) (b : spi_bus) : spi_bus :=
  let b := b ⦃ bus_ctl := Z.land v 9 ⦄ in
  if Z.testbit v 0 then
    match bus_sel b with
    | None => b
    | Some (cmd, _) =>
        b ⦃ bus_sel := None ⦄ ⦃ bus_chip := default (bus_chip b) (flash_exec 700 cmd (bus_chip b)) ⦄
    end
  else
    let '(cmd, n) := default ([], 0%nat) (bus_sel b) in
    let b := b ⦃ bus_sel := Some (cmd, n) ⦄ in
    if Z.testbit v 2 then b ⦃ bus_sel := Some (cmd ++ [bus_data b], 0%nat) ⦄ ⦃ bus_pend := 1%nat ⦄
    else if Z.testbit v 1 then
      b ⦃ bus_sel := Some (cmd, S n) ⦄ ⦃ bus_pend := 1%nat ⦄
        ⦃ bus_data := u8 (model_answer (bus_chip b) cmd n) ⦄
    else b.

(** A chip whose cycles take 700 microseconds, on a bus on which time passes only
    in delays. *)
#[export] Instance model_hw : SpiHw spi_bus := {
  hw_read a b :=
    if a =? RT2880_SPISTAT_REG
    then (if decide (bus_pend b = 0%nat) then 0 else 1, b ⦃ bus_pend := pred (bus_pend b) ⦄)
    else (u32 (if a =? RT2880_SPICTL_REG then bus_ctl b
               else if a =? RT2880_SPICFG_REG then bus_cfg b
               else if a =? RT2880_SPIDATA_REG then bus_data b else 0), b);
  hw_write a v b :=
    if a =? RT2880_SPICTL_REG then model_ctl v b
    else if a =? RT2880_SPICFG_REG then b ⦃ bus_cfg := v ⦄
    else if a =? RT2880_SPIDATA_REG then b ⦃ bus_data := u8 v ⦄
    else if a =? RT2880_RSTCTRL_REG then b ⦃ bus_pend := 0%nat ⦄
    else b;
  hw_udelay n b := elapse n b;
  hw_schedule n b := (0, elapse (4000 * n) b)
}.

(** It keeps the promise. *)
Lemma elapse_0 b : elapse 0 b = b.
Proof. by destruct b. Qed.

Lemma model_answer_ok c cmd n : flash_answer c cmd n (u8 (model_answer c cmd n)).
Proof.
  destruct cmd as [|op args]; cbn [flash_answer model_answer]; [done|].
  destruct (op =? OPCODE_RDSR).
  - set (x := Z.land (fl_bp c) BP_MASK).
    assert (0 ≤ Z.lor (if 0 <? fl_busy c then 1 else 0) x < 32) as Hr.
    { apply (bits_word 5); [lia|]. intros i Hi. rewrite Z.lor_spec. unfold x, BP_MASK. rewrite Z.land_spec.
      rewrite (word_bits 5 0x1c i) by lia.
      rewrite andb_false_r, orb_false_r. destruct (0 <? fl_busy c); [|apply Z.bits_0].
      rewrite (word_bits 5 1 i) by lia. done. }
    rewrite u8_id by lia. split_and!.
    + rewrite Z.lor_spec. unfold x. rewrite Z.land_spec. change (Z.testbit BP_MASK 0) with false.
      rewrite andb_false_r, orb_false_r. by destruct (0 <? fl_busy c).
    + by apply (word_bits 5); lia.
    + rewrite Z.land_lor_distr_l. unfold x. rewrite <-Z.land_assoc, Z.land_diag.
      by destruct (0 <? fl_busy c).
  - destruct (0 <? fl_busy c); [done|].
    destruct (op =? OPCODE_RDID); [by intros b ->|].
    destruct (op =? OPCODE_READ); [by intros _ b ->|].
    by destruct ((op =? OPCODE_BRRD) && spansion c).
Qed.

#[export] Instance model_flash : SpiFlash spi_bus.
Proof.
  refine {| bus b := b |}.
  - intros a h v h' Hr. cbn in Hr. unfold bus_read_step. destruct (a =? RT2880_SPISTAT_REG).
    + injection Hr as <- <-. split; [by destruct (decide _)|]. exists 0. split; [done|].
      rewrite elapse_0. split; [|done]. by destruct (decide _).
    + injection Hr as <- <-. split; [apply u32_range|]. exists 0. split; [done|].
      rewrite elapse_0. split; [done|]. repeat case_match; done.
  - intros a v h Hv. cbn. unfold bus_write_step. exists 0. split; [done|].
    destruct (a =? RT2880_SPICTL_REG); [|].
    2: { repeat (case_match; [by rewrite ?elapse_0|]). by rewrite elapse_0. }
    unfold ctl_step, model_ctl. destruct (Z.testbit v 0).
    + intros _ _ _. cbn -[Z.testbit]. destruct (bus_sel h) as [[cmd n]|]; cbn.
      * exists 700. destruct (flash_exec _ _ _); [|done]. by rewrite elapse_0.
      * by rewrite elapse_0.
    + cbn -[Z.testbit]. destruct (default _ _) as [cmd n].
      destruct (Z.testbit v 2); [intros _ _ ->; exists 1%nat; split; [lia|by rewrite elapse_0]|].
      destruct (Z.testbit v 1); [|by rewrite elapse_0].
      intros _ _. eexists 1%nat, _. split_and!; [lia|apply u8_range|apply model_answer_ok|].
      by rewrite elapse_0.
  - intros n h. cbn. exists n. done.
  - intros n h r h' Hs Hn. injection Hs as <- <-. split; [done|]. exists (4000 * n). split; [lia|done].
Defined.
