(* ===== verification/RaspiFacts.v ===== *)
(** The commands of the SPI flash driver [Raspi] on hardware that keeps the promise
    of [SpiChip]: transfers, waits, the status register, the address mode. *)

From S2P Require Import Prelude Flash Io Mtdpart Raspi SpiChip.
#[global] Open Scope Z_scope.
#[global] Open Scope fw_scope.

(** * Time *)

Lemma later_later t1 t2 c : 0 ≤ t1 → 0 ≤ t2 → later t1 (later t2 c) = later (t1 + t2) c.
Proof.
  intros H1 H2. unfold later. repeat case_match; try lia; try done.
  - by replace (t1 + t2) with t2 by lia.
  - by replace (t1 + t2) with t1 by lia.
  - cbn. f_equal. lia.
Qed.

Lemma later_ready t c : fl_busy c = 0 → later t c = c.
Proof. intros Hc. unfold later. case_match; [done|]. destruct c; cbn in *. f_equal. lia. Qed.

Lemma later_busy t c : 0 ≤ t → fl_busy (later t c) ≤ Z.max 0 (fl_busy c) ∧
  (0 ≤ fl_busy c → 0 ≤ fl_busy (later t c) ∧ fl_busy (later t c) ≤ Z.max 0 (fl_busy c - t)).
Proof. intros Ht. unfold later. case_match; cbn; lia. Qed.

(** All but the time is the same. *)
Lemma later_eq t c : later t c = c ⦃ fl_busy := fl_busy (later t c) ⦄.
Proof. unfold later. case_match; by destruct c. Qed.

Section Facts.
Context {HW : Type} `{SpiFlash HW}.
Implicit Types (s : raspi HW) (c : flash_chip_t) (f : option flash_info).

(** * Between transfers and within one *)

(** No chip select, nothing under way. *)
Definition idle f c s : Prop :=
  2 ≤ spi_wait_nsec s ∧ flash s = f ∧
  let b := bus (hw s) in
  bus_ctl b = 9 ∧ bus_pend b = 0%nat ∧ bus_sel b = None ∧ bus_chip b = c.

(** The chip has received [cmd] and sent [n] bytes since it was selected. *)
Definition selected f (cmd : bytes) (n : nat) c s : Prop :=
  2 ≤ spi_wait_nsec s ∧ flash s = f ∧
  let b := bus (hw s) in
  bus_cfg b = SPI_MODE ∧ bus_ctl b = 8 ∧ bus_pend b = 0%nat ∧ bus_sel b = Some (cmd, n) ∧ bus_chip b = c.

(** [P] of the chip some time later. *)
Definition soon (P : flash_chip_t → raspi HW → Prop) c s : Prop := ∃ t, 0 ≤ t ∧ P (later t c) s.

Lemma soon_later P t c s : 0 ≤ t → soon P (later t c) s → soon P c s.
Proof. intros Ht (t' & ? & HP). exists (t' + t). split; [lia|]. by rewrite <-later_later. Qed.

Lemma soon_now P c s : P c s → soon P c s.
Proof. intros HP. exists 0. split; [done|]. by unfold later. Qed.

Lemma soon_ready P c s : fl_busy c = 0 → soon P c s → P c s.
Proof. intros Hc (t & _ & HP). by rewrite later_ready in HP. Qed.

(** * Registers *)

Lemma wp_ra_outl a v Q s :
  (∀ h, bus_write_step (bus (hw s)) a (u32 v) (bus h) → Q () (s ⦃ hw := h ⦄)) → wp (ra_outl a v) Q s.
Proof. intros HQ. apply wp_modify, HQ, bus_write, u32_range. Qed.

Lemma wp_ra_inl a Q s :
  (∀ v h, bus_read_step (bus (hw s)) a v (bus h) → Q v (s ⦃ hw := h ⦄)) → wp (ra_inl a) Q s.
Proof.
  intros HQ. unfold wp, ra_inl. destruct (hw_read a (hw s)) as [v h] eqn:E.
  eexists _, _. split; [done|]. apply HQ. by apply bus_read.
Qed.

(** Read a register and write it back with some bits changed: for the control
    register, whose value is known. *)
Lemma wp_ctl_aor (mask val v : Z) Q s :
  bus_ctl (bus (hw s)) = v → 0 ≤ v < 2 ^ 32 →
  (∀ h t, 0 ≤ t → bus_write_step (elapse t (bus (hw s))) RT2880_SPICTL_REG (u32 (Z.lor (Z.land v mask) val)) (bus h) →
     Q () (s ⦃ hw := h ⦄)) →
  wp (ra_aor RT2880_SPICTL_REG mask val) Q s.
Proof.
  intros Hv Hr HQ. unfold ra_aor. apply wp_bind, wp_ra_inl. intros x h Hx.
  destruct Hx as (_ & t & Ht & Hb & Hx).
  rewrite Z.eqb_refl, Hv, u32_id in Hx by done. subst x. apply wp_ra_outl. intros h' Hw. cbn -[bus_write_step] in *.
  eapply (HQ h' t); [done|]. by rewrite <-Hb.
Qed.

(** A register that is none of the bus. *)
Definition other_reg (a : Z) : bool :=
  negb (a =? RT2880_SPICTL_REG) && negb (a =? RT2880_SPIDATA_REG) && negb (a =? RT2880_RSTCTRL_REG)
  && negb (a =? RT2880_SPISTAT_REG).

Lemma wp_other_outl a v f c s Q :
  other_reg a = true → idle f c s → (∀ s', soon (idle f) c s' → Q () s') → wp (ra_outl a v) Q s.
Proof.
  unfold other_reg. rewrite !andb_true_iff, !negb_true_iff. intros (((Ha & Hb) & Hc) & _) Hi HQ.
  apply wp_ra_outl. intros h (t & Ht & Hs). apply HQ. exists t. split; [done|].
  rewrite Ha, Hb, Hc in Hs. destruct Hi as (? & ? & Hi). split_and!; [done..|].
  destruct (a =? RT2880_SPICFG_REG); cbn -[later] in *; rewrite Hs; cbn -[later];
    destruct Hi as (? & ? & ? & ->); done.
Qed.

Lemma wp_other_inl a f c s Q :
  other_reg a = true → idle f c s → (∀ v s', soon (idle f) c s' → Q v s') → wp (ra_inl a) Q s.
Proof.
  unfold other_reg. rewrite !andb_true_iff, !negb_true_iff. intros (((Ha & Hb) & Hc) & Hd) Hi HQ.
  apply wp_ra_inl. intros v h (_ & t & Ht & Hs). apply HQ. exists t. split; [done|].
  rewrite Hd in Hs. destruct Hs as [Hs _]. destruct Hi as (? & ? & ? & ? & ? & <-).
  split_and!; [done..|]. cbn -[later]. by rewrite Hs.
Qed.

(** * A transfer *)

Lemma wp_spic_busy_wait s Q :
  2 ≤ spi_wait_nsec s → (bus_pend (bus (hw s)) < 256)%nat →
  (∀ h t, 0 ≤ t → bus h = elapse t ((bus (hw s)) ⦃ bus_pend := 0%nat ⦄) → Q 0 (s ⦃ hw := h ⦄)) →
  wp spic_busy_wait Q s.
Proof.
  intros Hn Hp HQ. unfold spic_busy_wait. apply wp_bind.
  set (I := λ (n : Z) (_ : ()) s', 0 ≤ n < 256 ∧ ∃ h t, s' = s ⦃ hw := h ⦄ ∧ 0 ≤ t ∧
              bus h = elapse t ((bus (hw s)) ⦃ bus_pend := Z.to_nat n ⦄)).
  eapply (wp_rounds _ I (λ z s', z = 0 ∧ ∃ h t, s' = s ⦃ hw := h ⦄ ∧ 0 ≤ t ∧
              bus h = elapse t ((bus (hw s)) ⦃ bus_pend := 0%nat ⦄)) _ (Z.of_nat (bus_pend (bus (hw s)))));
    subst I; cbn beta.
  - split; [lia|]. exists (hw s), 0. split_and!; [by destruct s|done|]. rewrite elapse_0, Nat2Z.id.
    by destruct (bus (hw s)).
  - lia.
  - intros n u s' Hu. destruct Hu as [Hu _]. lia.
  - intros n _ s' (Hr & h & t & -> & Ht & Hb). apply wp_bind, wp_ra_inl. cbn. intros v h' Hv.
    destruct Hv as (_ & t' & Ht' & Hv). rewrite Z.eqb_refl in Hv. destruct Hv as [Hv Hb'].
    rewrite Hb in Hv, Hb'. cbn [bus_pend elapse set] in Hv. cbn in Hv.
    assert (∀ m, bus h' = elapse t' (elapse t ((bus (hw s)) ⦃ bus_pend := Z.to_nat n ⦄) ⦃ bus_pend := m ⦄) →
                 bus h' = elapse (t' + t) ((bus (hw s)) ⦃ bus_pend := m ⦄)) as Hel.
    { intros m ->. unfold elapse. cbn -[later]. by rewrite later_later. }
    destruct (Z.land v 1 =? 0) eqn:E.
    + apply wp_ret. cbn. split; [done|]. eexists h', (t' + t). split_and!; [done|lia|].
      apply Hel. rewrite Hb'. destruct Hv as [Hv _]. rewrite Hv by lia. done.
    + assert (Z.to_nat n ≠ 0%nat) by (intros E0; apply Hv in E0; lia).
      apply wp_bind, wp_gets. cbn. destruct (Z.shiftr (spi_wait_nsec s) 1 =? 0) eqn:En.
      { apply Z.eqb_eq in En. rewrite Z.shiftr_div_pow2 in En by done. zlia. }
      apply wp_ret. cbn. exists (n - 1). split; [lia|]. split; [lia|].
      eexists h', (t' + t). split_and!; [done|lia|]. apply Hel. rewrite Hb'.
      by replace (Z.to_nat (n - 1)) with (pred (Z.to_nat n)) by lia.
  - intros z s' (-> & h & t & -> & ? & ?). apply wp_ret. by eapply HQ.
Qed.
(** Select the chip. *)
Lemma wp_select {A} f c s (k : io _ A) Q :
  idle f c s → (∀ s', soon (selected f [] 0) c s' → wp k Q s') →
  wp (ra_outl RT2880_SPICFG_REG SPI_MODE;; ra_and RT2880_SPICTL_REG (Z.lnot SPICTL_SPIENA_HIGH);; k) Q s.
Proof.
  intros (Hn & Hf & Hc & Hp & Hs & <-) HQ. apply wp_bind, wp_ra_outl. intros h (t & Ht & Hh).
  change (bus h = elapse t ((bus (hw s)) ⦃ bus_cfg := SPI_MODE ⦄)) in Hh.
  apply wp_bind, (wp_ctl_aor _ _ 9); [by cbn; rewrite Hh|done|]. cbn -[bus_write_step elapse].
  intros h' t' Ht' (t2 & Ht2 & Hw). rewrite Z.eqb_refl, Hh in Hw. unfold ctl_step in Hw.
  change (u32 _) with 8 in Hw. cbn -[later] in Hw. rewrite Hs in Hw. cbn -[later] in Hw.
  apply HQ. exists (t2 + (t' + t)). split; [lia|]. split_and!; [done|done|..]; cbn -[later];
    rewrite Hw; cbn -[later]; try done. by rewrite <-!later_later by lia.
Qed.

(** Send a byte. *)
Lemma wp_send_byte {A} f cmd c b s (k : Z → io _ A) Q :
  selected f cmd 0 c s → byte_ok b → (∀ s', soon (selected f (cmd ++ [b]) 0) c s' → wp (k 0) Q s') →
  wp (ra_outl RT2880_SPIDATA_REG b;; ra_or RT2880_SPICTL_REG SPICTL_STARTWR;; e ← spic_busy_wait; k e) Q s.
Proof.
  intros (Hn & Hf & Hm & Hc & Hp & Hs & <-) Hb HQ. apply wp_bind, wp_ra_outl. intros h (t & Ht & Hh).
  change (bus h = elapse t ((bus (hw s)) ⦃ bus_data := u8 (u32 b) ⦄)) in Hh.
  assert (u8 (u32 b) = b) as Hu by (unfold byte_ok in Hb; rewrite u32_id, u8_id; lia).
  rewrite Hu in Hh.
  apply wp_bind, (wp_ctl_aor _ _ 8); [by cbn; rewrite Hh|done|]. cbn -[bus_write_step elapse spic_busy_wait mbind].
  intros h' t' Ht' (t2 & Ht2 & Hw). rewrite Z.eqb_refl, Hh in Hw. unfold ctl_step in Hw.
  change (u32 _) with 12 in Hw. cbn -[later] in Hw. rewrite Hs in Hw. cbn -[later] in Hw.
  destruct Hw as (p & Hp' & Hw); [done..|]. apply wp_bind, wp_spic_busy_wait; [done| |].
  - cbn -[later]. by rewrite Hw.
  - intros h2 t3 Ht3 Hh2. cbn -[elapse later] in Hh2. rewrite Hw in Hh2. cbn -[later] in Hh2.
    apply HQ. exists (t3 + (t2 + (t' + t))). split; [lia|]. split_and!; [done|done|..]; cbn -[later];
      rewrite Hh2; cbn -[later]; try done. by rewrite <-!later_later by lia.
Qed.

Lemma wp_spic_send f l cmd c s n Q :
  selected f cmd 0 c s → bytes_ok l →
  (∀ s', soon (selected f (cmd ++ l) 0) c s' → Q (n + Z.of_nat (length l), true) s') →
  wp (spic_send l n) Q s.
Proof.
  revert cmd c s n Q. induction l as [|b l IH]; intros cmd c s n Q Hs Hl HQ; cbn [spic_send].
  - apply wp_ret. rewrite Z.add_0_r in HQ. apply HQ. rewrite app_nil_r. by apply soon_now.
  - inversion_clear Hl as [|? ? Hb Hl']. eapply wp_send_byte; [done..|]. intros s1 (t1 & Ht1 & H1).
    cbn -[spic_send]. eapply IH; [done..|]. intros s2 H2.
    replace (n + 1 + Z.of_nat (length l)) with (n + Z.of_nat (length (b :: l))) by (cbn; lia).
    apply HQ. rewrite cons_middle, app_assoc. by eapply soon_later.
Qed.

(** Receive bytes: each is what the chip answers at some moment [u] before the end. *)
Definition received (c : flash_chip_t) (t : Z) (cmd : bytes) (data : bytes) : Prop :=
  ∀ i v, data !! i = Some v → byte_ok v ∧ ∃ u, 0 ≤ u ≤ t ∧ flash_answer (later u c) cmd i v.

Lemma wp_receive_byte {A} f cmd n c s (kf k : Z → io _ A) Q :
  selected f cmd n c s →
  (∀ s' t v, 0 ≤ t → selected f cmd (S n) (later t c) s' → byte_ok v →
     (∃ u, 0 ≤ u ≤ t ∧ flash_answer (later u c) cmd n v) → wp (k v) Q s') →
  wp (ra_or RT2880_SPICTL_REG SPICTL_STARTRD;; e ← spic_busy_wait;
      if negb (e =? 0) then kf e else v ← ra_inl RT2880_SPIDATA_REG; k v) Q s.
Proof.
  intros (Hn & Hf & Hm & Hc & Hp & Hs & <-) HQ.
  apply wp_bind, (wp_ctl_aor _ _ 8); [done..|].
  intros h' t' Ht' (t2 & Ht2 & Hw). rewrite Z.eqb_refl in Hw. unfold ctl_step in Hw.
  change (u32 _) with 10 in Hw. cbn -[later flash_answer] in Hw. rewrite Hs in Hw.
  cbn -[later flash_answer] in Hw.
  destruct Hw as (p & x & Hp' & Hx & Ha & Hw); [done..|].
  apply wp_bind, wp_spic_busy_wait; [done| |].
  - cbn -[later]. by rewrite Hw.
  - intros h2 t3 Ht3 Hh2. cbn -[elapse later] in Hh2. rewrite Hw in Hh2. cbn -[later] in Hh2.
    cbn [negb Z.eqb]. apply wp_bind, wp_ra_inl. intros v h3 (_ & t4 & Ht4 & Hb & Hv).
    cbn -[elapse later] in Hb, Hv. rewrite Hh2 in Hb, Hv. cbn -[later] in Hb, Hv.
    change (0%nat = 0%nat → v = u32 x) in Hv. unfold byte_ok in Hx.
    rewrite Hv, u32_id by (done || lia).
    apply (HQ _ (t4 + (t3 + (t2 + t')))); [lia| |done|].
    + split_and!; [done|done|..]; cbn -[later]; rewrite Hb; cbn -[later]; try done.
      by rewrite <-!later_later by lia.
    + exists t'. split; [lia|done].
Qed.

Lemma received_snoc c t t' cmd data v :
  0 ≤ t → 0 ≤ t' → received c t cmd data → byte_ok v →
  (∃ u, 0 ≤ u ≤ t' ∧ flash_answer (later u (later t c)) cmd (length data) v) →
  received c (t' + t) cmd (data ++ [v]).
Proof.
  intros Ht Ht' Hr Hv (u & Hu & Ha) i w Hi. apply lookup_app_Some in Hi as [Hi|[Hl Hi]].
  - destruct (Hr _ _ Hi) as (? & u' & ? & ?). split; [done|]. exists u'. split; [lia|done].
  - apply list_lookup_singleton_Some in Hi as [Hi <-]. replace i with (length data) by lia.
    split; [done|]. exists (u + t). split; [lia|]. by rewrite <-later_later by lia.
Qed.

Lemma wp_spic_receive f cmd n data rest c t s Q :
  selected f cmd (length data) (later t c) s → 0 ≤ t → received c t cmd data → (n ≤ length rest)%nat →
  (∀ s' t' data', 0 ≤ t' → selected f cmd (length data + n) (later t' c) s' → received c t' cmd data' →
     length data' = (length data + n)%nat →
     Q (Z.of_nat (length data + n), data' ++ drop n rest) s') →
  wp (spic_receive n (data ++ rest) (length data)) Q s.
Proof.
  revert data rest t s Q. induction n as [|n IH]; intros data rest t s Q Hs Ht Hr Hn HQ; cbn [spic_receive].
  - apply wp_ret. rewrite Nat.add_0_r in HQ. rewrite <-(drop_0 rest) at 1. by eapply HQ.
  - destruct rest as [|r rest]; [cbn in Hn; lia|]. cbn in Hn.
    eapply wp_receive_byte; [done|]. intros s' t' v Ht' Hs' Hv Ha.
    rewrite u8_id by (unfold byte_ok in Hv; lia).
    unfold store. rewrite decide_True by (rewrite length_app; cbn; lia).
    unfold splice. rewrite take_app_length, drop_app_ge by (cbn; lia).
    replace (length data + length [v] - length data)%nat with 1%nat by (cbn; lia).
    rewrite skipn_cons, drop_0, app_assoc.
    rewrite later_later in Hs' by lia.
    assert (length (data ++ [v]) = S (length data)) as Hlen by (rewrite length_app; cbn; lia).
    rewrite <-Hlen. eapply (IH _ _ (t' + t)); [by rewrite Hlen|lia|by apply received_snoc|lia|].
    rewrite Hlen. replace (S (length data) + n)%nat with (length data + S n)%nat by lia.
    intros s2 t2 data' ? ? ? ?. cbn [skipn] in HQ. by eapply HQ.
Qed.

(** Deselect the chip: the command is carried out. *)
Lemma wp_deselect {A} f cmd n c (r : A) s Q :
  selected f cmd n c s → (∀ t d, 0 ≤ t → flash_exec d cmd (later t c) ≠ None) →
  (∀ s' t d c', 0 ≤ t → flash_exec d cmd (later t c) = Some c' → soon (idle f) c' s' → Q r s') →
  wp (ra_or RT2880_SPICTL_REG SPICTL_SPIENA_HIGH;; mret r) Q s.
Proof.
  intros (Hn & Hf & Hm & Hc & Hp & Hs & <-) Hx HQ. apply wp_bind, (wp_ctl_aor _ _ 8); [done..|].
  intros h t Ht (t2 & Ht2 & Hw). rewrite Z.eqb_refl in Hw. unfold ctl_step in Hw.
  change (u32 _) with 9 in Hw. cbn -[later] in Hw. rewrite Hs in Hw. cbn -[later] in Hw.
  destruct Hw as (d & Hw); [done..|]. specialize (Hx t d Ht).
  destruct (flash_exec d cmd _) as [c'|] eqn:E; [|done]. apply wp_ret.
  apply (HQ _ t d c'); [done..|]. exists t2. split; [done|].
  split_and!; [done|done|..]; cbn -[later]; rewrite Hw; done.
Qed.

(** * Reading and writing transfers *)

Lemma wp_spic_write f cmd buf n c s Q :
  idle f c s → bytes_ok cmd → bytes_ok buf → (n ≤ length buf)%nat →
  (∀ t d, 0 ≤ t → flash_exec d (cmd ++ take n buf) (later t c) ≠ None) →
  (∀ s' t d c', 0 ≤ t → flash_exec d (cmd ++ take n buf) (later t c) = Some c' → soon (idle f) c' s' →
     Q (Z.of_nat n) s') →
  wp (spic_write cmd buf n) Q s.
Proof.
  intros Hs Hcmd Hbuf Hn Hx HQ. unfold spic_write, spic_transfer.
  apply wp_bind. eapply wp_select; [done|]. intros s1 (t1 & Ht1 & H1).
  apply wp_bind. eapply wp_spic_send; [done..|]. intros s2 (t2 & Ht2 & H2). cbn -[mbind].
  unfold load. rewrite decide_True by lia. rewrite drop_0.
  apply wp_bind, wp_bind. eapply wp_spic_send; [done|by apply bytes_ok_take|]. intros s3 (t3 & Ht3 & H3).
  apply wp_ret. rewrite !later_later in H3 by lia. rewrite length_take, Nat.min_l by done.
  eapply wp_deselect; [done| |].
  - intros t d Ht. rewrite later_later by lia. apply Hx. lia.
  - intros s4 t d c' Ht Hc Hi. apply wp_ret. rewrite later_later in Hc by lia. eapply HQ; [|done..]. lia.
Qed.

Lemma wp_spic_read f cmd buf n c s Q :
  idle f c s → bytes_ok cmd → (n ≤ length buf)%nat →
  (∀ t d, 0 ≤ t → flash_exec d cmd (later t c) ≠ None) →
  (∀ s' t d c' data, 0 ≤ t → length data = n → received c t cmd data →
     flash_exec d cmd (later t c) = Some c' → soon (idle f) c' s' →
     Q (Z.of_nat n, data ++ drop n buf) s') →
  wp (spic_read cmd buf n) Q s.
Proof.
  intros Hs Hcmd Hn Hx HQ. unfold spic_read, spic_transfer.
  eapply wp_select; [done|]. intros s1 (t1 & Ht1 & H1).
  apply wp_bind. eapply wp_spic_send; [done..|]. intros s2 (t2 & Ht2 & H2). cbn -[mbind].
  rewrite later_later in H2 by lia.
  apply wp_bind. eapply (wp_spic_receive f cmd n [] buf c (t2 + t1)); [done|lia|done|done|].
  cbn [length Nat.add]. intros s3 t3 data Ht3 H3 Hr Hl.
  eapply wp_deselect; [done| |].
  - intros t d Ht. rewrite later_later by lia. apply Hx. lia.
  - intros s4 t d c' Ht Hc Hi. rewrite later_later in Hc by lia.
    eapply HQ; [|done| |done|done]; [lia|]. intros i v Hv. destruct (Hr i v Hv) as (? & u & ? & ?).
    split; [done|]. exists u. split; [lia|done].
Qed.

(** * The status register, and waiting *)

Lemma exec_rdsr d c : flash_exec d [OPCODE_RDSR] c = Some c.
Proof. unfold flash_exec. by destruct (0 <? fl_busy c). Qed.

Lemma wp_raspi_read_sr f c s x Q :
  idle f c s →
  (∀ s' t v, 0 ≤ t → idle f (later t c) s' →
     (∃ u, 0 ≤ u ≤ t ∧ flash_answer (later u c) [OPCODE_RDSR] 0 v) → Q (0, v) s') →
  wp (raspi_read_sr x) Q s.
Proof.
  intros Hs HQ. unfold raspi_read_sr. apply wp_bind. eapply wp_spic_read; [done|by repeat constructor|done|..].
  - intros. by rewrite exec_rdsr.
  - intros s' t d c' data Ht Hl Hr Hc (t' & Ht' & Hi). rewrite exec_rdsr in Hc. injection Hc as <-.
    destruct data as [|v [|]]; [done| |done]. apply wp_ret.
    destruct (Hr 0%nat v eq_refl) as (_ & u & Hu & Ha). rewrite later_later in Hi by done.
    eapply (HQ _ (t' + t)); [lia|done|]. exists u. split; [lia|done].
Qed.

(** The bits that the waits look at. *)
Lemma wip_or_epe v :
  Z.testbit v 5 = false → (Z.land v (Z.lor SR_WIP SR_EPE) =? 0) = negb (Z.testbit v 0).
Proof.
  intros H5. change (Z.lor SR_WIP SR_EPE) with 33. destruct (Z.testbit v 0) eqn:Hv0; cbn [negb].
  - apply Z.eqb_neq. intros E. assert (Z.testbit (Z.land v 33) 0 = true) as Hb
      by (by rewrite Z.land_spec, Hv0). by rewrite E in Hb.
  - apply Z.eqb_eq, Z.bits_inj'. intros i Hi. rewrite Z.land_spec, Z.bits_0.
    destruct (decide (i = 0)) as [->|]; [by rewrite Hv0|].
    destruct (decide (i = 5)) as [->|]; [by rewrite H5|].
    rewrite andb_false_iff. right. destruct (decide (i < 6)).
    + assert (i = 1 ∨ i = 2 ∨ i = 3 ∨ i = 4) as Hi4 by lia. by destruct Hi4 as [->|[->|[->| ->]]].
    + apply (word_bits 6); lia.
Qed.

Definition pause_ok (pause : io (raspi HW) ()) : Prop := ∀ f c s Q,
  idle f c s → (∀ s' t, 1 ≤ t → idle f (later t c) s' → Q () s') → wp pause Q s.

(** The wait succeeds when there are more readings than microseconds to go. *)
Lemma wp_wait_loop f c s n pause Q :
  idle f c s → pause_ok pause → 0 ≤ fl_busy c < Z.pos n →
  (∀ s', idle f (c ⦃ fl_busy := 0 ⦄) s' → Q 0 s') → wp (wait_loop n pause) Q s.
Proof.
  intros Hs Hp Hn HQ. unfold wait_loop. apply wp_bind.
  eapply (wp_rounds _ (λ m (_ : Z) s', 0 ≤ m ∧ idle f (c ⦃ fl_busy := m ⦄) s')
            (λ r s', r = 0 ∧ idle f (c ⦃ fl_busy := 0 ⦄) s') _ (fl_busy c)).
  - split; [lia|]. by destruct c.
  - lia.
  - by intros m sr s' [? _].
  - clear s Hs. intros m sr s (Hm & Hs). apply wp_bind. eapply wp_raspi_read_sr; [done|].
    intros s1 t v Ht Hs1 (u & Hu & Hb & H5 & _). cbn [Z.ltb]. rewrite wip_or_epe by done.
    change (0 <? 0) with false. cbn match.
    set (c0 := c ⦃ fl_busy := m ⦄) in *.
    destruct (later_busy u c0) as [_ Hbu]; [lia|]. destruct (later_busy t c0) as [_ Hbt]; [lia|].
    assert (fl_busy c0 = m) as Hc0 by done. rewrite Hc0 in Hbu, Hbt.
    destruct (Z.testbit v 0); cbn [negb].
    + symmetry in Hb. apply Z.ltb_lt in Hb. assert (u < m) by lia.
      apply wp_bind. eapply Hp; [done|]. intros s2 t2 Ht2 Hs2. apply wp_ret.
      rewrite later_later in Hs2 by lia. destruct (later_busy (t2 + t) c0) as [_ Hb2]; [lia|].
      rewrite Hc0 in Hb2. exists (fl_busy (later (t2 + t) c0)).
      rewrite later_eq in Hs2. split; [lia|]. split; [lia|done].
    + apply wp_ret. split; [done|]. symmetry in Hb. apply Z.ltb_ge in Hb.
      assert (fl_busy (later t c0) = 0) as Hz.
      { unfold later in Hb |- *. repeat case_match; cbn in *; lia. }
      rewrite later_eq, Hz in Hs1. done.
  - intros r s' (-> & Hs1). apply wp_ret. by apply HQ.
Qed.

Lemma udelay_ok : pause_ok (udelay 1).
Proof.
  intros f c s Q (? & ? & ? & ? & ? & <-) HQ. apply wp_modify.
  destruct (bus_udelay 1 (hw s)) as (t & Ht & Hb). eapply HQ; [done|].
  split_and!; [done|done|..]; cbn; by rewrite Hb.
Qed.

Lemma usleep_ok : pause_ok (usleep 1).
Proof.
  intros f c s Q (? & ? & ? & ? & ? & <-) HQ.
  destruct (hw_schedule 1 (hw s)) as [r h] eqn:E.
  destruct (bus_schedule _ _ _ _ E) as (-> & t & Ht & Hb); [done|].
  exists (), (s ⦃ hw := h ⦄). split.
  - unfold usleep. change (usecs_to_jiffies 1) with 1.
    cbn. unfold mbind, io_bind, schedule_timeout_interruptible. rewrite E. done.
  - eapply HQ; [done|]. split_and!; [done|done|..]; cbn; by rewrite Hb.
Qed.

Lemma wp_raspi_wait_ready f c s ms Q :
  idle f c s → 0 ≤ fl_busy c < (ms + 1) * 1000 * 500 →
  (∀ s', idle f (c ⦃ fl_busy := 0 ⦄) s' → Q 0 s') → wp (raspi_wait_ready ms) Q s.
Proof. intros Hs Hb HQ. eapply wp_wait_loop; [done|apply udelay_ok|lia|done]. Qed.

Lemma wp_raspi_wait_sleep_ready f c s ms Q :
  idle f c s → 0 ≤ fl_busy c < (ms + 1) * 1000 →
  (∀ s', idle f (c ⦃ fl_busy := 0 ⦄) s' → Q 0 s') → wp (raspi_wait_sleep_ready ms) Q s.
Proof. intros Hs Hb HQ. eapply wp_wait_loop; [done|apply usleep_ok|lia|done]. Qed.

(** * Commands to a chip that is ready *)

(** A command whose effect depends on the hardware only in its duration. *)
Lemma wp_ready_write f c s cmd buf n (c' : Z → flash_chip_t) Q :
  idle f c s → fl_busy c = 0 → bytes_ok cmd → bytes_ok buf → (n ≤ length buf)%nat →
  (∀ d, flash_exec d (cmd ++ take n buf) c = Some (c' d)) →
  (∀ s' d, soon (idle f) (c' d) s' → Q (Z.of_nat n) s') →
  wp (spic_write cmd buf n) Q s.
Proof.
  intros Hs Hr Hcmd Hbuf Hn Hx HQ. eapply wp_spic_write; [done..| |].
  - intros t d _. by rewrite later_ready, Hx.
  - intros s' t d c2 _ Hc Hi. rewrite later_ready, Hx in Hc by done. injection Hc as <-. by eapply HQ.
Qed.

Lemma wp_ready_read f c s cmd buf n (c' : flash_chip_t) Q :
  idle f c s → fl_busy c = 0 → bytes_ok cmd → (n ≤ length buf)%nat →
  (∀ d, flash_exec d cmd c = Some c') → fl_busy c' = 0 →
  (∀ s' data, length data = n → (∀ i v, data !! i = Some v → byte_ok v ∧ flash_answer c cmd i v) →
     idle f c' s' → Q (Z.of_nat n, data ++ drop n buf) s') →
  wp (spic_read cmd buf n) Q s.
Proof.
  intros Hs Hr Hcmd Hn Hx Hr' HQ. eapply wp_spic_read; [done..| |].
  - intros t d _. by rewrite later_ready, Hx.
  - intros s' t d c2 data _ Hl Hrec Hc Hi. rewrite later_ready, Hx in Hc by done. injection Hc as <-.
    apply HQ; [done| |by apply soon_ready in Hi].
    intros i v Hv. destruct (Hrec i v Hv) as (? & u & _ & Ha). by rewrite later_ready in Ha.
Qed.

Lemma exec_wren d c : fl_busy c = 0 → flash_exec d [OPCODE_WREN] c = Some (c ⦃ fl_wel := true ⦄).
Proof. intros Hc. unfold flash_exec. by rewrite Hc. Qed.
Lemma exec_wrsr d v c :
  fl_busy c = 0 → fl_wel c = true →
  flash_exec d [OPCODE_WRSR; v] c =
    Some (c ⦃ fl_bp := Z.land v BP_MASK ⦄ ⦃ fl_wel := false ⦄ ⦃ fl_busy := cycle SECTOR_TIME d ⦄).
Proof. intros Hc Hw. unfold flash_exec. rewrite Hc. cbn -[cycle]. by rewrite Hw. Qed.

Lemma wp_raspi_write_enable f c s Q :
  idle f c s → fl_busy c = 0 → (∀ s', idle f (c ⦃ fl_wel := true ⦄) s' → Q 0 s') →
  wp raspi_write_enable Q s.
Proof.
  intros Hs Hr HQ. eapply (wp_ready_write _ _ _ _ _ _ (λ _, c ⦃ fl_wel := true ⦄));
    [done|done|by repeat constructor|by constructor|done|intros; by apply exec_wren|].
  intros s' _ Hi. apply HQ. by apply soon_ready in Hi.
Qed.

(** WRDI is ignored by a busy chip. *)
Lemma wp_raspi_write_disable f c s Q :
  idle f c s → (∀ s', (∃ b, soon (idle f) (c ⦃ fl_wel := b ⦄) s') → Q 0 s') → wp raspi_write_disable Q s.
Proof.
  intros Hs HQ. eapply wp_spic_write; [done|by repeat constructor|by constructor|done|..].
  - intros t d Ht. unfold flash_exec. by destruct (0 <? _).
  - intros s' t d c' Ht Hc Hi. apply HQ. cbn in Hc. unfold flash_exec in Hc.
    destruct (0 <? _); injection Hc as <-.
    + exists (fl_wel c). apply (soon_later _ t); [done|]. by destruct c.
    + exists false. apply (soon_later _ t); [done|]. revert Hi. unfold later. by case_match.
Qed.

End Facts.
