(* ===== verification/RaspiOps.v ===== *)
(** The operations of the SPI flash driver [Raspi] on a chip without block
    protection: a sector is erased, a page is programmed, bytes are read. *)

From S2P Require Import Prelude Flash Io Mtdpart Raspi SpiChip RaspiFacts.
#[global] Open Scope Z_scope.
#[global] Open Scope fw_scope.

(** * Addresses *)

Definition address (four : bool) (a : Z) : bytes :=
  if four then [byte_of a 3; byte_of a 2; byte_of a 1; byte_of a 0]
  else [byte_of a 2; byte_of a 1; byte_of a 0].

Lemma address_ok four a : bytes_ok (address four a).
Proof. destruct four; repeat constructor; apply u8_range. Qed.

Lemma address_length four a : length (address four a) = if four then 4%nat else 3%nat.
Proof. by destruct four. Qed.

Lemma of_be_address (four : bool) a :
  0 ≤ a < 2 ^ (if four then 32 else 24) → of_be (address four a) = a.
Proof.
  intros Ha. destruct four; unfold address, byte_of, of_be, u8; cbn [foldl];
    rewrite ?Z.shiftr_div_pow2 by lia; cbn -[Z.div Z.modulo Z.mul]; zlia.
Qed.

(** * The chip between two operations *)

(** The bank register in four-byte mode. *)
Definition bank4 (ch : chip_info) : Z := if chip_id ch =? 0x01 then 0x81 else 0x80.
Definition bank_of (ch : chip_info) (four : bool) : Z := if four then bank4 ch else 0.

(** Not protected, addresses of [four] bytes or not, the array [m]. *)
Record chip_at (four : bool) (ch : chip_info) (m : bytes) (c : flash_chip_t) : Prop := {
  co_mem : fl_mem c = m;
  co_bp : fl_bp c = 0;
  co_bank : fl_bank c = bank_of ch four;
  co_busy : 0 ≤ fl_busy c ≤ SECTOR_TIME;
  co_id : deref (fl_id c) = chip_id ch
}.
Abbreviation chip_ok := (chip_at false).

Lemma chip_at_later four ch m c t : 0 ≤ t → chip_at four ch m c → chip_at four ch m (later t c).
Proof.
  intros Ht [? ? ? Hb ?]. unfold later. case_match; [done|]. split; cbn; [done..| |done]. lia.
Qed.

Lemma chip_at_ready four ch m c : chip_at four ch m c → chip_at four ch m (c ⦃ fl_busy := 0 ⦄).
Proof. intros [? ? ? Hb ?]. by split. Qed.

Lemma chip_at_wel four ch m c b : chip_at four ch m c → chip_at four ch m (c ⦃ fl_wel := b ⦄).
Proof. intros [? ? ? Hb ?]. by split. Qed.

Section Ops.
Context {HW : Type} `{SpiFlash HW}.
Implicit Types (s : raspi HW) (c : flash_chip_t).

(** * The state of the driver *)

(** The driver is set up for the chip [ch]; its command buffer starts with [p]. *)
Definition dev (p : bytes) (lk : bool) (mi : mtd_info_t) (ch : chip_info) c s : Prop :=
  ∃ rest, length (p ++ rest) = 5%nat ∧
    idle (Some {| flash_lock := lk; flash_mtd := mi; flash_chip := ch; command := p ++ rest |}) c s.

(** Another command buffer. *)
Lemma dev_forget p lk mi ch c s : dev p lk mi ch c s → dev [] lk mi ch c s.
Proof. intros (rest & Hl & Hi). by exists (p ++ rest). Qed.

(** Lift a rule about [idle]. *)
Lemma dev_idle p lk mi ch c s :
  dev p lk mi ch c s → ∃ f, idle (Some f) c s ∧ flash_lock f = lk ∧ flash_mtd f = mi ∧ flash_chip f = ch ∧
    ∀ c' s', idle (Some f) c' s' → dev p lk mi ch c' s'.
Proof. intros (rest & Hl & Hi). eexists. split_and!; [done..|]. intros c' s' Hi'. by exists rest. Qed.

Lemma wp_get_flash f c s Q : idle (Some f) c s → Q f s → wp get_flash Q s.
Proof. intros (_ & Hf & _) HQ. exists f, s. split; [|done]. unfold get_flash. by rewrite Hf. Qed.

Lemma wp_set_flash g f c s Q :
  idle (Some f) c s → (∀ s', idle (Some (g f)) c s' → Q () s') → wp (set_flash g) Q s.
Proof.
  intros Hs HQ. unfold set_flash. apply wp_bind. eapply wp_get_flash; [done|]. apply wp_modify, HQ.
  destruct Hs as (? & ? & ?). by split_and!.
Qed.

Lemma wp_chip p lk mi ch c s Q : dev p lk mi ch c s → Q ch s → wp chip Q s.
Proof.
  intros (rest & _ & Hi) HQ. unfold chip. apply wp_bind. eapply wp_get_flash; [done|]. by apply wp_ret.
Qed.

Lemma wp_flash_size p lk mi ch c s Q : dev p lk mi ch c s → Q (mtd_size mi) s → wp flash_size Q s.
Proof.
  intros (rest & _ & Hi) HQ. unfold flash_size. apply wp_bind. eapply wp_get_flash; [done|]. by apply wp_ret.
Qed.

Lemma wp_down p mi ch c s Q :
  dev p false mi ch c s → (∀ s', dev p true mi ch c s' → Q () s') → wp down Q s.
Proof.
  intros (rest & Hl & Hi) HQ. unfold down. apply wp_bind. eapply wp_get_flash; [done|]. cbn.
  eapply wp_set_flash; [done|]. intros s' Hs'. apply HQ. by exists rest.
Qed.

Lemma wp_up p lk mi ch c s Q :
  dev p lk mi ch c s → (∀ s', dev p false mi ch c s' → Q () s') → wp up Q s.
Proof.
  intros (rest & Hl & Hi) HQ. eapply wp_set_flash; [done|]. intros s' Hs'. apply HQ. by exists rest.
Qed.

(** The opcode, then the address. *)
Lemma wp_set_opcode op p lk mi ch c s Q :
  dev p lk mi ch c s → (∀ s', dev [op] lk mi ch c s' → Q () s') → wp (set_command 0 [op]) Q s.
Proof.
  intros (rest & Hl & Hi) HQ. unfold set_command. apply wp_bind. eapply wp_get_flash; [done|]. cbn [command].
  destruct (p ++ rest) as [|b l] eqn:E; [done|]. cbn in Hl. unfold store. rewrite decide_True by (cbn; lia).
  eapply wp_set_flash; [done|]. intros s' Hs'. apply HQ. by exists l.
Qed.

Lemma wp_set_address four a op x lk mi ch c s Q :
  dev (op :: x) lk mi ch c s → (∀ s', dev (op :: address four a) lk mi ch c s' → Q () s') →
  wp (set_address four a) Q s.
Proof.
  intros (rest & Hl & Hi) HQ. unfold set_address, set_command. apply wp_bind. eapply wp_get_flash; [done|].
  cbn [command]. fold (address four a). cbn [app length] in Hl.
  pose proof (address_length four a) as Ha.
  unfold store. rewrite decide_True by (cbn [app length]; destruct four; lia).
  eapply wp_set_flash; [done|]. intros s' Hs'. apply HQ.
  exists (drop (length (address four a)) (x ++ rest)). split; [|exact Hs'].
  rewrite length_app, length_drop. cbn [length]. destruct four; lia.
Qed.

Lemma wp_get_command n p lk mi ch c s Q :
  dev p lk mi ch c s → n = length p → Q p s → wp (get_command n) Q s.
Proof.
  intros (rest & Hl & Hi) -> HQ. unfold get_command. apply wp_bind. eapply wp_get_flash; [done|]. cbn [command].
  unfold load. rewrite decide_True by (rewrite length_app; lia). rewrite drop_0, take_app_length.
  by apply wp_ret.
Qed.

Lemma cycle_range b d : 0 ≤ b → 0 ≤ cycle b d ≤ b.
Proof. unfold cycle. lia. Qed.

(** * Protection and the address mode *)

Lemma wp_raspi_unprotect f c s Q :
  idle f c s → fl_busy c = 0 → fl_bp c = 0 → (∀ s', idle f c s' → Q None s') → wp raspi_unprotect Q s.
Proof.
  intros Hs Hr Hb HQ. unfold raspi_unprotect. apply wp_bind. eapply wp_raspi_read_sr; [done|].
  intros s1 t v Ht Hs1 (u & _ & _ & _ & Hv). rewrite later_ready in Hs1, Hv by done.
  rewrite Hb in Hv. change (Z.land 0 BP_MASK) with 0 in Hv. change (Z.lor (Z.lor SR_BP0 SR_BP1) SR_BP2) with BP_MASK.
  rewrite Hv. cbn [Z.ltb Z.eqb negb when]. change (0 <? 0) with false. cbn match.
  apply wp_bind, wp_ret, wp_ret. by apply HQ.
Qed.

(** A chip that is ready and has its latch set, but is protected: the status is
    written, and the latch is gone. *)
Lemma wp_raspi_unprotect_protected f c s Q :
  idle f c s → fl_busy c = 0 → fl_wel c = true → Z.land (fl_bp c) BP_MASK ≠ 0 →
  (∀ s' b, 0 ≤ b ≤ SECTOR_TIME → idle f (c ⦃ fl_bp := 0 ⦄ ⦃ fl_wel := false ⦄ ⦃ fl_busy := b ⦄) s' → Q None s') →
  wp raspi_unprotect Q s.
Proof.
  intros Hs Hr Hw Hb HQ. unfold raspi_unprotect. apply wp_bind. eapply wp_raspi_read_sr; [done|].
  intros s1 t v Ht Hs1 (u & _ & _ & _ & Hv). rewrite later_ready in Hs1, Hv by done.
  change (Z.lor (Z.lor SR_BP0 SR_BP1) SR_BP2) with BP_MASK. rewrite Hv.
  change (0 <? 0) with false. cbn match. rewrite (proj2 (Z.eqb_neq _ _) Hb). cbn [negb when].
  apply wp_bind, wp_bind. unfold raspi_write_sr. apply wp_bind.
  eapply (wp_ready_write _ _ _ [OPCODE_WRSR] [0] 1
            (λ d, c ⦃ fl_bp := 0 ⦄ ⦃ fl_wel := false ⦄ ⦃ fl_busy := cycle SECTOR_TIME d ⦄));
    [done|done|by repeat constructor|by repeat constructor|done| |].
  - intros d. by apply exec_wrsr.
  - intros s2 d (t2 & Ht2 & Hs2). apply wp_ret, wp_ret, wp_ret.
    pose proof (cycle_range SECTOR_TIME d ltac:(done)).
    rewrite later_eq in Hs2. eapply HQ; [|exact Hs2].
    destruct (later_busy t2 (c ⦃ fl_bp := 0 ⦄ ⦃ fl_wel := false ⦄ ⦃ fl_busy := cycle SECTOR_TIME d ⦄) Ht2) as [_ Hbb].
    cbn [fl_busy set] in Hbb. cbn -[later] in Hbb |- *. lia.
Qed.

Lemma four_byte_bank ch c four : fl_bank c = bank_of ch four → four_byte c = four.
Proof. unfold four_byte, bank_of, bank4. intros ->. destruct four; [|done]. by case_match. Qed.

Lemma exec_brwr d v c :
  fl_busy c = 0 → spansion c = true → flash_exec d [OPCODE_BRWR; v] c = Some (c ⦃ fl_bank := v ⦄).
Proof. intros Hc Hs. unfold flash_exec. rewrite Hc. cbn. by rewrite Hs. Qed.
Lemma exec_brrd d c : fl_busy c = 0 → spansion c = true → flash_exec d [OPCODE_BRRD] c = Some c.
Proof. intros Hc Hs. unfold flash_exec. rewrite Hc. cbn. by rewrite Hs. Qed.
Lemma exec_en4b d c :
  fl_busy c = 0 → spansion c = false →
  flash_exec d [0xB7] c = Some (c ⦃ fl_bank := Z.setbit (fl_bank c) 7 ⦄).
Proof. intros Hc Hs. unfold flash_exec. rewrite Hc. cbn. by rewrite Hs. Qed.
Lemma exec_ex4b d c :
  fl_busy c = 0 → spansion c = false →
  flash_exec d [0xE9] c = Some (c ⦃ fl_bank := Z.clearbit (fl_bank c) 7 ⦄).
Proof. intros Hc Hs. unfold flash_exec. rewrite Hc. cbn. by rewrite Hs. Qed.

(** Change a bit of the configuration register: the next transfer sets it anyway. *)
Lemma wp_cfg_aor mask val f c s Q :
  idle f c s → fl_busy c = 0 → (∀ s', idle f c s' → Q () s') → wp (ra_aor RT2880_SPICFG_REG mask val) Q s.
Proof.
  intros Hs Hr HQ. unfold ra_aor. apply wp_bind. eapply wp_other_inl; [done..|]. intros v s1 Hs1.
  apply soon_ready in Hs1; [|done]. eapply wp_other_outl; [done..|]. intros s2 Hs2.
  apply soon_ready in Hs2; [|done]. by apply HQ.
Qed.

Lemma wp_raspi_write_rg v f c s Q :
  idle f c s → fl_busy c = 0 → spansion c = true → byte_ok v →
  (∀ s', idle f (c ⦃ fl_bank := v ⦄) s' → Q 0 s') → wp (raspi_write_rg v OPCODE_BRWR) Q s.
Proof.
  intros Hs Hr Hsp Hv HQ. unfold raspi_write_rg. apply wp_bind. eapply wp_other_inl; [done..|].
  intros dr s1 Hs1. apply soon_ready in Hs1; [|done].
  apply wp_bind. eapply wp_other_outl; [done..|]. intros s2 Hs2. apply soon_ready in Hs2; [|done].
  apply wp_bind. eapply (wp_ready_write _ _ _ _ _ _ (λ _, c ⦃ fl_bank := v ⦄));
    [done|done|by repeat constructor|by apply Forall_singleton|done|intros; by apply exec_brwr|].
  intros s3 _ Hs3. apply soon_ready in Hs3; [|done].
  apply wp_bind. eapply wp_other_outl; [done..|]. intros s4 Hs4. apply soon_ready in Hs4; [|done].
  apply wp_ret. by apply HQ.
Qed.

Lemma wp_raspi_4byte_mode four p lk mi ch c s Q :
  dev p lk mi ch c s → deref (fl_id c) = chip_id ch → fl_bank c = 0 ∨ fl_bank c = bank4 ch →
  0 ≤ fl_busy c ≤ SECTOR_TIME →
  (∀ s', dev p lk mi ch (c ⦃ fl_busy := 0 ⦄ ⦃ fl_bank := bank_of ch four ⦄) s' → Q 0 s') →
  wp (raspi_4byte_mode four) Q s.
Proof.
  intros Hs Hid Hbank Hb HQ. destruct (dev_idle _ _ _ _ _ _ Hs) as (f & Hi & _ & _ & Hch & Hdev).
  unfold raspi_4byte_mode. apply wp_bind. eapply wp_raspi_wait_ready; [done|unfold SECTOR_TIME in Hb; lia|].
  intros s1 Hs1. apply wp_bind. eapply wp_chip; [by apply Hdev|].
  assert (spansion (c ⦃ fl_busy := 0 ⦄) = (chip_id ch =? 1)) as Hsp.
  { unfold spansion. cbn. by rewrite Hid. }
  destruct (chip_id ch =? 0x01) eqn:Hone.
  - assert (byte_ok (bank_of ch four)) as Hok.
    { unfold bank_of, bank4. rewrite Hone. by destruct four. }
    assert ((if four then 0x81 else 0x0) = bank_of ch four) as -> by (unfold bank_of, bank4; by rewrite Hone).
    apply wp_bind. eapply (wp_mono _ (λ _ s', idle (Some f) (c ⦃ fl_busy := 0 ⦄) s')).
    { destruct four; unfold ra_or, ra_and; by eapply wp_cfg_aor. }
    intros _ s2 Hs2. apply wp_bind. eapply wp_raspi_write_rg; [done..|]. intros s3 Hs3.
    apply wp_bind. unfold raspi_read_rg. apply wp_bind.
    eapply wp_ready_read; [done|done|by repeat constructor|done|intros; by apply exec_brrd|done|].
    intros s4 data Hl Ha Hs4. destruct data as [|v [|]]; [done| |done].
    destruct (Ha 0%nat v eq_refl) as [_ Hv]. unfold flash_answer in Hv. cbn in Hv.
    unfold spansion in Hsp, Hv. cbn in Hsp, Hv. rewrite Hsp in Hv. cbn [andb] in Hv.
    unfold byte_ok in Hok. rewrite u8_id in Hv by lia. subst v.
    apply wp_ret. cbn -[bank_of]. rewrite Z.eqb_refl. apply wp_ret, HQ, Hdev, Hs4.
  - assert (∃ code, (if four then 0xB7 else 0xE9) = code ∧ byte_ok code ∧
      ∀ d, flash_exec d [code] (c ⦃ fl_busy := 0 ⦄) = Some (c ⦃ fl_busy := 0 ⦄ ⦃ fl_bank := bank_of ch four ⦄))
      as (code & -> & Hok & Hx).
    { unfold bank_of, bank4 in *. rewrite Hone in *. destruct four; eexists; (split_and!; [done|done|]); intros d.
      - rewrite exec_en4b by done. cbn [fl_bank set]. cbn -[Z.setbit]. by destruct Hbank as [-> | ->].
      - rewrite exec_ex4b by done. cbn [fl_bank set]. cbn -[Z.clearbit]. by destruct Hbank as [-> | ->]. }
    apply wp_bind. eapply wp_ready_read; [done|done|by apply Forall_singleton|done|done|done|].
    intros s2 data Hl _ Hs2. cbn match. apply wp_ret, HQ, Hdev, Hs2.
Qed.

(** * Erasing a sector *)

Definition fits (ch : chip_info) (m : bytes) : Prop :=
  Z.of_nat (length m) ≤ 2 ^ (if addr4b ch then 32 else 24).

(** The driver is set up for [ch] and the chip holds [m]. *)
Definition spi_state (lk : bool) (mi : mtd_info_t) (ch : chip_info) (m : bytes) s : Prop :=
  ∃ c, dev [] lk mi ch c s ∧ chip_ok ch m c.

Lemma take_address four a rest c :
  four_byte c = four → take (addr_len c) (address four a ++ rest) = address four a ∧
  drop (addr_len c) (address four a ++ rest) = rest.
Proof.
  intros Hf. unfold addr_len. rewrite Hf. pose proof (address_length four a) as Hl.
  rewrite <-Hl. by rewrite take_app_length, drop_app_length.
Qed.

Lemma exec_se d four a c m :
  fl_busy c = 0 → fl_wel c = true → fl_bp c = 0 → four_byte c = four → fl_mem c = m →
  0 ≤ a < Z.of_nat (length m) → Z.of_nat (length m) ≤ 2 ^ (if four then 32 else 24) →
  flash_exec d (OPCODE_SE :: address four a) c =
    Some (c ⦃ fl_mem := erase_sector m (Z.to_nat a) ⦄ ⦃ fl_wel := false ⦄ ⦃ fl_busy := cycle SECTOR_TIME d ⦄).
Proof.
  intros Hr Hw Hp Hf Hm Ha Hfit. unfold flash_exec. rewrite Hr. cbn match. change (0 <? 0) with false.
  cbn -[addr_len take drop of_be cycle address fl_mem Z.to_nat]. rewrite Hw. cbn [negb].
  destruct (take_address four a [] c Hf) as [Ht Hd]. rewrite app_nil_r in Ht, Hd.
  rewrite Ht, Hd, of_be_address by lia.
  rewrite bool_decide_true; [by rewrite Hm|].
  split_and!; [done|done| |].
  - rewrite address_length. unfold addr_len. by rewrite Hf.
  - rewrite Hm. lia.
Qed.

Lemma wp_erase_command {A} four a c lk mi ch m s (k : io _ A) Q :
  dev (OPCODE_SE :: address four a) lk mi ch c s → fl_busy c = 0 → fl_wel c = true → fl_bp c = 0 →
  four_byte c = four → fl_mem c = m → 0 ≤ a < Z.of_nat (length m) →
  Z.of_nat (length m) ≤ 2 ^ (if four then 32 else 24) →
  (∀ s', dev [] lk mi ch (c ⦃ fl_mem := erase_sector m (Z.to_nat a) ⦄ ⦃ fl_wel := false ⦄) s' → wp k Q s') →
  wp (cmd ← get_command (if four then 5 else 4)%nat; spic_write cmd [] 0;; raspi_wait_sleep_ready 950;; k) Q s.
Proof.
  intros Hs Hr Hw Hbp Hf Hm Ha Hfit HQ. apply wp_bind. eapply wp_get_command; [done| |].
  { cbn. rewrite address_length. by destruct four. }
  destruct (dev_idle _ _ _ _ _ _ Hs) as (f & Hi & _ & _ & _ & Hdev).
  apply wp_bind. eapply (wp_ready_write _ _ _ _ [] 0); [done|done| |by constructor|done| |].
  - constructor; [done|]. apply address_ok.
  - intros d. rewrite take_0, app_nil_r. by apply exec_se.
  - intros s1 d (t & Ht & Hs1). pose proof (cycle_range SECTOR_TIME d ltac:(done)).
    set (c1 := c ⦃ fl_mem := _ ⦄ ⦃ fl_wel := false ⦄ ⦃ fl_busy := cycle SECTOR_TIME d ⦄) in *.
    destruct (later_busy t c1 Ht) as [_ Hb]. assert (fl_busy c1 = cycle SECTOR_TIME d) as Hc1 by done.
    apply wp_bind. eapply wp_raspi_wait_sleep_ready; [done|unfold SECTOR_TIME in *; lia|].
    intros s2 Hs2. apply HQ. eapply dev_forget, Hdev. rewrite later_eq in Hs2.
    unfold c1 in Hs2. cbn -[later erase_sector] in Hs2 |- *. by rewrite Hr.
Qed.

Lemma wp_raspi_erase_sector a mi ch m s Q :
  spi_state true mi ch m s → fits ch m → 0 ≤ a < Z.of_nat (length m) →
  (∀ s', spi_state true mi ch (erase_sector m (Z.to_nat a)) s' → Q 0 s') →
  wp (raspi_erase_sector a) Q s.
Proof.
  intros (c & Hs & Hc) Hfit Ha HQ. destruct (dev_idle _ _ _ _ _ _ Hs) as (f & Hi & _ & _ & _ & Hdev).
  unfold raspi_erase_sector. pose proof (co_busy _ _ _ _ Hc) as Hb.
  apply wp_bind. eapply wp_raspi_wait_ready; [done|unfold SECTOR_TIME in Hb; lia|]. intros s1 Hs1.
  cbn [negb Z.eqb]. change (0 =? 0) with true. cbn [negb].
  apply wp_bind. eapply wp_raspi_write_enable; [done|done|]. intros s2 Hs2.
  apply wp_bind. eapply wp_raspi_unprotect; [done|done|apply Hc|]. intros s3 Hs3.
  apply wp_bind. eapply wp_chip; [by apply Hdev|]. apply Hdev in Hs3.
  set (c1 := c ⦃ fl_busy := 0 ⦄ ⦃ fl_wel := true ⦄) in *.
  unfold fits in Hfit. destruct (addr4b ch) eqn:E4.
  - apply wp_bind. eapply wp_set_opcode; [done|]. intros s4 Hs4.
    apply wp_bind. eapply wp_set_address; [done|]. intros s5 Hs5.
    apply wp_bind. eapply (wp_raspi_4byte_mode true); [done|apply Hc|left; apply Hc|done|]. intros s6 Hs6.
    destruct (dev_idle _ _ _ _ _ _ Hs6) as (f6 & Hi6 & _ & _ & _ & Hdev6).
    apply wp_bind. eapply wp_raspi_write_enable; [done|done|]. intros s7 Hs7. apply Hdev6 in Hs7.
    eapply (wp_erase_command true); [done|done|done|apply Hc| |apply Hc|done|done|].
    { by eapply four_byte_bank. }
    intros s8 Hs8. apply wp_bind.
    eapply (wp_raspi_4byte_mode false); [done|apply Hc|right; done|done|]. intros s9 Hs9.
    apply wp_ret, HQ. eexists. split; [exact Hs9|]. destruct Hc as [? ? ? ? ?]. by split.
  - apply wp_bind. eapply wp_set_opcode; [done|]. intros s4 Hs4.
    apply wp_bind. eapply wp_set_address; [done|]. intros s5 Hs5.
    eapply (wp_erase_command false); [done|done|done|apply Hc| |apply Hc|done|done|].
    { eapply (four_byte_bank ch). apply Hc. }
    intros s6 Hs6. destruct (dev_idle _ _ _ _ _ _ Hs6) as (f6 & Hi6 & _ & _ & _ & Hdev6).
    apply wp_bind. eapply wp_raspi_write_disable; [done|]. intros s7 (b & t & Ht & Hs7).
    apply wp_ret, HQ. eexists. split; [by apply Hdev6|].
    apply chip_at_later, chip_at_wel; [done|]. destruct Hc as [? ? ? ? ?]. by split.
Qed.

(** * Reading *)

Lemma exec_read d args c : flash_exec d (OPCODE_READ :: args) c = Some c.
Proof. unfold flash_exec. by destruct (0 <? fl_busy c). Qed.

Lemma wp_read_command {A} four a n lk mi ch c m buf s (k : Z * bytes → io _ A) Q :
  dev (OPCODE_READ :: address four a) lk mi ch c s → fl_busy c = 0 → four_byte c = four → fl_mem c = m →
  bytes_ok m → 0 ≤ a → (Z.to_nat a + n ≤ length m)%nat → (n ≤ length buf)%nat →
  Z.of_nat (length m) ≤ 2 ^ (if four then 32 else 24) → (0 < n)%nat →
  (∀ s', dev (OPCODE_READ :: address four a) lk mi ch c s' →
     wp (k (Z.of_nat n, take n (drop (Z.to_nat a) m) ++ drop n buf)) Q s') →
  wp (cmd ← get_command (if four then 5 else 4)%nat; r ← spic_read cmd buf n; k r) Q s.
Proof.
  intros Hs Hr Hf Hm Hok Ha Hn Hbuf Hfit Hpos HQ. apply wp_bind. eapply wp_get_command; [done| |].
  { cbn. rewrite address_length. by destruct four. }
  destruct (dev_idle _ _ _ _ _ _ Hs) as (f & Hi & _ & _ & _ & Hdev).
  apply wp_bind. eapply wp_ready_read; [done|done| |done|intros; apply exec_read|done|].
  { constructor; [done|]. apply address_ok. }
  intros s1 data Hl Hd Hs1. assert (data = take n (drop (Z.to_nat a) m)) as ->; [|by apply HQ, Hdev].
  apply list_eq. intros i. destruct (decide (i < n)%nat) as [Hin|Hin].
  - rewrite lookup_take_lt, lookup_drop by done.
    destruct (lookup_lt_is_Some_2 data i) as [v Hv]; [lia|].
    destruct (lookup_lt_is_Some_2 m (Z.to_nat a + i)) as [b Hb]; [lia|].
    rewrite Hv, Hb. f_equal. destruct (Hd i v Hv) as [_ Ha'].
    unfold flash_answer in Ha'. rewrite Hr in Ha'. change (OPCODE_READ =? OPCODE_RDSR) with false in Ha'.
    change (OPCODE_READ =? OPCODE_RDID) with false in Ha'. change (OPCODE_READ =? OPCODE_READ) with true in Ha'.
    change (0 <? 0) with false in Ha'. cbn match in Ha'. rewrite of_be_address, Hm in Ha' by lia.
    rewrite (Ha' ltac:(by rewrite address_length; unfold addr_len; rewrite Hf) b Hb).
    apply u8_id. by eapply (Forall_lookup_1 byte_ok).
  - rewrite !lookup_ge_None_2; [done| |lia]. rewrite length_take. lia.
Qed.

Lemma wp_last {A B} (c : io (raspi HW) A) (f : A → io _ B) Q s :
  wp (a ← c; r ← f a; mret r) Q s → wp (a ← c; f a) Q s.
Proof.
  intros (r & s' & E & HQ). exists r, s'. split; [|done]. revert E. unfold mbind, io_bind.
  destruct (c s) as [[a ?]| |]; [|done..]. by destruct (f a _) as [[? ?]| |].
Qed.

Lemma wp_ramtd_read from len retlen buf mi ch m s Q :
  spi_state false mi ch m s → fits ch m → bytes_ok m → mtd_size mi = Z.of_nat (length m) →
  0 ≤ from → 0 < len < 2 ^ 32 → from + len ≤ mtd_size mi → len ≤ Z.of_nat (length buf) →
  (∀ s', spi_state false mi ch m s' →
     Q (0, put_len retlen len, take (Z.to_nat len) (drop (Z.to_nat from) m) ++ drop (Z.to_nat len) buf) s') →
  wp (ramtd_read from len retlen buf) Q s.
Proof.
  intros (c & Hs & Hc) Hfit Hok Hsize Hfrom Hlen Hend Hbuf HQ. unfold ramtd_read.
  rewrite (proj2 (Z.eqb_neq len 0)) by lia. apply wp_bind. eapply wp_flash_size; [done|].
  rewrite (proj2 (Z.ltb_ge (mtd_size mi) (from + len))) by lia.
  apply wp_bind. eapply wp_down; [done|]. intros s1 Hs1.
  destruct (dev_idle _ _ _ _ _ _ Hs1) as (f & Hi & _ & _ & _ & Hdev). pose proof (co_busy _ _ _ _ Hc) as Hb.
  apply wp_bind. eapply wp_raspi_wait_ready; [done|unfold SECTOR_TIME in Hb; lia|]. intros s2 Hs2.
  change (negb (0 =? 0)) with false. cbn match. apply Hdev in Hs2. apply chip_at_ready in Hc.
  set (c1 := c ⦃ fl_busy := 0 ⦄) in *.
  apply wp_bind. eapply wp_set_opcode; [done|]. intros s3 Hs3.
  apply wp_bind. eapply wp_chip; [done|]. apply wp_bind.
  set (d := take (Z.to_nat len) (drop (Z.to_nat from) m) ++ drop (Z.to_nat len) buf) in *.
  unfold fits in Hfit. assert (2 ^ 32 = 4294967296) as Hp32 by done. assert (2 ^ 24 = 16777216) as Hp24 by done.
  eapply (wp_mono _ (λ r s', r = (len, d) ∧ spi_state true mi ch m s')).
  - destruct (addr4b ch) eqn:E4.
    + apply wp_bind. eapply (wp_raspi_4byte_mode true); [done|apply Hc|left; apply Hc|done|]. intros s4 Hs4.
      apply wp_bind. eapply wp_set_address; [done|]. intros s5 Hs5.
      eapply (wp_read_command true); [done|done| |apply Hc|done|lia|lia|lia|lia|lia|].
      { by eapply four_byte_bank. }
      intros s6 Hs6. apply wp_bind.
      eapply (wp_raspi_4byte_mode false); [done|apply Hc|right; done|done|]. intros s7 Hs7.
      apply wp_ret. rewrite Z2Nat.id by lia. split; [done|]. eexists. split; [by eapply dev_forget|].
      destruct Hc as [? ? ? ? ?]. by split.
    + apply wp_bind. eapply wp_set_address; [done|]. intros s4 Hs4.
      eapply wp_last, (wp_read_command false); [done|done| |apply Hc|done|lia|lia|lia|lia|lia|].
      { eapply (four_byte_bank ch). apply Hc. }
      intros s5 Hs5. apply wp_ret. rewrite Z2Nat.id by lia. split; [done|]. exists c1. split; [by eapply dev_forget|done].
  - intros ? s4 (-> & c2 & Hs4 & Hc2). apply wp_bind. eapply wp_up; [done|]. intros s5 Hs5.
    rewrite u32_id by lia. rewrite Z.eqb_refl. cbn [negb].
    apply wp_ret. assert (put_len (put_len retlen 0) len = put_len retlen len) as -> by by destruct retlen.
    apply HQ. by exists c2.
Qed.

End Ops.
