(* ===== verification/RaspiWrite.v ===== *)
(** Writing with the SPI flash driver [Raspi]: pages are programmed so that the
    whole write clears the bits that are clear in the data, wherever it starts
    and however many pages it crosses; a range of sectors is erased, and a protected
    chip first loses an erase. *)

From S2P Require Import Prelude Flash FlashProps Io Mtdpart Raspi SpiChip RaspiFacts RaspiOps.
#[global] Open Scope Z_scope.
#[global] Open Scope fw_scope.

(** * Programming *)

Lemma nor_program_length m a d : (a + length d ≤ length m)%nat → length (nor_program m a d) = length m.
Proof.
  intros Ha. unfold nor_program. apply splice_length.
  rewrite length_zip_with, length_take, length_drop. lia.
Qed.

Lemma lookup_nor_program m a d i :
  (a + length d ≤ length m)%nat →
  nor_program m a d !! i =
    if decide (a ≤ i < a + length d)%nat then b ← m !! i; v ← d !! (i - a)%nat; Some (Z.land b v)
    else m !! i.
Proof.
  intros Ha. unfold nor_program.
  assert (length (zip_with Z.land (take (length d) (drop a m)) d) = length d) as Hl.
  { rewrite length_zip_with, length_take, length_drop. lia. }
  rewrite lookup_splice by lia. rewrite Hl. case_decide; [|done].
  rewrite lookup_zip_with, lookup_take_lt, lookup_drop by lia.
  by replace (a + (i - a))%nat with i by lia.
Qed.

Lemma nor_program_app m a d e :
  (a + length d + length e ≤ length m)%nat →
  nor_program (nor_program m a d) (a + length d) e = nor_program m a (d ++ e).
Proof.
  intros Ha. apply list_eq. intros i.
  rewrite (lookup_nor_program m) by (rewrite length_app; lia).
  rewrite lookup_nor_program by (rewrite nor_program_length; lia).
  rewrite lookup_nor_program by lia. rewrite length_app.
  repeat case_decide; try lia; try done.
  - rewrite lookup_app_r by lia. by replace (i - a - length d)%nat with (i - (a + length d))%nat by lia.
  - by rewrite lookup_app_l by lia.
Qed.

Lemma nor_program_nil m a : nor_program m a [] = m.
Proof. apply splice_nil. Qed.

Lemma nor_program_bytes m a d : bytes_ok m → bytes_ok (nor_program m a d).
Proof.
  intros Hm. unfold nor_program. apply splice_bytes_ok; [done|].
  apply zip_land_bytes. by apply bytes_ok_take, bytes_ok_drop.
Qed.

(** Within a page the chip does just that. *)
Lemma program_page_nor m a d :
  (a mod PAGE + length d ≤ PAGE)%nat → (a + length d ≤ length m)%nat →
  program_page m a d = nor_program m a d.
Proof.
  revert m a. induction d as [|v d IH]; intros m a Hp Ha; cbn [program_page]; [by rewrite nor_program_nil|].
  cbn [length] in *.
  assert (alter (λ b, Z.land b v) a m = nor_program m a [v]) as Hm.
  { apply list_eq. intros i. rewrite lookup_nor_program by (cbn; lia). cbn [length].
    case_decide.
    - replace i with a by lia. rewrite list_lookup_alter_eq, Nat.sub_diag. by destruct (m !! a).
    - rewrite list_lookup_alter_ne by lia. done. }
  rewrite Hm. assert (PAGE = 256%nat) as HP by done.
  destruct d as [|w d]; [done|].
  rewrite decide_False.
  - cbn [length] in *. rewrite IH.
    + replace (S a) with (a + length [v])%nat by (cbn; lia).
      by rewrite (nor_program_app m a [v] (w :: d)) by (cbn; lia).
    + cbn [length]. rewrite HP in *. zlia.
    + rewrite nor_program_length by (cbn; lia). cbn. lia.
  - cbn [length] in *. rewrite HP in *. zlia.
Qed.

Section Write.
Context {HW : Type} `{SpiFlash HW}.
Implicit Types (s : raspi HW) (c : flash_chip_t).

(** * A page *)

Lemma exec_pp d four a data c m :
  fl_busy c = 0 → fl_wel c = true → fl_bp c = 0 → four_byte c = four → fl_mem c = m →
  0 ≤ a → (Z.to_nat a + length data ≤ length m)%nat → Z.of_nat (length m) ≤ 2 ^ (if four then 32 else 24) →
  (0 < length data)%nat → a mod FLASH_PAGESIZE + Z.of_nat (length data) ≤ FLASH_PAGESIZE →
  flash_exec d ((OPCODE_PP :: address four a) ++ data) c =
    Some (c ⦃ fl_mem := nor_program m (Z.to_nat a) data ⦄ ⦃ fl_wel := false ⦄ ⦃ fl_busy := cycle PAGE_TIME d ⦄).
Proof.
  intros Hr Hw Hp Hf Hm Ha Hend Hfit Hl Hpage. unfold flash_exec. rewrite Hr. change (0 <? 0) with false.
  cbn -[addr_len take drop of_be cycle address fl_mem Z.to_nat program_page]. rewrite Hw. cbn [negb].
  destruct (take_address four a data c Hf) as [Ht Hd].
  rewrite Ht, Hd, of_be_address by lia. unfold FLASH_PAGESIZE in Hpage.
  assert (PAGE = 256%nat) as HP by done.
  assert ((Z.to_nat a mod PAGE)%nat = Z.to_nat (a mod 256)) as Hmod.
  { rewrite HP, Z2Nat.inj_mod by lia. done. }
  rewrite bool_decide_true.
  - rewrite Hm, program_page_nor; [done| |done]. rewrite Hmod, HP. zlia.
  - rewrite Hm. pose proof (Z.mod_pos_bound a 256). split_and!; [done|lia|rewrite HP; lia|lia].
Qed.

(** A wait that may also run out. *)
Lemma wp_wait_any f c s n pause Q :
  idle f c s → pause_ok pause → (∀ r s', soon (idle f) c s' → Q r s') → wp (wait_loop n pause) Q s.
Proof.
  intros Hs Hp HQ. unfold wait_loop. apply wp_bind.
  eapply wp_mono.
  - eapply (rounds_measure _ (λ (_ : Z) (_ : Z) s', soon (idle f) c s') (λ _ s', soon (idle f) c s') n 0);
      [|by apply soon_now].
    clear s Hs. intros m sr s (t & Ht & Hs). apply wp_bind. eapply wp_raspi_read_sr; [done|].
    intros s1 t1 v Ht1 Hs1 _. change (0 <? 0) with false. cbn match.
    rewrite later_later in Hs1 by lia.
    assert (soon (idle f) c s1) by (exists (t1 + t); split; [lia|done]).
    destruct (Z.land _ _ =? 0); [by apply wp_ret|]. apply wp_bind. eapply Hp; [done|].
    intros s2 t2 Ht2 Hs2. apply wp_ret. exists (m - 1). split; [lia|].
    exists (t2 + (t1 + t)). split; [lia|]. by rewrite <-later_later by lia.
  - intros [x|x] s1 Hs1; apply wp_ret, HQ; [by destruct Hs1 as (? & _ & ?)|done].
Qed.

(** The state within [ramtd_write]: addresses are of [addr4b ch] bytes. *)
Definition writing (mi : mtd_info_t) (ch : chip_info) (m : bytes) s : Prop :=
  ∃ c, dev [OPCODE_PP] true mi ch c s ∧ chip_at (addr4b ch) ch m c.

(** One page: the body of the loop up to the transfer. *)
Lemma wp_write_page {A} a data n mi ch m s (k : Z → io _ A) Q :
  writing mi ch m s → fits ch m → bytes_ok data → n = Z.to_nat (Z.of_nat n) →
  0 ≤ a → (0 < n ≤ length data)%nat → (Z.to_nat a + n ≤ length m)%nat →
  a mod FLASH_PAGESIZE + Z.of_nat n ≤ FLASH_PAGESIZE →
  (∀ s', writing mi ch (nor_program m (Z.to_nat a) (take n data)) s' → wp (k (Z.of_nat n)) Q s') →
  wp (set_address (addr4b ch) a;; raspi_wait_ready 3;; raspi_write_enable;; raspi_unprotect;;
      cmd ← get_command (if addr4b ch then 5 else 4)%nat;
      retval ← spic_write cmd data n; k retval) Q s.
Proof.
  intros (c & Hs & Hc) Hfit Hdata _ Ha Hn Hend Hpage HQ.
  apply wp_bind. eapply wp_set_address; [done|]. intros s1 Hs1.
  destruct (dev_idle _ _ _ _ _ _ Hs1) as (f & Hi & _ & _ & _ & Hdev).
  pose proof (co_busy _ _ _ _ Hc) as Hb.
  apply wp_bind. eapply wp_raspi_wait_ready; [done|unfold SECTOR_TIME in Hb; lia|]. intros s2 Hs2.
  apply wp_bind. eapply wp_raspi_write_enable; [done|done|]. intros s3 Hs3.
  apply wp_bind. eapply wp_raspi_unprotect; [done|done|apply Hc|]. intros s4 Hs4.
  apply wp_bind. eapply wp_get_command; [by apply Hdev| |].
  { cbn. rewrite address_length. by destruct (addr4b ch). }
  set (c1 := c ⦃ fl_busy := 0 ⦄ ⦃ fl_wel := true ⦄) in *.
  apply wp_bind. eapply (wp_ready_write _ _ _ _ data n); [done|done| |done|lia| |].
  - constructor; [done|]. apply address_ok.
  - intros d. apply (exec_pp _ _ _ _ c1 m); [done|done|apply Hc|eapply four_byte_bank, Hc|apply Hc|done|..];
      rewrite ?length_take, ?Nat.min_l by lia; lia || done.
  - intros s5 d (t & Ht & Hs5). apply Hdev in Hs5. apply HQ.
    destruct Hs5 as (rest & Hl & Hs5).
    eexists. split; [exists (address (addr4b ch) a ++ rest); split; [exact Hl|exact Hs5]|].
    apply chip_at_later; [done|]. destruct Hc as [? ? ? ? ?].
    pose proof (cycle_range PAGE_TIME d ltac:(done)).
    split; [done|done|done| |done]. change (0 ≤ cycle PAGE_TIME d ≤ SECTOR_TIME).
    unfold PAGE_TIME, SECTOR_TIME in *. lia.
Qed.

(** [*retlen += n]. *)
Definition add_len (retlen : option Z) (n : Z) : option Z := (λ r, u32 (r + n)) <$> retlen.

Lemma add_len_add retlen n k : add_len (add_len retlen n) k = add_len retlen (n + k).
Proof. destruct retlen; cbn; [|done]. f_equal. unfold u32. rewrite Zplus_mod_idemp_l. f_equal. lia. Qed.

Lemma wp_write_loop fuel to len page_offset count retlen data mi ch m s Q :
  writing mi ch m s → fits ch m → bytes_ok data →
  0 ≤ to → 0 < len ≤ Z.of_nat fuel → len ≤ Z.of_nat (length data) → to + len ≤ Z.of_nat (length m) →
  page_offset = to mod FLASH_PAGESIZE →
  (∀ s', writing mi ch (nor_program m (Z.to_nat to) (take (Z.to_nat len) data)) s' →
     Q (inr (add_len retlen len)) s') →
  wp (write_loop fuel to len page_offset count retlen data) Q s.
Proof.
  revert to len page_offset count retlen data m s Q. induction fuel as [|fuel IH];
    intros to len page_offset count retlen data m s Q Hs Hfit Hdata Hto Hlen Hbuf Hend Hpo HQ; [lia|].
  pose proof Hs as (c0 & Hdev0 & _).
  cbn [write_loop]. rewrite (proj2 (Z.ltb_lt 0 len)) by lia. cbn [negb].
  set (ps := Z.min len (FLASH_PAGESIZE - page_offset)).
  assert (0 ≤ page_offset < 256) as Hr by (subst page_offset; apply Z.mod_pos_bound; done).
  assert (0 < ps ≤ len ∧ ps ≤ 256 - page_offset) as Hps by (unfold ps, FLASH_PAGESIZE; lia).
  apply wp_bind. eapply wp_chip; [done|].
  eapply (wp_write_page to data (Z.to_nat ps)); [done|done|done|lia|done|lia|lia| |].
  { rewrite <-Hpo. unfold FLASH_PAGESIZE. lia. }
  intros s1 Hs1. rewrite Z2Nat.id by lia. rewrite (proj2 (Z.ltb_lt 0 ps)) by lia.
  rewrite Z.ltb_irrefl. cbn [andb].
  set (m1 := nor_program m (Z.to_nat to) (take (Z.to_nat ps) data)) in *.
  assert (length m1 = length m) as Hm1 by (unfold m1; rewrite nor_program_length; rewrite ?length_take; lia).
  assert (∀ s', writing mi ch m1 s' →
    wp (write_loop fuel (to + ps) (len - ps) 0 (count + 1) (add_len retlen ps) (drop (Z.to_nat ps) data)) Q s') as Hrest.
  { intros s2 Hs2. destruct (decide (len = ps)) as [Heq|Hne].
    - rewrite Heq, Z.sub_diag. destruct fuel; cbn; apply wp_ret; rewrite <-Heq in *;
        apply HQ; unfold m1 in Hs2; by rewrite <-Heq in Hs2.
    - assert (ps = 256 - page_offset) as Hfull by (unfold ps, FLASH_PAGESIZE in *; lia).
      eapply IH; [done| |by apply bytes_ok_drop|lia|lia| | | |].
      + unfold fits in *. by rewrite Hm1.
      + rewrite length_drop. lia.
      + rewrite Hm1. lia.
      + rewrite Hfull, Hpo. unfold FLASH_PAGESIZE. zlia.
      + intros s3 Hs3. rewrite add_len_add. replace (ps + (len - ps)) with len by lia. apply HQ.
        unfold m1 in Hs3. replace (Z.to_nat (to + ps)) with (Z.to_nat to + length (take (Z.to_nat ps) data))%nat
          in Hs3 by (rewrite length_take; lia).
        rewrite nor_program_app in Hs3 by (rewrite !length_take, length_drop; lia).
        replace (take (Z.to_nat ps) data ++ take (Z.to_nat (len - ps)) (drop (Z.to_nat ps) data))
          with (take (Z.to_nat len) data) in Hs3; [done|].
        replace (Z.to_nat len) with (Z.to_nat ps + Z.to_nat (len - ps))%nat by lia.
        symmetry. apply take_take_drop. }
  apply wp_bind, wp_when; [|intros _; by apply Hrest].
  intros _. destruct Hs1 as (c1 & Hd1 & Hc1).
  destruct (dev_idle _ _ _ _ _ _ Hd1) as (f & Hi & _ & _ & _ & Hdev).
  apply wp_bind. eapply wp_wait_any; [done|apply usleep_ok|]. intros r s2 (t & Ht & Hs2).
  apply wp_ret, Hrest. exists (later t c1). split; [by apply Hdev|by apply chip_at_later].
Qed.

Lemma wp_ramtd_write to len retlen data mi ch m s Q :
  spi_state false mi ch m s → fits ch m → bytes_ok data → mtd_size mi = Z.of_nat (length m) →
  0 ≤ to → 0 < len < 2 ^ 32 → to + len ≤ mtd_size mi → len ≤ Z.of_nat (length data) →
  (∀ s', spi_state false mi ch (nor_program m (Z.to_nat to) (take (Z.to_nat len) data)) s' →
     Q (0, put_len retlen len) s') →
  wp (ramtd_write to len retlen data) Q s.
Proof.
  intros (c & Hs & Hc) Hfit Hdata Hsize Hto Hlen Hend Hbuf HQ. unfold ramtd_write.
  rewrite (proj2 (Z.eqb_neq len 0)) by lia. apply wp_bind. eapply wp_flash_size; [done|].
  rewrite (proj2 (Z.ltb_ge (mtd_size mi) (to + len))) by lia.
  apply wp_bind. eapply wp_down; [done|]. intros s1 Hs1.
  destruct (dev_idle _ _ _ _ _ _ Hs1) as (f & Hi & _ & _ & _ & Hdev). pose proof (co_busy _ _ _ _ Hc) as Hb.
  apply wp_bind. eapply wp_raspi_wait_ready; [done|unfold SECTOR_TIME in Hb; lia|]. intros s2 Hs2.
  change (negb (0 =? 0)) with false. cbn match.
  apply wp_bind. eapply wp_raspi_write_enable; [done|done|]. intros s3 Hs3. apply Hdev in Hs3.
  set (c1 := c ⦃ fl_busy := 0 ⦄ ⦃ fl_wel := true ⦄) in *.
  apply wp_bind. eapply wp_set_opcode; [done|]. intros s4 Hs4.
  apply wp_bind. eapply wp_chip; [done|].
  apply wp_bind. eapply wp_set_address; [done|]. intros s5 Hs5.
  assert (∀ s', dev (OPCODE_PP :: address (addr4b ch) to) true mi ch
                  (c1 ⦃ fl_bank := bank_of ch (addr4b ch) ⦄) s' → writing mi ch m s') as Hwr.
  { intros s' (rest & Hl & Hs'). eexists. split.
    - exists (address (addr4b ch) to ++ rest). split; [exact Hl|exact Hs'].
    - destruct Hc as [? ? ? ? ?]. by split. }
  apply wp_bind. eapply (wp_mono _ (λ _, writing mi ch m)).
  { apply wp_when; intros E.
    - apply wp_bind. eapply (wp_raspi_4byte_mode true); [done|apply Hc|left; apply Hc|done|].
      intros s6 Hs6. apply wp_ret, Hwr. rewrite E in Hs6 |- *. exact Hs6.
    - apply Hwr. rewrite E in Hs5 |- *. rewrite <-(co_bank _ _ _ _ Hc). destruct c. exact Hs5. }
  intros _ s6 Hs6. apply wp_bind. eapply wp_write_loop; [done..|lia|lia|lia|done|].
  intros s7 (c7 & Hs7 & Hc7). apply wp_bind.
  eapply (wp_mono _ (λ _ s', ∃ c', dev [OPCODE_PP] true mi ch c' s' ∧
            chip_ok ch (nor_program m (Z.to_nat to) (take (Z.to_nat len) data)) c')).
  { apply wp_when; intros E; [|exists c7; split; [done|by rewrite E in Hc7]].
    apply wp_bind. eapply (wp_raspi_4byte_mode false); [done|apply Hc7| |apply Hc7|].
    - right. rewrite (co_bank _ _ _ _ Hc7), E. done.
    - intros s8 Hs8. apply wp_ret. eexists. split; [done|]. destruct Hc7 as [? ? ? ? ?]. by split. }
  intros _ s8 (c8 & Hs8 & Hc8). destruct (dev_idle _ _ _ _ _ _ Hs8) as (f8 & Hi8 & _ & _ & _ & Hdev8).
  apply wp_bind. eapply wp_raspi_write_disable; [done|]. intros s9 (b & t & Ht & Hs9). apply Hdev8 in Hs9.
  apply wp_bind. eapply wp_up; [done|]. intros s10 Hs10. apply wp_ret.
  assert (add_len (put_len retlen 0) len = put_len retlen len) as ->.
  { destruct retlen; cbn; [|done]. by rewrite u32_id by lia. }
  apply HQ. eexists. split; [by eapply dev_forget|]. by apply chip_at_later, chip_at_wel.
Qed.

End Write.

(** * Erasing *)

Definition nor_erase_range (m : bytes) (a n : nat) : bytes := splice m a (replicate n 0xff).

Lemma nor_erase_length m a n : (a + n ≤ length m)%nat → length (nor_erase_range m a n) = length m.
Proof. intros Ha. apply splice_length. by rewrite length_replicate. Qed.

Lemma nor_erase_bytes m a n : bytes_ok m → bytes_ok (nor_erase_range m a n).
Proof. intros Hm. apply splice_bytes_ok; [done|]. by apply bytes_ok_replicate. Qed.

Lemma nor_erase_add m a n k :
  (a + n + k ≤ length m)%nat → nor_erase_range (nor_erase_range m a n) (a + n) k = nor_erase_range m a (n + k).
Proof.
  intros Ha. unfold nor_erase_range. rewrite replicate_add.
  rewrite <-(length_replicate n 0xff) at 2. apply splice_two. rewrite !length_replicate. lia.
Qed.

Lemma erase_sector_aligned m a :
  Z.of_nat SECTOR = 65536 → a mod 65536 = 0 → 0 ≤ a →
  erase_sector m (Z.to_nat a) = nor_erase_range m (Z.to_nat a) SECTOR.
Proof.
  intros HS Hm Ha. unfold erase_sector, nor_erase_range. f_equal.
  apply Nat2Z.inj. rewrite Nat2Z.inj_mul, Nat2Z.inj_div, HS, Z2Nat.id by lia. zlia.
Qed.

Lemma sector_size_Z : Z.of_nat SECTOR = 65536.
Proof. unfold SECTOR. by rewrite Z2Nat.id. Qed.

Lemma sector_step a n :
  a mod 65536 = 0 → n mod 65536 = 0 → 0 < n →
  65536 ≤ n ∧ (a + 65536) mod 65536 = 0 ∧ (n - 65536) mod 65536 = 0.
Proof. intros Ha Hn Hpos. zlia. Qed.

Section Erase.
Context {HW : Type} `{SpiFlash HW}.
Implicit Types (s : raspi HW) (c : flash_chip_t).

Lemma wp_erase_loop fuel addr len mi ch m s Q :
  spi_state true mi ch m s → fits ch m → Z.of_nat (length m) < 2 ^ 32 →
  addr mod 65536 = 0 → len mod 65536 = 0 → 0 ≤ addr → 0 ≤ len ≤ 65536 * Z.of_nat fuel →
  addr + len ≤ Z.of_nat (length m) →
  (∀ s', spi_state true mi ch (nor_erase_range m (Z.to_nat addr) (Z.to_nat len)) s' → Q true s') →
  wp (erase_loop fuel 65536 addr len) Q s.
Proof.
  revert addr len m s Q. induction fuel as [|fuel IH]; intros addr len m s Q Hs Hfit Hm Haddr Hlen Ha Hl Hend HQ;
    cbn [erase_loop].
  - assert (len = 0) as -> by lia. cbn. apply wp_ret, HQ. unfold nor_erase_range. cbn. by rewrite splice_nil.
  - destruct (Z.ltb_spec 0 len) as [Hpos|Hz]; cbn [negb].
    2: { assert (len = 0) as -> by lia. apply wp_ret, HQ. unfold nor_erase_range. cbn. by rewrite splice_nil. }
    destruct (sector_step addr len Haddr Hlen Hpos) as (Hlen' & Haddr' & Hlen'').
    apply wp_bind. eapply wp_raspi_erase_sector; [done|done|lia|]. intros s1 Hs1.
    rewrite erase_sector_aligned in Hs1 by (done || apply sector_size_Z).
    revert Hs1. generalize sector_size_Z. generalize SECTOR. intros sec HS Hs1. change (negb (0 =? 0)) with false. cbn match.
    assert (Z.to_nat addr + sec ≤ length m)%nat by lia.
    destruct (decide (addr + 65536 = 2 ^ 32)); [lia|].
    rewrite !u32_id by lia. eapply IH; [done| | |done|done|lia|lia| |].
    + unfold fits in *. by rewrite nor_erase_length.
    + by rewrite nor_erase_length.
    + rewrite nor_erase_length by done. lia.
    + intros s2 Hs2. apply HQ. replace (Z.to_nat (addr + 65536)) with (Z.to_nat addr + sec)%nat in Hs2 by lia.
      rewrite nor_erase_add in Hs2 by lia.
      by replace (sec + Z.to_nat (len - 65536))%nat with (Z.to_nat len) in Hs2 by lia.
Qed.

Lemma wp_ramtd_erase callback master instr mi ch m s Q :
  spi_state false mi ch m s → fits ch m → Z.of_nat (length m) < 2 ^ 32 →
  mtd_size mi = Z.of_nat (length m) → mtd_erasesize master = 65536 →
  0 ≤ ei_addr instr → 0 ≤ ei_len instr → ei_addr instr + ei_len instr ≤ Z.of_nat (length m) →
  (∀ s', (if decide (ei_addr instr mod 65536 = 0 ∧ ei_len instr mod 65536 = 0) then
            spi_state false mi ch (nor_erase_range m (Z.to_nat (ei_addr instr)) (Z.to_nat (ei_len instr))) s'
          else spi_state false mi ch m s') →
     Q (if decide (ei_addr instr mod 65536 = 0 ∧ ei_len instr mod 65536 = 0)
        then (0, callback (instr ⦃ ei_state := MTD_ERASE_DONE ⦄)) else (- EINVAL, instr)) s') →
  wp (ramtd_erase callback master instr) Q s.
Proof.
  intros (c & Hs & Hc) Hfit Hm Hsize Hes Ha Hl Hend HQ. unfold ramtd_erase. rewrite Hes.
  apply wp_bind. eapply wp_flash_size; [done|]. rewrite u32_id by lia.
  rewrite (proj2 (Z.ltb_ge (mtd_size mi) _)) by lia.
  destruct (decide (ei_addr instr mod 65536 = 0 ∧ ei_len instr mod 65536 = 0)) as [[Hma Hml]|Hne].
  - rewrite Hma, Hml. change (negb (0 =? 0) || negb (0 =? 0)) with false. cbn match.
    apply wp_bind. eapply wp_down; [done|]. intros s1 Hs1.
    apply wp_bind. eapply wp_erase_loop; [by exists c|done|done|done|done|done| |done|].
    { rewrite Z2Nat.id by (apply Z.div_pos; lia). zlia. }
    intros s2 (c2 & Hs2 & Hc2). apply wp_bind. eapply wp_up; [done|]. intros s3 Hs3.
    apply wp_ret, HQ. by exists c2.
  - replace (negb (_ =? 0) || negb (_ =? 0)) with true.
    + apply wp_ret, HQ. by exists c.
    + symmetry. rewrite orb_true_iff, !negb_true_iff, !Z.eqb_neq. lia.
Qed.

(** * On a protected chip

    Taking the protection off clears the write enable latch, so that the erase
    command that follows is ignored; the result is success all the same. *)
Lemma wp_erase_sector_protected a mi ch c s Q :
  dev [] true mi ch c s → addr4b ch = false → 0 ≤ fl_busy c ≤ SECTOR_TIME → fl_bank c = 0 →
  Z.land (fl_bp c) BP_MASK ≠ 0 →
  (∀ s' c', dev [] true mi ch c' s' → fl_mem c' = fl_mem c → fl_bp c' = 0 → fl_bank c' = 0 →
     0 ≤ fl_busy c' ≤ SECTOR_TIME → fl_id c' = fl_id c → Q 0 s') →
  wp (raspi_erase_sector a) Q s.
Proof.
  intros Hs E4 Hb Hbk Hbp HQ. destruct (dev_idle _ _ _ _ _ _ Hs) as (f & Hi & _ & _ & _ & Hdev).
  unfold raspi_erase_sector.
  apply wp_bind. eapply wp_raspi_wait_ready; [done|unfold SECTOR_TIME in Hb; lia|]. intros s1 Hs1.
  change (negb (0 =? 0)) with false. cbn match.
  apply wp_bind. eapply wp_raspi_write_enable; [done|done|]. intros s2 Hs2.
  apply wp_bind. eapply wp_raspi_unprotect_protected; [done|done|done|done|]. intros s3 b Hbb Hs3.
  apply wp_bind. eapply wp_chip; [by apply Hdev|]. rewrite E4. apply Hdev in Hs3.
  set (c1 := (((((c ⦃ fl_busy := 0 ⦄) ⦃ fl_wel := true ⦄) ⦃ fl_bp := 0 ⦄) ⦃ fl_wel := false ⦄) ⦃ fl_busy := b ⦄)) in *.
  apply wp_bind. eapply wp_set_opcode; [done|]. intros s4 Hs4.
  apply wp_bind. eapply wp_set_address; [done|]. intros s5 Hs5.
  apply wp_bind. eapply wp_get_command; [done|done|].
  destruct (dev_idle _ _ _ _ _ _ Hs5) as (f5 & Hi5 & _ & _ & _ & Hdev5).
  assert (∀ t d, flash_exec d ((OPCODE_SE :: address false a) ++ take 0 []) (later t c1) = Some (later t c1)) as Hx.
  { intros t d. unfold flash_exec. case_match; [done|].
    cbn -[addr_len take drop of_be later address]. rewrite later_eq. done. }
  apply wp_bind. eapply wp_spic_write; [done| |by constructor|done|by intros; rewrite Hx|].
  { constructor; [done|]. apply address_ok. }
  intros s6 t d c' Ht Hc' (t6 & Ht6 & Hs6). rewrite Hx in Hc'. injection Hc' as <-.
  rewrite later_later in Hs6 by done. apply Hdev5 in Hs6.
  destruct (later_busy (t6 + t) c1 ltac:(lia)) as [_ Hbl]. rewrite later_eq in Hs6.
  specialize (Hbl ltac:(cbn; lia)). change (fl_busy c1) with b in Hbl.
  destruct (dev_idle _ _ _ _ _ _ Hs6) as (f6 & Hi6 & _ & _ & _ & Hdev6).
  apply wp_bind. eapply wp_raspi_wait_sleep_ready; [done| |].
  { cbn -[later c1]. unfold SECTOR_TIME in *. lia. }
  intros s7 Hs7. apply wp_bind. eapply wp_raspi_write_disable; [done|]. intros s8 (w & Hs8).
  apply soon_ready in Hs8; [|done]. apply wp_ret.
  eapply HQ; [by eapply dev_forget, Hdev6|done..].
Qed.

End Erase.
