(* ===== verification/MtdpartSpec.v ===== *)
(** Partitions as devices of their own: what a NOR flash driver promises to the
    partition layer [Mtdpart] (the class [NorMaster]), the specification of a
    partition, which knows only its own bytes, and the proof that a partition of
    any such driver implements it and touches nothing else. *)

From S2P Require Import Prelude Flash FlashProps Io Mtdpart Raspi SpiChip RaspiWrite.
#[global] Open Scope Z_scope.
#[global] Open Scope fw_scope.

(** * The promise of the driver

    [nm_state m mem d]: the driver [d] serves the flash that [m] describes, which
    holds [mem]. *)
Definition aligned (m : mtd_info_t) (z : Z) : Prop := z mod mtd_erasesize m = 0.
#[export] Instance aligned_dec m z : Decision (aligned m z).
Proof. unfold aligned. apply _. Defined.

Class NorMaster (D : Type) `{MtdMaster D} := {
  nm_state : mtd_info_t → bytes → D → Prop;
  nm_wf m mem d :
    nm_state m mem d →
    bytes_ok mem ∧ mtd_size m = Z.of_nat (length mem) ∧ mtd_size m < 2 ^ 32 ∧ 0 < mtd_erasesize m;
  nm_read m mem d from len retlen buf Q :
    nm_state m mem d → 0 ≤ from → 0 < len < 2 ^ 32 → from + len ≤ mtd_size m → len ≤ Z.of_nat (length buf) →
    (∀ d', nm_state m mem d' →
       Q (0, put_len retlen len, take (Z.to_nat len) (drop (Z.to_nat from) mem) ++ drop (Z.to_nat len) buf) d') →
    wp (drv_read from len retlen buf) Q d;
  nm_read_0 m mem d from retlen buf Q :
    nm_state m mem d → (∀ d', nm_state m mem d' → Q (0, retlen, buf) d') → wp (drv_read from 0 retlen buf) Q d;
  nm_write m mem d to len retlen data Q :
    nm_state m mem d → 0 ≤ to → 0 < len < 2 ^ 32 → to + len ≤ mtd_size m → len ≤ Z.of_nat (length data) →
    bytes_ok data →
    (∀ d', nm_state m (nor_program mem (Z.to_nat to) (take (Z.to_nat len) data)) d' → Q (0, put_len retlen len) d') →
    wp (drv_write to len retlen data) Q d;
  nm_write_0 m mem d to retlen data Q :
    nm_state m mem d → (∀ d', nm_state m mem d' → Q (0, put_len retlen 0) d') → wp (drv_write to 0 retlen data) Q d;
  nm_erase m mem d cb instr Q :
    nm_state m mem d → 0 ≤ ei_addr instr → 0 ≤ ei_len instr → ei_addr instr + ei_len instr ≤ mtd_size m →
    (∀ d', (if decide (aligned m (ei_addr instr) ∧ aligned m (ei_len instr))
            then nm_state m (nor_erase_range mem (Z.to_nat (ei_addr instr)) (Z.to_nat (ei_len instr))) d'
            else nm_state m mem d') →
       Q (if decide (aligned m (ei_addr instr) ∧ aligned m (ei_len instr))
          then (0, cb (instr ⦃ ei_state := MTD_ERASE_DONE ⦄)) else (- EINVAL, instr)) d') →
    wp (drv_erase cb m instr) Q d;
  nm_unlock m mem d to len Q :
    nm_state m mem d → (∀ r d', nm_state m mem d' → Q r d') → wp (drv_unlock to len) Q d
}.

(** * Requests and their answers *)

Inductive mtd_request :=
| ReqRead (from len : Z) (retlen : option Z) (buf : bytes)
| ReqWrite (to len : Z) (retlen : option Z) (buf : bytes)
| ReqErase (instr : erase_info).

Inductive mtd_answer :=
| AnsRead (res : Z) (retlen : option Z) (buf : bytes)
| AnsWrite (res : Z) (retlen : option Z)
| AnsErase (res : Z) (instr : erase_info).

(** The failed address, which the driver never sets and no caller looks at, is not
    part of the answer: [ra_mtd_write_nm] does not even initialise it. *)
Definition ans_erase (res : Z) (instr : erase_info) : mtd_answer :=
  AnsErase res (instr ⦃ ei_fail_addr := 0 ⦄).

(** ** The specification

    A device of [mtd_size p] bytes, [w], that knows nothing of where it lies. *)
Definition spec_request (p : mtd_info_t) (w : bytes) (r : mtd_request) : mtd_answer * bytes :=
  match r with
  | ReqRead from len retlen buf =>
      let n := clip (mtd_size p) from len in
      if n =? 0 then (AnsRead 0 retlen buf, w)
      else (AnsRead 0 (put_len retlen n)
              (take (Z.to_nat n) (drop (Z.to_nat from) w) ++ drop (Z.to_nat n) buf), w)
  | ReqWrite to len retlen buf =>
      if negb (writeable p) then (AnsWrite (- EROFS) retlen, w)
      else
        let n := clip (mtd_size p) to len in
        (AnsWrite 0 (put_len retlen n),
         if n =? 0 then w else nor_program w (Z.to_nat to) (take (Z.to_nat n) buf))
  | ReqErase instr =>
      if negb (writeable p) then (ans_erase (- EROFS) instr, w)
      else if mtd_size p <=? ei_addr instr then (ans_erase (- EINVAL) instr, w)
      else if decide (aligned p (ei_addr instr) ∧ aligned p (ei_len instr)) then
        (ans_erase 0 (mtd_erase_callback ∅ (instr ⦃ ei_state := MTD_ERASE_DONE ⦄)),
         nor_erase_range w (Z.to_nat (ei_addr instr)) (Z.to_nat (ei_len instr)))
      else (ans_erase (- EINVAL) instr, w)
  end.

Fixpoint spec_requests (p : mtd_info_t) (w : bytes) (l : list mtd_request) : list mtd_answer * bytes :=
  match l with
  | [] => ([], w)
  | r :: l =>
      let '(a, w) := spec_request p w r in
      let '(l, w) := spec_requests p w l in (a :: l, w)
  end.

(** What a caller owes: buffers as long as it says; an erase request names its
    device and ends within the partition. *)
Definition request_ok (ptr : nat) (size : Z) (r : mtd_request) : Prop :=
  match r with
  | ReqRead from len _ buf => 0 ≤ from ∧ 0 ≤ len < 2 ^ 32 ∧ len ≤ Z.of_nat (length buf)
  | ReqWrite to len _ buf => 0 ≤ to ∧ 0 ≤ len < 2 ^ 32 ∧ len ≤ Z.of_nat (length buf) ∧ bytes_ok buf
  | ReqErase instr =>
      0 ≤ ei_addr instr < 2 ^ 32 ∧ 0 ≤ ei_len instr ∧ ei_mtd instr = Some ptr ∧
      (ei_addr instr < size → ei_addr instr + ei_len instr ≤ size)
  end.

Section Partition.
Context {D : Type} `{NorMaster D} `{Kzalloc}.

(** ** The code *)
Definition part_request (master : mtd_info_t) (ptr : nat) (r : mtd_request) : io (mtd_core D) mtd_answer :=
  match r with
  | ReqRead from len retlen buf =>
      '(res, retlen, buf) ← part_read ptr from len retlen buf; mret (AnsRead res retlen buf)
  | ReqWrite to len retlen buf => '(res, retlen) ← part_write ptr to len retlen buf; mret (AnsWrite res retlen)
  | ReqErase instr => '(res, instr) ← part_erase master ptr instr; mret (ans_erase res instr)
  end.

Fixpoint part_requests (master : mtd_info_t) (ptr : nat) (l : list mtd_request) :
    io (mtd_core D) (list mtd_answer) :=
  match l with
  | [] => mret []
  | r :: l => a ← part_request master ptr r; l ← part_requests master ptr l; mret (a :: l)
  end.

(** * The proof *)

Lemma wp_in_drv {A} (c : io D A) Q (s : mtd_core D) :
  wp c (λ a d, Q a (s ⦃ drv := d ⦄)) (drv s) → wp (in_drv c) Q s.
Proof. intros (a & d & E & HQ). exists a, (s ⦃ drv := d ⦄). split; [|done]. unfold in_drv. by rewrite E. Qed.

Lemma wp_slave ptr part (s : mtd_core D) Q :
  slaves s !! ptr = Some part → Q part s → wp (slave ptr) Q s.
Proof. intros Hp HQ. exists part, s. split; [|done]. unfold slave. by rewrite Hp. Qed.

(** A partition lies within the device, and on erase blocks if it can be written. *)
Record part_ok (m : mtd_info_t) (part : mtd_part) : Prop := {
  po_offset : 0 ≤ part_offset part;
  po_size : 0 ≤ mtd_size (part_mtd part);
  po_end : part_offset part + mtd_size (part_mtd part) ≤ mtd_size m;
  po_es : mtd_erasesize (part_mtd part) = mtd_erasesize m;
  po_aligned : writeable (part_mtd part) = true → aligned m (part_offset part)
}.

(** The partition [ptr] is [part], and the flash holds [mem]. *)
Definition core_state (m : mtd_info_t) (ptr : nat) (part : mtd_part) (mem : bytes) (s : mtd_core D) : Prop :=
  slaves s !! ptr = Some part ∧ part_ok m part ∧ nm_state m mem (drv s).

(** The bytes of the partition, and other bytes put in their place. *)
Definition window (part : mtd_part) (mem : bytes) : bytes :=
  take (Z.to_nat (mtd_size (part_mtd part))) (drop (Z.to_nat (part_offset part)) mem).

Lemma window_length m part mem :
  part_ok m part → mtd_size m = Z.of_nat (length mem) →
  length (window part mem) = Z.to_nat (mtd_size (part_mtd part)).
Proof. intros [? ? ? _ _] Hm. unfold window. rewrite length_take, length_drop. lia. Qed.

Lemma clip_bounds size from len :
  0 ≤ size < 2 ^ 32 → 0 ≤ from → 0 ≤ len →
  0 ≤ clip size from len ≤ len ∧ (0 < clip size from len → from + clip size from len ≤ size).
Proof.
  intros Hs Hf Hl. unfold clip. destruct (Z.leb_spec size from); [lia|].
  destruct (Z.ltb_spec size (from + len)); [|lia]. rewrite u32_id by lia. lia.
Qed.

(** Reading in the partition is reading its window. *)
Lemma window_read m part mem from n :
  part_ok m part → mtd_size m = Z.of_nat (length mem) → 0 ≤ from → 0 ≤ n →
  from + n ≤ mtd_size (part_mtd part) →
  take (Z.to_nat n) (drop (Z.to_nat (from + part_offset part)) mem) =
  take (Z.to_nat n) (drop (Z.to_nat from) (window part mem)).
Proof.
  intros [? ? ? _ _] Hm Hf Hn Hend. unfold window. rewrite skipn_firstn_comm, drop_drop, take_take.
  f_equal; [lia|]. f_equal. lia.
Qed.

(** A change within the window, as a change of the flash. *)
Lemma window_splice m part mem a data :
  part_ok m part → mtd_size m = Z.of_nat (length mem) → 0 ≤ a →
  a + Z.of_nat (length data) ≤ mtd_size (part_mtd part) →
  splice mem (Z.to_nat (a + part_offset part)) data =
    splice mem (Z.to_nat (part_offset part)) (splice (window part mem) (Z.to_nat a) data).
Proof.
  intros [? ? ? _ _] Hm Ha Hend. unfold window. rewrite splice_nested by lia. f_equal. lia.
Qed.

Lemma window_put m part mem w :
  part_ok m part → mtd_size m = Z.of_nat (length mem) → length w = Z.to_nat (mtd_size (part_mtd part)) →
  window part (splice mem (Z.to_nat (part_offset part)) w) = w.
Proof.
  intros [? ? ? _ _] Hm Hw. unfold window, splice.
  rewrite drop_app_ge by (rewrite length_take; lia).
  replace (Z.to_nat (part_offset part) - length (take (Z.to_nat (part_offset part)) mem))%nat with 0%nat
    by (rewrite length_take; lia).
  by rewrite drop_0, <-Hw, take_app_length.
Qed.

Lemma put_window m part mem :
  part_ok m part → mtd_size m = Z.of_nat (length mem) →
  splice mem (Z.to_nat (part_offset part)) (window part mem) = mem.
Proof.
  intros Hp Hm. destruct Hp as [? ? ? ? ?] eqn:E. unfold splice. rewrite (window_length m part mem Hp Hm).
  unfold window. rewrite <-drop_drop, take_drop, take_drop. done.
Qed.

(** ** Each request *)

(** After a request: the flash has changed in the window at most, the partition and
    the rest of the layer are the same. *)
Definition answered m ptr part mem (r : mtd_request) (s : mtd_core D) (a : mtd_answer) (s' : mtd_core D) : Prop :=
  let '(a', w) := spec_request (part_mtd part) (window part mem) r in
  a = a' ∧ length w = length (window part mem) ∧ s' = s ⦃ drv := drv s' ⦄ ∧
  core_state m ptr part (splice mem (Z.to_nat (part_offset part)) w) s'.

Lemma core_state_drv m ptr part mem mem' (s : mtd_core D) d :
  core_state m ptr part mem s → nm_state m mem' d → core_state m ptr part mem' (s ⦃ drv := d ⦄).
Proof. intros (? & ? & _) ?. by split_and!. Qed.

Lemma part_read_ok m ptr part mem from len retlen buf s :
  core_state m ptr part mem s → request_ok ptr (mtd_size (part_mtd part)) (ReqRead from len retlen buf) →
  wp (part_request m ptr (ReqRead from len retlen buf))
     (answered m ptr part mem (ReqRead from len retlen buf) s) s.
Proof.
  intros Hs (Hf & Hl & Hb). pose proof Hs as (Hp & Hok & Hd). destruct (nm_wf _ _ _ Hd) as (_ & Hm & Hm32 & _).
  destruct (clip_bounds (mtd_size (part_mtd part)) from len) as [Hn Hend]; [destruct Hok; lia|lia|lia|].
  apply wp_bind, wp_bind. eapply wp_slave; [done|].
  set (n := clip (mtd_size (part_mtd part)) from len) in *.
  apply wp_bind, wp_in_drv. unfold answered. cbn [spec_request]. fold n.
  destruct (Z.eqb_spec n 0) as [->|Hne].
  - eapply nm_read_0; [done|]. intros d' Hd'. apply wp_bind, wp_when; [done|intros _].
    apply wp_ret, wp_ret. split_and!; [done|done|done|]. rewrite (put_window m) by done.
    by eapply core_state_drv.
  - eapply nm_read; [done|destruct Hok; lia|lia|destruct Hok; lia|lia|]. intros d' Hd'.
    apply wp_bind, wp_when; [done|intros _]. apply wp_ret, wp_ret.
    rewrite (window_read m part mem from n) by (done || lia).
    split_and!; [done|done|done|]. rewrite (put_window m) by done. by eapply core_state_drv.
Qed.

(** Programming in the partition. *)
Lemma window_program m part mem to data :
  part_ok m part → mtd_size m = Z.of_nat (length mem) → 0 ≤ to →
  to + Z.of_nat (length data) ≤ mtd_size (part_mtd part) →
  nor_program mem (Z.to_nat (to + part_offset part)) data =
    splice mem (Z.to_nat (part_offset part)) (nor_program (window part mem) (Z.to_nat to) data).
Proof.
  intros Hp Hm Ht Hend. unfold nor_program.
  pose proof (window_read m part mem to (Z.of_nat (length data)) Hp Hm Ht ltac:(lia) Hend) as Hr.
  rewrite Nat2Z.id in Hr. rewrite Hr. apply (window_splice m); [done..|].
  rewrite length_zip_with, length_take, length_drop. lia.
Qed.

Lemma part_write_ok m ptr part mem to len retlen buf s :
  core_state m ptr part mem s → request_ok ptr (mtd_size (part_mtd part)) (ReqWrite to len retlen buf) →
  wp (part_request m ptr (ReqWrite to len retlen buf))
     (answered m ptr part mem (ReqWrite to len retlen buf) s) s.
Proof.
  intros Hs (Ht & Hl & Hb & Hby). pose proof Hs as (Hp & Hok & Hd).
  destruct (nm_wf _ _ _ Hd) as (_ & Hm & Hm32 & _).
  destruct (clip_bounds (mtd_size (part_mtd part)) to len) as [Hn Hend]; [destruct Hok; lia|lia|lia|].
  apply wp_bind, wp_bind. eapply wp_slave; [done|]. unfold answered. cbn [spec_request].
  destruct (writeable (part_mtd part)) eqn:Hw; cbn [negb].
  2: { apply wp_ret, wp_ret. split_and!; [done|done|by destruct s|]. by rewrite (put_window m). }
  set (n := clip (mtd_size (part_mtd part)) to len) in *. apply wp_in_drv.
  destruct (Z.eqb_spec n 0) as [->|Hne].
  - eapply nm_write_0; [done|]. intros d' Hd'. apply wp_ret. split_and!; [done|done|done|].
    rewrite (put_window m) by done. by eapply core_state_drv.
  - eapply nm_write; [done|destruct Hok; lia|lia|destruct Hok; lia|lia|done|]. intros d' Hd'.
    apply wp_ret. assert (length (take (Z.to_nat n) buf) = Z.to_nat n) as Hln by (rewrite length_take; lia).
    split_and!; [done| |done|].
    + rewrite nor_program_length; [done|]. rewrite (window_length m) by done. lia.
    + rewrite <-(window_program m) by (done || lia). by eapply core_state_drv.
Qed.

Lemma erase_callback_undo (h : gmap nat mtd_part) ptr part instr :
  ei_mtd instr = Some ptr → h !! ptr = Some part → 0 ≤ ei_addr instr < 2 ^ 32 →
  ans_erase 0 (mtd_erase_callback h
    (instr ⦃ ei_addr := ei_addr instr + part_offset part ⦄ ⦃ ei_state := MTD_ERASE_DONE ⦄)) =
  ans_erase 0 (mtd_erase_callback ∅ (instr ⦃ ei_state := MTD_ERASE_DONE ⦄)).
Proof.
  intros Hptr Hp Ha. destruct instr as [i a l fa st cb n]; cbn in *; subst.
  unfold ans_erase, mtd_erase_callback. cbn. rewrite Hp, lookup_empty. cbn -[Z.eqb].
  destruct (negb _); destruct cb; cbn;
    (assert (u32 (a + part_offset part - part_offset part) = a) as -> by (rewrite u32_id; lia)); done.
Qed.

Lemma part_erase_ok m ptr part mem instr s :
  core_state m ptr part mem s → request_ok ptr (mtd_size (part_mtd part)) (ReqErase instr) →
  wp (part_request m ptr (ReqErase instr)) (answered m ptr part mem (ReqErase instr) s) s.
Proof.
  intros Hs (Ha & Hl & Hptr & Hend). pose proof Hs as (Hp & Hok & Hd).
  destruct (nm_wf _ _ _ Hd) as (_ & Hm & Hm32 & Hes). pose proof Hok as [Ho Hsz He Hpes Hal].
  apply wp_bind, wp_bind. eapply wp_slave; [done|]. unfold answered. cbn [spec_request].
  destruct (writeable (part_mtd part)) eqn:Hw; cbn [negb].
  2: { apply wp_ret, wp_ret. split_and!; [done|done|by destruct s|]. by rewrite (put_window m). }
  destruct (Z.leb_spec (mtd_size (part_mtd part)) (ei_addr instr)) as [|Hlt].
  { apply wp_ret, wp_ret. split_and!; [done|done|by destruct s|]. by rewrite (put_window m). }
  specialize (Hend Hlt). specialize (Hal eq_refl). rewrite u32_id by lia.
  set (instr1 := instr ⦃ ei_addr := ei_addr instr + part_offset part ⦄).
  assert (ei_addr instr1 = ei_addr instr + part_offset part) as Ha1 by done.
  assert (ei_len instr1 = ei_len instr) as Hl1 by done.
  apply wp_bind, wp_gets, wp_bind, wp_in_drv. eapply nm_erase; [done|lia|lia|lia|].
  rewrite Ha1, Hl1.
  assert ((aligned m (ei_addr instr + part_offset part) ∧ aligned m (ei_len instr)) ↔
          aligned (part_mtd part) (ei_addr instr) ∧ aligned (part_mtd part) (ei_len instr)) as Hiff.
  { unfold aligned in *. rewrite Hpes. rewrite Zplus_mod, Hal, Z.add_0_r, Zmod_mod. done. }
  intros d' Hd'. destruct (decide (aligned m _ ∧ aligned m _)) as [Hy|Hn];
    destruct (decide (aligned (part_mtd part) _ ∧ _)) as [Hy'|Hn']; [|tauto|tauto|].
  - apply wp_ret, wp_ret. unfold instr1. rewrite (erase_callback_undo (slaves s) ptr part) by (done || lia).
    split_and!; [done| |done|].
    + rewrite nor_erase_length; [done|]. rewrite (window_length m) by done. lia.
    + eapply core_state_drv; [done|]. unfold nor_erase_range in Hd' |- *.
      rewrite <-(window_splice m) by (done || (rewrite ?length_replicate; lia)). exact Hd'.
  - change (negb (- EINVAL =? 0)) with true. cbn match. apply wp_ret, wp_ret.
    split_and!; [|done|done|].
    + unfold ans_erase. f_equal. unfold instr1. destruct instr; cbn in *.
      destruct (negb _); cbn; f_equal; rewrite u32_id by lia; lia.
    + rewrite (put_window m) by done. by eapply core_state_drv.
Qed.

Lemma part_request_ok m ptr part mem r s :
  core_state m ptr part mem s → request_ok ptr (mtd_size (part_mtd part)) r →
  wp (part_request m ptr r) (answered m ptr part mem r s) s.
Proof.
  intros Hs Hr. destruct r; [by apply part_read_ok|by apply part_write_ok|by apply part_erase_ok].
Qed.

(** ** Any sequence of requests *)
Lemma part_requests_ok m ptr part l mem s :
  core_state m ptr part mem s → Forall (request_ok ptr (mtd_size (part_mtd part))) l →
  wp (part_requests m ptr l) (λ answers s',
        let '(answers', w) := spec_requests (part_mtd part) (window part mem) l in
        answers = answers' ∧ length w = length (window part mem) ∧ s' = s ⦃ drv := drv s' ⦄ ∧
        core_state m ptr part (splice mem (Z.to_nat (part_offset part)) w) s') s.
Proof.
  revert mem s. induction l as [|r l IH]; intros mem s Hs Hl; cbn [part_requests spec_requests].
  - apply wp_ret. destruct Hs as (Hp & Hok & Hd). destruct (nm_wf _ _ _ Hd) as (_ & Hm & _ & _).
    split_and!; [done|done|by destruct s|]. by rewrite (put_window m) by done.
  - inversion_clear Hl as [|? ? Hr Hl']. apply wp_bind.
    eapply wp_mono; [by apply part_request_ok|]. intros a s1 Ha. unfold answered in Ha.
    destruct (spec_request _ _ r) as [a' w]. destruct Ha as (-> & Hw & Hs1 & Hc1).
    destruct Hs as (Hp & Hok & Hd). destruct (nm_wf _ _ _ Hd) as (_ & Hm & _ & _).
    assert (length w = Z.to_nat (mtd_size (part_mtd part))) as Hwl by by rewrite Hw, (window_length m).
    apply wp_bind. eapply wp_mono; [by apply IH|]. intros answers s2 H2.
    rewrite (window_put m) in H2 by done.
    destruct (spec_requests _ w l) as [answers' w']. destruct H2 as (-> & Hw' & Hs2 & Hc2).
    apply wp_ret. split_and!; [done|lia| |].
    + rewrite Hs2, Hs1. done.
    + rewrite splice_overwrite in Hc2; [done| |lia]. destruct Hok. lia.
Qed.

End Partition.
