(* ===== verification/RaMtdProps.v ===== *)
(** The flash functions of the kernel on a partition of any NOR flash driver: they
    do what [Flash] says of them on an abstract NOR device, so that what is proved
    of the NVRAM driver on such a device holds of it on the partition. *)

From S2P Require Import Prelude Flash FlashProps Io Mtdpart RaMtd Raspi SpiChip RaspiWrite MtdpartSpec.
#[global] Open Scope Z_scope.
#[global] Open Scope fw_scope.

(** Programming what has been erased is storing. *)
Lemma program_erased w a d :
  (a + length d ≤ length w)%nat → bytes_ok d →
  nor_program (nor_erase_range w a (length d)) a d = splice w a d.
Proof.
  intros Ha Hd. unfold nor_program, nor_erase_range.
  pose proof (load_splice w a (replicate (length d) 0xff)) as HL. rewrite length_replicate in HL.
  specialize (HL Ha). apply load_Ret in HL as [_ HL]. rewrite <-HL.
  rewrite land_erased by done. rewrite splice_overwrite; rewrite ?length_replicate; done.
Qed.

Section RaMtdProps.
Context {D : Type} `{NorMaster D} `{Kzalloc} `{Malloc}.
Implicit Types (s : mtd_core D).

(** * A device in use

    [ptr] is the device of that name; [part] is it, with some number of users. *)
Definition used (n : Z) (part : mtd_part) : mtd_part := part ⦃ part_mtd / mtd_usecount := n ⦄.

Lemma part_ok_used m n part : part_ok m part → part_ok m (used n part).
Proof. intros [? ? ? ? ?]. by split. Qed.

Record device (m : mtd_info_t) (name : string) (ptr : nat) (part : mtd_part) (mem : bytes) s : Prop := {
  dv_find : find_name (slaves s) name (mtd_table s) = Some ptr;
  dv_state : core_state m ptr part mem s
}.

(** The names stay the same when a device gets another number of users. *)
Lemma find_name_used (h : gmap nat mtd_part) name t ptr part n :
  h !! ptr = Some part → find_name (<[ptr := used n part]> h) name t = find_name h name t.
Proof.
  intros Hp. induction t as [|d t IH]; cbn [find_name]; [done|]. rewrite IH.
  destruct d as [p|]; [|done]. cbn. destruct (decide (p = ptr)) as [->|].
  - by rewrite lookup_insert_eq, Hp.
  - by rewrite lookup_insert_ne by done.
Qed.

Lemma device_used m name ptr part mem s n :
  device m name ptr part mem s →
  device m name ptr (used n part) mem (s ⦃ slaves := <[ptr := used n part]> (slaves s) ⦄).
Proof.
  intros [Hf (Hp & Hok & Hd)]. split; cbn; [by rewrite (find_name_used _ _ _ _ part)|].
  unfold core_state. cbn. split_and!; [by rewrite lookup_insert_eq|by apply part_ok_used|done].
Qed.

Lemma wp_get_device m name ptr part mem s Q :
  device m name ptr part mem s →
  (∀ s', device m name ptr (used (mtd_usecount (part_mtd part) + 1) part) mem s' → Q (inr ptr) s') →
  wp (get_mtd_device_nm name) Q s.
Proof.
  intros Hd HQ. unfold get_mtd_device_nm. apply wp_bind, wp_gets, wp_bind, wp_gets.
  destruct Hd as [Hf Hs] eqn:E. rewrite Hf. cbn [use_device]. apply wp_bind.
  eapply wp_slave; [apply Hs|]. apply wp_bind, wp_modify, wp_ret, HQ. by apply device_used.
Qed.

Lemma wp_put_device m name ptr part mem s Q :
  device m name ptr part mem s → 0 < mtd_usecount (part_mtd part) →
  (∀ s', device m name ptr (used (mtd_usecount (part_mtd part) - 1) part) mem s' → Q () s') →
  wp (put_mtd_device ptr) Q s.
Proof.
  intros Hd Hu HQ. unfold put_mtd_device. destruct Hd as [Hf Hs] eqn:E. apply wp_bind.
  eapply wp_slave; [apply Hs|]. apply wp_bind, wp_modify.
  rewrite (proj2 (Z.ltb_ge _ _)) by lia. apply wp_ret, HQ. by apply device_used.
Qed.

(** ** The three accesses *)

Lemma device_answered m name ptr part mem mem' s s' :
  device m name ptr part mem s → s' = s ⦃ drv := drv s' ⦄ → core_state m ptr part mem' s' →
  device m name ptr part mem' s'.
Proof. intros [Hf _] Hs' Hc. split; [|done]. by rewrite Hs'. Qed.

Lemma wp_device_read m name ptr part mem s from len buf Q :
  device m name ptr part mem s → 0 ≤ from → 0 < len < 2 ^ 32 → from + len ≤ mtd_size (part_mtd part) →
  len ≤ Z.of_nat (length buf) →
  (∀ s' retlen, device m name ptr part mem s' →
     Q (0, retlen, take (Z.to_nat len) (drop (Z.to_nat from) (window part mem)) ++ drop (Z.to_nat len) buf) s') →
  wp (part_read ptr from len (Some garbage) buf) Q s.
Proof.
  intros Hd Hf Hl Hend Hb HQ. pose proof (dv_state _ _ _ _ _ _ Hd) as Hs.
  pose proof Hs as (_ & Hok & Hnm). destruct (nm_wf _ _ _ Hnm) as (_ & Hm & _ & _).
  pose proof (part_read_ok m ptr part mem from len (Some garbage) buf s Hs) as Hr.
  specialize (Hr ltac:(cbn; lia)). cbn [part_request] in Hr. apply wp_bind_inv in Hr.
  eapply wp_mono; [exact Hr|]. intros [[res retlen] b] s' (a & s2 & E & Ha). injection E as <- <-.
  unfold answered in Ha. cbn [spec_request] in Ha. unfold clip in Ha.
  rewrite (proj2 (Z.leb_gt _ from)), (proj2 (Z.ltb_ge _ (from + len))) in Ha by lia.
  rewrite (proj2 (Z.eqb_neq len 0)) in Ha by lia. destruct Ha as (Hans & _ & Hs' & Hc).
  injection Hans as -> -> ->. rewrite (put_window m) in Hc by done. eapply HQ, device_answered; done.
Qed.

Lemma wp_device_erase m name ptr part mem s n instr Q :
  device m name ptr part mem s → writeable (part_mtd part) = true → ei_mtd instr = Some ptr →
  ei_addr instr = 0 → ei_len instr = n → n = mtd_erasesize m → 0 < n ≤ mtd_size (part_mtd part) →
  (∀ s' i, device m name ptr part
     (splice mem (Z.to_nat (part_offset part)) (nor_erase_range (window part mem) 0 (Z.to_nat n))) s' → Q (0, i) s') →
  wp (part_erase m ptr instr) Q s.
Proof.
  intros Hd Hw Hp Ha Hl Hn Hend HQ. pose proof (dv_state _ _ _ _ _ _ Hd) as Hs.
  pose proof Hs as (_ & Hok & Hnm).
  pose proof (part_erase_ok m ptr part mem instr s Hs) as Hr. specialize (Hr ltac:(cbn; split_and!; (done || lia))).
  cbn [part_request] in Hr. apply wp_bind_inv in Hr.
  eapply wp_mono; [exact Hr|]. intros [res i] s' (a & s2 & E & Hans). injection E as <- <-.
  unfold answered in Hans. cbn [spec_request] in Hans. rewrite Hw in Hans. cbn [negb] in Hans.
  rewrite (proj2 (Z.leb_gt _ _)) in Hans by lia. rewrite decide_True in Hans.
  - destruct Hans as (Hr' & _ & Hs' & Hc). injection Hr' as -> _. rewrite Ha, Hl in Hc.
    eapply HQ, device_answered; done.
  - unfold aligned. rewrite (po_es _ _ Hok), Ha, Hl, Hn, Z_mod_same_full. done.
Qed.

Lemma wp_device_write m name ptr part mem s to len data Q :
  device m name ptr part mem s → writeable (part_mtd part) = true → 0 ≤ to → 0 < len < 2 ^ 32 →
  to + len ≤ mtd_size (part_mtd part) → len ≤ Z.of_nat (length data) → bytes_ok data →
  (∀ s' retlen, device m name ptr part (splice mem (Z.to_nat (part_offset part))
       (nor_program (window part mem) (Z.to_nat to) (take (Z.to_nat len) data))) s' → Q (0, retlen) s') →
  wp (part_write ptr to len (Some garbage) data) Q s.
Proof.
  intros Hd Hw Ht Hl Hend Hb Hby HQ. pose proof (dv_state _ _ _ _ _ _ Hd) as Hs.
  pose proof (part_write_ok m ptr part mem to len (Some garbage) data s Hs) as Hr.
  specialize (Hr ltac:(cbn; split_and!; (done || lia))). cbn [part_request] in Hr. apply wp_bind_inv in Hr.
  eapply wp_mono; [exact Hr|]. intros [res retlen] s' (a & s2 & E & Ha). injection E as <- <-.
  unfold answered in Ha. cbn [spec_request] in Ha. rewrite Hw in Ha. cbn [negb] in Ha. unfold clip in Ha.
  rewrite (proj2 (Z.leb_gt _ to)), (proj2 (Z.ltb_ge _ (to + len))) in Ha by lia.
  rewrite (proj2 (Z.eqb_neq len 0)) in Ha by lia. destruct Ha as (Hans & _ & Hs' & Hc).
  injection Hans as -> ->. eapply HQ, device_answered; done.
Qed.

(** * The abstract device

    [d] is the NOR device that the partition of that name looks like; around it
    the flash holds what it held in [base]. *)
Definition mirror (m : mtd_info_t) (name : string) (ptr : nat) (base : bytes) (part : mtd_part) s (d : nor_dev) : Prop :=
  ∃ mem, device m name ptr part mem s ∧ writeable (part_mtd part) = true ∧
    mtd_usecount (part_mtd part) = 0 ∧ mtd_erasesize m ≤ mtd_size (part_mtd part) ∧
    d = mk_nor (window part mem) (Z.to_nat (mtd_erasesize m)) ∧ nor_ok d = true ∧
    length base = length mem ∧ mem = splice base (Z.to_nat (part_offset part)) (nor_mem d).

(** A partition nobody uses looks like such a device. *)
Lemma mirror_start m name ptr part mem s :
  device m name ptr part mem s → writeable (part_mtd part) = true → mtd_usecount (part_mtd part) = 0 →
  mtd_erasesize m ≤ mtd_size (part_mtd part) → mtd_erasesize m = 2 ^ Z.log2 (mtd_erasesize m) →
  aligned m (mtd_size (part_mtd part)) →
  mirror m name ptr mem part s (mk_nor (window part mem) (Z.to_nat (mtd_erasesize m))).
Proof.
  intros Hd Hw Hu Hes Hpow Hal. pose proof Hd as [_ (_ & Hpo & Hnm)].
  destruct (nm_wf _ _ _ Hnm) as (Hb & Hm & _ & Hes0). exists mem.
  split; [exact Hd|]. split; [exact Hw|]. split; [exact Hu|]. split; [exact Hes|]. split; [reflexivity|].
  split; [|split; [reflexivity|symmetry; by apply (put_window m)]].
  unfold nor_ok. cbn [nor_mem nor_es]. rewrite !andb_true_iff, !bool_decide_eq_true.
  rewrite (window_length m part mem Hpo Hm), Z2Nat.id by lia.
  split_and!; [by apply bytes_ok_take, bytes_ok_drop|lia|by apply Z.eqb_eq|].
  unfold aligned in Hal. rewrite <-Z2Nat.inj_mod by lia. by rewrite Hal.
Qed.

Lemma used_idle part : mtd_usecount (part_mtd part) = 0 → used 0 (used (0 + 1) part) = part.
Proof. intros Hu. destruct part as [[] ? ? ? ?]. cbn in *. by subst. Qed.

(** After the last access the device is given back. *)
Lemma wp_give_back m name ptr part mem s Q :
  device m name ptr (used (0 + 1) part) mem s → mtd_usecount (part_mtd part) = 0 →
  (∀ s', device m name ptr part mem s' → Q () s') → wp (put_mtd_device ptr) Q s.
Proof.
  intros Hd Hu HQ. eapply wp_put_device; [done|done|]. intros s' Hs'. apply HQ.
  change (mtd_usecount _ - 1) with 0 in Hs'. by rewrite (used_idle _ Hu) in Hs'.
Qed.

Lemma ra_mtd_read_mirror m name ptr base part s d from n :
  mirror m name ptr base part s d → (0 < n)%nat → (from + n ≤ length (nor_mem d))%nat →
  wp (RaMtd.ra_mtd_read_nm name (Z.of_nat from) (Z.of_nat n) (uninit n))
     (λ r s', r = Flash.ra_mtd_read_nm d from n ∧ mirror m name ptr base part s' d) s.
Proof.
  intros (mem & Hd & Hw & Hu & Hes & -> & Hok & Hbase & Hmem) Hn Hend. cbn [nor_mem] in Hend.
  pose proof Hd as [_ (_ & Hpo & Hnm)]. destruct (nm_wf _ _ _ Hnm) as (_ & Hm & Hm32 & Hes0).
  rewrite (window_length m) in Hend by done. pose proof (po_end _ _ Hpo). pose proof (po_offset _ _ Hpo).
  unfold RaMtd.ra_mtd_read_nm. apply wp_bind. eapply wp_get_device; [done|]. rewrite Hu. intros s1 Hs1.
  apply wp_bind. eapply wp_device_read; [done|lia|lia|cbn; lia| |].
  { unfold uninit. rewrite length_replicate. lia. }
  intros s2 retlen Hs2. cbn match. apply wp_bind. eapply wp_give_back; [done|done|]. intros s3 Hs3.
  apply wp_ret. rewrite !Nat2Z.id. split.
  - unfold Flash.ra_mtd_read_nm, mtd_present, mtd_read, nor_mtd. rewrite Hok. cbn [negb andb].
    rewrite bool_decide_true by (cbn; rewrite (window_length m) by done; lia).
    rewrite (drop_ge (uninit n)) by (unfold uninit; by rewrite length_replicate). by rewrite app_nil_r.
  - exists mem. by split_and!.
Qed.

(** What the function does to the abstract device. *)
Lemma nor_write_nm d to buf :
  nor_ok d = true → (nor_es d ≤ length (nor_mem d))%nat → bytes_ok buf → (to + length buf ≤ nor_es d)%nat →
  Flash.ra_mtd_write_nm d to buf =
    if malloc_ok (Z.of_nat (nor_es d)) then Ret (0, mk_nor (splice (nor_mem d) to buf) (nor_es d))
    else Ret (- ENOMEM, d).
Proof.
  intros Hok Hes Hb Hto. unfold Flash.ra_mtd_write_nm. cbn [mtd_present mtd_info nor_mtd]. rewrite Hok. cbn [negb].
  rewrite decide_False by lia. destruct (malloc_ok _); cbn [negb]; [|done].
  cbn [mtd_read nor_mtd]. rewrite Hok, bool_decide_true by (cbn; lia). cbn [andb]. rewrite drop_0.
  set (rd := take (nor_es d) (nor_mem d)).
  assert (length rd = nor_es d) as Hrd by (unfold rd; rewrite length_take; lia).
  rewrite Hrd, Nat.sub_diag, app_nil_r. unfold store. rewrite decide_True by lia. cbn [mbind outcome_bind].
  set (bak := splice rd to buf).
  assert (length bak = nor_es d) as Hbak by (unfold bak; rewrite splice_length; lia).
  assert (bytes_ok (nor_mem d)) as Hm.
  { unfold nor_ok in Hok. rewrite !andb_true_iff, !bool_decide_eq_true in Hok. tauto. }
  assert (bytes_ok bak) as Hbok by (apply splice_bytes_ok; [by apply bytes_ok_take|done]).
  cbn [mtd_erase nor_mtd]. rewrite Hok, bool_decide_true by (cbn; lia).
  rewrite bool_decide_true by apply Nat.Div0.mod_0_l. cbn [andb].
  cbn [mtd_write nor_mtd nor_mem nor_es].
  rewrite nor_ok_splice; [|done|rewrite length_replicate; lia|by apply bytes_ok_replicate].
  rewrite bool_decide_true by (rewrite splice_length; rewrite ?length_replicate; lia). cbn [andb].
  do 2 f_equal. f_equal.
  change (nor_program (nor_erase_range (nor_mem d) 0 (nor_es d)) 0 bak = splice (nor_mem d) to buf).
  rewrite <-Hbak. rewrite program_erased by (done || lia). unfold bak, rd.
  pose proof (splice_nested (nor_mem d) buf 0 (nor_es d) to) as Hn. rewrite drop_0 in Hn. by apply Hn.
Qed.

Lemma ra_mtd_write_mirror m name ptr base part s d to buf :
  mirror m name ptr base part s d → bytes_ok buf → (to + length buf ≤ nor_es d)%nat →
  wp (RaMtd.ra_mtd_write_nm m name (Z.of_nat to) (Z.of_nat (length buf)) buf)
     (λ r s', ∃ d', Flash.ra_mtd_write_nm d to buf = Ret (r, d') ∧ mirror m name ptr base part s' d') s.
Proof.
  intros (mem & Hd & Hw & Hu & Hes & -> & Hok & Hbase & Hmem) Hb Hto. cbn [nor_es] in Hto.
  pose proof Hd as [_ (_ & Hpo & Hnm)]. destruct (nm_wf _ _ _ Hnm) as (_ & Hm & Hm32 & Hes0).
  pose proof (po_end _ _ Hpo). pose proof (po_offset _ _ Hpo). pose proof (po_size _ _ Hpo).
  pose proof (window_length m part mem Hpo Hm) as Hwl.
  set (es := mtd_erasesize m) in *. set (w := window part mem) in *.
  rewrite nor_write_nm by (done || cbn; lia). cbn [nor_es nor_mem]. rewrite Z2Nat.id by lia.
  unfold RaMtd.ra_mtd_write_nm. apply wp_bind. eapply wp_get_device; [done|]. rewrite Hu. intros s1 Hs1.
  apply wp_bind. eapply wp_slave; [apply Hs1|].
  change (mtd_erasesize (part_mtd (used (0 + 1) part))) with (mtd_erasesize (part_mtd part)).
  rewrite (po_es _ _ Hpo). fold es. rewrite (proj2 (Z.ltb_ge es _)) by lia.
  destruct (malloc_ok es) eqn:Hmal; cbn [negb].
  2: { apply wp_bind. eapply wp_give_back; [done|done|]. intros s2 Hs2. apply wp_ret. eexists.
       split; [done|]. exists mem. by split_and!. }
  apply wp_bind. eapply wp_device_read; [done|done|lia|cbn; lia|unfold uninit; rewrite length_replicate; lia|].
  intros s2 retlen Hs2. change (negb (0 =? 0)) with false. cbn match. change (Z.to_nat 0) with 0%nat. rewrite drop_0.
  change (window (used (0 + 1) part) mem) with w in *.
  rewrite (drop_ge (uninit _)) by (unfold uninit; rewrite length_replicate; lia). rewrite app_nil_r.
  set (rd := take (Z.to_nat es) w).
  assert (length rd = Z.to_nat es) as Hrd by (unfold rd; rewrite length_take; lia).
  unfold load. rewrite decide_True, drop_0, Nat2Z.id, take_ge by lia.
  cbn [mbind outcome_bind]. unfold store. rewrite ?Nat2Z.id, decide_True by lia.
  set (bak := splice rd to buf).
  assert (length bak = Z.to_nat es) as Hbak by (unfold bak; rewrite splice_length; lia).
  assert (bytes_ok w) as Hwok.
  { unfold nor_ok in Hok. cbn [nor_mem nor_es] in Hok. rewrite !andb_true_iff, !bool_decide_eq_true in Hok. tauto. }
  assert (bytes_ok bak) as Hbok by (apply splice_bytes_ok; [by apply bytes_ok_take|done]).
  apply wp_bind. eapply (wp_device_erase _ _ _ _ _ _ es); [done|done|done|done|done|done|cbn; lia|].
  intros s3 i Hs3. change (negb (0 =? 0)) with false. cbn match.
  apply wp_bind. eapply wp_device_write; [done|done|done|lia|cbn; lia|lia|done|]. intros s4 rl Hs4. cbn match.
  apply wp_bind. eapply wp_give_back; [done|done|]. intros s5 Hs5. apply wp_ret.
  change (part_offset (used (0 + 1) part)) with (part_offset part) in Hs5.
  change (window (used (0 + 1) part)) with (window part) in Hs5.
  rewrite (take_ge bak) in Hs5 by lia. change (Z.to_nat 0) with 0%nat in Hs5.
  rewrite (window_put m) in Hs5; [|done|done|rewrite nor_erase_length; fold w; lia].
  fold w in Hs5. rewrite <-Hbak, program_erased in Hs5 by (done || lia).
  assert (splice w 0 bak = splice w to buf) as Heq.
  { unfold bak, rd. pose proof (splice_nested w buf 0 (Z.to_nat es) to) as Hn. rewrite drop_0 in Hn. apply Hn; lia. }
  rewrite Heq in Hs5.
  rewrite splice_overwrite in Hs5; [|rewrite nor_erase_length; lia|rewrite nor_erase_length, splice_length; lia].
  assert (length (splice w to buf) = length w) as Hlw by (rewrite splice_length; lia).
  assert (window part (splice mem (Z.to_nat (part_offset part)) (splice w to buf)) = splice w to buf) as Hwin.
  { apply (window_put m); [done|done|lia]. }
  eexists. split; [done|]. eexists. split; [exact Hs5|]. split; [done|]. split; [done|]. split; [done|].
  rewrite Hwin. split; [done|]. split.
  - apply (nor_ok_splice (mk_nor w (Z.to_nat es))); [done|cbn; lia|done].
  - rewrite splice_length by lia. split; [done|]. cbn [nor_mem] in Hmem |- *. rewrite Hmem at 1.
    apply splice_overwrite; lia.
Qed.

(** ** Sequences of calls *)

Inductive flash_call :=
| CallRead (from n : nat)
| CallWrite (to : nat) (buf : bytes).

(** On the abstract device, as the NVRAM driver calls them. *)
Fixpoint nor_calls (d : nor_dev) (l : list flash_call) : outcome (list (Z * bytes) * nor_dev) :=
  match l with
  | [] => Ret ([], d)
  | CallRead from n :: l =>
      let* (rs, d') := nor_calls d l in Ret (Flash.ra_mtd_read_nm d from n :: rs, d')
  | CallWrite to buf :: l =>
      let* (r, d) := Flash.ra_mtd_write_nm d to buf in
      let* (rs, d') := nor_calls d l in Ret ((r, []) :: rs, d')
  end.

(** On the partition of that name. *)
Fixpoint stack_calls (m : mtd_info_t) (name : string) (l : list flash_call) :
    io (mtd_core D) (list (Z * bytes)) :=
  match l with
  | [] => mret []
  | CallRead from n :: l =>
      r ← RaMtd.ra_mtd_read_nm name (Z.of_nat from) (Z.of_nat n) (uninit n);
      rs ← stack_calls m name l; mret (r :: rs)
  | CallWrite to buf :: l =>
      r ← RaMtd.ra_mtd_write_nm m name (Z.of_nat to) (Z.of_nat (length buf)) buf;
      rs ← stack_calls m name l; mret ((r, []) :: rs)
  end.

(** Reads within the partition, writes within its first erase block. *)
Definition call_ok (size es : nat) (c : flash_call) : Prop :=
  match c with
  | CallRead from n => (0 < n)%nat ∧ (from + n ≤ size)%nat
  | CallWrite to buf => bytes_ok buf ∧ (to + length buf ≤ es)%nat
  end.

Lemma mirror_sizes m name ptr base part s d :
  mirror m name ptr base part s d →
  length (nor_mem d) = Z.to_nat (mtd_size (part_mtd part)) ∧ nor_es d = Z.to_nat (mtd_erasesize m).
Proof.
  intros (mem & [_ (_ & Hpo & Hnm)] & _ & _ & _ & -> & _). destruct (nm_wf _ _ _ Hnm) as (_ & Hm & _).
  split; [|done]. by apply (window_length m).
Qed.

Lemma stack_calls_mirror m name ptr base part s d l :
  mirror m name ptr base part s d →
  Forall (call_ok (Z.to_nat (mtd_size (part_mtd part))) (Z.to_nat (mtd_erasesize m))) l →
  wp (stack_calls m name l)
     (λ rs s', ∃ d', nor_calls d l = Ret (rs, d') ∧ mirror m name ptr base part s' d') s.
Proof.
  revert s d. induction l as [|c l IH]; intros s d Hd Hl; cbn [stack_calls nor_calls].
  { apply wp_ret. eauto. }
  destruct (mirror_sizes _ _ _ _ _ _ _ Hd) as [Hsz Hes].
  inversion_clear Hl as [|? ? Hc Hl']. destruct c as [from n|to buf]; destruct Hc as [Hc1 Hc2]; apply wp_bind.
  - eapply wp_mono; [apply (ra_mtd_read_mirror _ _ _ _ _ _ _ from n Hd); lia|]. intros r s1 [-> Hd1].
    apply wp_bind. eapply wp_mono; [by apply IH|]. intros rs s2 (d' & -> & Hd2). apply wp_ret. eauto.
  - eapply wp_mono; [apply (ra_mtd_write_mirror _ _ _ _ _ _ _ to buf Hd); (done || lia)|].
    intros r s1 (d1 & -> & Hd1). cbn [mbind outcome_bind].
    apply wp_bind. eapply wp_mono; [by apply IH|]. intros rs s2 (d' & -> & Hd2). apply wp_ret. eauto.
Qed.

End RaMtdProps.
