(* ===== verification/RaspiProps.v ===== *)
(** Properties of the SPI flash driver [Raspi] and the partitions above it: what
    the probe finds and sets up, partitions as devices of their own, and the
    flash functions of the kernel ([ra_mtd_read_nm], [ra_mtd_write_nm]) all the way
    down to the registers. *)

From S2P Require Import Prelude Flash FlashProps Io Mtdpart Raspi SpiChip RaspiFacts RaspiOps.
From S2P Require Import RaspiWrite MtdpartSpec RaMtd RaMtdProps.
#[global] Open Scope Z_scope.
#[global] Open Scope fw_scope.

(** * The driver keeps the promise of [NorMaster] *)

Section Master.
Context {HW : Type} `{SpiFlash HW}.

#[export] Program Instance raspi_nor : NorMaster (raspi HW) := {|
  nm_state m mem d :=
    (∃ ch, spi_state false m ch mem d ∧ fits ch mem) ∧
    bytes_ok mem ∧ mtd_size m = Z.of_nat (length mem) ∧ mtd_size m < 2 ^ 32 ∧ mtd_erasesize m = 65536
|}.
Next Obligation. intros m mem d (_ & ? & ? & ? & ->). done. Qed.
Next Obligation.
  intros m mem d from len retlen buf Q ((ch & Hs & Hfit) & Hok & Hm & Hm32 & Hes) Hf Hl Hend Hb HQ.
  eapply wp_ramtd_read; [done..|]. intros s' Hs'. apply HQ. split_and!; [by exists ch|done..].
Qed.
Next Obligation.
  intros m mem d from retlen buf Q Hs HQ. unfold drv_read, raspi_master, ramtd_read. cbn.
  apply wp_ret. by apply HQ.
Qed.
Next Obligation.
  intros m mem d to len retlen data Q ((ch & Hs & Hfit) & Hok & Hm & Hm32 & Hes) Ht Hl Hend Hb Hd HQ.
  assert (length (take (Z.to_nat len) data) = Z.to_nat len) as Hlen by (rewrite length_take; lia).
  assert (length (nor_program mem (Z.to_nat to) (take (Z.to_nat len) data)) = length mem) as Hlm
    by (rewrite nor_program_length; lia).
  eapply wp_ramtd_write; [done..|]. intros s' Hs'. apply HQ.
  split_and!; [|by apply nor_program_bytes|by rewrite Hlm|done|done].
  exists ch. split; [done|]. unfold fits in *. by rewrite Hlm.
Qed.
Next Obligation.
  intros m mem d to retlen data Q Hs HQ. unfold drv_write, raspi_master, ramtd_write. cbn.
  apply wp_ret. by apply HQ.
Qed.
Next Obligation.
  intros m mem d cb instr Q ((ch & Hs & Hfit) & Hok & Hm & Hm32 & Hes) Ha Hl Hend HQ.
  eapply wp_ramtd_erase; [done|done|lia|done|done|done|done|lia|]. intros s' Hs'.
  assert ((ei_addr instr mod 65536 = 0 ∧ ei_len instr mod 65536 = 0) ↔
          (aligned m (ei_addr instr) ∧ aligned m (ei_len instr))) as Hiff by (unfold aligned; by rewrite Hes).
  specialize (HQ s').
  destruct (decide (ei_addr instr mod _ = 0 ∧ _)) as [Hy|Hn];
    destruct (decide (aligned m _ ∧ _)) as [Hy'|Hn']; [|tauto|tauto|]; apply HQ.
  - assert (length (nor_erase_range mem (Z.to_nat (ei_addr instr)) (Z.to_nat (ei_len instr))) = length mem)
      as Hlm by (apply nor_erase_length; lia).
    split_and!; [|by apply nor_erase_bytes|by rewrite Hlm|done|done].
    exists ch. split; [done|]. unfold fits in *. by rewrite Hlm.
  - split_and!; [by exists ch|done..].
Qed.
Next Obligation. intros m mem d to len Q Hs HQ. by apply wp_ret, HQ. Qed.
End Master.

(** * Setting up *)

(** Every entry of the table is found by its own identification. *)
Lemma match_chip_exact ch :
  ch ∈ chips_data → match_chip chips_data (chip_id ch) (jedec_id ch) 0xffffffff chip0 = ch.
Proof.
  intros Hch. cut (Forall (λ ch, match_chip chips_data (chip_id ch) (jedec_id ch) 0xffffffff chip0 = ch) chips_data).
  { rewrite Forall_forall. auto. }
  repeat constructor.
Qed.

Lemma chips_geometry ch :
  ch ∈ chips_data →
  sector_size ch = 65536 ∧ 32 ≤ n_sectors ch ≤ 512 ∧ (addr4b ch = false → n_sectors ch ≤ 256) ∧
  byte_ok (chip_id ch) ∧ 0 ≤ jedec_id ch < 2 ^ 32.
Proof.
  intros Hch. set (P := λ ch, sector_size ch = 65536 ∧ 32 ≤ n_sectors ch ≤ 512 ∧
    (addr4b ch = false → n_sectors ch ≤ 256) ∧ byte_ok (chip_id ch) ∧ 0 ≤ jedec_id ch < 2 ^ 32).
  cut (Forall P chips_data). { rewrite Forall_forall. intros HP. by apply HP. }
  unfold P, byte_ok. repeat constructor; cbn; try lia; discriminate.
Qed.

Section Probe.
Context {HW : Type} `{SpiFlash HW}.
Implicit Types (s : raspi HW) (c : flash_chip_t).

(** What the hardware looks like at power on: the chip is not selected, not
    protected, in three-byte mode and not busy. *)
Record cold (ch : chip_info) (mem : bytes) s : Prop := {
  cold_sel : bus_sel (bus (hw s)) = None;
  cold_busy : fl_busy (bus_chip (bus (hw s))) = 0;
  cold_chip : chip_ok ch mem (bus_chip (bus (hw s)));
  cold_id : fl_id (bus_chip (bus (hw s))) = chip_id ch :: be32 (jedec_id ch)
}.

(** The chip is not selected and stays as it is. *)
Definition quiet c s : Prop := bus_sel (bus (hw s)) = None ∧ bus_chip (bus (hw s)) = c.

Lemma wp_quiet_aor a mask val c s Q :
  quiet c s → fl_busy c = 0 → a = RALINK_REG_GPIOMODE ∨ a = RT2880_RSTCTRL_REG →
  (∀ s', quiet c s' → (a = RT2880_RSTCTRL_REG → bus_pend (bus (hw s')) = 0%nat) →
     flash s' = flash s → Q () s') →
  wp (ra_aor a mask val) Q s.
Proof.
  intros [Hsel Hc] Hr Ha HQ. unfold ra_aor. apply wp_bind, wp_ra_inl. intros v h (_ & t & Ht & Hv).
  assert (bus h = elapse t (bus (hw s))) as Hh by (destruct Ha as [-> | ->]; apply Hv).
  apply wp_ra_outl. intros h' (t' & Ht' & Hw). cbn -[elapse] in Hw. rewrite Hh in Hw.
  destruct Ha as [-> | ->].
  - change (bus h' = elapse t' (elapse t (bus (hw s)))) in Hw. apply HQ; [|done|done].
    split; cbn -[elapse]; rewrite Hw; [done|]. cbn -[later]. by rewrite Hc, (later_ready t), (later_ready t') by done.
  - change (bus_sel (elapse t (bus (hw s))) = None → bus_sel (bus h') = None ∧ bus_pend (bus h') = 0%nat ∧
      bus_chip (bus h') = later t' (later t (bus_chip (bus (hw s))))) in Hw.
    destruct (Hw Hsel) as (? & ? & Hch). apply HQ; [|done|done].
    split; [done|]. cbn. by rewrite Hch, Hc, (later_ready t), (later_ready t') by done.
Qed.

(** The control register is written with the chip select high. *)
Lemma wp_quiet_ctl v c s Q :
  quiet c s → fl_busy c = 0 → bus_pend (bus (hw s)) = 0%nat → v = 1 ∨ v = 9 →
  (∀ s', quiet c s' → bus_pend (bus (hw s')) = 0%nat → bus_ctl (bus (hw s')) = v → flash s' = flash s → Q () s') →
  wp (ra_outl RT2880_SPICTL_REG v) Q s.
Proof.
  intros [Hsel Hc] Hr Hp Hv HQ. apply wp_ra_outl. intros h (t & Ht & Hw). rewrite Z.eqb_refl in Hw.
  assert (bus h = elapse t ((bus (hw s)) ⦃ bus_ctl := v ⦄)) as Hh.
  { unfold ctl_step in Hw. rewrite u32_id in Hw by (destruct Hv; subst; done).
    destruct Hv as [-> | ->]; cbn -[elapse] in Hw |- *; rewrite Hsel in Hw |- *; by apply Hw. }
  apply HQ; cbn -[elapse]; [split; cbn -[elapse]|..]; rewrite ?Hh; try done.
  cbn -[later]. by rewrite Hc, later_ready.
Qed.

(** The clocks of the chips the driver is for are between 80 and 250 MHz. *)
Definition sysclk_ok (sysclk : Z) : Prop := 80000000 ≤ sysclk ≤ 250000000.

Lemma wp_spic_init sysclk ch mem s Q :
  cold ch mem s → sysclk_ok sysclk →
  (∀ s', idle (flash s) (bus_chip (bus (hw s))) s' → Q 0 s') → wp (spic_init sysclk) Q s.
Proof.
  intros [Hsel Hr _ _] Hclk HQ. set (c := bus_chip (bus (hw s))) in *.
  unfold spic_init, ra_and, ra_or.
  apply wp_bind. eapply (wp_quiet_aor _ _ _ c); [done|done|by left|]. intros s1 H1 _ Hf1.
  apply wp_bind. eapply (wp_quiet_aor _ _ _ c); [done|done|by right|]. intros s2 H2 _ Hf2.
  apply wp_bind, wp_modify. destruct (bus_udelay 1 (hw s2)) as (t & Ht & Hb).
  apply wp_bind. eapply (wp_quiet_aor _ _ _ c); [|done|by right|].
  { destruct H2 as [Hs2 Hc2]. split; cbn -[elapse]; rewrite Hb; [done|]. cbn -[later]. by rewrite Hc2, later_ready. }
  intros s3 H3 Hp3 Hf3. specialize (Hp3 eq_refl).
  apply wp_bind. eapply (wp_quiet_ctl 1); [done|done|done|by left|]. intros s4 H4 Hp4 _ Hf4.
  apply wp_bind, wp_ra_outl. intros h (t5 & Ht5 & Hw).
  change (bus h = elapse t5 ((bus (hw s4)) ⦃ bus_cfg := SPI_MODE ⦄)) in Hw.
  apply wp_bind. eapply (wp_quiet_ctl 9); [|done| |by right|].
  { destruct H4 as [Hs4 Hc4]. split; cbn -[elapse]; rewrite Hw; [done|]. cbn -[later]. by rewrite Hc4, later_ready. }
  { cbn -[elapse]. by rewrite Hw. }
  intros s6 [Hs6 Hc6] Hp6 Hctl6 Hf6. apply wp_bind, wp_modify, wp_ret, HQ. split_and!; [| |by split_and!].
  - cbn [spi_wait_nsec set]. cbn -[Z.shiftr Z.div]. unfold sysclk_ok in Hclk. unfold CFG_CLK_DIV, SPICFG_SPICLK_DIV8.
    rewrite Z.shiftr_div_pow2 by done. change (2 ^ 1) with 2.
    set (x := sysclk / 1000 / 1000 / 2). assert (40 ≤ x ≤ 125) by (unfold x; zlia).
    assert (64 ≤ 8000 / x) as H64 by (apply Z.div_le_lower_bound; lia).
    revert H64. change (8 * 1000) with 8000. generalize (8000 / x). intros y Hy. zlia.
  - cbn in *. congruence.
Qed.

Lemma wp_chip_prob f ch mem c s Q :
  idle f c s → ch ∈ chips_data → chip_ok ch mem c → fl_busy c = 0 → fl_id c = chip_id ch :: be32 (jedec_id ch) →
  (∀ s', idle f c s' → Q ch s') → wp chip_prob Q s.
Proof.
  intros Hs Hch Hc Hr Hid HQ. destruct (chips_geometry ch Hch) as (_ & _ & _ & Hi & Hj).
  unfold chip_prob, raspi_read_devid. apply wp_bind.
  eapply wp_ready_read; [done|done|by repeat constructor|done| |done|].
  { intros d. unfold flash_exec. by rewrite Hr. }
  intros s1 data Hl Ha Hs1.
  assert (data = chip_id ch :: be32 (jedec_id ch)) as ->.
  { apply list_eq. intros i. destruct (decide (i < 5)%nat) as [Hi5|Hi5].
    - destruct (lookup_lt_is_Some_2 data i) as [v Hv]; [lia|].
      destruct (lookup_lt_is_Some_2 (chip_id ch :: be32 (jedec_id ch)) i) as [b Hb]; [cbn; lia|].
      rewrite Hv, Hb. f_equal. destruct (Ha i v Hv) as [_ Hx]. unfold flash_answer in Hx.
      rewrite Hr, Hid in Hx. cbn -[be32] in Hx. rewrite (Hx b Hb). apply u8_id.
      assert (bytes_ok (chip_id ch :: be32 (jedec_id ch))) as Hall by (constructor; [done|apply bytes_ok_be32]).
      by eapply (Forall_lookup_1 byte_ok).
    - rewrite !lookup_ge_None_2; [done|cbn; lia|lia]. }
  apply wp_ret. change (drop 5 (uninit 5)) with (@nil Z). rewrite app_nil_r.
  change (deref (chip_id ch :: be32 (jedec_id ch))) with (chip_id ch).
  change (drop 1 (chip_id ch :: be32 (jedec_id ch))) with (be32 (jedec_id ch)).
  rewrite of_be_be32 by lia. rewrite match_chip_exact by done. by apply HQ.
Qed.
End Probe.

(** * The partitions *)

(** Name, offset and size of each, for a chip of [size] bytes: the kernel's is cut
    off at the end of a chip of less than 16 MB. *)
Definition layout (size : Z) : list (string * Z * Z) :=
  [ ("ALL", 0, size); ("Bootloader", 0, 0x30000); ("Config", 0x30000, 0x10000);
    ("Factory", 0x40000, 0x10000); ("Kernel", 0x50000, Z.min 0xfb0000 (size - 0x50000)) ]%string.

Definition made_part (registered : bool) (usecount : Z) (i : nat) (l : string * Z * Z) : mtd_part :=
  let '(name, offset, size) := l in
  {| part_mtd := {| mtd_name := name; mtd_type := MTD_NORFLASH; mtd_flags := MTD_CAP_NORFLASH;
                    mtd_size := size; mtd_erasesize := 65536; mtd_writesize := 1;
                    mtd_index := if registered then i else 0%nat; mtd_regions := []; ecc_corrected := 0;
                    ecc_failed := 0; mtd_usecount := usecount |};
     part_master := raspi_mtd; part_offset := offset; part_index := i; part_registered := registered |}.

Definition flash_bytes (ch : chip_info) : Z := sector_size ch * n_sectors ch.

(** The layer with the first partitions of the layout. *)
Definition layer {D} (d : D) (l : list (string * Z * Z)) : mtd_core D :=
  {| drv := d;
     slaves := foldr (λ '(i, x) h, <[i := made_part true 0 i x]> h) ∅ (imap pair l);
     next_slave := length l;
     mtd_partitions := reverse (seq 0 (length l));
     mtd_table := (Some <$> seq 0 (length l)) ++ replicate (MAX_MTD_DEVICES - length l) None |}.

Lemma layer_lookup {D} (d : D) l i x :
  l !! i = Some x → slaves (layer d l) !! i = Some (made_part true 0 i x).
Proof.
  unfold layer. cbn. assert (∀ (k : list (string * Z * Z)) n j y, k !! j = Some y →
    foldr (λ '(i, x) h, <[i := made_part true 0 i x]> h) (∅ : gmap nat mtd_part) (imap (λ i, pair (n + i)%nat) k)
      !! (n + j)%nat = Some (made_part true 0 (n + j) y)) as Hg.
  { induction k as [|z k IH]; intros n j y Hj; [done|]. cbn [imap foldr].
    destruct j as [|j]; cbn in Hj.
    - injection Hj as ->. by rewrite lookup_insert_eq.
    - rewrite lookup_insert_ne by lia. specialize (IH (S n) j y Hj).
      rewrite <-Nat.add_succ_comm. erewrite imap_ext; [exact IH|].
      intros q ? _. cbn. by rewrite Nat.add_succ_r. }
  intros Hi. by apply (Hg l 0%nat).
Qed.

Definition kzalloc_total : Kzalloc := λ _, true.

Section Partitions.
Context {D : Type} `{MtdMaster D} `{Kzalloc}.

Lemma add_parts_total master m ps i cur (s : mtd_core D) :
  (∀ n, kzalloc_ok n = true) →
  add_parts master m ps i cur s = add_parts (H0 := kzalloc_total) master m ps i cur s.
Proof.
  intros Hk. revert i cur s. induction ps as [|p ps IH]; intros i cur s; [done|].
  cbn [add_parts]. unfold mbind at 1, io_bind at 1. symmetry. unfold mbind at 1, io_bind at 1. symmetry.
  cbn [gets]. rewrite Hk. cbn [kzalloc_ok kzalloc_total negb].
  unfold mbind at 1, io_bind at 1. symmetry. unfold mbind at 1, io_bind at 1. symmetry.
  cbn [modify]. destruct (make_part _ _ _ _ _) as [[part cur']| |]; [|done..].
  do 4 (unfold mbind at 1, io_bind at 1; symmetry; unfold mbind at 1, io_bind at 1; symmetry;
        match goal with |- match ?c with Ret _ => _ | Oob => _ | NoFuel => _ end = _ => destruct c as [[? ?]| |]; [|done..] end).
  apply IH.
Qed.

Lemma chips_sizes ch :
  ch ∈ chips_data → sector_size ch = 65536 ∧ n_sectors ch ∈ [32; 64; 128; 256; 512].
Proof.
  intros Hch. set (P := λ ch, sector_size ch = 65536 ∧ n_sectors ch ∈ [32; 64; 128; 256; 512]).
  cut (Forall P chips_data). { rewrite Forall_forall. intros HP. by apply HP. }
  unfold P. repeat (constructor; [split; [done|by apply (bool_decide_unpack _)]|]). constructor.
Qed.

(** The table of the driver gives the layout. *)
Lemma add_partitions_layer (d : D) ch :
  ch ∈ chips_data → (∀ n, kzalloc_ok n = true) →
  add_mtd_partitions raspi_mtd (raspi_mtd_info ch) rt2880_partitions
    (mk_core d ∅ 0 [] (replicate MAX_MTD_DEVICES None)) = Ret (0, layer d (layout (flash_bytes ch))).
Proof.
  intros Hch Hk. destruct (chips_sizes ch Hch) as [Hs Hn].
  assert (raspi_mtd_info ch = raspi_mtd_info (mk_chip "" 0 0 65536 (n_sectors ch) false)) as ->
    by (unfold raspi_mtd_info; by rewrite Hs).
  unfold flash_bytes. rewrite Hs. unfold add_mtd_partitions. rewrite add_parts_total by done.
  rewrite !elem_of_cons, elem_of_nil in Hn.
  destruct Hn as [-> | [-> | [-> | [-> | [-> | []]]]]].
  all: vm_compute; reflexivity.
Qed.
End Partitions.

(** * The driver after the probe *)

Section Probed.
Context {HW : Type} `{SpiFlash HW} `{Malloc} `{Kzalloc}.

(** The machine before the driver is loaded: no device, no partition. *)
Definition no_devices (s : raspi HW) : mtd_core (raspi HW) :=
  mk_core s ∅ 0 [] (replicate MAX_MTD_DEVICES None).

Lemma wp_in_drv_bind {A B} (c : io (raspi HW) A) (k : A → io (mtd_core (raspi HW)) B) Q s :
  wp c (λ a d, wp (k a) Q (s ⦃ drv := d ⦄)) (drv s) → wp (a ← in_drv c; k a) Q s.
Proof. intros Hc. by apply wp_bind, wp_in_drv. Qed.

Lemma raspi_prob_state ch mem sysclk s :
  cold ch mem s → ch ∈ chips_data → sysclk_ok sysclk → malloc_ok 200 = true →
  (∀ n, kzalloc_ok n = true) → bytes_ok mem → Z.of_nat (length mem) = flash_bytes ch →
  ∃ d, raspi_prob sysclk (no_devices s) = Ret (0, layer d (layout (flash_bytes ch))) ∧
       nm_state (raspi_mtd_info ch) mem d.
Proof.
  intros Hcold Hch Hclk Hmal Hk Hok Hlen.
  destruct (chips_geometry ch Hch) as (Hss & Hn & Hn3 & _ & _).
  assert (0 ≤ flash_bytes ch < 2 ^ 32) as Hfb by (unfold flash_bytes; rewrite Hss; lia).
  set (c := bus_chip (bus (hw s))).
  set (fi := {| flash_lock := false; flash_mtd := raspi_mtd_info ch; flash_chip := ch; command := replicate 5 0 |}).
  enough (wp (raspi_prob sysclk) (λ r s', r = 0 ∧ ∃ d, s' = layer d (layout (flash_bytes ch)) ∧ idle (Some fi) c d)
            (no_devices s)) as (r & s' & E & -> & d & -> & Hi).
  { exists d. split; [done|]. split_and!; [|done|..].
    - exists ch. split.
      + exists c. split; [by exists (replicate 5 0)|]. apply Hcold.
      + unfold fits. rewrite Hlen. unfold flash_bytes. rewrite Hss. destruct (addr4b ch); [lia|].
        specialize (Hn3 eq_refl). lia.
    - cbn. fold (flash_bytes ch). by rewrite u32_id, Hlen.
    - cbn. fold (flash_bytes ch). rewrite u32_id by done. lia.
    - cbn. by rewrite Hss. }
  unfold raspi_prob. apply wp_in_drv_bind. eapply wp_spic_init; [exact Hcold|done|]. intros s1 Hs1.
  change (negb (ra_check_flash_type =? BOOT_FROM_SPI)) with false. cbn match.
  apply wp_in_drv_bind. eapply wp_chip_prob; [exact Hs1|exact Hch|apply Hcold|apply Hcold|apply Hcold|].
  intros s2 Hs2. rewrite Hmal. cbn [negb]. apply wp_in_drv_bind, wp_modify.
  eexists 0, _. split.
  - etransitivity; [|apply (add_partitions_layer (s2 ⦃ flash := Some fi ⦄) ch Hch Hk)]. done.
  - split; [done|]. eexists. split; [done|]. destruct Hs2 as (? & ? & ?). by split_and!.
Qed.

(** The partition in line [i] of the layout is a device of its own. *)
Lemma layout_device ch mem d i name off size :
  nm_state (raspi_mtd_info ch) mem d → ch ∈ chips_data →
  layout (flash_bytes ch) !! i = Some (name, off, size) →
  device (raspi_mtd_info ch) name i (made_part true 0 i (name, off, size)) mem
    (layer d (layout (flash_bytes ch))).
Proof.
  intros Hnm Hch Hi. destruct (chips_geometry ch Hch) as (Hss & Hn & _).
  assert (2097152 ≤ flash_bytes ch < 2 ^ 32 ∧ flash_bytes ch mod 65536 = 0) as [Hfb Hmod].
  { unfold flash_bytes. rewrite Hss. split; [lia|]. rewrite Z.mul_comm. apply Z_mod_mult. }
  assert (mtd_size (raspi_mtd_info ch) = flash_bytes ch) as Hsz.
  { cbn. fold (flash_bytes ch). apply u32_id. lia. }
  assert (mtd_erasesize (raspi_mtd_info ch) = 65536) as Hes by (cbn; by rewrite Hss).
  split.
  - clear -Hi. unfold layer. generalize dependent (flash_bytes ch). intros z Hi.
    repeat (destruct i as [|i]; [by injection Hi as <- _ _|]). done.
  - split_and!; [by apply layer_lookup| |done].
    unfold layout in Hi. split; rewrite ?Hsz, ?Hes; unfold aligned; rewrite ?Hes;
      do 5 (destruct i as [|i]; [injection Hi as <- <- <-; cbn; lia || done|]); done.
Qed.
End Probed.

Lemma layout_sizes ch i name off size :
  ch ∈ chips_data → layout (flash_bytes ch) !! i = Some (name, off, size) → 0 < size ∧ size mod 65536 = 0.
Proof.
  intros Hch Hi. destruct (chips_sizes ch Hch) as [Hs Hn]. unfold flash_bytes in Hi. rewrite Hs in Hi.
  rewrite !elem_of_cons, elem_of_nil in Hn.
  destruct Hn as [Hn|[Hn|[Hn|[Hn|[Hn|[]]]]]]; rewrite Hn in Hi;
    do 5 (destruct i as [|i]; [injection Hi as <- <- <-; done|]); done.
Qed.

(** * Properties *)

Section Properties.
Context {HW : Type} `{SpiFlash HW} `{Malloc} `{Kzalloc}.

(** C37. On every chip of the table the probe succeeds and registers the five
    partitions of the layout as devices 0 to 4 under their names: writable, on
    erase blocks, within the chip, the kernel's cut off at its end; the driver then
    serves the flash with its contents unchanged. *)
Theorem raspi_prob_partitions ch mem sysclk (s : raspi HW) :
  cold ch mem s → ch ∈ chips_data → sysclk_ok sysclk → malloc_ok 200 = true →
  (∀ n, kzalloc_ok n = true) → bytes_ok mem → Z.of_nat (length mem) = flash_bytes ch →
  ∃ s', raspi_prob sysclk (no_devices s) = Ret (0, s') ∧
    nm_state (raspi_mtd_info ch) mem (drv s') ∧
    mtd_table s' = (Some <$> seq 0 5) ++ replicate 27 None ∧
    ∀ i name off size, layout (flash_bytes ch) !! i = Some (name, off, size) →
      find_name (slaves s') name (mtd_table s') = Some i ∧
      ∃ part, slaves s' !! i = Some part ∧ part_ok (raspi_mtd_info ch) part ∧
        writeable (part_mtd part) = true ∧ part_offset part = off ∧ mtd_size (part_mtd part) = size ∧
        0 < size ∧ aligned (raspi_mtd_info ch) size.
Proof.
  intros Hcold Hch Hclk Hmal Hk Hok Hlen.
  destruct (raspi_prob_state ch mem sysclk s) as (d & Hp & Hnm); [done..|].
  eexists. split; [exact Hp|]. split; [done|]. split; [done|].
  intros i name off size Hi. destruct (layout_device _ _ _ _ _ _ _ Hnm Hch Hi) as [Hf (Hs & Hpo & _)].
  split; [done|]. eexists. split; [exact Hs|]. split_and!; [done|done|done|done|..].
  - by eapply layout_sizes.
  - unfold aligned. replace (mtd_erasesize (raspi_mtd_info ch)) with 65536.
    + by eapply layout_sizes.
    + destruct (chips_geometry ch Hch) as (Hss & _). cbn. by rewrite Hss.
Qed.

(** C11. Any sequence of reads and writes of a partition of the SPI flash, for any
    offsets and lengths, past the end or empty, and of erases, aligned or not, that
    start behind the partition or end within it, gives the answers of a device of its
    own that holds the partition's bytes; afterwards the flash holds that device's
    bytes in the partition and what it held before everywhere else, and the partition
    layer is as it was.  An erase that starts in the partition and ends behind it is
    excluded: [part_erase_escapes] shows that it erases what lies behind. *)
Theorem spi_partition_refines m ptr part mem l (s : mtd_core (raspi HW)) :
  core_state m ptr part mem s → Forall (request_ok ptr (mtd_size (part_mtd part))) l →
  ∃ answers w s', part_requests m ptr l s = Ret (answers, s') ∧
    spec_requests (part_mtd part) (window part mem) l = (answers, w) ∧
    length w = length (window part mem) ∧ s' = s ⦃ drv := drv s' ⦄ ∧
    core_state m ptr part (splice mem (Z.to_nat (part_offset part)) w) s'.
Proof.
  intros Hs Hl. destruct (part_requests_ok m ptr part l mem s Hs Hl) as (answers & s' & E & HQ).
  destruct (spec_requests _ _ l) as [answers' w] eqn:Ew. destruct HQ as (-> & Hw & Hd & Hc). eauto 10.
Qed.

(** C5. From power on: after the probe, any sequence of calls of the kernel's flash
    functions on the partition the NVRAM driver uses gives, through the device
    table, the partition and the SPI transfers, the results of the same functions
    on a NOR device that holds the partition's bytes - the device the theorems of
    the NVRAM driver are about - and the flash ends up with that device's bytes in
    the partition and all its other bytes unchanged. *)
Theorem spi_config_is_nor ch mem sysclk l (s : raspi HW) :
  cold ch mem s → ch ∈ chips_data → sysclk_ok sysclk → malloc_ok 200 = true →
  (∀ n, kzalloc_ok n = true) → bytes_ok mem → Z.of_nat (length mem) = flash_bytes ch →
  Forall (call_ok (Z.to_nat 0x10000) (Z.to_nat 0x10000)) l →
  ∃ s1 answers s2 d2, raspi_prob sysclk (no_devices s) = Ret (0, s1) ∧
    stack_calls (raspi_mtd_info ch) "Config" l s1 = Ret (answers, s2) ∧
    nor_calls (mk_nor (take (Z.to_nat 0x10000) (drop (Z.to_nat 0x30000) mem)) (Z.to_nat 0x10000)) l = Ret (answers, d2) ∧
    nm_state (raspi_mtd_info ch) (splice mem (Z.to_nat 0x30000) (nor_mem d2)) (drv s2).
Proof.
  intros Hcold Hch Hclk Hmal Hk Hok Hlen Hl.
  destruct (raspi_prob_state ch mem sysclk s) as (d & Hp & Hnm); [done..|].
  pose proof (layout_device ch mem d 2 "Config" 0x30000 0x10000 Hnm Hch eq_refl) as Hdev.
  set (part := made_part true 0 2 ("Config"%string, 0x30000, 0x10000)) in *.
  set (m := raspi_mtd_info ch) in *.
  assert (mtd_erasesize m = 0x10000) as Hes.
  { destruct (chips_geometry ch Hch) as (Hss & _). cbn. by rewrite Hss. }
  assert (mtd_size (part_mtd part) = 0x10000) as Hsz by exact eq_refl.
  assert (part_offset part = 0x30000) as Hoff by exact eq_refl.
  assert (window part mem = take (Z.to_nat 0x10000) (drop (Z.to_nat 0x30000) mem)) as Hwin
    by (unfold window; by rewrite Hsz, Hoff).
  destruct (stack_calls_mirror m "Config" 2 mem part (layer d (layout (flash_bytes ch)))
    (mk_nor (window part mem) (Z.to_nat (mtd_erasesize m))) l) as (answers & s2 & E & d2 & En & mem2 & Hd2 & Hm2).
  - apply mirror_start; [exact Hdev|exact eq_refl|exact eq_refl|lia|by rewrite Hes|].
    unfold aligned. by rewrite Hes, Hsz.
  - rewrite Hes, Hsz. exact Hl.
  - destruct Hm2 as (_ & _ & _ & _ & _ & _ & Hmem). exists (layer d (layout (flash_bytes ch))), answers, s2, d2.
    rewrite Hes, Hwin in En. split; [exact Hp|]. split; [exact E|]. split; [exact En|].
    destruct Hd2 as [_ (_ & _ & Hn2)]. rewrite Hmem, Hoff in Hn2. exact Hn2.
Qed.

(** On a chip whose blocks are protected, the first erase of a sector reports
    success and erases nothing: taking the protection off clears the write enable
    latch that the erase command needs. *)
Theorem spi_protected_erase_lost cb m ch c instr (s : raspi HW) :
  dev [] false m ch c s → addr4b ch = false → fl_bank c = 0 → 0 ≤ fl_busy c ≤ SECTOR_TIME →
  Z.land (fl_bp c) BP_MASK ≠ 0 → mtd_erasesize m = 65536 →
  ei_addr instr mod 65536 = 0 → ei_len instr = 65536 → 0 ≤ ei_addr instr →
  ei_addr instr + ei_len instr ≤ mtd_size m < 2 ^ 32 →
  ∃ s' c', ramtd_erase cb m instr s = Ret ((0, cb (instr ⦃ ei_state := MTD_ERASE_DONE ⦄)), s') ∧
    dev [] false m ch c' s' ∧ fl_mem c' = fl_mem c ∧ fl_bp c' = 0.
Proof.
  intros Hs E4 Hbk Hb Hbp Hes Ha Hl Ha0 Hend.
  enough (wp (ramtd_erase cb m instr) (λ r s', r = (0, cb (instr ⦃ ei_state := MTD_ERASE_DONE ⦄)) ∧
    ∃ c', dev [] false m ch c' s' ∧ fl_mem c' = fl_mem c ∧ fl_bp c' = 0) s) as (r & s' & E & -> & c' & ? & ? & ?).
  { by exists s', c'. }
  unfold ramtd_erase. apply wp_bind. eapply wp_flash_size; [done|].
  rewrite Hl, Hes, Ha in *. rewrite u32_id by lia. rewrite (proj2 (Z.ltb_ge _ _)) by lia.
  change (negb (0 =? 0) || negb (65536 mod 65536 =? 0)) with false. cbn match.
  apply wp_bind. eapply wp_down; [done|]. intros s1 Hs1. change (Z.to_nat (65536 / 65536)) with 1%nat.
  cbn [erase_loop]. change (negb (0 <? 65536)) with false. cbn match.
  apply wp_bind, wp_bind. eapply wp_erase_sector_protected; [done..|].
  intros s2 c2 Hs2 Hm Hp _ _ _. change (negb (0 =? 0)) with false. cbn match.
  change (u32 (65536 - 65536)) with 0. change (negb (0 <? 0)) with true. cbn match. apply wp_ret.
  apply wp_bind. eapply wp_up; [done|]. intros s3 Hs3. apply wp_ret. split; [done|]. by exists c2.
Qed.

(** The partition layer checks where an erase starts and not where it ends: an
    erase that begins in a partition and is too long succeeds, and erases what lies
    behind the partition. *)
Theorem part_erase_escapes m ptr part mem instr (s : mtd_core (raspi HW)) :
  core_state m ptr part mem s → writeable (part_mtd part) = true → ei_mtd instr = Some ptr →
  0 ≤ ei_addr instr < mtd_size (part_mtd part) → aligned m (ei_addr instr) → aligned m (ei_len instr) →
  mtd_size (part_mtd part) < ei_addr instr + ei_len instr →
  part_offset part + ei_addr instr + ei_len instr ≤ mtd_size m →
  ∃ i s' mem', part_erase m ptr instr s = Ret ((0, i), s') ∧ core_state m ptr part mem' s' ∧
    ∀ k, part_offset part + mtd_size (part_mtd part) ≤ Z.of_nat k <
           part_offset part + ei_addr instr + ei_len instr → mem' !! k = Some 0xff.
Proof.
  intros Hs Hw Hptr Ha Hal Hll Hpast Hend. pose proof Hs as (Hp & Hok & Hd).
  destruct (nm_wf _ _ _ Hd) as (_ & Hm & Hm32 & Hes). pose proof Hok as [Ho Hsz He Hpes Hal0].
  specialize (Hal0 Hw).
  set (mem' := nor_erase_range mem (Z.to_nat (ei_addr instr + part_offset part)) (Z.to_nat (ei_len instr))).
  enough (wp (part_erase m ptr instr) (λ r s', r.1 = 0 ∧ core_state m ptr part mem' s') s) as ([r i] & s' & E & Hr & Hc).
  { cbn in Hr. subst r. exists i, s', mem'. split_and!; [done|done|].
    intros k Hk. unfold mem', nor_erase_range. rewrite lookup_splice by (rewrite length_replicate; lia).
    rewrite length_replicate, decide_True by lia. apply lookup_replicate_2. lia. }
  unfold part_erase. apply wp_bind. eapply wp_slave; [done|]. rewrite Hw. cbn [negb].
  rewrite (proj2 (Z.leb_gt _ _)) by lia. rewrite u32_id by lia.
  set (instr1 := instr ⦃ ei_addr := ei_addr instr + part_offset part ⦄).
  assert (ei_addr instr1 = ei_addr instr + part_offset part) as Ha1 by done.
  assert (ei_len instr1 = ei_len instr) as Hl1 by done.
  apply wp_bind, wp_gets, wp_bind, wp_in_drv. eapply nm_erase; [done|lia|lia|lia|].
  rewrite Ha1, Hl1. rewrite decide_True.
  - intros d' Hd'. rewrite decide_True in Hd'.
    + apply wp_ret. split; [done|]. by eapply core_state_drv.
    + unfold aligned in *. rewrite Zplus_mod, Hal, Hal0. split; [apply Zmod_0_l|done].
  - unfold aligned in *. rewrite Zplus_mod, Hal, Hal0. split; [apply Zmod_0_l|done].
Qed.
End Properties.

(** * Concrete runs *)

Section Witnesses.
Local Instance kzalloc_always : Kzalloc := kzalloc_total.
Local Instance malloc_always : Malloc := λ _, true.

Definition W25Q32BV : chip_info := mk_chip "W25Q32BV" 0xef 0x40160000 65536 64 false.
Definition erased (ch : chip_info) : bytes := replicate (Z.to_nat (flash_bytes ch)) 0xff.

(** The hardware with [ch] on the bus, at power on and after the probe. *)
Definition powered (ch : chip_info) (bp ctl : Z) (mem : bytes) : spi_bus :=
  {| bus_cfg := SPI_MODE; bus_ctl := ctl; bus_data := 0; bus_pend := 0; bus_sel := None;
     bus_chip := {| fl_mem := mem; fl_wel := false; fl_bp := bp; fl_bank := 0; fl_busy := 0;
                    fl_id := chip_id ch :: be32 (jedec_id ch) |} |}.
Definition power_on (ch : chip_info) (mem : bytes) : raspi spi_bus := mk_raspi (powered ch 0 0 mem) 0 None.
Definition probed (ch : chip_info) (bp : Z) (mem : bytes) : raspi spi_bus :=
  mk_raspi (powered ch bp 9 mem) 100
    (Some {| flash_lock := false; flash_mtd := raspi_mtd_info ch; flash_chip := ch; command := replicate 5 0 |}).

Lemma power_on_cold ch mem : cold ch mem (power_on ch mem).
Proof. split; [done..|split; [done|done|done|split; [done|]|]|]; done. Qed.

Lemma powered_mem ch bp ctl mem : fl_mem (bus_chip (powered ch bp ctl mem)) = mem.
Proof. done. Qed.

Lemma erased_ok ch : bytes_ok (erased ch).
Proof. by apply bytes_ok_replicate. Qed.
Lemma erased_length ch : ch ∈ chips_data → Z.of_nat (length (erased ch)) = flash_bytes ch.
Proof.
  intros Hch. unfold erased. rewrite length_replicate. apply Z2Nat.id. unfold flash_bytes.
  destruct (chips_geometry ch Hch) as (-> & ? & _). lia.
Qed.
Lemma W25Q32BV_listed : W25Q32BV ∈ chips_data.
Proof. by apply (list_elem_of_lookup_2 _ 20). Qed.

Lemma probed_dev ch bp mem :
  dev [] false (raspi_mtd_info ch) ch (bus_chip (powered ch bp 9 mem)) (probed ch bp mem).
Proof. by exists (replicate 5 0). Qed.

Lemma probed_state ch mem :
  ch ∈ chips_data → bytes_ok mem → Z.of_nat (length mem) = flash_bytes ch →
  nm_state (raspi_mtd_info ch) mem (probed ch 0 mem).
Proof.
  intros Hch Hb Hl. destruct (chips_geometry ch Hch) as (Hs & Hn & Hn3 & _).
  assert (0 ≤ sector_size ch * n_sectors ch < 2 ^ 32) as Hfb by (rewrite Hs; lia).
  split_and!; [|done|..].
  - exists ch. split; [eexists; split; [apply probed_dev|]|].
    + split; [done..|]. done.
    + unfold fits. rewrite Hl. unfold flash_bytes. rewrite Hs. destruct (addr4b ch); [lia|]. specialize (Hn3 eq_refl). lia.
  - cbn. by rewrite u32_id, Hl.
  - cbn. rewrite u32_id by done. lia.
  - cbn. by rewrite Hs.
Qed.

Definition config_part : mtd_part := made_part true 0 2 ("Config"%string, 0x30000, 0x10000).
Definition ready_layer (ch : chip_info) : mtd_core (raspi spi_bus) :=
  layer (probed ch 0 (erased ch)) (layout (flash_bytes ch)).

Lemma ready_config ch :
  ch ∈ chips_data → core_state (raspi_mtd_info ch) 2 config_part (erased ch) (ready_layer ch).
Proof.
  intros Hch. apply (layout_device ch (erased ch) _ 2 "Config" 0x30000 0x10000); [|done|done].
  apply probed_state; [done|apply erased_ok|by apply erased_length].
Qed.

Lemma raspi_prob_partitions_witness :
  ∃ s', raspi_prob 120000000 (no_devices (power_on W25Q32BV (erased W25Q32BV))) = Ret (0, s') ∧
    find_name (slaves s') "Config" (mtd_table s') = Some 2%nat ∧
    ∃ part, slaves s' !! 4%nat = Some part ∧ mtd_size (part_mtd part) = 0x3b0000.
Proof.
  destruct (raspi_prob_partitions W25Q32BV (erased W25Q32BV) 120000000 (power_on W25Q32BV (erased W25Q32BV)))
    as (s' & Hp & _ & _ & Hl);
    [apply power_on_cold|apply W25Q32BV_listed|by split|done|done|apply erased_ok
    |apply erased_length, W25Q32BV_listed|].
  exists s'. split; [exact Hp|]. split; [exact (proj1 (Hl 2%nat "Config"%string 0x30000 0x10000 eq_refl))|].
  destruct (Hl 4%nat "Kernel"%string 0x50000 0x3b0000 eq_refl) as (_ & part & Hs & _ & _ & _ & Hz & _).
  exists part. split; [exact Hs|exact Hz].
Defined.

Definition demo_requests : list mtd_request :=
  [ ReqWrite 0xfffe 3 (Some 0) [1; 2; 3]; ReqRead 0xffff 2 None [0; 0]; ReqRead 0x10000 1 (Some 5) [0];
    ReqErase {| ei_mtd := Some 2%nat; ei_addr := 0; ei_len := 0x10000; ei_fail_addr := 0; ei_state := 0;
                ei_callback := false; ei_calls := 0 |} ].

Lemma spi_partition_refines_witness :
  ∃ answers w s', part_requests (raspi_mtd_info W25Q32BV) 2 demo_requests (ready_layer W25Q32BV) = Ret (answers, s') ∧
    spec_requests (part_mtd config_part) (window config_part (erased W25Q32BV)) demo_requests = (answers, w).
Proof.
  destruct (spi_partition_refines (raspi_mtd_info W25Q32BV) 2 config_part (erased W25Q32BV) demo_requests
    (ready_layer W25Q32BV)) as (answers & w & s' & Hr & Hs & _);
    [apply ready_config, W25Q32BV_listed|repeat constructor; cbn; try lia; by vm_compute|].
  exists answers, w, s'. split; [exact Hr|exact Hs].
Defined.

Definition demo_calls : list flash_call := [CallWrite 4 [65; 61; 49; 0; 0]; CallRead 0 16].

Lemma spi_config_is_nor_witness :
  ∃ s1 answers s2 d2,
    raspi_prob 120000000 (no_devices (power_on W25Q32BV (erased W25Q32BV))) = Ret (0, s1) ∧
    stack_calls (raspi_mtd_info W25Q32BV) "Config" demo_calls s1 = Ret (answers, s2) ∧
    nor_calls (mk_nor (take (Z.to_nat 0x10000) (drop (Z.to_nat 0x30000) (erased W25Q32BV))) (Z.to_nat 0x10000))
      demo_calls = Ret (answers, d2).
Proof.
  destruct (spi_config_is_nor W25Q32BV (erased W25Q32BV) 120000000 demo_calls
    (power_on W25Q32BV (erased W25Q32BV))) as (s1 & answers & s2 & d2 & Hp & Hs & Hn & _);
    [apply power_on_cold|apply W25Q32BV_listed|by split|done|done|apply erased_ok
    |apply erased_length, W25Q32BV_listed| |exists s1, answers, s2, d2; split; [exact Hp|split; [exact Hs|exact Hn]]].
  apply Forall_cons. split; [split; [by apply (bool_decide_unpack _)|cbn [length]; lia]|].
  apply Forall_cons. split; [split; lia|apply Forall_nil, I].
Defined.

Definition demo_erase (addr len : Z) : erase_info :=
  {| ei_mtd := Some 2%nat; ei_addr := addr; ei_len := len; ei_fail_addr := 0; ei_state := 0;
     ei_callback := false; ei_calls := 0 |}.

Lemma spi_protected_erase_lost_witness :
  ∃ s' c', ramtd_erase (λ i, i) (raspi_mtd_info W25Q32BV) (demo_erase 0x30000 0x10000)
      (probed W25Q32BV 0x1c (replicate (Z.to_nat 0x400000) 0)) =
      Ret ((0, (demo_erase 0x30000 0x10000) ⦃ ei_state := MTD_ERASE_DONE ⦄), s') ∧
    dev [] false (raspi_mtd_info W25Q32BV) W25Q32BV c' s' ∧ fl_mem c' = replicate (Z.to_nat 0x400000) 0.
Proof.
  destruct (spi_protected_erase_lost (λ i, i) (raspi_mtd_info W25Q32BV) W25Q32BV
    (bus_chip (powered W25Q32BV 0x1c 9 (replicate (Z.to_nat 0x400000) 0))) (demo_erase 0x30000 0x10000)
    (probed W25Q32BV 0x1c (replicate (Z.to_nat 0x400000) 0))) as (s' & c' & Hr & Hd & Hm & _);
    [apply probed_dev|done|done|done|done|done|done|done|done|done|].
  rewrite powered_mem in Hm. exists s', c'. split; [exact Hr|]. split; [exact Hd|exact Hm].
Defined.

Lemma part_erase_escapes_witness :
  ∃ i s' mem', part_erase (raspi_mtd_info W25Q32BV) 2 (demo_erase 0 0x20000) (ready_layer W25Q32BV) = Ret ((0, i), s') ∧
    core_state (raspi_mtd_info W25Q32BV) 2 config_part mem' s'.
Proof.
  destruct (part_erase_escapes (raspi_mtd_info W25Q32BV) 2 config_part (erased W25Q32BV) (demo_erase 0 0x20000)
    (ready_layer W25Q32BV)) as (i & s' & mem' & Hr & Hc & _);
    [apply ready_config, W25Q32BV_listed|done|done|done|done|done|done|done|].
  exists i, s', mem'. split; [exact Hr|exact Hc].
Defined.
End Witnesses.
