(* ===== verification/MtdChar.v ===== *)
(** The character devices of the MTD layer, [drivers/mtd/mtdchar.c], through which
    programs reach a partition, and the text of [/proc/mtd] ([mtdcore.c]).

    An open file is a value, [mfile], that the calls take and give back.  User
    memory is taken to be accessible.  The requests for out-of-band data, bad
    blocks, regions and protection registers, which the driver of the SDK does not
    serve, are left out. *)

From S2P Require Import Prelude Flash Io Mtdpart RaMtd.
From stdpp Require Import pretty.
#[global] Open Scope Z_scope.
#[global] Open Scope fw_scope.

Definition EPERM : Z := 1.
Definition EACCES : Z := 13.
Definition ENOSPC : Z := 28.
Definition MTD_ABSENT : Z := 0.
Definition MAX_KMALLOC_SIZE : Z := 0x20000.
Definition SEEK_SET : Z := 0.
Definition SEEK_CUR : Z := 1.
Definition SEEK_END : Z := 2.

(** [struct file] with its [mtd_file_info]: the device, the position, and whether
    the file is open for writing. *)
Record mfile := { f_mtd : nat; f_pos : Z; f_write : bool }.
#[export] Instance mfile_eta : Eta mfile := λ r,
  {| f_mtd := f_mtd r; f_pos := f_pos r; f_write := f_write r |}.

(** [struct mtd_info_user]. *)
Record mtd_info_user := { ui_type : Z; ui_flags : Z; ui_size : Z; ui_erasesize : Z; ui_writesize : Z }.

Inductive mtd_cmd :=
| MEMGETINFO
| MEMERASE (start length : Z)
| MEMLOCK (start length : Z)
| MEMUNLOCK (start length : Z).

Section MtdChar.
Context {D : Type} `{MtdMaster D} `{Malloc}.
Local Abbreviation core := (mtd_core D).

(** * The file operations *)

Definition mtd_lseek (file : mfile) (offset orig : Z) : io core (Z * mfile) :=
  part ← slave (f_mtd file);
  let size := mtd_size (part_mtd part) in
  let go offset :=
    if (0 <=? offset) && (offset <=? size) then mret (offset, file ⦃ f_pos := offset ⦄)
    else mret (- EINVAL, file) in
  if orig =? SEEK_SET then go offset
  else if orig =? SEEK_CUR then go (offset + f_pos file)
  else if orig =? SEEK_END then go (offset + size)
  else mret (- EINVAL, file).

(** An odd minor number is the read-only twin of the one before. *)
Definition mtd_open (minor : Z) (write : bool) : io core (Z + mfile) :=
  let devnum := Z.shiftr minor 1 in
  if Z.of_nat MAX_MTD_DEVICES <=? devnum then mret (inl (- ENODEV))
  else if write && negb (Z.land minor 1 =? 0) then mret (inl (- EACCES))
  else
    d ← get_mtd_device None devnum;
    match d with
    | inl e => mret (inl e)
    | inr mtd =>
        part ← slave mtd;
        if mtd_type (part_mtd part) =? MTD_ABSENT then put_mtd_device mtd;; mret (inl (- ENODEV))
        else if write && negb (writeable (part_mtd part)) then put_mtd_device mtd;; mret (inl (- EACCES))
        else if negb (malloc_ok 8) then put_mtd_device mtd;; mret (inl (- ENOMEM))
        else mret (inr {| f_mtd := mtd; f_pos := 0; f_write := write |})
    end.

Definition mtd_close (file : mfile) : io core () := put_mtd_device (f_mtd file).

(** The return value and the bytes copied to the user's buffer. *)
Definition mtd_read (file : mfile) (count : Z) : io core (Z * bytes * mfile) :=
  part ← slave (f_mtd file);
  let size := mtd_size (part_mtd part) in
  let count := if size <? f_pos file + count then u32 (size - f_pos file) else count in
  if count =? 0 then mret (0, [], file)
  else if negb (malloc_ok (Z.min count MAX_KMALLOC_SIZE)) then mret (- ENOMEM, [], file)
  else
    r ← rounds (Z.to_pos (count + 1)) (λ '(count, total, retlen, kbuf, out, pos),
          if count =? 0 then mret (inr (total, out, pos))
          else
            let len := Z.min count MAX_KMALLOC_SIZE in
            '(ret, retlen, kbuf) ← part_read (f_mtd file) pos len retlen kbuf;
            if (ret =? 0) || (ret =? - EUCLEAN) || (ret =? - EBADMSG) then
              let n := default 0 retlen in
              match load kbuf 0 (Z.to_nat n) with
              | Ret data =>
                  mret (inl (if n =? 0 then 0 else u32 (count - n), u32 (total + n), retlen, kbuf,
                             out ++ data, pos + n))
              | _ => oob
              end
            else mret (inr (ret, out, pos)))
        (count, 0, Some 0, uninit (Z.to_nat (Z.min count MAX_KMALLOC_SIZE)), [], f_pos file);
    match r with
    | inr (ret, out, pos) => mret (ret, out, file ⦃ f_pos := pos ⦄)
    | inl _ => stuck
    end.

(** [retlen] is not initialised. *)
Definition mtd_write (file : mfile) (buf : bytes) : io core (Z * mfile) :=
  let count := Z.of_nat (length buf) in
  part ← slave (f_mtd file);
  let size := mtd_size (part_mtd part) in
  if f_pos file =? size then mret (- ENOSPC, file)
  else
    let count := if size <? f_pos file + count then u32 (size - f_pos file) else count in
    if count =? 0 then mret (0, file)
    else if negb (malloc_ok (Z.min count MAX_KMALLOC_SIZE)) then mret (- ENOMEM, file)
    else
      r ← rounds (Z.to_pos (count + 1)) (λ '(count, total, retlen, kbuf, buf, pos),
            if count =? 0 then mret (inr (total, pos))
            else
              let len := Z.min count MAX_KMALLOC_SIZE in
              match (let* data := load buf 0 (Z.to_nat len) in store kbuf 0 data) with
              | Ret kbuf =>
                  '(ret, retlen) ← part_write (f_mtd file) pos len retlen kbuf;
                  if ret =? 0 then
                    let n := default 0 retlen in
                    mret (inl (u32 (count - n), u32 (total + n), retlen, kbuf, drop (Z.to_nat n) buf, pos + n))
                  else mret (inr (ret, pos))
              | _ => oob
              end)
          (count, 0, Some garbage, uninit (Z.to_nat (Z.min count MAX_KMALLOC_SIZE)), buf, f_pos file);
      match r with
      | inr (ret, pos) => mret (ret, file ⦃ f_pos := pos ⦄)
      | inl _ => stuck
      end.

(** After an erase that has not ended the caller sleeps; nobody wakes it when the
    driver has called the callback before it returned. *)
Definition mtd_ioctl (master : mtd_info_t) (file : mfile) (cmd : mtd_cmd) :
    io core (Z * option mtd_info_user) :=
  let mtd := f_mtd file in
  match cmd with
  | MEMGETINFO =>
      part ← slave mtd;
      let i := part_mtd part in
      mret (0, Some {| ui_type := mtd_type i; ui_flags := mtd_flags i; ui_size := mtd_size i;
                       ui_erasesize := mtd_erasesize i; ui_writesize := mtd_writesize i |})
  | MEMERASE start len =>
      if negb (f_write file) then mret (- EPERM, None)
      else if negb (malloc_ok 48) then mret (- ENOMEM, None)
      else
        '(ret, erase) ← part_erase master mtd
          {| ei_mtd := Some mtd; ei_addr := start; ei_len := len; ei_fail_addr := 0; ei_state := 0;
             ei_callback := true; ei_calls := 0 |};
        if negb (ret =? 0) then mret (ret, None)
        else if negb (ei_state erase =? MTD_ERASE_DONE) && negb (ei_state erase =? MTD_ERASE_FAILED) then stuck
        else mret (if ei_state erase =? MTD_ERASE_FAILED then - EIO else 0, None)
  | MEMLOCK start len => ret ← part_lock mtd start len; mret (ret, None)
  | MEMUNLOCK start len => ret ← part_unlock mtd start len; mret (ret, None)
  end.

(** * [/proc/mtd] *)

Definition hex_digit (d : Z) : Ascii.ascii :=
  Ascii.ascii_of_N (Z.to_N (if d <? 10 then 48 + d else 87 + d)).
(** The [n] lowest hexadecimal digits of [z], before [s]. *)
Fixpoint hex (n : nat) (z : Z) (s : string) : string :=
  match n with O => s | S n => hex n (z / 16) (String (hex_digit (z mod 16)) s) end.

Definition quoted (s : string) : string :=
  String (Ascii.ascii_of_N 34) (s +:+ String (Ascii.ascii_of_N 34) EmptyString).
Definition newline : string := String (Ascii.ascii_of_N 10) EmptyString.

(** [mtd%d: %8.8x %8.8x] and the name. *)
Definition proc_line (i : nat) (this : mtd_info_t) : string :=
  "mtd" +:+ pretty i +:+ ": " +:+ hex 8 (mtd_size this) "" +:+ " " +:+ hex 8 (mtd_erasesize this) "" +:+
  " " +:+ quoted (mtd_name this) +:+ newline.

Definition mtd_proc_info (h : gmap nat mtd_part) (t : list (option nat)) (i : nat) : string :=
  match t !! i with
  | Some (Some p) => match h !! p with Some part => proc_line i (part_mtd part) | None => "" end
  | _ => ""
  end.

(** The lines of the file, which fits into a page. *)
Definition mtd_read_proc (h : gmap nat mtd_part) (t : list (option nat)) : list string :=
  ("dev:    size   erasesize  name" +:+ newline)%string ::
  filter (λ l, l ≠ ""%string) (mtd_proc_info h t <$> seq 0 MAX_MTD_DEVICES).

End MtdChar.
