(* ===== verification/MtdTool.v ===== *)
(** The flash writer [mtd] ([user/mtd_write/mtd.c]), the program that erases
    partitions and installs firmware, over the character devices of [MtdChar]
    (NOR flash; messages, the output of [-v] and [sync] are left out).

    The files of the host, the image among them, are the class [Files]; the device
    nodes are [DevNodes]. *)

From S2P Require Import Prelude Flash Io Mtdpart MtdChar.
From stdpp Require Import pretty.
#[global] Open Scope Z_scope.
#[global] Open Scope fw_scope.

(** * Programs

    [inl n]: the program has called [exit(n)]; the files that are open then are
    closed by the kernel, not here. *)
Definition prog (S A : Type) : Type := io S (Z + A).
#[export] Instance prog_ret S : MRet (prog S) := λ A a s, Ret (inr a, s).
#[export] Instance prog_bind S : MBind (prog S) := λ A B k c s,
  match c s with
  | Ret (inl n, s) => Ret (inl n, s)
  | Ret (inr a, s) => k a s
  | Oob => Oob
  | NoFuel => NoFuel
  end.
Definition sys {S A} (c : io S A) : prog S A := λ s,
  match c s with Ret (a, s) => Ret (inr a, s) | Oob => Oob | NoFuel => NoFuel end.
Definition exit {S A} (n : Z) : prog S A := λ s, Ret (inl n, s).

(** A loop that may exit. *)
Definition prog_rounds {S A B} (p : positive) (body : A → prog S (A + B)) (a : A) : prog S B := λ s,
  match rounds p (λ a s, match body a s with
                         | Ret (inl n, s) => Ret (inr (inl n), s)
                         | Ret (inr (inl a), s) => Ret (inl a, s)
                         | Ret (inr (inr b), s) => Ret (inr (inr b), s)
                         | Oob => Oob
                         | NoFuel => NoFuel
                         end) a s with
  | Ret (inr r, s) => Ret (r, s)
  | Ret (inl _, _) => NoFuel
  | Oob => Oob
  | NoFuel => NoFuel
  end.

(** * The host *)

(** [img_read n f] gives what [read] stored, at most [n] bytes; [None] is -1. *)
Class Files (F : Type) := {
  file_open : string → option F;
  file_size : string → Z;
  stdin : F;
  img_read : Z → F → option bytes * F;
  img_lseek : Z → F → F
}.

(** The minor number of a path that is an MTD device. *)
Class DevNodes := dev_node : string → option Z.

Definition BUFSIZE : Z := 1024.
Definition MAX_ARGS : nat := 3.
(** The loops of the program have no bound of their own: a C [int] of rounds. *)
Definition ROUNDS : positive := Z.to_pos (2 ^ 32).

(** * Finding the device *)

(** [sscanf(dev, "mtd%d:", &i)]; what follows the number does not matter. *)
Fixpoint scan_digits (s : string) (acc : option Z) : option Z :=
  match s with
  | String c s =>
      let d := Z.of_N (Ascii.N_of_ascii c) - 48 in
      if (0 <=? d) && (d <=? 9) then scan_digits s (Some (10 * default 0 acc + d)) else acc
  | EmptyString => acc
  end.
Fixpoint scan_int (s : string) : option Z :=
  match s with
  | String c r =>
      let n := Ascii.N_of_ascii c in
      if (n =? 32)%N || (n =? 9)%N || (n =? 10)%N then scan_int r
      else if (n =? 45)%N then Z.opp <$> scan_digits r None
      else if (n =? 43)%N then scan_digits r None
      else scan_digits s None
  | EmptyString => None
  end.
Definition sscanf_mtd (line : string) : option Z :=
  match line with
  | String c1 (String c2 (String c3 rest)) =>
      if bool_decide (String c1 (String c2 (String c3 "")) = "mtd"%string) then scan_int rest else None
  | _ => None
  end.
Definition strstr (hay needle : string) : bool :=
  match String.index 0 needle hay with Some _ => true | None => false end.

Fixpoint scan_proc (mtd : string) (lines : list string) : option Z :=
  match lines with
  | [] => None
  | dev :: lines =>
      match sscanf_mtd dev with
      | Some i => if strstr dev mtd then Some i else scan_proc mtd lines
      | None => scan_proc mtd lines
      end
  end.

Section MtdTool.
Context {D F : Type} `{MtdMaster D} `{Malloc} `{DevNodes} `{Files F}.
Variable master : mtd_info_t.
Local Abbreviation core := (mtd_core D).

Definition open_path (path : string) : io core (option mfile) :=
  match dev_node path with
  | None => mret None
  | Some minor =>
      r ← MtdChar.mtd_open minor true;
      mret (match r with inl _ => None | inr fd => Some fd end)
  end.

(** All callers open for reading and writing. *)
Definition mtd_open (mtd : string) : io core (option mfile) :=
  h ← gets slaves;
  t ← gets mtd_table;
  match scan_proc mtd (mtd_read_proc h t) with
  | Some i =>
      r ← open_path ("/dev/mtd/" +:+ pretty i);
      match r with
      | Some fd => mret (Some fd)
      | None => open_path ("/dev/mtd" +:+ pretty i)
      end
  | None => open_path mtd
  end.

Definition mtd_check (mtd : string) : io core Z :=
  fd ← mtd_open mtd;
  match fd with
  | None => mret 0
  | Some fd =>
      '(e, _) ← mtd_ioctl master fd MEMGETINFO;
      mtd_close fd;;
      mret (if negb (e =? 0) then 0 else 1)
  end.

(** Open the device and get its information, or exit. *)
Definition open_info (mtd : string) : prog core (mfile * mtd_info_user) :=
  fd ← sys (mtd_open mtd);
  match fd with
  | None => exit 1
  | Some fd =>
      '(e, info) ← sys (mtd_ioctl master fd MEMGETINFO);
      match info with
      | Some info => if negb (e =? 0) then sys (mtd_close fd);; exit 1 else mret (fd, info)
      | None => sys (mtd_close fd);; exit 1
      end
  end.

Definition mtd_unlock (mtd : string) : prog core Z :=
  '(fd, info) ← open_info mtd;
  sys (mtd_ioctl master fd (MEMUNLOCK 0 (ui_size info)));;
  sys (mtd_close fd);;
  mret 0.

(** * Erasing *)

(** One block: erase it and look at what it holds now; [test_char] is 256 before
    the first. *)
Definition erase_block (es start : Z) (fd : mfile) (test_char : Z) : prog core (mfile * Z) :=
  sys (mtd_ioctl master fd (MEMUNLOCK start es));;
  '(e, _) ← sys (mtd_ioctl master fd (MEMERASE start es));
  if negb (e =? 0) then sys (mtd_close fd);; exit 1
  else
    '(n, test_buf, fd) ← sys (MtdChar.mtd_read fd es);
    if negb (n =? es) then sys (mtd_close fd);; exit 1
    else
      let test_char := if test_char =? 256 then default 0 (test_buf !! 0%nat) else test_char in
      if bool_decide (Forall (λ b, b = test_char) (take (Z.to_nat es) test_buf)) then mret (fd, test_char)
      else sys (mtd_close fd);; exit 1.

Definition mtd_erase (mtd : string) : prog core Z :=
  '(fd, info) ← open_info mtd;
  let es := ui_erasesize info in
  if negb (malloc_ok es) then exit 1
  else
    fd ← prog_rounds ROUNDS (λ '(start, fd, test_char),
           if negb (start <? ui_size info) then mret (inr fd)
           else
             '(fd, test_char) ← erase_block es start fd test_char;
             mret (inl (u32 (start + es), fd, test_char)))
         (0, fd, 256);
    sys (mtd_close fd);;
    mret 0.

(** * Writing *)

(** Erase up to [w] from [e] on. *)
Definition erase_ahead (es w e : Z) (fd : mfile) : prog core Z :=
  prog_rounds ROUNDS (λ e,
    if negb (e <? w) then mret (inr e)
    else
      '(r, _) ← sys (mtd_ioctl master fd (MEMERASE e es));
      if r <? 0 then exit 1 else mret (inl (u32 (e + es)))) e.

(** Write a chunk and read it back.  [result] is an [int] that is compared with a
    [size_t]: -1 counts as more than was asked for. *)
Definition write_chunk (write_check : Z) (fd : mfile) (chunk : bytes) : prog core mfile :=
  let r := Z.of_nat (length chunk) in
  '(result, fd) ← sys (MtdChar.mtd_write fd chunk);
  if u32 (if result <? 0 then -1 else result) <? r then exit 1
  else if write_check =? 0 then mret fd
  else
    '(p, fd) ← sys (mtd_lseek fd (- r) SEEK_CUR);
    if p <? 0 then exit 1
    else if negb (malloc_ok r) then exit 1
    else
      '(n, test_buf, fd) ← sys (MtdChar.mtd_read fd r);
      if negb (n =? r) then exit 1
      else if bool_decide (take (length chunk) test_buf = chunk) then mret fd
      else exit 1.

(** A round of the loop: read from the image, erase ahead of it, write. *)
Definition write_round (write_check es : Z) (st : Z * Z * Z * bytes * mfile * F) :
    prog core (Z * Z * Z * bytes * mfile * F + mfile) :=
  let '(len, w, e, buf, fd, f) := st in
  if len =? 0 then mret (inr fd)
  else
    let '(data, f) := img_read (if len <? BUFSIZE then u32 len else BUFSIZE) f in
    let r := match data with Some data => Z.of_nat (length data) | None => u32 (-1) end in
    match store buf 0 (default [] data) with
    | Ret buf =>
        let w := u32 (w + r) in
        if r <=? 0 then mret (inr fd)
        else
          let len := s32 (u32 (len - r)) in
          e ← erase_ahead es w e fd;
          match load buf 0 (Z.to_nat r) with
          | Ret chunk =>
              fd ← write_chunk write_check fd chunk;
              mret (inl (len, w, e, buf, fd, f))
          | _ => sys oob
          end
    | _ => sys oob
    end.

Definition mtd_write (write_check : Z) (f : F) (offset len : Z) (mtd : string) : prog core Z :=
  '(fd, info) ← open_info mtd;
  let f := img_lseek offset f in
  if negb (malloc_ok BUFSIZE) then exit 1
  else
    fd ← prog_rounds ROUNDS (write_round write_check (ui_erasesize info))
           (len, 0, 0, uninit (Z.to_nat BUFSIZE), fd, f);
    sys (mtd_close fd);;
    mret 0.

(** * [main] *)

(** What [getopt] gives, and what the loop over it collects; [o_erase] is the part
    of the array [erase] before the null pointer. *)
Inductive opt := OptR | OptQ | OptV | OptW | OptE (optarg : string) | OptO (n : Z) | OptL (n : Z) | OptUnknown.
Record options := { o_boot : bool; o_check : Z; o_erase : list string; o_offset : Z; o_len : Z }.
#[local] Instance options_eta : Eta options := λ r,
  {| o_boot := o_boot r; o_check := o_check r; o_erase := o_erase r; o_offset := o_offset r; o_len := o_len r |}.
Definition no_options : options := {| o_boot := false; o_check := 1; o_erase := []; o_offset := 0; o_len := 0 |}.

(** The null pointer goes behind the new name; the array has [MAX_ARGS] places. *)
Definition add_erase (erase : list string) (optarg : string) : outcome (list string) :=
  let i := (length erase `min` (MAX_ARGS - 1))%nat in
  if (S i <? MAX_ARGS)%nat then Ret (take i erase ++ [optarg]) else Oob.

Fixpoint parse_opts (l : list opt) (o : options) : prog core options :=
  match l with
  | [] => mret o
  | OptR :: l => parse_opts l (o ⦃ o_boot := true ⦄)
  | OptQ :: l | OptV :: l => parse_opts l o
  | OptW :: l => parse_opts l (o ⦃ o_check := o_check o + 1 ⦄)
  | OptE optarg :: l =>
      match add_erase (o_erase o) optarg with
      | Ret erase => parse_opts l (o ⦃ o_erase := erase ⦄)
      | _ => sys oob
      end
  | OptO n :: l => parse_opts l (o ⦃ o_offset := n ⦄)
  | OptL n :: l => parse_opts l (o ⦃ o_len := n ⦄)
  | OptUnknown :: _ => exit 1
  end.

Inductive tool_cmd := CMD_ERASE | CMD_WRITE (imagefd : F) | CMD_UNLOCK.

(** The command and the device. *)
Definition parse_cmd (argv : list string) : prog core (tool_cmd * string) :=
  match argv with
  | [cmd; device] =>
      if bool_decide (cmd = "unlock"%string) then mret (CMD_UNLOCK, device)
      else if bool_decide (cmd = "erase"%string) then mret (CMD_ERASE, device)
      else exit 1
  | [cmd; imagefile; device] =>
      if bool_decide (cmd = "write"%string) then
        imagefd ← (if bool_decide (imagefile = "-"%string) then mret stdin
                   else match file_open imagefile with Some f => mret f | None => exit 1 end);
        ok ← sys (mtd_check device);
        if ok =? 0 then exit 1 else mret (CMD_WRITE imagefd, device)
      else exit 1
  | _ => exit 1
  end.

Fixpoint erase_all (erase : list string) (device : string) (unlocked : bool) : prog core bool :=
  match erase with
  | [] => mret unlocked
  | name :: erase =>
      mtd_unlock name;;
      mtd_erase name;;
      erase_all erase device (bool_decide (name = device) || unlocked)
  end.

(** The exit status, and whether the machine is rebooted. *)
Definition main (opts : list opt) (argv : list string) : prog core (Z * bool) :=
  o ← parse_opts opts no_options;
  if (length argv <? 2)%nat then exit 1
  else
    let len := if o_len o =? 0 then file_size (default ""%string (argv !! 1%nat)) else o_len o in
    '(cmd, device) ← parse_cmd argv;
    unlocked ← erase_all (o_erase o) device false;
    (if (unlocked : bool) then mret 0 else mtd_unlock device);;
    (match cmd return prog core Z with
     | CMD_UNLOCK => mret 0
     | CMD_ERASE => mtd_erase device
     | CMD_WRITE imagefd => mtd_write (o_check o) imagefd (o_offset o) len device
     end);;
    mret (0, o_boot o).

End MtdTool.
