(* ===== verification/MtdToolFacts.v ===== *)
(** The character device of a partition on any NOR flash driver - what the calls of
    [MtdChar] do to the bytes of the partition, which is all they touch - and what
    the flash writer [MtdTool] makes of it. *)

From S2P Require Import Prelude Flash FlashProps Io Mtdpart RaMtd Raspi SpiChip RaspiWrite.
From S2P Require Import MtdpartSpec RaMtdProps MtdChar MtdTool.
From stdpp Require Import pretty.
#[global] Open Scope Z_scope.
#[global] Open Scope fw_scope.

Lemma take_spliced (b d : bytes) : take (length d) (splice b 0 d) = d.
Proof. unfold splice. by rewrite take_0, app_nil_l, take_app_length. Qed.

Section MtdCharFacts.
Context {D : Type} `{NorMaster D} `{Malloc}.
Implicit Types (s : mtd_core D) (file : mfile).

(** * A partition and its bytes

    The partition object [ptr] of the heap [h] is [part], the table is [t]; the
    partition holds [w], and the rest of the flash is as in [base]. *)
Record holds (m : mtd_info_t) (h : gmap nat mtd_part) (t : list (option nat)) (ptr : nat) (part : mtd_part)
    (base w : bytes) s : Prop := {
  hd_slaves : slaves s = <[ptr := part]> h;
  hd_table : mtd_table s = t;
  hd_part : part_ok m part;
  hd_flash : nm_state m (splice base (Z.to_nat (part_offset part)) w) (drv s);
  hd_window : length w = Z.to_nat (mtd_size (part_mtd part));
  hd_base : mtd_size m = Z.of_nat (length base)
}.

Lemma holds_intro m ptr part mem s :
  core_state m ptr part mem s → holds m (slaves s) (mtd_table s) ptr part mem (window part mem) s.
Proof.
  intros (Hp & Hok & Hd). destruct (nm_wf _ _ _ Hd) as (_ & Hm & _).
  split; [by rewrite insert_id|done|done| |by apply (window_length m)|done]. by rewrite (put_window m).
Qed.

Section Partition.
Context (m : mtd_info_t) (h : gmap nat mtd_part) (t : list (option nat)) (ptr : nat) (part : mtd_part) (base : bytes).
Local Abbreviation size := (mtd_size (part_mtd part)).
Local Abbreviation holds := (holds m h t ptr part base).

Lemma holds_sizes w s :
  holds w s → 0 ≤ size < 2 ^ 32 ∧ Z.of_nat (length w) = size ∧ 0 < mtd_erasesize m ∧
  (Z.to_nat (part_offset part) + length w ≤ length base)%nat.
Proof.
  intros [_ _ [Ho Hs He _ _] Hd Hw Hb]. destruct (nm_wf _ _ _ Hd) as (_ & _ & Hm & Hes). lia.
Qed.

Lemma holds_core w s :
  holds w s → core_state m ptr part (splice base (Z.to_nat (part_offset part)) w) s.
Proof. intros [Hs _ Hok Hd _ _]. split_and!; [by rewrite Hs, lookup_insert_eq|done|done]. Qed.

Lemma holds_view w s :
  holds w s → window part (splice base (Z.to_nat (part_offset part)) w) = w.
Proof. intros [_ _ Hok _ Hw Hb]. by apply (window_put m). Qed.

Lemma holds_bytes w s : holds w s → bytes_ok w.
Proof.
  intros Hs. rewrite <-(holds_view _ _ Hs). destruct (nm_wf _ _ _ (hd_flash _ _ _ _ _ _ _ _ Hs)) as (Hb & _).
  unfold window. by apply bytes_ok_take, bytes_ok_drop.
Qed.

(** A request leaves a partition that holds what the specification says. *)
Lemma holds_request w s r a s' :
  holds w s → answered m ptr part (splice base (Z.to_nat (part_offset part)) w) r s a s' →
  let '(a', w') := spec_request (part_mtd part) w r in a = a' ∧ holds w' s'.
Proof.
  intros Hs Ha. pose proof (holds_sizes _ _ Hs) as (_ & _ & _ & Hl). unfold answered in Ha.
  rewrite (holds_view _ _ Hs) in Ha. destruct (spec_request _ w r) as [a' w'].
  destruct Ha as (-> & Hw' & Hs' & Hc). split; [done|]. destruct Hs as [Hsl Ht Hok Hd Hw Hb].
  rewrite splice_overwrite in Hc by lia. destruct Hc as (_ & _ & Hd').
  split; [by rewrite Hs'|by rewrite Hs'|done|done|lia|done].
Qed.

Lemma wp_holds_request r w s Q :
  holds w s → request_ok ptr size r →
  (∀ s', holds (spec_request (part_mtd part) w r).2 s' → Q (spec_request (part_mtd part) w r).1 s') →
  wp (part_request m ptr r) Q s.
Proof.
  intros Hs Hr HQ. eapply wp_mono; [apply part_request_ok; [by apply holds_core|done]|].
  intros a s' Ha. apply (holds_request w) in Ha; [|done].
  destruct (spec_request _ w r) as [a' w']. destruct Ha as [-> Hs']. by apply HQ.
Qed.

Lemma clip_inside from len : 0 < len → from + len ≤ size → clip size from len = len.
Proof.
  intros Hl He. unfold clip. by rewrite (proj2 (Z.leb_gt _ _)), (proj2 (Z.ltb_ge _ _)) by lia.
Qed.

Lemma wp_holds_read w s from len retlen buf Q :
  holds w s → 0 ≤ from → 0 < len → from + len ≤ size → len ≤ Z.of_nat (length buf) →
  (∀ s', holds w s' →
     Q (0, put_len retlen len, take (Z.to_nat len) (drop (Z.to_nat from) w) ++ drop (Z.to_nat len) buf) s') →
  wp (part_read ptr from len retlen buf) Q s.
Proof.
  intros Hs Hf Hl Hend Hb HQ. pose proof (holds_sizes _ _ Hs) as (Hsz & _).
  pose proof (wp_holds_request (ReqRead from len retlen buf) w s (λ a s', ∃ r rl b, a = AnsRead r rl b ∧ Q (r, rl, b) s') Hs) as Hw.
  cbn [part_request] in Hw. ospecialize* Hw; [cbn; lia| |apply wp_bind_inv in Hw; eapply wp_mono; [exact Hw|]].
  - cbn [spec_request]. rewrite clip_inside by done. rewrite (proj2 (Z.eqb_neq len 0)) by lia. cbn [fst snd]. eauto 10.
  - intros [[r rl] b] s' (a & s2 & E & r' & rl' & b' & -> & HQ'). by injection E as <- <- <- <-.
Qed.

Lemma wp_holds_write w s to len retlen buf Q :
  holds w s → writeable (part_mtd part) = true → 0 ≤ to → 0 < len → to + len ≤ size →
  len ≤ Z.of_nat (length buf) → bytes_ok buf →
  (∀ s', holds (nor_program w (Z.to_nat to) (take (Z.to_nat len) buf)) s' → Q (0, put_len retlen len) s') →
  wp (part_write ptr to len retlen buf) Q s.
Proof.
  intros Hs Hw Ht Hl Hend Hb Hby HQ. pose proof (holds_sizes _ _ Hs) as (Hsz & _).
  pose proof (wp_holds_request (ReqWrite to len retlen buf) w s (λ a s', ∃ r rl, a = AnsWrite r rl ∧ Q (r, rl) s') Hs) as Hr.
  cbn [part_request] in Hr. ospecialize* Hr;
    [cbn; split_and!; (done || lia)| |apply wp_bind_inv in Hr; eapply wp_mono; [exact Hr|]].
  - cbn [spec_request]. rewrite Hw. cbn [negb]. rewrite clip_inside by done.
    rewrite (proj2 (Z.eqb_neq len 0)) by lia. cbn [fst snd]. eauto 10.
  - intros [r rl] s' (a & s2 & E & r' & rl' & -> & HQ'). by injection E as <- <- <-.
Qed.

(** An erase that begins behind the end is refused; one inside is done. *)
Lemma wp_holds_erase w s instr Q :
  holds w s → writeable (part_mtd part) = true → ei_mtd instr = Some ptr → 0 ≤ ei_addr instr → 0 ≤ ei_len instr →
  ei_addr instr < size → ei_addr instr + ei_len instr ≤ size → aligned m (ei_addr instr) → aligned m (ei_len instr) →
  (∀ s' i, holds (nor_erase_range w (Z.to_nat (ei_addr instr)) (Z.to_nat (ei_len instr))) s' →
     ei_state i = MTD_ERASE_DONE → Q (0, i) s') →
  wp (part_erase m ptr instr) Q s.
Proof.
  intros Hs Hw Hp Ha Hl Hlt Hend Ha' Hl' HQ. pose proof (holds_sizes _ _ Hs) as (Hsz & _).
  assert (aligned (part_mtd part) (ei_addr instr) ∧ aligned (part_mtd part) (ei_len instr)) as Hal.
  { unfold aligned in *. by rewrite (po_es _ _ (hd_part _ _ _ _ _ _ _ _ Hs)). }
  pose proof (wp_holds_request (ReqErase instr) w s
    (λ a s', ∃ r i, a = ans_erase r i ∧ ∀ i', ei_state i' = ei_state i → Q (r, i') s') Hs) as Hr.
  cbn [part_request] in Hr. ospecialize* Hr;
    [cbn; split_and!; (done || lia)| |apply wp_bind_inv in Hr; eapply wp_mono; [exact Hr|]].
  - cbn [spec_request]. rewrite Hw. cbn [negb]. rewrite (proj2 (Z.leb_gt _ _)) by lia.
    rewrite decide_True by done. cbn [fst snd]. intros s' Hs'.
    exists 0, (mtd_erase_callback ∅ (instr ⦃ ei_state := MTD_ERASE_DONE ⦄)). split; [done|].
    intros i' Hi'. apply HQ; [exact Hs'|]. etransitivity; [exact Hi'|]. unfold mtd_erase_callback. cbn.
    destruct (ei_mtd instr); cbn; rewrite ?lookup_empty; by destruct (ei_callback instr).
  - intros [r i] s' (a & s2 & E & r' & i' & -> & HQ').
    change (Ret (ans_erase r i, s') = Ret (ans_erase r' i', s2)) in E.
    assert (ans_erase r i = ans_erase r' i' ∧ s' = s2) as [Ea <-] by (split; congruence).
    pose proof (f_equal (λ a, match a with AnsErase r _ => r | _ => 0 end) Ea) as Er. cbn in Er. subst r'.
    apply HQ'. exact (f_equal (λ a, match a with AnsErase _ i => ei_state i | _ => 0 end) Ea).
Qed.

(** * The file operations *)

Lemma wp_holds_slave w s Q : holds w s → Q part s → wp (slave ptr) Q s.
Proof. intros Hs HQ. eapply wp_slave; [|done]. by rewrite (hd_slaves _ _ _ _ _ _ _ _ Hs), lookup_insert_eq. Qed.

(** An open file of the partition at [pos]. *)
Definition at_pos (pos : Z) file : Prop := f_mtd file = ptr ∧ f_pos file = pos ∧ f_write file = true.

Lemma wp_lseek_cur w s file pos off Q :
  holds w s → at_pos pos file → 0 ≤ off + pos ≤ size →
  (∀ file', at_pos (off + pos) file' → Q (off + pos, file') s) →
  wp (mtd_lseek file off SEEK_CUR) Q s.
Proof.
  intros Hs (Hf & Hp & Hw) Hr HQ. unfold mtd_lseek. rewrite Hf. apply wp_bind. eapply wp_holds_slave; [done|].
  change (SEEK_CUR =? SEEK_SET) with false. change (SEEK_CUR =? SEEK_CUR) with true. cbn iota.
  rewrite Hp. rewrite (proj2 (Z.leb_le 0 _)), (proj2 (Z.leb_le _ size)) by lia. cbn [andb].
  apply wp_ret, HQ. by split_and!.
Qed.

(** What the loop of [mtd_read] has done when [count] bytes are left. *)
Definition reading (w : bytes) (pos n kn count : Z)
    (st : Z * Z * option Z * bytes * bytes * Z) s : Prop :=
  let '(c, total, retlen, kbuf, out, p) := st in
  c = count ∧ 0 ≤ count ≤ n ∧ total = n - count ∧ is_Some retlen ∧ Z.of_nat (length kbuf) = kn ∧
  out = take (Z.to_nat total) (drop (Z.to_nat pos) w) ∧ p = pos + total ∧ holds w s.

Lemma wp_chr_read w s file pos count Q :
  malloc_never_fails → holds w s → at_pos pos file → 0 ≤ pos → 0 < count → pos + count ≤ size →
  (∀ s' file', holds w s' → at_pos (pos + count) file' →
     Q (count, take (Z.to_nat count) (drop (Z.to_nat pos) w), file') s') →
  wp (MtdChar.mtd_read file count) Q s.
Proof.
  intros HM Hs (Hf & Hp & Hw) Hpos Hc Hend HQ. pose proof (holds_sizes _ _ Hs) as (Hsz & Hlw & _).
  unfold MtdChar.mtd_read. rewrite Hf, Hp. apply wp_bind. eapply wp_holds_slave; [done|].
  rewrite (proj2 (Z.ltb_ge size _)), (proj2 (Z.eqb_neq count 0)), HM by lia. cbn [negb].
  set (kn := Z.min count MAX_KMALLOC_SIZE). assert (0 < kn ≤ MAX_KMALLOC_SIZE) as Hkn
    by (unfold kn, MAX_KMALLOC_SIZE; lia).
  apply wp_bind. eapply (wp_rounds _ (reading w pos count kn)
    (λ r s', r = (count, take (Z.to_nat count) (drop (Z.to_nat pos) w), pos + count) ∧ holds w s') _ count).
  - split_and!; [done|lia|lia|lia|by eexists|unfold uninit; rewrite length_replicate; lia|done|lia|done].
  - lia.
  - intros n [[[[[c total] rl] kbuf] out] p] s' (-> & ? & _). lia.
  - intros n [[[[[c total] rl] kbuf] out] p] s1 (-> & Hn & -> & [r0 ->] & Hk & -> & -> & Hs1). cbn beta iota.
    destruct (Z.eqb_spec n 0) as [->|Hn0].
    { apply wp_ret. split; [|done]. by rewrite !Z.sub_0_r. }
    set (len := Z.min n MAX_KMALLOC_SIZE).
    assert (0 < len ≤ n ∧ len ≤ kn) as [Hln Hlk] by (unfold len, kn, MAX_KMALLOC_SIZE in *; lia).
    apply wp_bind. eapply wp_holds_read; [exact Hs1|lia|lia|lia|lia|]. intros s2 Hs2.
    change ((0 =? 0) || _ || _) with true. cbn [put_len fmap option_fmap option_map default from_option id] .
    set (data := take (Z.to_nat len) (drop (Z.to_nat (pos + (count - n))) w)).
    assert (length data = Z.to_nat len) as Hdl by (unfold data; rewrite length_take, length_drop; lia).
    assert (load (data ++ drop (Z.to_nat len) kbuf) 0 (Z.to_nat len) = Ret data) as ->.
    { apply load_Ret. rewrite length_app, length_drop, drop_0. split; [lia|]. by rewrite <-Hdl, take_app_length. }
    rewrite (proj2 (Z.eqb_neq len 0)) by lia. apply wp_ret. exists (n - len). split; [lia|].
    rewrite !u32_id by lia. split_and!; [done|lia|lia|lia|by eexists|rewrite length_app, length_drop; lia| |lia|done].
    unfold data. replace (Z.to_nat (pos + (count - n))) with (Z.to_nat pos + Z.to_nat (count - n))%nat by lia.
    rewrite <-drop_drop. rewrite take_take_drop. f_equal. lia.
  - intros [[r out] p] s' [E Hs']. injection E as -> -> ->. apply wp_ret, HQ; [done|]. by split_and!.
Qed.

(** What the loop of [mtd_write] has done when [count] bytes are left. *)
Definition writing_to (w data : bytes) (pos kn count : Z)
    (st : Z * Z * option Z * bytes * bytes * Z) s : Prop :=
  let '(c, total, retlen, kbuf, buf, p) := st in
  let n := Z.of_nat (length data) in
  c = count ∧ 0 ≤ count ≤ n ∧ total = n - count ∧ is_Some retlen ∧ Z.of_nat (length kbuf) = kn ∧ bytes_ok kbuf ∧
  buf = drop (Z.to_nat total) data ∧ p = pos + total ∧
  holds (nor_program w (Z.to_nat pos) (take (Z.to_nat total) data)) s.

Lemma wp_chr_write w s file pos data Q :
  malloc_never_fails → writeable (part_mtd part) = true → holds w s → at_pos pos file → 0 ≤ pos →
  (0 < length data)%nat → pos + Z.of_nat (length data) ≤ size → bytes_ok data →
  (∀ s' file', holds (nor_program w (Z.to_nat pos) data) s' → at_pos (pos + Z.of_nat (length data)) file' →
     Q (Z.of_nat (length data), file') s') →
  wp (MtdChar.mtd_write file data) Q s.
Proof.
  intros HM Hwr Hs (Hf & Hp & Hw) Hpos Hc Hend Hb HQ. pose proof (holds_sizes _ _ Hs) as (Hsz & Hlw & _).
  unfold MtdChar.mtd_write. rewrite Hf, Hp. apply wp_bind. eapply wp_holds_slave; [done|].
  set (count := Z.of_nat (length data)) in *.
  rewrite (proj2 (Z.eqb_neq pos _)), (proj2 (Z.ltb_ge size _)), (proj2 (Z.eqb_neq count 0)), HM by lia. cbn [negb].
  set (kn := Z.min count MAX_KMALLOC_SIZE). assert (0 < kn ≤ MAX_KMALLOC_SIZE) as Hkn
    by (unfold kn, MAX_KMALLOC_SIZE; lia).
  apply wp_bind. eapply (wp_rounds _ (writing_to w data pos kn)
    (λ r s', r = (count, pos + count) ∧ holds (nor_program w (Z.to_nat pos) data) s') _ count).
  - fold count. split_and!; [done|lia|lia|lia|by eexists|unfold uninit; rewrite length_replicate; lia
      |by apply bytes_ok_replicate|done|lia|]. change (Z.to_nat 0) with 0%nat. by rewrite take_0, nor_program_nil.
  - lia.
  - intros n [[[[[c total] rl] kbuf] out] p] s' (-> & ? & _). lia.
  - intros n [[[[[c total] rl] kbuf] buf] p] s1 (-> & Hn & -> & [r0 ->] & Hk & Hkb & -> & -> & Hs1).
    fold count in Hn, Hs1 |- *. cbn beta iota. destruct (Z.eqb_spec n 0) as [->|Hn0].
    { apply wp_ret. rewrite Z.sub_0_r in *. split; [done|]. by rewrite take_ge in Hs1 by lia. }
    set (len := Z.min n MAX_KMALLOC_SIZE).
    assert (0 < len ≤ n ∧ len ≤ kn) as [Hln Hlk] by (unfold len, kn, MAX_KMALLOC_SIZE in *; lia).
    set (d := take (Z.to_nat len) (drop (Z.to_nat (count - n)) data)).
    assert (length d = Z.to_nat len) as Hdl by (unfold d; rewrite length_take, length_drop; lia).
    assert (bytes_ok d) as Hdb by (by apply bytes_ok_take, bytes_ok_drop).
    assert (load (drop (Z.to_nat (count - n)) data) 0 (Z.to_nat len) = Ret d) as ->.
    { apply load_Ret. rewrite length_drop, drop_0. split; [lia|done]. }
    cbn [mbind outcome_bind]. unfold store. rewrite decide_True by lia.
    apply wp_bind. eapply wp_holds_write; [exact Hs1|done|lia|lia|lia| |by apply splice_bytes_ok|].
    { rewrite splice_length by lia. lia. }
    intros s2 Hs2. change (0 =? 0) with true. cbn [put_len fmap option_fmap option_map default from_option id].
    rewrite <-Hdl, take_spliced in Hs2.
    apply wp_ret. exists (n - len). split; [lia|]. fold count.
    rewrite !u32_id by lia. split_and!; [done|lia|lia|lia|by eexists|rewrite splice_length; lia
      |by apply splice_bytes_ok| |lia|].
    + rewrite drop_drop. f_equal. lia.
    + replace (Z.to_nat (pos + (count - n))) with (Z.to_nat pos + length (take (Z.to_nat (count - n)) data))%nat in Hs2
        by (rewrite length_take; lia).
      rewrite nor_program_app in Hs2 by (rewrite length_take; lia).
      unfold d in Hs2. rewrite take_take_drop in Hs2.
      replace (Z.to_nat (count - n) + Z.to_nat len)%nat with (Z.to_nat (count - n + len)) in Hs2 by lia. exact Hs2.
  - intros [r p] s' [E Hs']. injection E as -> ->. apply wp_ret, HQ; [done|]. by split_and!.
Qed.

Lemma wp_chr_info w s file pos Q :
  holds w s → at_pos pos file →
  (∀ i, ui_size i = size → ui_erasesize i = mtd_erasesize m → Q (0, Some i) s) →
  wp (mtd_ioctl m file MEMGETINFO) Q s.
Proof.
  intros Hs (Hf & _) HQ. cbn [mtd_ioctl]. rewrite Hf. apply wp_bind. eapply wp_holds_slave; [done|].
  apply wp_ret, HQ; cbn; [done|]. apply (po_es _ _ (hd_part _ _ _ _ _ _ _ _ Hs)).
Qed.

Lemma wp_chr_erase w s file pos start len Q :
  malloc_never_fails → writeable (part_mtd part) = true → holds w s → at_pos pos file →
  0 ≤ start → 0 ≤ len → start < size → start + len ≤ size → aligned m start → aligned m len →
  (∀ s', holds (nor_erase_range w (Z.to_nat start) (Z.to_nat len)) s' → Q (0, None) s') →
  wp (mtd_ioctl m file (MEMERASE start len)) Q s.
Proof.
  intros HM Hwr Hs (Hf & _ & Hw) Hst Hl Hlt Hend Has Hal HQ. cbn [mtd_ioctl]. rewrite Hf, Hw, HM. cbn [negb].
  apply wp_bind. eapply wp_holds_erase; [exact Hs|done|done|done|done|done|done|done|done|].
  intros s' i Hs' Hi. change (negb (0 =? 0)) with false. cbn iota. rewrite Hi. cbn. by apply wp_ret, HQ.
Qed.

(** An erase that starts behind the end is refused. *)
Lemma wp_chr_erase_past w s file pos start len Q :
  malloc_never_fails → writeable (part_mtd part) = true → holds w s → at_pos pos file →
  size ≤ start → Q (- EINVAL, None) s → wp (mtd_ioctl m file (MEMERASE start len)) Q s.
Proof.
  intros HM Hwr Hs (Hf & _ & Hw) Hst HQ. cbn [mtd_ioctl]. rewrite Hf, Hw, HM. cbn [negb].
  apply wp_bind. unfold part_erase. apply wp_bind. eapply wp_holds_slave; [done|]. rewrite Hwr. cbn [negb ei_addr].
  rewrite (proj2 (Z.leb_le _ _)) by done. apply wp_ret. by apply wp_ret.
Qed.

(** The result of unlocking is up to the driver; nothing else happens. *)
Lemma wp_chr_unlock w s file pos start len Q :
  holds w s → at_pos pos file → (∀ s' r, holds w s' → Q r s') →
  wp (mtd_ioctl m file (MEMUNLOCK start len)) Q s.
Proof.
  intros Hs (Hf & _) HQ. cbn [mtd_ioctl]. rewrite Hf. apply wp_bind. unfold part_unlock.
  apply wp_bind. eapply wp_holds_slave; [done|]. destruct (_ <? _); [by apply wp_ret, wp_ret, HQ|].
  destruct Hs as [Hsl Ht Hok Hd Hww Hb].
  apply wp_in_drv. eapply nm_unlock; [exact Hd|]. intros r d' Hd'. apply wp_ret, HQ. by split.
Qed.
End Partition.

(** * Opening and closing *)

Lemma holds_used m h t ptr part base w s n :
  holds m h t ptr part base w s →
  holds m h t ptr (used n part) base w (s ⦃ slaves := <[ptr := used n part]> (slaves s) ⦄).
Proof.
  intros [Hs Ht Hok Hd Hw Hb]. split; cbn; [by rewrite Hs, insert_insert_eq|done|by apply part_ok_used|done..].
Qed.

Lemma wp_chr_open m h t ptr part base w s k Q :
  malloc_never_fails → writeable (part_mtd part) = true → mtd_type (part_mtd part) ≠ MTD_ABSENT →
  holds m h t ptr part base w s → (k < MAX_MTD_DEVICES)%nat → t !! k = Some (Some ptr) →
  (∀ s' file, holds m h t ptr (used (mtd_usecount (part_mtd part) + 1) part) base w s' → at_pos ptr 0 file →
     Q (inr file) s') →
  wp (MtdChar.mtd_open (2 * Z.of_nat k) true) Q s.
Proof.
  intros HM Hwr Hty Hs Hk Ht HQ. unfold MtdChar.mtd_open.
  assert (Z.shiftr (2 * Z.of_nat k) 1 = Z.of_nat k) as -> by (rewrite Z.shiftr_div_pow2 by done; change (2 ^ 1) with 2; zlia).
  assert (Z.land (2 * Z.of_nat k) 1 = 0) as ->
    by (change 1 with (Z.ones 1); rewrite Z.land_ones by done; change (2 ^ 1) with 2; zlia).
  rewrite (proj2 (Z.leb_gt _ _)) by lia. cbn [andb negb Z.eqb]. change (negb true) with false. cbn iota.
  apply wp_bind. unfold get_mtd_device. apply wp_bind, wp_gets. rewrite (hd_table _ _ _ _ _ _ _ _ Hs).
  rewrite (proj2 (Z.eqb_neq _ _)), (proj2 (Z.ltb_ge _ _)), (proj2 (Z.ltb_lt _ _)) by lia.
  rewrite Nat2Z.id, Ht. rewrite bool_decide_false by (intros [[? ?] _]; done). cbn [use_device].
  apply wp_bind. eapply wp_holds_slave; [exact Hs|]. apply wp_bind, wp_modify, wp_ret.
  set (part1 := used (mtd_usecount (part_mtd part) + 1) part). apply wp_bind.
  pose proof (holds_used _ _ _ _ _ _ _ _ (mtd_usecount (part_mtd part) + 1) Hs) as Hs1.
  eapply wp_holds_slave; [exact Hs1|]. change (mtd_type (part_mtd (used _ part))) with (mtd_type (part_mtd part)).
  change (writeable (part_mtd (used _ part))) with (writeable (part_mtd part)).
  rewrite (proj2 (Z.eqb_neq _ _)), Hwr, HM by done. cbn [andb negb]. apply wp_ret, HQ; [exact Hs1|done].
Qed.

Lemma wp_chr_close m h t ptr part base w s file pos Q :
  holds m h t ptr (used (mtd_usecount (part_mtd part) + 1) part) base w s → at_pos ptr pos file →
  0 ≤ mtd_usecount (part_mtd part) →
  (∀ s', holds m h t ptr part base w s' → Q () s') → wp (mtd_close file) Q s.
Proof.
  intros Hs (Hf & _) Hu HQ. unfold mtd_close, put_mtd_device. rewrite Hf. apply wp_bind.
  eapply wp_holds_slave; [exact Hs|]. apply wp_bind, wp_modify. cbn [mtd_usecount part_mtd used set].
  change (mtd_usecount (part_mtd (used _ part))) with (mtd_usecount (part_mtd part) + 1).
  rewrite (proj2 (Z.ltb_ge _ _)) by lia. apply wp_ret, HQ.
  pose proof (holds_used _ _ _ _ _ _ _ _ (mtd_usecount (part_mtd part) + 1 - 1) Hs) as Hs1.
  assert (used (mtd_usecount (part_mtd part) + 1 - 1) (used (mtd_usecount (part_mtd part) + 1) part) = part) as Hp.
  { rewrite Z.add_simpl_r. by destruct part as [[] ? ? ? ?]. }
  exact (eq_rect _ (λ p, holds m h t ptr p base w _) Hs1 _ Hp).
Qed.

(** The text of [/proc/mtd] does not show who uses a device. *)
Lemma read_proc_used h t ptr part n :
  mtd_read_proc (<[ptr := used n part]> h) t = mtd_read_proc (<[ptr := part]> h) t.
Proof.
  unfold mtd_read_proc. do 2 f_equal. apply list_fmap_ext. intros _ i _. unfold mtd_proc_info.
  destruct (t !! i) as [[p|]|]; [|done..]. destruct (decide (p = ptr)) as [->|].
  - by rewrite !lookup_insert_eq.
  - by rewrite !lookup_insert_ne by done.
Qed.
End MtdCharFacts.

(** * Programs that do not exit *)

Definition pwp {S A} (c : prog S A) (Q : A → S → Prop) (s : S) : Prop :=
  ∃ a s', c s = Ret (inr a, s') ∧ Q a s'.

Section Pwp.
Context {S : Type}.

Lemma pwp_ret {A} (a : A) (Q : A → S → Prop) s : Q a s → pwp (mret a) Q s.
Proof. by exists a, s. Qed.

Lemma pwp_bind {A B} (c : prog S A) (k : A → prog S B) Q s :
  pwp c (λ a, pwp (k a) Q) s → pwp (c ≫= k) Q s.
Proof.
  intros (a & s1 & Hc & b & s2 & Hk & HQ). exists b, s2. split; [|done].
  unfold mbind, prog_bind. by rewrite Hc.
Qed.

Lemma pwp_sys {A} (c : io S A) Q s : wp c Q s → pwp (sys c) Q s.
Proof. intros (a & s' & E & HQ). exists a, s'. split; [|done]. unfold sys. by rewrite E. Qed.

Lemma pwp_mono {A} (c : prog S A) (P Q : A → S → Prop) s :
  pwp c P s → (∀ a s', P a s' → Q a s') → pwp c Q s.
Proof. intros (a & s' & Hc & HP) HPQ. exists a, s'. auto. Qed.

(** ** Programs that may exit: [wp], whose results are [inl n] for [exit(n)] *)

Lemma xwp_pwp {A} (c : prog S A) (Q : Z + A → S → Prop) s : pwp c (λ a, Q (inr a)) s → wp c Q s.
Proof. intros (a & s' & E & HQ). by exists (inr a), s'. Qed.

Lemma xwp_bind {A B} (c : prog S A) (k : A → prog S B) (Q : Z + B → S → Prop) s :
  wp c (λ r s', match r with inl n => Q (inl n) s' | inr a => wp (k a) Q s' end) s → wp (c ≫= k) Q s.
Proof.
  intros ([n|a] & s1 & Hc & Hr).
  - exists (inl n), s1. split; [|done]. unfold mbind, prog_bind. by rewrite Hc.
  - destruct Hr as (b & s2 & Hk & HQ). exists b, s2. split; [|done]. unfold mbind, prog_bind. by rewrite Hc.
Qed.

Lemma xwp_pwp_bind {A B} (c : prog S A) (k : A → prog S B) (Q : Z + B → S → Prop) s :
  pwp c (λ a, wp (k a) Q) s → wp (c ≫= k) Q s.
Proof. intros Hc. apply xwp_bind, xwp_pwp, Hc. Qed.

Lemma xwp_rounds {A B} (I : Z → A → S → Prop) (Q : Z + B → S → Prop) body n a s :
  I n a s → n < 2 ^ 32 → (∀ n a s, I n a s → 0 ≤ n) →
  (∀ n a s, I n a s →
     wp (body a) (λ r s', match r with
                          | inl n => Q (inl n) s'
                          | inr (inl a') => ∃ n', n' ≤ n - 1 ∧ I n' a' s'
                          | inr (inr b) => Q (inr b) s'
                          end) s) →
  wp (prog_rounds ROUNDS body a) Q s.
Proof.
  intros Ha Hn Hpos Hbody.
  enough (wp (rounds ROUNDS (λ a s, match body a s with
      | Ret (inl n, s) => Ret (inr (inl n), s) | Ret (inr (inl a), s) => Ret (inl a, s)
      | Ret (inr (inr b), s) => Ret (inr (inr b), s) | Oob => Oob | NoFuel => NoFuel end) a)
    (λ r s', ∃ b, r = inr b ∧ Q b s') s) as (r & s' & E & b & -> & HQ).
  { exists b, s'. split; [|done]. unfold prog_rounds. by rewrite E. }
  eapply (wp_rounds _ I Q _ n); [done|done|done| |eauto].
  intros n1 a1 s1 H1. destruct (Hbody n1 a1 s1 H1) as ([x|[a2|b]] & s2 & E & HQ).
  - exists (inr (inl x)), s2. split; [by rewrite E|done].
  - exists (inl a2), s2. split; [by rewrite E|done].
  - exists (inr (inr b)), s2. split; [by rewrite E|done].
Qed.

Lemma pwp_rounds {A B} (I : Z → A → S → Prop) (Q : B → S → Prop) body n a s :
  I n a s → n < 2 ^ 32 → (∀ n a s, I n a s → 0 ≤ n) →
  (∀ n a s, I n a s →
     pwp (body a) (λ r s', match r with inl a' => ∃ n', n' ≤ n - 1 ∧ I n' a' s' | inr b => Q b s' end) s) →
  pwp (prog_rounds ROUNDS body a) Q s.
Proof.
  intros Ha Hn Hpos Hbody.
  destruct (xwp_rounds I (λ r s', ∃ b, r = inr b ∧ Q b s') body n a s) as (r & s' & E & b & -> & HQ); [done..| |].
  - intros n1 a1 s1 H1. apply xwp_pwp. eapply pwp_mono; [by apply Hbody|].
    intros [a2|b] s2 HQ; [done|]. by exists b.
  - by exists b, s'.
Qed.
End Pwp.

(** * A partition that is being written

    [d] has been written, everything before [e] has been erased, and behind it is
    what [w] had. *)
Definition flashed (w d : bytes) (e : nat) : bytes := d ++ replicate (e - length d) 0xff ++ drop e w.

Lemma flashed_length w d e : (length d ≤ e ≤ length w)%nat → length (flashed w d e) = length w.
Proof. intros He. unfold flashed. rewrite !length_app, length_replicate, length_drop. lia. Qed.

Lemma lookup_flashed w d e i :
  (length d ≤ e ≤ length w)%nat →
  flashed w d e !! i =
    if decide (i < length d)%nat then d !! i else if decide (i < e)%nat then Some 0xff else w !! i.
Proof.
  intros He. unfold flashed. destruct (decide (i < length d)%nat); [by rewrite lookup_app_l by done|].
  rewrite lookup_app_r by lia. destruct (decide (i < e)%nat).
  - rewrite lookup_app_l by (rewrite length_replicate; lia). apply lookup_replicate_2. lia.
  - rewrite lookup_app_r by (rewrite length_replicate; lia). rewrite length_replicate, lookup_drop. f_equal. lia.
Qed.

Lemma flashed_0 w : flashed w [] 0 = w.
Proof. done. Qed.

(** Erasing the next block. *)
Lemma flashed_erase w d e n :
  (length d ≤ e)%nat → (e + n ≤ length w)%nat → nor_erase_range (flashed w d e) e n = flashed w d (e + n).
Proof.
  intros He Hn. apply list_eq. intros i. unfold nor_erase_range.
  rewrite lookup_splice by (rewrite length_replicate, flashed_length; lia).
  rewrite length_replicate, !lookup_flashed by lia. repeat case_decide; try done; try lia.
  apply lookup_replicate_2. lia.
Qed.

(** Programming the next chunk. *)
Lemma flashed_program w d c e :
  (length d + length c ≤ e)%nat → (e ≤ length w)%nat → bytes_ok c →
  nor_program (flashed w d e) (length d) c = flashed w (d ++ c) e.
Proof.
  intros He Hw Hc. apply list_eq. intros i.
  rewrite lookup_nor_program by (rewrite flashed_length; lia).
  rewrite !lookup_flashed, length_app by (rewrite ?length_app; lia). repeat case_decide; try lia; try done.
  - rewrite lookup_app_r by lia. destruct (lookup_lt_is_Some_2 c (i - length d)) as [b Hb]; [lia|].
    rewrite Hb. cbn. f_equal. apply (Forall_lookup_1 _ _ _ _ Hc) in Hb. change 0xff with (Z.ones 8).
    rewrite Z.land_comm, Z.land_ones by done. by apply Z.mod_small.
  - by rewrite lookup_app_l by lia.
Qed.

(** Reading it back. *)
Lemma flashed_read w d c e : take (length c) (drop (length d) (flashed w (d ++ c) e)) = c.
Proof. unfold flashed. by rewrite <-app_assoc, drop_app_length, take_app_length. Qed.

(** [n] rounded up to whole blocks. *)
Definition round_up (es n : Z) : Z := (n + es - 1) / es * es.

Lemma round_up_unique es n e : 0 < es → e mod es = 0 → n ≤ e < n + es → e = round_up es n.
Proof.
  intros Hes He Hn. unfold round_up. pose proof (Z.div_mod e es) as Hd.
  assert ((n + es - 1) / es = e / es) as ->; [|lia].
  symmetry. apply (Z.div_unique _ _ _ (n + es - 1 - e)); lia.
Qed.

(** * The program on a device *)

(** What the files do: a read gives some of what is left, and something if asked
    for something and not at the end, as a regular file or a pipe does. *)
Class FilesOk (F : Type) `{Files F} := {
  img_data : F → bytes;
  img_bytes f : bytes_ok (img_data f);
  img_read_ok n f :
    0 ≤ n → ∃ k f', img_read n f = (Some (take k (img_data f)), f') ∧ img_data f' = drop k (img_data f) ∧
      Z.of_nat k ≤ n ∧ (0 < n → img_data f ≠ [] → (0 < k)%nat)
}.

(** The nodes of device [k]: one of the two names that are tried. *)
Definition has_node `{DevNodes} (k : nat) : Prop :=
  dev_node ("/dev/mtd/" +:+ pretty (Z.of_nat k)) = Some (2 * Z.of_nat k) ∨
  dev_node ("/dev/mtd/" +:+ pretty (Z.of_nat k)) = None ∧
  dev_node ("/dev/mtd" +:+ pretty (Z.of_nat k)) = Some (2 * Z.of_nat k).

Section MtdToolFacts.
Context {D F : Type} `{NorMaster D} `{Malloc} `{DevNodes} `{FilesOk F}.
Implicit Types (s : mtd_core D).

(** The device [k] with the given name: a writeable partition, the first whose line
    in [/proc/mtd] contains the name. *)
Record named (m : mtd_info_t) (h : gmap nat mtd_part) (t : list (option nat)) (ptr : nat) (part : mtd_part)
    (name : string) (k : nat) : Prop := {
  nd_scan : scan_proc name (mtd_read_proc (<[ptr := part]> h) t) = Some (Z.of_nat k);
  nd_table : t !! k = Some (Some ptr);
  nd_max : (k < MAX_MTD_DEVICES)%nat;
  nd_node : has_node k;
  nd_write : writeable (part_mtd part) = true;
  nd_type : mtd_type (part_mtd part) ≠ MTD_ABSENT;
  nd_use : 0 ≤ mtd_usecount (part_mtd part);
  nd_size : aligned m (mtd_size (part_mtd part))
}.

Context (HM : malloc_never_fails) (m : mtd_info_t) (h : gmap nat mtd_part) (t : list (option nat)) (ptr : nat)
  (part : mtd_part) (base : bytes) (name : string) (k : nat) (Hnd : named m h t ptr part name k).
Local Abbreviation size := (mtd_size (part_mtd part)).
Local Abbreviation es := (mtd_erasesize m).
Local Abbreviation closed := (holds m h t ptr part base).
Local Abbreviation opened := (holds m h t ptr (used (mtd_usecount (part_mtd part) + 1) part) base).
Local Abbreviation at_pos := (at_pos ptr).

Lemma wp_tool_open w s Q :
  closed w s → (∀ s' fd, opened w s' → at_pos 0 fd → Q (Some fd) s') → wp (mtd_open name) Q s.
Proof.
  intros Hs HQ. unfold mtd_open. apply wp_bind, wp_gets, wp_bind, wp_gets.
  rewrite (hd_slaves _ _ _ _ _ _ _ _ Hs), (hd_table _ _ _ _ _ _ _ _ Hs), (nd_scan _ _ _ _ _ _ _ Hnd).
  assert (∀ p, dev_node p = Some (2 * Z.of_nat k) → wp (open_path p) (λ r s', ∃ fd, r = Some fd ∧ Q (Some fd) s') s) as Hp.
  { intros p Hp. unfold open_path. rewrite Hp. apply wp_bind.
    eapply wp_chr_open; [done|apply Hnd|apply Hnd|exact Hs|apply Hnd|apply Hnd|].
    intros s' fd Hs' Hfd. apply wp_ret. exists fd. split; [done|]. by apply HQ. }
  apply wp_bind. destruct (nd_node _ _ _ _ _ _ _ Hnd) as [Hn|[Hn1 Hn2]].
  - eapply wp_mono; [by apply Hp|]. intros r s' (fd & -> & HQ'). by apply wp_ret.
  - unfold open_path at 1. rewrite Hn1. apply wp_ret. eapply wp_mono; [by apply Hp|]. by intros r s' (fd & -> & HQ').
Qed.

Lemma pwp_open_info w s Q :
  closed w s →
  (∀ s' fd i, opened w s' → at_pos 0 fd → ui_size i = size → ui_erasesize i = es → Q (fd, i) s') →
  pwp (open_info m name) Q s.
Proof.
  intros Hs HQ. unfold open_info. apply pwp_bind, pwp_sys. eapply wp_tool_open; [done|]. intros s1 fd Hs1 Hfd.
  apply pwp_bind, pwp_sys. eapply wp_chr_info; [exact Hs1|exact Hfd|]. intros i Hi He.
  change (negb (0 =? 0)) with false. cbn iota. by apply pwp_ret, HQ.
Qed.

Lemma pwp_close w s fd pos {A} (a : A) Q :
  opened w s → at_pos pos fd → (∀ s', closed w s' → Q a s') → pwp (sys (mtd_close fd);; mret a) Q s.
Proof.
  intros Hs Hfd HQ. apply pwp_bind, pwp_sys. eapply wp_chr_close; [exact Hs|exact Hfd|apply Hnd|].
  intros s' Hs'. by apply pwp_ret, HQ.
Qed.

Lemma wp_mtd_check w s Q : closed w s → (∀ s', closed w s' → Q 1 s') → wp (mtd_check m name) Q s.
Proof.
  intros Hs HQ. unfold mtd_check. apply wp_bind. eapply wp_tool_open; [done|]. intros s1 fd Hs1 Hfd.
  apply wp_bind. eapply wp_chr_info; [exact Hs1|exact Hfd|]. intros i _ _.
  apply wp_bind. eapply wp_chr_close; [exact Hs1|exact Hfd|apply Hnd|]. intros s2 Hs2. by apply wp_ret, HQ.
Qed.

Lemma pwp_mtd_unlock w s Q : closed w s → (∀ s', closed w s' → Q 0 s') → pwp (mtd_unlock m name) Q s.
Proof.
  intros Hs HQ. unfold mtd_unlock. apply pwp_bind. eapply pwp_open_info; [done|]. intros s1 fd i Hs1 Hfd _ _.
  apply pwp_bind, pwp_sys. eapply wp_chr_unlock; [exact Hs1|exact Hfd|]. intros s2 _ Hs2. by eapply pwp_close.
Qed.

(** ** Erasing *)

Lemma opened_sizes w s :
  opened w s → 0 ≤ size < 2 ^ 32 ∧ Z.of_nat (length w) = size ∧ 0 < es ∧ (length w ≤ length base)%nat.
Proof. intros Hs. destruct (holds_sizes _ _ _ _ _ _ _ _ Hs) as (? & ? & ? & ?). cbn in *. lia. Qed.

(** The block at [start] when the file is at [start], too. *)
Lemma pwp_erase_block w s fd start tc Q :
  opened w s → at_pos start fd → 0 ≤ start → start + es ≤ size → aligned m start → tc = 256 ∨ tc = 0xff →
  (∀ s' fd', opened (nor_erase_range w (Z.to_nat start) (Z.to_nat es)) s' → at_pos (start + es) fd' →
     Q (fd', 0xff) s') →
  pwp (erase_block m es start fd tc) Q s.
Proof.
  intros Hs Hfd Hst Hend Hal Htc HQ. pose proof (opened_sizes _ _ Hs) as (Hsz & Hlw & Hes & _).
  unfold erase_block. apply pwp_bind, pwp_sys. eapply wp_chr_unlock; [exact Hs|exact Hfd|]. intros s1 _ Hs1.
  apply pwp_bind, pwp_sys. eapply (wp_chr_erase _ _ _ _ (used _ part));
    [done|apply Hnd|exact Hs1|exact Hfd|done|lia|cbn; lia|cbn; lia|done|unfold aligned; apply Z_mod_same_full|].
  intros s2 Hs2. change (negb (0 =? 0)) with false. cbn iota.
  apply pwp_bind, pwp_sys. eapply (wp_chr_read _ _ _ _ (used _ part)); [done|exact Hs2|exact Hfd|done|lia|cbn; lia|].
  intros s3 fd3 Hs3 Hfd3. rewrite Z.eqb_refl. cbn [negb].
  assert (take (Z.to_nat es) (drop (Z.to_nat start) (nor_erase_range w (Z.to_nat start) (Z.to_nat es))) =
          replicate (Z.to_nat es) 0xff) as ->.
  { pose proof (load_splice w (Z.to_nat start) (replicate (Z.to_nat es) 0xff)) as HL.
    rewrite length_replicate in HL. specialize (HL ltac:(lia)). by apply load_Ret in HL as [_ HL]. }
  assert ((if tc =? 256 then default 0 (replicate (Z.to_nat es) 0xff !! 0%nat) else tc) = 0xff) as ->.
  { rewrite lookup_replicate_2 by lia. by destruct Htc as [-> | ->]. }
  rewrite bool_decide_true by (apply Forall_take, Forall_replicate; done). by apply pwp_ret, HQ.
Qed.

Lemma aligned_add a b : aligned m a → aligned m b → aligned m (a + b).
Proof. unfold aligned. intros Ha Hb. by rewrite Zplus_mod, Ha, Hb. Qed.

(** An erase block that begins inside a device of whole blocks ends inside. *)
Lemma block_inside a n : 0 < es → aligned m a → aligned m n → a < n → a + es ≤ n.
Proof.
  unfold aligned. intros Hes Ha Hn Hlt. pose proof (Z.div_mod a es). pose proof (Z.div_mod n es).
  assert (a / es < n / es); [|nia]. destruct (Z.lt_ge_cases (a / es) (n / es)); nia.
Qed.

Lemma pwp_mtd_erase w s Q :
  closed w s → (∀ s', closed (replicate (length w) 0xff) s' → Q 0 s') → pwp (mtd_erase m name) Q s.
Proof.
  intros Hs HQ. unfold mtd_erase. apply pwp_bind. eapply pwp_open_info; [done|]. intros s1 fd i Hs1 Hfd Hi He.
  pose proof (opened_sizes _ _ Hs1) as (Hsz & Hlw & Hes & _). rewrite He, HM. cbn [negb].
  apply pwp_bind. eapply (pwp_rounds
    (λ n '(start, fd, tc) s', n = size - start ∧ 0 ≤ start ≤ size ∧ aligned m start ∧ (tc = 256 ∨ tc = 0xff) ∧
       at_pos start fd ∧ opened (nor_erase_range w 0 (Z.to_nat start)) s')
    _ _ size); [| lia| |].
  - split_and!; [lia|lia|lia|apply Z.mod_0_l; lia|by left|done|].
    change (Z.to_nat 0) with 0%nat. unfold nor_erase_range. cbn [replicate]. by rewrite splice_nil.
  - intros n [[start fd'] tc] s' (-> & ? & _). lia.
  - intros n [[start fd'] tc] s' (-> & Hst & Hal & Htc & Hfd' & Hs'). cbn beta iota. rewrite Hi.
    destruct (Z.ltb_spec start size) as [Hlt|Hge]; cbn [negb].
    2: { assert (start = size) as -> by lia. apply pwp_ret. eapply pwp_close; [|exact Hfd'|exact HQ].
         rewrite <-Hlw, Nat2Z.id in Hs'. unfold nor_erase_range, splice in Hs'.
         rewrite length_replicate, drop_ge, app_nil_r in Hs' by lia. exact Hs'. }
    pose proof (block_inside start size Hes Hal (nd_size _ _ _ _ _ _ _ Hnd) Hlt) as Hin.
    apply pwp_bind. eapply pwp_erase_block; [exact Hs'|done|lia|done|done|done|]. intros s2 fd2 Hs2 Hfd2.
    apply pwp_ret. exists (size - (start + es)). split; [lia|]. rewrite u32_id by lia.
    split_and!; [done|lia|lia|by apply aligned_add; [|unfold aligned; apply Z_mod_same_full]|by right|done|].
    pose proof (nor_erase_add w 0 (Z.to_nat start) (Z.to_nat es) ltac:(lia)) as Hadd. cbn [Nat.add] in Hadd.
    rewrite Hadd in Hs2. by rewrite Z2Nat.inj_add by lia.
Qed.

(** ** Writing *)

(** Erase ahead of [n] written bytes. *)
Lemma pwp_erase_ahead w d s fd pos n e Q :
  opened (flashed w d (Z.to_nat e)) s → at_pos pos fd → length w = Z.to_nat size →
  Z.of_nat (length d) ≤ e → e ≤ size → aligned m e → e < n + es → n ≤ size →
  (∀ s' e', opened (flashed w d (Z.to_nat e')) s' → n ≤ e' < n + es → e ≤ e' ≤ size → aligned m e' → Q e' s') →
  pwp (erase_ahead m es n e fd) Q s.
Proof.
  intros Hs Hfd Hlw Hd He Hal Hen Hn HQ. pose proof (opened_sizes _ _ Hs) as (Hsz & _ & Hes & _).
  unfold erase_ahead.
  eapply (pwp_rounds
    (λ j e' s', j = Z.max 0 (n - e') ∧ e ≤ e' ≤ size ∧ aligned m e' ∧ e' < n + es ∧
       opened (flashed w d (Z.to_nat e')) s') _ _ (Z.max 0 (n - e))); [by split_and!|lia| |].
  - intros j e' s' (-> & _). lia.
  - intros j e' s' (-> & He' & Hal' & Hlt & Hs'). cbn beta.
    destruct (Z.ltb_spec e' n) as [Hlt'|Hge]; cbn [negb]; [|apply pwp_ret; by apply HQ].
    pose proof (block_inside e' size Hes Hal' (nd_size _ _ _ _ _ _ _ Hnd) ltac:(lia)) as Hin.
    apply pwp_bind, pwp_sys. eapply (wp_chr_erase _ _ _ _ (used _ part));
      [done|apply Hnd|exact Hs'|exact Hfd|lia|lia|cbn; lia|cbn; lia|done|unfold aligned; apply Z_mod_same_full|].
    intros s2 Hs2. change (0 <? 0) with false. cbn iota. apply pwp_ret. rewrite u32_id by lia.
    exists (Z.max 0 (n - (e' + es))). split; [lia|].
    rewrite flashed_erase in Hs2 by lia.
    split_and!; [done|lia|lia|by apply aligned_add; [|unfold aligned; apply Z_mod_same_full]|lia|].
    by rewrite Z2Nat.inj_add by lia.
Qed.

(** Behind the end of the device the erase fails, and the program gives up. *)
Lemma xwp_erase_ahead_past w d s fd pos n e :
  opened (flashed w d (Z.to_nat e)) s → at_pos pos fd → length w = Z.to_nat size →
  Z.of_nat (length d) ≤ e → e ≤ size → aligned m e → size < n → n < 2 ^ 32 →
  wp (erase_ahead m es n e fd) (λ r s', r = inl 1 ∧ opened (flashed w d (Z.to_nat size)) s') s.
Proof.
  intros Hs Hfd Hlw Hd He Hal Hn Hn32. pose proof (opened_sizes _ _ Hs) as (Hsz & _ & Hes & _).
  unfold erase_ahead.
  eapply (xwp_rounds
    (λ j e' s', j = size - e' ∧ e ≤ e' ≤ size ∧ aligned m e' ∧ opened (flashed w d (Z.to_nat e')) s')
    _ _ (size - e)); [by split_and!|lia| |].
  - intros j e' s' (-> & ? & _). lia.
  - intros j e' s' (-> & He' & Hal' & Hs'). cbn beta. rewrite (proj2 (Z.ltb_lt e' n)) by lia. cbn [negb].
    destruct (decide (e' = size)) as [->|Hne].
    + apply xwp_pwp_bind, pwp_sys.
      eapply (wp_chr_erase_past _ _ _ _ (used _ part)); [done|apply Hnd|exact Hs'|exact Hfd|cbn; lia|].
      change (- EINVAL <? 0) with true. cbn iota. by eexists _, _.
    + pose proof (block_inside e' size Hes Hal' (nd_size _ _ _ _ _ _ _ Hnd) ltac:(lia)) as Hin.
      apply xwp_pwp_bind, pwp_sys. eapply (wp_chr_erase _ _ _ _ (used _ part));
        [done|apply Hnd|exact Hs'|exact Hfd|lia|lia|cbn; lia|cbn; lia|done|unfold aligned; apply Z_mod_same_full|].
      intros s2 Hs2. change (0 <? 0) with false. cbn iota. apply xwp_pwp, pwp_ret. rewrite u32_id by lia.
      exists (size - (e' + es)). split; [lia|]. rewrite flashed_erase in Hs2 by lia.
      split_and!; [done|lia|lia|by apply aligned_add; [|unfold aligned; apply Z_mod_same_full]|].
      by rewrite Z2Nat.inj_add by lia.
Qed.

(** Write a chunk into what has been erased; it reads back. *)
Lemma pwp_write_chunk w d c s fd e check Q :
  opened (flashed w d e) s → at_pos (Z.of_nat (length d)) fd → length w = Z.to_nat size →
  (length d + length c ≤ e)%nat → (e ≤ length w)%nat → (0 < length c)%nat → bytes_ok c →
  (∀ s' fd', opened (flashed w (d ++ c) e) s' → at_pos (Z.of_nat (length (d ++ c))) fd' → Q fd' s') →
  pwp (write_chunk check fd c) Q s.
Proof.
  intros Hs Hfd Hlw Hd He Hc Hb HQ. pose proof (opened_sizes _ _ Hs) as (Hsz & _ & Hes & _).
  unfold write_chunk. apply pwp_bind, pwp_sys.
  eapply (wp_chr_write _ _ _ _ (used _ part)); [done|apply Hnd|exact Hs|exact Hfd|lia|lia|cbn; lia|done|].
  intros s1 fd1 Hs1 Hfd1. rewrite Nat2Z.id, flashed_program in Hs1 by (done || lia).
  rewrite (proj2 (Z.ltb_ge (Z.of_nat (length c)) 0)), u32_id by lia. rewrite (proj2 (Z.ltb_ge _ _)) by lia.
  rewrite <-Nat2Z.inj_add, <-length_app in Hfd1.
  destruct (check =? 0); [by apply pwp_ret, HQ|].
  apply pwp_bind, pwp_sys. eapply (wp_lseek_cur _ _ _ _ (used _ part)); [exact Hs1|exact Hfd1|cbn; rewrite length_app; lia|].
  intros fd2 Hfd2. rewrite (proj2 (Z.ltb_ge _ _)), HM by (rewrite length_app; lia). cbn [negb].
  replace (- Z.of_nat (length c) + Z.of_nat (length (d ++ c))) with (Z.of_nat (length d)) in Hfd2
    by (rewrite length_app; lia).
  apply pwp_bind, pwp_sys. eapply (wp_chr_read _ _ _ _ (used _ part)); [done|exact Hs1|exact Hfd2|lia|lia|cbn; lia|].
  intros s3 fd3 Hs3 Hfd3. rewrite Z.eqb_refl. cbn [negb]. rewrite !Nat2Z.id, flashed_read.
  rewrite take_ge, bool_decide_true by done. apply pwp_ret, HQ; [done|].
  by rewrite length_app, Nat2Z.inj_add.
Qed.

(** The loop: [d] of the image [img] has been written. *)
Definition installing (w img : bytes) (n : Z) (st : Z * Z * Z * bytes * mfile * F) s : Prop :=
  let '(len, wr, e, buf, fd, f) := st in
  ∃ d, img = d ++ take (Z.to_nat len) (img_data f) ∧ n = Z.of_nat (length img - length d) ∧ 0 ≤ len < 2 ^ 31 ∧
    wr = Z.of_nat (length d) ∧ wr ≤ e < wr + es ∧ e ≤ size ∧ aligned m e ∧ length buf = Z.to_nat BUFSIZE ∧
    at_pos wr fd ∧ opened (flashed w d (Z.to_nat e)) s.

(** The image did not fit: all blocks are erased, and a beginning of it is written. *)
Definition overrun (w img : bytes) s : Prop :=
  size < Z.of_nat (length img) ∧
  ∃ d, d `prefix_of` img ∧ Z.of_nat (length d) ≤ size ∧ opened (flashed w d (Z.to_nat size)) s.

(** The image is in the partition, and the rest of its last block is erased. *)
Definition installed (w img : bytes) (fd : mfile) s : Prop :=
  Z.of_nat (length img) ≤ size ∧ at_pos (Z.of_nat (length img)) fd ∧
  opened (flashed w img (Z.to_nat (round_up es (Z.of_nat (length img))))) s.

Definition round_post (w img : bytes) (n : Z) (r : Z + (Z * Z * Z * bytes * mfile * F + mfile)) s : Prop :=
  match r with
  | inl x => x = 1 ∧ overrun w img s
  | inr (inl st') => ∃ n', n' ≤ n - 1 ∧ installing w img n' st' s
  | inr (inr fd) => installed w img fd s
  end.

(** A round that has read [chunk]. *)
Lemma wp_round_chunk w img d chunk check n len' e buf fd f' s :
  length w = Z.to_nat size → Z.of_nat (length img) < 2 ^ 31 →
  img = (d ++ chunk) ++ take (Z.to_nat len') (img_data f') → n = Z.of_nat (length img - length d) →
  0 ≤ len' < 2 ^ 31 → (0 < length chunk)%nat → bytes_ok chunk → length buf = Z.to_nat BUFSIZE →
  Z.of_nat (length d) ≤ e < Z.of_nat (length d) + es → e ≤ size → aligned m e →
  at_pos (Z.of_nat (length d)) fd → opened (flashed w d (Z.to_nat e)) s →
  wp (e ← erase_ahead m es (Z.of_nat (length d) + Z.of_nat (length chunk)) e fd;
      fd ← write_chunk check fd chunk;
      mret (inl (len', Z.of_nat (length d) + Z.of_nat (length chunk), e, buf, fd, f')))
    (round_post w img n) s.
Proof.
  intros Hlw Hsmall Hi -> Hlen Hpos Hb Hbuf He Hes Hal Hfd Hs.
  pose proof (opened_sizes _ _ Hs) as (Hsz & _ & Hes0 & _).
  assert (length d + length chunk ≤ length img)%nat as Hdl.
  { apply (f_equal length) in Hi. rewrite !length_app in Hi. lia. }
  destruct (decide (Z.of_nat (length d) + Z.of_nat (length chunk) ≤ size)) as [Hfit|Hover].
  - apply xwp_pwp_bind. eapply (pwp_erase_ahead w d); [exact Hs|exact Hfd|done|lia|done|done|lia|lia|].
    intros s1 e1 Hs1 He1 He1' Hal1.
    apply xwp_pwp_bind. eapply (pwp_write_chunk w d chunk); [exact Hs1|exact Hfd|done|lia|lia|done|done|].
    intros s2 fd2 Hs2 Hfd2. apply xwp_pwp, pwp_ret. exists (Z.of_nat (length img - length (d ++ chunk))).
    rewrite length_app in Hfd2 |- *. split; [lia|]. exists (d ++ chunk). rewrite length_app.
    split_and!; [exact Hi|done|lia|lia|lia|lia|lia|lia|done|done| |done].
    by rewrite <-Nat2Z.inj_add.
  - apply xwp_bind. eapply wp_mono.
    { eapply (xwp_erase_ahead_past w d); [exact Hs|exact Hfd|done|lia|done|done|lia|lia]. }
    intros r s1 [-> Hs1]. split; [done|]. split; [lia|]. exists d. split_and!; [|lia|done].
    exists (chunk ++ take (Z.to_nat len') (img_data f')). by rewrite app_assoc.
Qed.

Lemma wp_write_round w img check n st s :
  length w = Z.to_nat size → Z.of_nat (length img) < 2 ^ 31 → installing w img n st s →
  wp (write_round m check es st) (round_post w img n) s.
Proof.
  intros Hlw Hsmall Hst. destruct st as [[[[[len wr] e] buf] fd] f].
  destruct Hst as (d & Hi & Hn & Hlen & -> & He & Hes & Hal & Hbuf & Hfd & Hs).
  pose proof (opened_sizes _ _ Hs) as (Hsz & _ & Hes0 & _). unfold write_round.
  assert (take (Z.to_nat len) (img_data f) = [] → installed w img fd s) as Hend.
  { intros Hnil. rewrite Hnil, app_nil_r in Hi. subst d. split; [lia|]. split; [done|].
    by rewrite <-(round_up_unique es (Z.of_nat (length img)) e) by done. }
  destruct (Z.eqb_spec len 0) as [->|Hl0]; [by apply xwp_pwp, pwp_ret, Hend|].
  set (ask := if len <? BUFSIZE then u32 len else BUFSIZE).
  assert (0 < ask ≤ BUFSIZE ∧ ask ≤ len) as [Hask Hal2].
  { unfold ask. destruct (Z.ltb_spec len BUFSIZE); rewrite ?u32_id by lia; unfold BUFSIZE in *; lia. }
  destruct (img_read_ok ask f) as (c & f' & -> & Hf' & Hca & Hcp); [lia|].
  cbn [default from_option id]. set (chunk := take c (img_data f)).
  assert (length chunk ≤ c)%nat as Hcl by (unfold chunk; rewrite length_take; lia).
  assert (Z.to_nat BUFSIZE = 1024%nat) as HB by done. unfold BUFSIZE in Hask.
  unfold store. rewrite decide_True by lia.
  destruct (decide (img_data f = [])) as [Hnil|Hne].
  { assert (chunk = []) as -> by (unfold chunk; rewrite Hnil; apply take_nil). cbn [length].
    change (Z.of_nat 0 <=? 0) with true. cbn iota. apply xwp_pwp, pwp_ret, Hend. rewrite Hnil. apply take_nil. }
  assert (0 < length chunk)%nat as Hpos.
  { unfold chunk. rewrite length_take. specialize (Hcp ltac:(lia) Hne).
    destruct (img_data f); [done|]. cbn [length]. lia. }
  rewrite (proj2 (Z.leb_gt _ _)) by lia.
  assert (img = (d ++ chunk) ++ take (Z.to_nat (len - Z.of_nat (length chunk))) (img_data f')) as Hi'.
  { rewrite Hi, Hf', <-app_assoc. f_equal. unfold chunk. rewrite length_take.
    destruct (decide (c ≤ length (img_data f))%nat) as [Hc|Hc].
    - rewrite Nat.min_l, take_take_drop by done. f_equal. lia.
    - rewrite Nat.min_r, (drop_ge (img_data f)), take_nil, app_nil_r by lia. rewrite !take_ge by lia. done. }
  assert (length d + length chunk ≤ length img)%nat as Hdl.
  { apply (f_equal length) in Hi'. rewrite !length_app in Hi'. lia. }
  rewrite !u32_id, s32_id by lia.
  assert (load (splice buf 0 chunk) 0 (Z.to_nat (Z.of_nat (length chunk))) = Ret chunk) as ->.
  { rewrite Nat2Z.id. apply load_splice. lia. }
  eapply wp_round_chunk; [done|done|exact Hi'|done|lia|done| |rewrite splice_length; lia|done|done|done|done|done].
  apply bytes_ok_take, img_bytes.
Qed.

(** Either the image is installed, or it was too large for the device. *)
Lemma wp_mtd_write w s f offset len check :
  closed w s → 0 ≤ len < 2 ^ 31 →
  let img := take (Z.to_nat len) (img_data (img_lseek offset f)) in
  wp (mtd_write m check f offset len name) (λ r s',
    match r with
    | inl x => x = 1 ∧ overrun w img s'
    | inr x => x = 0 ∧ Z.of_nat (length img) ≤ size ∧
               closed (flashed w img (Z.to_nat (round_up es (Z.of_nat (length img))))) s'
    end) s.
Proof.
  intros Hs Hlen img. unfold mtd_write. apply xwp_pwp_bind. eapply pwp_open_info; [done|].
  intros s1 fd i Hs1 Hfd _ He. rewrite He, HM. cbn [negb]. pose proof (opened_sizes _ _ Hs1) as (Hsz & Hlw & Hes & _).
  assert (Z.of_nat (length img) < 2 ^ 31) as Himg by (unfold img; rewrite length_take; lia).
  apply xwp_bind. eapply wp_mono.
  { eapply (xwp_rounds (installing w img)
      (λ r s', match r with inl x => x = 1 ∧ overrun w img s' | inr fd => installed w img fd s' end)
      _ (Z.of_nat (length img))); [|lia| |].
    - exists []. cbn [app length]. split_and!; [done|by rewrite Nat.sub_0_r|lia|lia|done|lia|lia|lia|apply Z.mod_0_l; lia
        |unfold uninit; by rewrite length_replicate|done|done].
    - intros n [[[[[l wr] e] buf] fd'] f'] s' (d & _ & -> & _). lia.
    - intros n st s' Hst. eapply wp_mono; [eapply (wp_write_round w img); [lia|done|exact Hst]|]. by intros [x|[st'|fd']] s2. }
  intros [x|fd2] s2; [done|]. intros (Hfit & Hfd2 & Hs2). apply xwp_pwp.
  eapply pwp_close; [exact Hs2|exact Hfd2|]. by intros s3 Hs3.
Qed.

(** ** The command line *)

(** What is in the partition after the options [-e] for it. *)
Definition after_e (l : list string) (w : bytes) : bytes :=
  match l with [] => w | _ => replicate (length w) 0xff end.

Lemma after_e_length l w : length (after_e l w) = length w.
Proof. destruct l; [done|]. apply length_replicate. Qed.

Lemma pwp_erase_all l w s u Q :
  closed w s → Forall (eq name) l → (∀ s' u', closed (after_e l w) s' → Q u' s') →
  pwp (erase_all m l name u) Q s.
Proof.
  intros Hs Hl. revert w s u Hs Q. induction Hl as [|x l <- Hl IH]; intros w s u Hs Q HQ; cbn [erase_all].
  - by apply pwp_ret, HQ.
  - apply pwp_bind. eapply pwp_mtd_unlock; [exact Hs|]. intros s1 Hs1.
    apply pwp_bind. eapply pwp_mtd_erase; [exact Hs1|]. intros s2 Hs2.
    eapply IH; [exact Hs2|]. intros s3 u3 Hs3. apply HQ.
    destruct l; [done|]. cbn [after_e] in Hs3 |- *. by rewrite length_replicate in Hs3.
Qed.

(** The options have been read. *)
Definition parsed (opts : list opt) (o : options) : Prop :=
  ∀ s : mtd_core D, parse_opts opts no_options s = Ret (inr o, s).

Lemma pwp_parsed opts o s Q : parsed opts o → Q o s → pwp (parse_opts opts no_options) Q s.
Proof. intros Hp HQ. exists o, s. by split. Qed.

Lemma pwp_unlock_rest (u : bool) w s Q :
  closed w s → (∀ s', closed w s' → Q 0 s') → pwp (if u then mret 0 else mtd_unlock m name) Q s.
Proof. intros Hs HQ. destruct u; [by apply pwp_ret, HQ|by eapply pwp_mtd_unlock]. Qed.

Lemma wp_main_write opts o image f w s (Q : Z + Z * bool → mtd_core D → Prop) :
  closed w s → parsed opts o → Forall (eq name) (o_erase o) → image ≠ "-"%string → file_open image = Some f →
  let len := if o_len o =? 0 then file_size image else o_len o in
  (∀ s', closed (after_e (o_erase o) w) s' →
     wp (mtd_write m (o_check o) f (o_offset o) len name)
        (λ r, Q (match r with inl n => inl n | inr _ => inr (0, o_boot o) end)) s') →
  wp (main m opts ["write"%string; image; name]) Q s.
Proof.
  intros Hs Hp Hl Him Hopen len HQ. unfold main. apply xwp_pwp_bind, (pwp_parsed _ o); [done|].
  cbn [length Nat.ltb Nat.leb lookup list_lookup default from_option id]. fold len. apply xwp_pwp_bind.
  cbn [parse_cmd]. rewrite bool_decide_true, bool_decide_false, Hopen by done.
  apply pwp_bind, pwp_ret, pwp_bind, pwp_sys. eapply wp_mtd_check; [exact Hs|]. intros s1 Hs1.
  change (1 =? 0) with false. cbn iota. apply pwp_ret.
  apply xwp_pwp_bind. eapply pwp_erase_all; [exact Hs1|done|]. intros s2 u Hs2.
  apply xwp_pwp_bind. eapply pwp_unlock_rest; [exact Hs2|]. intros s3 Hs3.
  apply xwp_bind. eapply wp_mono; [by apply HQ|]. intros [n|x] s4 HQ4; [done|]. by apply xwp_pwp, pwp_ret.
Qed.

Lemma pwp_main_erase opts o w s Q :
  closed w s → parsed opts o → Forall (eq name) (o_erase o) →
  (∀ s', closed (replicate (length w) 0xff) s' → Q (0, o_boot o) s') →
  pwp (main m opts ["erase"%string; name]) Q s.
Proof.
  intros Hs Hp Hl HQ. unfold main. apply pwp_bind, (pwp_parsed _ o); [done|].
  cbn [length Nat.ltb Nat.leb]. apply pwp_bind, pwp_ret.
  apply pwp_bind. eapply pwp_erase_all; [exact Hs|done|]. intros s2 u Hs2.
  apply pwp_bind. eapply pwp_unlock_rest; [exact Hs2|]. intros s3 Hs3.
  apply pwp_bind. eapply pwp_mtd_erase; [exact Hs3|]. intros s4 Hs4. rewrite after_e_length in Hs4. by apply pwp_ret, HQ.
Qed.

End MtdToolFacts.
