(* ===== verification/MtdToolProps.v ===== *)
(** Properties of the flash writer [MtdTool]: what is in a partition after [mtd]
    has erased it or written an image to it, what is left of it when the image is too
    large, and a firmware upgrade from power on down to the SPI flash. *)

From S2P Require Import Prelude Flash FlashProps Io Mtdpart RaMtd Raspi SpiChip RaspiWrite.
From S2P Require Import MtdpartSpec RaMtdProps RaspiProps MtdChar MtdTool MtdToolFacts.
From stdpp Require Import pretty.
#[global] Open Scope Z_scope.
#[global] Open Scope fw_scope.

(** * The kernel's partition on the SPI flash *)

Lemma round_up_le es n size : 0 < es → size mod es = 0 → 0 ≤ n ≤ size → n ≤ round_up es n ≤ size.
Proof.
  intros Hes Hal Hn. unfold round_up. pose proof (Z.div_mod (n + es - 1) es). pose proof (Z.mod_pos_bound (n + es - 1) es).
  split; [nia|]. pose proof (Z.div_mod size es) as Hs. rewrite Hal in Hs.
  assert ((n + es - 1) / es ≤ size / es); [|nia].
  apply Z.lt_succ_r, Z.div_lt_upper_bound; [done|]. lia.
Qed.

(** What is written to a window of the flash is written to the flash. *)
Lemma splice_flashed mem off size d e :
  (length d ≤ e ≤ size)%nat → (off + size ≤ length mem)%nat →
  splice mem off (flashed (take size (drop off mem)) d e) = splice mem off (d ++ replicate (e - length d) 0xff).
Proof.
  intros Hd Hm. unfold splice, flashed. rewrite <-!app_assoc. do 3 f_equal.
  rewrite !length_app, !length_replicate, length_drop, length_take, length_drop.
  apply list_eq. intros i. rewrite lookup_drop.
  destruct (decide (i < size - e)%nat) as [Hi|Hi].
  - rewrite lookup_app_l by (rewrite length_drop, length_take, length_drop; lia).
    rewrite lookup_drop, lookup_take_lt, lookup_drop by lia. f_equal. lia.
  - rewrite lookup_app_r by (rewrite length_drop, length_take, length_drop; lia).
    rewrite length_drop, length_take, length_drop, lookup_drop. f_equal. lia.
Qed.

Section Kernel.
Context {HW : Type} `{SpiFlash HW} `{DevNodes}.

Definition kernel_size (ch : chip_info) : Z := Z.min 0xfb0000 (flash_bytes ch - 0x50000).
Definition kernel_part (ch : chip_info) : mtd_part := made_part true 0 4 ("Kernel"%string, 0x50000, kernel_size ch).

(** [/proc/mtd] has the name in the line of device 4 only. *)
Lemma kernel_scan (d : raspi HW) ch :
  ch ∈ chips_data →
  scan_proc "Kernel" (mtd_read_proc (slaves (layer d (layout (flash_bytes ch))))
                        (mtd_table (layer d (layout (flash_bytes ch))))) = Some (Z.of_nat 4).
Proof.
  intros Hch. destruct (chips_sizes ch Hch) as [Hs Hn]. unfold flash_bytes. rewrite Hs.
  rewrite !elem_of_cons, elem_of_nil in Hn.
  destruct Hn as [-> | [-> | [-> | [-> | [-> | []]]]]]; by vm_compute.
Qed.

Lemma kernel_named (d : raspi HW) ch mem :
  ch ∈ chips_data → has_node 4 → nm_state (raspi_mtd_info ch) mem d →
  let s := layer d (layout (flash_bytes ch)) in
  named (raspi_mtd_info ch) (slaves s) (mtd_table s) 4 (kernel_part ch) "Kernel" 4 ∧
  holds (raspi_mtd_info ch) (slaves s) (mtd_table s) 4 (kernel_part ch) mem (window (kernel_part ch) mem) s.
Proof.
  intros Hch Hnode Hnm s.
  pose proof (layout_device ch mem d 4 "Kernel" 0x50000 (kernel_size ch) Hnm Hch eq_refl) as [_ Hc].
  assert (aligned (raspi_mtd_info ch) (kernel_size ch)) as Hal.
  { unfold aligned. replace (mtd_erasesize (raspi_mtd_info ch)) with 65536.
    - by eapply (layout_sizes ch 4 "Kernel" 0x50000).
    - destruct (chips_geometry ch Hch) as (Hss & _). cbn. by rewrite Hss. }
  split; [|by apply holds_intro]. split; [|done|unfold MAX_MTD_DEVICES; lia|done|done|done|done|exact Hal].
  rewrite insert_id by (apply Hc). by apply kernel_scan.
Qed.
End Kernel.

(** * Properties *)

Section Properties.
Context {D F : Type} `{NorMaster D} `{Malloc} `{DevNodes} `{FilesOk F}.
Implicit Types (s : mtd_core D).

(** C16. [mtd write] on a partition of any NOR flash: when the image fits, whatever the
    flash held and however the reads of the image are cut, the program ends with
    success, asks for a reboot if told to, and has left in the partition the image, then erased
    bytes up to the end of its last block, then what was there; the device is
    closed, and no other byte of the flash has changed. *)
Theorem mtd_tool_installs m h t ptr part base name k opts o image f w s :
  malloc_never_fails → named m h t ptr part name k → holds m h t ptr part base w s →
  parsed (D := D) opts o → Forall (eq name) (o_erase o) → image ≠ "-"%string → file_open image = Some f →
  let len := if o_len o =? 0 then file_size image else o_len o in
  0 ≤ len < 2 ^ 31 →
  let img := take (Z.to_nat len) (img_data (img_lseek (o_offset o) f)) in
  Z.of_nat (length img) ≤ mtd_size (part_mtd part) →
  ∃ s', main m opts ["write"%string; image; name] s = Ret (inr (0, o_boot o), s') ∧
    holds m h t ptr part base
      (flashed (after_e (o_erase o) w) img (Z.to_nat (round_up (mtd_erasesize m) (Z.of_nat (length img))))) s'.
Proof.
  intros HM Hnd Hs Hp Hl Him Hopen len Hlen img Himg.
  destruct (wp_main_write (F := F) HM m h t ptr part base name k Hnd opts o image f w s (λ r s', r = inr (0, o_boot o) ∧
    holds m h t ptr part base (flashed (after_e (o_erase o) w) img
      (Z.to_nat (round_up (mtd_erasesize m) (Z.of_nat (length img))))) s')) as (r & s' & E & -> & Hs'); [done..| |eauto].
  intros s1 Hs1. eapply wp_mono; [by eapply wp_mtd_write|]. fold len. fold img.
  intros [x|x] s2; [|by intros (_ & _ & Hs2)]. intros (_ & Hover & _). fold len in Hover. fold img in Hover. lia.
Qed.

(** C17. [mtd write] of an image that is too large for the partition is noticed when
    it is too late: the program ends with status 1 after it has erased the whole
    partition and written as much of the beginning of the image as fits. *)
Theorem mtd_tool_too_large m h t ptr part base name k opts o image f w s :
  malloc_never_fails → named m h t ptr part name k → holds m h t ptr part base w s →
  parsed (D := D) opts o → Forall (eq name) (o_erase o) → image ≠ "-"%string → file_open image = Some f →
  let len := if o_len o =? 0 then file_size image else o_len o in
  0 ≤ len < 2 ^ 31 →
  let img := take (Z.to_nat len) (img_data (img_lseek (o_offset o) f)) in
  mtd_size (part_mtd part) < Z.of_nat (length img) →
  ∃ s' d, main m opts ["write"%string; image; name] s = Ret (inl 1, s') ∧ d `prefix_of` img ∧
    holds m h t ptr (used (mtd_usecount (part_mtd part) + 1) part) base
      (d ++ replicate (length w - length d) 0xff) s'.
Proof.
  intros HM Hnd Hs Hp Hl Him Hopen len Hlen img Himg.
  pose proof (hd_window _ _ _ _ _ _ _ _ Hs) as Hlw.
  destruct (wp_main_write (F := F) HM m h t ptr part base name k Hnd opts o image f w s (λ r s', r = inl 1 ∧
    overrun m h t ptr part base (after_e (o_erase o) w) img s')) as (r & s' & E & -> & _ & d & Hd & Hds & Hs'); [done..| |].
  { intros s1 Hs1. eapply wp_mono; [by eapply wp_mtd_write|]. fold len. fold img.
    intros [x|x] s2; [by intros [-> Hx]|]. intros (_ & Hfit & _). fold len in Hfit. fold img in Hfit. lia. }
  exists s', d. split; [done|]. split; [done|]. unfold flashed in Hs'.
  rewrite <-Hlw, drop_ge, app_nil_r in Hs' by (rewrite after_e_length; lia). exact Hs'.
Qed.

(** C38. [mtd erase] erases the whole partition and nothing else. *)
Theorem mtd_tool_erases m h t ptr part base name k opts o w s :
  malloc_never_fails → named m h t ptr part name k → holds m h t ptr part base w s →
  parsed (D := D) opts o → Forall (eq name) (o_erase o) →
  ∃ s', main m opts ["erase"%string; name] s = Ret (inr (0, o_boot o), s') ∧
    holds m h t ptr part base (replicate (length w) 0xff) s'.
Proof.
  intros HM Hnd Hs Hp Hl.
  destruct (pwp_main_erase (F := F) HM m h t ptr part base name k Hnd opts o w s (λ r s', r = (0, o_boot o) ∧
    holds m h t ptr part base (replicate (length w) 0xff) s')) as (r & s' & E & -> & Hs'); [done..|by intros s' Hs'|].
  eauto.
Qed.
End Properties.

Section Upgrade.
Context {HW F : Type} `{SpiFlash HW} `{Malloc} `{Kzalloc} `{DevNodes} `{FilesOk F}.

(** C6. A firmware upgrade, from power on to the cells of the chip: on every chip of
    the table, after the probe, [mtd write <image> Kernel] succeeds with every image
    that fits behind the first five blocks, and the flash then holds the image from
    0x50000 on, erased bytes up to the end of the image's last block, and everywhere
    else - boot loader, configuration, calibration - what it held before; the
    device table and the partitions are as the probe has left them. *)
Theorem firmware_upgrade_installs ch mem sysclk opts o image f (s : raspi HW) :
  cold ch mem s → ch ∈ chips_data → sysclk_ok sysclk → malloc_never_fails →
  (∀ n, kzalloc_ok n = true) → bytes_ok mem → Z.of_nat (length mem) = flash_bytes ch → has_node 4 →
  parsed (D := raspi HW) opts o → o_erase o = [] → image ≠ "-"%string → file_open image = Some f →
  let len := if o_len o =? 0 then file_size image else o_len o in
  0 ≤ len < 2 ^ 31 →
  let img := take (Z.to_nat len) (img_data (img_lseek (o_offset o) f)) in
  Z.of_nat (length img) ≤ Z.min 0xfb0000 (flash_bytes ch - 0x50000) →
  ∃ s1 s2, raspi_prob sysclk (no_devices s) = Ret (0, s1) ∧
    main (raspi_mtd_info ch) opts ["write"%string; image; "Kernel"%string] s1 = Ret (inr (0, o_boot o), s2) ∧
    nm_state (raspi_mtd_info ch)
      (splice mem (Z.to_nat 0x50000)
         (img ++ replicate (Z.to_nat (round_up 65536 (Z.of_nat (length img))) - length img) 0xff)) (drv s2) ∧
    slaves s2 = slaves s1 ∧ mtd_table s2 = mtd_table s1.
Proof.
  intros Hcold Hch Hclk HM Hk Hok Hlen Hnode Hp He Him Hopen len Hl img Himg.
  destruct (raspi_prob_state ch mem sysclk s) as (d & Hprob & Hnm); [done..|apply HM|done|done|done|].
  destruct (kernel_named d ch mem Hch Hnode Hnm) as [Hnd Hh].
  set (m := raspi_mtd_info ch) in *. set (s1 := layer d (layout (flash_bytes ch))) in *.
  assert (mtd_erasesize m = 65536) as Hes by (destruct (chips_geometry ch Hch) as (Hss & _); cbn; by rewrite Hss).
  assert (mtd_size (part_mtd (kernel_part ch)) = kernel_size ch) as Hksz by done.
  destruct (wp_main_write (F := F) HM m _ _ _ _ _ _ _ Hnd opts o image f _ s1 (λ r s', r = inr (0, o_boot o) ∧
    holds m (slaves s1) (mtd_table s1) 4 (kernel_part ch) mem (flashed (window (kernel_part ch) mem) img
      (Z.to_nat (round_up (mtd_erasesize m) (Z.of_nat (length img))))) s') Hh) as (r & s2 & E & -> & Hs2); [done|by rewrite He|done..| |].
  { rewrite He. intros s3 Hs3. eapply wp_mono; [by eapply wp_mtd_write|]. fold len. fold img.
    intros [x|x] s4; [|by intros (_ & _ & Hs4)].
    intros (_ & Hover & _). fold len in Hover. fold img in Hover. rewrite Hksz in Hover. unfold kernel_size in Hover. lia. }
  exists s1, s2. split; [done|]. split; [exact E|]. pose proof (hd_slaves _ _ _ _ _ _ _ _ Hs2) as Hsl.
  split; [|split; [|apply Hs2]].
  - pose proof (hd_flash _ _ _ _ _ _ _ _ Hs2) as Hf. rewrite Hes in Hf. unfold window in Hf. rewrite Hksz in Hf.
    change (part_offset (kernel_part ch)) with 0x50000 in Hf. rewrite splice_flashed in Hf; [exact Hf| |].
    + pose proof (round_up_le 65536 (Z.of_nat (length img)) (kernel_size ch)) as Hr.
      ospecialize* Hr; [done|by eapply (layout_sizes ch 4 "Kernel" 0x50000)|unfold kernel_size; lia|lia].
    + destruct (chips_geometry ch Hch) as (Hss & Hn & _). unfold kernel_size, flash_bytes in *. rewrite Hss in *. lia.
  - rewrite Hsl. apply insert_id. rewrite <-(insert_id (slaves s1) 4%nat (kernel_part ch)) at 1; [by rewrite lookup_insert_eq|].
    by apply (layer_lookup d (layout (flash_bytes ch)) 4).
Qed.
End Upgrade.

(** * Concrete runs *)

Section Runs.
#[local] Existing Instance kzalloc_total.
#[local] Instance malloc_total : Malloc := λ _, true.
#[local] Instance demo_nodes : DevNodes := λ p, if bool_decide (p = "/dev/mtd4"%string) then Some 8 else None.

(** Files with a position, that are read in pieces of at most 700 bytes; [fw.bin] has
    3000 bytes, [big.bin] 4 MB. *)
Definition demo_image : bytes := Z.of_nat <$> seq 0 3000.
Definition big_image : bytes := replicate (Z.to_nat 0x400000) 0.
#[local] Instance demo_files : Files (bytes * nat) := {|
  file_open p :=
    if bool_decide (p = "fw.bin"%string) then Some (demo_image, 0%nat)
    else if bool_decide (p = "big.bin"%string) then Some (big_image, 0%nat) else None;
  file_size p :=
    if bool_decide (p = "fw.bin"%string) then 3000 else if bool_decide (p = "big.bin"%string) then 0x400000 else -1;
  stdin := ([], 0%nat);
  img_read n f := (Some (take (Z.to_nat n `min` 700) (drop f.2 (u8 <$> f.1))), (f.1, f.2 + (Z.to_nat n `min` 700))%nat);
  img_lseek off f := (f.1, Z.to_nat off)
|}.
#[local] Program Instance demo_files_ok : FilesOk (bytes * nat) := {| img_data f := drop f.2 (u8 <$> f.1) |}.
Next Obligation.
  intros f. apply bytes_ok_drop, Forall_fmap, Forall_true. intros b. apply Z.mod_pos_bound. done.
Qed.
Next Obligation.
  intros n f Hn. exists (Z.to_nat n `min` 700)%nat, (f.1, f.2 + (Z.to_nat n `min` 700))%nat.
  split; [done|]. split; [cbn; by rewrite drop_drop|]. lia.
Qed.

Lemma demo_node : has_node 4.
Proof. right. by vm_compute. Qed.

(** The chip of 4 MB, erased, after the probe. *)
Lemma demo_ready :
  let m := raspi_mtd_info W25Q32BV in let s := ready_layer W25Q32BV in
  named m (slaves s) (mtd_table s) 4 (kernel_part W25Q32BV) "Kernel" 4 ∧
  holds m (slaves s) (mtd_table s) 4 (kernel_part W25Q32BV) (erased W25Q32BV)
    (window (kernel_part W25Q32BV) (erased W25Q32BV)) s.
Proof.
  apply kernel_named; [apply W25Q32BV_listed|apply demo_node|].
  apply probed_state; [apply W25Q32BV_listed|apply erased_ok|apply erased_length, W25Q32BV_listed].
Qed.

Definition demo_options (l : Z) : options :=
  {| o_boot := true; o_check := 1; o_erase := []; o_offset := 0; o_len := l |}.

Lemma mtd_tool_installs_witness :
  ∃ s' w', main (raspi_mtd_info W25Q32BV) [OptR] ["write"; "fw.bin"; "Kernel"]%string (ready_layer W25Q32BV) =
      Ret (inr (0, true), s') ∧
    holds (raspi_mtd_info W25Q32BV) (slaves (ready_layer W25Q32BV)) (mtd_table (ready_layer W25Q32BV)) 4
      (kernel_part W25Q32BV) (erased W25Q32BV) w' s'.
Proof.
  destruct demo_ready as [Hnd Hh].
  destruct (mtd_tool_installs (raspi_mtd_info W25Q32BV) _ _ _ _ _ _ _ [OptR] (demo_options 0) "fw.bin"
    (demo_image, 0%nat) _ _ (λ _, eq_refl) Hnd Hh) as (s' & E & Hs');
    [done|by apply Forall_nil|done|done|done| |exists s'; eexists; split; [exact E|exact Hs']].
  rewrite length_take. etransitivity; [apply Nat2Z.inj_le, Nat.le_min_l|]. done.
Defined.

Lemma big_image_length n :
  n = 0x400000 → 0x3b0000 < Z.of_nat (length (take (Z.to_nat n) (drop 0 (u8 <$> big_image)))).
Proof.
  intros ->. unfold big_image. generalize (Z2Nat.id 0x400000 ltac:(done)). generalize (Z.to_nat 0x400000).
  intros n Hn. rewrite drop_0, length_take, length_fmap, length_replicate, Nat.min_id, Hn. done.
Qed.

Lemma mtd_tool_too_large_witness :
  ∃ s' w, main (raspi_mtd_info W25Q32BV) [OptR] ["write"; "big.bin"; "Kernel"]%string (ready_layer W25Q32BV) =
      Ret (inl 1, s') ∧
    holds (raspi_mtd_info W25Q32BV) (slaves (ready_layer W25Q32BV)) (mtd_table (ready_layer W25Q32BV)) 4
      (used 1 (kernel_part W25Q32BV)) (erased W25Q32BV) w s'.
Proof.
  destruct demo_ready as [Hnd Hh].
  destruct (mtd_tool_too_large (raspi_mtd_info W25Q32BV) _ _ _ _ _ _ _ [OptR] (demo_options 0) "big.bin"
    (big_image, 0%nat) _ _ (λ _, eq_refl) Hnd Hh) as (s' & d & E & _ & Hs');
    [done|by apply Forall_nil|done|exact eq_refl|done| |exists s'; eexists; split; [exact E|exact Hs']].
  apply big_image_length. exact eq_refl.
Defined.

Lemma mtd_tool_erases_witness :
  ∃ s' w, main (raspi_mtd_info W25Q32BV) [OptE "Kernel"; OptW]%string ["erase"; "Kernel"]%string (ready_layer W25Q32BV) =
      Ret (inr (0, false), s') ∧
    holds (raspi_mtd_info W25Q32BV) (slaves (ready_layer W25Q32BV)) (mtd_table (ready_layer W25Q32BV)) 4
      (kernel_part W25Q32BV) (erased W25Q32BV) (replicate w 0xff) s'.
Proof.
  destruct demo_ready as [Hnd Hh].
  destruct (mtd_tool_erases (F := bytes * nat) (raspi_mtd_info W25Q32BV) _ _ _ _ _ _ _ [OptE "Kernel"; OptW]
    {| o_boot := false; o_check := 2; o_erase := ["Kernel"%string]; o_offset := 0; o_len := 0 |} _ _
    (λ _, eq_refl) Hnd Hh) as (s' & E & Hs');
    [done|by repeat constructor|exists s'; eexists; split; [exact E|exact Hs']].
Defined.

Lemma firmware_upgrade_installs_witness :
  ∃ s1 s2, raspi_prob 120000000 (no_devices (power_on W25Q32BV (erased W25Q32BV))) = Ret (0, s1) ∧
    main (raspi_mtd_info W25Q32BV) [OptR; OptL 2048] ["write"; "fw.bin"; "Kernel"]%string s1 = Ret (inr (0, true), s2) ∧
    mtd_table s2 = mtd_table s1.
Proof.
  destruct (firmware_upgrade_installs W25Q32BV (erased W25Q32BV) 120000000 [OptR; OptL 2048] (demo_options 2048)
    "fw.bin" (demo_image, 0%nat) (power_on W25Q32BV (erased W25Q32BV))) as (s1 & s2 & Hp & Hm & _ & _ & Ht);
    [apply power_on_cold|apply W25Q32BV_listed|by split|done|done|apply erased_ok|apply erased_length, W25Q32BV_listed
    |apply demo_node|done|done|done|done|done| |exists s1, s2; split; [exact Hp|split; [exact Hm|exact Ht]]].
  rewrite length_take. etransitivity; [apply Nat2Z.inj_le, Nat.le_min_l|]. done.
Defined.

(** A device whose second write fails: an image of two equal chunks is reported as
    written, and half of it is not there. *)
#[local] Instance weak_flash : MtdMaster (nat * bytes) := {|
  drv_read from len retlen buf := λ '(n, mem),
    Ret (0, put_len retlen len, take (Z.to_nat len) (drop (Z.to_nat from) mem) ++ drop (Z.to_nat len) buf, (n, mem));
  drv_write to len retlen data := λ '(n, mem),
    if (n =? 1)%nat then Ret (- EIO, retlen, (S n, mem))
    else Ret (0, put_len retlen len, (S n, nor_program mem (Z.to_nat to) (take (Z.to_nat len) data)));
  drv_erase cb m instr := λ '(n, mem),
    Ret (0, cb (instr ⦃ ei_state := MTD_ERASE_DONE ⦄),
         (n, nor_erase_range mem (Z.to_nat (ei_addr instr)) (Z.to_nat (ei_len instr))));
  drv_lock _ _ := mret 0;
  drv_unlock _ _ := mret 0
|}.
Definition weak_part : mtd_part := made_part true 0 0 ("Weak"%string, 0, 0x1000).
Definition weak_start : mtd_core (nat * bytes) :=
  mk_core (0%nat, uninit 0x1000) {[ 0%nat := weak_part ⦃ part_mtd := (part_mtd weak_part) ⦃ mtd_erasesize := 0x1000 ⦄ ⦄ ]}
    1 [0%nat] (Some 0%nat :: replicate 31 None).
#[local] Instance weak_nodes : DevNodes := λ p, if bool_decide (p = "/dev/mtd0"%string) then Some 0 else None.

Example mtd_write_unseen :
  match mtd_write (D := nat * bytes) (F := bytes * nat)
          ((part_mtd weak_part) ⦃ mtd_erasesize := 0x1000 ⦄) 1 (replicate 1400 7, 0%nat) 0 1400 "Weak" weak_start with
  | Ret (r, s) => r = inr 0 ∧ (drv s).2 = replicate 700 7 ++ replicate 3396 0xff
  | _ => False
  end.
Proof. by vm_compute. Qed.
End Runs.
