(* ===== verification/KernelNvram.v ===== *)
(** The NVRAM driver of the kernel ([arch/mips/rt2880/nvram.c] and
    [nvram.h]): named variables kept in four blocks of the Config flash
    partition, cached in memory, written back with a CRC.

    A C string is the list of its bytes without the terminator.  The cache
    array is the list of its entries in use (the entries behind them are NULL);
    [kstrdup] is taken to succeed.  Each handler runs under [nvram_sem], so
    handlers are atomic.  Pointers into a block's data are offsets, and every
    access to the data is checked. *)

From S2P Require Import Prelude Md5 Crc32 Flash.

(** * Data *)

Definition ENV_BLK_SIZE : nat := Z.to_nat 0x1000.
Definition FLASH_BLOCK_NUM : nat := 4.
Definition MAX_CACHE_ENTRY : nat := 500.
Definition MAX_VALUE_LEN : nat := (ENV_BLK_SIZE * 5)%nat.
Definition EINVAL : Z := 22.
Definition EFAULT : Z := 14.

Definition cache_t : Type := bytes * bytes.

Record block_t := mk_block {
  block_name : bytes;
  env_crc : Z;
  env_data : option bytes;
  cache : list cache_t;
  flash_offset : nat;
  flash_max_len : nat;
  valid : bool;
  dirty : bool
}.
#[export] Instance eta_block : Eta block_t := λ b,
  mk_block (block_name b) (env_crc b) (env_data b) (cache b) (flash_offset b)
    (flash_max_len b) (valid b) (dirty b).

Definition sizeof_crc : nat := 4.
Definition data_len (b : block_t) : nat := (flash_max_len b - sizeof_crc)%nat.

Definition new_block (name : bytes) (offset max_len : nat) : block_t :=
  mk_block name 0 None [] offset max_len false false.

(** The initial contents of [fb]. *)
Definition fb_init : list block_t :=
  [ new_block [0x32; 0x38; 0x36; 0x30] (Z.to_nat 0x2000) (ENV_BLK_SIZE * 4);
    new_block [0x72; 0x74; 0x64; 0x65; 0x76] (Z.to_nat 0x6000) (ENV_BLK_SIZE * 2);
    new_block [0x63; 0x65; 0x72; 0x74] (Z.to_nat 0x8000) (ENV_BLK_SIZE * 2);
    new_block [0x77; 0x61; 0x70; 0x69] (Z.to_nat 0xa000) (ENV_BLK_SIZE * 5) ].

(** The driver's globals and the flash. *)
Record kstate (D : Type) := mk_kstate { fb : list block_t; counter : Z; kdev : D }.
Arguments mk_kstate {D}.
Arguments fb {D}.
Arguments counter {D}.
Arguments kdev {D}.
#[export] Instance eta_kstate D : Eta (kstate D) := λ k, mk_kstate (fb k) (counter k) (kdev k).

(** * Strings in a buffer *)

Definition EQUALS : Z := 61.

(** [strchr(p, c)]: the distance to the first [c], or NULL at the terminator;
    running off the buffer is [Oob]. *)
Fixpoint strchr (l : bytes) (c : Z) : outcome (option nat) :=
  match l with
  | [] => Oob
  | b :: l =>
      if b =? c then Ret (Some 0%nat)
      else if b =? 0 then Ret None
      else let* r := strchr l c in Ret (S <$> r)
  end.

(** The C string at the head of [l]: what [strdup] copies. *)
Fixpoint cstr (l : bytes) : outcome bytes :=
  match l with
  | [] => Oob
  | b :: l => if b =? 0 then Ret [] else let* r := cstr l in Ret (b :: r)
  end.

(** * Parsing and building a block *)

(** The loop that parses the data into the cache, from offset [p] on; the
    data is changed on the way ([*q = '\0']). *)
Fixpoint parse_env (n : nat) (data : bytes) (p : nat) : outcome (bytes * list cache_t) :=
  match n with
  | O => Ret (data, [])
  | S n =>
      let* q := strchr (drop p data) EQUALS in
      match q with
      | None => Ret (data, [])
      | Some d =>
          let q := (p + d)%nat in
          let* data := store data q [0] in
          let* name := cstr (drop p data) in
          let p := (q + 1)%nat in
          let* q := strchr (drop p data) 0 in
          match q with
          | None => Ret (data, [])
          | Some d =>
              let* value := cstr (drop p data) in
              let p := (p + d + 1)%nat in
              if decide (length data ≤ p + 1)%nat then Ret (data, [(name, value)])
              else
                let* b := load data p 1 in
                if idx b 0 =? 0 then Ret (data, [(name, value)])
                else
                  let* (data, rest) := parse_env n data p in
                  Ret (data, (name, value) :: rest)
          end
      end
  end.

(** The loop that prints the cache into the zeroed data, [false] when it finds
    the block too small; then the ending NUL.  [snprintf(p, l, "%s=%s")]
    stores [l] bytes, the terminator included. *)
Fixpoint build_env (max_len : nat) (entries : list cache_t) (data : bytes) (p : nat) :
    outcome (bytes * bool) :=
  match entries with
  | [] => let* data := store data p [0] in Ret (data, true)
  | (name, value) :: entries =>
      let l := (length name + length value + 2)%nat in
      if decide (max_len ≤ p + 2)%nat then Ret (data, false)
      else
        let* data := store data p (name ++ [EQUALS] ++ value ++ [0]) in
        build_env max_len entries data (p + l)
  end.

Definition find_idx (name : bytes) (entries : list cache_t) : option nat :=
  fst <$> list_find (λ e, e.1 = name) entries.

Section Driver.
Context {D : Type} `{Mtd D} `{Malloc}.
Implicit Types k : kstate D.

Definition set_block k (index : nat) (b : block_t) : kstate D :=
  k ⦃ fb := <[index := b]> (fb k) ⦄.

(** [RANV_CHECK_INDEX] *)
Definition check_index (index : Z) : bool := (0 <=? index) && (index <? Z.of_nat FLASH_BLOCK_NUM).

Definition block_at k (index : Z) : outcome block_t :=
  if check_index index
  then match fb k !! Z.to_nat index with Some b => Ret b | None => Oob end
  else Oob.

(** [kmalloc] of the data buffer, unless there is one. *)
Definition ensure_data (b : block_t) : option block_t :=
  match env_data b with
  | Some _ => Some b
  | None =>
      if malloc_ok (Z.of_nat (data_len b))
      then Some (b ⦃ env_data := Some (uninit (data_len b)) ⦄) else None
  end.

Definition init_nvram_block (index : Z) k : outcome (kstate D * Z) :=
  if negb (check_index index) then Ret (k, -1)
  else
    let i := Z.to_nat index in
    let* b := block_at k index in
    if valid b then Ret (k, - EINVAL)
    else
      let '(r, crcb) := ra_mtd_read_nm (kdev k) (flash_offset b) sizeof_crc in
      let b := b ⦃ env_crc := if r =? 0 then of_le crcb else env_crc b ⦄ in
      let from := (flash_offset b + sizeof_crc)%nat in
      let len := data_len b in
      if negb (malloc_ok (Z.of_nat len)) then Ret (set_block k i (b ⦃ env_data := None ⦄), - ENOMEM)
      else
        let '(r, datab) := ra_mtd_read_nm (kdev k) from len in
        let data := if r =? 0 then datab else uninit len in
        if negb (nv_crc32 0 data =? env_crc b) then
          let b := b ⦃ env_data := Some (replicate len 0) ⦄ in
          let b := b ⦃ valid := true ⦄ ⦃ dirty := false ⦄ in
          Ret (set_block k i b, -1)
        else
          let* (data, entries) := parse_env MAX_CACHE_ENTRY data 0 in
          let b := b ⦃ env_data := Some data ⦄ in
          let b := b ⦃ cache := entries ++ drop (length entries) (cache b) ⦄ in
          let b := b ⦃ valid := true ⦄ ⦃ dirty := false ⦄ in
          Ret (set_block k i b, 0).

(** [RANV_CHECK_VALID] *)
Definition check_valid (index : Z) k : outcome (kstate D) :=
  let* b := block_at k index in
  if valid b then Ret k else let* (k, _) := init_nvram_block index k in Ret k.

Definition ra_nvram_close (index : Z) k : outcome (kstate D * Z) :=
  if negb (check_index index) then Ret (k, -1)
  else
    let* b := block_at k index in
    if negb (valid b) then Ret (k, 0)
    else Ret (set_block k (Z.to_nat index) (b ⦃ cache := [] ⦄), 0).

Definition cache_idx (index : Z) (name : bytes) k : outcome (option nat) :=
  let* b := block_at k index in Ret (find_idx name (cache b)).

(** Write the CRC and the data of a block; the return values are ignored. *)
Definition write_block (b : block_t) (data : bytes) k : outcome (kstate D) :=
  let* (_, d) := ra_mtd_write_nm (kdev k) (flash_offset b) (le32 (env_crc b)) in
  let* (_, d) := ra_mtd_write_nm d (flash_offset b + sizeof_crc) data in
  Ret (k ⦃ kdev := d ⦄).

Definition nvram_clear (index : Z) k : outcome (kstate D * Z) :=
  if negb (check_index index) then Ret (k, -1)
  else
    let* (k, _) := ra_nvram_close index k in
    let* b := block_at k index in
    match ensure_data b with
    | None => Ret (k, - ENOMEM)
    | Some b =>
        let data := replicate (data_len b) 0xff in
        let b := b ⦃ env_data := Some data ⦄ ⦃ env_crc := nv_crc32 0 data ⦄ in
        let* k := write_block b data k in
        Ret (set_block k (Z.to_nat index) (b ⦃ dirty := false ⦄), 0)
    end.

Definition bump_counter k : kstate D := k ⦃ counter := u32 (counter k + 1) ⦄.

Definition nvram_commit (index : Z) k : outcome (kstate D * Z) :=
  if negb (check_index index) then Ret (k, -1)
  else
    let* k := check_valid index k in
    let k := bump_counter k in
    let* b := block_at k index in
    if negb (dirty b) then Ret (k, 0)
    else
      match ensure_data b with
      | None => Ret (k, - ENOMEM)
      | Some b =>
          let* (data, fits) := build_env (flash_max_len b) (cache b) (replicate (data_len b) 0) 0 in
          let b := b ⦃ env_data := Some data ⦄ in
          if negb fits then Ret (set_block k (Z.to_nat index) b, -1)
          else
            let b := b ⦃ env_crc := nv_crc32 0 data ⦄ in
            let* k := write_block b data k in
            Ret (set_block k (Z.to_nat index) (b ⦃ dirty := false ⦄), 0)
      end.

Definition nvram_set (index : Z) (name value : bytes) k : outcome (kstate D * Z) :=
  if negb (check_index index) then Ret (k, -1)
  else
    let* k := check_valid index k in
    let k := bump_counter k in
    let* b := block_at k index in
    let* i := cache_idx index name k in
    match i with
    | None =>
        if decide (MAX_CACHE_ENTRY ≤ length (cache b))%nat then Ret (k, -1)
        else Ret (set_block k (Z.to_nat index)
                    (b ⦃ cache := cache b ++ [(name, value)] ⦄ ⦃ dirty := true ⦄), 0)
    | Some i =>
        Ret (set_block k (Z.to_nat index)
               (b ⦃ cache := <[i := (name, value)]> (cache b) ⦄ ⦃ dirty := true ⦄), 0)
    end.

(** [None] is NULL. *)
Definition nvram_get (index : Z) (name : bytes) k : outcome (kstate D * option bytes) :=
  if negb (check_index index) then Ret (k, None)
  else
    let* k := check_valid index k in
    let k := bump_counter k in
    let* b := block_at k index in
    let* i := cache_idx index name k in
    Ret (k, match i with Some i => snd <$> cache b !! i | None => None end).

(** [nvram_getall(index, fb[index].env.data)]: the buffer printed into is the
    block's own data, or NULL when it has none. *)
Definition nvram_getall (index : Z) k : outcome (kstate D * Z) :=
  if negb (check_index index) then Ret (k, -1)
  else
    let* b0 := block_at k index in
    let* k := check_valid index k in
    let* b := block_at k index in
    match ensure_data b with
    | None => Ret (k, - ENOMEM)
    | Some b =>
        if bool_decide (env_data b0 = None) then Oob
        else
          let* (data, fits) := build_env (flash_max_len b) (cache b) (replicate (data_len b) 0) 0 in
          let k := set_block k (Z.to_nat index) (b ⦃ env_data := Some data ⦄) in
          if (fits : bool) then Ret (k, 0) else Ret (k, -1)
    end.

(** * The character device *)

Inductive nvram_ioctl :=
| IOCTL_GET (index : Z) (name : bytes)
| IOCTL_GETALL (index : Z)
| IOCTL_SET (index : Z) (name value : bytes)
| IOCTL_COMMIT (index : Z)
| IOCTL_CLEAR (index : Z).

(** The return value and what is copied to [nvr->value], if anything.  The
    copies themselves are taken to succeed; the value of a SET is copied into
    a buffer of [MAX_VALUE_LEN] bytes whatever its length. *)
Definition ralink_nvram_ioctl (req : nvram_ioctl) k : outcome (kstate D * Z * option bytes) :=
  match req with
  | IOCTL_GET index name =>
      let* (k, p) := nvram_get index name k in
      let p := match p with Some p => p | None => [] end in
      Ret (k, 0, Some (p ++ [0]))
  | IOCTL_GETALL index =>
      let* b := block_at k index in
      let len := data_len b in
      let* (k, r) := nvram_getall index k in
      if r =? 0 then
        let* b := block_at k index in
        match env_data b with
        | Some data => let* out := load data 0 len in Ret (k, 0, Some out)
        | None => Oob
        end
      else Ret (k, 0, None)
  | IOCTL_SET index name value =>
      if negb (malloc_ok (Z.of_nat MAX_VALUE_LEN)) then Ret (k, - ENOMEM, None)
      else if decide (MAX_VALUE_LEN < length value + 1)%nat then Oob
      else let* (k, _) := nvram_set index name value k in Ret (k, 0, None)
  | IOCTL_COMMIT index => let* (k, _) := nvram_commit index k in Ret (k, 0, None)
  | IOCTL_CLEAR index => let* (k, _) := nvram_clear index k in Ret (k, 0, None)
  end.

(** [ra_nvram_init], the device registered: every block in turn; the results
    are ignored. *)
Fixpoint init_blocks (indices : list Z) k : outcome (kstate D) :=
  match indices with
  | [] => Ret k
  | i :: rest => let* (k, _) := init_nvram_block i k in init_blocks rest k
  end.

Definition ra_nvram_init (dev : D) : outcome (kstate D) :=
  init_blocks [0; 1; 2; 3] (mk_kstate fb_init 0 dev).

(** [ra_nvram_exit]: commit what is dirty, empty the caches and invalidate. *)
Fixpoint exit_blocks (indices : list Z) k : outcome (kstate D) :=
  match indices with
  | [] => Ret k
  | i :: rest =>
      let* b := block_at k i in
      let* k := (if dirty b then let* (k, _) := nvram_commit i k in Ret k else Ret k) in
      let* (k, _) := ra_nvram_close i k in
      let* b := block_at k i in
      exit_blocks rest (set_block k (Z.to_nat i) (b ⦃ valid := false ⦄))
  end.

Definition ra_nvram_exit k : outcome (kstate D) := exit_blocks [0; 1; 2; 3] k.

End Driver.
