(* ===== verification/KernelNvramText.v ===== *)
(** The text format of an NVRAM block: what the driver of [KernelNvram] prints
    into a block's data and how it parses it back. *)

From S2P Require Import Prelude Md5 Crc32 Flash FlashProps KernelNvram.

(** * The text format *)

Definition good_value (s : bytes) : Prop := Forall (λ b, byte_ok b ∧ b ≠ 0) s.
Definition good_name (s : bytes) : Prop := Forall (λ b, byte_ok b ∧ b ≠ 0 ∧ b ≠ EQUALS) s.
Definition good_entry (e : cache_t) : Prop := good_name e.1 ∧ good_value e.2.

Definition enc_entry (e : cache_t) : bytes := e.1 ++ [EQUALS] ++ e.2 ++ [0].
Definition enc_env (es : list cache_t) : bytes := concat (map enc_entry es).

Lemma enc_entry_length e : length (enc_entry e) = (length e.1 + length e.2 + 2)%nat.
Proof. unfold enc_entry. rewrite !length_app. cbn. lia. Qed.

Lemma enc_env_cons e es : enc_env (e :: es) = enc_entry e ++ enc_env es.
Proof. done. Qed.

Lemma enc_env_bytes_ok es : Forall good_entry es → bytes_ok (enc_env es).
Proof.
  induction 1 as [|[n v] es [Hn Hv] _ IH]; [constructor|].
  rewrite enc_env_cons, bytes_ok_app. split; [|done]. unfold enc_entry; cbn [fst snd].
  rewrite !bytes_ok_app. unfold good_name, good_value, bytes_ok in *.
  split_and!; [eapply Forall_impl; [|exact Hn]; naive_solver|by repeat constructor| |by repeat constructor].
  eapply Forall_impl; [|exact Hv]; naive_solver.
Qed.

(** ** Printing *)

Lemma build_env_spec max_len es data p :
  (p + length (enc_env es) + 1 ≤ length data)%nat → max_len = (length data + 4)%nat →
  build_env max_len es data p = Ret (splice data p (enc_env es ++ [0]), true).
Proof.
  revert data p. induction es as [|[n v] es IH]; intros data p Hfit Hmax.
  - cbn [build_env]. unfold store. rewrite decide_True by (cbn in *; lia). done.
  - rewrite enc_env_cons, length_app in Hfit. pose proof (enc_entry_length (n, v)) as Hl. cbn [fst snd] in Hl.
    cbn [build_env]. rewrite decide_False by lia.
    change (n ++ [EQUALS] ++ v ++ [0]) with (enc_entry (n, v)). unfold store.
    rewrite decide_True by lia. cbn [mbind outcome_bind].
    rewrite IH by (rewrite ?splice_length; lia). do 2 f_equal. rewrite <-Hl, splice_two.
    + by rewrite app_assoc.
    + rewrite length_app. cbn [length]; lia.
Qed.

(** The data of a block: the entries and zeros. *)
Definition env_image (len : nat) (es : list cache_t) : bytes :=
  enc_env es ++ replicate (len - length (enc_env es)) 0.

Lemma env_image_length len es :
  (length (enc_env es) ≤ len)%nat → length (env_image len es) = len.
Proof. intros. unfold env_image. rewrite length_app, length_replicate. lia. Qed.

Lemma build_env_zero len es :
  (length (enc_env es) + 1 ≤ len)%nat →
  build_env (len + 4) es (replicate len 0) 0 = Ret (env_image len es, true).
Proof.
  intros Hfit. rewrite build_env_spec by (rewrite length_replicate; lia). do 2 f_equal.
  unfold splice, env_image. rewrite take_0, app_nil_l, Nat.add_0_l, drop_replicate, length_app.
  rewrite <-app_assoc. f_equal. cbn [length].
  replace (len - length (enc_env es))%nat with (1 + (len - (length (enc_env es) + 1)))%nat by lia. done.
Qed.

(** ** Parsing *)

Lemma strchr_found s c t :
  Forall (λ b, b ≠ 0 ∧ b ≠ c) s → strchr (s ++ c :: t) c = Ret (Some (length s)).
Proof.
  induction 1 as [|b s [H0 Hc] _ IH]; cbn [strchr app]; [by rewrite Z.eqb_refl|].
  replace (b =? c) with false by lia. replace (b =? 0) with false by lia. by rewrite IH.
Qed.

Lemma cstr_found s t : Forall (λ b, b ≠ 0) s → cstr (s ++ 0 :: t) = Ret s.
Proof.
  induction 1 as [|b s H0 _ IH]; cbn [cstr app]; [done|].
  replace (b =? 0) with false by lia. by rewrite IH.
Qed.

Lemma store_one (pre t : bytes) x y :
  store (pre ++ x :: t) (length pre) [y] = Ret (pre ++ y :: t).
Proof.
  unfold store. rewrite decide_True by (rewrite length_app; cbn; lia). f_equal. unfold splice.
  rewrite take_app_length. f_equal. cbn [length app]. f_equal.
  rewrite drop_app_ge by lia. by replace (length pre + 1 - length pre)%nat with 1%nat by lia.
Qed.

Definition parsed_entry (e : cache_t) : bytes := e.1 ++ [0] ++ e.2 ++ [0].
Definition parsed_env (es : list cache_t) : bytes := concat (map parsed_entry es).

(** The data a block's buffer is left with once it was parsed. *)
Definition parsed_image (len : nat) (es : list cache_t) : bytes :=
  parsed_env es ++ replicate (len - length (enc_env es)) 0.

Lemma load_one (pre t : bytes) x : load (pre ++ x :: t) (length pre) 1 = Ret [x].
Proof.
  unfold load. rewrite decide_True by (rewrite length_app; cbn; lia).
  by rewrite drop_app_length.
Qed.

(** One entry is taken off; what follows it decides how the loop goes on. *)
Lemma parse_env_entry n pre e t :
  good_entry e →
  parse_env (S n) (pre ++ enc_entry e ++ t) (length pre) =
    let pre' := pre ++ parsed_entry e in
    if decide (length t ≤ 1)%nat then Ret (pre' ++ t, [e])
    else if idx t 0 =? 0 then Ret (pre' ++ t, [e])
    else let* (data, rest) := parse_env n (pre' ++ t) (length pre') in Ret (data, e :: rest).
Proof.
  intros [Hn Hv]. destruct e as [nm v]; cbn [fst snd] in *. cbn zeta. cbn [parse_env].
  unfold enc_entry; cbn [fst snd]. rewrite drop_app_length, <-!app_assoc. cbn [app].
  rewrite strchr_found by (eapply Forall_impl; [|exact Hn]; naive_solver).
  cbn [mbind outcome_bind].
  replace (pre ++ nm ++ EQUALS :: v ++ 0 :: t) with ((pre ++ nm) ++ EQUALS :: v ++ 0 :: t)
    by (by rewrite <-app_assoc).
  rewrite <-length_app, store_one. cbn [mbind outcome_bind].
  rewrite <-app_assoc, drop_app_length, cstr_found by (eapply Forall_impl; [|exact Hn]; naive_solver).
  cbn [mbind outcome_bind].
  replace (pre ++ nm ++ 0 :: v ++ 0 :: t) with ((pre ++ nm ++ [0]) ++ v ++ 0 :: t)
    by (by rewrite <-!app_assoc).
  replace (length (pre ++ nm) + 1)%nat with (length (pre ++ nm ++ [0])) by (rewrite !length_app; cbn; lia).
  rewrite drop_app_length, strchr_found by (eapply Forall_impl; [|exact Hv]; naive_solver).
  cbn [mbind outcome_bind].
  rewrite cstr_found by (eapply Forall_impl; [|exact Hv]; naive_solver). cbn [mbind outcome_bind].
  rewrite ?(app_assoc pre (parsed_entry (nm, v)) t). set (pre' := pre ++ parsed_entry (nm, v)).
  replace ((pre ++ nm ++ [0]) ++ v ++ 0 :: t) with (pre' ++ t)
    by (unfold pre', parsed_entry; cbn [fst snd]; by rewrite <-!app_assoc).
  replace (length (pre ++ nm ++ [0%Z]) + length v + 1)%nat with (length pre')
    by (unfold pre', parsed_entry; cbn [fst snd]; rewrite !length_app; cbn; lia).
  destruct (decide (length t ≤ 1)%nat) as [Ht|Ht].
  - rewrite decide_True by (rewrite length_app; lia). done.
  - rewrite decide_False by (rewrite length_app; lia). destruct t as [|x t]; [cbn in Ht; lia|].
    rewrite load_one. done.
Qed.

Lemma idx_enc_env e es t : good_entry e → idx (enc_env (e :: es) ++ t) 0 ≠ 0.
Proof.
  intros [Hn _]. rewrite enc_env_cons. unfold enc_entry. destruct e as [[|x nm] v]; cbn; [done|].
  inversion Hn; naive_solver.
Qed.

Lemma parse_env_enc n es pre z :
  Forall good_entry es → (length es ≤ n)%nat → (1 ≤ z)%nat →
  parse_env n (pre ++ enc_env es ++ replicate z 0) (length pre) =
    Ret (pre ++ parsed_env es ++ replicate z 0, es).
Proof.
  intros Hg. revert n pre. induction Hg as [|e es He Hg IH]; intros n pre Hn Hz.
  - destruct n as [|n]; cbn [parse_env]; [done|].
    cbn [enc_env map concat app]. rewrite drop_app_length. destruct z as [|z]; [lia|]. done.
  - destruct n as [|n]; [cbn in Hn; lia|]. rewrite enc_env_cons, <-app_assoc, parse_env_entry by done.
    cbn zeta. unfold parsed_env; cbn [map concat]; fold (parsed_env es).
    destruct es as [|e' es].
    + cbn [enc_env map concat app parsed_env]. rewrite app_nil_r, <-app_assoc.
      destruct (decide _); [done|]. destruct z as [|z]; [lia|]. done.
    + rewrite decide_False.
      2:{ rewrite enc_env_cons, !length_app, enc_entry_length, length_replicate. lia. }
      inversion Hg; subst. pose proof (idx_enc_env e' es (replicate z 0) ltac:(done)).
      replace (_ =? 0) with false by lia.
      rewrite IH by (cbn in *; lia). cbn [mbind outcome_bind]. by rewrite <-!app_assoc.
Qed.

Lemma parse_env_image n len es :
  Forall good_entry es → (length es ≤ n)%nat → (length (enc_env es) + 1 ≤ len)%nat →
  parse_env n (env_image len es) 0 = Ret (parsed_image len es, es).
Proof. intros. apply (parse_env_enc n es []); [done|done|lia]. Qed.
