(* ===== verification/KernelNvramSpec.v ===== *)
(** What the NVRAM driver promises: an abstract store of named values, per
    block a volatile and a saved map, and the relation of the driver's state
    and the flash to it. *)

From stdpp Require Import gmap.
From S2P Require Import Prelude Md5 Crc32 Flash FlashProps KernelNvram KernelNvramText.

(** * A flash that answers *)

(** Reads, erases and writes within the device succeed. *)
Class ReliableFlash (D : Type) `{NorFlash D} := {
  reliable : D → Prop;
  rel_present d : reliable d → mtd_present d = true;
  rel_read d from n :
    reliable d → (from + n ≤ length (contents d))%nat → ∃ b, mtd_read d from n = inr b;
  rel_erase d size es :
    reliable d → mtd_info d = Some (size, es) → (es ≤ size)%nat →
    ∃ d', mtd_erase d 0 es = inr d' ∧ reliable d';
  rel_write d a b :
    reliable d → (a + length b ≤ length (contents d))%nat → bytes_ok b →
    ∃ d', mtd_write d a b = inr d' ∧ reliable d'
}.

Class MallocTotal `{Malloc} := malloc_total n : malloc_ok n = true.

(** * The abstract store *)

Record ablock := mk_ablock {
  vol : gmap bytes bytes;
  saved : option (gmap bytes bytes);
  unsaved : bool
}.

Definition env_size (m : gmap bytes bytes) : nat := length (enc_env (map_to_list m)).

(** What a request asks for: a block that exists, strings without NUL, names
    without '='; what is printed has to fit the block. *)
Definition request_ok (lens : list nat) (req : nvram_ioctl) (a : list ablock) : Prop :=
  let fits index := ∀ ab len, a !! Z.to_nat index = Some ab → lens !! Z.to_nat index = Some len →
                      (env_size (vol ab) + 1 ≤ len)%nat in
  match req with
  | IOCTL_GET index _ => check_index index = true
  | IOCTL_GETALL index => check_index index = true ∧ fits index
  | IOCTL_SET index name value =>
      check_index index = true ∧ good_entry (name, value) ∧ (length value < MAX_VALUE_LEN)%nat
  | IOCTL_COMMIT index => check_index index = true ∧ fits index
  | IOCTL_CLEAR index => check_index index = true
  end.

Definition aset (name value : bytes) (ab : ablock) : ablock :=
  if decide (vol ab !! name = None ∧ MAX_CACHE_ENTRY ≤ size (vol ab))%nat then ab
  else mk_ablock (<[name := value]> (vol ab)) (saved ab) true.

Definition acommit (ab : ablock) : ablock :=
  if unsaved ab then mk_ablock (vol ab) (Some (vol ab)) false else ab.

Definition aclear (ab : ablock) : ablock := mk_ablock ∅ None false.

Definition areboot (ab : ablock) : ablock :=
  let m := default ∅ (saved ab) in mk_ablock m (Some m) false.

Definition astep (req : nvram_ioctl) (a : list ablock) : list ablock :=
  match req with
  | IOCTL_GET _ _ | IOCTL_GETALL _ => a
  | IOCTL_SET index name value => alter (aset name value) (Z.to_nat index) a
  | IOCTL_COMMIT index => alter acommit (Z.to_nat index) a
  | IOCTL_CLEAR index => alter aclear (Z.to_nat index) a
  end.

(** What a request copies to the caller. *)
Definition answer_ok (lens : list nat) (req : nvram_ioctl) (a : list ablock) (out : option bytes) : Prop :=
  match req with
  | IOCTL_GET index name =>
      ∃ ab, a !! Z.to_nat index = Some ab ∧ out = Some (default [] (vol ab !! name) ++ [0])
  | IOCTL_GETALL index =>
      ∃ ab len es, a !! Z.to_nat index = Some ab ∧ lens !! Z.to_nat index = Some len
        ∧ es ≡ₚ map_to_list (vol ab) ∧ out = Some (env_image len es)
  | _ => out = None
  end.

(** * The relation *)

Definition cache_rep (es : list cache_t) (m : gmap bytes bytes) : Prop :=
  NoDup es.*1 ∧ list_to_map es = m ∧ Forall good_entry es ∧ (length es ≤ MAX_CACHE_ENTRY)%nat.

(** The flash area of a block holds [m] when it is the image of [m] under its
    CRC; one whose CRC is wrong counts as empty; nothing is said of an area
    that was cleared. *)
Inductive holds (len : nat) (area : bytes) : option (gmap bytes bytes) → Prop :=
| holds_image es m :
    cache_rep es m → (length (enc_env es) + 1 ≤ len)%nat →
    area = le32 (nv_crc32 0 (env_image len es)) ++ env_image len es →
    holds len area (Some m)
| holds_bad_crc :
    of_le (take 4 area) ≠ nv_crc32 0 (drop 4 area) → holds len area (Some ∅)
| holds_cleared : holds len area None.

Definition area (c : bytes) (b : block_t) : bytes := take (flash_max_len b) (drop (flash_offset b) c).

Definition geometry (b : block_t) : nat * nat := (flash_offset b, flash_max_len b).

Record block_rel (c : bytes) (b : block_t) (ab : ablock) : Prop := {
  br_valid : valid b = true;
  br_cache : cache_rep (cache b) (vol ab);
  br_dirty : dirty b = unsaved ab;
  br_data : env_data b ≠ None;
  br_flash : holds (data_len b) (area c b) (saved ab)
}.

(** The blocks lie in the first erase block of the partition. *)
Definition CONFIG_END : nat := Z.to_nat 0xf000.

Section Relation.
Context {D : Type} `{ReliableFlash D}.

Definition flash_fit (d : D) : Prop :=
  reliable d ∧ ∃ size es, mtd_info d = Some (size, es) ∧ (CONFIG_END ≤ es)%nat ∧ (es ≤ size)%nat.

Record store_rel (k : kstate D) (a : list ablock) : Prop := {
  sr_geometry : map geometry (fb k) = map geometry fb_init;
  sr_flash : flash_fit (kdev k);
  sr_blocks : Forall2 (block_rel (contents (kdev k))) (fb k) a
}.

(** What the flash holds when nothing runs. *)
Record flash_rel (d : D) (a : list ablock) : Prop := {
  fr_flash : flash_fit d;
  fr_blocks : Forall2 (λ b ab, holds (data_len b) (area (contents d) b) (saved ab)) fb_init a
}.

End Relation.

Definition block_lens : list nat := map data_len fb_init.

(** * The cache as a map *)

Lemma find_idx_None name es : find_idx name es = None ↔ name ∉ es.*1.
Proof.
  unfold find_idx. rewrite fmap_None, list_find_None, list.Forall_forall, list_elem_of_fmap.
  split; [intros H ([n v] & -> & He); by apply (H _ He)|].
  intros H e He Hn. apply H. by exists e.
Qed.

Lemma find_idx_Some name es i :
  find_idx name es = Some i → ∃ v, es !! i = Some (name, v).
Proof.
  unfold find_idx. rewrite fmap_Some. intros ([j [n v]] & Hf & ->).
  apply list_find_Some in Hf as (Hl & Hn & _). cbn in *. subst. by exists v.
Qed.

Lemma cache_rep_lookup es m name i v :
  cache_rep es m → es !! i = Some (name, v) → m !! name = Some v.
Proof.
  intros (Hnd & <- & _) Hl. apply elem_of_list_to_map_1; [done|].
  by eapply list_elem_of_lookup_2.
Qed.

Lemma cache_rep_absent es m name : cache_rep es m → find_idx name es = None → m !! name = None.
Proof. intros (_ & <- & _) Hf. apply not_elem_of_list_to_map_1. by apply find_idx_None. Qed.

Lemma cache_rep_size es m : cache_rep es m → size m = length es.
Proof.
  intros (Hnd & <- & _). rewrite <-(length_map_to_list (list_to_map es)).
  by rewrite map_to_list_to_map.
Qed.

Lemma cache_rep_perm es m : cache_rep es m → es ≡ₚ map_to_list m.
Proof. intros (Hnd & <- & _). by rewrite map_to_list_to_map. Qed.

Lemma enc_env_perm es es' : es ≡ₚ es' → length (enc_env es) = length (enc_env es').
Proof.
  unfold enc_env. induction 1; cbn [map concat]; rewrite ?length_app; lia.
Qed.

Lemma cache_rep_env_size es m : cache_rep es m → length (enc_env es) = env_size m.
Proof. intros Hc. by apply enc_env_perm, cache_rep_perm. Qed.

Lemma cache_rep_add es m name v :
  cache_rep es m → find_idx name es = None → (length es < MAX_CACHE_ENTRY)%nat →
  good_entry (name, v) → cache_rep (es ++ [(name, v)]) (<[name := v]> m).
Proof.
  intros Hc Hf Hl He. pose proof (cache_rep_absent _ _ _ Hc Hf) as Ha.
  destruct Hc as (Hnd & <- & Hg & _). apply find_idx_None in Hf. split_and!.
  - rewrite fmap_app. apply list.NoDup_app. split_and!; [done| |apply NoDup_singleton].
    intros x Hx ->%list_elem_of_singleton. done.
  - by apply list_to_map_snoc.
  - apply Forall_app. split; [done|]. constructor; [done|constructor].
  - rewrite length_app. cbn. lia.
Qed.

Lemma cache_rep_replace es m name v i :
  cache_rep es m → find_idx name es = Some i → good_value v →
  cache_rep (<[i := (name, v)]> es) (<[name := v]> m).
Proof.
  intros (Hnd & <- & Hg & Hl) Hf Hv. apply find_idx_Some in Hf as [w Hi].
  assert ((<[i := (name, v)]> es).*1 = es.*1) as Hfst.
  { rewrite list_fmap_insert. apply list_insert_id. rewrite list_lookup_fmap. exact (f_equal (fmap fst) Hi). }
  split_and!.
  - by rewrite Hfst.
  - apply map_eq. intros n. destruct (decide (n = name)) as [->|Hne].
    + rewrite lookup_insert_eq. apply elem_of_list_to_map_1; [by rewrite Hfst|].
      apply (list_elem_of_lookup_2 _ i). apply list_lookup_insert_eq. by eapply lookup_lt_Some.
    + rewrite lookup_insert_ne by done. apply option_eq. intros x.
      rewrite <-!elem_of_list_to_map by (by rewrite ?Hfst).
      rewrite !list_elem_of_lookup. split; intros [j Hj].
      * exists j. rewrite list_lookup_insert_Some in Hj. naive_solver.
      * exists j. rewrite list_lookup_insert_ne; [done|]. intros ->. pose proof (eq_trans (eq_sym Hi) Hj) as He. congruence.
  - apply Forall_insert; [done|]. split; [|done].
    apply (proj1 (Forall_lookup _ _) Hg i (name, w)) in Hi. apply Hi.
  - by rewrite length_insert.
Qed.
