(* ===== verification/KernelNvramSim.v ===== *)
(** The NVRAM driver implements the abstract store of [KernelNvramSpec]: each
    request and a reboot are simulated. *)

From stdpp Require Import gmap.
From S2P Require Import Prelude Md5 Crc32 Flash FlashProps KernelNvram KernelNvramText KernelNvramSpec.

(** * Areas of the flash *)

Lemma area_splice_self (c img : bytes) off n :
  length img = n → (off + n ≤ length c)%nat → take n (drop off (splice c off img)) = img.
Proof. intros <- Hl. pose proof (load_splice c off img Hl) as Hs. by apply load_Ret in Hs as [_ Hs]. Qed.

Lemma area_splice_other (c img : bytes) off off' n :
  (off + length img ≤ length c)%nat → (off' + n ≤ off ∨ off + length img ≤ off')%nat →
  take n (drop off' (splice c off img)) = take n (drop off' c).
Proof.
  intros Hl Hd. apply list_eq. intros i. destruct (decide (i < n)%nat) as [Hi|Hi].
  - rewrite !lookup_take_lt, !lookup_drop, lookup_splice by lia. rewrite decide_False by lia. done.
  - rewrite !lookup_take_ge by lia. done.
Qed.

Definition geometry_ok (g : list (nat * nat)) : Prop :=
  Forall (λ x, (5 ≤ x.2 ∧ x.1 + x.2 ≤ CONFIG_END)%nat) g
  ∧ ∀ i j, (i < 4)%nat → (j < 4)%nat → i ≠ j →
      let x := g !!! i in let y := g !!! j in (x.1 + x.2 ≤ y.1 ∨ y.1 + y.2 ≤ x.1)%nat.

Lemma fb_geometry_ok : geometry_ok (map geometry fb_init).
Proof.
  split; [apply (bool_decide_unpack _); by vm_compute|].
  intros i j Hi Hj. do 4 (destruct i as [|i]; [do 4 (destruct j as [|j]; [intros Hij; try done; cbn zeta; apply (bool_decide_unpack _); by vm_compute|]); lia|]). lia.
Qed.

Lemma fb_geometry_length (l : list block_t) :
  map geometry l = map geometry fb_init → length l = 4%nat.
Proof. intros Hg. apply (f_equal length) in Hg. by rewrite !length_map in Hg. Qed.

Lemma geometry_at (l : list block_t) i b :
  map geometry l = map geometry fb_init → l !! i = Some b →
  (i < 4)%nat ∧ (map geometry fb_init) !!! i = geometry b.
Proof.
  intros Hg Hi. pose proof (lookup_lt_Some _ _ _ Hi). rewrite (fb_geometry_length _ Hg) in *.
  split; [done|]. rewrite <-Hg. apply list_lookup_total_correct.
  change (map geometry l) with (geometry <$> l). rewrite list_lookup_fmap. exact (f_equal (fmap geometry) Hi).
Qed.

(** A block lies below [CONFIG_END] and apart from the others. *)
Lemma geometry_bounds (l : list block_t) i b :
  map geometry l = map geometry fb_init → l !! i = Some b →
  (5 ≤ flash_max_len b ∧ flash_offset b + flash_max_len b ≤ CONFIG_END)%nat.
Proof.
  intros Hg Hi. destruct (geometry_at _ _ _ Hg Hi) as [Hlt Hb].
  destruct fb_geometry_ok as [Hok _].
  pose proof (proj1 (Forall_lookup_total _ _) Hok i) as Ho. rewrite Hb in Ho. apply Ho.
  change (length (map geometry fb_init)) with 4%nat. done.
Qed.

Lemma geometry_disjoint (l : list block_t) i j b b' :
  map geometry l = map geometry fb_init → l !! i = Some b → l !! j = Some b' → i ≠ j →
  (flash_offset b + flash_max_len b ≤ flash_offset b'
   ∨ flash_offset b' + flash_max_len b' ≤ flash_offset b)%nat.
Proof.
  intros Hg Hi Hj Hij. destruct (geometry_at _ _ _ Hg Hi) as [Hlt Hb].
  destruct (geometry_at _ _ _ Hg Hj) as [Hlt' Hb'].
  pose proof (proj2 fb_geometry_ok i j Hlt Hlt' Hij) as Hd. cbn zeta in Hd. by rewrite Hb, Hb' in Hd.
Qed.

Lemma area_geometry c b b' : geometry b = geometry b' → area c b = area c b'.
Proof. unfold geometry, area. intros [= -> ->]. done. Qed.

Lemma data_len_geometry b b' : geometry b = geometry b' → data_len b = data_len b'.
Proof. unfold geometry, data_len. intros [= _ ->]. done. Qed.

(** * Reading and writing a block *)

Section Simulation.
Context {D : Type} `{ReliableFlash D} `{MallocTotal}.
Implicit Types (d : D) (k : kstate D).

Lemma ra_mtd_write_reliable d to buf :
  flash_fit d → (to + length buf ≤ CONFIG_END)%nat → bytes_ok buf →
  ∃ d', ra_mtd_write_nm d to buf = Ret (0, d') ∧ flash_fit d' ∧ contents d' = splice (contents d) to buf.
Proof.
  intros (Hr & size & es & Hi & Hces & Hes) Hto Hb.
  destruct (nor_geometry _ _ _ Hi) as (Hlen & _).
  destruct (ra_mtd_write_spec d to buf size es Hi Hes ltac:(lia) Hb) as (r & d' & Hw & Hspec).
  assert (∃ d2, Ret (r, d') = Ret (0, d2) ∧ reliable d2) as (d2 & [= -> ->] & Hr2).
  { rewrite <-Hw. unfold ra_mtd_write_nm. rewrite (rel_present _ Hr), Hi, malloc_total. cbn [negb].
    rewrite decide_False by lia.
    destruct (rel_read d 0 es Hr ltac:(lia)) as [rd Hrd]. rewrite Hrd.
    apply nor_read in Hrd; [|lia]. rewrite drop_0 in Hrd. subst rd.
    assert (length (take es (contents d)) = es) as Hl by (rewrite length_take; lia).
    rewrite Hl, Nat.sub_diag. cbn [uninit replicate]. rewrite app_nil_r.
    unfold store. rewrite decide_True by lia. cbn [mbind outcome_bind].
    destruct (rel_erase d size es Hr Hi Hes) as (d1 & He & Hr1). rewrite He.
    destruct (nor_erase _ _ _ _ He ltac:(lia)) as (Hc1 & _).
    destruct (rel_write d1 0 (splice (take es (contents d)) to buf) Hr1) as (d2 & Hw2 & Hr2).
    - rewrite Hc1, !splice_length; rewrite ?length_replicate; lia.
    - apply splice_bytes_ok; [|done]. apply bytes_ok_take, nor_bytes.
    - rewrite Hw2. by exists d2. }
  destruct (Hspec eq_refl) as (Hc & Hi' & _). exists d2. split_and!; [done| |done].
  split; [done|]. exists size, es. by rewrite Hi', Hi.
Qed.

Lemma flash_fit_length d : flash_fit d → (CONFIG_END ≤ length (contents d))%nat.
Proof. intros (_ & size & es & Hi & ? & ?). destruct (nor_geometry _ _ _ Hi) as (-> & _). lia. Qed.

Lemma write_block_spec b data k :
  flash_fit (kdev k) → (flash_offset b + (4 + length data) ≤ CONFIG_END)%nat → bytes_ok data →
  ∃ d, write_block b data k = Ret (k ⦃ kdev := d ⦄) ∧ flash_fit d
    ∧ contents d = splice (contents (kdev k)) (flash_offset b) (le32 (env_crc b) ++ data).
Proof.
  intros Hf Hl Hb. unfold write_block, sizeof_crc.
  assert (length (le32 (env_crc b)) = 4%nat) as Hle by done.
  destruct (ra_mtd_write_reliable (kdev k) (flash_offset b) (le32 (env_crc b)) Hf) as (d1 & -> & Hf1 & Hc1);
    [lia|apply bytes_ok_le32|]. cbn [mbind outcome_bind].
  destruct (ra_mtd_write_reliable d1 (flash_offset b + 4) data Hf1 ltac:(lia) Hb) as (d2 & -> & Hf2 & Hc2).
  cbn [mbind outcome_bind]. exists d2. split_and!; [done|done|].
  rewrite Hc2, Hc1, <-Hle, splice_two; [done|]. apply flash_fit_length in Hf. lia.
Qed.

Lemma read_reliable d from n :
  flash_fit d → (from + n ≤ CONFIG_END)%nat →
  ra_mtd_read_nm d from n = (0, take n (drop from (contents d))).
Proof.
  intros Hf Hn. pose proof (flash_fit_length _ Hf). destruct Hf as (Hr & _).
  unfold ra_mtd_read_nm. rewrite (rel_present _ Hr). cbn [negb].
  destruct (rel_read d from n Hr ltac:(lia)) as [b Hb]. rewrite Hb. f_equal.
  apply nor_read in Hb; [done|lia].
Qed.

(** * Bringing a block up *)

Lemma area_parts c b :
  (4 ≤ flash_max_len b)%nat →
  take sizeof_crc (drop (flash_offset b) c) = take 4 (area c b) ∧
  take (data_len b) (drop (flash_offset b + sizeof_crc) c) = drop 4 (area c b).
Proof.
  intros Hl. unfold area, sizeof_crc, data_len, sizeof_crc.
  rewrite take_take, Nat.min_l by lia. split; [done|].
  rewrite <-drop_drop, take_drop_commute. do 2 f_equal. lia.
Qed.

Lemma block_at_lookup k index b :
  check_index index = true → fb k !! Z.to_nat index = Some b → block_at k index = Ret b.
Proof. intros Hc Hb. unfold block_at. by rewrite Hc, Hb. Qed.

(** What [init_nvram_block] does with the area it reads. *)
Lemma init_block_reads k index b :
  check_index index = true → fb k !! Z.to_nat index = Some b → flash_fit (kdev k) →
  (5 ≤ flash_max_len b ∧ flash_offset b + flash_max_len b ≤ CONFIG_END)%nat → valid b = false →
  let ar := area (contents (kdev k)) b in
  let b := b ⦃ env_crc := of_le (take 4 ar) ⦄ in
  init_nvram_block index k =
    if negb (nv_crc32 0 (drop 4 ar) =? of_le (take 4 ar)) then
      Ret (set_block k (Z.to_nat index)
             (b ⦃ env_data := Some (replicate (data_len b) 0) ⦄ ⦃ valid := true ⦄ ⦃ dirty := false ⦄), -1)
    else
      let* (data, entries) := parse_env MAX_CACHE_ENTRY (drop 4 ar) 0 in
      Ret (set_block k (Z.to_nat index)
             (b ⦃ env_data := Some data ⦄ ⦃ cache := entries ++ drop (length entries) (cache b) ⦄
                ⦃ valid := true ⦄ ⦃ dirty := false ⦄), 0).
Proof.
  intros Hci Hb Hf [Hl5 Hlc] Hv. cbn zeta. unfold init_nvram_block.
  rewrite Hci, (block_at_lookup _ _ _ Hci Hb). cbn [negb mbind outcome_bind]. rewrite Hv.
  destruct (area_parts (contents (kdev k)) b ltac:(lia)) as [Hcrc Hdat].
  rewrite read_reliable by (done || unfold sizeof_crc; lia). cbn beta iota zeta.
  change (0 =? 0) with true. cbn beta iota. rewrite malloc_total. cbn [negb].
  change (flash_offset (b ⦃ env_crc := _ ⦄)) with (flash_offset b).
  change (data_len (b ⦃ env_crc := _ ⦄)) with (data_len b).
  rewrite read_reliable by (done || unfold data_len, sizeof_crc; lia). cbn beta iota zeta.
  change (0 =? 0) with true. cbn beta iota. rewrite Hcrc, Hdat. reflexivity.
Qed.

Lemma init_block_spec k index b m :
  check_index index = true → fb k !! Z.to_nat index = Some b → flash_fit (kdev k) →
  (5 ≤ flash_max_len b ∧ flash_offset b + flash_max_len b ≤ CONFIG_END)%nat →
  valid b = false → cache b = [] → holds (data_len b) (area (contents (kdev k)) b) (Some m) →
  ∃ b' r, init_nvram_block index k = Ret (set_block k (Z.to_nat index) b', r)
    ∧ geometry b' = geometry b
    ∧ block_rel (contents (kdev k)) b' (mk_ablock m (Some m) false).
Proof.
  intros Hci Hb Hf Hl Hv Hca Hh. rewrite (init_block_reads k index b) by done.
  inversion Hh as [es m' Hrep Hfit Ha Hm|Hne Hm|]; subst m.
  - rewrite Ha, drop_app_length', take_app_length', of_le_le32 by (done || apply crc32_word).
    rewrite Z.eqb_refl. cbn [negb]. destruct Hrep as (Hnd & Hm & Hg & Hn).
    rewrite parse_env_image by done. cbn [mbind outcome_bind].
    eexists _, _. split_and!; [reflexivity|done|]. split; cbn; try done.
    rewrite Hca, drop_nil, app_nil_r. done.
  - replace (_ =? _) with false by (symmetry; by apply Z.eqb_neq). cbn [negb].
    eexists _, _. split_and!; [reflexivity|done|]. split; cbn; try done.
    rewrite Hca. split_and!; [constructor|done|constructor|cbn; lia].
Qed.

(** * One step *)

Lemma store_rel_block k a index :
  store_rel k a → check_index index = true →
  ∃ b ab, fb k !! Z.to_nat index = Some b ∧ a !! Z.to_nat index = Some ab
    ∧ block_at k index = Ret b ∧ check_valid index k = Ret k
    ∧ block_rel (contents (kdev k)) b ab
    ∧ (5 ≤ flash_max_len b ∧ flash_offset b + flash_max_len b ≤ CONFIG_END)%nat
    ∧ block_lens !! Z.to_nat index = Some (data_len b).
Proof.
  intros [Hg Hf Hbs] Hc. pose proof (fb_geometry_length _ Hg) as Hlen.
  destruct (lookup_lt_is_Some_2 (fb k) (Z.to_nat index)) as [b Hb].
  { unfold check_index, FLASH_BLOCK_NUM in Hc. lia. }
  destruct (Forall2_lookup_l _ _ _ _ _ Hbs Hb) as (ab & Hab & Hrel).
  pose proof (block_at_lookup _ _ _ Hc Hb) as Hat.
  exists b, ab. split_and!; try done.
  - unfold check_valid. rewrite Hat. cbn [mbind outcome_bind]. by rewrite (br_valid _ _ _ Hrel).
  - by eapply geometry_bounds.
  - by eapply geometry_bounds.
  - unfold block_lens. assert (map data_len (fb k) = map data_len fb_init) as <-.
    { apply (f_equal (map (λ x : nat * nat, (x.2 - sizeof_crc)%nat))) in Hg. by rewrite !map_map in Hg. }
    change (map data_len (fb k)) with (data_len <$> fb k).
    rewrite list_lookup_fmap. exact (f_equal (fmap data_len) Hb).
Qed.

(** Replacing one block, and the flash outside the others' areas. *)
Lemma store_rel_update k a i b b' ab' d' n :
  store_rel k a → fb k !! i = Some b → geometry b' = geometry b → flash_fit d' →
  (∀ j bj, j ≠ i → fb k !! j = Some bj → area (contents d') bj = area (contents (kdev k)) bj) →
  block_rel (contents d') b' ab' →
  store_rel (mk_kstate (<[i := b']> (fb k)) n d') (<[i := ab']> a).
Proof.
  intros [Hg Hf Hbs] Hb Hgb Hfd Ho Hrel. split; cbn [fb kdev]; [|done|].
  - change (map geometry (<[i := b']> (fb k))) with (geometry <$> <[i := b']> (fb k)).
    rewrite list_fmap_insert, Hgb, list_insert_id; [done|].
    rewrite list_lookup_fmap. exact (f_equal (fmap geometry) Hb).
  - pose proof (Forall2_length Hbs) as Hl. pose proof (lookup_lt_Some _ _ _ Hb) as Hi.
    apply Forall2_same_length_lookup. rewrite !length_insert. split; [done|].
    intros j x y Hx Hy. destruct (decide (j = i)) as [->|Hj].
    + rewrite list_lookup_insert_eq in Hx by done. rewrite list_lookup_insert_eq in Hy by lia. by simplify_eq.
    + rewrite list_lookup_insert_ne in Hx by done. rewrite list_lookup_insert_ne in Hy by done.
      destruct (Forall2_lookup_lr _ _ _ _ _ _ Hbs Hx Hy) as [Hv Hc Hd He Hh].
      split; try done. rewrite (Ho j x); done.
Qed.

(** The flash as it was. *)
Lemma store_rel_same_flash k a i b b' ab' n :
  store_rel k a → fb k !! i = Some b → geometry b' = geometry b →
  block_rel (contents (kdev k)) b' ab' →
  store_rel (mk_kstate (<[i := b']> (fb k)) n (kdev k)) (<[i := ab']> a).
Proof. intros Hr Hb Hg Hrel. eapply store_rel_update; eauto using sr_flash. Qed.

(** The area of the block rewritten. *)
Lemma store_rel_written k a i b b' ab' d' n img :
  store_rel k a → fb k !! i = Some b → geometry b' = geometry b → flash_fit d' →
  contents d' = splice (contents (kdev k)) (flash_offset b) img → length img = flash_max_len b →
  block_rel (contents d') b' ab' →
  store_rel (mk_kstate (<[i := b']> (fb k)) n d') (<[i := ab']> a).
Proof.
  intros Hr Hb Hgb Hfd Hc Himg Hrel. eapply store_rel_update; try done.
  intros j bj Hj Hbj. pose proof (sr_geometry _ _ Hr) as Hg.
  pose proof (geometry_bounds _ _ _ Hg Hb). pose proof (flash_fit_length _ (sr_flash _ _ Hr)).
  pose proof (geometry_disjoint _ _ _ _ _ Hg Hb Hbj ltac:(done)).
  unfold area. rewrite Hc. apply area_splice_other; lia.
Qed.

Lemma alter_at {A} (f : A → A) (l : list A) i x : l !! i = Some x → alter f i l = <[i := f x]> l.
Proof.
  intros Hi. rewrite list_insert_alter. apply list_alter_ext; [|done]. naive_solver.
Qed.

Lemma store_rel_bump k a : store_rel k a → store_rel (bump_counter k) a.
Proof. intros [Hg Hf Hb]. by split. Qed.

Lemma get_sim k a index name :
  store_rel k a → check_index index = true →
  ∃ ab, a !! Z.to_nat index = Some ab ∧
    nvram_get index name k = Ret (bump_counter k, vol ab !! name).
Proof.
  intros Hr Hc. destruct (store_rel_block _ _ _ Hr Hc) as (b & ab & Hb & Hab & Hat & Hcv & Hrel & _).
  exists ab. split; [done|]. unfold nvram_get. rewrite Hc, Hcv. cbn [negb mbind outcome_bind].
  unfold cache_idx. change (block_at (bump_counter k) index) with (block_at k index).
  rewrite Hat. cbn [mbind outcome_bind]. do 2 f_equal.
  destruct (find_idx name (cache b)) as [i|] eqn:Hf.
  - destruct (find_idx_Some _ _ _ Hf) as [v Hi]. rewrite Hi. symmetry.
    by eapply cache_rep_lookup; [apply (br_cache _ _ _ Hrel)|].
  - symmetry. by eapply cache_rep_absent; [apply (br_cache _ _ _ Hrel)|].
Qed.

Lemma set_sim k a index name value :
  store_rel k a → check_index index = true → good_entry (name, value) →
  ∃ k' r, nvram_set index name value k = Ret (k', r)
    ∧ store_rel k' (alter (aset name value) (Z.to_nat index) a).
Proof.
  intros Hr Hc Hge. destruct (store_rel_block _ _ _ Hr Hc) as (b & ab & Hb & Hab & Hat & Hcv & Hrel & _).
  unfold nvram_set. rewrite Hc, Hcv. cbn [negb mbind outcome_bind].
  unfold cache_idx. change (block_at (bump_counter k) index) with (block_at k index).
  rewrite Hat. cbn [mbind outcome_bind]. rewrite (alter_at _ _ _ _ Hab).
  pose proof (br_cache _ _ _ Hrel) as Hcr. pose proof (cache_rep_size _ _ Hcr) as Hsz. unfold aset.
  destruct (find_idx name (cache b)) as [i|] eqn:Hf.
  - destruct (find_idx_Some _ _ _ Hf) as [v Hi].
    rewrite decide_False by (rewrite (cache_rep_lookup _ _ _ _ _ Hcr Hi); naive_solver).
    eexists _, _. split; [reflexivity|]. apply (store_rel_same_flash k a _ b); [done..|].
    destruct Hrel. split; try done. apply cache_rep_replace; [done|done|apply Hge].
  - rewrite (cache_rep_absent _ _ _ Hcr Hf).
    destruct (decide (MAX_CACHE_ENTRY ≤ length (cache b))%nat) as [Hfull|Hroom].
    + rewrite decide_True by (rewrite Hsz; done). rewrite list_insert_id by done.
      eexists _, _. split; [reflexivity|]. by apply store_rel_bump.
    + rewrite decide_False by (rewrite Hsz; naive_solver).
      eexists _, _. split; [reflexivity|]. apply (store_rel_same_flash k a _ b); [done..|].
      destruct Hrel. split; try done. apply cache_rep_add; [done|done|lia|done].
Qed.

(** The data printed for the cache of a block. *)
Lemma build_block c b ab :
  block_rel c b ab → (5 ≤ flash_max_len b)%nat → (env_size (vol ab) + 1 ≤ data_len b)%nat →
  build_env (flash_max_len b) (cache b) (replicate (data_len b) 0) 0
    = Ret (env_image (data_len b) (cache b), true)
  ∧ length (env_image (data_len b) (cache b)) = data_len b
  ∧ bytes_ok (env_image (data_len b) (cache b))
  ∧ (length (enc_env (cache b)) + 1 ≤ data_len b)%nat.
Proof.
  intros Hrel Hl Hfit. pose proof (br_cache _ _ _ Hrel) as Hc.
  rewrite <-(cache_rep_env_size _ _ Hc) in Hfit.
  replace (flash_max_len b) with (data_len b + 4)%nat by (unfold data_len, sizeof_crc; lia).
  rewrite build_env_zero by done. split_and!; [done|apply env_image_length; lia| |done].
  unfold env_image. apply bytes_ok_app. split; [apply enc_env_bytes_ok, Hc|].
  apply bytes_ok_replicate. unfold byte_ok. lia.
Qed.

Lemma ensure_data_rel c b ab : block_rel c b ab → ensure_data b = Some b.
Proof. intros Hrel. unfold ensure_data. pose proof (br_data _ _ _ Hrel). by destruct (env_data b). Qed.

Lemma commit_sim k a index :
  store_rel k a → check_index index = true →
  (∀ ab len, a !! Z.to_nat index = Some ab → block_lens !! Z.to_nat index = Some len →
     (env_size (vol ab) + 1 ≤ len)%nat) →
  ∃ k', nvram_commit index k = Ret (k', 0) ∧ store_rel k' (alter acommit (Z.to_nat index) a).
Proof.
  intros Hr Hc Hfit.
  destruct (store_rel_block _ _ _ Hr Hc) as (b & ab & Hb & Hab & Hat & Hcv & Hrel & [Hl5 Hle] & Hlen).
  specialize (Hfit _ _ Hab Hlen). unfold nvram_commit. rewrite Hc, Hcv. cbn [negb mbind outcome_bind].
  change (block_at (bump_counter k) index) with (block_at k index).
  rewrite Hat. cbn [mbind outcome_bind]. rewrite (alter_at _ _ _ _ Hab). unfold acommit.
  rewrite (br_dirty _ _ _ Hrel). destruct (unsaved ab) eqn:Hu; cbn [negb].
  2:{ rewrite list_insert_id by done. eexists. split; [reflexivity|]. by apply store_rel_bump. }
  rewrite (ensure_data_rel _ _ _ Hrel).
  destruct (build_block _ _ _ Hrel Hl5 Hfit) as (-> & Hil & Hib & Hf). cbn [mbind outcome_bind negb].
  set (img := env_image (data_len b) (cache b)) in *.
  set (b1 := b ⦃ env_data := Some img ⦄ ⦃ env_crc := nv_crc32 0 img ⦄).
  destruct (write_block_spec b1 img (bump_counter k)) as (d & Hwb & Hfd & Hcd);
    [apply (sr_flash _ _ Hr)|change (flash_offset b1) with (flash_offset b); rewrite Hil;
      unfold data_len, sizeof_crc in *; lia|done|]. rewrite Hwb. cbn [mbind outcome_bind].
  change (contents (kdev (bump_counter k))) with (contents (kdev k)) in Hcd.
  eexists. split; [reflexivity|]. eapply (store_rel_written k a _ b); [done|done|done|exact Hfd|exact Hcd| |].
  { rewrite length_app, Hil. unfold data_len, sizeof_crc. cbn [length le32]. lia. }
  split; try done; [apply (br_valid _ _ _ Hrel)|apply (br_cache _ _ _ Hrel)|]. cbn [saved]. eapply holds_image.
  - apply (br_cache _ _ _ Hrel).
  - exact Hf.
  - change (take (flash_max_len b) (drop (flash_offset b) (contents d)) = le32 (nv_crc32 0 img) ++ img).
    rewrite Hcd. apply area_splice_self.
    + rewrite length_app, Hil. unfold data_len, sizeof_crc.
      change (length (le32 _)) with 4%nat. lia.
    + pose proof (flash_fit_length _ (sr_flash _ _ Hr)). change (flash_offset b1) with (flash_offset b). lia.
Qed.

Lemma getall_sim k a index :
  store_rel k a → check_index index = true →
  (∀ ab len, a !! Z.to_nat index = Some ab → block_lens !! Z.to_nat index = Some len →
     (env_size (vol ab) + 1 ≤ len)%nat) →
  ∃ k' ab b es, nvram_getall index k = Ret (k', 0) ∧ store_rel k' a ∧ block_at k index = Ret b
    ∧ a !! Z.to_nat index = Some ab ∧ block_lens !! Z.to_nat index = Some (data_len b)
    ∧ es ≡ₚ map_to_list (vol ab) ∧ length (env_image (data_len b) es) = data_len b
    ∧ ∃ b', block_at k' index = Ret b' ∧ env_data b' = Some (env_image (data_len b) es).
Proof.
  intros Hr Hc Hfit.
  destruct (store_rel_block _ _ _ Hr Hc) as (b & ab & Hb & Hab & Hat & Hcv & Hrel & [Hl5 Hle] & Hlen).
  specialize (Hfit _ _ Hab Hlen). unfold nvram_getall. rewrite Hc, Hat. cbn [negb mbind outcome_bind].
  rewrite Hcv. cbn [mbind outcome_bind]. rewrite Hat. cbn [mbind outcome_bind].
  rewrite (ensure_data_rel _ _ _ Hrel), bool_decide_false by apply (br_data _ _ _ Hrel).
  destruct (build_block _ _ _ Hrel Hl5 Hfit) as (-> & Hil & _). cbn [mbind outcome_bind].
  eexists _, ab, b, (cache b). split; [reflexivity|]. split.
  { rewrite <-(list_insert_id a (Z.to_nat index) ab Hab).
    apply (store_rel_same_flash k a _ b); [done..|]. by destruct Hrel. }
  split_and!; try done; [by apply cache_rep_perm, br_cache with (contents (kdev k))|].
  eexists. split; [|shelve]. apply block_at_lookup; [done|].
  by apply list_lookup_insert_eq, (lookup_lt_Some _ _ b).
  Unshelve. done.
Qed.

Lemma clear_sim k a index :
  store_rel k a → check_index index = true →
  ∃ k' b, nvram_clear index k = Ret (k', 0) ∧ store_rel k' (alter aclear (Z.to_nat index) a)
    ∧ fb k !! Z.to_nat index = Some b
    ∧ area (contents (kdev k')) b = le32 (nv_crc32 0 (replicate (data_len b) 0xff)) ++ replicate (data_len b) 0xff.
Proof.
  intros Hr Hc.
  destruct (store_rel_block _ _ _ Hr Hc) as (b & ab & Hb & Hab & Hat & Hcv & Hrel & [Hl5 Hle] & Hlen).
  unfold nvram_clear, ra_nvram_close. rewrite Hc. cbn [negb mbind outcome_bind]. rewrite Hat.
  cbn [mbind outcome_bind]. rewrite (br_valid _ _ _ Hrel). cbn [negb mbind outcome_bind].
  set (b0 := b ⦃ cache := [] ⦄). pose proof (lookup_lt_Some _ _ _ Hb) as Hi.
  rewrite (block_at_lookup (set_block k (Z.to_nat index) b0) index b0)
    by (done || by apply list_lookup_insert_eq).
  cbn [mbind outcome_bind]. replace (ensure_data b0) with (Some b0)
    by (unfold ensure_data, b0; cbn; pose proof (br_data _ _ _ Hrel); by destruct (env_data b)).
  set (img := replicate (data_len b0) 0xff).
  set (b1 := b0 ⦃ env_data := Some img ⦄ ⦃ env_crc := nv_crc32 0 img ⦄).
  assert (length img = data_len b) as Hil by apply length_replicate.
  destruct (write_block_spec b1 img (set_block k (Z.to_nat index) b0)) as (d & Hwb & Hfd & Hcd);
    [apply (sr_flash _ _ Hr)|change (flash_offset b1) with (flash_offset b); rewrite Hil;
      unfold data_len, sizeof_crc in *; lia|apply bytes_ok_replicate; unfold byte_ok; lia|].
  rewrite Hwb. cbn [mbind outcome_bind]. rewrite (alter_at _ _ _ _ Hab).
  assert (length (le32 (env_crc b1) ++ img) = flash_max_len b) as Hlimg.
  { rewrite length_app, Hil. unfold data_len, sizeof_crc. change (length (le32 _)) with 4%nat. lia. }
  eexists _, b. split; [reflexivity|]. split_and!; [|done|].
  2:{ change (take (flash_max_len b) (drop (flash_offset b) (contents d)) = le32 (env_crc b1) ++ img).
      rewrite Hcd. apply area_splice_self; [done|]. change (flash_offset b1) with (flash_offset b).
      pose proof (flash_fit_length _ (sr_flash _ _ Hr)) as Hfl.
      change (kdev (set_block k (Z.to_nat index) b0)) with (kdev k). lia. }
  unfold set_block. cbn [fb kdev counter set].
  rewrite list_insert_insert_eq.
  eapply (store_rel_written k a _ b); [done|done|done|exact Hfd|exact Hcd|done|].
  split; try done; [apply (br_valid _ _ _ Hrel)| |constructor].
  split_and!; [constructor|done|constructor|cbn; lia].
Qed.

Lemma ioctl_sim k a req :
  store_rel k a → request_ok block_lens req a →
  ∃ k' out, ralink_nvram_ioctl req k = Ret (k', 0, out)
    ∧ store_rel k' (astep req a) ∧ answer_ok block_lens req a out.
Proof.
  intros Hr Hok. destruct req as [index name|index|index name value|index|index];
    cbn [request_ok] in Hok; cbn [ralink_nvram_ioctl astep answer_ok].
  - destruct (get_sim _ _ _ name Hr Hok) as (ab & Hab & ->). cbn [mbind outcome_bind].
    eexists _, _. split; [reflexivity|]. split; [by apply store_rel_bump|]. exists ab. split; [done|].
    by destruct (vol ab !! name).
  - destruct Hok as [Hc Hfit].
    destruct (getall_sim _ _ _ Hr Hc Hfit) as (k' & ab & b & es & Hg & Hr' & Hat & Hab & Hlen & Hp & Hil & b' & Hat' & Hd').
    rewrite Hat. cbn [mbind outcome_bind]. rewrite Hg. cbn [mbind outcome_bind].
    change (0 =? 0) with true. cbn iota. rewrite Hat'. cbn [mbind outcome_bind]. rewrite Hd'.
    unfold load. rewrite decide_True by lia. cbn [mbind outcome_bind].
    eexists _, _. split; [reflexivity|]. split; [done|]. exists ab, (data_len b), es.
    split_and!; try done. rewrite drop_0, take_ge by lia. done.
  - destruct Hok as (Hc & Hge & Hl). rewrite malloc_total. cbn [negb].
    rewrite decide_False by lia. destruct (set_sim _ _ _ _ _ Hr Hc Hge) as (k' & r & -> & Hr').
    cbn [mbind outcome_bind]. eauto.
  - destruct Hok as [Hc Hfit]. destruct (commit_sim _ _ _ Hr Hc Hfit) as (k' & -> & Hr').
    cbn [mbind outcome_bind]. eauto.
  - destruct (clear_sim _ _ _ Hr Hok) as (k' & _ & -> & Hr' & _). cbn [mbind outcome_bind]. eauto.
Qed.

End Simulation.
