(* ===== verification/KernelNvramProps.v ===== *)
(** Properties of the NVRAM driver: it implements the abstract store across
    requests and reboots, the size at which a commit leaves its buffer, and a block
    that no boot survives. *)

From stdpp Require Import gmap.
From S2P Require Import Prelude Md5 Crc32 Flash FlashProps.
From S2P Require Import KernelNvram KernelNvramText KernelNvramSpec KernelNvramSim.

(** * Histories: requests and power losses *)

Inductive event := Request (req : nvram_ioctl) | Reboot.

Definition event_ok (e : event) (a : list ablock) : Prop :=
  match e with
  | Request req => request_ok block_lens req a
  | Reboot => Forall (λ ab, saved ab ≠ None) a
  end.

Definition aevent (e : event) (a : list ablock) : list ablock :=
  match e with Request req => astep req a | Reboot => map areboot a end.

Definition event_answer (e : event) (a : list ablock) (out : option bytes) : Prop :=
  match e with Request req => answer_ok block_lens req a out | Reboot => out = None end.

(** A history the contract allows, and the answers it may get. *)
Inductive history : list event → list ablock → list (option bytes) → list ablock → Prop :=
| history_nil a : history [] a [] a
| history_cons e es a out outs a' :
    event_answer e a out → history es (aevent e a) outs a' → history (e :: es) a (out :: outs) a'.

Fixpoint history_ok (es : list event) (a : list ablock) : Prop :=
  match es with [] => True | e :: es => event_ok e a ∧ history_ok es (aevent e a) end.

Section Histories.
Context {D : Type} `{ReliableFlash D} `{MallocTotal}.
Implicit Types (d : D) (k : kstate D).

Definition kevent (e : event) k : outcome (kstate D * option bytes) :=
  match e with
  | Request req => let* (k, _, out) := ralink_nvram_ioctl req k in Ret (k, out)
  | Reboot => let* k := ra_nvram_init (kdev k) in Ret (k, None)
  end.

Fixpoint krun (es : list event) k : outcome (kstate D * list (option bytes)) :=
  match es with
  | [] => Ret (k, [])
  | e :: es =>
      let* (k, out) := kevent e k in
      let* (k, outs) := krun es k in Ret (k, out :: outs)
  end.

Lemma boot_sim d a :
  flash_rel d a → Forall (λ ab, saved ab ≠ None) a →
  ∃ k, ra_nvram_init d = Ret k ∧ store_rel k (map areboot a).
Proof.
  intros [Hf Hb] Hs. unfold ra_nvram_init.
  pose proof (geometry_bounds fb_init) as Hg. revert Hb Hg. unfold fb_init.
  set (x0 := new_block [0x32; 0x38; 0x36; 0x30] _ _). set (x1 := new_block _ (Z.to_nat 0x6000) _).
  set (x2 := new_block _ (Z.to_nat 0x8000) _). set (x3 := new_block _ (Z.to_nat 0xa000) _).
  intros Hb Hg. inversion Hb as [|? a0 ? ? H0' Hb1]; subst. inversion Hb1 as [|? a1 ? ? H1' Hb2]; subst.
  inversion Hb2 as [|? a2 ? ? H2' Hb3]; subst. inversion Hb3 as [|? a3 ? ? H3' Hb4]; subst.
  inversion Hb4; subst. clear Hb Hb1 Hb2 Hb3 Hb4.
  rewrite !list.Forall_cons in Hs. destruct Hs as (S0 & S1 & S2 & S3 & _).
  destruct a0 as [v0 [m0|] u0]; [|done]. destruct a1 as [v1 [m1|] u1]; [|done].
  destruct a2 as [v2 [m2|] u2]; [|done]. destruct a3 as [v3 [m3|] u3]; [|done].
  cbn [saved] in *. cbn [init_blocks].
  destruct (init_block_spec (mk_kstate [x0; x1; x2; x3] 0 d) 0 x0 m0 eq_refl eq_refl Hf
    (Hg 0%nat x0 eq_refl eq_refl) eq_refl eq_refl H0') as (b0 & r0 & -> & G0 & R0).
  cbn [mbind outcome_bind].
  destruct (init_block_spec (mk_kstate [b0; x1; x2; x3] 0 d) 1 x1 m1 eq_refl eq_refl Hf
    (Hg 1%nat x1 eq_refl eq_refl) eq_refl eq_refl H1') as (b1 & r1 & E1 & G1 & R1).
  change (set_block _ (Z.to_nat 0) b0) with (mk_kstate [b0; x1; x2; x3] 0 d). rewrite E1.
  cbn [mbind outcome_bind].
  destruct (init_block_spec (mk_kstate [b0; b1; x2; x3] 0 d) 2 x2 m2 eq_refl eq_refl Hf
    (Hg 2%nat x2 eq_refl eq_refl) eq_refl eq_refl H2') as (b2 & r2 & E2 & G2 & R2).
  change (set_block _ (Z.to_nat 1) b1) with (mk_kstate [b0; b1; x2; x3] 0 d). rewrite E2.
  cbn [mbind outcome_bind].
  destruct (init_block_spec (mk_kstate [b0; b1; b2; x3] 0 d) 3 x3 m3 eq_refl eq_refl Hf
    (Hg 3%nat x3 eq_refl eq_refl) eq_refl eq_refl H3') as (b3 & r3 & E3 & G3 & R3).
  change (set_block _ (Z.to_nat 2) b2) with (mk_kstate [b0; b1; b2; x3] 0 d). rewrite E3.
  cbn [mbind outcome_bind]. eexists. split; [reflexivity|].
  change (set_block _ (Z.to_nat 3) b3) with (mk_kstate [b0; b1; b2; b3] 0 d).
  split; cbn [fb kdev map]; [|done|].
  - by rewrite G0, G1, G2, G3.
  - do 4 (constructor; [done|]). constructor.
Qed.

Lemma store_rel_flash k a : store_rel k a → flash_rel (kdev k) a.
Proof.
  intros [Hg Hf Hb]. split; [done|]. pose proof (fb_geometry_length _ Hg) as Hl.
  apply Forall2_same_length_lookup in Hb as [Hla Hb]. apply Forall2_same_length_lookup.
  split; [change (length fb_init) with 4%nat; lia|]. intros i x y Hx Hy.
  destruct (lookup_lt_is_Some_2 (fb k) i) as [b Hbi].
  { apply lookup_lt_Some in Hy. lia. }
  assert (geometry x = geometry b) as Hxb.
  { destruct (geometry_at _ _ _ Hg Hbi) as [_ <-]. by destruct (geometry_at fb_init _ _ eq_refl Hx). }
  rewrite (data_len_geometry _ _ Hxb), (area_geometry _ _ _ Hxb). apply (br_flash _ _ _ (Hb _ _ _ Hbi Hy)).
Qed.

Lemma kevent_sim e k a :
  store_rel k a → event_ok e a →
  ∃ k' out, kevent e k = Ret (k', out) ∧ store_rel k' (aevent e a) ∧ event_answer e a out.
Proof.
  intros Hr Hok. destruct e as [req|]; cbn [kevent aevent event_answer event_ok] in *.
  - destruct (ioctl_sim _ _ _ Hr Hok) as (k' & out & -> & Hr' & Hans). cbn [mbind outcome_bind]. eauto.
  - destruct (boot_sim _ _ (store_rel_flash _ _ Hr) Hok) as (k' & -> & Hr'). cbn [mbind outcome_bind]. eauto.
Qed.

Lemma krun_sim es k a :
  store_rel k a → history_ok es a →
  ∃ k' outs a', krun es k = Ret (k', outs) ∧ history es a outs a' ∧ store_rel k' a'.
Proof.
  revert k a. induction es as [|e es IH]; intros k a Hr Hok; cbn [krun].
  - exists k, [], a. split_and!; [done|constructor|done].
  - destruct Hok as [He Hok]. destruct (kevent_sim e k a Hr He) as (k1 & out & -> & Hr1 & Hans).
    cbn [mbind outcome_bind]. destruct (IH _ _ Hr1 Hok) as (k' & outs & a' & -> & Hh & Hr').
    cbn [mbind outcome_bind]. exists k', (out :: outs), a'. split_and!; [done| |done]. by econstructor.
Qed.

(** C10. Booted on a flash with [a] saved, the driver runs every history of
    requests and power losses the contract allows without an access outside its
    buffers, and answers as the abstract store does: a GET gives the last value
    set, or the last value committed before the last reboot; a change of one
    block never shows in another; a block with a wrong CRC counts as empty. *)
Theorem nvram_refines_store d a es :
  flash_rel d a → Forall (λ ab, saved ab ≠ None) a → history_ok es (map areboot a) →
  ∃ k k' outs a', ra_nvram_init d = Ret k ∧ krun es k = Ret (k', outs)
    ∧ history es (map areboot a) outs a' ∧ flash_rel (kdev k') a'.
Proof.
  intros Hfl Hs Hok. destruct (boot_sim d a Hfl Hs) as (k & Hk & Hr).
  destruct (krun_sim es k _ Hr Hok) as (k' & outs & a' & Hrun & Hh & Hr').
  exists k, k', outs, a'. split_and!; [done..|by apply store_rel_flash].
Qed.

(** C27. Persistence: a value that was set and committed is what a GET finds
    after a power loss, whatever else the block held, provided the block is not
    full. *)
Theorem nvram_value_survives d a index name value :
  flash_rel d a → Forall (λ ab, saved ab ≠ None) a →
  history_ok [Request (IOCTL_SET index name value); Request (IOCTL_COMMIT index); Reboot;
              Request (IOCTL_GET index name)] (map areboot a) →
  (∀ ab, map areboot a !! Z.to_nat index = Some ab → size (vol ab) < MAX_CACHE_ENTRY)%nat →
  ∃ k k', ra_nvram_init d = Ret k ∧
    krun [Request (IOCTL_SET index name value); Request (IOCTL_COMMIT index); Reboot;
          Request (IOCTL_GET index name)] k
    = Ret (k', [None; None; None; Some (value ++ [0])]).
Proof.
  intros Hfl Hs Hok Hroom. destruct (boot_sim d a Hfl Hs) as (k & Hk & Hr).
  destruct (krun_sim _ k _ Hr Hok) as (k' & outs & a' & Hrun & Hh & _).
  exists k, k'. split; [done|]. rewrite Hrun.
  inversion Hh as [|? ? ? ? ? ? A1 Hh1]; subst. inversion Hh1 as [|? ? ? ? ? ? A2 Hh2]; subst.
  inversion Hh2 as [|? ? ? ? ? ? A3 Hh3]; subst. inversion Hh3 as [|? ? ? ? ? ? A4 Hh4]; subst.
  inversion Hh4; subst. cbn [event_answer answer_ok] in A1, A2, A3. subst.
  destruct A4 as (ab & Hab & ->). enough (vol ab !! name = Some value) as -> by done.
  cbn [aevent astep] in Hab. change (map areboot ?l) with (areboot <$> l) in Hab.
  rewrite list_lookup_fmap, !list_lookup_alter_eq in Hab.
  destruct (map areboot a !! Z.to_nat index) as [ab0|] eqn:E; [|done].
  cbn in Hab. injection Hab as <-. unfold aset.
  rewrite decide_False by (intros [_ ?]; specialize (Hroom _ eq_refl); lia). cbn.
  by rewrite lookup_insert_eq.
Qed.

(** ** Outside the contract *)

(** The check of [build_env] never fails before the text has left the buffer, which
    is four bytes shorter than what it checks against. *)
Lemma build_env_overflow max_len es data p :
  (length data + 4 = max_len)%nat → (p ≤ length data)%nat →
  (length data < p + length (enc_env es) + 1)%nat → build_env max_len es data p = Oob.
Proof.
  revert data p. induction es as [|[name value] es IH]; intros data p Hl Hp Hlong; cbn [build_env].
  - unfold store. rewrite decide_False; [done|]. cbn in *. lia.
  - rewrite decide_False by lia. unfold store. case_decide as Hd; [|done]. cbn [mbind outcome_bind].
    rewrite !length_app in Hd. cbn [length] in Hd.
    rewrite enc_env_cons, length_app in Hlong. unfold enc_entry in Hlong. rewrite !length_app in Hlong. cbn in Hlong.
    apply IH; rewrite ?splice_length; rewrite ?length_app; cbn [length]; lia.
Qed.

Lemma build_block_overflow c b ab :
  block_rel c b ab → (5 ≤ flash_max_len b)%nat → (data_len b < env_size (vol ab) + 1)%nat →
  build_env (flash_max_len b) (cache b) (replicate (data_len b) 0) 0 = Oob.
Proof.
  intros Hrel Hl Hlong. apply build_env_overflow; rewrite ?length_replicate;
    [unfold data_len, sizeof_crc; lia|lia|].
  rewrite (cache_rep_env_size _ _ (br_cache _ _ _ Hrel)). lia.
Qed.

(** COMMIT of unsaved variables that do not fit, and GETALL of any that do not. *)
Lemma print_overflows k a ab index len :
  store_rel k a → check_index index = true → a !! Z.to_nat index = Some ab →
  block_lens !! Z.to_nat index = Some len → (len < env_size (vol ab) + 1)%nat →
  (unsaved ab = true → nvram_commit index k = Oob) ∧
  ralink_nvram_ioctl (IOCTL_GETALL index) k = Oob.
Proof.
  intros Hr Hc Hab Hlen Hlong.
  destruct (store_rel_block _ _ _ Hr Hc) as (b & ab' & Hb & Hab' & Hat & Hcv & Hrel & [Hl5 Hle] & Hlen').
  simplify_eq. pose proof (build_block_overflow _ _ _ Hrel Hl5 Hlong) as Hov. split.
  - intros Hu. unfold nvram_commit. rewrite Hc, Hcv. cbn [negb mbind outcome_bind].
    change (block_at (bump_counter k) index) with (block_at k index). rewrite Hat. cbn [mbind outcome_bind].
    rewrite (br_dirty _ _ _ Hrel), Hu. cbn [negb]. by rewrite (ensure_data_rel _ _ _ Hrel), Hov.
  - cbn [ralink_nvram_ioctl]. unfold nvram_getall. rewrite Hc, Hat. cbn [negb mbind outcome_bind].
    rewrite Hcv. cbn [mbind outcome_bind].
    change (block_at (bump_counter k) index) with (block_at k index). rewrite ?Hat. cbn [mbind outcome_bind].
    rewrite (ensure_data_rel _ _ _ Hrel). case_bool_decide; [done|]. by rewrite Hov.
Qed.

(** C28. The size check of [nvram_commit] and [nvram_getall] looks at where an entry
    starts and not at where it ends, in a buffer four bytes shorter than it takes it
    for, so it never stops them in time.  Whatever a block holds and whether it is
    saved, after a SET that is accepted the next COMMIT, and as well the next GETALL,
    succeeds when the printed variables and the final NUL fit the block's buffer, and
    writes behind the buffer when they do not. *)
Theorem nvram_commit_overflows k a ab index name value len :
  store_rel k a → request_ok block_lens (IOCTL_SET index name value) a →
  a !! Z.to_nat index = Some ab → (vol ab !! name ≠ None ∨ size (vol ab) < MAX_CACHE_ENTRY)%nat →
  block_lens !! Z.to_nat index = Some len →
  let needed := (env_size (<[name := value]> (vol ab)) + 1)%nat in
  let run req := krun [Request (IOCTL_SET index name value); Request req] k in
  ((needed ≤ len)%nat →
    (∃ k', run (IOCTL_COMMIT index) = Ret (k', [None; None])) ∧
    ∃ k' out, run (IOCTL_GETALL index) = Ret (k', [None; Some out])) ∧
  ((len < needed)%nat → run (IOCTL_COMMIT index) = Oob ∧ run (IOCTL_GETALL index) = Oob).
Proof.
  intros Hr Hok Hab Hroom Hlen needed run. pose proof Hok as (Hc & _).
  destruct (ioctl_sim _ _ _ Hr Hok) as (k1 & out & E & Hr1 & Hans). cbn in Hans. subst out.
  assert (astep (IOCTL_SET index name value) a !! Z.to_nat index =
    Some (mk_ablock (<[name := value]> (vol ab)) (saved ab) true)) as Hab1.
  { cbn [astep]. rewrite list_lookup_alter_eq, Hab. cbn. unfold aset. rewrite decide_False; [done|].
    intros [? ?]. destruct Hroom; [done|lia]. }
  unfold run. cbn [krun kevent]. rewrite E. cbn [mbind outcome_bind]. split; intros Hn.
  - assert (∀ req, req = IOCTL_COMMIT index ∨ req = IOCTL_GETALL index →
      request_ok block_lens req (astep (IOCTL_SET index name value) a)) as Hreq.
    { assert (∀ ab len, astep (IOCTL_SET index name value) a !! Z.to_nat index = Some ab →
        block_lens !! Z.to_nat index = Some len → (env_size (vol ab) + 1 ≤ len)%nat) as Hfit
        by (intros; by simplify_eq).
      by intros ? [-> | ->]. }
    split.
    + destruct (ioctl_sim _ _ _ Hr1 (Hreq (IOCTL_COMMIT index) (or_introl eq_refl))) as (k2 & o & -> & _ & Ho).
      cbn in Ho |- *. subst o. eauto.
    + destruct (ioctl_sim _ _ _ Hr1 (Hreq (IOCTL_GETALL index) (or_intror eq_refl))) as (k2 & o & -> & _ & Ho).
      destruct Ho as (? & ? & ? & _ & _ & _ & ->). cbn [mbind outcome_bind]. eauto.
  - destruct (print_overflows _ _ _ _ _ Hr1 Hc Hab1 Hlen Hn) as [Hcommit ->]. split; [|done].
    cbn [ralink_nvram_ioctl]. by rewrite Hcommit.
Qed.

Lemma fb_init_invalid i x : fb_init !! i = Some x → valid x = false.
Proof. apply (Forall_lookup_1 (λ x, valid x = false)). repeat constructor. Qed.

Lemma strchr_erased n : strchr (replicate n 0xff) EQUALS = Oob.
Proof. induction n as [|n IH]; [done|]. cbn [replicate strchr]. change (255 =? EQUALS) with false. change (255 =? 0) with false. cbn iota. by rewrite IH. Qed.

Lemma parse_erased n len : (0 < n)%nat → parse_env n (replicate len 0xff) 0 = Oob.
Proof. destruct n as [|n]; [lia|]. intros _. cbn [parse_env]. by rewrite drop_0, strchr_erased. Qed.

(** A block that was cleared is all ones under a CRC that matches, so the next
    boot does not skip it but parses it, and looks for a '=' behind its end. *)
Theorem nvram_clear_breaks_boot k a index :
  store_rel k a → check_index index = true →
  ∃ k', nvram_clear index k = Ret (k', 0) ∧
    init_nvram_block index (mk_kstate fb_init 0 (kdev k')) = Oob.
Proof.
  intros Hr Hc. destruct (clear_sim _ _ _ Hr Hc) as (k' & b & Hcl & Hr' & Hb & Harea).
  exists k'. split; [done|]. pose proof (sr_geometry _ _ Hr) as Hg.
  destruct (lookup_lt_is_Some_2 fb_init (Z.to_nat index)) as [x Hx].
  { destruct (geometry_at _ _ _ Hg Hb) as [Hi _]. exact Hi. }
  assert (geometry x = geometry b) as Hxb.
  { destruct (geometry_at _ _ _ Hg Hb) as [_ <-]. by destruct (geometry_at fb_init _ _ eq_refl Hx). }
  rewrite <-(area_geometry _ _ _ Hxb), <-(data_len_geometry _ _ Hxb) in Harea.
  rewrite (init_block_reads (mk_kstate fb_init 0 (kdev k')) index x Hc Hx (sr_flash _ _ Hr')
             (geometry_bounds fb_init _ _ eq_refl Hx) (fb_init_invalid _ _ Hx)).
  cbn [kdev]. rewrite Harea, drop_app_length', take_app_length', of_le_le32 by (done || apply crc32_word).
  rewrite Z.eqb_refl. cbn [negb]. rewrite parse_erased; [done|unfold MAX_CACHE_ENTRY; lia].
Qed.

End Histories.

(** * An instance: a NOR flash whose blocks are empty *)

#[export] Program Instance nor_reliable : ReliableFlash nor_dev := {| reliable d := nor_ok d = true |}.
Next Obligation. done. Qed.
Next Obligation.
  intros d from n Hok Hn. cbn in *. unfold nor_contents in Hn. rewrite Hok in Hn |- *.
  rewrite bool_decide_true by done. eauto.
Qed.
Next Obligation.
  intros d size es Hok Hi Hes. cbn in *. rewrite Hok in Hi |- *. injection Hi as <- <-.
  rewrite !bool_decide_true by (cbn; done || apply Nat.Div0.mod_0_l). cbn. eexists. split; [done|].
  apply nor_ok_splice; [done|rewrite length_replicate; cbn; done|].
  apply bytes_ok_replicate. unfold byte_ok. lia.
Qed.
Next Obligation.
  intros d a b Hok Hl Hb. cbn in *. unfold nor_contents in Hl. rewrite Hok in Hl |- *.
  rewrite bool_decide_true by done. cbn [andb]. eexists. split; [done|].
  apply nor_ok_splice; [done|rewrite length_zip_with, length_take, length_drop; lia|].
  apply zip_land_bytes, bytes_ok_take, bytes_ok_drop. unfold nor_ok in Hok.
  rewrite !andb_true_iff, !bool_decide_eq_true in Hok. tauto.
Qed.

Definition total_malloc : Malloc := λ _, true.
#[export] Instance total_malloc_total : MallocTotal (H:=total_malloc).
Proof. intros n. reflexivity. Qed.

Definition empty_image (b : block_t) : bytes :=
  le32 (nv_crc32 0 (env_image (data_len b) [])) ++ env_image (data_len b) [].

Definition ERASE_SIZE : nat := Z.to_nat 0x10000.

Definition format_mem : bytes :=
  foldl (λ c b, splice c (flash_offset b) (empty_image b)) (replicate ERASE_SIZE 0xff) fb_init.

Definition format_dev : nor_dev := mk_nor format_mem ERASE_SIZE.

Definition empty_store : list ablock := replicate 4 (mk_ablock ∅ (Some ∅) false).

Lemma empty_image_length b : (5 ≤ flash_max_len b)%nat → length (empty_image b) = flash_max_len b.
Proof.
  intros Hl. unfold empty_image. rewrite length_app, env_image_length by (cbn; lia).
  unfold data_len, sizeof_crc. change (length (le32 _)) with 4%nat. lia.
Qed.

Lemma empty_image_ok b : bytes_ok (empty_image b).
Proof.
  unfold empty_image, env_image. rewrite !bytes_ok_app. split_and!; [apply bytes_ok_le32|constructor|].
  apply bytes_ok_replicate. unfold byte_ok. lia.
Qed.

Lemma fb_bounds b :
  b ∈ fb_init → (5 ≤ flash_max_len b ∧ flash_offset b + flash_max_len b ≤ CONFIG_END)%nat.
Proof. intros (i & Hi)%list_elem_of_lookup. by eapply (geometry_bounds fb_init). Qed.

(** Writing the images of some blocks of the table keeps the size and the
    range of the bytes, and the areas of the other blocks. *)
Lemma format_blocks_spec bs c :
  (∀ b, b ∈ bs → b ∈ fb_init) → (CONFIG_END ≤ length c)%nat → bytes_ok c →
  let c' := foldl (λ c b, splice c (flash_offset b) (empty_image b)) c bs in
  length c' = length c ∧ bytes_ok c' ∧
  ∀ x, (∀ b, b ∈ bs → flash_offset x + flash_max_len x ≤ flash_offset b
                      ∨ flash_offset b + flash_max_len b ≤ flash_offset x)%nat → area c' x = area c x.
Proof.
  revert c. induction bs as [|b bs IH]; intros c Hs Hl Hb; cbn [foldl]; [done|].
  assert (b ∈ b :: bs) as Hbb by constructor.
  destruct (fb_bounds b) as [Hb5 Hbe]; [by apply Hs|]. pose proof (empty_image_length b Hb5) as Hil.
  destruct (IH (splice c (flash_offset b) (empty_image b))) as (Hl' & Hb' & Ha).
  - intros y Hy. apply Hs. by constructor.
  - rewrite splice_length; lia.
  - apply splice_bytes_ok; [done|apply empty_image_ok].
  - split_and!; [rewrite Hl'; apply splice_length; lia|done|]. intros x Hx.
    rewrite Ha by (intros y Hy; apply Hx; by constructor).
    unfold area. apply area_splice_other; [lia|]. rewrite Hil. destruct (Hx b Hbb); lia.
Qed.

Lemma format_area pre x post :
  fb_init = pre ++ x :: post → area format_mem x = empty_image x.
Proof.
  intros Hfb. unfold format_mem. rewrite Hfb, foldl_app. cbn [foldl].
  assert (∀ b, b ∈ pre ∨ b = x ∨ b ∈ post → b ∈ fb_init) as Hin
    by (intros b Hb; rewrite Hfb, elem_of_app, elem_of_cons; tauto).
  destruct (fb_bounds x) as [Hx5 Hxe]; [apply Hin; tauto|].
  destruct (format_blocks_spec pre (replicate ERASE_SIZE 0xff)) as (Hl & Hb & _);
    [intros b Hb; apply Hin; tauto|rewrite length_replicate; unfold CONFIG_END, ERASE_SIZE; lia
    |apply bytes_ok_replicate; unfold byte_ok; lia|]. rewrite length_replicate in Hl.
  set (c1 := foldl _ (replicate ERASE_SIZE 0xff) pre) in *.
  assert (CONFIG_END ≤ length c1)%nat by (rewrite Hl; unfold CONFIG_END, ERASE_SIZE; lia).
  destruct (format_blocks_spec post (splice c1 (flash_offset x) (empty_image x))) as (_ & _ & Ha).
  - intros b Hb'. apply Hin. tauto.
  - rewrite splice_length by (rewrite empty_image_length; lia). done.
  - apply splice_bytes_ok; [done|apply empty_image_ok].
  - rewrite Ha; [apply area_splice_self; [by apply empty_image_length|lia]|].
    intros b (j & Hj)%list_elem_of_lookup.
    apply (geometry_disjoint fb_init (length pre) (length pre + 1 + j)); [done| | |lia].
    + rewrite Hfb. by apply list_lookup_middle.
    + rewrite Hfb, lookup_app_r by lia. by replace (_ - _)%nat with (S j) by lia.
Qed.

Lemma format_mem_ok : length format_mem = ERASE_SIZE ∧ bytes_ok format_mem.
Proof.
  destruct (format_blocks_spec fb_init (replicate ERASE_SIZE 0xff)) as (Hl & Hb & _).
  - intros b Hb. exact Hb.
  - rewrite length_replicate. unfold CONFIG_END, ERASE_SIZE. lia.
  - apply bytes_ok_replicate. unfold byte_ok. lia.
  - rewrite length_replicate in Hl. exact (conj Hl Hb).
Qed.

Lemma nor_ok_intro mem es :
  bytes_ok mem → length mem = es → es ≠ 0%nat → Z.of_nat es = 2 ^ Z.log2 (Z.of_nat es) →
  nor_ok (mk_nor mem es) = true.
Proof.
  intros Hb Hl H0 Hp. unfold nor_ok. cbn [nor_mem nor_es]. rewrite Hl.
  rewrite !andb_true_iff, !bool_decide_eq_true. split_and!; [done|done|lia|apply Nat.Div0.mod_same].
Qed.

(** A memory with an empty block at every place of the table. *)
Lemma empty_flash mem :
  bytes_ok mem → length mem = ERASE_SIZE →
  (∀ pre x post, fb_init = pre ++ x :: post → area mem x = empty_image x) →
  flash_rel (mk_nor mem ERASE_SIZE) empty_store.
Proof.
  intros Hb Hl Ha. assert (nor_ok (mk_nor mem ERASE_SIZE) = true) as Hok.
  { apply nor_ok_intro; [exact Hb|exact Hl|unfold ERASE_SIZE; lia|].
    unfold ERASE_SIZE. rewrite Z2Nat.id by lia. reflexivity. }
  split.
  - split; [exact Hok|]. exists (length mem), ERASE_SIZE. cbn [mtd_info nor_mtd].
    rewrite Hok. split; [reflexivity|]. rewrite Hl. unfold CONFIG_END, ERASE_SIZE. lia.
  - change (contents (mk_nor mem ERASE_SIZE)) with (nor_contents (mk_nor mem ERASE_SIZE)).
    unfold nor_contents. rewrite Hok. cbn [nor_mem].
    assert (∀ pre x post, fb_init = pre ++ x :: post → holds (data_len x) (area mem x) (Some ∅)) as Hh.
    { intros pre x post Hfb. destruct (fb_bounds x) as [Hx5 _]; [rewrite Hfb, elem_of_app, elem_of_cons; tauto|].
      apply (holds_image _ _ []); [split_and!; [constructor|done|constructor|cbn; lia]| |by eapply Ha].
      cbn. unfold data_len, sizeof_crc. lia. }
    constructor; [exact (Hh [] _ _ eq_refl)|]. constructor; [exact (Hh (take 1 fb_init) _ _ eq_refl)|].
    constructor; [exact (Hh (take 2 fb_init) _ _ eq_refl)|].
    constructor; [exact (Hh (take 3 fb_init) _ _ eq_refl)|]. constructor.
Qed.

Lemma format_flash : flash_rel format_dev empty_store.
Proof. exact (empty_flash format_mem (proj2 format_mem_ok) (proj1 format_mem_ok) format_area). Qed.

Definition demo_history : list event :=
  [Request (IOCTL_SET 0 [97] [98]); Request (IOCTL_COMMIT 0); Reboot; Request (IOCTL_GET 0 [97])].

Lemma block_len_bound i len : block_lens !! i = Some len → (100 ≤ len)%nat.
Proof.
  apply (Forall_lookup_1 (λ len, 100 ≤ len)%nat). unfold block_lens, fb_init. cbn [map].
  repeat apply Forall_cons_2; [..|by apply Forall_nil];
    unfold data_len, sizeof_crc; cbn [flash_max_len new_block]; unfold ENV_BLK_SIZE; lia.
Qed.

Lemma demo_entry_good : good_entry ([97], [98]).
Proof. split; (constructor; [cbn; unfold byte_ok, EQUALS; lia|constructor]). Qed.

Lemma demo_history_ok : history_ok demo_history (map areboot empty_store).
Proof.
  unfold demo_history. cbn [history_ok event_ok request_ok].
  split; [split_and!; [reflexivity|apply demo_entry_good|unfold MAX_VALUE_LEN, ENV_BLK_SIZE; cbn [length]; lia]|].
  split; [split; [reflexivity|]|].
  - intros ab len Hab Hlen%block_len_bound. injection Hab as <-.
    change (env_size _) with 4%nat. lia.
  - split; [|split; [reflexivity|exact I]]. do 4 (constructor; [discriminate|]). constructor.
Qed.

Lemma nvram_refines_store_witness :
  ∃ k k' outs a', ra_nvram_init (H0:=total_malloc) format_dev = Ret k
    ∧ krun (H2:=total_malloc) demo_history k = Ret (k', outs)
    ∧ history demo_history (map areboot empty_store) outs a' ∧ flash_rel (kdev k') a'.
Proof.
  apply (nvram_refines_store format_dev empty_store demo_history).
  - exact format_flash.
  - do 4 (constructor; [discriminate|]). constructor.
  - exact demo_history_ok.
Defined.

Lemma nvram_value_survives_witness :
  ∃ k k', ra_nvram_init (H0:=total_malloc) format_dev = Ret k ∧
    krun (H2:=total_malloc) demo_history k = Ret (k', [None; None; None; Some [98; 0]]).
Proof.
  apply (nvram_value_survives format_dev empty_store 0 [97] [98]).
  - exact format_flash.
  - do 4 (constructor; [discriminate|]). constructor.
  - exact demo_history_ok.
  - intros ab Hab. injection Hab as <-. change (size _) with 0%nat. unfold MAX_CACHE_ENTRY. lia.
Defined.

Lemma demo_boot : ∃ k : kstate nor_dev, store_rel k (map areboot empty_store).
Proof.
  destruct (boot_sim (H2:=total_malloc) format_dev empty_store format_flash) as (k & _ & Hr); [|by exists k].
  do 4 (constructor; [discriminate|]). constructor.
Qed.

Lemma nvram_commit_overflows_witness :
  (∃ k : kstate nor_dev, krun (H2:=total_malloc)
    [Request (IOCTL_SET 1 [97] (replicate (Z.to_nat 0x2000) 98)); Request (IOCTL_COMMIT 1)] k = Oob) ∧
  ∃ k k' : kstate nor_dev, krun (H2:=total_malloc)
    [Request (IOCTL_SET 1 [97] [98]); Request (IOCTL_COMMIT 1)] k = Ret (k', [None; None]).
Proof.
  destruct demo_boot as [k Hr].
  assert (∀ v : bytes, good_entry ([97], v) → (length v < MAX_VALUE_LEN)%nat →
    request_ok block_lens (IOCTL_SET 1 [97] v) (map areboot empty_store)) as Hok by done.
  assert (∀ v : bytes, env_size (<[[97] := v]> (∅ : gmap bytes bytes)) = (length v + 3)%nat) as Hsize.
  { intros v. unfold env_size. rewrite insert_empty, map_to_list_singleton. cbn. rewrite !length_app. cbn. lia. }
  split.
  - exists k. eapply (nvram_commit_overflows k (map areboot empty_store) _ 1 [97] (replicate (Z.to_nat 0x2000) 98));
      [exact Hr| |reflexivity|right; vm_compute; lia|reflexivity|].
    + apply Hok; [split; [repeat constructor; done|apply Forall_replicate; done]|].
      rewrite length_replicate. unfold MAX_VALUE_LEN, ENV_BLK_SIZE. lia.
    + rewrite Hsize, length_replicate. unfold data_len, sizeof_crc. cbn [flash_max_len new_block length].
      unfold ENV_BLK_SIZE. lia.
  - exists k. eapply (nvram_commit_overflows k (map areboot empty_store) _ 1 [97] [98]);
      [exact Hr| |reflexivity|right; vm_compute; lia|reflexivity|].
    + apply Hok; [exact demo_entry_good|]. unfold MAX_VALUE_LEN, ENV_BLK_SIZE. cbn. lia.
    + rewrite Hsize. unfold data_len, sizeof_crc. cbn [flash_max_len new_block length].
      unfold ENV_BLK_SIZE. lia.
Defined.

Lemma nvram_clear_breaks_boot_witness :
  ∃ k k' : kstate nor_dev, nvram_clear (H0:=total_malloc) 2 k = Ret (k', 0) ∧
    init_nvram_block (H0:=total_malloc) 2 (mk_kstate fb_init 0 (kdev k')) = Oob.
Proof.
  destruct demo_boot as [k Hr]. exists k.
  apply (nvram_clear_breaks_boot k (map areboot empty_store)); [exact Hr|reflexivity].
Defined.
