(* ===== verification/LibNvram.v ===== *)
(** The NVRAM library that programs link ([lib/libnvram/nvram_env.c]), in the
    configuration the SDK builds (CONFIG_KERNEL_NVRAM): each process keeps a
    cache of names and reaches the kernel's driver through [/dev/nvram].

    The device is the interface [NvramDev]; [KernelNvram] implements it.
    [malloc] and [strdup] are taken to succeed. *)

From S2P Require Import Prelude Md5 Crc32 Flash KernelNvram.

(** [open(NV_DEV)] succeeds or not; a request gives the return value of
    [ioctl] and what it copied to [nvr.value]. *)
Class NvramDev (K : Type) := {
  nvdev_open : K → bool;
  nvdev_ioctl : nvram_ioctl → K → outcome (K * Z * option bytes)
}.

#[export] Instance kernel_nvram_dev `{Mtd D} `{Malloc} : NvramDev (kstate D) := {
  nvdev_open _ := true;
  nvdev_ioctl := ralink_nvram_ioctl
}.

(** A process: its own table of blocks.  The table has the initial contents
    of the kernel's. *)
Definition lib_init : list block_t := fb_init.

Section Library.
Context {K : Type} `{NvramDev K}.

Record lstate := mk_lstate { lfb : list block_t; ldev : K }.
#[local] Instance eta_lstate : Eta lstate := λ s, mk_lstate (lfb s) (ldev s).
Implicit Types s : lstate.

Definition lblock_at s (index : Z) : outcome block_t :=
  if check_index index
  then match lfb s !! Z.to_nat index with Some b => Ret b | None => Oob end
  else Oob.

Definition lset_block s (index : Z) (b : block_t) : lstate :=
  s ⦃ lfb := <[Z.to_nat index := b]> (lfb s) ⦄.

(** Open the device, request, close: [None] when either fails. *)
Definition request (req : nvram_ioctl) s : outcome (lstate * option (option bytes)) :=
  if negb (nvdev_open (ldev s)) then Ret (s, None)
  else
    let* (k, r, out) := nvdev_ioctl req (ldev s) in
    let s := s ⦃ ldev := k ⦄ in
    Ret (s, if r <? 0 then None else Some out).

Definition nvram_init (index : Z) s : outcome lstate :=
  if negb (check_index index) then Ret s
  else
    let* b := lblock_at s index in
    if valid b then Ret s
    else
      let* (s, r) := request (IOCTL_GETALL index) s in
      match r with
      | None => Ret (lset_block s index (b ⦃ env_data := None ⦄))
      | Some out =>
          let* data := store (uninit (data_len b)) 0 (default [] out) in
          let* (_, entries) := parse_env MAX_CACHE_ENTRY data 0 in
          let b := b ⦃ cache := entries ++ drop (length entries) (cache b) ⦄ in
          Ret (lset_block s index (b ⦃ valid := true ⦄ ⦃ dirty := false ⦄ ⦃ env_data := None ⦄))
      end.

(** [LIBNV_CHECK_VALID] *)
Definition lib_check_valid (index : Z) s : outcome lstate :=
  let* b := lblock_at s index in
  if valid b then Ret s else nvram_init index s.

Definition nvram_commit (index : Z) s : outcome (lstate * Z) :=
  if negb (check_index index) then Ret (s, -1)
  else
    let* s := lib_check_valid index s in
    let* (s, r) := request (IOCTL_COMMIT index) s in
    match r with
    | None => Ret (s, -1)
    | Some _ =>
        let* b := lblock_at s index in
        Ret (lset_block s index (b ⦃ dirty := false ⦄), 0)
    end.

Definition nvram_close (index : Z) s : outcome lstate :=
  if negb (check_index index) then Ret s
  else
    let* b := lblock_at s index in
    if negb (valid b) then Ret s
    else
      let* s := (if dirty b then let* (s, _) := nvram_commit index s in Ret s else Ret s) in
      let* b := lblock_at s index in
      Ret (lset_block s index (b ⦃ env_data := None ⦄ ⦃ cache := [] ⦄ ⦃ valid := false ⦄)).

(** The kernel is asked first, but its answer is used only for a name the
    process has in its cache. *)
Definition nvram_bufget (index : Z) (name : bytes) s : outcome (lstate * bytes) :=
  if negb (check_index index) then Ret (s, [])
  else
    let* s := lib_check_valid index s in
    let* (s, r) := request (IOCTL_GET index name) s in
    match r with
    | None => Ret (s, [])
    | Some out =>
        let* buf := store (uninit MAX_VALUE_LEN) 0 (default [] out) in
        let* b := lblock_at s index in
        match find_idx name (cache b) with
        | None => Ret (s, [])
        | Some idx =>
            let* value := cstr buf in
            Ret (lset_block s index (b ⦃ cache := <[idx := (name, value)]> (cache b) ⦄), value)
        end
    end.

Definition nvram_bufset (index : Z) (name value : bytes) s : outcome (lstate * Z) :=
  if negb (check_index index) then Ret (s, -1)
  else
    let* s := lib_check_valid index s in
    let* (s, r) := request (IOCTL_SET index name value) s in
    match r with
    | None => Ret (s, -1)
    | Some _ =>
        let* b := lblock_at s index in
        match find_idx name (cache b) with
        | None =>
            if decide (MAX_CACHE_ENTRY ≤ length (cache b))%nat then Ret (s, -1)
            else Ret (lset_block s index (b ⦃ cache := cache b ++ [(name, value)] ⦄ ⦃ dirty := true ⦄), 0)
        | Some idx =>
            Ret (lset_block s index (b ⦃ cache := <[idx := (name, value)]> (cache b) ⦄ ⦃ dirty := true ⦄), 0)
        end
    end.

Definition nvram_get (index : Z) (name : bytes) s : outcome (lstate * bytes) :=
  nvram_bufget index name s.

Definition nvram_set (index : Z) (name value : bytes) s : outcome (lstate * Z) :=
  let* (s, r) := nvram_bufset index name value s in
  if r =? -1 then Ret (s, -1) else nvram_commit index s.

(** The lines printed. *)
Definition nvram_buflist (index : Z) s : outcome (lstate * list cache_t) :=
  if negb (check_index index) then Ret (s, [])
  else
    let* s := lib_check_valid index s in
    let* b := lblock_at s index in
    Ret (s, cache b).

Definition nvram_clear (index : Z) s : outcome (lstate * Z) :=
  if negb (check_index index) then Ret (s, -1)
  else
    let* s := nvram_close index s in
    let* (s, r) := request (IOCTL_CLEAR index) s in
    match r with
    | None => Ret (s, -1)
    | Some _ =>
        let* b := lblock_at s index in
        Ret (lset_block s index (b ⦃ dirty := false ⦄), 0)
    end.

Definition getNvramNum : Z := Z.of_nat FLASH_BLOCK_NUM.

Definition getNvramOffset (index : Z) s : outcome Z :=
  if negb (check_index index) then Ret 0
  else let* b := lblock_at s index in Ret (Z.of_nat (flash_offset b)).

Definition getNvramName (index : Z) s : outcome (option bytes) :=
  if negb (check_index index) then Ret None
  else let* b := lblock_at s index in Ret (Some (block_name b)).

Definition getNvramBlockSize (index : Z) s : outcome Z :=
  if negb (check_index index) then Ret 0
  else let* b := lblock_at s index in Ret (Z.of_nat (flash_max_len b)).

(** The -1 of the end is returned as an unsigned int. *)
Definition getNvramIndex (name : bytes) s : Z :=
  match list_find (λ b, block_name b = name) (lfb s) with
  | Some (i, _) => Z.of_nat i
  | None => u32 (-1)
  end.

End Library.
Arguments lstate : clear implicits.
#[export] Existing Instance eta_lstate.
