(* ===== verification/LibNvramProps.v ===== *)
(** Properties of the NVRAM library over the kernel's driver: what one process
    sets, another reads, also after a power loss; and what a process with an
    old cache does not see. *)

From stdpp Require Import gmap.
From S2P Require Import Prelude Md5 Crc32 Flash FlashProps.
From S2P Require Import KernelNvram KernelNvramText KernelNvramSpec KernelNvramSim KernelNvramProps LibNvram.

(** The variables of a block fit into it. *)
Definition fits (a : list ablock) (index : Z) : Prop :=
  ∀ ab len, a !! Z.to_nat index = Some ab → block_lens !! Z.to_nat index = Some len →
    (env_size (vol ab) + 1 ≤ len)%nat.

Lemma store_whole (b d : bytes) : length b = length d → store b 0 d = Ret d.
Proof.
  intros Hl. unfold store. rewrite decide_True by lia. unfold splice.
  rewrite take_0, drop_ge by lia. by rewrite app_nil_r.
Qed.

Lemma cstr_stored (v : bytes) n buf :
  good_value v → store (uninit n) 0 (v ++ [0]) = Ret buf → cstr buf = Ret v.
Proof.
  intros Hv Hs. apply store_Ret in Hs as [_ ->]. unfold splice. rewrite take_0, app_nil_l, <-app_assoc.
  apply cstr_found. eapply Forall_impl; [|exact Hv]. naive_solver.
Qed.

Lemma env_size_lookup m name v : m !! name = Some v → (length v + 2 ≤ env_size m)%nat.
Proof.
  intros Hm. unfold env_size. rewrite <-elem_of_map_to_list in Hm.
  apply list_elem_of_split in Hm as (l1 & l2 & ->). unfold enc_env.
  rewrite map_app, concat_app. cbn [map concat]. rewrite !length_app, enc_entry_length. cbn [snd]. lia.
Qed.

Lemma block_len_value len i : block_lens !! i = Some len → (len < MAX_VALUE_LEN)%nat.
Proof.
  apply (Forall_lookup_1 (λ len, len < MAX_VALUE_LEN)%nat). unfold block_lens, fb_init. cbn [map].
  repeat apply Forall_cons_2; [..|by apply Forall_nil];
    unfold data_len, sizeof_crc, MAX_VALUE_LEN; cbn [flash_max_len new_block]; unfold ENV_BLK_SIZE; lia.
Qed.

Lemma fb_init_fresh index :
  check_index index = true →
  ∃ b, lib_init !! Z.to_nat index = Some b ∧ valid b = false ∧ cache b = []
    ∧ block_lens !! Z.to_nat index = Some (data_len b).
Proof.
  unfold check_index, FLASH_BLOCK_NUM. intros Hc. assert (Z.to_nat index < 4)%nat as Hi by lia.
  destruct (lookup_lt_is_Some_2 fb_init (Z.to_nat index) Hi) as [b Hb]. exists b.
  split_and!; [done|by eapply fb_init_invalid| |].
  - revert Hb. apply (Forall_lookup_1 (λ b, cache b = [])). repeat constructor.
  - unfold block_lens. change (map data_len fb_init) with (data_len <$> fb_init).
    rewrite list_lookup_fmap. exact (f_equal (fmap data_len) Hb).
Qed.

Section Lib.
Context {D : Type} `{ReliableFlash D} `{MallocTotal}.
Implicit Types (s : lstate (kstate D)) (k : kstate D).

Lemma lblock_lookup s index b :
  check_index index = true → lfb s !! Z.to_nat index = Some b → lblock_at s index = Ret b.
Proof. intros Hc Hb. unfold lblock_at. by rewrite Hc, Hb. Qed.

Lemma lblock_insert l k index b b0 :
  check_index index = true → l !! Z.to_nat index = Some b0 →
  lblock_at (mk_lstate (<[Z.to_nat index := b]> l) k) index = Ret b.
Proof.
  intros Hc Hb. apply lblock_lookup; [done|]. by eapply list_lookup_insert_eq, lookup_lt_Some.
Qed.

Lemma request_sim req s a :
  store_rel (ldev s) a → request_ok block_lens req a →
  ∃ k out, request req s = Ret (mk_lstate (lfb s) k, Some out)
    ∧ store_rel k (astep req a) ∧ answer_ok block_lens req a out.
Proof.
  intros Hr Hok. destruct (ioctl_sim _ _ _ Hr Hok) as (k & out & He & Hr' & Ha).
  exists k, out. split_and!; [|done|done]. unfold request. cbn [nvdev_open kernel_nvram_dev negb nvdev_ioctl].
  rewrite He. done.
Qed.

(** A process that has not used a block yet learns all its variables. *)
Lemma lib_init_sim s a index b :
  store_rel (ldev s) a → check_index index = true → fits a index →
  lfb s !! Z.to_nat index = Some b → valid b = false → cache b = [] →
  block_lens !! Z.to_nat index = Some (data_len b) →
  ∃ k b' ab, nvram_init index s = Ret (mk_lstate (<[Z.to_nat index := b']> (lfb s)) k)
    ∧ store_rel k a ∧ a !! Z.to_nat index = Some ab ∧ valid b' = true
    ∧ cache_rep (cache b') (vol ab).
Proof.
  intros Hr Hc Hfit Hb Hv Hca Hlen. unfold nvram_init. rewrite Hc. cbn [negb].
  unfold lblock_at. rewrite Hc, Hb. cbn [mbind outcome_bind]. rewrite Hv.
  destruct (request_sim (IOCTL_GETALL index) s a Hr (conj Hc Hfit)) as (k & out & -> & Hr' & Ha).
  cbn [mbind outcome_bind]. destruct Ha as (ab & len & es & Hab & Hlen' & Hp & ->).
  rewrite Hlen in Hlen'. injection Hlen' as <-. pose proof (Hfit _ _ Hab Hlen) as Hf.
  destruct (store_rel_block _ _ _ Hr Hc) as (kb & ab' & _ & Hab' & _ & _ & Hrel & _ & _).
  rewrite Hab in Hab'. injection Hab' as <-. pose proof (br_cache _ _ _ Hrel) as Hcr.
  assert (es ≡ₚ cache kb) as Hpk by (rewrite (cache_rep_perm _ _ Hcr); done).
  unfold env_size in Hf. rewrite <-(enc_env_perm _ _ Hp) in Hf.
  destruct Hcr as (Hnd & Hm & Hg & Hl).
  assert (cache_rep es (vol ab)) as Hes.
  { split_and!; [by rewrite Hpk| |by rewrite Hpk|by rewrite Hpk].
    rewrite <-Hm. symmetry. by apply list_to_map_proper. }
  cbn [default from_option id].
  rewrite store_whole by (rewrite env_image_length; unfold uninit; rewrite ?length_replicate; lia).
  cbn [mbind outcome_bind]. rewrite parse_env_image by (done || apply Hes). cbn [mbind outcome_bind].
  eexists k, _, ab. split; [reflexivity|]. split_and!; [done|done|done|].
  cbn. by rewrite Hca, drop_nil, app_nil_r.
Qed.

(** What a process that has the block in use reads. *)
Lemma lib_get_sim s a index b name ab :
  store_rel (ldev s) a → check_index index = true → fits a index →
  lfb s !! Z.to_nat index = Some b → valid b = true → a !! Z.to_nat index = Some ab →
  ∃ s', nvram_get index name s
        = Ret (s', if find_idx name (cache b) is Some _ then default [] (vol ab !! name) else [])
    ∧ store_rel (ldev s') a.
Proof.
  intros Hr Hc Hfit Hb Hv Hab. unfold nvram_get, nvram_bufget, lib_check_valid, lblock_at.
  rewrite Hc, Hb. cbn [negb mbind outcome_bind]. rewrite Hv. cbn [mbind outcome_bind].
  destruct (request_sim (IOCTL_GET index name) s a Hr Hc) as (k & out & -> & Hr' & Ha).
  cbn [mbind outcome_bind]. destruct Ha as (ab' & Hab' & ->). rewrite Hab in Hab'. injection Hab' as <-.
  destruct (store_rel_block _ _ _ Hr Hc) as (kb & ab' & _ & Hab' & _ & _ & Hrel & _ & Hlen).
  rewrite Hab in Hab'. injection Hab' as <-. pose proof (br_cache _ _ _ Hrel) as Hcr.
  pose proof (Hfit _ _ Hab Hlen) as Hf. pose proof (block_len_value _ _ Hlen) as Hmax.
  set (v := default [] (vol ab !! name)).
  assert (good_value v ∧ length v < MAX_VALUE_LEN)%nat as [Hgv Hlv].
  { unfold v. destruct (vol ab !! name) as [w|] eqn:Hw; cbn [default from_option id]; [|split; [constructor|cbn [length]; lia]].
    apply env_size_lookup in Hw as Hsz. split; [|lia]. rewrite <-elem_of_map_to_list in Hw.
    rewrite <-(cache_rep_perm _ _ Hcr) in Hw. destruct Hcr as (_ & _ & Hg & _).
    by apply (proj1 (list.Forall_forall _ _) Hg) in Hw as [_ Hw]. }
  cbn [default from_option id]. destruct (store _ 0 (v ++ [0])) as [buf| |] eqn:Hs.
  2,3: unfold store, uninit in Hs; rewrite decide_True in Hs; [done|];
       rewrite length_app, length_replicate; cbn [length]; lia.
  cbn [mbind outcome_bind lfb]. rewrite Hb. cbn [mbind outcome_bind].
  destruct (find_idx name (cache b)) as [i|]; [|eexists; split; [done|done]].
  rewrite (cstr_stored v _ _ Hgv Hs). cbn [mbind outcome_bind]. eexists. split; [done|done].
Qed.

(** A process that has not used the block yet. *)
Lemma lib_fresh_get_sim k a index name ab :
  store_rel k a → check_index index = true → fits a index → a !! Z.to_nat index = Some ab →
  ∃ s', nvram_get index name (mk_lstate lib_init k) = Ret (s', default [] (vol ab !! name))
    ∧ store_rel (ldev s') a.
Proof.
  intros Hr Hc Hfit Hab.
  destruct (store_rel_block _ _ _ Hr Hc) as (kb & _ & Hkb & _ & _ & _ & _ & _ & Hlen).
  destruct (fb_init_fresh index Hc) as (b & Hb & Hv & Hca & Hbl).
  destruct (lib_init_sim (mk_lstate lib_init k) a index b Hr Hc Hfit Hb Hv Hca Hbl)
    as (k1 & b1 & ab1 & Hi & Hr1 & Hab1 & Hv1 & Hcr). rewrite Hab in Hab1. injection Hab1 as <-.
  set (s1 := mk_lstate (<[Z.to_nat index := b1]> lib_init) k1) in *.
  assert (lfb s1 !! Z.to_nat index = Some b1) as Hb1.
  { apply list_lookup_insert_eq. by eapply lookup_lt_Some. }
  assert (lib_check_valid index (mk_lstate lib_init k) = Ret s1) as Hcv.
  { unfold lib_check_valid, lblock_at. cbn [lfb]. rewrite Hc, Hb. cbn [mbind outcome_bind]. rewrite Hv. exact Hi. }
  assert (lib_check_valid index s1 = Ret s1) as Hcv1.
  { unfold lib_check_valid, lblock_at. rewrite Hc, Hb1. cbn [mbind outcome_bind]. by rewrite Hv1. }
  destruct (lib_get_sim s1 a index b1 name ab) as (s' & Hg & Hr'); try done.
  exists s'. split; [|done].
  replace (nvram_get index name (mk_lstate lib_init k)) with (nvram_get index name s1)
    by (unfold nvram_get, nvram_bufget; rewrite Hcv, Hcv1, Hc; reflexivity).
  rewrite Hg. do 2 f_equal.
  destruct (find_idx name (cache b1)) eqn:Hf; [done|]. by rewrite (cache_rep_absent _ _ _ Hcr Hf).
Qed.

(** A process sets a variable: the kernel's store has it saved. *)
Lemma lib_set_sim k a index name value ab :
  store_rel k a → check_index index = true → fits a index → a !! Z.to_nat index = Some ab →
  good_entry (name, value) → (length value < MAX_VALUE_LEN)%nat →
  (size (vol ab) < MAX_CACHE_ENTRY)%nat → fits (alter (aset name value) (Z.to_nat index) a) index →
  ∃ s', nvram_set index name value (mk_lstate lib_init k) = Ret (s', 0)
    ∧ store_rel (ldev s') (alter acommit (Z.to_nat index) (alter (aset name value) (Z.to_nat index) a)).
Proof.
  intros Hr Hc Hfit Hab Hg Hl Hroom Hfit'.
  destruct (fb_init_fresh index Hc) as (b & Hb & Hv & Hca & Hbl).
  destruct (lib_init_sim (mk_lstate lib_init k) a index b Hr Hc Hfit Hb Hv Hca Hbl)
    as (k1 & b1 & ab1 & Hi & Hr1 & Hab1 & Hv1 & Hcr). rewrite Hab in Hab1. injection Hab1 as <-.
  pose proof (cache_rep_size _ _ Hcr) as Hsz. cbn [lfb] in Hi.
  unfold nvram_set, nvram_bufset, lib_check_valid. rewrite Hc, (lblock_lookup (mk_lstate lib_init k) index b Hc Hb).
  cbn [negb mbind outcome_bind]. rewrite Hv, Hi. cbn [mbind outcome_bind].
  destruct (request_sim (IOCTL_SET index name value) (mk_lstate (<[Z.to_nat index := b1]> lib_init) k1) a Hr1
              (conj Hc (conj Hg Hl))) as (k2 & out & -> & Hr2 & _).
  cbn [mbind outcome_bind lfb]. rewrite (lblock_insert _ _ _ _ _ Hc Hb). cbn [mbind outcome_bind].
  assert (∃ b2, valid b2 = true ∧
    match find_idx name (cache b1) with
    | Some idx => Ret (lset_block (mk_lstate (<[Z.to_nat index := b1]> lib_init) k2) index
                    (b1 ⦃ cache := <[idx := (name, value)]> (cache b1) ⦄ ⦃ dirty := true ⦄), 0)
    | None =>
        if decide (MAX_CACHE_ENTRY ≤ length (cache b1))%nat
        then Ret (mk_lstate (<[Z.to_nat index := b1]> lib_init) k2, -1)
        else Ret (lset_block (mk_lstate (<[Z.to_nat index := b1]> lib_init) k2) index
               (b1 ⦃ cache := cache b1 ++ [(name, value)] ⦄ ⦃ dirty := true ⦄), 0)
    end = Ret (mk_lstate (<[Z.to_nat index := b2]> lib_init) k2, 0)) as (b2 & Hv2 & ->).
  { destruct (find_idx name (cache b1)); [|rewrite decide_False by lia];
      (eexists; split; [|unfold lset_block; cbn [lfb set]; rewrite list_insert_insert_eq; reflexivity]); exact Hv1. }
  cbn [mbind outcome_bind]. change (0 =? -1) with false. cbn iota.
  unfold nvram_commit, lib_check_valid. rewrite Hc, (lblock_insert _ _ _ _ _ Hc Hb).
  cbn [negb mbind outcome_bind]. rewrite Hv2.
  cbn [mbind outcome_bind].
  destruct (request_sim (IOCTL_COMMIT index) (mk_lstate (<[Z.to_nat index := b2]> lib_init) k2) _ Hr2
              (conj Hc Hfit')) as (k3 & out3 & -> & Hr3 & _).
  cbn [mbind outcome_bind lfb]. rewrite (lblock_insert _ _ _ _ _ Hc Hb). cbn [mbind outcome_bind].
  eexists. split; [reflexivity|]. exact Hr3.
Qed.

(** C29. What a process that has not used the block before sets with [nvram_set], into a
    block with a free entry whose variables then still fit, every process that starts
    later reads with [nvram_get], and every other variable of the block has the value
    it had: at once, from the running kernel, and also, when no block was left
    cleared, after the power failed and the kernel has booted from the flash. *)
Theorem libnvram_set_survives k a index name value ab :
  store_rel k a → check_index index = true → fits a index → a !! Z.to_nat index = Some ab →
  good_entry (name, value) → (length value < MAX_VALUE_LEN)%nat →
  (size (vol ab) < MAX_CACHE_ENTRY)%nat → fits (alter (aset name value) (Z.to_nat index) a) index →
  let reads k n v := ∃ s, nvram_get index n (mk_lstate lib_init k) = Ret (s, v) in
  ∃ s, nvram_set index name value (mk_lstate lib_init k) = Ret (s, 0) ∧
    reads (ldev s) name value ∧
    (∀ other, other ≠ name → reads (ldev s) other (default [] (vol ab !! other))) ∧
    (Forall (λ ab, saved ab ≠ None) a →
      ∃ k', ra_nvram_init (kdev (ldev s)) = Ret k' ∧ reads k' name value ∧
        ∀ other, other ≠ name → reads k' other (default [] (vol ab !! other))).
Proof.
  intros Hr Hc Hfit Hab Hg Hl Hroom Hfit' reads.
  destruct (lib_set_sim _ _ _ _ _ _ Hr Hc Hfit Hab Hg Hl Hroom Hfit') as (s & Hset & Hr1).
  set (ab1 := mk_ablock (<[name := value]> (vol ab)) (Some (<[name := value]> (vol ab))) false).
  set (a1 := alter acommit (Z.to_nat index) (alter (aset name value) (Z.to_nat index) a)) in *.
  assert (a1 !! Z.to_nat index = Some ab1) as Hab1.
  { unfold a1. rewrite !list_lookup_alter_eq, Hab. cbn. unfold aset.
    rewrite decide_False by (intros [_ ?]; lia). done. }
  assert (∀ k2 a2, store_rel k2 a2 → a2 !! Z.to_nat index = Some ab1 →
    reads k2 name value ∧ ∀ other, other ≠ name → reads k2 other (default [] (vol ab !! other))) as Hreads.
  { intros k2 a2 Hr2 Hab2.
    assert (fits a2 index) as Hfit2.
    { intros x len Hx Hlen. rewrite Hab2 in Hx. injection Hx as <-.
      apply (Hfit' (mk_ablock (<[name := value]> (vol ab)) (saved ab) true) len); [|done].
      rewrite list_lookup_alter_eq, Hab. cbn. unfold aset. by rewrite decide_False by (intros [_ ?]; lia). }
    assert (∀ n, reads k2 n (default [] (vol ab1 !! n))) as Hget.
    { intros n. destruct (lib_fresh_get_sim k2 _ index n _ Hr2 Hc Hfit2 Hab2) as (s1 & Hget & _). by exists s1. }
    split; [|intros other Hne].
    - specialize (Hget name). cbn in Hget. by rewrite lookup_insert_eq in Hget.
    - specialize (Hget other). cbn in Hget. by rewrite lookup_insert_ne in Hget. }
  exists s. split; [done|]. destruct (Hreads _ _ Hr1 Hab1) as [Hn Ho]. split_and!; [done..|]. intros Hs.
  assert (Forall (λ ab, saved ab ≠ None) a1) as Hs1.
  { apply Forall_lookup. intros i x Hx. unfold a1 in Hx. destruct (decide (i = Z.to_nat index)) as [->|Hi].
    - fold a1 in Hx. rewrite Hab1 in Hx. by injection Hx as <-.
    - rewrite !list_lookup_alter_ne in Hx by done. by apply (proj1 (Forall_lookup _ _) Hs i). }
  destruct (boot_sim _ _ (store_rel_flash _ _ Hr1) Hs1) as (k' & Hk & Hr').
  exists k'. split; [done|]. apply (Hreads _ _ Hr').
  change (map areboot a1) with (areboot <$> a1). by rewrite list_lookup_fmap, Hab1.
Qed.

(** The cache of a process is not refreshed: for a variable it has not seen
    when it first used the block, [nvram_get] asks the kernel, gets the value
    and returns the empty string all the same; for the ones it knows it returns
    what the kernel holds now. *)
Theorem libnvram_stale_names s a index b name ab :
  store_rel (ldev s) a → check_index index = true → fits a index →
  lfb s !! Z.to_nat index = Some b → valid b = true → a !! Z.to_nat index = Some ab →
  ∃ s', nvram_get index name s
        = Ret (s', if bool_decide (name ∈ (cache b).*1) then default [] (vol ab !! name) else [])
    ∧ store_rel (ldev s') a.
Proof.
  intros Hr Hc Hfit Hb Hv Hab. destruct (lib_get_sim s a index b name ab Hr Hc Hfit Hb Hv Hab) as (s' & Hg & Hr').
  exists s'. split; [|done]. rewrite Hg. do 2 f_equal. destruct (find_idx name (cache b)) as [i|] eqn:Hf.
  - apply find_idx_Some in Hf as [v Hi]. rewrite bool_decide_true; [done|].
    apply list_elem_of_lookup. exists i. rewrite list_lookup_fmap. exact (f_equal (fmap fst) Hi).
  - apply find_idx_None in Hf. by rewrite bool_decide_false.
Qed.

End Lib.

(** ** On an empty flash *)

Definition demo_store : list ablock := map areboot empty_store.
Definition demo_store1 : list ablock := alter (aset [97] [98]) 0%nat demo_store.

Lemma demo_fits : fits demo_store 0 ∧ fits demo_store1 0.
Proof.
  split; intros ab len Hab Hlen%block_len_bound; injection Hab as <-.
  - change (env_size _) with 0%nat. lia.
  - change (env_size _) with 4%nat. lia.
Qed.

Lemma demo_saved : Forall (λ ab, saved ab ≠ None) demo_store.
Proof. do 4 (constructor; [discriminate|]). constructor. Qed.

Lemma libnvram_set_survives_witness :
  ∃ k k' s s1 s2, nvram_set (K:=kstate nor_dev) (H:=kernel_nvram_dev (H0:=total_malloc)) 0 [97] [98] (mk_lstate lib_init k) = Ret (s, 0) ∧
    nvram_get (H:=kernel_nvram_dev (H0:=total_malloc)) 0 [97] (mk_lstate lib_init (ldev s)) = Ret (s1, [98]) ∧
    ra_nvram_init (H0:=total_malloc) (kdev (ldev s)) = Ret k' ∧
    nvram_get (H:=kernel_nvram_dev (H0:=total_malloc)) 0 [97] (mk_lstate lib_init k') = Ret (s2, [98]).
Proof.
  destruct demo_boot as [k Hr].
  destruct (libnvram_set_survives (H2:=total_malloc) k demo_store 0 [97] [98] (mk_ablock ∅ (Some ∅) false) Hr)
    as (s & Hset & (s1 & Hget1) & _ & Hafter).
  - reflexivity.
  - exact (proj1 demo_fits).
  - reflexivity.
  - exact demo_entry_good.
  - unfold MAX_VALUE_LEN, ENV_BLK_SIZE. cbn [length]. lia.
  - change (size _) with 0%nat. unfold MAX_CACHE_ENTRY. lia.
  - exact (proj2 demo_fits).
  - destruct (Hafter demo_saved) as (k' & Hk & (s2 & Hget2) & _).
    exists k, k', s, s1, s2. exact (conj Hset (conj Hget1 (conj Hk Hget2))).
Defined.

Definition demo_block : block_t := (new_block [] 0 0) ⦃ valid := true ⦄.

(** The kernel holds a value for the name. *)
Lemma libnvram_stale_names_witness :
  ∃ s s' : lstate (kstate nor_dev),
    nvram_get (H:=kernel_nvram_dev (H0:=total_malloc)) 0 [97] s = Ret (s', [])
    ∧ ∃ k', KernelNvram.nvram_get (H0:=total_malloc) 0 [97] (ldev s) = Ret (k', Some [98]).
Proof.
  destruct demo_boot as [k0 Hr0].
  destruct (set_sim (H2:=total_malloc) k0 demo_store 0 [97] [98] Hr0 eq_refl demo_entry_good) as (k & _ & _ & Hr).
  set (s := mk_lstate (<[0%nat := demo_block]> lib_init) k).
  destruct (libnvram_stale_names (H2:=total_malloc) s demo_store1 0 demo_block [97]
              (mk_ablock {[ [97] := [98] ]} (Some ∅) true)) as (s' & Hg & _).
  - exact Hr.
  - reflexivity.
  - exact (proj2 demo_fits).
  - reflexivity.
  - reflexivity.
  - reflexivity.
  - exists s, s'. split; [exact Hg|].
    destruct (get_sim (H2:=total_malloc) k demo_store1 0 [97] Hr eq_refl) as (ab & Hab & Hget).
    injection Hab as <-. eexists. exact Hget.
Defined.
