(* ===== verification/Eloop.v ===== *)
(** The event loop of the 802.1X daemon ([user/802.1x/eloop.c] and [eloop.h]).

    The queue of timeouts is a singly linked list that only this file touches;
    it is the list of its entries here.  Handlers and contexts are compared as
    pointers by the code, so their types come with decidable equality.  The
    memory of the loop's own bookkeeping is [Malloc]; the clock, the result of
    [select] and what the handlers do are arguments.  [eloop_destroy] only
    releases memory and is left out. *)

From S2P Require Import Prelude.

(** * Time *)

(** [struct timeval]: 32-bit [time_t] and [long]. *)
Record timeval := mk_timeval { tv_sec : Z; tv_usec : Z }.
#[export] Instance eta_timeval : Eta timeval := λ t, mk_timeval (tv_sec t) (tv_usec t).
#[export] Instance timeval_eq_dec : EqDecision timeval.
Proof. solve_decision. Defined.

(** [timercmp(a, b, <)] and [timercmp(a, b, >=)]. *)
Definition timer_lt (a b : timeval) : bool :=
  if tv_sec a =? tv_sec b then tv_usec a <? tv_usec b else tv_sec a <? tv_sec b.
Definition timer_ge (a b : timeval) : bool :=
  if tv_sec a =? tv_sec b then tv_usec b <=? tv_usec a else tv_sec b <=? tv_sec a.

(** [timersub(a, b, &r)] *)
Definition timersub (a b : timeval) : timeval :=
  let r := mk_timeval (s32 (tv_sec a - tv_sec b)) (s32 (tv_usec a - tv_usec b)) in
  if tv_usec r <? 0 then mk_timeval (s32 (tv_sec r - 1)) (s32 (tv_usec r + 1000000)) else r.

(** The loop that moves whole seconds out of [tv_usec]; [carry_fuel] is more
    than the seconds a 32-bit count of microseconds holds. *)
Fixpoint carry_usec (fuel : nat) (t : timeval) : outcome timeval :=
  if tv_usec t <? 1000000 then Ret t
  else match fuel with
       | O => NoFuel
       | S fuel => carry_usec fuel (mk_timeval (s32 (tv_sec t + 1)) (tv_usec t - 1000000))
       end.

Definition carry_fuel : nat := 2200.

(** * Data *)

Section Eloop.
(** Timeout handlers, socket handlers, signal handlers and contexts. *)
Context {H RH SH C : Type} `{EqDecision H} `{EqDecision C}.

Record eloop_sock := mk_sock {
  sock : Z; sock_eloop_data : C; sock_user_data : C; sock_handler : RH
}.

Record eloop_timeout := mk_timeout {
  time : timeval; eloop_data : C; user_data : C; handler : H
}.

Record eloop_signal := mk_signal { sig : Z; sig_user_data : C; sig_handler : SH }.

Record eloop_state := mk_eloop {
  loop_user_data : C;
  max_sock : Z;
  readers : list eloop_sock;
  timeouts : list eloop_timeout;
  signals : list eloop_signal;
  terminate : bool;
  reload : bool
}.
#[local] Instance eta_eloop_state : Eta eloop_state := λ e,
  mk_eloop (loop_user_data e) (max_sock e) (readers e) (timeouts e) (signals e) (terminate e) (reload e).
Implicit Types e : eloop_state.

Definition eloop_init (user : C) : eloop_state := mk_eloop user 0 [] [] [] false false.

Context `{Malloc}.

Definition sizeof_eloop_sock : Z := 16.
Definition sizeof_eloop_timeout : Z := 24.
Definition sizeof_eloop_signal : Z := 12.

Definition eloop_register_read_sock (s : Z) (h : RH) (data user : C) e : eloop_state * Z :=
  if negb (malloc_ok ((Z.of_nat (length (readers e)) + 1) * sizeof_eloop_sock)) then (e, -1)
  else
    let e := e ⦃ readers := readers e ++ [mk_sock s data user h] ⦄ in
    (e ⦃ max_sock := if max_sock e <? s then s else max_sock e ⦄, 0).

(** The place of a new timeout: behind every earlier one and every one due at
    the same time. *)
Fixpoint insert_timeout (t : eloop_timeout) (q : list eloop_timeout) : list eloop_timeout :=
  match q with
  | [] => [t]
  | tmp :: q' => if timer_lt (time t) (time tmp) then t :: q else tmp :: insert_timeout t q'
  end.

(** [now] is what [gettimeofday] gives. *)
Definition eloop_register_timeout (now : timeval) (secs usecs : Z) (h : H) (data user : C) e :
    outcome (eloop_state * Z) :=
  if negb (malloc_ok sizeof_eloop_timeout) then Ret (e, -1)
  else
    let t := mk_timeval (s32 (tv_sec now + secs)) (s32 (tv_usec now + usecs)) in
    let* t := carry_usec carry_fuel t in
    Ret (e ⦃ timeouts := insert_timeout (mk_timeout t data user h) (timeouts e) ⦄, 0).

(** [ELOOP_ALL_CTX] is [None]. *)
Definition ctx_matches (c : C) (pat : option C) : bool :=
  match pat with None => true | Some p => bool_decide (c = p) end.

Definition timeout_matches (h : H) (data user : option C) (t : eloop_timeout) : bool :=
  bool_decide (handler t = h) && ctx_matches (eloop_data t) data && ctx_matches (user_data t) user.

(** The loop of [eloop_cancel_timeout]: what is left and how many were removed. *)
Fixpoint cancel_loop (h : H) (data user : option C) (q : list eloop_timeout) (removed : Z) :
    list eloop_timeout * Z :=
  match q with
  | [] => ([], removed)
  | t :: q =>
      if timeout_matches h data user t then cancel_loop h data user q (removed + 1)
      else let '(q, removed) := cancel_loop h data user q removed in (t :: q, removed)
  end.

Definition eloop_cancel_timeout (h : H) (data user : option C) e : eloop_state * Z :=
  let '(q, removed) := cancel_loop h data user (timeouts e) 0 in
  (e ⦃ timeouts := q ⦄, removed).

Definition eloop_register_signal (s : Z) (h : SH) (user : C) e : eloop_state * Z :=
  if negb (malloc_ok ((Z.of_nat (length (signals e)) + 1) * sizeof_eloop_signal)) then (e, -1)
  else (e ⦃ signals := signals e ++ [mk_signal s user h] ⦄, 0).

Definition eloop_terminate e : eloop_state := e ⦃ terminate := true ⦄.
Definition eloop_reload e : eloop_state := e ⦃ reload := true ⦄.
Definition eloop_terminated e : bool := terminate e.

(** * Running *)

(** The daemon state [W] holds the loop's state, and the handlers work on all
    of it. *)
Section Run.
Context {W : Type} (get_loop : W → eloop_state) (set_loop : eloop_state → W → W).
Context (call_timeout : eloop_timeout → W → outcome W).
Context (call_reader : eloop_sock → W → outcome W).
Context (call_signal : eloop_signal → C → W → outcome W).
Implicit Types w : W.

(** [eloop_handle_signal]: the first handler registered for the signal. *)
Definition eloop_handle_signal (s : Z) w : outcome W :=
  match list_find (λ x, sig x = s) (signals (get_loop w)) with
  | Some (_, x) => call_signal x (loop_user_data (get_loop w)) w
  | None => Ret w
  end.

(** One pass through the outside world: the clock before [select], its result
    (negative with [EINTR] or without, zero, or the sockets that are ready),
    and the clock after it. *)
Inductive select_result := SelectError | SelectIntr | SelectTimeout | SelectReady (socks : list Z).
Record wakeup := mk_wakeup { before : timeval; result : select_result; after : timeval }.

(** The timeout handed to [select]; [None] is NULL. *)
Definition select_timeout (now : timeval) e : option timeval :=
  match timeouts e with
  | [] => None
  | t :: _ => Some (if timer_ge now (time t) then mk_timeval 0 0 else timersub (time t) now)
  end.

(** The first timeout when it is due: it leaves the queue before its handler
    runs. *)
Definition run_first_timeout (now : timeval) w : outcome W :=
  match timeouts (get_loop w) with
  | [] => Ret w
  | t :: q =>
      if timer_ge now (time t) then call_timeout t (set_loop ((get_loop w) ⦃ timeouts := q ⦄) w)
      else Ret w
  end.

(** The loop over the readers, which the handlers may extend: entry [i] on,
    [fuel] entries at most. *)
Fixpoint run_readers (fuel i : nat) (ready : list Z) w : outcome W :=
  match readers (get_loop w) !! i with
  | None => Ret w
  | Some r =>
      match fuel with
      | O => NoFuel
      | S fuel =>
          let* w := (if bool_decide (sock r ∈ ready) then call_reader r w else Ret w) in
          run_readers fuel (S i) ready w
      end
  end.

(** Sockets of a process are below [FD_SETSIZE]. *)
Definition FD_SETSIZE : nat := 1024.

(** The [while] loop, for the wakeups given; [false] is the return on an error
    of [select], [true] the normal end or the end of the wakeups. *)
Fixpoint eloop_run (wakeups : list wakeup) w : outcome (W * bool) :=
  let e := get_loop w in
  if terminate e || (bool_decide (timeouts e = []) && bool_decide (readers e = [])) then Ret (w, true)
  else
    match wakeups with
    | [] => Ret (w, true)
    | x :: wakeups =>
        match result x with
        | SelectError => Ret (w, false)
        | r =>
            let* w := run_first_timeout (after x) w in
            let* w := match r with SelectReady ready => run_readers FD_SETSIZE 0 ready w | _ => Ret w end in
            eloop_run wakeups w
        end
    end.

End Run.
End Eloop.
Arguments eloop_sock : clear implicits.
Arguments eloop_timeout : clear implicits.
Arguments eloop_signal : clear implicits.
Arguments eloop_state : clear implicits.
#[export] Existing Instance eta_eloop_state.
