(* ===== verification/EloopProps.v ===== *)
(** Properties of the event loop: the queue of timeouts holds what was registered
    and not cancelled, by due time and first-in first-out among equal times
    ([fifo_by_time]), and a timeout is run when its time has come and not before. *)

From Stdlib Require Import Sorting.Sorted.
From S2P Require Import Prelude Eloop.

(** * Times *)

Lemma timer_lt_spec a b :
  timer_lt a b = true ↔ tv_sec a < tv_sec b ∨ tv_sec a = tv_sec b ∧ tv_usec a < tv_usec b.
Proof. unfold timer_lt. destruct (Z.eqb_spec (tv_sec a) (tv_sec b)); lia. Qed.

Lemma timer_ge_lt a b : timer_ge a b = negb (timer_lt a b).
Proof. unfold timer_ge, timer_lt. destruct (_ =? _); lia. Qed.

Definition timer_le (a b : timeval) : Prop := timer_lt b a = false.

Lemma timer_le_trans a b c : timer_le a b → timer_le b c → timer_le a c.
Proof.
  unfold timer_le. rewrite <-!not_true_iff_false, !timer_lt_spec. lia.
Qed.

Lemma timer_lt_le a b : timer_lt a b = true → timer_le a b.
Proof. unfold timer_le. rewrite <-not_true_iff_false, !timer_lt_spec. lia. Qed.

Lemma timer_le_refl a : timer_le a a.
Proof. unfold timer_le. rewrite <-not_true_iff_false, timer_lt_spec. lia. Qed.

(** A time as the kernel gives it. *)
Definition time_ok (t : timeval) : Prop := 0 ≤ tv_sec t < 2147483648 ∧ 0 ≤ tv_usec t < 1000000.

Definition micros (t : timeval) : Z := tv_sec t * 1000000 + tv_usec t.

Lemma timer_lt_micros a b : time_ok a → time_ok b → timer_lt a b = (micros a <? micros b).
Proof.
  intros [? ?] [? ?]. apply eq_true_iff_eq. rewrite timer_lt_spec, Z.ltb_lt. unfold micros. lia.
Qed.

Lemma timersub_micros a b :
  time_ok a → time_ok b → timer_ge a b = true →
  micros (timersub a b) = micros a - micros b ∧ 0 ≤ tv_sec (timersub a b)
  ∧ 0 ≤ tv_usec (timersub a b) < 1000000.
Proof.
  intros Ha Hb Hge. rewrite timer_ge_lt, timer_lt_micros in Hge by done.
  destruct Ha as [Has Hau], Hb as [Hbs Hbu]. unfold timersub, micros in *. cbn [tv_usec tv_sec].
  rewrite (s32_id (tv_sec a - tv_sec b)), (s32_id (tv_usec a - tv_usec b)) by lia.
  destruct (Z.ltb_spec (tv_usec a - tv_usec b) 0); cbn [tv_usec tv_sec];
    rewrite ?s32_id by lia; lia.
Qed.

Lemma carry_usec_spec fuel s u :
  0 ≤ u → u < (Z.of_nat fuel + 1) * 1000000 →
  carry_usec fuel (mk_timeval s u) =
    Ret (mk_timeval (if u <? 1000000 then s else s32 (s + u / 1000000)) (u mod 1000000)).
Proof.
  revert s u. induction fuel as [|fuel IH]; intros s u Hu Hlt; cbn [carry_usec tv_usec tv_sec].
  - replace (u <? 1000000) with true by lia. by rewrite Z.mod_small by lia.
  - destruct (Z.ltb_spec u 1000000) as [Hs|Hs]; [by rewrite Z.mod_small by lia|].
    rewrite IH by lia. do 2 f_equal.
    + destruct (Z.ltb_spec (u - 1000000) 1000000).
      * f_equal. replace (u / 1000000) with 1; [done|zlia].
      * assert (u / 1000000 = (u - 1000000) / 1000000 + 1) as -> by zlia.
        unfold s32. zlia.
    + rewrite <-(Z.mod_add (u - 1000000) 1) by lia. f_equal. lia.
Qed.

(** * The queue *)

Section Queue.
Context {H RH SH C : Type} `{EqDecision H} `{EqDecision C}.
Abbreviation timeout := (eloop_timeout H C).
Abbreviation loop := (eloop_state H RH SH C).
Implicit Types (t : timeout) (q l : list timeout) (e : loop).

(** Timeouts in the order they were registered, sorted by due time, equal times
    in the order of registration. *)
Definition stable_sort l : list timeout := foldl (λ q t, insert_timeout t q) [] l.

Definition time_le (a b : timeout) : Prop := timer_le (time a) (time b).

Lemma stable_sort_snoc l t : stable_sort (l ++ [t]) = insert_timeout t (stable_sort l).
Proof. unfold stable_sort. by rewrite foldl_app. Qed.

Lemma insert_timeout_perm t q : insert_timeout t q ≡ₚ t :: q.
Proof.
  induction q as [|x q IH]; cbn [insert_timeout]; [done|].
  destruct (timer_lt _ _); [done|]. rewrite IH. apply Permutation_swap.
Qed.

Lemma stable_sort_perm l : stable_sort l ≡ₚ l.
Proof.
  induction l as [|t l IH] using rev_ind; [done|].
  rewrite stable_sort_snoc, insert_timeout_perm, IH. apply Permutation_cons_append.
Qed.

Lemma insert_timeout_Forall (P : timeout → Prop) t q :
  P t → Forall P q → Forall P (insert_timeout t q).
Proof. intros Ht Hq. rewrite insert_timeout_perm. by constructor. Qed.

Lemma insert_timeout_sorted t q :
  StronglySorted time_le q → StronglySorted time_le (insert_timeout t q).
Proof.
  induction 1 as [|x q Hq IH Hx]; cbn [insert_timeout]; [by repeat constructor|].
  destruct (timer_lt (time t) (time x)) eqn:Hlt.
  - constructor; [by constructor|]. apply timer_lt_le in Hlt. constructor; [done|].
    eapply Forall_impl; [|exact Hx]. intros y Hy. by eapply timer_le_trans.
  - constructor; [done|]. by apply insert_timeout_Forall.
Qed.

Lemma stable_sort_sorted l : StronglySorted time_le (stable_sort l).
Proof.
  induction l as [|t l IH] using rev_ind; [constructor|].
  rewrite stable_sort_snoc. by apply insert_timeout_sorted.
Qed.

(** Cancelling commutes with sorting. *)
Lemma filter_insert (P : timeout → Prop) `{∀ t, Decision (P t)} t q :
  StronglySorted time_le q →
  filter P (insert_timeout t q) = if decide (P t) then insert_timeout t (filter P q) else filter P q.
Proof.
  induction 1 as [|x q Hq IH Hx]; cbn [insert_timeout]; [by rewrite filter_cons|].
  destruct (timer_lt (time t) (time x)) eqn:Hlt.
  - rewrite filter_cons. destruct (decide (P t)); [|done]. rewrite filter_cons.
    destruct (decide (P x)); cbn [insert_timeout]; [by rewrite Hlt|].
    destruct (filter P q) as [|y q'] eqn:Hf; [done|]. cbn [insert_timeout].
    assert (y ∈ filter P q) as [_ Hy]%list_elem_of_filter by (rewrite Hf; constructor).
    apply (proj1 (list.Forall_forall _ _) Hx) in Hy. unfold time_le, timer_le in Hy.
    replace (timer_lt (time t) (time y)) with true; [done|]. symmetry.
    rewrite timer_lt_spec in *. rewrite <-not_true_iff_false, timer_lt_spec in Hy. lia.
  - rewrite !filter_cons, IH. destruct (decide (P t)), (decide (P x)); cbn [insert_timeout];
      rewrite ?Hlt; done.
Qed.

Lemma filter_stable_sort (P : timeout → Prop) `{∀ t, Decision (P t)} l :
  filter P (stable_sort l) = stable_sort (filter P l).
Proof.
  induction l as [|t l IH] using rev_ind; [done|].
  rewrite stable_sort_snoc, filter_insert by apply stable_sort_sorted.
  rewrite list.filter_app, filter_cons, filter_nil, IH.
  destruct (decide (P t)); [by rewrite stable_sort_snoc|by rewrite app_nil_r].
Qed.

Lemma cancel_loop_spec h data user q n :
  cancel_loop h data user q n =
    (filter (λ t, ¬ timeout_matches h data user t) q,
     n + Z.of_nat (length (filter (λ t, timeout_matches h data user t) q))).
Proof.
  revert n. induction q as [|t q IH]; intros n; cbn [cancel_loop]; [f_equal; cbn; lia|].
  rewrite !filter_cons. destruct (timeout_matches h data user t) eqn:Hm; rewrite IH.
  - rewrite decide_False, decide_True by (cbn; tauto). f_equal. cbn [length]. lia.
  - rewrite decide_True, decide_False by (cbn; tauto). done.
Qed.

(** The head of the queue: due first, and registered first among those. *)
Lemma stable_sort_head l t q :
  stable_sort l = t :: q →
  Forall (λ x, time_le t x) l ∧
  ∃ l1 l2, l = l1 ++ t :: l2 ∧ Forall (λ x, timer_lt (time t) (time x) = true) l1
           ∧ stable_sort (l1 ++ l2) = q.
Proof.
  intros Hl. split.
  { rewrite <-(stable_sort_perm l). pose proof (stable_sort_sorted l) as Hs. rewrite Hl in *.
    apply StronglySorted_inv in Hs as [_ Hs]. constructor; [apply timer_le_refl|done]. }
  revert t q Hl. induction l as [|x l IH] using rev_ind; intros t q; [done|].
  rewrite stable_sort_snoc. destruct (stable_sort l) as [|y r] eqn:Hr; cbn [insert_timeout].
  - intros [= -> <-]. pose proof (stable_sort_perm l) as Hp. rewrite Hr in Hp.
    apply Permutation_nil in Hp as ->. exists [], []. by repeat constructor.
  - destruct (timer_lt (time x) (time y)) eqn:Hlt; intros [= -> <-].
    + exists l, []. rewrite app_nil_r. split_and!; [done| |done].
      rewrite <-(stable_sort_perm l), Hr. pose proof (stable_sort_sorted l) as Hs. rewrite Hr in Hs.
      apply StronglySorted_inv in Hs as [_ Hs]. constructor; [done|].
      eapply Forall_impl; [|exact Hs]. intros z Hz. unfold time_le, timer_le in Hz.
      rewrite <-not_true_iff_false in Hz. rewrite timer_lt_spec in *. lia.
    + destruct (IH _ _ eq_refl) as (l1 & l2 & -> & Hl1 & <-).
      exists l1, (l2 ++ [x]). split_and!; [by rewrite <-app_assoc|done|].
      by rewrite app_assoc, stable_sort_snoc.
Qed.

(** What the queue has to be, said without the code's insertion: the timeouts
    registered and still pending ([l], in the order of registration) sorted by
    due time, those due at the same time in the order of registration. *)
Record fifo_by_time l q : Prop := {
  fifo_same : q ≡ₚ l;
  fifo_sorted : StronglySorted time_le q;
  fifo_ties : ∀ tm, filter (λ t, time t = tm) q = filter (λ t, time t = tm) l
}.

Lemma stable_sort_ties tm l :
  Forall (λ t, time t = tm) l → stable_sort l = l.
Proof.
  induction l as [|t l IH] using rev_ind; [done|]. rewrite Forall_app, Forall_singleton. intros [Hl Ht].
  rewrite stable_sort_snoc, IH by done. clear IH. induction Hl as [|x l Hx _ IH]; [done|].
  cbn [insert_timeout app]. rewrite Ht, Hx. pose proof (timer_le_refl tm) as Hr. unfold timer_le in Hr.
  by rewrite Hr, IH.
Qed.

Lemma stable_sort_fifo l : fifo_by_time l (stable_sort l).
Proof.
  split; [apply stable_sort_perm|apply stable_sort_sorted|]. intros tm. rewrite filter_stable_sort.
  apply (stable_sort_ties tm). apply list.Forall_forall. by intros t [? _]%list_elem_of_filter.
Qed.

(** A sorted queue is determined by its timeouts of each time. *)
Lemma sorted_ties_unique q q' :
  StronglySorted time_le q → StronglySorted time_le q' →
  (∀ tm, filter (λ t, time t = tm) q = filter (λ t, time t = tm) q') → q = q'.
Proof.
  assert (∀ t q x, StronglySorted time_le (t :: q) → x ∈ t :: q → timer_le (time t) (time x)) as Hle.
  { intros t r x [_ Hr]%StronglySorted_inv [->|Hx]%elem_of_cons; [apply timer_le_refl|].
    by apply (proj1 (list.Forall_forall _ _) Hr). }
  assert (∀ (x : timeout) (r r' : list timeout), (∀ tm, filter (λ t, time t = tm) r = filter (λ t, time t = tm) r') → x ∈ r → x ∈ r') as Hin.
  { intros x r r' Heq Hx. assert (x ∈ filter (λ t, time t = time x) r) as Hf by by apply list_elem_of_filter.
    rewrite Heq in Hf. by apply list_elem_of_filter in Hf as [_ ?]. }
  intros Hq. revert q'. induction Hq as [|t q Hq IH Ht]; intros [|t' q'] Hq' Heq; [done| | |].
  - specialize (Heq (time t')). by rewrite filter_nil, filter_cons_True in Heq.
  - specialize (Heq (time t)). by rewrite filter_nil, filter_cons_True in Heq.
  - assert (time t = time t') as Htt.
    { assert (timer_le (time t) (time t')) as H1 by (apply (Hle t q); [by constructor|apply (Hin _ (t' :: q')); [done|left]]).
      assert (timer_le (time t') (time t)) as H2 by (apply (Hle t' q'); [done|apply (Hin _ (t :: q)); [done|left]]).
      unfold timer_le in *. rewrite <-not_true_iff_false, timer_lt_spec in *.
      destruct (time t), (time t'); cbn in *. f_equal; lia. }
    assert (t = t' ∧ ∀ tm, filter (λ t, time t = tm) q = filter (λ t, time t = tm) q') as [<- Hrest].
    { split.
      - specialize (Heq (time t)). rewrite !filter_cons_True in Heq by done. by injection Heq.
      - intros tm. specialize (Heq tm). rewrite !filter_cons in Heq. rewrite <-Htt in Heq.
        case_decide; [by injection Heq|done]. }
    f_equal. apply IH; [by apply StronglySorted_inv in Hq' as [? _]|done].
Qed.

Lemma fifo_stable_sort l q : fifo_by_time l q ↔ q = stable_sort l.
Proof.
  split; [|intros ->; apply stable_sort_fifo]. intros [_ Hs Ht].
  destruct (stable_sort_fifo l) as [_ Hs' Ht']. apply sorted_ties_unique; [done..|]. intros tm. by rewrite Ht, Ht'.
Qed.

(** The due time of a timeout registered at [now]. *)
Definition due (now : timeval) (secs usecs : Z) : timeval :=
  let u := tv_usec now + usecs in
  mk_timeval (if u <? 1000000 then tv_sec now + secs else tv_sec now + secs + u / 1000000) (u mod 1000000).

Lemma register_timeout_spec `{Malloc} (e : loop) now secs usecs h (data user : C) :
  time_ok now → 0 ≤ secs → 0 ≤ usecs < 2000000000 → tv_sec now + secs + 2001 < 2147483648 →
  eloop_register_timeout now secs usecs h data user e =
    if malloc_ok sizeof_eloop_timeout then
      Ret (e ⦃ timeouts := insert_timeout (mk_timeout (due now secs usecs) data user h) (timeouts e) ⦄, 0)
    else Ret (e, -1).
Proof.
  intros [Hs Hu] Hsecs Husecs Hsum. unfold eloop_register_timeout. destruct (malloc_ok _); [|done]. cbn [negb].
  rewrite !s32_id by lia. rewrite carry_usec_spec by (unfold carry_fuel; lia).
  cbn [mbind outcome_bind]. unfold due. do 7 f_equal. destruct (_ <? _); [done|]. apply s32_id. zlia.
Qed.

(** A timeout due after [t] takes its place behind it. *)
Lemma insert_behind x t q1 q2 :
  time_le t x → Forall (λ y, time_le y t) q1 → insert_timeout x (q1 ++ t :: q2) = q1 ++ t :: insert_timeout x q2.
Proof.
  intros Hx Hq1. induction Hq1 as [|y q1 Hy _ IH]; cbn [app insert_timeout].
  - unfold time_le, timer_le in Hx. by rewrite Hx.
  - rewrite IH. pose proof (timer_le_trans _ _ _ Hy Hx) as Hyx. unfold timer_le in Hyx. by rewrite Hyx.
Qed.

(** C30. The queue of timeouts holds, at every moment, exactly the timeouts
    registered and not cancelled or run since, sorted by due time, those due at
    the same time in the order of their registration ([fifo_by_time]):
    registering adds one as the latest registration with the clock plus the
    delay as its due time, or fails for want of memory and changes nothing;
    cancelling removes exactly the matching ones (a context of [ELOOP_ALL_CTX]
    matches everything) and returns their number. *)
Theorem eloop_queue_stable `{Malloc} (e : loop) l now secs usecs h (data user : C) (pd pu : option C) :
  fifo_by_time l (timeouts e) →
  time_ok now → 0 ≤ secs → 0 ≤ usecs < 2000000000 → tv_sec now + secs + 2001 < 2147483648 →
  (if malloc_ok sizeof_eloop_timeout then
     ∃ e', eloop_register_timeout now secs usecs h data user e = Ret (e', 0)
       ∧ fifo_by_time (l ++ [mk_timeout (due now secs usecs) data user h]) (timeouts e')
       ∧ readers e' = readers e
   else eloop_register_timeout now secs usecs h data user e = Ret (e, -1))
  ∧ (let '(e', n) := eloop_cancel_timeout h pd pu e in
     fifo_by_time (filter (λ t, ¬ timeout_matches h pd pu t) l) (timeouts e')
     ∧ n = Z.of_nat (length (filter (λ t, timeout_matches h pd pu t) l)) ∧ readers e' = readers e).
Proof.
  rewrite fifo_stable_sort. intros He Hnow Hsecs Husecs Hsum. split.
  - rewrite register_timeout_spec by done. destruct (malloc_ok _); [|done].
    eexists. split_and!; [reflexivity| |done]. cbn. by rewrite fifo_stable_sort, He, stable_sort_snoc.
  - unfold eloop_cancel_timeout. rewrite cancel_loop_spec. cbn.
    rewrite fifo_stable_sort, He, !filter_stable_sort. split_and!; [done| |done].
    apply (f_equal Z.of_nat), Permutation_length, stable_sort_perm.
Qed.

End Queue.

(** * Running *)

Section Running.
Context {H RH SH C : Type} `{EqDecision H} `{EqDecision C}.
Abbreviation timeout := (eloop_timeout H C).
Abbreviation loop := (eloop_state H RH SH C).
Context {W : Type} (get_loop : W → loop) (set_loop : loop → W → W).
Context (call_timeout : timeout → W → outcome W).
Context (call_reader : eloop_sock RH C → W → outcome W).

(** [select] that times out was given a timeout, and has waited for it. *)
Definition select_waits (e : loop) (x : wakeup) : Prop :=
  result x = SelectTimeout →
  match select_timeout (before x) e with
  | Some tv => micros (before x) + micros tv ≤ micros (after x)
  | None => False
  end.

Lemma select_timeout_due (e : loop) x t q :
  timeouts e = t :: q → time_ok (time t) → time_ok (before x) → time_ok (after x) →
  select_waits e x → result x = SelectTimeout → timer_ge (after x) (time t) = true.
Proof.
  intros Hq Ht Hb Ha Hsel Hr. specialize (Hsel Hr). unfold select_timeout in Hsel. rewrite Hq in Hsel.
  rewrite timer_ge_lt, timer_lt_micros by done.
  destruct (timer_ge (before x) (time t)) eqn:Hge.
  - rewrite timer_ge_lt, timer_lt_micros in Hge by done. change (micros (mk_timeval 0 0)) with 0 in Hsel. lia.
  - assert (timer_ge (time t) (before x) = true) as Hge'.
    { rewrite timer_ge_lt, timer_lt_micros in * by done. lia. }
    destruct (timersub_micros _ _ Ht Hb Hge') as [Hm _]. lia.
Qed.

(** [t] is pending behind at most [k] other timeouts, none of them later, in a
    loop that is not being ended. *)
Definition pending (t : timeout) (k : nat) (w : W) : Prop :=
  (∃ q1 q2, timeouts (get_loop w) = q1 ++ t :: q2 ∧ (length q1 ≤ k)%nat
            ∧ Forall (λ y, timer_le (time y) (time t)) q1)
  ∧ terminate (get_loop w) = false ∧ (length (readers (get_loop w)) ≤ FD_SETSIZE)%nat.

(** A handler returns and does not cancel [t], put a timeout before it, or end
    the loop. *)
Definition keeps (t : timeout) (f : W → outcome W) : Prop :=
  ∀ k w, pending t k w → ∃ w', f w = Ret w' ∧ pending t k w'.

Lemma run_readers_keeps t ready fuel i :
  (∀ r, keeps t (call_reader r)) → (FD_SETSIZE ≤ fuel + i)%nat →
  keeps t (run_readers get_loop call_reader fuel i ready).
Proof.
  intros Hr. revert i. induction fuel as [|fuel IH]; intros i Hi k w Hw.
  - exists w. split; [|done]. cbn [run_readers]. by rewrite lookup_ge_None_2 by (destruct Hw as (_ & _ & ?); lia).
  - cbn [run_readers]. destruct (readers (get_loop w) !! i) as [r|]; [|by exists w].
    case_bool_decide; cbn [mbind outcome_bind]; [|apply IH; [lia|done]].
    destruct (Hr r k w Hw) as (w' & -> & Hw'). cbn [mbind outcome_bind]. apply IH; [lia|done].
Qed.

(** The sockets of a pass, once its timeout has run. *)
Definition run_ready (x : wakeup) (w : W) : outcome W :=
  match result x with SelectReady ready => run_readers get_loop call_reader FD_SETSIZE 0 ready w | _ => Ret w end.

Lemma run_ready_keeps t x : (∀ r, keeps t (call_reader r)) → keeps t (run_ready x).
Proof.
  intros Hr k w Hw. unfold run_ready. destruct (result x); [by exists w..|].
  apply run_readers_keeps; [done|lia|done].
Qed.

Lemma eloop_run_pass x wakeups w t k :
  pending t k w → result x ≠ SelectError →
  eloop_run get_loop set_loop call_timeout call_reader (x :: wakeups) w =
    let* w := run_first_timeout get_loop set_loop call_timeout (after x) w in
    let* w := run_ready x w in
    eloop_run get_loop set_loop call_timeout call_reader wakeups w.
Proof.
  intros ((q1 & q2 & Hq & _) & Hterm & _) Hr. cbn [eloop_run].
  assert (bool_decide (timeouts (get_loop w) = []) = false) as ->.
  { apply bool_decide_eq_false. rewrite Hq. by destruct q1. }
  rewrite Hterm. cbn. unfold run_ready. by destruct (result x).
Qed.

(** Passes whose clock has reached [t] run what is before it, then [t]. *)
Lemma pending_runs t k wakeups w :
  (∀ e w, get_loop (set_loop e w) = e) →
  (∀ y, keeps t (call_timeout y)) → (∀ r, keeps t (call_reader r)) →
  pending t k w → (k < length wakeups)%nat →
  Forall (λ x, result x ≠ SelectError ∧ timer_ge (after x) (time t) = true) wakeups →
  ∃ pre x post w' q, wakeups = pre ++ x :: post ∧ (length pre ≤ k)%nat
    ∧ timeouts (get_loop w') = t :: q
    ∧ eloop_run get_loop set_loop call_timeout call_reader wakeups w =
        let* w := call_timeout t (set_loop ((get_loop w') ⦃ timeouts := q ⦄) w') in
        let* w := run_ready x w in
        eloop_run get_loop set_loop call_timeout call_reader post w.
Proof.
  intros Hlens Hct Hcr. revert k w. induction wakeups as [|x wakeups IH]; intros k w Hw Hk; [cbn in Hk; lia|].
  rewrite list.Forall_cons. intros [[Hx Hdue] Hrest]. rewrite (eloop_run_pass _ _ _ _ _ Hw Hx).
  pose proof Hw as ((q1 & q2 & Hq & Hlen & Hle) & Hterm & Hrd).
  unfold run_first_timeout. destruct q1 as [|y q1]; cbn [app] in Hq; rewrite Hq.
  { exists [], x, wakeups, w, q2. cbn [app length]. split_and!; [done|lia|done|]. by rewrite Hdue. }
  apply list.Forall_cons in Hle as [Hy Hle].
  assert (timer_ge (after x) (time y) = true) as ->.
  { rewrite timer_ge_lt in *. apply negb_true_iff in Hdue. apply negb_true_iff.
    exact (timer_le_trans _ _ _ Hy Hdue). }
  destruct k as [|k]; [cbn in Hlen; lia|].
  assert (pending t k (set_loop ((get_loop w) ⦃ timeouts := q1 ++ t :: q2 ⦄) w)) as Hw1.
  { unfold pending. rewrite Hlens. split; [|done]. exists q1, q2. cbn in *. split_and!; [done|lia|done]. }
  destruct (Hct y _ _ Hw1) as (w2 & -> & Hw2). cbn [mbind outcome_bind].
  destruct (run_ready_keeps t x Hcr _ _ Hw2) as (w3 & -> & Hw3). cbn [mbind outcome_bind].
  destruct (IH _ _ Hw3 ltac:(cbn in Hk; lia) Hrest) as (pre & x' & post & w' & q & -> & Hpre & Hq' & Heq).
  exists (x :: pre), x', post, w', q. cbn [app length]. split_and!; [done|lia|done|done].
Qed.

(** C31. Timeouts run, and none runs early.  A timeout [t] that is pending
    behind at most [k] others runs within [k + 1] passes of the loop once the
    clock has reached its time, whatever wakes the loop (a signal, a socket or
    the time) — provided the handlers that run before it return and do not
    cancel it, register a timeout before it or end the loop, and [select]
    does not fail.  A pass runs the first timeout of the queue when it is due
    and no timeout when it is not; and a [select] that waits for the time the
    loop gave it and times out leaves the first timeout due. *)
Theorem eloop_timeout_fires (w : W) t k wakeups :
  (∀ e w, get_loop (set_loop e w) = e) →
  (∀ y, keeps t (call_timeout y)) → (∀ r, keeps t (call_reader r)) →
  pending t k w → (k < length wakeups)%nat →
  Forall (λ x, result x ≠ SelectError ∧ timer_ge (after x) (time t) = true) wakeups →
  (∃ pre x post w' q, wakeups = pre ++ x :: post ∧ (length pre ≤ k)%nat
    ∧ timeouts (get_loop w') = t :: q
    ∧ eloop_run get_loop set_loop call_timeout call_reader wakeups w =
        let* w := call_timeout t (set_loop ((get_loop w') ⦃ timeouts := q ⦄) w') in
        let* w := run_ready x w in
        eloop_run get_loop set_loop call_timeout call_reader post w)
  ∧ (∀ y q w x rest, timeouts (get_loop w) = y :: q → terminate (get_loop w) = false →
       result x ≠ SelectError →
       eloop_run get_loop set_loop call_timeout call_reader (x :: rest) w =
         let* w := (if timer_lt (after x) (time y) then Ret w
                    else call_timeout y (set_loop ((get_loop w) ⦃ timeouts := q ⦄) w)) in
         let* w := run_ready x w in
         eloop_run get_loop set_loop call_timeout call_reader rest w)
  ∧ (∀ y q w x, timeouts (get_loop w) = y :: q →
       time_ok (time y) → time_ok (before x) → time_ok (after x) →
       select_waits (get_loop w) x → result x = SelectTimeout → timer_ge (after x) (time y) = true).
Proof.
  intros Hlens Hct Hcr Hw Hk Hall. split_and!.
  - by apply (pending_runs t k).
  - intros y q w' x rest Hq Hterm Hr. cbn [eloop_run]. rewrite Hq, Hterm. cbn [orb].
    rewrite bool_decide_eq_false_2 by done. cbn [andb]. unfold run_first_timeout, run_ready.
    rewrite Hq, timer_ge_lt. by destruct (result x), (timer_lt (after x) (time y)).
  - intros. by eapply select_timeout_due.
Qed.

End Running.

(** ** A concrete loop *)

Definition demo_now : timeval := mk_timeval 1000 500000.
Definition demo_t1 : eloop_timeout Z Z := mk_timeout (mk_timeval 1002 0) 1 2 7.
Definition demo_t2 : eloop_timeout Z Z := mk_timeout (mk_timeval 1001 0) 1 3 8.
Definition demo_loop : eloop_state Z Z Z Z :=
  mk_eloop 0 0 [] (stable_sort [demo_t1; demo_t2]) [] false false.

Lemma eloop_queue_stable_witness :
  (∃ e', eloop_register_timeout (H0:=λ _, true) demo_now 1 500000 7 1 2 demo_loop = Ret (e', 0)
     ∧ timeouts e' = [demo_t2; demo_t1; mk_timeout (mk_timeval 1002 0) 1 2 7])
  ∧ snd (eloop_cancel_timeout 7 (Some 1) None demo_loop) = 1.
Proof.
  destruct (eloop_queue_stable (H0:=λ _, true) demo_loop [demo_t1; demo_t2] demo_now 1 500000 7 1 2 (Some 1) None)
    as (Hreg & Hcan).
  - apply stable_sort_fifo.
  - vm_compute; intuition congruence.
  - lia.
  - lia.
  - cbn. lia.
  - split.
    + destruct Hreg as (e' & Hreg & Hto & _). exists e'. split; [exact Hreg|].
      apply fifo_stable_sort in Hto. rewrite Hto. vm_compute. reflexivity.
    + vm_compute. reflexivity.
Defined.

Definition demo_wakeup (now : timeval) : wakeup := mk_wakeup demo_now SelectIntr now.

(** A handler that registers itself again, for an hour later. *)
Definition demo_again (y : eloop_timeout Z Z) (e : eloop_state Z Z Z Z) : outcome (eloop_state Z Z Z Z) :=
  let* p := eloop_register_timeout (H0:=λ _, true) (mk_timeval 1002 5) 3600 0
              (handler y) (eloop_data y) (user_data y) e in
  Ret (fst p).

(** The timeout of 1001 s runs in the first pass, that of 1002 s in the
    second; both are registered again. *)
Lemma eloop_timeout_fires_witness :
  (∃ x post (e : eloop_state Z Z Z Z) q, timeouts e = demo_t1 :: q ∧
    eloop_run id (λ e _, e) demo_again (λ _ e, Ret e)
      [demo_wakeup (mk_timeval 1002 5); demo_wakeup (mk_timeval 1002 6)] demo_loop
    = let* e := demo_again demo_t1 (e ⦃ timeouts := q ⦄) in
      let* e := run_ready id (λ _ e, Ret e) x e in
      eloop_run id (λ e _, e) demo_again (λ _ e, Ret e) post e)
  ∧ (eloop_run id (λ e _, e) demo_again (λ _ e, Ret e)
      [demo_wakeup (mk_timeval 1002 5); demo_wakeup (mk_timeval 1002 6)] demo_loop
     = Ret (demo_loop ⦃ timeouts := [mk_timeout (mk_timeval 4602 5) 1 3 8;
                                     mk_timeout (mk_timeval 4602 5) 1 2 7] ⦄, true)).
Proof.
  split; [|vm_compute; reflexivity].
  destruct (eloop_timeout_fires id (λ e _, e) demo_again (λ _ e, Ret e) demo_loop demo_t1 1
              [demo_wakeup (mk_timeval 1002 5); demo_wakeup (mk_timeval 1002 6)])
    as [(pre & x & post & e & q & _ & _ & Hq & Hrun) _].
  - reflexivity.
  - intros y k e ((q1 & q2 & Hq & Hlen & Hle) & Hterm & Hrd). unfold demo_again.
    rewrite register_timeout_spec; [|vm_compute; intuition congruence|lia|lia|cbn; lia].
    eexists. split; [reflexivity|]. split; [|split; [exact Hterm|exact Hrd]].
    exists q1, (insert_timeout (mk_timeout (mk_timeval 4602 5) (eloop_data y) (user_data y) (handler y)) q2).
    split_and!; [|exact Hlen|exact Hle]. cbn. change (timeouts e) with (timeouts (id e)). rewrite Hq.
    apply insert_behind; [vm_compute; reflexivity|exact Hle].
  - intros r k e He. by exists e.
  - split_and!; [|reflexivity|cbn; lia]. exists [demo_t2], []. split_and!; [reflexivity|cbn; lia|by repeat constructor].
  - cbn. lia.
  - by repeat constructor.
  - exists x, post, e, q. split; [exact Hq|exact Hrun].
Defined.
