(* ===== verification/Dot1xConfig.v ===== *)
(** The configuration of the 802.1X daemon ([user/802.1x/config.c] and
    [config.h]), read from the wireless driver as one packed struct
    ([DOT1X_CMM_CONF] of [ieee802_1x.h]), compiled with MULTIPLE_RADIUS.

    The struct is the buffer the driver filled; its fields are read at their
    packed offsets and every read is checked.  A current-server pointer is an
    index into the array of servers of its BSS.  Addresses are kept as the
    little-endian value of their four bytes. *)

From S2P Require Import Prelude Md5 KernelNvram.

Definition MAX_MBSSID_NUM : nat := 8.
Definition WEP8021X_KEY_LEN : nat := 13.
Definition IFNAMSIZ : nat := 16.
Definition AUTH_PAE_DEFAULT_quietPeriod : Z := 60.

(** * Data *)

Record hostapd_radius_server := mk_server {
  srv_addr : Z;
  port : Z;
  shared_secret : option bytes;
  shared_secret_len : Z
}.
#[export] Instance eta_server : Eta hostapd_radius_server := λ s,
  mk_server (srv_addr s) (port s) (shared_secret s) (shared_secret_len s).

(** The fields of one BSS: an entry of each of the arrays. *)
Record bss_config := mk_bss {
  DefaultKeyID : Z;
  individual_wep_key_len : Z;
  individual_wep_key_idx : Z;
  IEEE8021X_ikey : bytes;
  mbss_auth_servers : list hostapd_radius_server;
  mbss_auth_server : option nat;
  nasId : bytes;
  nasId_len : Z
}.
#[export] Instance eta_bss : Eta bss_config := λ b,
  mk_bss (DefaultKeyID b) (individual_wep_key_len b) (individual_wep_key_idx b) (IEEE8021X_ikey b)
    (mbss_auth_servers b) (mbss_auth_server b) (nasId b) (nasId_len b).

Record rtapd_config := mk_config {
  SsidNum : Z;
  bss : list bss_config;
  own_ip_addr : Z;
  num_eap_if : Z;
  eap_if_name : list bytes;
  num_preauth_if : Z;
  preauth_if_name : list bytes;
  radius_retry_primary_interval : Z;
  session_timeout_set : Z;
  session_timeout_interval : Z;
  quiet_interval : Z
}.
#[export] Instance eta_config : Eta rtapd_config := λ c,
  mk_config (SsidNum c) (bss c) (own_ip_addr c) (num_eap_if c) (eap_if_name c) (num_preauth_if c)
    (preauth_if_name c) (radius_retry_primary_interval c) (session_timeout_set c)
    (session_timeout_interval c) (quiet_interval c).

Definition mbss_num_auth_servers (b : bss_config) : Z := Z.of_nat (length (mbss_auth_servers b)).

(** * Helpers *)

(** Two hex digits to a byte; 255 for what is no digit. *)
Definition BtoH (ch : Z) : Z :=
  if (48 <=? ch) && (ch <=? 57) then ch - 48
  else if (65 <=? ch) && (ch <=? 70) then ch - 65 + 0xA
  else if (97 <=? ch) && (ch <=? 102) then ch - 97 + 0xA
  else 255.

Fixpoint AtoH (src : bytes) (destlen : nat) : outcome bytes :=
  match destlen with
  | O => Ret []
  | S destlen =>
      match src with
      | a :: b :: src =>
          let* rest := AtoH src destlen in
          Ret (u8 (u8 (Z.shiftl (BtoH a) 4) + BtoH b) :: rest)
      | _ => Oob
      end
  end.

(** [strspn] and the search of [strpbrk] over a C string. *)
Fixpoint strspn (s ct : bytes) : nat :=
  match s with
  | [] => 0
  | c :: s => if bool_decide (c ∈ ct) then S (strspn s ct) else 0
  end.

Fixpoint strpbrk (s ct : bytes) : option nat :=
  match s with
  | [] => None
  | c :: s => if bool_decide (c ∈ ct) then Some 0%nat else S <$> strpbrk s ct
  end.

(** [rstrtok]: the argument or the saved rest ([__rstrtok]); the token and the
    new saved rest. *)
Definition rstrtok (s saved : option bytes) (ct : bytes) : option bytes * option bytes :=
  match (match s with Some s => Some s | None => saved end) with
  | None => (None, saved)
  | Some sbegin =>
      match drop (strspn sbegin ct) sbegin with
      | [] => (None, None)
      | sbegin =>
          match strpbrk sbegin ct with
          | Some n => (Some (take n sbegin), Some (drop (S n) sbegin))
          | None => (Some sbegin, None)
          end
      end
  end.

(** * The struct of the driver *)

Definition sizeof_RADIUS_SRV_INFO : nat := 73.
Definition sizeof_DOT1X_BSS_INFO : nat := 180.
Definition sizeof_DOT1X_CMM_CONF : nat := 1733.

(** An array argument of [memcpy(dest, src, n)] with a destination of [room]
    bytes. *)
Definition copy_into (dest : bytes) (src : bytes) : outcome bytes := store dest 0 src.

Section Config.
Context `{Malloc}.

Definition rd8 (cmm : bytes) (off : nat) : outcome Z := let* x := load cmm off 1 in Ret (idx x 0).
Definition rd32 (cmm : bytes) (off : nat) : outcome Z := let* x := load cmm off 4 in Ret (of_le x).

Definition off_mbss_num : nat := 4.
Definition off_own_ip_addr : nat := 5.
Definition off_retry_interval : nat := 9.
Definition off_session_timeout_interval : nat := 13.
Definition off_quiet_interval : nat := 17.
Definition off_EAPifname (i : nat) : nat := 21 + 16 * i.
Definition off_EAPifname_len (i : nat) : nat := 149 + i.
Definition off_PreAuthifname (i : nat) : nat := 157 + 16 * i.
Definition off_PreAuthifname_len (i : nat) : nat := 285 + i.
Definition off_bss (i : nat) : nat := 293 + sizeof_DOT1X_BSS_INFO * i.
Definition off_srv (i idx : nat) : nat := off_bss i + 1 + sizeof_RADIUS_SRV_INFO * idx.
Definition off_ieee8021xWEP (i : nat) : nat := off_bss i + 147.
Definition off_key_index (i : nat) : nat := off_bss i + 148.
Definition off_key_length (i : nat) : nat := off_bss i + 149.
Definition off_key_material (i : nat) : nat := off_bss i + 150.
Definition off_nasId (i : nat) : nat := off_bss i + 163.
Definition off_nasId_len (i : nat) : nat := off_bss i + 179.

(** [sizeof(struct hostapd_radius_server)] *)
Definition sizeof_server : Z := 16.

(** The return value 0 is [true]. *)
Definition Config_read_radius_addr (addr def_port : Z) (b : bss_config) : bss_config * bool :=
  if addr =? 0 then (b, false)
  else if negb (malloc_ok ((mbss_num_auth_servers b + 1) * sizeof_server)) then (b, false)
  else
    let nserv := mk_server addr def_port None 0 in
    (b ⦃ mbss_auth_server := Some (length (mbss_auth_servers b)) ⦄
       ⦃ mbss_auth_servers := mbss_auth_servers b ++ [nserv] ⦄, true).

(** [conf->mbss_auth_server[i]->f = ...] *)
Definition update_current (b : bss_config) (f : hostapd_radius_server → hostapd_radius_server) : bss_config :=
  match mbss_auth_server b with
  | Some c => b ⦃ mbss_auth_servers := alter f c (mbss_auth_servers b) ⦄
  | None => b
  end.

Definition current_server (b : bss_config) : option hostapd_radius_server :=
  match mbss_auth_server b with Some c => mbss_auth_servers b !! c | None => None end.

(** [strdup(p)] of the string at an offset of the buffer. *)
Definition strdup_at (cmm : bytes) (off : nat) : outcome (option bytes) :=
  let* s := cstr (drop off cmm) in
  Ret (if malloc_ok (Z.of_nat (length s) + 1) then Some s else None).

(** The three counters of the function. *)
Record counts := mk_counts { radius_count : Z; radius_port_count : Z; radius_key_count : Z }.
#[local] Instance eta_counts : Eta counts := λ c,
  mk_counts (radius_count c) (radius_port_count c) (radius_key_count c).

(** One server entry of the BSS [i]. *)
Definition read_server (cmm : bytes) (i idx : nat) (b : bss_config) (n : counts) :
    outcome (bss_config * counts) :=
  let* ip := rd32 cmm (off_srv i idx) in
  let '(b, added) := Config_read_radius_addr ip 1812 b in
  let n := if (added : bool) then n ⦃ radius_count := radius_count n + 1 ⦄ else n in
  match current_server b with
  | None => Ret (b, n)
  | Some cur =>
      if srv_addr cur =? 0 then Ret (b, n)
      else
        let* p := rd32 cmm (off_srv i idx + 4) in
        let '(b, n) :=
          if 0 <? p
          then (update_current b (λ s, s ⦃ port := s32 p ⦄), n ⦃ radius_port_count := radius_port_count n + 1 ⦄)
          else (b, n) in
        let* klen := rd8 cmm (off_srv i idx + 72) in
        if 0 <? klen then
          let* secret := strdup_at cmm (off_srv i idx + 8) in
          Ret (update_current b (λ s, s ⦃ shared_secret := secret ⦄ ⦃ shared_secret_len := klen ⦄),
               n ⦃ radius_key_count := radius_key_count n + 1 ⦄)
        else Ret (b, n)
  end.

Fixpoint read_servers (cmm : bytes) (i : nat) (todo idx : nat) (b : bss_config) (n : counts) :
    outcome (bss_config * counts) :=
  match todo with
  | O => Ret (b, n)
  | S todo =>
      let* (b, n) := read_server cmm i idx b n in
      read_servers cmm i todo (S idx) b n
  end.

(** The first loop over the BSSs, from [i] on. *)
Fixpoint read_bss_servers (cmm : bytes) (todo i : nat) (bs : list bss_config) (n : counts) :
    outcome (list bss_config * counts) :=
  match todo with
  | O => Ret (bs, n)
  | S todo =>
      match bs !! i with
      | None => Oob
      | Some b =>
          let* num := rd8 cmm (off_bss i) in
          let* (b, n) := read_servers cmm i (Z.to_nat num) 0 b n in
          read_bss_servers cmm todo (S i) (<[i := b]> bs) n
      end
  end.

(** The WEP keys and the NAS identifier of one BSS. *)
Definition read_bss_keys (cmm : bytes) (i : nat) (b : bss_config) : outcome bss_config :=
  let* wep := rd8 cmm (off_ieee8021xWEP i) in
  let* b :=
    (if wep =? 0 then Ret b
     else
       let* kid := rd8 cmm (off_key_index i) in
       let b := b ⦃ DefaultKeyID := kid ⦄ ⦃ individual_wep_key_idx := if kid =? 3 then 0 else 3 ⦄ in
       let* g_key_len := rd8 cmm (off_key_length i) in
       if (g_key_len =? 5) || (g_key_len =? 13) then
         let* key := load cmm (off_key_material i) (Z.to_nat g_key_len) in
         let* ikey := copy_into (replicate WEP8021X_KEY_LEN 0) key in
         Ret (b ⦃ individual_wep_key_len := g_key_len ⦄ ⦃ IEEE8021X_ikey := ikey ⦄)
       else Ret b) in
  let* nlen := rd8 cmm (off_nasId_len i) in
  if 0 <? nlen then
    let* id := load cmm (off_nasId i) (Z.to_nat nlen) in
    let* nas := copy_into (nasId b) id in
    Ret (b ⦃ nasId := nas ⦄ ⦃ nasId_len := nlen ⦄)
  else Ret b.

(** An interface name into entry [num] of an array of names. *)
Definition read_ifname (cmm : bytes) (off len_off : nat) (names : list bytes) (num : Z) :
    outcome (list bytes * Z) :=
  let* n := rd8 cmm len_off in
  if 0 <? n then
    let* name := load cmm off (Z.to_nat n) in
    let* dest := copy_into (replicate IFNAMSIZ 0) name in
    Ret (<[Z.to_nat num := dest]> names, num + 1)
  else Ret (names, num).

(** The second loop over the BSSs. *)
Fixpoint read_bss_rest (cmm : bytes) (todo i : nat) (conf : rtapd_config) (eap pre : Z) :
    outcome (rtapd_config * Z * Z) :=
  match todo with
  | O => Ret (conf, eap, pre)
  | S todo =>
      match bss conf !! i with
      | None => Oob
      | Some b =>
          let* b := read_bss_keys cmm i b in
          let conf := conf ⦃ bss := <[i := b]> (bss conf) ⦄ in
          let* (names, eap) :=
            read_ifname cmm (off_EAPifname i) (off_EAPifname_len i) (eap_if_name conf) eap in
          let conf := conf ⦃ eap_if_name := names ⦄ in
          let* (names, pre) :=
            read_ifname cmm (off_PreAuthifname i) (off_PreAuthifname_len i) (preauth_if_name conf) pre in
          let conf := conf ⦃ preauth_if_name := names ⦄ in
          read_bss_rest cmm todo (S i) conf eap pre
      end
  end.

(** [flag] and [errors], from the own address and the counters. *)
Definition sanity_checks (ip : Z) (n : counts) : Z * Z :=
  let '(flag, errors) := if negb (ip =? 0) then (1, 0) else (0, 1) in
  let '(flag, errors) :=
    if negb (radius_count n =? 0) then (Z.lor flag 2, errors) else (flag, errors + 1) in
  let '(flag, errors) :=
    if radius_count n =? radius_port_count n then (Z.lor flag 4, errors) else (flag, errors + 1) in
  if radius_count n =? radius_key_count n then (Z.lor flag 8, errors) else (flag, errors + 1).

(** The retry, session-timeout and quiet intervals. *)
Definition read_intervals (cmm : bytes) (conf : rtapd_config) : outcome rtapd_config :=
  let* retry := rd32 cmm off_retry_interval in
  let conf := conf ⦃ radius_retry_primary_interval := s32 retry ⦄ in
  let* session := rd32 cmm off_session_timeout_interval in
  let session := s32 session in
  let conf :=
    if session =? 0
    then conf ⦃ session_timeout_interval := 0 ⦄ ⦃ session_timeout_set := 0 ⦄
    else conf ⦃ session_timeout_interval := if session <? 60 then 3600 else session ⦄
              ⦃ session_timeout_set := 1 ⦄ in
  let* quiet := rd32 cmm off_quiet_interval in
  let quiet := s32 quiet in
  Ret (conf ⦃ quiet_interval :=
    if quiet <? AUTH_PAE_DEFAULT_quietPeriod then AUTH_PAE_DEFAULT_quietPeriod else quiet ⦄).

(** [cmm] is what the driver answered, [None] a failing ioctl.  The result is
    the configuration, [errors] and [flag]; [None] is FALSE.  The buffer is one
    byte longer than the struct. *)
Definition Query_config_from_driver (cmm : option bytes) (conf : rtapd_config) :
    outcome (option (rtapd_config * Z * Z)) :=
  if negb (malloc_ok (Z.of_nat sizeof_DOT1X_CMM_CONF + 1)) then Ret None
  else
    match cmm with
    | None => Ret None
    | Some data =>
        let cmm := take sizeof_DOT1X_CMM_CONF data ++ [0xa5] in
        let* num := rd8 cmm off_mbss_num in
        let conf := conf ⦃ SsidNum := if Z.of_nat MAX_MBSSID_NUM <? num then 1 else num ⦄ in
        let m_num := Z.to_nat (SsidNum conf) in
        let* ip := rd32 cmm off_own_ip_addr in
        let conf := conf ⦃ own_ip_addr := ip ⦄ in
        let* (bs, n) := read_bss_servers cmm m_num 0 (bss conf) (mk_counts 0 0 0) in
        let conf := conf ⦃ bss := bs ⦄ in
        let '(flag, errors) := sanity_checks ip n in
        let* conf := read_intervals cmm conf in
        let* (conf, eap, pre) := read_bss_rest cmm m_num 0 conf 0 0 in
        let conf := if 0 <? eap then conf ⦃ num_eap_if := eap ⦄ else conf in
        let conf := if 0 <? pre then conf ⦃ num_preauth_if := pre ⦄ else conf in
        Ret (Some (conf, errors, flag))
    end.

(** "RalinkAP" followed by the digit of the BSS; the array has 32 bytes. *)
Definition default_nasId (i : nat) : bytes :=
  [82; 97; 108; 105; 110; 107; 65; 80; 48 + Z.of_nat i] ++ replicate 23 0.

Definition default_bss (i : nat) (ikey : bytes) : bss_config :=
  mk_bss 0 (Z.of_nat WEP8021X_KEY_LEN) 3 ikey [] None (default_nasId i) 9.

(** "br0" in an array of [IFNAMSIZ] bytes. *)
Definition br0 : bytes := [98; 114; 48] ++ replicate 13 0.

(** [rand i] is what [hostapd_get_rand] stores into the key of BSS [i]. *)
Definition default_config (rand : nat → bytes) : rtapd_config :=
  mk_config 1 (map (λ i, default_bss i (rand i)) (seq 0 MAX_MBSSID_NUM)) 0
    1 (br0 :: replicate 7 (replicate IFNAMSIZ 0)) 1 (br0 :: replicate 7 (replicate IFNAMSIZ 0))
    0 0xffff 0 0.

(** [conf->mbss_auth_server[i] = conf->mbss_auth_servers[i]] *)
Definition first_server (b : bss_config) : bss_config :=
  b ⦃ mbss_auth_server := match mbss_auth_servers b with [] => None | _ => Some 0%nat end ⦄.

Definition sizeof_rtapd_config : Z := 900.

Definition Config_read (rand : nat → bytes) (cmm : option bytes) : outcome (option rtapd_config) :=
  if negb (malloc_ok sizeof_rtapd_config) then Ret None
  else
    let* r := Query_config_from_driver cmm (default_config rand) in
    match r with
    | None => Ret None
    | Some (conf, errors, flag) =>
        let conf := conf ⦃ bss := map first_server (bss conf) ⦄ in
        if negb (errors =? 0) then Ret None
        else if negb (Z.land flag 0x0f =? 0x0f) then Ret None
        else Ret (Some conf)
    end.

End Config.
