(* ===== verification/Dot1xConfigProps.v ===== *)
(** Properties of the configuration reader. *)

From S2P Require Import Prelude Md5 KernelNvram Dot1xConfig.

(** What every BSS of a configuration satisfies, from the defaults on. *)
Definition bss_ok (b : bss_config) : Prop :=
  Forall (λ s, srv_addr s ≠ 0) (mbss_auth_servers b)
  ∧ individual_wep_key_idx b ≠ DefaultKeyID b
  ∧ (individual_wep_key_len b = 5 ∨ individual_wep_key_len b = 13)
  ∧ length (IEEE8021X_ikey b) = WEP8021X_KEY_LEN
  ∧ length (nasId b) = 32%nat ∧ 0 < nasId_len b ≤ 32.

Section Config.
Context `{Malloc}.

Lemma config_radius_addr_ok addr p b b' r :
  bss_ok b → Config_read_radius_addr addr p b = (b', r) →
  bss_ok b' ∧ (length (mbss_auth_servers b) ≤ length (mbss_auth_servers b'))%nat
  ∧ (r = true → mbss_auth_servers b' ≠ []).
Proof.
  unfold Config_read_radius_addr. intros Hb.
  destruct (Z.eqb_spec addr 0); [by intros [= <- <-]|].
  destruct (malloc_ok _); cbn [negb]; [|by intros [= <- <-]]. intros [= <- <-].
  destruct Hb as (Hs & Hrest). split; [|split].
  - split; [|exact Hrest]. cbn. apply Forall_app. split; [done|]. by repeat constructor.
  - cbn. rewrite length_app. lia.
  - intros _. cbn. by destruct (mbss_auth_servers b).
Qed.

Lemma update_current_ok b f :
  (∀ s, srv_addr (f s) = srv_addr s) → bss_ok b →
  bss_ok (update_current b f) ∧ length (mbss_auth_servers (update_current b f)) = length (mbss_auth_servers b).
Proof.
  intros Hf Hb. unfold update_current. destruct (mbss_auth_server b) as [c|]; [|done].
  destruct Hb as (Hs & Hrest). cbn. rewrite length_alter. split; [|done]. split; [|exact Hrest]. cbn.
  apply Forall_alter; [done|]. intros s _ Hs'. by rewrite Hf.
Qed.

(** What a reader of servers keeps: well-formed BSSs, no server lost, and a
    counted server is there. *)
Definition servers_step (b b' : bss_config) (n n' : counts) : Prop :=
  bss_ok b' ∧ (length (mbss_auth_servers b) ≤ length (mbss_auth_servers b'))%nat
  ∧ radius_count n ≤ radius_count n'
  ∧ (radius_count n < radius_count n' → mbss_auth_servers b' ≠ []).

Lemma read_server_ok cmm i idx b n b' n' :
  bss_ok b → read_server cmm i idx b n = Ret (b', n') → servers_step b b' n n'.
Proof.
  intros Hb. unfold read_server. destruct (rd32 cmm (off_srv i idx)) as [ip| |]; cbn [mbind outcome_bind]; [|done..].
  destruct (Config_read_radius_addr ip 1812 b) as [b1 added] eqn:Hadd.
  destruct (config_radius_addr_ok _ _ _ _ _ Hb Hadd) as (Hb1 & Hl1 & Hne).
  set (n1 := if added then _ else n).
  assert (servers_step b b1 n n1) as Hstep1.
  { unfold n1. split; [exact Hb1|]. split; [done|]. split; [destruct added; cbn; lia|].
    destruct added; [intros _; by apply Hne|lia]. }
  clearbody n1. destruct (current_server b1) as [cur|]; [|by intros [= <- <-]].
  destruct (srv_addr cur =? 0); [by intros [= <- <-]|].
  destruct (rd32 _ _) as [p| |]; cbn [mbind outcome_bind]; [|done..].
  destruct Hstep1 as (_ & Hl & Hc & Hn).
  set (r := if 0 <? p then _ else _). destruct r as [b2 n2] eqn:Hr. subst r.
  assert (bss_ok b2 ∧ length (mbss_auth_servers b2) = length (mbss_auth_servers b1)
          ∧ radius_count n2 = radius_count n1) as (Hb2 & Hl2 & Hc2).
  { destruct (0 <? p); injection Hr as <- <-; [|done].
    destruct (update_current_ok b1 (λ s, s ⦃ port := s32 p ⦄)) as [? ?]; [done|done|by split_and!]. }
  destruct (rd8 _ _) as [klen| |]; cbn [mbind outcome_bind]; [|done..]. destruct (0 <? klen).
  - destruct (strdup_at _ _) as [secret| |]; cbn [mbind outcome_bind]; [|done..]. intros [= <- <-].
    destruct (update_current_ok b2 (λ s, s ⦃ shared_secret := secret ⦄ ⦃ shared_secret_len := klen ⦄))
      as [Hb3 Hl3]; [done|done|].
    split; [exact Hb3|]. split; [exact (Nat.le_trans _ _ _ Hl (Nat.eq_le_incl _ _ (eq_sym (eq_trans Hl3 Hl2))))|].
    split; [cbn; lia|]. cbn. intros Hlt Hnil. apply Hn; [lia|].
    apply nil_length_inv. rewrite <-Hl2. exact (eq_trans (eq_sym Hl3) (f_equal length Hnil)).
  - intros [= <- <-]. split; [exact Hb2|]. split; [lia|]. split; [lia|]. intros Hlt Hnil. apply Hn; [lia|].
    apply nil_length_inv. rewrite <-Hl2, Hnil. done.
Qed.

Lemma servers_step_trans b b1 b2 n n1 n2 :
  servers_step b b1 n n1 → servers_step b1 b2 n1 n2 → servers_step b b2 n n2.
Proof.
  intros (? & Hl1 & Hc1 & Hn1) (? & Hl2 & Hc2 & Hn2). split; [done|]. split; [lia|]. split; [lia|]. intros Hlt.
  destruct (decide (radius_count n1 < radius_count n2)); [auto|]. intros Hnil.
  apply (Hn1 ltac:(lia)), nil_length_inv. rewrite Hnil in Hl2. cbn in Hl2. lia.
Qed.

Lemma read_servers_ok cmm i todo idx b n b' n' :
  bss_ok b → read_servers cmm i todo idx b n = Ret (b', n') → servers_step b b' n n'.
Proof.
  revert idx b n. induction todo as [|todo IH]; intros idx b n Hb; cbn [read_servers].
  - intros [= <- <-]. split; [done|]. split; [lia|]. split; lia.
  - destruct (read_server _ _ _ _ _) as [[b1 n1]| |] eqn:H1; cbn [mbind outcome_bind]; [|done..].
    intros H2. pose proof (read_server_ok _ _ _ _ _ _ _ Hb H1) as Hs1.
    eapply servers_step_trans; [exact Hs1|]. eapply IH; [apply Hs1|exact H2].
Qed.

Definition some_server (m : nat) (bs : list bss_config) : Prop :=
  ∃ i b, bs !! i = Some b ∧ (i < m)%nat ∧ mbss_auth_servers b ≠ [].

Lemma read_bss_servers_ok cmm todo i bs n bs' n' m :
  Forall bss_ok bs → (i + todo = m)%nat → read_bss_servers cmm todo i bs n = Ret (bs', n') →
  (0 < radius_count n → some_server i bs) → 0 ≤ radius_count n →
  Forall bss_ok bs' ∧ length bs' = length bs ∧ (0 < radius_count n' → some_server m bs') ∧ 0 ≤ radius_count n'.
Proof.
  revert i bs n. induction todo as [|todo IH]; intros i bs n Hbs Hm; cbn [read_bss_servers].
  - intros [= <- <-] Hsrv Hpos. rewrite Nat.add_0_r in Hm. subst. auto.
  - destruct (bs !! i) as [b|] eqn:Hb; [|done]. destruct (rd8 _ _) as [num| |]; cbn [mbind outcome_bind]; [|done..].
    cbn [mbind outcome_bind]. destruct (read_servers _ _ _ _ _ _) as [[b1 n1]| |] eqn:H1; cbn [mbind outcome_bind]; [|done..].
    cbn [mbind outcome_bind]. intros H2 Hsrv Hpos.
    pose proof (proj1 (Forall_lookup _ _) Hbs _ _ Hb) as Hbok.
    destruct (read_servers_ok _ _ _ _ _ _ _ _ Hbok H1) as (Hb1 & Hl & Hc & Hn).
    eapply IH in H2 as (? & Hlen & ? & ?); [rewrite length_insert in Hlen; done|by apply Forall_insert|lia| |lia].
    intros Hpos1. destruct (decide (radius_count n < radius_count n1)) as [Hlt|Hge].
    + exists i, b1. split_and!; [apply list_lookup_insert_eq; by eapply lookup_lt_Some|lia|auto].
    + destruct Hsrv as (j & bj & Hj & Hjlt & Hne); [lia|]. exists j, bj.
      rewrite list_lookup_insert_ne by lia. split_and!; [done|lia|done].
Qed.

Lemma read_bss_keys_ok cmm i b b' :
  bytes_ok cmm → bss_ok b → read_bss_keys cmm i b = Ret b' →
  bss_ok b' ∧ mbss_auth_servers b' = mbss_auth_servers b.
Proof.
  intros Hcmm Hb. unfold read_bss_keys. destruct (rd8 cmm (off_ieee8021xWEP i)) as [wep| |]; cbn [mbind outcome_bind]; [|done..].
  set (r := if wep =? 0 then Ret b else _). destruct r as [b1| |] eqn:Hr; cbn [mbind outcome_bind]; [|done..]. subst r.
  assert (bss_ok b1 ∧ mbss_auth_servers b1 = mbss_auth_servers b) as [Hb1 Hs1].
  { destruct (wep =? 0); [by injection Hr as <-|].
    destruct (rd8 cmm (off_key_index i)) as [kid| |]; cbn [mbind outcome_bind] in Hr; [|done..].
    destruct (rd8 cmm (off_key_length i)) as [klen| |]; cbn [mbind outcome_bind] in Hr; [|done..].
    destruct Hb as (Hsrv & Hid & Hlen & Hik & Hnas).
    assert ((if kid =? 3 then 0 else 3) ≠ kid) as Hid' by (destruct (Z.eqb_spec kid 3); lia).
    destruct (_ || _) eqn:Hkl.
    - destruct (load _ _ _) as [key| |] eqn:Hld; cbn [mbind outcome_bind] in Hr; [|done..].
      destruct (copy_into _ _) as [ikey| |] eqn:Hcp; cbn [mbind outcome_bind] in Hr; [|done..].
      injection Hr as <-. apply store_Ret in Hcp as [Hcl ->].
      split; [|done]. split; [exact Hsrv|]. split; [exact Hid'|]. split; [cbn; lia|]. split; [|exact Hnas]. exact (splice_length _ _ _ Hcl).
    - injection Hr as <-. split; [|done]. exact (conj Hsrv (conj Hid' (conj Hlen (conj Hik Hnas)))). }
  cbn [mbind outcome_bind]. destruct (rd8 cmm (off_nasId_len i)) as [nlen| |] eqn:Hnl; cbn [mbind outcome_bind]; [|done..].
  cbn [mbind outcome_bind]. destruct (Z.ltb_spec 0 nlen); [|intros [= <-]; by split].
  destruct (load _ _ _) as [id| |] eqn:Hld; cbn [mbind outcome_bind]; [|done..].
  destruct (copy_into _ _) as [nas| |] eqn:Hcp; cbn [mbind outcome_bind]; [|done..]. intros [= <-].
  apply store_Ret in Hcp as [Hcl ->]. apply load_Ret in Hld as [Hlb ->].
  rewrite length_take, length_drop in Hcl.
  destruct Hb1 as (Hsrv & Hid & Hlen & Hik & Hnas & Hnn). split; [|done].
  split_and!; [done..| |cbn; lia|cbn; lia]. cbn. rewrite splice_length; [done|].
  rewrite length_take, length_drop. lia.
Qed.

Lemma read_bss_rest_ok cmm todo i conf eap pre conf' eap' pre' :
  bytes_ok cmm → Forall bss_ok (bss conf) → read_bss_rest cmm todo i conf eap pre = Ret (conf', eap', pre') →
  Forall bss_ok (bss conf') ∧ map mbss_auth_servers (bss conf') = map mbss_auth_servers (bss conf)
  ∧ conf' = conf ⦃ bss := bss conf' ⦄ ⦃ eap_if_name := eap_if_name conf' ⦄ ⦃ preauth_if_name := preauth_if_name conf' ⦄.
Proof.
  intros Hcmm. revert i conf eap pre. induction todo as [|todo IH]; intros i conf eap pre Hbs; cbn [read_bss_rest].
  - intros [= <- <- <-]. split_and!; [done|done|by destruct conf].
  - destruct (bss conf !! i) as [b|] eqn:Hb; [|done].
    destruct (read_bss_keys _ _ _) as [b1| |] eqn:H1; cbn [mbind outcome_bind]; [|done..].
    destruct (read_ifname _ _ _ _ eap) as [[names1 eap1]| |]; cbn [mbind outcome_bind]; [|done..].
    destruct (read_ifname _ _ _ _ pre) as [[names2 pre1]| |]; cbn [mbind outcome_bind]; [|done..].
    intros H2. pose proof (proj1 (Forall_lookup _ _) Hbs _ _ Hb) as Hbok.
    destruct (read_bss_keys_ok _ _ _ _ Hcmm Hbok H1) as [Hb1 Hs1].
    apply IH in H2 as (Hbs' & Hsv & Hc); [|by apply Forall_insert].
    split_and!; [done| |rewrite Hc; by destruct conf].
    rewrite Hsv. cbn. change (map mbss_auth_servers ?l) with (mbss_auth_servers <$> l).
    rewrite list_fmap_insert. apply list_insert_id. rewrite list_lookup_fmap, Hs1.
    exact (f_equal (fmap mbss_auth_servers) Hb).
Qed.

Record query_ok (conf : rtapd_config) : Prop := {
  qo_ssid : 0 ≤ SsidNum conf ≤ Z.of_nat MAX_MBSSID_NUM;
  qo_bss : Forall bss_ok (bss conf);
  qo_length : length (bss conf) = MAX_MBSSID_NUM;
  qo_session : session_timeout_set conf = 0 ∧ session_timeout_interval conf = 0
               ∨ session_timeout_set conf = 1 ∧ 60 ≤ session_timeout_interval conf
}.

Lemma rd8_range cmm off x : bytes_ok cmm → rd8 cmm off = Ret x → 0 ≤ x < 256.
Proof.
  intros Hcmm Hr. unfold rd8 in Hr. apply outcome_bind_Ret in Hr as (l & Hl & [= <-]).
  apply load_Ret in Hl as [Hle ->]. unfold idx. change (Z.to_nat 0) with 0%nat.
  assert (bytes_ok (take 1 (drop off cmm))) as Hok by (by apply bytes_ok_take, bytes_ok_drop).
  destruct (take 1 (drop off cmm)); cbn; [lia|]. by inversion Hok.
Qed.

Lemma sanity_checks_ok ip n flag errors :
  sanity_checks ip n = (flag, errors) → errors = 0 → ip ≠ 0 ∧ radius_count n ≠ 0.
Proof.
  unfold sanity_checks. destruct (Z.eqb_spec ip 0), (Z.eqb_spec (radius_count n) 0); cbn [negb];
    destruct (_ =? _), (_ =? _); intros [= <- <-]; lia.
Qed.

Lemma read_intervals_ok cmm conf conf' :
  read_intervals cmm conf = Ret conf' →
  (session_timeout_set conf' = 0 ∧ session_timeout_interval conf' = 0
   ∨ session_timeout_set conf' = 1 ∧ 60 ≤ session_timeout_interval conf')
  ∧ bss conf' = bss conf ∧ SsidNum conf' = SsidNum conf
  ∧ own_ip_addr conf' = own_ip_addr conf.
Proof.
  unfold read_intervals. intros HR. apply outcome_bind_Ret in HR as (retry & _ & HR).
  apply outcome_bind_Ret in HR as (session & _ & HR). apply outcome_bind_Ret in HR as (quiet & _ & [= <-]).
  destruct (Z.eqb_spec (s32 session) 0), (Z.ltb_spec (s32 session) 60); cbn; split_and!; try done; lia.
Qed.

Lemma query_config_ok data conf0 conf errors flag :
  bytes_ok data → Forall bss_ok (bss conf0) → length (bss conf0) = MAX_MBSSID_NUM →
  Query_config_from_driver (Some data) conf0 = Ret (Some (conf, errors, flag)) →
  query_ok conf ∧ (errors = 0 → own_ip_addr conf ≠ 0 ∧ some_server (Z.to_nat (SsidNum conf)) (bss conf)).
Proof.
  intros Hdata Hbs Hlen. unfold Query_config_from_driver. destruct (malloc_ok _); cbn [negb]; [|done].
  set (cmm := take sizeof_DOT1X_CMM_CONF data ++ [0xa5]).
  assert (bytes_ok cmm) as Hcmm.
  { apply bytes_ok_app. split; [by apply bytes_ok_take|]. by repeat constructor. }
  clearbody cmm. intros HQ.
  apply outcome_bind_Ret in HQ as (num & Hnum & HQ). apply rd8_range in Hnum; [|done].
  set (ssid := if Z.of_nat MAX_MBSSID_NUM <? num then 1 else num) in *.
  assert (0 ≤ ssid ≤ Z.of_nat MAX_MBSSID_NUM) as Hssid by (unfold ssid, MAX_MBSSID_NUM; case_match; lia). clearbody ssid.
  apply outcome_bind_Ret in HQ as (ip & _ & HQ).
  apply outcome_bind_Ret in HQ as ([bs n] & Hsrv & HQ).
  eapply read_bss_servers_ok in Hsrv as (Hbs' & Hl' & Hsome & Hpos); [|done|reflexivity|cbn; lia|cbn; lia].
  destruct (sanity_checks ip n) as [flag1 errors1] eqn:Hsane.
  apply outcome_bind_Ret in HQ as (conf1 & Hint & HQ).
  apply read_intervals_ok in Hint as (Hses & Hb1 & Hs1 & Hip1).
  apply outcome_bind_Ret in HQ as ([[conf2 eap] pre] & Hrest & HQ).
  apply read_bss_rest_ok in Hrest as (Hbs2 & Hsv2 & Hc2); [|done|rewrite Hb1; exact Hbs'].
  assert (query_ok conf2 ∧ (errors1 = 0 → own_ip_addr conf2 ≠ 0
            ∧ some_server (Z.to_nat (SsidNum conf2)) (bss conf2))) as [Hok Herr].
  { assert (SsidNum conf2 = ssid ∧ own_ip_addr conf2 = ip ∧ session_timeout_set conf2 = session_timeout_set conf1
      ∧ session_timeout_interval conf2 = session_timeout_interval conf1) as (E1 & E2 & E3 & E4)
      by (rewrite Hc2; cbn; by rewrite Hs1, Hip1).
    split; [split; rewrite ?E1, ?E3, ?E4; try done|].
    - apply (f_equal length) in Hsv2. rewrite !length_map, Hb1 in Hsv2. rewrite Hsv2. cbn. by rewrite Hl'.
    - intros He. destruct (sanity_checks_ok _ _ _ _ Hsane He) as [Hip Hcnt]. rewrite E1, E2.
      split; [done|]. destruct Hsome as (i & b & Hi & Hlt & Hne); [lia|].
      assert (map mbss_auth_servers (bss conf2) !! i = Some (mbss_auth_servers b)) as Hmi.
      { rewrite Hsv2, Hb1. cbn. change (map ?f ?l) with (f <$> l). rewrite list_lookup_fmap.
        exact (f_equal (fmap mbss_auth_servers) Hi). }
      change (map ?f ?l) with (f <$> l) in Hmi. rewrite list_lookup_fmap in Hmi.
      apply fmap_Some in Hmi as (b2 & Hi2 & Hs2). exists i, b2. rewrite <-Hs2. split_and!; [done|exact Hlt|done]. }
  destruct (0 <? eap), (0 <? pre); injection HQ as <- <- <-; (split; [by destruct Hok|exact Herr]).
Qed.

(** What the rest of the daemon relies on. *)
Definition config_ok (conf : rtapd_config) : Prop :=
  query_ok conf ∧ own_ip_addr conf ≠ 0 ∧ some_server (Z.to_nat (SsidNum conf)) (bss conf)
  ∧ Forall (λ b, mbss_auth_server b = match mbss_auth_servers b with [] => None | _ => Some 0%nat end) (bss conf).

Lemma first_server_ok b : bss_ok b → bss_ok (first_server b).
Proof. done. Qed.

Lemma default_config_ok rand :
  (∀ i, length (rand i) = WEP8021X_KEY_LEN) → Forall bss_ok (bss (default_config rand)).
Proof.
  intros Hr. apply Forall_map, Forall_forall. intros i _. unfold default_bss.
  split; [constructor|]. cbn. split_and!; [done|by right|apply Hr|done|lia|lia].
Qed.

(** C32. Whatever bytes the driver answers, a configuration that [Config_read]
    hands to the daemon has at most eight BSSs in use, an own address and a RADIUS
    server in one of them, an address for every server, as current server of every
    BSS the first of its list, a session timeout of a minute at least or none, a
    unicast key index that differs from the group key index, unicast keys of 5 or 13
    bytes and NAS identifiers of 1 to 32, within their arrays.  Nothing is said of the
    quiet period: the code raises it to a minute but does not keep it below the 65535
    seconds that [config.h] gives as its maximum. *)
Theorem config_read_wf rand cmm conf :
  (∀ i, length (rand i) = WEP8021X_KEY_LEN) → (∀ data, cmm = Some data → bytes_ok data) →
  Config_read rand cmm = Ret (Some conf) → config_ok conf.
Proof.
  intros Hr Hdata. unfold Config_read. destruct (malloc_ok _); cbn [negb]; [|done]. intros HC.
  apply outcome_bind_Ret in HC as (r & HQ & HC). destruct r as [[[conf1 errors] flag]|]; [|done].
  destruct (Z.eqb_spec errors 0) as [He|]; cbn [negb] in HC; [|done].
  destruct (negb _); [done|]. injection HC as <-.
  destruct cmm as [data|]; [|by unfold Query_config_from_driver in HQ; destruct (malloc_ok _)].
  apply query_config_ok in HQ as [[Hs Hb Hl Hses] Herr];
    [|by apply Hdata|by apply default_config_ok|done].
  destruct (Herr He) as (Hip & i & b & Hi & Hlt & Hne).
  split; [split; cbn; try done|split; [done|split]].
  - apply Forall_map. eapply Forall_impl; [|exact Hb]. intros x. apply first_server_ok.
  - by rewrite length_map.
  - exists i, (first_server b). split_and!; [|done|done]. cbn. change (map ?f ?l) with (f <$> l).
    rewrite list_lookup_fmap. exact (f_equal (fmap first_server) Hi).
  - cbn. apply Forall_map, Forall_true. intros x. done.
Qed.

End Config.

(** One BSS with one server, 10.0.0.1 port 1812, secret "key". *)
Definition demo_cmm : bytes :=
  splice (splice (splice (replicate 1733 0) 4 [1; 10; 0; 0; 2]) 293 [1; 10; 0; 0; 1; 20; 7; 0; 0; 107; 101; 121])
    (off_srv 0 0 + 72) [3].
Definition demo_rand (_ : nat) : bytes := replicate 13 7.

Lemma config_read_wf_witness :
  ∃ conf, Config_read (H:=λ _, true) demo_rand (Some demo_cmm) = Ret (Some conf) ∧ config_ok conf
    ∧ (current_server <$> bss conf) !! 0%nat = Some (Some (mk_server 0x100000a 1812 (Some [107; 101; 121]) 3)).
Proof.
  destruct (Config_read (H:=λ _, true) demo_rand (Some demo_cmm)) as [[conf|]| |] eqn:HC; [|exfalso; vm_compute in HC; discriminate..].
  exists conf. split; [reflexivity|]. split.
  - apply (config_read_wf (H:=λ _, true) demo_rand (Some demo_cmm)); [by intros i| |exact HC].
    intros data [= <-]. apply (bool_decide_unpack _). by vm_compute.
  - vm_compute in HC. injection HC as <-. reflexivity.
Defined.
