(* ===== verification/Rtapd.v ===== *)
(** The state of the 802.1X daemon ([user/802.1x/rtdot1x.h] and [ap.h]): the
    struct [rtapd], the stations in their memory, the event loop, and the
    outside world.

    Stations are shared by pointer between the list of stations, the hash
    table and the pending timeouts, so they live in a heap: a pointer is a
    number, and a pointer to a freed station is not in the heap ([Oob] when it
    is used).  A call to the outside world (a frame sent, an ioctl, a socket
    opened) appends an [effect] to [d_out]; its result is that of the oracle
    [World] for the number of effects before it. *)

From stdpp Require Import gmap.
From S2P Require Import Prelude EapolSm Radius Eloop Dot1xConfig.

(** * Stations *)

Definition ptr : Type := nat.

(** The fields the daemon uses; [last_assoc_req] is never set.  A buffer and
    its length field are one optional list of bytes. *)
Record sta_info := mk_sta {
  next : option ptr;
  hnext : option ptr;
  addr : bytes;
  aid : Z;
  eapol_sm : option eapol_state_machine;
  radius_identifier : Z;
  last_recv_radius : option radius_msg;
  last_eap_supp : option bytes;
  last_eap_radius : option bytes;
  identity : option bytes;
  eapol_key_sign : option bytes;
  eapol_key_crypt : option bytes;
  ApIdx : Z;
  ethertype : Z;
  SockNum : Z
}.
#[export] Instance eta_sta : Eta sta_info := λ s,
  mk_sta (next s) (hnext s) (addr s) (aid s) (eapol_sm s) (radius_identifier s) (last_recv_radius s)
    (last_eap_supp s) (last_eap_radius s) (identity s) (eapol_key_sign s) (eapol_key_crypt s)
    (ApIdx s) (ethertype s) (SockNum s).

Definition sizeof_sta_info : Z := 128.
Definition MAX_STA_COUNT : Z := 1024.
Definition STA_HASH_SIZE : nat := 256.
Definition MAC_ADDR_LEN : nat := 6.

(** * The RADIUS client's data ([radius_client.h]) *)

Inductive rx_handler := ieee802_1x_receive_auth_handler.

(** [msg_type] is always [RADIUS_AUTH].  The secret is the pointer into the
    configuration and its length; the string behind it never changes. *)
Record radius_msg_list := mk_entry {
  entry_msg : radius_msg;
  first_try : Z;
  next_try : Z;
  attempts : Z;
  next_wait : Z;
  entry_secret : option bytes;
  entry_secret_len : Z;
  entry_ApIdx : Z
}.
#[export] Instance eta_entry : Eta radius_msg_list := λ e,
  mk_entry (entry_msg e) (first_try e) (next_try e) (attempts e) (next_wait e)
    (entry_secret e) (entry_secret_len e) (entry_ApIdx e).

Record radius_client_data := mk_client {
  mbss_auth_serv_sock : list Z;
  auth_handlers : list rx_handler;
  msgs : list radius_msg_list;
  num_msgs : Z;
  next_radius_identifier : Z
}.
#[export] Instance eta_client : Eta radius_client_data := λ c,
  mk_client (mbss_auth_serv_sock c) (auth_handlers c) (msgs c) (num_msgs c) (next_radius_identifier c).

(** * The event loop's instance *)

Inductive timeout_handler :=
| Radius_client_timer_h | Radius_retry_primary_timer_h
| Ap_handle_session_timer_h | eapol_port_timers_tick_h.
Inductive read_handler := Handle_read_h | Radius_client_receive_h.
Inductive signal_handler := Handle_term_h | Handle_usr1_h.
Inductive ctx := CNull | CApd | CSta (p : ptr) | CSm (p : ptr).

#[export] Instance timeout_handler_eq_dec : EqDecision timeout_handler.
Proof. solve_decision. Defined.
#[export] Instance ctx_eq_dec : EqDecision ctx.
Proof. solve_decision. Defined.

Definition daemon_loop : Type := eloop_state timeout_handler read_handler signal_handler ctx.

(** * The daemon *)

Inductive effect :=
| Send (sock : Z) (data : bytes)
| Ioctl (flags apidx : Z) (data : bytes)
| Socket
| Connect (sock addr port : Z)
| IfIndex (sock : Z) (name : bytes)
| Bind (sock : Z)
| HwAddr (i : nat)
| Close (sock : Z)
| Rand (n : nat)
| Random
| QueryConfig.

(** [ret_of i] is what the call number [i] returns, [rand_of i n] the [n] bytes
    it reads from /dev/urandom, [None] when it cannot; [config_answer i] is the
    driver's answer to a query for the configuration, [config_rand i] the
    random keys the configuration starts with, [hwaddr_of i] the family and the
    data of the hardware address of a wireless interface. *)
Class World := {
  ret_of : nat → Z;
  rand_of : nat → nat → option bytes;
  config_answer : nat → option bytes;
  config_rand : nat → nat → bytes;
  hwaddr_of : nat → option (Z * bytes);
  rand_len i n b : rand_of i n = Some b → length b = n ∧ bytes_ok b
}.

Record daemon := mk_daemon {
  conf : rtapd_config;
  own_addr : list bytes;
  radius : option radius_client_data;
  num_sta : Z;
  sta_list : option ptr;
  sta_hash : list (option ptr);
  heap : gmap ptr sta_info;
  brk : ptr;
  loop : daemon_loop;
  now : timeval;
  d_out : list effect;
  wlan_sock : list Z;
  eth_sock : list Z;
  ioctl_sock : Z
}.
#[export] Instance eta_daemon : Eta daemon := λ d,
  mk_daemon (conf d) (own_addr d) (radius d) (num_sta d) (sta_list d) (sta_hash d) (heap d) (brk d)
    (loop d) (now d) (d_out d) (wlan_sock d) (eth_sock d) (ioctl_sock d).

Section Daemon.
Context `{World} `{Malloc}.
Implicit Types d : daemon.

(** ** Memory *)

Definition sta_at d (p : ptr) : outcome sta_info :=
  match heap d !! p with Some s => Ret s | None => Oob end.

Definition set_sta d (p : ptr) (s : sta_info) : daemon := d ⦃ heap := <[p := s]> (heap d) ⦄.

(** [sta->field = ...] through a pointer. *)
Definition upd_sta (p : ptr) (f : sta_info → sta_info) d : outcome daemon :=
  let* s := sta_at d p in Ret (set_sta d p (f s)).

(** A new station: fresh memory, never used before. *)
Definition alloc_sta (s : sta_info) d : daemon * ptr :=
  (d ⦃ heap := <[brk d := s]> (heap d) ⦄ ⦃ brk := S (brk d) ⦄, brk d).

Definition free_sta (p : ptr) d : outcome daemon :=
  let* _ := sta_at d p in Ret (d ⦃ heap := delete p (heap d) ⦄).

(** ** The outside world *)

Definition call_out (e : effect) d : daemon * Z :=
  (d ⦃ d_out := d_out d ++ [e] ⦄, ret_of (length (d_out d))).

Definition hostapd_get_rand (n : nat) d : daemon * option bytes :=
  (d ⦃ d_out := d_out d ++ [Rand n] ⦄, rand_of (length (d_out d)) n).

(** [RT_ioctl(..., data, ..., apidx, flags)] *)
Definition RT_ioctl (flags apidx : Z) (data : bytes) d : daemon * Z :=
  call_out (Ioctl flags apidx data) d.

(** [Config_read(rtapd->ioctl_sock, rtapd->prefix_wlan_name)] *)
Definition read_config d : outcome (daemon * option rtapd_config) :=
  let n := length (d_out d) in
  let* newconf := Config_read (config_rand n) (config_answer n) in
  Ret (d ⦃ d_out := d_out d ++ [QueryConfig] ⦄, newconf).

(** ** The event loop *)

Definition register_timeout (secs : Z) (h : timeout_handler) (data user : ctx) d : outcome daemon :=
  let* (e, _) := eloop_register_timeout (now d) secs 0 h data user (loop d) in
  Ret (d ⦃ loop := e ⦄).

Definition cancel_timeout (h : timeout_handler) (data user : ctx) d : daemon :=
  let '(e, _) := eloop_cancel_timeout h (Some data) (Some user) (loop d) in
  d ⦃ loop := e ⦄.

(** [time(&t)] *)
Definition time_now d : Z := tv_sec (now d).

End Daemon.
