(* ===== verification/RadiusClient.v ===== *)
(** The RADIUS client of the 802.1X daemon ([user/802.1x/radius_client.c] and
    [radius_client.h], compiled with MULTIPLE_RADIUS): the list of requests
    that wait for an answer, their retransmission, the change of servers and
    the dispatch of answers.

    Only this file touches the list of requests, so it is the list of its
    entries; a step that goes through the memory of an entry it has released
    is [Oob].  [rtapd->radius] may be NULL ([None]). *)

From S2P Require Import Prelude Md5 Radius Eloop Dot1xConfig Rtapd.

Definition RADIUS_CLIENT_FIRST_WAIT : Z := 1.
Definition RADIUS_CLIENT_MAX_WAIT : Z := 120.
Definition RADIUS_CLIENT_MAX_RETRIES : Z := 10.
Definition RADIUS_CLIENT_MAX_ENTRIES : Z := 30.
Definition RADIUS_CLIENT_NUM_FAILOVER : Z := 4.

Inductive RadiusRxResult := RADIUS_RX_PROCESSED | RADIUS_RX_QUEUED | RADIUS_RX_UNKNOWN.

Definition sizeof_radius_rx_handler : Z := 8.
Definition sizeof_radius_msg_list : Z := 44.
Definition sizeof_radius_client_data : Z := 60.

(** An access through an index that may lie outside its array. *)
Definition at_idx {A} (l : list A) (i : nat) : outcome A :=
  match l !! i with Some a => Ret a | None => Oob end.

(** The bytes of a secret: [len] bytes of the string behind the pointer. *)
Definition secret_bytes (secret : option bytes) (len : Z) : outcome bytes :=
  match secret with
  | Some s => load (s ++ [0]) 0 (Z.to_nat len)
  | None => if len =? 0 then Ret [] else Oob
  end.

Section Client.
Context `{World} `{Malloc}.
Implicit Types d : daemon.

(** [rtapd->radius->...] *)
Definition get_radius d : outcome radius_client_data :=
  match radius d with Some c => Ret c | None => Oob end.

Definition upd_radius (f : radius_client_data → radius_client_data) d : outcome daemon :=
  let* c := get_radius d in Ret (d ⦃ radius := Some (f c) ⦄).

Definition Radius_client_register (h : rx_handler) d : outcome (daemon * Z) :=
  let* c := get_radius d in
  if negb (malloc_ok ((Z.of_nat (length (auth_handlers c)) + 1) * sizeof_radius_rx_handler)) then Ret (d, -1)
  else Ret (d ⦃ radius := Some (c ⦃ auth_handlers := auth_handlers c ++ [h] ⦄) ⦄, 0).

(** ** Retransmission *)

(** The bytes [send(s, msg->buf, msg->buf_used, 0)] reads. *)
Definition sent_bytes (msg : radius_msg) : outcome bytes := load (buf msg) 0 (buf_used msg).

(** [true] is the return value 1: the entry has been tried too often. *)
Definition Radius_client_retransmit (entry : radius_msg_list) (now : Z) d :
    outcome (daemon * radius_msg_list * bool) :=
  let* c := get_radius d in
  let* s := at_idx (mbss_auth_serv_sock c) (Z.to_nat (entry_ApIdx entry)) in
  let entry := entry ⦃ attempts := attempts entry + 1 ⦄ in
  let* data := sent_bytes (entry_msg entry) in
  let '(d, _) := call_out (Send s data) d in
  let entry := entry ⦃ next_try := s32 (now + next_wait entry) ⦄ in
  let entry := entry ⦃ next_wait := s32 (next_wait entry * 2) ⦄ in
  let entry := entry ⦃ next_wait :=
    if RADIUS_CLIENT_MAX_WAIT <? next_wait entry then RADIUS_CLIENT_MAX_WAIT else next_wait entry ⦄ in
  Ret (d, entry, RADIUS_CLIENT_MAX_RETRIES <=? attempts entry).

(** The loop of the timer over the entries: those that stay, the failover
    counts and the first time to come. *)
Fixpoint timer_loop (now : Z) (es : list radius_msg_list) (failover : list Z) (first : Z) d :
    outcome (daemon * list radius_msg_list * list Z * Z) :=
  match es with
  | [] => Ret (d, [], failover, first)
  | entry :: es =>
      let* (d, entry, drop_it) :=
        (if next_try entry <=? now then Radius_client_retransmit entry now d else Ret (d, entry, false)) in
      if (drop_it : bool) then
        let* d := upd_radius (λ c, c ⦃ num_msgs := num_msgs c - 1 ⦄) d in
        timer_loop now es failover first d
      else
        let* failover :=
          (if RADIUS_CLIENT_NUM_FAILOVER <? attempts entry then
             let* n := at_idx failover (Z.to_nat (entry_ApIdx entry)) in
             Ret (<[Z.to_nat (entry_ApIdx entry) := n + 1]> failover)
           else Ret failover) in
        let first := if (first =? 0) || (next_try entry <? first) then next_try entry else first in
        let* (d, kept, failover, first) := timer_loop now es failover first d in
        Ret (d, entry :: kept, failover, first)
  end.

Definition Radius_client_flush d : daemon :=
  match radius d with
  | None => d
  | Some c =>
      let d := cancel_timeout Radius_client_timer_h CApd CNull d in
      d ⦃ radius := Some (c ⦃ msgs := [] ⦄ ⦃ num_msgs := 0 ⦄) ⦄
  end.

Definition reset_entry (entry : radius_msg_list) : radius_msg_list :=
  entry ⦃ next_try := s32 (first_try entry + RADIUS_CLIENT_FIRST_WAIT) ⦄ ⦃ attempts := 0 ⦄
        ⦃ next_wait := RADIUS_CLIENT_FIRST_WAIT * 2 ⦄.

(** [oserv] may be NULL. *)
Definition same_secret (nserv : hostapd_radius_server) (oserv : option hostapd_radius_server) : outcome bool :=
  match oserv with
  | None => Ret false
  | Some oserv =>
      if negb (shared_secret_len nserv =? shared_secret_len oserv) then Ret false
      else
        let* a := secret_bytes (shared_secret nserv) (shared_secret_len nserv) in
        let* b := secret_bytes (shared_secret oserv) (shared_secret_len nserv) in
        Ret (bool_decide (a = b))
  end.

Definition Radius_change_server (nserv : hostapd_radius_server) (oserv : option hostapd_radius_server)
    (sock : Z) d : outcome (daemon * Z) :=
  let* same := same_secret nserv oserv in
  let* d :=
    (if (same : bool) then
       let* d := upd_radius (λ c, c ⦃ msgs := map reset_entry (msgs c) ⦄) d in
       let* c := get_radius d in
       match msgs c with
       | [] => Ret d
       | _ =>
           let d := cancel_timeout Radius_client_timer_h CApd CNull d in
           register_timeout RADIUS_CLIENT_FIRST_WAIT Radius_client_timer_h CApd CNull d
       end
     else Ret (Radius_client_flush d)) in
  let '(d, res) := call_out (Connect sock (srv_addr nserv) (u16 (port nserv))) d in
  if res <? 0 then Ret (d, -1) else Ret (d, 0).

(** [conf->mbss_auth_server[i] = ...] *)
Definition set_current (i : nat) (server : option nat) d : outcome daemon :=
  let* b := at_idx (bss (conf d)) i in
  Ret (d ⦃ conf / bss := <[i := b ⦃ mbss_auth_server := server ⦄]> (bss (conf d)) ⦄).

(** The change to the next server of one BSS, the first after the last. *)
Definition failover_bss (i : nat) (count : Z) d : outcome daemon :=
  let* b := at_idx (bss (conf d)) i in
  if negb (count =? 0) && (1 <? mbss_num_auth_servers b) then
    match mbss_auth_server b with
    | None => Oob
    | Some old =>
        let next := if mbss_num_auth_servers b - 1 <? Z.of_nat old + 1 then 0%nat else S old in
        let* d := set_current i (Some next) d in
        let* oserv := at_idx (mbss_auth_servers b) old in
        let* nserv := at_idx (mbss_auth_servers b) next in
        let* c := get_radius d in
        let* s := at_idx (mbss_auth_serv_sock c) i in
        let* (d, _) := Radius_change_server nserv (Some oserv) s d in
        Ret d
    end
  else Ret d.

Fixpoint failover_loop (todo i : nat) (failover : list Z) d : outcome daemon :=
  match todo with
  | O => Ret d
  | S todo =>
      let* count := at_idx failover i in
      let* d := failover_bss i count d in
      failover_loop todo (S i) failover d
  end.

Definition Radius_client_timer d : outcome daemon :=
  let* c := get_radius d in
  match msgs c with
  | [] => Ret d
  | es =>
      let now := time_now d in
      let* (d, kept, failover, first) := timer_loop now es (replicate MAX_MBSSID_NUM 0) 0 d in
      let* d := upd_radius (λ c, c ⦃ msgs := kept ⦄) d in
      let* d :=
        match kept with
        | [] => Ret d
        | _ =>
            let first := if first <? now then now else first in
            register_timeout (u32 (first - now)) Radius_client_timer_h CApd CNull d
        end in
      failover_loop (Z.to_nat (SsidNum (conf d))) 0 failover d
  end.

(** ** Sending *)

(** [Radius_client_list_add]: the newest request comes first; when the list
    counts as full, its last entry goes. *)
Definition Radius_client_list_add (msg : radius_msg) (secret : option bytes) (secret_len ApIdx : Z) d :
    outcome daemon :=
  if eloop_terminated (loop d) then Ret d
  else if negb (malloc_ok sizeof_radius_msg_list) then Ret d
  else
    let now := time_now d in
    let entry := mk_entry msg now (s32 (now + RADIUS_CLIENT_FIRST_WAIT)) 1 (RADIUS_CLIENT_FIRST_WAIT * 2)
                   secret secret_len ApIdx in
    let* c := get_radius d in
    let* d :=
      match msgs c with
      | [] => register_timeout RADIUS_CLIENT_FIRST_WAIT Radius_client_timer_h CApd CNull d
      | _ => Ret d
      end in
    upd_radius (λ c,
      if RADIUS_CLIENT_MAX_ENTRIES <=? num_msgs c
      then c ⦃ msgs := match msgs c with [] => [entry] | es => entry :: removelast es end ⦄
      else c ⦃ msgs := entry :: msgs c ⦄ ⦃ num_msgs := num_msgs c + 1 ⦄) d.

Definition Radius_client_send (msg : radius_msg) (ApIdx : Z) d : outcome (daemon * Z) :=
  let* b := at_idx (bss (conf d)) (Z.to_nat ApIdx) in
  match current_server b with
  | None => Oob
  | Some srv =>
      let* c := get_radius d in
      let* s := at_idx (mbss_auth_serv_sock c) (Z.to_nat ApIdx) in
      let* secret :=
        match shared_secret srv with
        | None => Ret None
        | _ => let* key := secret_bytes (shared_secret srv) (shared_secret_len srv) in Ret (Some key)
        end in
      let* msg := Radius_msg_finish msg secret in
      let* data := sent_bytes msg in
      let '(d, res) := call_out (Send s data) d in
      let* d := Radius_client_list_add msg (shared_secret srv) (shared_secret_len srv) ApIdx d in
      Ret (d, res)
  end.

(** [Radius_client_get_id] removes the requests with the new identifier; its
    [prev] also moves to an entry just released, [prev_freed], whose [next] it
    writes when the entry behind it goes, too. *)
Fixpoint remove_id (id : Z) (prev_freed : bool) (es : list radius_msg_list) : outcome (list radius_msg_list) :=
  match es with
  | [] => Ret []
  | entry :: es =>
      if hdr_identifier (entry_msg entry) =? id then
        if prev_freed then Oob else remove_id id true es
      else let* rest := remove_id id false es in Ret (entry :: rest)
  end.

Definition Radius_client_get_id d : outcome (daemon * Z) :=
  let* c := get_radius d in
  let id := next_radius_identifier c in
  let* es := remove_id id false (msgs c) in
  Ret (d ⦃ radius := Some (c ⦃ next_radius_identifier := u8 (id + 1) ⦄ ⦃ msgs := es ⦄) ⦄, id).

(** ** Receiving *)

(** The first request with the identifier, and the others. *)
Fixpoint take_request (id : Z) (es : list radius_msg_list) : option (radius_msg_list * list radius_msg_list) :=
  match es with
  | [] => None
  | req :: es =>
      if hdr_identifier (entry_msg req) =? id then Some (req, es)
      else match take_request id es with Some (r, rest) => Some (r, req :: rest) | None => None end
  end.

Definition recv_size : nat := 3000.

Section Receive.
(** The registered handlers: the answer, the request and the secret. *)
Context (run_handler : rx_handler → radius_msg → radius_msg → option bytes → Z → daemon →
                       outcome (daemon * RadiusRxResult)).

Fixpoint run_handlers (hs : list rx_handler) (msg : radius_msg) (req : radius_msg_list) d : outcome daemon :=
  match hs with
  | [] => Ret d
  | h :: hs =>
      let* (d, res) := run_handler h msg (entry_msg req) (entry_secret req) (entry_secret_len req) d in
      match res with
      | RADIUS_RX_PROCESSED | RADIUS_RX_QUEUED => Ret d
      | RADIUS_RX_UNKNOWN => run_handlers hs msg req d
      end
  end.

(** [datagram] is what [recv] returns, [None] for an error. *)
Definition Radius_client_receive (datagram : option bytes) d : outcome daemon :=
  match datagram with
  | None => Ret d
  | Some data =>
      let buf := take recv_size data in
      if decide (length buf = recv_size) then Ret d
      else
        let* parsed := Radius_msg_parse buf in
        match parsed with
        | None => Ret d
        | Some msg =>
            let* c := get_radius d in
            match take_request (hdr_identifier msg) (msgs c) with
            | None => Ret d
            | Some (req, rest) =>
                let d := d ⦃ radius := Some (c ⦃ msgs := rest ⦄ ⦃ num_msgs := num_msgs c - 1 ⦄) ⦄ in
                run_handlers (auth_handlers c) msg req d
            end
        end
  end.
End Receive.

(** ** Starting and stopping *)

(** The return to the first server of one BSS. *)
Definition retry_primary_bss (i : nat) d : outcome daemon :=
  let* c := get_radius d in
  let* s := at_idx (mbss_auth_serv_sock c) i in
  let* b := at_idx (bss (conf d)) i in
  match mbss_auth_servers b with
  | [] => Ret d
  | primary :: _ =>
      if (0 <=? s) && bool_decide (mbss_auth_server b ≠ Some 0%nat) then
        let oserv := current_server b in
        let* d := set_current i (Some 0%nat) d in
        let* (d, _) := Radius_change_server primary oserv s d in
        Ret d
      else Ret d
  end.

Fixpoint retry_primary_loop (todo i : nat) d : outcome daemon :=
  match todo with
  | O => Ret d
  | S todo => let* d := retry_primary_bss i d in retry_primary_loop todo (S i) d
  end.

Definition register_retry_primary d : outcome daemon :=
  register_timeout (u32 (radius_retry_primary_interval (conf d))) Radius_retry_primary_timer_h CApd CNull d.

Definition Radius_retry_primary_timer d : outcome daemon :=
  let* d := retry_primary_loop (Z.to_nat (SsidNum (conf d))) 0 d in
  if radius_retry_primary_interval (conf d) =? 0 then Ret d else register_retry_primary d.

Definition set_serv_sock (i : nat) (s : Z) (c : radius_client_data) : radius_client_data :=
  c ⦃ mbss_auth_serv_sock := <[i := s]> (mbss_auth_serv_sock c) ⦄.

Definition Radius_client_init_auth (i : nat) d : outcome (daemon * Z) :=
  let* b := at_idx (bss (conf d)) i in
  match current_server b with
  | None => Oob
  | Some srv =>
      if srv_addr srv =? 0 then Ret (d, -1)
      else
        let '(d, s) := call_out Socket d in
        let* d := upd_radius (set_serv_sock i s) d in
        if s <? 0 then Ret (d, -1)
        else
          let* (d, res) := Radius_change_server srv None s d in
          if negb (res =? 0) then Ret (d, -1)
          else
            let '(e, res) := eloop_register_read_sock s Radius_client_receive_h CApd CNull (loop d) in
            Ret (d ⦃ loop := e ⦄, if res =? 0 then 0 else -1)
  end.

Fixpoint init_loop (todo i : nat) (ready_sock_count : Z) d : outcome (daemon * Z) :=
  match todo with
  | O => Ret (d, ready_sock_count)
  | S todo =>
      let* c := get_radius d in
      let* s := at_idx (mbss_auth_serv_sock c) i in
      if s <? 0 then
        let* b := at_idx (bss (conf d)) i in
        match mbss_auth_server b with
        | None => init_loop todo (S i) ready_sock_count d
        | Some _ =>
            let* (d, res) := Radius_client_init_auth i d in
            init_loop todo (S i) (if res =? 0 then ready_sock_count + 1 else ready_sock_count) d
        end
      else init_loop todo (S i) (ready_sock_count + 1) d
  end.

Definition new_client : radius_client_data := mk_client (replicate MAX_MBSSID_NUM (-1)) [] [] 0 0.

Definition Radius_client_init d : outcome (daemon * Z) :=
  let bReInit := bool_decide (radius d ≠ None) in
  if negb bReInit && negb (malloc_ok sizeof_radius_client_data) then Ret (d, -1)
  else
    let d := if bReInit then d else d ⦃ radius := Some new_client ⦄ in
    let* (d, ready_sock_count) := init_loop (Z.to_nat (SsidNum (conf d))) 0 0 d in
    if ready_sock_count =? 0 then Ret (d, -1)
    else if negb (radius_retry_primary_interval (conf d) =? 0) && negb bReInit && (0 <? ready_sock_count)
    then let* d := register_retry_primary d in Ret (d, 0)
    else Ret (d, 0).

Definition Radius_client_deinit d : daemon :=
  match radius d with
  | None => d
  | Some _ =>
      let d := cancel_timeout Radius_retry_primary_timer_h CApd CNull d in
      let d := Radius_client_flush d in
      d ⦃ radius := None ⦄
  end.

End Client.
