(* ===== verification/RadiusClientFacts.v ===== *)
(** Lemmas about the RADIUS client: what its steps do to the list of requests,
    to the event loop and to the trace of effects. *)

From S2P Require Import Prelude Md5 Radius RadiusRep RadiusFacts Eloop EloopProps Dot1xConfig Rtapd RadiusClient.

Lemma at_idx_Ret {A} (l : list A) i a : at_idx l i = Ret a ↔ l !! i = Some a.
Proof. unfold at_idx. destruct (l !! i); naive_solver. Qed.

Lemma at_idx_lt {A} (l : list A) i : (i < length l)%nat → ∃ a, at_idx l i = Ret a ∧ l !! i = Some a.
Proof. intros [a Ha]%lookup_lt_is_Some. exists a. by rewrite at_idx_Ret. Qed.

Definition req_id (e : radius_msg_list) : Z := hdr_identifier (entry_msg e).
Definition ids (es : list radius_msg_list) : list Z := map req_id es.

(** * The list of requests *)

Lemma filter_all {A} (P : A → Prop) `{∀ a, Decision (P a)} l : Forall P l → filter P l = l.
Proof. induction 1 as [|a l Ha Hl IH]; [done|]. by rewrite filter_cons, decide_True, IH. Qed.

Lemma remove_id_absent id b es : id ∉ ids es → remove_id id b es = Ret es.
Proof.
  revert b. induction es as [|e es IH]; intros b Hid; [done|].
  unfold ids in Hid; cbn in Hid. apply not_elem_of_cons in Hid as [Hne Hid]. cbn [remove_id].
  destruct (Z.eqb_spec (hdr_identifier (entry_msg e)) id) as [E|_]; [by destruct Hne|].
  by rewrite IH.
Qed.

Lemma remove_id_spec id es :
  NoDup (ids es) → remove_id id false es = Ret (filter (λ e, req_id e ≠ id) es).
Proof.
  induction es as [|e es IH]; [done|]. unfold ids; cbn [map remove_id]. intros [He Hes]%list.NoDup_cons.
  rewrite filter_cons. fold (req_id e). destruct (Z.eqb_spec (req_id e) id) as [<-|Hne].
  - rewrite decide_False by tauto. rewrite remove_id_absent by done. f_equal. symmetry.
    apply filter_all, list.Forall_forall. intros x Hx Heq. apply He. rewrite <-Heq.
    by apply (list_elem_of_fmap_2 req_id).
  - rewrite decide_True by done. by rewrite IH.
Qed.

Lemma ids_sublist l es : l `sublist_of` es → NoDup (ids es) → NoDup (ids l).
Proof. intros Hs HN. eapply sublist_NoDup; [exact HN|]. by apply (fmap_sublist req_id). Qed.

Lemma length_omap {A B} (f : A → option B) l : (length (omap f l) ≤ length l)%nat.
Proof. induction l as [|a l IH]; cbn; [done|]. destruct (f a); cbn; lia. Qed.

Lemma take_request_spec id es :
  match take_request id es with
  | None => id ∉ ids es
  | Some (r, rest) => req_id r = id ∧ ∃ l k, es = l ++ r :: k ∧ rest = l ++ k ∧ id ∉ ids l
  end.
Proof.
  induction es as [|e es IH]; cbn [take_request ids map]; [apply not_elem_of_nil|].
  fold (req_id e). destruct (Z.eqb_spec (req_id e) id) as [E|Hne].
  - split; [done|]. exists [], es. split_and!; [done..|]. apply not_elem_of_nil.
  - destruct (take_request id es) as [[r rest]|].
    + destruct IH as (Hr & l & k & -> & -> & Hl). split; [done|]. exists (e :: l), k.
      split_and!; [done..|]. cbn. apply not_elem_of_cons. split; [by intros ->|done].
    + apply not_elem_of_cons. split; [by intros ->|done].
Qed.

Lemma removelast_sublist {A} (l : list A) : removelast l `sublist_of` l.
Proof. induction l as [|a [|b l] IH]; cbn; [done|by constructor|by constructor]. Qed.

Lemma sublist_Forall {A} (P : A → Prop) l k : l `sublist_of` k → Forall P k → Forall P l.
Proof. induction 1; [done|..]; intros [? ?]%Forall_cons_1; auto. Qed.

Lemma length_removelast {A} (l : list A) : length (removelast l) = pred (length l).
Proof. induction l as [|a [|b l] IH]; cbn; [done..|]. cbn in IH. by rewrite IH. Qed.

(** * Timeouts *)

(** A request of the client for its own timer. *)
Definition client_timeout (t : eloop_timeout timeout_handler ctx) : Prop :=
  handler t = Radius_client_timer_h ∧ eloop_data t = CApd ∧ user_data t = CNull.

Definition timer_pending (d : daemon) : Prop := Exists client_timeout (timeouts (loop d)).

Definition with_timeouts (d : daemon) (q : list (eloop_timeout timeout_handler ctx)) : daemon :=
  d ⦃ loop := (loop d) ⦃ timeouts := q ⦄ ⦄.

Section Facts.
Context `{World} `{Malloc} (HM : malloc_never_fails).
Implicit Types d : daemon.

Lemma register_timeout_Ret secs h a b d :
  0 ≤ tv_usec (now d) < 1000000 →
  register_timeout secs h a b d =
    Ret (with_timeouts d (insert_timeout
      (mk_timeout (mk_timeval (s32 (tv_sec (now d) + secs)) (tv_usec (now d))) a b h) (timeouts (loop d)))).
Proof.
  intros Hu. unfold register_timeout, eloop_register_timeout. rewrite HM. cbn [negb].
  rewrite (s32_id (tv_usec (now d) + 0)), Z.add_0_r by lia.
  rewrite carry_usec_spec by (unfold carry_fuel; lia).
  destruct (Z.ltb_spec (tv_usec (now d)) 1000000); [|lia]. cbn [mbind outcome_bind].
  by rewrite Z.mod_small by lia.
Qed.

Lemma cancel_timeout_eq h a b d :
  cancel_timeout h a b d =
    with_timeouts d (filter (λ t, ¬ timeout_matches h (Some a) (Some b) t) (timeouts (loop d))).
Proof. unfold cancel_timeout, eloop_cancel_timeout. by rewrite cancel_loop_spec. Qed.

Lemma insert_pending t q :
  client_timeout t → Exists client_timeout (insert_timeout t q).
Proof. intros Ht. rewrite insert_timeout_perm. by left. Qed.

(** * Messages *)

Lemma rep_identifier m hdr avs : msg_rep m hdr avs → hdr_identifier m = idx hdr 1.
Proof.
  intros Hrep. pose proof (load_hdr m hdr avs 1 1 Hrep ltac:(cbv; lia)) as Hl.
  apply load_Ret in Hl as [Hlen Hl]. destruct Hrep as [Hh _ _ _ _ _].
  unfold hdr_identifier, idx. change (Z.to_nat 1) with 1%nat.
  destruct (buf m) as [|a [|b r]]; [cbn in Hlen; lia..|].
  destruct hdr as [|a' [|b' r']]; [done..|]. by injection Hl as ->.
Qed.

Lemma rep_sent_bytes m hdr avs : msg_rep m hdr avs → sent_bytes m = Ret (hdr ++ enc avs).
Proof. apply load_all. Qed.

(** What [Radius_msg_finish] leaves: the length in the header and, with a
    secret, a Message-Authenticator behind the attributes. *)
Definition finished_hdr (hdr : bytes) (n : nat) : bytes :=
  take 2 hdr ++ be16 (Z.of_nat (sizeof_radius_hdr + n)) ++ drop 4 hdr.

Lemma finished_hdr_id hdr n : length hdr = sizeof_radius_hdr → idx (finished_hdr hdr n) 1 = idx hdr 1.
Proof. intros Hl. destruct hdr as [|a [|b hdr]]; done. Qed.

Lemma finish_rep m hdr avs secret :
  msg_rep m hdr avs →
  ∃ m' avs', Radius_msg_finish m secret = Ret m' ∧ msg_rep m' (finished_hdr hdr (length (enc avs'))) avs'
    ∧ match secret with
      | None => avs' = avs
      | Some key =>
          let zeros := avs ++ [(RADIUS_ATTR_MESSAGE_AUTHENTICATOR, replicate MD5_MAC_LEN 0)] in
          avs' = avs ++ [(RADIUS_ATTR_MESSAGE_AUTHENTICATOR,
                          hmac_md5 key (finished_hdr hdr (length (enc zeros)) ++ enc zeros))]
      end.
Proof.
  intros Hrep. unfold Radius_msg_finish. destruct secret as [key|].
  - destruct (Radius_msg_add_attr_rep m hdr avs RADIUS_ATTR_MESSAGE_AUTHENTICATOR (replicate MD5_MAC_LEN 0) HM Hrep)
      as (m1 & -> & Hrep1).
    { split_and!; cbn [fst snd]; [done|cbv; lia|by apply bytes_ok_replicate]. }
    cbn [mbind outcome_bind].
    destruct (set_hdr_length_rep m1 _ _ Hrep1) as (m2 & -> & Hrep2 & Hused). cbn [mbind outcome_bind].
    rewrite (load_all _ _ _ Hrep2). cbn [mbind outcome_bind].
    set (zeros := avs ++ [_]) in *. set (hdr2 := _ ++ _ ++ drop 4 hdr) in *.
    set (mac := hmac_md5 _ _).
    assert (length mac = MD5_MAC_LEN) as Hmac by apply md5_run_length.
    destruct (write_value_rep m2 hdr2 avs _ _ [] mac Hrep2 Hmac) as [Hw Hr].
    { apply md5_run_bytes. }
    replace (buf_used m) with (length (hdr2 ++ enc avs)); [rewrite Hw|].
    2:{ rewrite (rep_used _ _ _ Hrep), length_app. by rewrite (rep_hdr _ _ _ Hrep2). }
    eexists _, _. split; [done|]. split; [|reflexivity].
    assert (∀ v, length v = MD5_MAC_LEN → length (enc (avs ++ [(RADIUS_ATTR_MESSAGE_AUTHENTICATOR, v)]))
              = length (enc zeros)) as Hlen.
    { intros v Hv. unfold zeros. rewrite !enc_app, !length_app. cbn. rewrite !app_nil_r, Hv. done. }
    rewrite Hlen by done. exact Hr.
  - destruct (set_hdr_length_rep m hdr avs Hrep) as (m2 & -> & Hrep2 & _).
    eexists _, avs. by split.
Qed.

(** * The timer *)

Record entry_ok (e : radius_msg_list) : Prop := {
  eo_attempts : 0 ≤ attempts e < RADIUS_CLIENT_MAX_RETRIES;
  eo_wait : 0 < next_wait e ≤ RADIUS_CLIENT_MAX_WAIT;
  eo_ap : (Z.to_nat (entry_ApIdx e) < MAX_MBSSID_NUM)%nat;
  eo_wire : ∃ data, sent_bytes (entry_msg e) = Ret data
}.

(** What the timer makes of a request at time [t]. *)
Definition backoff (w : Z) : Z := if RADIUS_CLIENT_MAX_WAIT <? w * 2 then RADIUS_CLIENT_MAX_WAIT else w * 2.

Definition retried (t : Z) (e : radius_msg_list) : radius_msg_list :=
  e ⦃ attempts := attempts e + 1 ⦄ ⦃ next_try := s32 (t + next_wait e) ⦄ ⦃ next_wait := backoff (next_wait e) ⦄.

Definition is_due (t : Z) (e : radius_msg_list) : bool := next_try e <=? t.

Definition timer_entry (t : Z) (e : radius_msg_list) : option radius_msg_list :=
  if is_due t e then
    if RADIUS_CLIENT_MAX_RETRIES <=? attempts e + 1 then None else Some (retried t e)
  else Some e.

(** What it sends: every due request, to the socket of its BSS. *)
Definition timer_sends (t : Z) (socks : list Z) (es : list radius_msg_list) : list effect :=
  concat (map (λ e,
    match is_due t e, socks !! Z.to_nat (entry_ApIdx e), sent_bytes (entry_msg e) with
    | true, Some s, Ret data => [Send s data]
    | _, _, _ => []
    end) es).

Definition after_loop d (c : radius_client_data) (removed : nat) (outs : list effect) : daemon :=
  d ⦃ radius := Some (c ⦃ num_msgs := num_msgs c - Z.of_nat removed ⦄) ⦄ ⦃ d_out := d_out d ++ outs ⦄.

Lemma after_loop_0 d c : radius d = Some c → after_loop d c 0 [] = d.
Proof.
  intros Hc. unfold after_loop. rewrite app_nil_r, Z.sub_0_r. destruct d, c; cbn in *. by rewrite Hc.
Qed.

Lemma timer_entry_ok t e e' : entry_ok e → timer_entry t e = Some e' → entry_ok e' ∧ req_id e' = req_id e.
Proof.
  intros [Ha Hw Hp Hs]. unfold timer_entry.
  destruct (is_due t e); [|by intros [= <-]].
  destruct (Z.leb_spec RADIUS_CLIENT_MAX_RETRIES (attempts e + 1)); [done|]. intros [= <-].
  split; [|done]. split; [|..|done|done]; cbn; [lia|].
  unfold backoff, RADIUS_CLIENT_MAX_WAIT in *. destruct (Z.ltb_spec 120 (next_wait e * 2)); lia.
Qed.

(** One entry: the effects of its retransmission, when it is due. *)
Lemma timer_step_spec t e d c :
  radius d = Some c → length (mbss_auth_serv_sock c) = MAX_MBSSID_NUM → entry_ok e →
  ∃ e1, (if next_try e <=? t then Radius_client_retransmit e t d else Ret (d, e, false))
          = Ret (after_loop d c 0 (timer_sends t (mbss_auth_serv_sock c) [e]), e1,
                 bool_decide (timer_entry t e = None))
        ∧ (timer_entry t e = Some e1 ∨ timer_entry t e = None) ∧ entry_ApIdx e1 = entry_ApIdx e.
Proof.
  intros Hc Hs [Ha Hw Hp [data Hdata]].
  destruct (at_idx_lt (mbss_auth_serv_sock c) (Z.to_nat (entry_ApIdx e))) as (s & Hs1 & Hs2); [lia|].
  unfold timer_sends, timer_entry. cbn [map concat]. fold (is_due t e). destruct (is_due t e).
  - unfold Radius_client_retransmit, get_radius. rewrite Hc. cbn [mbind outcome_bind].
    rewrite Hs1. cbn [mbind outcome_bind set eta_entry entry_msg]. rewrite Hdata. cbn [mbind outcome_bind].
    rewrite Hs2. exists (retried t e). split; [|split; [|done]].
    + unfold call_out, after_loop. cbn. unfold retried, backoff. rewrite Z.sub_0_r.
      rewrite (s32_id (next_wait e * 2)) by (unfold RADIUS_CLIENT_MAX_WAIT in Hw; lia).
      destruct (RADIUS_CLIENT_MAX_RETRIES <=? attempts e + 1); cbn;
        (replace (Some c) with (radius d) by done); destruct d, c; cbn in *; simplify_eq; done.
    + destruct (RADIUS_CLIENT_MAX_RETRIES <=? _); auto.
  - exists e. cbn. rewrite after_loop_0 by done. split_and!; auto.
Qed.

Lemma after_loop_radius d c outs : radius (after_loop d c 0 outs) = Some c.
Proof. cbn. rewrite Z.sub_0_r. by destruct c. Qed.

Lemma failover_count e failover :
  entry_ok e → length failover = MAX_MBSSID_NUM → ∀ a ap, ap = entry_ApIdx e →
  ∃ f1, (if RADIUS_CLIENT_NUM_FAILOVER <? a then
           let* n := at_idx failover (Z.to_nat ap) in Ret (<[Z.to_nat ap := n + 1]> failover)
         else Ret failover) = Ret f1
    ∧ length f1 = MAX_MBSSID_NUM ∧ (a ≤ RADIUS_CLIENT_NUM_FAILOVER → f1 = failover).
Proof.
  intros He Hf a ap ->. pose proof (eo_ap _ He).
  destruct (at_idx_lt failover (Z.to_nat (entry_ApIdx e))) as (n & Hn & _); [lia|].
  destruct (Z.ltb_spec RADIUS_CLIENT_NUM_FAILOVER a); [|by eauto].
  rewrite Hn. cbn [mbind outcome_bind]. eexists. split; [done|]. rewrite length_insert. split; [done|lia].
Qed.

(** The first time to come, as the loop of the timer keeps it: 0 for none. *)
Definition first_of (first : Z) (es : list radius_msg_list) : Z :=
  foldl (λ f e, if (f =? 0) || (next_try e <? f) then next_try e else f) first es.

(** It is the earliest. *)
Lemma first_of_spec first es :
  Forall (λ e, 0 < next_try e) es → 0 < first →
  0 < first_of first es ≤ first ∧ Forall (λ e, first_of first es ≤ next_try e) es
  ∧ (first_of first es = first ∨ Exists (λ e, next_try e = first_of first es) es).
Proof.
  intros Hes. revert first. induction Hes as [|e es He Hes IH]; intros first Hf; [by cbn; auto with lia|].
  unfold first_of in *. cbn [foldl]. rewrite (proj2 (Z.eqb_neq first 0)) by lia. cbn [orb].
  destruct (Z.ltb_spec (next_try e) first) as [Hlt|Hge].
  - destruct (IH (next_try e) He) as (H1 & H2 & H3). split; [lia|]. split; [by constructor; [lia|]|].
    right. destruct H3 as [->|?]; [by left|by right].
  - destruct (IH first Hf) as (H1 & H2 & H3). split; [lia|]. split; [constructor; [lia|done]|].
    destruct H3; [by left|by right; right].
Qed.

Lemma timer_loop_spec t es failover first d c :
  radius d = Some c → length (mbss_auth_serv_sock c) = MAX_MBSSID_NUM →
  length failover = MAX_MBSSID_NUM → Forall entry_ok es →
  ∃ failover' first',
    timer_loop t es failover first d =
      Ret (after_loop d c (length es - length (omap (timer_entry t) es))
             (timer_sends t (mbss_auth_serv_sock c) es),
           omap (timer_entry t) es, failover', first')
    ∧ length failover' = MAX_MBSSID_NUM ∧ first' = first_of first (omap (timer_entry t) es)
    ∧ (Forall (λ e, attempts e ≤ RADIUS_CLIENT_NUM_FAILOVER) (omap (timer_entry t) es) → failover' = failover).
Proof.
  intros Hc Hs. revert failover first d c Hc Hs.
  induction es as [|e es IH]; intros failover first d c Hc Hs Hf Hok.
  { cbn [timer_loop omap list_omap length Nat.sub]. unfold timer_sends. cbn [map concat].
    rewrite after_loop_0 by done. eauto 6. }
  apply Forall_cons_1 in Hok as [He Hok].
  destruct (timer_step_spec t e d c Hc Hs He) as (e1 & Hstep & He1 & Hap).
  cbn [timer_loop]. rewrite Hstep. cbn [mbind outcome_bind]. clear Hstep.
  set (d1 := after_loop d c 0 _). assert (radius d1 = Some c) as Hc1 by apply after_loop_radius.
  assert (timer_sends t (mbss_auth_serv_sock c) (e :: es)
          = timer_sends t (mbss_auth_serv_sock c) [e] ++ timer_sends t (mbss_auth_serv_sock c) es) as ->.
  { unfold timer_sends. cbn [map concat]. by rewrite app_nil_r. }
  cbn [omap list_omap]. destruct (timer_entry t e) as [e2|] eqn:Hte.
  - rewrite bool_decide_false by done. destruct He1 as [[= <-]|?]; [|done].
    destruct (failover_count e failover He Hf (attempts e2) (entry_ApIdx e2) Hap) as (f1 & -> & Hf1 & Hff).
    cbn [mbind outcome_bind].
    destruct (IH f1 (if (first =? 0) || (next_try e2 <? first) then next_try e2 else first) d1 c Hc1 Hs Hf1 Hok)
      as (f2 & first2 & Hrec & Hf2 & Hfirst & Hff2).
    rewrite Hrec. cbn [mbind outcome_bind]. eexists _, _. split; [|split; [exact Hf2|split; [exact Hfirst|]]].
    + do 4 f_equal. cbn [length]. unfold d1, after_loop. cbn. by rewrite <-app_assoc.
    + intros [Hx1 Hx2]%Forall_cons_1. rewrite Hff2 by done. by apply Hff.
  - rewrite bool_decide_true by done. unfold upd_radius, get_radius. rewrite Hc1. cbn [mbind outcome_bind].
    set (c2 := c ⦃ num_msgs := num_msgs c - 1 ⦄). set (d2 := d1 ⦃ radius := Some c2 ⦄).
    destruct (IH failover first d2 c2 eq_refl Hs Hf Hok) as (f2 & first2 & Hrec & Hf2 & Hfirst & Hff2).
    eexists _, _. split; [etrans; [exact Hrec|]|by split].
    do 4 f_equal. unfold d2, d1, after_loop. cbn. rewrite <-app_assoc. do 3 f_equal.
    assert (length (omap (timer_entry t) es) ≤ length es)%nat by apply length_omap.
    lia.
Qed.

End Facts.
