(* ===== verification/Ieee8021xTx.v ===== *)
(** What the 802.1X daemon sends ([user/802.1x/ieee802_1x.c]): EAPOL frames to
    stations, keys to stations and to the driver, and RADIUS requests; and the
    instance of the procedures the Authenticator machines call.

    Structs that leave the daemon are written out byte by byte, with the
    padding the compiler inserts ([NDIS_802_11_KEY] is not packed). *)

From S2P Require Import Prelude EapolSm Md5 Radius Eloop Dot1xConfig Rtapd RadiusClient.

Definition ETH_P_PAE : Z := 0x888E.
Definition ETH_P_PRE_AUTH : Z := 0x88C7.
Definition EAPOL_VERSION : Z := 1.
Definition EAPOL_VERSION_2 : Z := 2.
Definition IEEE802_1X_TYPE_EAP_PACKET : Z := 0.
Definition IEEE802_1X_TYPE_EAPOL_START : Z := 1.
Definition IEEE802_1X_TYPE_EAPOL_LOGOFF : Z := 2.
Definition IEEE802_1X_TYPE_EAPOL_KEY : Z := 3.
Definition EAPOL_KEY_TYPE_RC4 : Z := 1.
Definition EAP_CODE_REQUEST : Z := 1.
Definition EAP_CODE_RESPONSE : Z := 2.
Definition EAP_CODE_SUCCESS : Z := 3.
Definition EAP_CODE_FAILURE : Z := 4.
Definition EAP_TYPE_IDENTITY : Z := 1.
Definition EAP_TYPE_NAK : Z := 3.

Definition OID_GET_SET_TOGGLE : Z := 0x8000.
Definition RT_SET_APD_PID : Z := 0x0405.
Definition RT_OID_802_DOT1X_PMKID_CACHE : Z := 0x8541.
Definition RT_OID_802_DOT1X_RADIUS_DATA : Z := 0x8542.
Definition RT_OID_802_DOT1X_WPA_KEY : Z := 0x8543.
Definition RT_OID_802_DOT1X_STATIC_WEP_COPY : Z := 0x8544.
Definition RT_OID_802_DOT1X_IDLE_TIMEOUT : Z := 0x8545.

Definition RADIUS_NAS_PORT_TYPE_IEEE_802_11 : Z := 19.

(** [sizeof] of the headers: [ieee8023_hdr], [ieee802_1x_hdr],
    [ieee802_1x_eapol_key], [eap_hdr] and [NDIS_802_11_KEY]. *)
Definition sizeof_ieee8023_hdr : Z := 14.
Definition sizeof_ieee802_1x_hdr : Z := 4.
Definition sizeof_eapol_key : Z := 44.
Definition sizeof_eap_hdr : Z := 4.
Definition sizeof_NDIS_802_11_KEY : Z := 84.

(** The length field that goes with an optional buffer. *)
Definition buf_len (b : option bytes) : Z := Z.of_nat (length (default [] b)).

(** What an array on the stack holds before it is written. *)
Definition stack_bytes (n : nat) : bytes := replicate n 0xa5.

Section Tx.
Context `{World} `{Malloc}.
Implicit Types d : daemon.

(** * Frames *)

(** The frame of [ieee802_1x_send]; the buffer is two bytes longer than what
    is written into it. *)
Definition eapol_frame (s : sta_info) (own : bytes) (type : Z) (data : bytes) : bytes :=
  let pre := ethertype s =? ETH_P_PRE_AUTH in
  addr s ++ own ++ be16 (if pre then ETH_P_PRE_AUTH else ETH_P_PAE)
    ++ [if pre then EAPOL_VERSION_2 else EAPOL_VERSION; type] ++ be16 (Z.of_nat (length data))
    ++ data ++ [0; 0].

Definition ieee802_1x_send (p : ptr) (type : Z) (data : bytes) d : outcome daemon :=
  let* s := sta_at d p in
  if negb (malloc_ok (sizeof_ieee8023_hdr + 2 + sizeof_ieee802_1x_hdr + Z.of_nat (length data))) then Ret d
  else
    let* own := at_idx (own_addr d) (Z.to_nat (ApIdx s)) in
    let frame := eapol_frame s own type data in
    let '(d, _) :=
      if ethertype s =? ETH_P_PRE_AUTH then call_out (Send (SockNum s) frame) d
      else RT_ioctl RT_OID_802_DOT1X_RADIUS_DATA (ApIdx s) frame d in
    Ret d.

(** [authSuccess] is that of the machine that calls. *)
Definition ieee802_1x_set_sta_authorized (p : ptr) (authSuccess authorized : bool) d : outcome daemon :=
  if authorized then
    let* s := sta_at d p in
    if authSuccess && (buf_len (eapol_key_sign s) =? 0) && (buf_len (eapol_key_crypt s) =? 0) then
      let '(d, _) := RT_ioctl RT_OID_802_DOT1X_STATIC_WEP_COPY (ApIdx s) (addr s) d in Ret d
    else Ret d
  else Ret d.

Definition ieee802_1x_new_auth_session (p : ptr) d : outcome daemon :=
  upd_sta p (λ s, s ⦃ last_recv_radius := None ⦄) d.

Definition ieee802_1x_request_identity (p : ptr) (id : Z) d : outcome daemon :=
  let* d := ieee802_1x_new_auth_session p d in
  if negb (malloc_ok (sizeof_eap_hdr + 1)) then Ret d
  else ieee802_1x_send p IEEE802_1X_TYPE_EAP_PACKET ([EAP_CODE_REQUEST; u8 id] ++ be16 5 ++ [EAP_TYPE_IDENTITY]) d.

Definition ieee802_1x_tx_canned_eap (p : ptr) (id : Z) (success : bool) d : outcome daemon :=
  ieee802_1x_send p IEEE802_1X_TYPE_EAP_PACKET
    ([if success then EAP_CODE_SUCCESS else EAP_CODE_FAILURE; u8 id] ++ be16 4) d.

Definition ieee802_1x_tx_req (p : ptr) (id : Z) d : outcome daemon :=
  let* s := sta_at d p in
  match last_eap_radius s with
  | None => Ret d
  | Some eap =>
      let* identifier := byte_at eap 1 in
      let* eap := (if negb (identifier =? u8 id) then store eap 1 [u8 id] else Ret eap) in
      let* d := upd_sta p (λ s, s ⦃ last_eap_radius := Some eap ⦄) d in
      ieee802_1x_send p IEEE802_1X_TYPE_EAP_PACKET eap d
  end.

(** * Keys *)

Definition JAN_1970 : Z := 0x83aa7e80.

(** The replay counter: an NTP time stamp. *)
Definition ntp_stamp (t : timeval) : bytes :=
  let sec := u32 (tv_sec t) in
  let usec := u32 (tv_usec t) in
  be32 (u32 (sec + JAN_1970)) ++ be32 (u32 (4295 * usec - Z.shiftr usec 5 - Z.shiftr usec 9)).

(** [struct ieee802_1x_eapol_key] and the key behind it. *)
Definition eapol_key_struct (key_len : Z) (replay iv : bytes) (index : Z) (signature key : bytes) : bytes :=
  [EAPOL_KEY_TYPE_RC4] ++ be16 key_len ++ replay ++ iv ++ [u8 index] ++ signature ++ key.

(** The signature covers an EAPOL header and the struct with zeros in place of
    the signature. *)
Definition ieee802_1x_tx_key_one (p : ptr) (index : Z) (broadcast : bool) (key_data : bytes) d : outcome daemon :=
  let key_len := Z.of_nat (length key_data) in
  let len := sizeof_eapol_key + key_len in
  if negb (malloc_ok (sizeof_ieee802_1x_hdr + len)) then Ret d
  else
    let replay := ntp_stamp (now d) in
    let '(d, iv) := hostapd_get_rand 16 d in
    match iv with
    | None => Ret d
    | Some iv =>
        let key_index := Z.lor index (if broadcast then 0 else 0x80) in
        let* s := sta_at d p in
        if negb (malloc_ok (16 + buf_len (eapol_key_crypt s))) then Ret d
        else
          let* enc := rc4 key_data (iv ++ default [] (eapol_key_crypt s)) in
          let hdr := [EAPOL_VERSION; IEEE802_1X_TYPE_EAPOL_KEY] ++ be16 len in
          let signed := hdr ++ eapol_key_struct key_len replay iv key_index (replicate 16 0) enc in
          let signature := hmac_md5 (default [] (eapol_key_sign s)) signed in
          ieee802_1x_send p IEEE802_1X_TYPE_EAPOL_KEY (eapol_key_struct key_len replay iv key_index signature enc) d
    end.

(** [NDIS_802_11_KEY]: Length, addr, two bytes of padding, KeyIndex, KeyLength,
    KeyMaterial. *)
Definition ndis_key (mac : bytes) (index keylen : Z) (material : bytes) : bytes :=
  le32 0 ++ mac ++ [0; 0] ++ le32 (u32 index) ++ le32 (u32 keylen) ++ material.

(** The key to the driver; [true] when it takes it. *)
Definition install_key (s : sta_info) (key : bytes) d : daemon * bool :=
  let '(d, res) :=
    if ethertype s =? ETH_P_PRE_AUTH then RT_ioctl RT_OID_802_DOT1X_PMKID_CACHE 0 key d
    else RT_ioctl RT_OID_802_DOT1X_WPA_KEY (ApIdx s) key d in
  (d, res =? 0).

Definition ieee802_1x_tx_key (p : ptr) (id : Z) d : outcome daemon :=
  let* s := sta_at d p in
  match eapol_key_sign s, eapol_key_crypt s with
  | Some _, Some _ =>
      let* b := at_idx (bss (conf d)) (Z.to_nat (ApIdx s)) in
      let klen := individual_wep_key_len b in
      let* ikey := load (IEEE8021X_ikey b) 0 (Z.to_nat klen) in
      let* d := ieee802_1x_tx_key_one p (DefaultKeyID b) true ikey d in
      let* material := store (replicate 64 0) 0 ikey in
      let '(d, ok) := install_key s (ndis_key (addr s) (Z.lor 0x80000000 (DefaultKeyID b)) klen material) d in
      if negb ok then Ret d
      else
        let '(d, rnd) := hostapd_get_rand (Z.to_nat klen) d in
        let key := default (stack_bytes (Z.to_nat klen)) rnd in
        let* d := ieee802_1x_tx_key_one p (individual_wep_key_idx b) false key d in
        let* material := store material 0 key in
        let '(d, _) := install_key s (ndis_key (addr s) (individual_wep_key_idx b) klen material) d in
        Ret d
  | _, _ => Ret d
  end.

(** * RADIUS requests *)

(** [if (!Radius_msg_add...(...)) goto fail;]: [None] is the failure. *)
Definition attr_step (c : outcome (option radius_msg)) (k : radius_msg → outcome (option radius_msg)) :
    outcome (option radius_msg) :=
  let* r := c in match r with Some msg => k msg | None => Ret None end.

Definition add_attr (type : Z) (data : bytes) (msg : radius_msg) : outcome (option radius_msg) :=
  let* (msg, a) := Radius_msg_add_attr msg type data in
  Ret (match a with Some _ => Some msg | None => None end).

Definition add_int32 (type value : Z) (msg : radius_msg) : outcome (option radius_msg) :=
  let* (msg, ok) := Radius_msg_add_attr_int32 msg type value in
  Ret (if (ok : bool) then Some msg else None).

Definition hex_digit (z : Z) : Z := if z <? 10 then 48 + z else 55 + z.
Definition hex_byte (b : Z) : bytes := [hex_digit (Z.shiftr b 4); hex_digit (Z.land b 15)].

(** "%02X-%02X-%02X-%02X-%02X-%02X" *)
Definition mac_string (mac : bytes) : bytes :=
  match map hex_byte mac with
  | [] => []
  | x :: xs => x ++ concat (map (λ y, 45 :: y) xs)
  end.

(** The first four bytes of the station, [sizeof(sta)], hold its [next]
    pointer; an address is the number of its block. *)
Definition authenticator_data (s : sta_info) : bytes :=
  le32 (match next s with Some q => Z.of_nat q | None => 0 end).

Definition timeval_bytes (t : timeval) : bytes := le32 (u32 (tv_sec t)) ++ le32 (u32 (tv_usec t)).

(** Everything between the authenticator and the transmission. *)
Definition request_attrs (s : sta_info) (b : bss_config) (own_ip : Z) (own : bytes) (eap : option bytes)
    (msg : radius_msg) : outcome (option radius_msg) :=
  attr_step (match identity s with
             | Some id => add_attr RADIUS_ATTR_USER_NAME id msg
             | None => Ret (Some msg)
             end) (λ msg,
  attr_step (add_attr RADIUS_ATTR_NAS_IP_ADDRESS (le32 own_ip) msg) (λ msg,
  attr_step (if 0 <? nasId_len b then
               let* id := load (nasId b) 0 (Z.to_nat (nasId_len b)) in
               add_attr RADIUS_ATTR_NAS_IDENTIFIER id msg
             else Ret (Some msg)) (λ msg,
  attr_step (add_int32 RADIUS_ATTR_NAS_PORT (aid s) msg) (λ msg,
  attr_step (add_attr RADIUS_ATTR_CALLED_STATION_ID (mac_string own) msg) (λ msg,
  attr_step (add_attr RADIUS_ATTR_CALLING_STATION_ID (mac_string (addr s)) msg) (λ msg,
  attr_step (add_int32 RADIUS_ATTR_FRAMED_MTU 1400 msg) (λ msg,
  attr_step (add_int32 RADIUS_ATTR_NAS_PORT_TYPE RADIUS_NAS_PORT_TYPE_IEEE_802_11 msg) (λ msg,
  attr_step (match eap with
             | Some eap => let* (msg, ok) := Radius_msg_add_eap msg eap in
                           Ret (if (ok : bool) then Some msg else None)
             | None => Ret (Some msg)
             end) (λ msg,
  match last_recv_radius s with
  | Some last =>
      if hdr_code last =? RADIUS_CODE_ACCESS_CHALLENGE then
        let* (msg, res) := Radius_msg_copy_attr msg last RADIUS_ATTR_STATE in
        Ret (if res <? 0 then None else Some msg)
      else Ret (Some msg)
  | None => Ret (Some msg)
  end))))))))).

Definition ieee802_1x_encapsulate_radius (p : ptr) (eap : option bytes) d : outcome daemon :=
  let* (d, id) := Radius_client_get_id d in
  let* d := upd_sta p (λ s, s ⦃ radius_identifier := id ⦄) d in
  let* msg := Radius_msg_new RADIUS_CODE_ACCESS_REQUEST id in
  match msg with
  | None => Ret d
  | Some msg =>
      let* s := sta_at d p in
      let '(d, l) := call_out Random d in
      let* msg := Radius_msg_make_authenticator msg (authenticator_data s) (timeval_bytes (now d)) (le32 (u32 l)) in
      let* b := at_idx (bss (conf d)) (Z.to_nat (ApIdx s)) in
      let* own := at_idx (own_addr d) (Z.to_nat (ApIdx s)) in
      let* msg := request_attrs s b (own_ip_addr (conf d)) own eap msg in
      match msg with
      | None => Ret d
      | Some msg => let* (d, _) := Radius_client_send msg (ApIdx s) d in Ret d
      end
  end.

Definition ieee802_1x_send_resp_to_server (p : ptr) d : outcome daemon :=
  let* s := sta_at d p in ieee802_1x_encapsulate_radius p (last_eap_supp s) d.

(** * The machines' view of the daemon *)

Definition sm_world : Type := ptr * outcome daemon.

Definition on_daemon (f : ptr → daemon → outcome daemon) (w : sm_world) : sm_world :=
  (fst w, let* d := snd w in f (fst w) d).

#[export] Instance daemon_env : EapolEnv sm_world := {|
  set_sta_authorized := λ success authorized, on_daemon (λ p, ieee802_1x_set_sta_authorized p success authorized);
  tx_canned_eap := λ id success, on_daemon (λ p, ieee802_1x_tx_canned_eap p id success);
  request_identity := λ id, on_daemon (λ p, ieee802_1x_request_identity p id);
  tx_req := λ id, on_daemon (λ p, ieee802_1x_tx_req p id);
  send_resp_to_server := on_daemon ieee802_1x_send_resp_to_server;
  tx_key := λ id, on_daemon (λ p, ieee802_1x_tx_key p id);
  eloop_register_tick := on_daemon (λ p, register_timeout 1 eapol_port_timers_tick_h CApd (CSm p));
  eloop_cancel_tick := on_daemon (λ p d, Ret (cancel_timeout eapol_port_timers_tick_h CApd (CSm p) d))
|}.

(** [f(sta->eapol_sm)]: the machine runs on the daemon and stays with its
    station. *)
Definition put_machine (p : ptr) (r : eapol_state_machine * sm_world) : outcome daemon :=
  let '(sm, w) := r in
  let* d := snd w in
  upd_sta p (λ s, s ⦃ eapol_sm := Some sm ⦄) d.

Definition run_machine (f : st (W:=sm_world) → outcome (st (W:=sm_world))) (p : ptr) d : outcome daemon :=
  let* s := sta_at d p in
  match eapol_sm s with
  | None => Oob
  | Some sm => let* r := f (sm, (p, Ret d)) in put_machine p r
  end.

(** An assignment to a field of the machine. *)
Definition upd_machine (p : ptr) (g : eapol_state_machine → eapol_state_machine) d : outcome daemon :=
  let* s := sta_at d p in
  match eapol_sm s with
  | None => Oob
  | Some sm => Ret (set_sta d p (s ⦃ eapol_sm := Some (g sm) ⦄))
  end.

Definition step_machine (p : ptr) d : outcome daemon := run_machine eapol_sm_step p d.

(** [eapol_port_timers_tick(rtapd, sm)] *)
Definition tick_machine (p : ptr) d : outcome daemon := run_machine eapol_port_timers_tick p d.

Definition daemon_sm_conf d : sm_conf :=
  mk_sm_conf (quiet_interval (conf d)) (session_timeout_set (conf d)) (session_timeout_interval (conf d)).

(** [sta->eapol_sm = eapol_sm_alloc(rtapd, sta)] *)
Definition alloc_machine (p : ptr) d : outcome daemon :=
  let* r := eapol_sm_alloc (daemon_sm_conf d) (p, Ret d) in
  match r with
  | None => upd_sta p (λ s, s ⦃ eapol_sm := None ⦄) d
  | Some r => put_machine p r
  end.

End Tx.
