(* ===== verification/StaInfo.v ===== *)
(** The table of stations of the 802.1X daemon ([user/802.1x/sta_info.c], with
    [ieee802_1x_new_station] and [ieee802_1x_free_station] of
    [ieee802_1x.c]).

    A station is in two linked structures at once: the list of all stations
    and the chain of its hash bucket.  Both are followed pointer by pointer;
    [chain_fuel] is more than the stations the daemon accepts. *)

From stdpp Require Import gmap.
From S2P Require Import Prelude EapolSm Md5 Radius Eloop Dot1xConfig Rtapd RadiusClient Ieee8021xTx.

Definition chain_fuel : nat := 1025.

Definition STA_HASH (mac : bytes) : nat := Z.to_nat (idx mac 5).

Section Stations.
Context `{World} `{Malloc}.
Implicit Types d : daemon.

(** * Life of a station's machine *)

Definition ieee802_1x_new_station (p : ptr) d : outcome daemon :=
  let* s := sta_at d p in
  match eapol_sm s with
  | Some _ =>
      let* d := upd_machine p (λ sm, sm ⦃ portEnabled := true ⦄) d in
      step_machine p d
  | None =>
      let* d := alloc_machine p d in
      let* s := sta_at d p in
      match eapol_sm s with
      | Some _ => upd_machine p (λ sm, sm ⦃ portEnabled := true ⦄) d
      | None => Ret d
      end
  end.

Definition ieee802_1x_free_station (p : ptr) d : outcome daemon :=
  let* s := sta_at d p in
  let* d := upd_sta p (λ s, s ⦃ last_recv_radius := None ⦄ ⦃ last_eap_supp := None ⦄ ⦃ last_eap_radius := None ⦄
                              ⦃ identity := None ⦄ ⦃ eapol_key_sign := None ⦄ ⦃ eapol_key_crypt := None ⦄) d in
  let* d := match eapol_sm s with
            | Some _ => snd (eapol_sm_free (p, Ret d))
            | None => Ret d
            end in
  upd_sta p (λ s, s ⦃ eapol_sm := None ⦄) d.

(** * Searching *)

(** [while (s != NULL && memcmp(s->addr, sa, 6) != 0) s = s->hnext;] *)
Fixpoint hash_find (fuel : nat) (mac : bytes) (s : option ptr) d : outcome (option ptr) :=
  match s with
  | None => Ret None
  | Some p =>
      match fuel with
      | O => NoFuel
      | S fuel =>
          let* sta := sta_at d p in
          if bool_decide (addr sta = mac) then Ret (Some p) else hash_find fuel mac (hnext sta) d
      end
  end.

Fixpoint list_find_id (fuel : nat) (id : Z) (s : option ptr) d : outcome (option ptr) :=
  match s with
  | None => Ret None
  | Some p =>
      match fuel with
      | O => NoFuel
      | S fuel =>
          let* sta := sta_at d p in
          if (0 <=? radius_identifier sta) && (radius_identifier sta =? id) then Ret (Some p)
          else list_find_id fuel id (next sta) d
      end
  end.

Definition Ap_get_sta_radius_identifier (id : Z) d : outcome (option ptr) :=
  list_find_id chain_fuel id (sta_list d) d.

(** * Linking and unlinking *)

Definition Ap_sta_hash_add (p : ptr) d : outcome daemon :=
  let* s := sta_at d p in
  let h := STA_HASH (addr s) in
  let* head := at_idx (sta_hash d) h in
  let* d := upd_sta p (λ s, s ⦃ hnext := head ⦄) d in
  Ret (d ⦃ sta_hash := <[h := Some p]> (sta_hash d) ⦄).

(** [while (tmp != NULL && tmp->next != sta) tmp = tmp->next;] *)
Fixpoint list_before (fuel : nat) (p : ptr) (tmp : option ptr) d : outcome (option ptr) :=
  match tmp with
  | None => Ret None
  | Some t =>
      match fuel with
      | O => NoFuel
      | S fuel =>
          let* s := sta_at d t in
          if bool_decide (next s = Some p) then Ret (Some t) else list_before fuel p (next s) d
      end
  end.

Definition Ap_sta_list_del (p : ptr) d : outcome daemon :=
  let* sta := sta_at d p in
  if bool_decide (sta_list d = Some p) then Ret (d ⦃ sta_list := next sta ⦄)
  else
    let* tmp := list_before chain_fuel p (sta_list d) d in
    match tmp with
    | None => Ret d
    | Some t => upd_sta t (λ s, s ⦃ next := next sta ⦄) d
    end.

(** The loop of [Ap_sta_hash_del]: the last [s], and its [hnext] when there is
    one. *)
Fixpoint hash_before (fuel : nat) (mac : bytes) (s : ptr) d : outcome (ptr * option ptr) :=
  match fuel with
  | O => NoFuel
  | S fuel =>
      let* sta := sta_at d s in
      match hnext sta with
      | None => Ret (s, None)
      | Some n =>
          let* nsta := sta_at d n in
          if bool_decide (addr nsta = mac) then Ret (s, Some n) else hash_before fuel mac n d
      end
  end.

Definition Ap_sta_hash_del (p : ptr) d : outcome daemon :=
  let* sta := sta_at d p in
  let h := STA_HASH (addr sta) in
  let* head := at_idx (sta_hash d) h in
  match head with
  | None => Ret d
  | Some s =>
      let* first := sta_at d s in
      if bool_decide (addr first = addr sta) then Ret (d ⦃ sta_hash := <[h := hnext first]> (sta_hash d) ⦄)
      else
        let* (s, n) := hash_before chain_fuel (addr sta) s d in
        match n with
        | None => Ret d
        | Some n => let* nsta := sta_at d n in upd_sta s (λ x, x ⦃ hnext := hnext nsta ⦄) d
        end
  end.

(** [sta->aid] is never set, so that the table of AIDs stays empty. *)
Definition Ap_free_sta (p : ptr) d : outcome daemon :=
  let* d := Ap_sta_hash_del p d in
  let* d := Ap_sta_list_del p d in
  let d := d ⦃ num_sta := num_sta d - 1 ⦄ in
  let* d := ieee802_1x_free_station p d in
  free_sta p d.

Fixpoint free_stas (fuel : nat) (sta : option ptr) d : outcome daemon :=
  match sta with
  | None => Ret d
  | Some p =>
      match fuel with
      | O => NoFuel
      | S fuel =>
          let* s := sta_at d p in
          let* d := Ap_free_sta p d in
          free_stas fuel (next s) d
      end
  end.

Definition Apd_free_stas d : outcome daemon := free_stas chain_fuel (sta_list d) d.

(** * Stations on demand *)

Definition new_sta (mac : bytes) (ApIdx ethertype sock : Z) (next : option ptr) : sta_info :=
  mk_sta next None mac 0 None (-1) None None None None None None ApIdx ethertype sock.

(** [None] is NULL. *)
Definition Ap_get_sta (sa : bytes) (apidx ethertype sock : Z) d : outcome (daemon * option ptr) :=
  let* head := at_idx (sta_hash d) (STA_HASH sa) in
  let* s := hash_find chain_fuel sa head d in
  match s with
  | Some p => Ret (d, Some p)
  | None =>
      if MAX_STA_COUNT <=? num_sta d then Ret (d, None)
      else if negb (malloc_ok sizeof_sta_info) then Ret (d, None)
      else
        let ap := if 1 <? SsidNum (conf d) then apidx else 0 in
        let '(d, p) := alloc_sta (new_sta sa ap ethertype sock (sta_list d)) d in
        let d := d ⦃ sta_list := Some p ⦄ ⦃ num_sta := num_sta d + 1 ⦄ in
        let* d := Ap_sta_hash_add p d in
        let* d := ieee802_1x_new_station p d in
        Ret (d, Some p)
  end.

(** * Session timeouts *)

(** The frame has no type: the driver takes it for a disconnection. *)
Definition Ap_handle_session_timer (p : ptr) d : outcome daemon :=
  if negb (malloc_ok (sizeof_ieee8023_hdr + 2)) then Ret d
  else
    let* s := sta_at d p in
    let* own := at_idx (own_addr d) (Z.to_nat (ApIdx s)) in
    let '(d, _) := RT_ioctl RT_OID_802_DOT1X_RADIUS_DATA (ApIdx s) (addr s ++ own ++ replicate 4 0) d in
    Ret d.

Definition Ap_sta_session_timeout (p : ptr) (session_timeout : Z) d : outcome daemon :=
  let d := cancel_timeout Ap_handle_session_timer_h CApd (CSta p) d in
  register_timeout session_timeout Ap_handle_session_timer_h CApd (CSta p) d.

Definition Ap_sta_no_session_timeout (p : ptr) d : daemon :=
  cancel_timeout Ap_handle_session_timer_h CApd (CSta p) d.

End Stations.
