(* ===== verification/StaFacts.v ===== *)
(** What the daemon's procedures leave alone: whatever the Authenticator
    machine of a station makes the daemon do, the tables of stations, the
    configuration and every other station stay as they are. *)

From stdpp Require Import gmap.
From S2P Require Import Prelude EapolSm EapolFacts EapolRun EapolSafety Md5 Radius Eloop Dot1xConfig Rtapd.
From S2P Require Import RadiusClient Ieee8021xTx StaInfo.

(** * A relation that every call of the machines keeps *)

Section EnvRel.
Context {W : Type} `{EapolEnv W} (R : W → W → Prop) `{!PreOrder R}.

Record env_kept : Prop := {
  ek_authorized a b w : R w (set_sta_authorized a b w);
  ek_canned i b w : R w (tx_canned_eap i b w);
  ek_identity i w : R w (request_identity i w);
  ek_req i w : R w (tx_req i w);
  ek_resp w : R w (send_resp_to_server w);
  ek_key i w : R w (tx_key i w)
}.

Lemma when_rel {A} b (f : A → W → W) a w : (∀ w, R w (f a w)) → R w (when b (f a) w).
Proof. intros Hf. unfold when. destruct b; [apply Hf|reflexivity]. Qed.

Ltac rel_step HK :=
  repeat (case_match || (etrans; [|first [apply (ek_authorized HK) | apply (ek_canned HK) | apply (ek_identity HK)
    | apply (ek_req HK) | apply (ek_resp HK) | apply (ek_key HK)]])); try reflexivity.

Lemma round_rel s : env_kept → R (snd s) (snd (sm_round s)).
Proof.
  intros HK. unfold sm_round. destruct s as [sm w].
  trans (snd (sm_AUTH_PAE_Step (sm, w))).
  { unfold sm_AUTH_PAE_Step, when. repeat case_match; cbn; unfold when, setPortAuthorized, setPortUnauthorized, txCannedFail, txCannedSuccess; rel_step HK. }
  generalize (sm_AUTH_PAE_Step (sm, w)) as s1. intros [sm1 w1].
  trans (snd (sm_BE_AUTH_Step (sm1, w1))).
  { unfold sm_BE_AUTH_Step, when. repeat case_match; cbn; unfold when, txCannedFail; rel_step HK. }
  generalize (sm_BE_AUTH_Step (sm1, w1)) as s2. intros [sm2 w2].
  trans (snd (sm_REAUTH_TIMER_Step (sm2, w2))).
  { unfold sm_REAUTH_TIMER_Step. repeat case_match; cbn; rel_step HK. }
  generalize (sm_REAUTH_TIMER_Step (sm2, w2)) as s3. intros [sm3 w3].
  unfold sm_AUTH_KEY_TX_Step. repeat case_match; cbn; rel_step HK.
Qed.

Lemma sm_step_rel s s' : env_kept → eapol_sm_step s = Ret s' → R (snd s) (snd s').
Proof.
  intros HK. unfold eapol_sm_step. generalize sm_step_bound as fuel. intros fuel. revert s.
  induction fuel as [|fuel IH]; intros s; cbn [eapol_sm_step_fuel]; [done|].
  pose proof (round_rel s HK) as Hr. case_bool_decide; [|by intros [= <-]].
  intros Hs. etrans; [exact Hr|]. by apply IH.
Qed.

End EnvRel.

(** * What a call leaves alone *)

(** A station without the fields the calls write. *)
Definition sta_core (s : sta_info) : sta_info :=
  s ⦃ radius_identifier := 0 ⦄ ⦃ last_recv_radius := None ⦄ ⦃ last_eap_radius := None ⦄.

Definition core (d : daemon) : rtapd_config * list bytes * Z * option ptr * list (option ptr) * ptr * timeval :=
  (conf d, own_addr d, num_sta d, sta_list d, sta_hash d, brk d, now d).

(** From [d] to [d'] only the station [p] has changed, in those fields, and the
    effects added satisfy [P]. *)
Record tx_rel (P : effect → Prop) (p : ptr) (d d' : daemon) : Prop := {
  tr_core : core d' = core d;
  tr_heap : sta_core <$> heap d' = sta_core <$> heap d;
  tr_other q : q ≠ p → heap d' !! q = heap d !! q;
  tr_out : ∃ outs, d_out d' = d_out d ++ outs ∧ Forall P outs
}.

#[export] Instance tx_rel_preorder P p : PreOrder (tx_rel P p).
Proof.
  split.
  - intros d. split; [done..|]. exists []. by rewrite app_nil_r.
  - intros d1 d2 d3 [] []. split; [congruence..| |].
    + intros q Hq. etrans; [by apply tr_other1|by apply tr_other0].
    + destruct tr_out0 as (o1 & E1 & H1), tr_out1 as (o2 & E2 & H2). exists (o1 ++ o2).
      rewrite E2, E1, <-app_assoc. split; [done|]. by apply Forall_app.
Qed.

(** Effects that neither install a key nor open a port: the ioctls are frames
    for the driver to send and the number of the daemon's process. *)
Definition harmless (e : effect) : Prop :=
  match e with
  | Ioctl flags _ _ =>
      (flags =? RT_OID_802_DOT1X_RADIUS_DATA) || (flags =? Z.lor RT_SET_APD_PID OID_GET_SET_TOGGLE) = true
  | _ => True
  end.

Section Frame.
Context `{World} `{Malloc} (P : effect → Prop) (p : ptr).
Implicit Types d : daemon.

(** What a change of the client's data, of the event loop and of the trace
    leaves alone. *)
Lemma tx_rel_easy d d' outs :
  core d' = core d → heap d' = heap d → d_out d' = d_out d ++ outs → Forall P outs → tx_rel P p d d'.
Proof. intros Hc Hh Ho HP. split; [done|by rewrite Hh|by rewrite Hh|by eauto]. Qed.

Lemma call_out_rel e d : P e → tx_rel P p d (fst (call_out e d)).
Proof. intros He. apply (tx_rel_easy _ _ [e]); [done..|by constructor]. Qed.

Lemma get_rand_rel n d : P (Rand n) → tx_rel P p d (fst (hostapd_get_rand n d)).
Proof. intros He. apply (tx_rel_easy _ _ [Rand n]); [done..|by constructor]. Qed.

Lemma upd_sta_rel f d d' :
  (∀ s, sta_core (f s) = sta_core s) → upd_sta p f d = Ret d' → tx_rel P p d d'.
Proof.
  intros Hf Hd. unfold upd_sta, sta_at in Hd. destruct (heap d !! p) as [s|] eqn:Hs; [|done].
  injection Hd as <-. split; [done|..].
  - cbn. rewrite fmap_insert, Hf. apply insert_id. by rewrite lookup_fmap, Hs.
  - intros q Hq. cbn. by rewrite lookup_insert_ne.
  - exists []. by rewrite app_nil_r.
Qed.

Lemma register_timeout_rel secs h a b d d' : register_timeout secs h a b d = Ret d' → tx_rel P p d d'.
Proof.
  unfold register_timeout. intros ([e r] & _ & [= <-])%outcome_bind_Ret.
  apply (tx_rel_easy _ _ []); [done..|by rewrite app_nil_r|constructor].
Qed.

Lemma cancel_timeout_rel h a b d : tx_rel P p d (cancel_timeout h a b d).
Proof.
  unfold cancel_timeout. destruct (eloop_cancel_timeout _ _ _ _) as [e r].
  apply (tx_rel_easy _ _ []); [done..|by rewrite app_nil_r|constructor].
Qed.

Lemma set_radius_rel c d : tx_rel P p d (d ⦃ radius := c ⦄).
Proof. apply (tx_rel_easy _ _ []); [done..|by rewrite app_nil_r|constructor]. Qed.

Lemma upd_radius_rel f d d' : upd_radius f d = Ret d' → tx_rel P p d d'.
Proof. unfold upd_radius. intros (c & _ & [= <-])%outcome_bind_Ret. apply set_radius_rel. Qed.

(** * The calls *)

Context (HSend : ∀ s data, P (Send s data)) (HRand : ∀ n, P (Rand n)) (HRandom : P Random)
        (HData : ∀ ap data, P (Ioctl RT_OID_802_DOT1X_RADIUS_DATA ap data)).

Lemma send_rel type data d d' : ieee802_1x_send p type data d = Ret d' → tx_rel P p d d'.
Proof.
  unfold ieee802_1x_send. intros (s & _ & Hd)%outcome_bind_Ret. destruct (negb _); [by injection Hd as <-|].
  apply outcome_bind_Ret in Hd as (own & _ & Hd).
  destruct (ethertype s =? _); injection Hd as <-; by apply call_out_rel.
Qed.

Lemma canned_rel id b d d' : ieee802_1x_tx_canned_eap p id b d = Ret d' → tx_rel P p d d'.
Proof. apply send_rel. Qed.

Lemma identity_rel id d d' : ieee802_1x_request_identity p id d = Ret d' → tx_rel P p d d'.
Proof.
  unfold ieee802_1x_request_identity. intros (d1 & H1 & Hd)%outcome_bind_Ret.
  apply upd_sta_rel in H1; [|done]. destruct (negb _); [by injection Hd as <-|].
  etrans; [exact H1|]. by apply send_rel in Hd.
Qed.

Lemma req_rel id d d' : ieee802_1x_tx_req p id d = Ret d' → tx_rel P p d d'.
Proof.
  unfold ieee802_1x_tx_req. intros (s & _ & Hd)%outcome_bind_Ret.
  destruct (last_eap_radius s) as [eap|]; [|by injection Hd as <-].
  apply outcome_bind_Ret in Hd as (i & _ & Hd). apply outcome_bind_Ret in Hd as (eap' & _ & Hd).
  apply outcome_bind_Ret in Hd as (d1 & H1 & Hd). apply upd_sta_rel in H1; [|done].
  etrans; [exact H1|]. by apply send_rel in Hd.
Qed.

Lemma get_id_rel d d' id : Radius_client_get_id d = Ret (d', id) → tx_rel P p d d'.
Proof.
  unfold Radius_client_get_id. intros (c & _ & Hd)%outcome_bind_Ret.
  apply outcome_bind_Ret in Hd as (es & _ & Hd). injection Hd as <- _. apply set_radius_rel.
Qed.

Lemma list_add_rel msg secret len ap d d' :
  Radius_client_list_add msg secret len ap d = Ret d' → tx_rel P p d d'.
Proof.
  unfold Radius_client_list_add. destruct (eloop_terminated _); [by intros [= <-]|].
  destruct (negb _); [by intros [= <-]|]. intros (c & _ & Hd)%outcome_bind_Ret.
  apply outcome_bind_Ret in Hd as (d1 & H1 & Hd). apply upd_radius_rel in Hd. etrans; [|exact Hd].
  destruct (msgs c); [by apply register_timeout_rel in H1|by injection H1 as <-].
Qed.

Lemma client_send_rel msg ap d d' r : Radius_client_send msg ap d = Ret (d', r) → tx_rel P p d d'.
Proof.
  unfold Radius_client_send. intros (b & _ & Hd)%outcome_bind_Ret. destruct (current_server b) as [srv|]; [|done].
  apply outcome_bind_Ret in Hd as (c & _ & Hd). apply outcome_bind_Ret in Hd as (s & _ & Hd).
  apply outcome_bind_Ret in Hd as (k & _ & Hd). apply outcome_bind_Ret in Hd as (m & _ & Hd).
  apply outcome_bind_Ret in Hd as (data & _ & Hd). cbn [call_out] in Hd.
  apply outcome_bind_Ret in Hd as (d1 & H1 & Hd). injection Hd as <- _.
  apply list_add_rel in H1. etrans; [|exact H1]. by apply (call_out_rel (Send s data) d).
Qed.

Lemma encapsulate_rel eap d d' : ieee802_1x_encapsulate_radius p eap d = Ret d' → tx_rel P p d d'.
Proof.
  unfold ieee802_1x_encapsulate_radius. intros ([d1 id] & H1 & Hd)%outcome_bind_Ret. apply get_id_rel in H1.
  apply outcome_bind_Ret in Hd as (d2 & H2 & Hd). apply upd_sta_rel in H2; [|done].
  apply outcome_bind_Ret in Hd as (msg & _ & Hd). assert (tx_rel P p d d2) as H02 by (by etrans).
  destruct msg as [msg|]; [|by injection Hd as <-]. apply outcome_bind_Ret in Hd as (s & _ & Hd).
  cbn [call_out] in Hd. set (d3 := d2 ⦃ d_out := _ ⦄) in Hd.
  assert (tx_rel P p d d3) as H03 by (etrans; [exact H02|]; by apply (call_out_rel Random d2)). clearbody d3.
  apply outcome_bind_Ret in Hd as (m1 & _ & Hd). apply outcome_bind_Ret in Hd as (b & _ & Hd).
  apply outcome_bind_Ret in Hd as (own & _ & Hd). apply outcome_bind_Ret in Hd as (m2 & _ & Hd).
  destruct m2 as [m2|]; [|by injection Hd as <-]. apply outcome_bind_Ret in Hd as ([d4 r] & H4 & Hd).
  injection Hd as <-. etrans; [exact H03|]. by apply client_send_rel in H4.
Qed.

Lemma resp_rel d d' : ieee802_1x_send_resp_to_server p d = Ret d' → tx_rel P p d d'.
Proof. unfold ieee802_1x_send_resp_to_server. intros (s & _ & Hd)%outcome_bind_Ret. by apply encapsulate_rel in Hd. Qed.

(** The two calls that open a port and send keys. *)

Lemma unauthorize_rel a d d' : ieee802_1x_set_sta_authorized p a false d = Ret d' → tx_rel P p d d'.
Proof. by intros [= <-]. Qed.

Context (HIoctl : ∀ flags ap data, P (Ioctl flags ap data)).

Lemma authorized_rel a b d d' : ieee802_1x_set_sta_authorized p a b d = Ret d' → tx_rel P p d d'.
Proof.
  unfold ieee802_1x_set_sta_authorized. destruct b; [|by intros [= <-]]. intros (s & _ & Hd)%outcome_bind_Ret.
  destruct (_ && _); injection Hd as <-; [|done]. by apply call_out_rel.
Qed.

Lemma key_one_rel i b k d d' : ieee802_1x_tx_key_one p i b k d = Ret d' → tx_rel P p d d'.
Proof.
  unfold ieee802_1x_tx_key_one. destruct (negb _); [by intros [= <-]|].
  pose proof (get_rand_rel 16 d (HRand 16)) as H1. destruct (hostapd_get_rand 16 d) as [d1 iv]. cbn [fst] in H1.
  destruct iv as [iv|]; [|by intros [= <-]]. intros (s & _ & Hd)%outcome_bind_Ret.
  destruct (negb _); [by injection Hd as <-|]. apply outcome_bind_Ret in Hd as (enc & _ & Hd).
  etrans; [exact H1|]. by apply send_rel in Hd.
Qed.

Lemma install_key_rel s key d : tx_rel P p d (fst (install_key s key d)).
Proof. unfold install_key, RT_ioctl. destruct (ethertype s =? _); by apply call_out_rel. Qed.

Lemma tx_key_rel id d d' : ieee802_1x_tx_key p id d = Ret d' → tx_rel P p d d'.
Proof.
  unfold ieee802_1x_tx_key. intros (s & _ & Hd)%outcome_bind_Ret.
  destruct (eapol_key_sign s), (eapol_key_crypt s); try by injection Hd as <-.
  apply outcome_bind_Ret in Hd as (b0 & _ & Hd). apply outcome_bind_Ret in Hd as (ikey & _ & Hd).
  apply outcome_bind_Ret in Hd as (d1 & H1 & Hd). apply key_one_rel in H1.
  apply outcome_bind_Ret in Hd as (mat & _ & Hd).
  destruct (install_key s _ d1) as [d2 ok] eqn:E2. pose proof (install_key_rel s (ndis_key (addr s) (Z.lor 2147483648 (DefaultKeyID b0)) (individual_wep_key_len b0) mat) d1) as H2.
  rewrite E2 in H2. cbn [fst] in H2. assert (tx_rel P p d d2) as H02 by (by etrans).
  destruct ok; cbn [negb] in Hd; [|by injection Hd as <-].
  pose proof (get_rand_rel (Z.to_nat (individual_wep_key_len b0)) d2 (HRand _)) as H3.
  destruct (hostapd_get_rand _ d2) as [d3 rnd]. cbn [fst] in H3.
  apply outcome_bind_Ret in Hd as (d4 & H4 & Hd). apply key_one_rel in H4.
  apply outcome_bind_Ret in Hd as (mat2 & _ & Hd).
  destruct (install_key s _ d4) as [d5 ok5] eqn:E5. pose proof (install_key_rel s (ndis_key (addr s) (individual_wep_key_idx b0) (individual_wep_key_len b0) mat2) d4) as H5.
  rewrite E5 in H5. injection Hd as <-. etrans; [exact H02|]. etrans; [exact H3|]. by etrans.
Qed.

End Frame.

(** * Machines on the daemon *)

Definition world_rel `{World} `{Malloc} (P : effect → Prop) (w w' : sm_world) : Prop :=
  fst w' = fst w ∧ ∀ d', snd w' = Ret d' → ∃ d, snd w = Ret d ∧ tx_rel P (fst w) d d'.

Section Machines.
Context `{World} `{Malloc}.
Implicit Types d : daemon.

#[export] Instance world_rel_preorder P : PreOrder (world_rel P).
Proof.
  split.
  - intros w. split; [done|]. intros d Hd. by exists d.
  - intros w1 w2 w3 [E1 H1] [E2 H2]. split; [congruence|]. intros d3 Hd3.
    destruct (H2 d3 Hd3) as (d2 & Hd2 & R2). destruct (H1 d2 Hd2) as (d1 & Hd1 & R1).
    exists d1. split; [done|]. etrans; [exact R1|]. by rewrite <-E1.
Qed.

Lemma on_daemon_rel P f w :
  (∀ p d d', f p d = Ret d' → tx_rel P p d d') → world_rel P w (on_daemon f w).
Proof.
  intros Hf. split; [done|]. cbn. intros d' (d & Hd & Hfd)%outcome_bind_Ret. exists d. split; [done|]. by apply Hf.
Qed.

Abbreviation any := (λ _ : effect, True).

Lemma daemon_env_kept : env_kept (world_rel any).
Proof.
  split; intros; apply on_daemon_rel; intros p d d' Hd.
  - by eapply authorized_rel in Hd.
  - by eapply canned_rel in Hd.
  - by eapply identity_rel in Hd.
  - by eapply req_rel in Hd.
  - by eapply resp_rel in Hd.
  - by eapply tx_key_rel in Hd.
Qed.

Lemma daemon_kept_unless_opened w0 : kept_unless_opened (λ w, world_rel harmless w0 w).
Proof.
  split; intros; (etrans; [eassumption|]); apply on_daemon_rel; intros p d d' Hd.
  - by eapply unauthorize_rel in Hd.
  - by eapply canned_rel in Hd.
  - by eapply identity_rel in Hd.
  - by eapply req_rel in Hd.
  - by eapply resp_rel in Hd.
Qed.

Lemma tick_on_rel P w : world_rel P w (eloop_register_tick w).
Proof. apply on_daemon_rel. intros p d d' Hd. by eapply register_timeout_rel in Hd. Qed.

Lemma tick_off_rel P w : world_rel P w (eloop_cancel_tick w).
Proof. apply on_daemon_rel. intros p d d' [= <-]. apply cancel_timeout_rel. Qed.

Lemma timers_tick_rel s s' : eapol_port_timers_tick s = Ret s' → world_rel any (snd s) (snd s').
Proof.
  destruct s as [sm w]. unfold eapol_port_timers_tick. intros ([sm1 w1] & H1 & [= <-])%outcome_bind_Ret. cbn [snd].
  apply (sm_step_rel _ _ _ daemon_env_kept) in H1. etrans; [exact H1|]. apply tick_on_rel.
Qed.

Lemma sm_initialize_rel s s' : eapol_sm_initialize s = Ret s' → world_rel any (snd s) (snd s').
Proof.
  destruct s as [sm w]. unfold eapol_sm_initialize.
  cbn [snd]. generalize (sm ⦃ initialize := true ⦄) as sm1. intros sm1 ([sm2 w2] & H2 & H1)%outcome_bind_Ret.
  revert H1. generalize (sm2 ⦃ initialize := false ⦄) as sm3. intros sm3 ([sm4 w4] & H4 & [= <-])%outcome_bind_Ret.
  cbn [snd]. apply (sm_step_rel _ _ _ daemon_env_kept) in H2, H4. etrans; [exact H2|]. etrans; [exact H4|].
  etrans; [apply tick_off_rel|apply tick_on_rel].
Qed.

Lemma sm_alloc_rel conf w s : eapol_sm_alloc conf w = Ret (Some s) → world_rel any w (snd s).
Proof.
  unfold eapol_sm_alloc. destruct (negb _); [done|]. generalize (eapol_sm_defaults conf) as sm.
  intros sm (s1 & H1 & [= <-])%outcome_bind_Ret. by apply sm_initialize_rel in H1.
Qed.

(** Putting a machine back after a run. *)
Lemma put_machine_rel P p r d d' :
  world_rel P (p, Ret d) (snd r) → put_machine p r = Ret d' →
  ∃ d1, snd (snd r) = Ret d1 ∧ tx_rel P p d d1 ∧ upd_sta p (λ s, s ⦃ eapol_sm := Some (fst r) ⦄) d1 = Ret d'.
Proof.
  destruct r as [sm w]. intros [_ Hw] Hd. unfold put_machine in Hd.
  apply outcome_bind_Ret in Hd as (d1 & H1 & Hd). destruct (Hw d1 H1) as (d0 & [= <-] & HR). by exists d1.
Qed.

Lemma run_machine_inv f p d d' :
  run_machine f p d = Ret d' →
  ∃ s sm r, heap d !! p = Some s ∧ eapol_sm s = Some sm ∧ f (sm, (p, Ret d)) = Ret r ∧ put_machine p r = Ret d'.
Proof.
  unfold run_machine, sta_at. intros (s & Hs & Hd)%outcome_bind_Ret.
  destruct (heap d !! p) as [s0|] eqn:Hp; [|done]. injection Hs as ->.
  destruct (eapol_sm s) as [sm|] eqn:Hsm; [|done]. apply outcome_bind_Ret in Hd as (r & Hr & Hd). by exists s, sm, r.
Qed.

Lemma upd_machine_inv p g d d' :
  upd_machine p g d = Ret d' →
  ∃ s sm, heap d !! p = Some s ∧ eapol_sm s = Some sm ∧ d' = set_sta d p (s ⦃ eapol_sm := Some (g sm) ⦄).
Proof.
  unfold upd_machine, sta_at. intros (s & Hs & Hd)%outcome_bind_Ret.
  destruct (heap d !! p) as [s0|] eqn:Hp; [|done]. injection Hs as ->.
  destruct (eapol_sm s) as [sm|] eqn:Hsm; [|done]. injection Hd as <-. eauto.
Qed.

Lemma upd_sta_inv p f d d' :
  upd_sta p f d = Ret d' → ∃ s, heap d !! p = Some s ∧ d' = set_sta d p (f s).
Proof.
  unfold upd_sta, sta_at. intros (s & Hs & Hd)%outcome_bind_Ret.
  destruct (heap d !! p) as [s0|] eqn:Hp; [|done]. injection Hs as ->. injection Hd as <-. eauto.
Qed.

Lemma sta_at_Ret d p s : sta_at d p = Ret s ↔ heap d !! p = Some s.
Proof. unfold sta_at. destruct (heap d !! p); naive_solver. Qed.

End Machines.
