(* ===== verification/StaInfoProps.v ===== *)
(** The table of stations implements a map from addresses to stations: the
    list of all stations and the chains of the hash table hold the same
    stations, every station once, and no operation uses a released one. *)

From stdpp Require Import gmap.
From S2P Require Import Prelude EapolSm EapolFacts EapolRun EapolSafety Md5 Radius Eloop EloopProps Dot1xConfig Rtapd.
From S2P Require Import RadiusClient RadiusClientFacts Ieee8021xTx StaInfo StaFacts.

(** * Linked structures in the heap *)

(** From [o], the field [f] leads through the blocks [l] to NULL. *)
Fixpoint chain (f : sta_info → option ptr) (h : gmap ptr sta_info) (o : option ptr) (l : list ptr) : Prop :=
  match l with
  | [] => o = None
  | p :: l => o = Some p ∧ ∃ s, h !! p = Some s ∧ chain f h (f s) l
  end.

Lemma chain_agree f h h' o l :
  (∀ p, p ∈ l → f <$> h' !! p = f <$> h !! p) → chain f h o l → chain f h' o l.
Proof.
  revert o. induction l as [|p l IH]; intros o Hf; cbn [chain]; [done|]. intros (-> & s & Hs & Hl).
  split; [done|]. specialize (Hf p (list_elem_of_here _ _)) as Hp. rewrite Hs in Hp.
  destruct (h' !! p) as [s'|] eqn:Hs'; [|done]. cbn in Hp. injection Hp as Hp. exists s'. split; [done|]. rewrite Hp.
  apply IH; [|done]. intros q Hq. apply Hf. by apply list_elem_of_further.
Qed.

Lemma chain_insert f h o l p s : p ∉ l → chain f h o l → chain f (<[p := s]> h) o l.
Proof. intros Hp. apply chain_agree. intros q Hq. rewrite lookup_insert_ne; [done|]. by intros ->. Qed.

Lemma chain_delete f h o l p : p ∉ l → chain f h o l → chain f (delete p h) o l.
Proof. intros Hp. apply chain_agree. intros q Hq. rewrite lookup_delete_ne; [done|]. by intros ->. Qed.

Lemma chain_lookup f h o l p : chain f h o l → p ∈ l → is_Some (h !! p).
Proof.
  revert o. induction l as [|q l IH]; intros o Hc Hp; [by apply not_elem_of_nil in Hp|].
  destruct Hc as (_ & s & Hs & Hc). apply elem_of_cons in Hp as [->|Hp]; [by exists s|by eapply IH].
Qed.

(** Taking out a block: its predecessor now points behind it. *)
Lemma chain_unlink f h o l1 t p l2 st sp st' :
  NoDup (l1 ++ t :: p :: l2) → chain f h o (l1 ++ t :: p :: l2) →
  h !! t = Some st → h !! p = Some sp → f st' = f sp → chain f (<[t := st']> h) o (l1 ++ t :: l2).
Proof.
  intros HN Hc Ht Hp Hf. revert o HN Hc. induction l1 as [|q l1 IH]; intros o HN Hc; cbn [app] in *.
  - apply list.NoDup_cons in HN as [Hnt [Hnp HN]%list.NoDup_cons].
    destruct Hc as (-> & s & Hs & Hc). rewrite Ht in Hs. injection Hs as <-.
    destruct Hc as (_ & s & Hs & Hc). rewrite Hp in Hs. injection Hs as <-.
    split; [done|]. exists st'. rewrite lookup_insert_eq. split; [done|]. rewrite Hf.
    apply chain_insert; [|done]. intros Hin. apply Hnt. by right.
  - apply list.NoDup_cons in HN as [Hnq HN]. destruct Hc as (-> & s & Hs & Hc). split; [done|].
    exists s. rewrite lookup_insert_ne; [split; [done|by apply IH]|].
    intros ->. apply Hnq. apply elem_of_app. right. left.
Qed.

Lemma filter_ne_app (l1 l2 : list ptr) p :
  NoDup (l1 ++ p :: l2) → filter (λ q, q ≠ p) (l1 ++ p :: l2) = l1 ++ l2.
Proof.
  intros HN. apply list.NoDup_app in HN as (H1 & Hd & [Hn H2]%list.NoDup_cons).
  assert (∀ l : list ptr, p ∉ l → filter (λ q : ptr, q ≠ p) l = l) as Hid.
  { induction l as [|q l IH]; [done|]. intros [Hne Hnl]%not_elem_of_cons.
    rewrite filter_cons, decide_True by done. by rewrite IH. }
  rewrite list.filter_app, filter_cons, decide_False by tauto. rewrite !Hid; [done| |].
  - done.
  - intros Hin. apply (Hd p Hin). left.
Qed.

Lemma filter_ne_cons (l : list ptr) p : NoDup (p :: l) → filter (λ q, q ≠ p) (p :: l) = l.
Proof. exact (filter_ne_app [] l p). Qed.

Section Walk.
Context `{World} `{Malloc}.
Implicit Types d : daemon.

Lemma hash_find_spec fuel mac o d l :
  chain hnext (heap d) o l → (length l ≤ fuel)%nat →
  ∃ r, hash_find fuel mac o d = Ret r ∧
       match r with
       | Some p => p ∈ l ∧ ∃ s, heap d !! p = Some s ∧ addr s = mac
       | None => ∀ p s, p ∈ l → heap d !! p = Some s → addr s ≠ mac
       end.
Proof.
  revert fuel o. induction l as [|q l IH]; intros fuel o Hc Hf.
  { cbn in Hc. subst o. exists None. split; [by destruct fuel|]. intros p s Hp. by apply not_elem_of_nil in Hp. }
  destruct Hc as (-> & s & Hs & Hc). destruct fuel as [|fuel]; [cbn in Hf; lia|]. cbn [hash_find].
  rewrite (proj2 (sta_at_Ret d q s) Hs). cbn [mbind outcome_bind]. case_bool_decide as E.
  - exists (Some q). split; [done|]. split; [left|by eauto].
  - destruct (IH fuel (hnext s) Hc) as (r & Hr & Hm); [cbn in Hf; lia|]. exists r. split; [done|].
    destruct r as [p|]; [destruct Hm; split; [by right|done]|].
    intros p s' [->|Hp]%elem_of_cons Hs'; [congruence|by eapply Hm].
Qed.

Lemma list_before_spec fuel p o d l :
  chain next (heap d) o l → (length l ≤ fuel)%nat → p ∈ l → o ≠ Some p →
  ∃ l1 t l2, l = l1 ++ t :: p :: l2 ∧ list_before fuel p o d = Ret (Some t).
Proof.
  revert fuel o. induction l as [|q l IH]; intros fuel o Hc Hf Hp Ho; [by apply not_elem_of_nil in Hp|].
  destruct Hc as (-> & s & Hs & Hc). destruct fuel as [|fuel]; [cbn in Hf; lia|]. cbn [list_before].
  rewrite (proj2 (sta_at_Ret d q s) Hs). cbn [mbind outcome_bind].
  apply elem_of_cons in Hp as [->|Hp]; [done|]. case_bool_decide as E.
  - destruct l as [|p' l]; [by apply not_elem_of_nil in Hp|]. destruct Hc as (E' & _). rewrite E in E'. injection E' as <-.
    by exists [], q, l.
  - destruct (IH fuel (next s) Hc) as (l1 & t & l2 & -> & Hr); [cbn in Hf; lia|done..|].
    by exists (q :: l1), t, l2.
Qed.

Lemma hash_before_spec fuel mac p x d l sp :
  chain hnext (heap d) (Some x) (x :: l) → (length l < fuel)%nat → p ∈ l → heap d !! p = Some sp → addr sp = mac →
  (∀ q s, q ∈ l → heap d !! q = Some s → addr s = mac → q = p) →
  ∃ l1 t l2, x :: l = l1 ++ t :: p :: l2 ∧ hash_before fuel mac x d = Ret (t, Some p).
Proof.
  revert fuel x. induction l as [|q l IH]; intros fuel x Hc Hf Hp Hsp Hmac Hu; [by apply not_elem_of_nil in Hp|].
  destruct Hc as (_ & s & Hs & Hc). destruct fuel as [|fuel]; [lia|]. cbn [hash_before].
  rewrite (proj2 (sta_at_Ret d x s) Hs). cbn [mbind outcome_bind].
  pose proof Hc as (E & sq & Hsq & Hcq). rewrite E. rewrite (proj2 (sta_at_Ret d q sq) Hsq). cbn [mbind outcome_bind].
  case_bool_decide as Eq.
  - assert (q = p) as -> by (eapply Hu; [left|done|done]). by exists [], x, l.
  - apply elem_of_cons in Hp as [->|Hp]; [congruence|].
    destruct (IH fuel q) as (l1 & t & l2 & El & Hr); try done; [by rewrite <-E|cbn in Hf; lia| |].
    { intros q' s' Hq'. apply Hu. by right. }
    exists (x :: l1), t, l2. by rewrite El.
Qed.

End Walk.

(** * The invariant of the table *)

Definition mac_ok (mac : bytes) : Prop := length mac = MAC_ADDR_LEN ∧ bytes_ok mac.

Lemma STA_HASH_lt mac : mac_ok mac → (STA_HASH mac < STA_HASH_SIZE)%nat.
Proof.
  intros [Hl Hb]. unfold STA_HASH, idx. change (Z.to_nat 5) with 5%nat.
  assert (byte_ok (nth 5 mac 0)) as Hx.
  { apply (proj1 (List.Forall_nth byte_ok mac) Hb). rewrite Hl. cbv. lia. }
  unfold byte_ok in Hx. change STA_HASH_SIZE with 256%nat. lia.
Qed.

(** The list of stations is [l], the chain of bucket [h] is [hs h]. *)
Record linked (d : daemon) (l : list ptr) (hs : nat → list ptr) : Prop := {
  lk_list : chain next (heap d) (sta_list d) l;
  lk_hash h o : sta_hash d !! h = Some o → chain hnext (heap d) o (hs h)
}.

Record table (d : daemon) (l : list ptr) (hs : nat → list ptr) : Prop := {
  tb_linked : linked d l hs;
  tb_nodup : NoDup l;
  tb_dom p : p ∈ l ↔ is_Some (heap d !! p);
  tb_hs_nodup h : NoDup (hs h);
  tb_hs h p : p ∈ hs h ↔ ∃ s, heap d !! p = Some s ∧ STA_HASH (addr s) = h;
  tb_len : length (sta_hash d) = STA_HASH_SIZE;
  tb_num : num_sta d = Z.of_nat (length l) ∧ num_sta d ≤ MAX_STA_COUNT;
  tb_uniq p q s s' : heap d !! p = Some s → heap d !! q = Some s' → addr s = addr s' → p = q;
  tb_mac p s : heap d !! p = Some s → mac_ok (addr s);
  tb_brk p : is_Some (heap d !! p) → (p < brk d)%nat
}.

Definition sta_links (s : sta_info) : option ptr * option ptr * bytes := (next s, hnext s, addr s).

(** Only fields that are not part of the table have changed. *)
Definition same_links (d d' : daemon) : Prop := core d' = core d ∧ sta_links <$> heap d' = sta_links <$> heap d.

#[export] Instance same_links_preorder : PreOrder same_links.
Proof. split; [done|]. intros d1 d2 d3 [] []. split; congruence. Qed.

Lemma same_links_lookup d d' p s' :
  same_links d d' → heap d' !! p = Some s' → ∃ s, heap d !! p = Some s ∧ sta_links s' = sta_links s.
Proof.
  intros [_ Hh] Hp. apply (f_equal (.!! p)) in Hh. rewrite !lookup_fmap, Hp in Hh.
  destruct (heap d !! p) as [s|]; [|done]. injection Hh. intros. exists s. unfold sta_links. by split; [|congruence].
Qed.

Lemma same_links_sym d d' : same_links d d' → same_links d' d.
Proof. by intros []. Qed.

Lemma same_links_field {A} (f : sta_info → A) (g : option ptr * option ptr * bytes → A) d d' p :
  (∀ s, f s = g (sta_links s)) → same_links d d' → f <$> heap d' !! p = f <$> heap d !! p.
Proof.
  intros Hf [_ E]. apply (f_equal (λ m, g <$> m !! p)) in E. rewrite !lookup_fmap in E.
  destruct (heap d !! p) as [s|], (heap d' !! p) as [s'|]; cbn in *; [|done..]. by rewrite !Hf.
Qed.

Lemma linked_links d d' l hs : same_links d d' → linked d l hs → linked d' l hs.
Proof.
  intros Hs [Hl Hh]. pose proof (proj1 Hs) as Hc. unfold core in Hc. injection Hc as _ _ _ Ec2 Ec3 _ _.
  split; rewrite ?Ec2, ?Ec3.
  - apply (chain_agree next (heap d)); [|done]. intros p _. by apply (same_links_field next (λ k, k.1.1)).
  - intros h o Ho. apply (chain_agree hnext (heap d)); [|by apply Hh]. intros p _.
    by apply (same_links_field hnext (λ k, k.1.2)).
Qed.

Lemma table_links d d' l hs : same_links d d' → table d l hs → table d' l hs.
Proof.
  intros Hs [Hlk Hn Hd HhN Hhs Hlen Hnum Hu Hm Hb]. pose proof (same_links_sym _ _ Hs) as Hs'.
  assert (∀ p, is_Some (heap d' !! p) ↔ is_Some (heap d !! p)) as Hdom.
  { intros p. rewrite <-!(fmap_is_Some addr). by rewrite (same_links_field addr snd d d'). }
  pose proof (proj1 Hs) as Hc. unfold core in Hc. injection Hc as _ _ Ec1 Ec2 Ec3 Ec4 _.
  split; rewrite ?Ec1, ?Ec2, ?Ec3, ?Ec4; try done.
  - by apply (linked_links d).
  - intros p. by rewrite Hd, Hdom.
  - intros h p. rewrite Hhs. split; intros (s & Hp & E).
    + destruct (same_links_lookup _ _ _ _ Hs' Hp) as (s1 & Hp1 & Es). exists s1. split; [done|]. by injection Es as _ _ <-.
    + destruct (same_links_lookup _ _ _ _ Hs Hp) as (s1 & Hp1 & Es). exists s1. split; [done|]. by injection Es as _ _ <-.
  - intros p q s s' Hp Hq E. destruct (same_links_lookup _ _ _ _ Hs Hp) as (s1 & Hp1 & Es).
    destruct (same_links_lookup _ _ _ _ Hs Hq) as (s2 & Hq1 & Es'). apply (Hu p q s1 s2); [done..|].
    injection Es as _ _ E1. injection Es' as _ _ E2. congruence.
  - intros p s Hp. destruct (same_links_lookup _ _ _ _ Hs Hp) as (s1 & Hp1 & Es). injection Es as _ _ ->. by eapply Hm.
  - intros p. rewrite Hdom. apply Hb.
Qed.

Lemma tx_rel_links P p d d' : tx_rel P p d d' → same_links d d'.
Proof.
  intros [Hc Hh _ _]. split; [done|].
  assert (∀ m : gmap ptr sta_info, sta_links <$> m = sta_links <$> (sta_core <$> m)) as E.
  { intros m. rewrite <-map_fmap_compose. by apply map_fmap_ext. }
  by rewrite (E (heap d)), (E (heap d')), Hh.
Qed.

Lemma set_sta_links d p s s' : heap d !! p = Some s → sta_links s' = sta_links s → same_links d (set_sta d p s').
Proof.
  intros Hp E. split; [done|]. cbn. rewrite fmap_insert, E. apply insert_id. by rewrite lookup_fmap, Hp.
Qed.

Section Ops.
Context `{World} `{Malloc}.
Implicit Types d : daemon.

(** * Operations that leave the table alone *)

Lemma upd_sta_links p f d d' :
  (∀ s, sta_links (f s) = sta_links s) → upd_sta p f d = Ret d' → same_links d d'.
Proof. intros Hf (s & Hp & ->)%upd_sta_inv. by apply (set_sta_links d p s). Qed.

Lemma upd_machine_links p g d d' : upd_machine p g d = Ret d' → same_links d d'.
Proof. intros (s & sm & Hp & _ & ->)%upd_machine_inv. by apply (set_sta_links d p s). Qed.

Lemma put_machine_links P p r d d' :
  world_rel P (p, Ret d) (snd r) → put_machine p r = Ret d' → same_links d d'.
Proof.
  intros Hw Hp. destruct (put_machine_rel _ _ _ _ _ Hw Hp) as (d1 & _ & Hr & Hu).
  etrans; [by apply (tx_rel_links _ _ _ _ Hr)|]. by apply upd_sta_links in Hu.
Qed.

Lemma step_machine_links p d d' : step_machine p d = Ret d' → same_links d d'.
Proof.
  intros (s & sm & r & _ & _ & Hf & Hp)%run_machine_inv. apply (put_machine_links (λ _, True) p r); [|done].
  apply (sm_step_rel _ (sm, (p, Ret d)) r daemon_env_kept Hf).
Qed.

Lemma tick_machine_links p d d' : tick_machine p d = Ret d' → same_links d d'.
Proof.
  intros (s & sm & r & _ & _ & Hf & Hp)%run_machine_inv. apply (put_machine_links (λ _, True) p r); [|done].
  apply (timers_tick_rel (sm, (p, Ret d)) r Hf).
Qed.

Lemma alloc_machine_links p d d' : alloc_machine p d = Ret d' → same_links d d'.
Proof.
  unfold alloc_machine. intros (r & Hr & Hd)%outcome_bind_Ret. destruct r as [r|]; [|by apply upd_sta_links in Hd].
  apply (put_machine_links (λ _, True) p r); [|done]. by apply (sm_alloc_rel _ _ _ Hr).
Qed.

Lemma new_station_links p d d' : ieee802_1x_new_station p d = Ret d' → same_links d d'.
Proof.
  unfold ieee802_1x_new_station. intros (s & _ & Hd)%outcome_bind_Ret. destruct (eapol_sm s).
  - apply outcome_bind_Ret in Hd as (d1 & H1 & Hd). etrans; [by apply upd_machine_links in H1|by apply step_machine_links in Hd].
  - apply outcome_bind_Ret in Hd as (d1 & H1 & Hd). apply outcome_bind_Ret in Hd as (s1 & _ & Hd).
    etrans; [by apply alloc_machine_links in H1|]. destruct (eapol_sm s1); [by apply upd_machine_links in Hd|by injection Hd as <-].
Qed.

(** * Adding a station *)

Lemma add_station d l hs mac ap ety sock :
  table d l hs → mac_ok mac → (∀ p s, heap d !! p = Some s → addr s ≠ mac) → num_sta d < MAX_STA_COUNT →
  let p := brk d in
  let d1 := fst (alloc_sta (new_sta mac ap ety sock (sta_list d)) d) in
  let d2 := d1 ⦃ sta_list := Some p ⦄ ⦃ num_sta := num_sta d1 + 1 ⦄ in
  ∃ d3 s, Ap_sta_hash_add p d2 = Ret d3 ∧ table d3 (p :: l) (λ h, if decide (h = STA_HASH mac) then p :: hs h else hs h)
          ∧ heap d3 = <[p := s]> (heap d) ∧ addr s = mac ∧ conf d3 = conf d ∧ now d3 = now d ∧ eapol_sm s = None.
Proof.
  intros [[Hl Hh] Hn Hd HhN Hhs Hlen Hnum Hu Hm Hb] Hmac Hfresh Hroom p d1 d2.
  set (h := STA_HASH mac). pose proof (STA_HASH_lt mac Hmac) as Hlt. fold h in Hlt.
  assert (heap d !! p = None) as Hp.
  { apply eq_None_not_Some. intros Hx. specialize (Hb p Hx). unfold p in Hb. lia. }
  assert (p ∉ l) as Hpl by (rewrite Hd, Hp; by intros []).
  assert (∀ h', p ∉ hs h') as Hph by (intros h'; rewrite Hhs, Hp; by intros (? & ? & _)).
  destruct (at_idx_lt (sta_hash d) h) as (head & Hhd & Hhd'); [by rewrite Hlen|].
  unfold Ap_sta_hash_add. rewrite (proj2 (sta_at_Ret d2 p (new_sta mac ap ety sock (sta_list d))) ltac:(apply lookup_insert_eq)).
  cbn [mbind outcome_bind]. change (sta_hash d2) with (sta_hash d). cbn [addr new_sta]. fold h. rewrite Hhd. cbn [mbind outcome_bind].
  unfold upd_sta. rewrite (proj2 (sta_at_Ret d2 p (new_sta mac ap ety sock (sta_list d))) ltac:(apply lookup_insert_eq)).
  cbn [mbind outcome_bind]. set (s := (new_sta mac ap ety sock (sta_list d)) ⦃ hnext := head ⦄).
  exists (d2 ⦃ heap := <[p := s]> (heap d2) ⦄ ⦃ sta_hash := <[h := Some p]> (sta_hash d) ⦄), s. split; [done|].
  assert (<[p := s]> (heap d2) = <[p := s]> (heap d)) as Hheap by (cbn; apply insert_insert_eq).
  split; [|split; [exact Hheap|done]].
  split; cbn [heap sta_list sta_hash num_sta brk set eta_daemon]; rewrite ?Hheap.
  - split; cbn [heap sta_list sta_hash set eta_daemon]; rewrite ?Hheap.
    + split; [done|]. exists s. rewrite lookup_insert_eq. split; [done|]. by apply chain_insert.
    + intros h' o Ho. cbn beta. destruct (decide (h' = STA_HASH mac)) as [->|Hne].
      * fold h in Ho |- *. rewrite list_lookup_insert_eq in Ho by (by rewrite Hlen). injection Ho as <-. rewrite decide_True by done.
        split; [done|]. exists s. rewrite lookup_insert_eq. split; [done|]. apply chain_insert; [done|]. by apply Hh.
      * rewrite list_lookup_insert_ne in Ho by done. rewrite decide_False by done. apply chain_insert; [done|]. by apply Hh.
  - by apply list.NoDup_cons.
  - intros q. rewrite elem_of_cons, Hd. destruct (decide (q = p)) as [->|Hne].
    + rewrite lookup_insert_eq. naive_solver.
    + rewrite lookup_insert_ne by done. naive_solver.
  - intros h'. cbn beta. case_decide; [by apply list.NoDup_cons|done].
  - intros h' q. cbn beta. destruct (decide (q = p)) as [->|Hne].
    + rewrite lookup_insert_eq. case_decide as E.
      * rewrite elem_of_cons. split; [|by left]. intros _. exists s. by rewrite E.
      * split; [by intros ?%Hph|]. intros (? & [= <-] & E'). by destruct E.
    + rewrite lookup_insert_ne by done. rewrite <-Hhs. case_decide; [rewrite elem_of_cons|]; naive_solver.
  - by rewrite length_insert.
  - cbn [length]. destruct Hnum as [E ?]. change (num_sta d2) with (num_sta d + 1). rewrite E in *. split; lia.
  - intros q1 q2 s1 s2 H1 H2 E. destruct (decide (q1 = p)) as [->|N1], (decide (q2 = p)) as [->|N2]; [done|..];
      rewrite ?lookup_insert_eq, ?lookup_insert_ne in H1 by done;
      rewrite ?lookup_insert_eq, ?lookup_insert_ne in H2 by done.
    + injection H1 as <-. by destruct (Hfresh _ _ H2).
    + injection H2 as <-. by destruct (Hfresh _ _ H1).
    + by eapply Hu.
  - intros q s1 Hq. destruct (decide (q = p)) as [->|Hne]; [rewrite lookup_insert_eq in Hq; by injection Hq as <-|].
    rewrite lookup_insert_ne in Hq by done. by eapply Hm.
  - intros q Hq. change (brk d2) with (S (brk d)). destruct (decide (q = p)) as [->|Hne]; [unfold p; lia|].
    rewrite lookup_insert_ne in Hq by done. specialize (Hb q Hq). lia.
Qed.

(** * Removing a station *)

Lemma upd_sta_Ret p f d s : heap d !! p = Some s → upd_sta p f d = Ret (set_sta d p (f s)).
Proof. intros Hs. unfold upd_sta. by rewrite (proj2 (sta_at_Ret d p s) Hs). Qed.

(** What unlinking leaves alone. *)
Record unlink_frame d d' : Prop := {
  uf_conf : conf d' = conf d;
  uf_num : num_sta d' = num_sta d;
  uf_brk : brk d' = brk d;
  uf_len : length (sta_hash d') = length (sta_hash d);
  uf_addr : addr <$> heap d' = addr <$> heap d;
  uf_loop : loop d' = loop d
}.

Lemma set_sta_frame d t s s' : heap d !! t = Some s → addr s' = addr s → unlink_frame d (set_sta d t s').
Proof.
  intros Ht E. split; [done..| |done]. cbn. rewrite fmap_insert, E. apply insert_id. by rewrite lookup_fmap, Ht.
Qed.

Lemma table_bucket_length d l hs h : table d l hs → (length (hs h) ≤ length l < chain_fuel)%nat.
Proof.
  intros []. split.
  - apply submseteq_length, NoDup_submseteq; [done|]. intros q (s & Hq & _)%tb_hs0. rewrite tb_dom0. by exists s.
  - destruct tb_num0 as [E ?]. unfold MAX_STA_COUNT, chain_fuel in *. lia.
Qed.

Lemma hash_del_spec d l hs p s :
  table d l hs → heap d !! p = Some s →
  ∃ d1, Ap_sta_hash_del p d = Ret d1 ∧ linked d1 l (λ h, filter (λ q, q ≠ p) (hs h))
        ∧ unlink_frame d d1 ∧ sta_list d1 = sta_list d.
Proof.
  intros HT Hs. pose proof HT as [[Hl Hh] Hn Hd HhN Hhs Hlen Hnum Hu Hm Hb].
  set (h := STA_HASH (addr s)). pose proof (STA_HASH_lt _ (Hm p s Hs)) as Hlt. fold h in Hlt.
  destruct (at_idx_lt (sta_hash d) h) as (head & Hhd & Hhd'); [by rewrite Hlen|].
  assert (p ∈ hs h) as Hin by (apply Hhs; by exists s).
  pose proof (Hh h head Hhd') as Hc. pose proof (table_bucket_length d l hs h HT) as Hfuel.
  assert (∀ h', h' ≠ h → filter (λ q, q ≠ p) (hs h') = hs h') as Hother.
  { intros h' Hne. apply filter_all, list.Forall_forall. intros q Hq ->. apply Hhs in Hq as (s' & Hs' & E).
    rewrite Hs in Hs'. injection Hs' as <-. by destruct Hne. }
  unfold Ap_sta_hash_del. rewrite (proj2 (sta_at_Ret d p s) Hs). cbn [mbind outcome_bind]. fold h. rewrite Hhd. cbn [mbind outcome_bind].
  destruct (hs h) as [|x lh] eqn:Eh; [by apply not_elem_of_nil in Hin|].
  pose proof (HhN h) as HNh. rewrite Eh in HNh.
  pose proof Hc as (-> & sx & Hsx & Hcx). rewrite (proj2 (sta_at_Ret d x sx) Hsx). cbn [mbind outcome_bind].
  case_bool_decide as Ex.
  - assert (x = p) as -> by (by eapply Hu). eexists. split; [done|]. split; [|by split; [split; cbn; rewrite ?length_insert|]].
    split; [done|]. intros h' o Ho. cbn in Ho. cbn beta. destruct (decide (h' = h)) as [->|Hne].
    + rewrite list_lookup_insert_eq in Ho by (by rewrite Hlen). injection Ho as <-. rewrite Eh.
      by rewrite filter_ne_cons.
    + rewrite list_lookup_insert_ne in Ho by done. rewrite Hother by done. by apply Hh.
  - apply elem_of_cons in Hin as [->|Hin]; [congruence|].
    destruct (hash_before_spec chain_fuel (addr s) p x d lh s) as (l1 & t & l2 & El & Hr); try done; [cbn in Hfuel; lia| |].
    { intros q sq _ Hq E. by eapply Hu. }
    rewrite Hr. cbn [mbind outcome_bind]. rewrite (proj2 (sta_at_Ret d p s) Hs). cbn [mbind outcome_bind].
    assert (t ∈ hs h) as Htin by (rewrite Eh, El; apply elem_of_app; right; left).
    pose proof (proj1 (Hhs h t) Htin) as (st & Hst & Et).
    rewrite (upd_sta_Ret t _ d st Hst). eexists. split; [done|]. split; [|split; [by apply (set_sta_frame d t st)|done]]. split.
    + apply (chain_agree next (heap d)); [|done]. intros q _. cbn.
      destruct (decide (q = t)) as [->|]; [by rewrite lookup_insert_eq, Hst|by rewrite lookup_insert_ne].
    + intros h' o Ho. cbn in Ho |- *. destruct (decide (h' = h)) as [->|Hne].
      * rewrite Hhd' in Ho. injection Ho as <-. rewrite Eh, El.
        replace (l1 ++ t :: p :: l2) with ((l1 ++ [t]) ++ p :: l2) by (by rewrite <-app_assoc).
        rewrite El in Hc, HNh. rewrite filter_ne_app by (by rewrite <-app_assoc). rewrite <-app_assoc. cbn [app].
        by apply (chain_unlink hnext (heap d) (Some x) l1 t p l2 st s).
      * rewrite Hother by done. apply chain_insert; [|by apply Hh]. intros (st' & Hst' & E')%Hhs.
        rewrite Hst in Hst'. injection Hst' as <-. apply Hne. congruence.
Qed.

Lemma list_del_spec d l hs p :
  linked d l hs → NoDup l → (length l ≤ chain_fuel)%nat → p ∈ l →
  ∃ d1, Ap_sta_list_del p d = Ret d1 ∧ linked d1 (filter (λ q, q ≠ p) l) hs ∧ unlink_frame d d1.
Proof.
  intros [Hl Hh] HN Hlen Hp. destruct (chain_lookup _ _ _ _ _ Hl Hp) as [s Hs].
  unfold Ap_sta_list_del. rewrite (proj2 (sta_at_Ret d p s) Hs). cbn [mbind outcome_bind]. case_bool_decide as E.
  - destruct l as [|x l]; [by apply not_elem_of_nil in Hp|]. destruct Hl as (E' & sx & Hsx & Hl).
    rewrite E in E'. injection E' as <-. rewrite Hs in Hsx. injection Hsx as <-.
    eexists. split; [done|]. rewrite filter_ne_cons by done. by split; [split|].
  - destruct (list_before_spec chain_fuel p (sta_list d) d l Hl Hlen Hp E) as (l1 & t & l2 & El & ->). cbn [mbind outcome_bind].
    assert (t ∈ l) as Ht by (rewrite El; apply elem_of_app; right; left).
    destruct (chain_lookup _ _ _ _ _ Hl Ht) as [st Hst]. rewrite (upd_sta_Ret t _ d st Hst). eexists. split; [done|].
    split; [|by apply (set_sta_frame d t st)]. split.
    + cbn. rewrite El in HN |- *. replace (l1 ++ t :: p :: l2) with ((l1 ++ [t]) ++ p :: l2) in HN |- * by (by rewrite <-app_assoc).
      rewrite filter_ne_app by done. rewrite <-app_assoc in HN |- *. cbn [app] in *. rewrite El in Hl.
      by apply (chain_unlink next (heap d) (sta_list d) l1 t p l2 st s).
    + intros h o Ho. apply (chain_agree hnext (heap d)); [|by apply Hh]. intros q _. cbn.
      destruct (decide (q = t)) as [->|]; [by rewrite lookup_insert_eq, Hst|by rewrite lookup_insert_ne].
Qed.

(** Every timeout but the clocks of machines is still pending. *)
Definition keeps_timeouts d d' : Prop :=
  ∀ t, t ∈ timeouts (loop d) → handler t ≠ eapol_port_timers_tick_h → t ∈ timeouts (loop d').

Lemma free_station_spec d p s :
  heap d !! p = Some s → ∃ d', ieee802_1x_free_station p d = Ret d' ∧ same_links d d' ∧ keeps_timeouts d d'.
Proof.
  intros Hs. unfold ieee802_1x_free_station. rewrite (proj2 (sta_at_Ret d p s) Hs). cbn [mbind outcome_bind].
  rewrite (upd_sta_Ret p _ d s Hs). cbn [mbind outcome_bind].
  set (s1 := _ ⦃ eapol_key_crypt := None ⦄). set (d1 := set_sta d p s1).
  assert (same_links d d1) as H1 by (by apply (set_sta_links d p s)).
  assert (∃ d2, match eapol_sm s with Some _ => snd (eapol_sm_free (p, Ret d1)) | None => Ret d1 end = Ret d2
                ∧ same_links d1 d2 ∧ heap d2 !! p = Some s1 ∧ keeps_timeouts d1 d2) as (d2 & -> & H2 & Hs2 & Hk).
  { destruct (eapol_sm s).
    - exists (cancel_timeout eapol_port_timers_tick_h CApd (CSm p) d1). split; [done|].
      split; [apply (tx_rel_links (λ _, True) p), cancel_timeout_rel|]. rewrite cancel_timeout_eq. split; [apply lookup_insert_eq|].
      intros t Ht Hh. apply list_elem_of_filter. split; [|done]. unfold timeout_matches.
      rewrite (bool_decide_false (handler t = _)) by done. by intros [].
    - exists d1. split; [done|]. split; [done|]. split; [apply lookup_insert_eq|by intros t]. }
  cbn [mbind outcome_bind]. rewrite (upd_sta_Ret p _ d2 s1 Hs2).
  eexists. split; [done|]. split; [|exact Hk]. etrans; [exact H1|]. etrans; [exact H2|]. by apply (set_sta_links d2 p s1).
Qed.

(** Releasing a block that is linked nowhere. *)
Lemma table_delete d l hs p d4 :
  table d l hs → p ∈ l →
  linked d4 (filter (λ q, q ≠ p) l) (λ h, filter (λ q, q ≠ p) (hs h)) →
  addr <$> heap d4 = addr <$> heap d → length (sta_hash d4) = length (sta_hash d) →
  num_sta d4 = num_sta d - 1 → brk d4 = brk d →
  table (d4 ⦃ heap := delete p (heap d4) ⦄) (filter (λ q, q ≠ p) l) (λ h, filter (λ q, q ≠ p) (hs h)).
Proof.
  intros [_ Hn Hd HhN Hhs Hlen Hnum Hu Hm Hb] Hp Hlk4 A4 L4 N4 B4.
  assert (∀ q, addr <$> heap d4 !! q = addr <$> heap d !! q) as A by (intros q; by rewrite <-!lookup_fmap, A4).
  assert (∀ q x, heap d4 !! q = Some x → ∃ y, heap d !! q = Some y ∧ addr y = addr x) as A'.
  { intros q x Hq. specialize (A q). rewrite Hq in A. destruct (heap d !! q) as [y|]; [|done]. injection A as A. by exists y. }
  assert (∀ q x, delete p (heap d4) !! q = Some x → q ≠ p ∧ heap d4 !! q = Some x) as D by (intros q x [? ?]%lookup_delete_Some; auto).
  split; cbn [heap sta_list sta_hash num_sta brk set eta_daemon]; rewrite ?L4, ?N4, ?B4; [..|done| | | |].
  - destruct Hlk4 as [Hl4 Hh4]. split; cbn; [apply chain_delete; [|done]|intros h o Ho; apply chain_delete; [|by apply Hh4]];
      by intros [? _]%list_elem_of_filter.
  - by apply list.NoDup_filter.
  - intros q. rewrite list_elem_of_filter, Hd. destruct (decide (q = p)) as [->|Hne].
    + rewrite lookup_delete_eq. split; [by intros [? _]|by intros []].
    + rewrite lookup_delete_ne by done. rewrite <-!(fmap_is_Some addr), A. tauto.
  - intros h. by apply list.NoDup_filter.
  - intros h q. rewrite list_elem_of_filter, Hhs. split.
    + intros [Hne (y & Hy & E)]. specialize (A q). rewrite Hy in A. destruct (heap d4 !! q) as [x|] eqn:Hx; [|done].
      injection A as A. exists x. rewrite lookup_delete_ne by done. split; [done|]. by rewrite A.
    + intros (x & [Hne Hx]%D & E). split; [done|]. destruct (A' q x Hx) as (y & Hy & Ey). exists y. split; [done|]. by rewrite Ey.
  - destruct Hnum as [E ?].
    assert (length l = S (length (filter (λ q, q ≠ p) l))) as El.
    { apply list_elem_of_split in Hp as (l1 & l2 & ->). rewrite filter_ne_app by done. rewrite !length_app. cbn. lia. }
    rewrite E, El. split; [lia|]. unfold MAX_STA_COUNT in *. lia.
  - intros q1 q2 x1 x2 [_ Hx1]%D [_ Hx2]%D E. destruct (A' _ _ Hx1) as (y1 & Hy1 & E1), (A' _ _ Hx2) as (y2 & Hy2 & E2).
    apply (Hu q1 q2 y1 y2); [done..|]. congruence.
  - intros q x [_ Hx]%D. destruct (A' _ _ Hx) as (y & Hy & <-). by eapply Hm.
  - intros q [x [_ Hx]%D]. apply Hb. destruct (A' _ _ Hx) as (y & Hy & _). by exists y.
Qed.

Lemma free_sta_spec d l hs p s :
  table d l hs → heap d !! p = Some s →
  ∃ d', Ap_free_sta p d = Ret d'
        ∧ table d' (filter (λ q, q ≠ p) l) (λ h, filter (λ q, q ≠ p) (hs h))
        ∧ addr <$> heap d' = delete p (addr <$> heap d) ∧ keeps_timeouts d d'.
Proof.
  intros HT Hs. unfold Ap_free_sta.
  destruct (hash_del_spec d l hs p s HT Hs) as (d1 & -> & Hlk1 & [C1 N1 B1 L1 A1 T1] & _). cbn [mbind outcome_bind].
  assert (p ∈ l) as Hp by (rewrite (tb_dom _ _ _ HT); by exists s).
  destruct (list_del_spec d1 l _ p Hlk1 (tb_nodup _ _ _ HT)) as (d2 & -> & Hlk2 & [C2 N2 B2 L2 A2 T2]);
    [pose proof (table_bucket_length d l hs 0 HT); lia|done|]. cbn [mbind outcome_bind].
  set (d3 := d2 ⦃ num_sta := _ ⦄).
  assert (addr <$> heap d3 = addr <$> heap d) as A3 by (cbn; congruence).
  assert (is_Some (heap d3 !! p)) as [s3 Hs3].
  { rewrite <-(fmap_is_Some addr), <-lookup_fmap, A3, lookup_fmap, Hs. by eexists. }
  destruct (free_station_spec d3 p s3 Hs3) as (d4 & -> & Hsl & Hkt). cbn [mbind outcome_bind].
  pose proof (proj1 Hsl) as Hc. unfold core in Hc. injection Hc as Ec0 _ Ec1 Ec2 Ec3 Ec4 _.
  assert (addr <$> heap d4 = addr <$> heap d) as A4.
  { rewrite <-A3. apply map_eq. intros q. rewrite !lookup_fmap. by apply (same_links_field addr snd). }
  assert (is_Some (heap d4 !! p)) as [s4 Hs4].
  { rewrite <-(fmap_is_Some addr), <-lookup_fmap, A4, lookup_fmap, Hs. by eexists. }
  unfold free_sta. rewrite (proj2 (sta_at_Ret d4 p s4) Hs4). cbn [mbind outcome_bind]. eexists. split; [done|].
  split; [|split; [cbn; by rewrite fmap_delete, A4|intros t Ht Hh; apply Hkt; [|done]; cbn; congruence]].
  apply (table_delete d); [done|done| |done|rewrite Ec3; cbn; congruence|rewrite Ec1; cbn; congruence|rewrite Ec4; cbn; congruence].
  apply (linked_links d3); [done|]. by destruct Hlk2.
Qed.

Lemma chain_head f h o l : chain f h o l → o = head l.
Proof. destruct l; [done|]. by intros [-> _]. Qed.

Lemma free_stas_spec fuel d l hs :
  table d l hs → (length l ≤ fuel)%nat →
  ∃ d' hs', free_stas fuel (head l) d = Ret d' ∧ table d' [] hs'.
Proof.
  revert d l hs. induction fuel as [|fuel IH]; intros d l hs HT Hf; destruct l as [|p l]; try (cbn in Hf; lia);
    [exists d, hs; by split..|].
  cbn [free_stas head]. pose proof (lk_list _ _ _ (tb_linked _ _ _ HT)) as (_ & s & Hs & Hc).
  rewrite (proj2 (sta_at_Ret d p s) Hs). cbn [mbind outcome_bind].
  destruct (free_sta_spec d (p :: l) hs p s HT Hs) as (d1 & -> & HT1 & _). cbn [mbind outcome_bind].
  rewrite filter_ne_cons in HT1 by apply HT. rewrite (chain_head _ _ _ _ Hc). apply (IH d1 l _ HT1). cbn in Hf. lia.
Qed.

(** * New machines *)

(** Starting a machine sends nothing: it only starts its clock. *)
Lemma sm_alloc_calls {W} `{EapolEnv W} conf (w : W) :
  malloc_ok sizeof_eapol_state_machine = true →
  ∃ sm, eapol_sm_alloc conf w = Ret (Some (sm, eloop_register_tick (eloop_cancel_tick w))).
Proof.
  intros HM. unfold eapol_sm_alloc. rewrite HM. cbn [negb].
  assert (match eapol_sm_initialize (eapol_sm_defaults conf, w) with
          | Ret (_, w') => w' = eloop_register_tick (eloop_cancel_tick w)
          | _ => False
          end) as Hs.
  { destruct conf as [q n i]. unfold eapol_sm_defaults. cbn [EapolSm.session_timeout_set].
    destruct (n =? 1); vm_compute; reflexivity. }
  destruct (eapol_sm_initialize _) as [[sm w']| |]; [|done..]. subst w'. by exists sm.
Qed.

Lemma register_timeout_total secs h a b d :
  0 ≤ tv_usec (now d) < 1000000 → ∃ d', register_timeout secs h a b d = Ret d' ∧ heap d' = heap d.
Proof.
  intros Hu. unfold register_timeout, eloop_register_timeout. destruct (negb _); [by eexists|].
  rewrite (s32_id (tv_usec (now d) + 0)), Z.add_0_r by lia.
  rewrite carry_usec_spec by (unfold carry_fuel; lia). by eexists.
Qed.

Lemma alloc_machine_total p s d :
  0 ≤ tv_usec (now d) < 1000000 → heap d !! p = Some s → ∃ d', alloc_machine p d = Ret d'.
Proof.
  intros Hu Hs. unfold alloc_machine. destruct (malloc_ok sizeof_eapol_state_machine) eqn:HM.
  - destruct (sm_alloc_calls (daemon_sm_conf d) (p, Ret d) HM) as (sm & ->). cbn [mbind outcome_bind put_machine].
    set (d1 := cancel_timeout eapol_port_timers_tick_h CApd (CSm p) d).
    assert (now d1 = now d ∧ heap d1 = heap d) as [Hn Hh].
    { unfold d1, cancel_timeout. by destruct (eloop_cancel_timeout _ _ _ _). }
    destruct (register_timeout_total 1 eapol_port_timers_tick_h CApd (CSm p) d1) as (d2 & Hd2 & Hh2); [by rewrite Hn|].
    unfold put_machine. cbn [snd eloop_register_tick daemon_env on_daemon fst eloop_cancel_tick mbind outcome_bind]. fold d1.
    unfold put_machine. rewrite Hd2. cbn [mbind outcome_bind].
    rewrite (upd_sta_Ret p _ d2 s); [by eexists|]. by rewrite Hh2, Hh.
  - unfold eapol_sm_alloc. rewrite HM. cbn. rewrite (upd_sta_Ret p _ d s Hs). by eexists.
Qed.

Lemma new_station_total p s d :
  0 ≤ tv_usec (now d) < 1000000 → heap d !! p = Some s → eapol_sm s = None →
  ∃ d', ieee802_1x_new_station p d = Ret d' ∧ same_links d d'.
Proof.
  intros Hu Hs Hn.
  assert (∃ d', ieee802_1x_new_station p d = Ret d') as [d' Hd'].
  { unfold ieee802_1x_new_station. rewrite (proj2 (sta_at_Ret d p s) Hs). cbn [mbind outcome_bind]. rewrite Hn.
    destruct (alloc_machine_total p s d Hu Hs) as [d1 Hd1]. rewrite Hd1. cbn [mbind outcome_bind].
    destruct (same_links_lookup _ _ p s (same_links_sym _ _ (alloc_machine_links p d d1 Hd1)) Hs) as (s1 & Hs1 & _).
    rewrite (proj2 (sta_at_Ret d1 p s1) Hs1). cbn [mbind outcome_bind].
    destruct (eapol_sm s1) eqn:E; [|by eexists]. unfold upd_machine. rewrite (proj2 (sta_at_Ret d1 p s1) Hs1). cbn [mbind outcome_bind].
    rewrite E. by eexists. }
  exists d'. split; [done|]. by apply (new_station_links p).
Qed.

(** * The abstract map *)

(** [M] gives the station of each known address. *)
Definition stations d (M : gmap bytes ptr) : Prop :=
  (∃ l hs, table d l hs) ∧ ∀ mac p, M !! mac = Some p ↔ (addr <$> heap d) !! p = Some mac.

Lemma stations_size d M l hs : stations d M → table d l hs → size M = length l.
Proof.
  intros [_ HM] HT. rewrite <-length_map_to_list.
  assert (NoDup ((map_to_list M).*2)) as HN.
  { apply NoDup_fmap_2_strong; [|apply NoDup_map_to_list]. intros [m1 p1] [m2 p2] H1 H2 E. cbn in E. subst p2.
    apply elem_of_map_to_list, HM in H1, H2. congruence. }
  rewrite <-(length_fmap snd (map_to_list M)). apply Permutation_length, NoDup_Permutation; [done|apply HT|].
  intros p. rewrite (tb_dom _ _ _ HT), list_elem_of_fmap. split.
  - intros ([m q] & -> & Hin). apply elem_of_map_to_list, HM in Hin. cbn. rewrite lookup_fmap in Hin.
    by apply fmap_Some in Hin as (s & -> & _).
  - intros [s Hs]. exists (addr s, p). split; [done|]. apply elem_of_map_to_list, HM. by rewrite lookup_fmap, Hs.
Qed.

Lemma get_sta_lookup d l hs mac :
  table d l hs → mac_ok mac →
  ∃ head r, at_idx (sta_hash d) (STA_HASH mac) = Ret head ∧ hash_find chain_fuel mac head d = Ret r
    ∧ match r with
      | Some p => ∃ s, heap d !! p = Some s ∧ addr s = mac
      | None => ∀ p s, heap d !! p = Some s → addr s ≠ mac
      end.
Proof.
  intros HT Hmac. pose proof (STA_HASH_lt mac Hmac) as Hlt. pose proof HT as [[Hl Hh] Hn Hd HhN Hhs Hlen Hnum Hu Hm Hb].
  destruct (at_idx_lt (sta_hash d) (STA_HASH mac)) as (head & Hhd & Hhd'); [by rewrite Hlen|].
  pose proof (table_bucket_length d l hs (STA_HASH mac) HT).
  destruct (hash_find_spec chain_fuel mac head d (hs (STA_HASH mac))) as (r & Hr & Hspec); [by apply Hh|lia|].
  exists head, r. split; [done|]. split; [done|]. destruct r as [p|]; [by destruct Hspec|].
  intros p s Hs E. eapply Hspec; [apply Hhs; exists s; by rewrite E|done..].
Qed.

(** A new station, in a table with room. *)
Lemma get_sta_new d l hs M mac ap ety sock :
  stations d M → table d l hs → 0 ≤ tv_usec (now d) < 1000000 → mac_ok mac →
  (∀ p s, heap d !! p = Some s → addr s ≠ mac) → num_sta d < MAX_STA_COUNT →
  ∃ d' p,
    (let '(d, p) := alloc_sta (new_sta mac ap ety sock (sta_list d)) d in
     let d := d ⦃ sta_list := Some p ⦄ ⦃ num_sta := num_sta d + 1 ⦄ in
     let* d := Ap_sta_hash_add p d in
     let* d := ieee802_1x_new_station p d in
     Ret (d, Some p)) = Ret (d', Some p)
    ∧ stations d' (<[mac := p]> M) ∧ ∀ m, M !! m ≠ Some p.
Proof.
  intros [_ HM] HT Hu Hmac Hfresh Hroom.
  destruct (add_station d l hs mac ap ety sock HT Hmac Hfresh Hroom) as (d3 & s & Hadd & HT3 & Hh3 & Es & _ & Hn3 & Hsm).
  cbn [alloc_sta fst] in Hadd |- *. rewrite Hadd. cbn [mbind outcome_bind].
  destruct (new_station_total (brk d) s d3) as (d5 & Hd5 & Hl5); [by rewrite Hn3|rewrite Hh3; apply lookup_insert_eq|done|].
  rewrite Hd5. cbn [mbind outcome_bind]. exists d5, (brk d). split; [done|].
  assert (heap d !! brk d = None) as Hfr.
  { apply eq_None_not_Some. intros Hx. pose proof (tb_brk _ _ _ HT _ Hx). lia. }
  split; [split|].
  - eexists _, _. by apply (table_links d3).
  - assert (addr <$> heap d5 = <[brk d := mac]> (addr <$> heap d)) as ->.
    { rewrite <-Es, <-fmap_insert, <-Hh3. apply map_eq. intros q. rewrite !lookup_fmap. by apply (same_links_field addr snd). }
    intros m q. destruct (decide (m = mac)) as [->|Hm], (decide (q = brk d)) as [->|Hq];
      rewrite ?lookup_insert_eq, ?lookup_insert_ne by done; try done.
    + split; [by intros [= <-]|]. rewrite lookup_fmap. intros (x & Hx & E)%fmap_Some. by destruct (Hfresh q x Hx).
    + rewrite HM, lookup_fmap, Hfr. split; [done|]. intros [= E]. by destruct Hm.
  - intros m E. apply HM in E. by rewrite lookup_fmap, Hfr in E.
Qed.

(** C35. The table of stations implements a map from addresses to stations.  In
    a state that represents a map (the list and the hash chains consistent,
    each station once, at most 1024) [Ap_get_sta] finds the station of a known
    address and changes nothing; for a new address it refuses when the table is
    full or memory is short, and otherwise returns a new station, in a state
    that represents the map with it added; [Ap_free_sta] removes exactly its
    station and [Apd_free_stas] all of them.  All of them return. *)
Theorem sta_table_refines_map d M :
  stations d M → 0 ≤ tv_usec (now d) < 1000000 →
  (∀ mac ap ety sock, mac_ok mac →
     match M !! mac with
     | Some p => Ap_get_sta mac ap ety sock d = Ret (d, Some p)
     | None =>
         if (MAX_STA_COUNT <=? Z.of_nat (size M)) || negb (malloc_ok sizeof_sta_info)
         then Ap_get_sta mac ap ety sock d = Ret (d, None)
         else ∃ d' p, Ap_get_sta mac ap ety sock d = Ret (d', Some p) ∧ stations d' (<[mac := p]> M)
                      ∧ ∀ m, M !! m ≠ Some p
     end)
  ∧ (∀ mac p, M !! mac = Some p → ∃ d', Ap_free_sta p d = Ret d' ∧ stations d' (delete mac M))
  ∧ ∃ d', Apd_free_stas d = Ret d' ∧ stations d' ∅.
Proof.
  intros HS Hu. pose proof HS as [(l & hs & HT) HM]. split; [|split].
  - intros mac ap ety sock Hmac. destruct (get_sta_lookup d l hs mac HT Hmac) as (head & r & Hhd & Hr & Hspec).
    unfold Ap_get_sta. rewrite Hhd. cbn [mbind outcome_bind]. rewrite Hr. cbn [mbind outcome_bind]. destruct r as [p|].
    { destruct Hspec as (s & Hs & E). assert (M !! mac = Some p) as -> by (apply HM; by rewrite lookup_fmap, Hs, <-E). done. }
    destruct (M !! mac) as [p|] eqn:Em.
    { apply HM in Em. rewrite lookup_fmap in Em. apply fmap_Some in Em as (s & Hs & E). by destruct (Hspec p s Hs). }
    destruct (tb_num _ _ _ HT) as [Hnum _]. rewrite (stations_size d M l hs HS HT), <-Hnum.
    destruct (Z.leb_spec MAX_STA_COUNT (num_sta d)); cbn [orb]; [done|].
    destruct (malloc_ok sizeof_sta_info); cbn [negb]; [|done].
    by apply (get_sta_new d l hs M).
  - intros mac p E. pose proof E as E'. apply HM in E'. rewrite lookup_fmap in E'. apply fmap_Some in E' as (s & Hs & ->).
    destruct (free_sta_spec d l hs p s HT Hs) as (d' & Hd' & HT' & Hh' & _). exists d'. split; [done|].
    split; [by eauto|]. intros m q. rewrite Hh'. destruct (decide (q = p)) as [->|Hq].
    + rewrite (lookup_delete_eq _ p). split; [|done]. intros [Hne Hm]%lookup_delete_Some. apply HM in Hm.
      rewrite lookup_fmap, Hs in Hm. by injection Hm.
    + rewrite (lookup_delete_ne _ p q) by done. rewrite <-HM. split; [by intros [_ ?]%lookup_delete_Some|].
      intros Hm. apply lookup_delete_Some. split; [|done]. intros <-. congruence.
  - unfold Apd_free_stas. rewrite (chain_head _ _ _ _ (lk_list _ _ _ (tb_linked _ _ _ HT))).
    destruct (free_stas_spec chain_fuel d l hs HT) as (d' & hs' & -> & HT').
    { pose proof (table_bucket_length d l hs 0 HT). lia. }
    exists d'. split; [done|]. split; [by eauto|]. intros m q. rewrite lookup_empty, lookup_fmap. split; [done|].
    intros (s & Hs & _)%fmap_Some. assert (q ∈ []) as Hq by (apply (tb_dom _ _ _ HT'); by exists s). by apply not_elem_of_nil in Hq.
Qed.

(** [Ap_free_sta] does not cancel the session timer of its station: the
    timeout stays in the queue of the event loop, and when it fires
    [Ap_handle_session_timer] reads the released station. *)
Theorem session_timer_use_after_free d M mac p t :
  stations d M → M !! mac = Some p → malloc_ok (sizeof_ieee8023_hdr + 2) = true →
  t ∈ timeouts (loop d) → handler t = Ap_handle_session_timer_h → user_data t = CSta p →
  ∃ d', Ap_free_sta p d = Ret d' ∧ t ∈ timeouts (loop d') ∧ Ap_handle_session_timer p d' = Oob.
Proof.
  intros [(l & hs & HT) HM] Hp HMal Ht Hh _. apply HM in Hp. rewrite lookup_fmap in Hp. apply fmap_Some in Hp as (s & Hs & _).
  destruct (free_sta_spec d l hs p s HT Hs) as (d' & Hd' & _ & Hh' & Hk). exists d'. split; [done|].
  split; [apply Hk; [done|by rewrite Hh]|]. unfold Ap_handle_session_timer, sta_at. rewrite HMal. cbn [negb].
  assert (heap d' !! p = None) as ->; [|done].
  apply (f_equal (.!! p)) in Hh'. rewrite lookup_delete_eq, lookup_fmap in Hh'. by apply fmap_None in Hh'.
Qed.

Lemma session_timeout_links p secs d d' : Ap_sta_session_timeout p secs d = Ret d' → same_links d d'.
Proof.
  unfold Ap_sta_session_timeout. intros Hd. etrans; [apply (tx_rel_links (λ _, True) p), cancel_timeout_rel|].
  by apply (tx_rel_links (λ _, True) p), (register_timeout_rel _ p secs Ap_handle_session_timer_h CApd (CSta p)).
Qed.

Lemma stations_links d d' M : same_links d d' → stations d M → stations d' M.
Proof.
  intros Hs [(l & hs & HT) HM]. split; [eexists _, _; by apply (table_links d)|]. intros mac p. rewrite HM.
  by rewrite !lookup_fmap, (same_links_field addr snd d d').
Qed.

(** A daemon that knows no station. *)
Lemma stations_empty d :
  heap d = ∅ → sta_list d = None → num_sta d = 0 → sta_hash d = replicate STA_HASH_SIZE None → stations d ∅.
Proof.
  intros Hh Hl Hn Hs. split.
  - exists [], (λ _, []). split; rewrite ?Hn; [|constructor| | | |by rewrite Hs| | | |].
    + split; [by rewrite Hl|]. intros h o Ho. rewrite Hs in Ho. by apply lookup_replicate_1 in Ho as [-> _].
    + intros p. rewrite Hh, lookup_empty. split; [by intros ?%not_elem_of_nil|by intros []].
    + constructor.
    + intros h p. rewrite Hh. split; [by intros ?%not_elem_of_nil|by intros (? & ? & _)].
    + by split.
    + intros p q s s'. by rewrite Hh.
    + intros p s. by rewrite Hh.
    + intros p. rewrite Hh. by intros [].
  - intros mac p. rewrite Hh, lookup_empty, lookup_fmap, lookup_empty. done.
Qed.

End Ops.

(** * Concrete runs *)

#[local] Program Instance demo_world : World :=
  {| ret_of := λ _, 0; rand_of := λ _ n, Some (replicate n 7);
     config_answer := λ _, None; config_rand := λ _ _, replicate 13 0; hwaddr_of := λ _, None |}.
Next Obligation. intros _ n b [= <-]. split; [apply length_replicate|by apply bytes_ok_replicate]. Qed.
#[local] Instance demo_malloc : Malloc := λ _, true.

Definition empty_daemon : daemon :=
  mk_daemon (default_config (λ _, replicate 13 0)) (replicate 8 [0; 12; 67; 1; 2; 3]) None 0 None
    (replicate STA_HASH_SIZE None) ∅ 1%nat (eloop_init CApd) (mk_timeval 1000 0) [] (replicate 8 (-1)) (replicate 8 (-1)) 5.
Definition demo_mac : bytes := [0; 17; 34; 51; 68; 85].

Lemma demo_mac_ok : mac_ok demo_mac.
Proof. split; [reflexivity|]. repeat constructor; cbv; (done || lia). Qed.

Lemma empty_stations : stations empty_daemon ∅.
Proof. by apply stations_empty. Qed.

Lemma sta_table_refines_map_witness :
  ∃ d' p, Ap_get_sta demo_mac 0 ETH_P_PAE 3 empty_daemon = Ret (d', Some p) ∧ stations d' (<[demo_mac := p]> ∅).
Proof.
  destruct (sta_table_refines_map empty_daemon ∅ empty_stations) as [Hget _]; [cbn; lia|].
  destruct (Hget demo_mac 0 ETH_P_PAE 3 demo_mac_ok) as (d' & p & Hd & Hs & _).
  exists d', p. split; [exact Hd|exact Hs].
Defined.

Definition demo_timeout (p : ptr) : eloop_timeout timeout_handler ctx :=
  mk_timeout (mk_timeval 1060 0) CApd (CSta p) Ap_handle_session_timer_h.

(** A station with a session of a minute. *)
Lemma demo_session :
  ∃ d p, stations d (<[demo_mac := p]> ∅) ∧ demo_timeout p ∈ timeouts (loop d).
Proof.
  destruct empty_stations as [(l & hs & HT) HM].
  destruct (get_sta_new empty_daemon l hs ∅ demo_mac 0 ETH_P_PAE 3) as (d1 & p & Hd1 & HS1 & _);
    [exact empty_stations|exact HT|cbn; lia|exact demo_mac_ok|by intros ? ?|done|].
  vm_compute in Hd1. injection Hd1 as Hd1 Hp. 
  destruct (Ap_sta_session_timeout p 60 d1) as [d2| |] eqn:E2; subst d1 p; [|vm_compute in E2; discriminate..].
  eexists d2, _. split; [apply (stations_links _ d2 _ (session_timeout_links _ _ _ _ E2) HS1)|].
  vm_compute in E2. injection E2 as <-. vm_compute. apply list_elem_of_lookup_2 with (i := 1%nat). reflexivity.
Qed.

Lemma session_timer_use_after_free_witness :
  ∃ d p d', demo_timeout p ∈ timeouts (loop d) ∧ Ap_free_sta p d = Ret d' ∧ demo_timeout p ∈ timeouts (loop d')
            ∧ Ap_handle_session_timer p d' = Oob.
Proof.
  destruct demo_session as (d & p & HS & Ht).
  destruct (session_timer_use_after_free d _ demo_mac p (demo_timeout p) HS) as (d' & H1 & H2 & H3);
    [apply lookup_insert_eq|reflexivity|exact Ht|reflexivity|reflexivity|].
  exists d, p, d'. split; [exact Ht|]. split; [exact H1|]. split; [exact H2|exact H3].
Defined.
