(* ===== verification/Ieee8021x.v ===== *)
(** What the 802.1X daemon receives ([user/802.1x/ieee802_1x.c]): EAPOL frames
    from stations and answers from the RADIUS server.

    A received frame is a pointer into the receive buffer of the caller: the
    list of the bytes from there to the end of that buffer, whatever the length
    of the frame, which comes as a [size_t] of its own. *)

From S2P Require Import Prelude EapolSm Md5 Radius Eloop Dot1xConfig Rtapd RadiusClient Ieee8021xTx StaInfo.

Definition RADIUS_TERMINATION_ACTION_DEFAULT : Z := 0.
Definition RADIUS_TERMINATION_ACTION_RADIUS_REQUEST : Z := 1.
Definition DEFAULT_IDLE_INTERVAL : Z := 60.
Definition LENGTH_802_1_H : nat := 8.
Definition LENGTH_8021X_HDR : nat := 4.
Definition SNAP_802_1H : bytes := [0xaa; 0xaa; 0x03; 0x00; 0x00; 0x00].

(** [char] is signed on the target. *)
Definition s8 (b : Z) : Z := if b <? 128 then b else b - 256.

(** 0: equal, 1: the first is larger, 2: the second is. *)
Fixpoint RTMPCompareMemory (pSrc1 pSrc2 : bytes) (Length : nat) : outcome Z :=
  match Length with
  | O => Ret 0
  | S Length =>
      match pSrc1, pSrc2 with
      | a :: pSrc1, b :: pSrc2 =>
          if s8 b <? s8 a then Ret 1
          else if s8 a <? s8 b then Ret 2
          else RTMPCompareMemory pSrc1 pSrc2 Length
      | _, _ => Oob
      end
  end.

Section Rx.
Context `{World} `{Malloc}.
Implicit Types d : daemon.

(** * From the supplicant *)

(** The identity of the supplicant, and the machine's flag. *)
Definition take_identity (p : ptr) (id : bytes) d : outcome daemon :=
  let* d := upd_machine p (λ sm, sm ⦃ auth_pae / rxInitialRsp := true ⦄) d in
  upd_sta p (λ s, s ⦃ identity := if malloc_ok (Z.of_nat (length id)) then Some id else None ⦄) d.

(** [eap] starts at the EAP header, the data behind it has [len] bytes. *)
Definition handle_eap_response (p : ptr) (eap : bytes) (len : nat) d : outcome daemon :=
  let* s := sta_at d p in
  match eapol_sm s with
  | None => Oob
  | Some sm =>
      let* identifier := byte_at eap 1 in
      if negb (identifier =? currentId sm) then Ret d
      else if decide (len < 1)%nat then Ret d
      else if negb (malloc_ok (sizeof_eap_hdr + Z.of_nat len)) then
        upd_sta p (λ s, s ⦃ last_eap_supp := None ⦄) d
      else
        let* supp := load eap 0 (4 + len) in
        let* d := upd_sta p (λ s, s ⦃ last_eap_supp := Some supp ⦄) d in
        let* type := byte_at eap 4 in
        if type =? EAP_TYPE_IDENTITY then
          let* id := load eap 5 (len - 1) in
          take_identity p id d
        else
          upd_machine p (λ sm,
            let sm := if negb (type =? EAP_TYPE_NAK)
                      then sm ⦃ be_auth / backendNonNakResponsesFromSupplicant :=
                                  incr (backendNonNakResponsesFromSupplicant (be_auth sm)) ⦄
                      else sm in
            sm ⦃ be_auth / rxResp := true ⦄) d
  end.

Definition handle_eap (p : ptr) (buf : bytes) (len : Z) d : outcome daemon :=
  if len <? sizeof_eap_hdr then Ret d
  else
    let* code := byte_at buf 0 in
    let* l := load buf 2 2 in
    let eap_len := of_be l in
    if eap_len <? sizeof_eap_hdr then Ret d
    else if len <? eap_len then Ret d
    else if code =? EAP_CODE_RESPONSE then handle_eap_response p buf (Z.to_nat (eap_len - 4)) d
    else Ret d.

(** The EAPOL packet types; [len] counts from [buf]. *)
Definition dispatch_eapol (p : ptr) (type : Z) (buf : bytes) (datalen : Z) d : outcome daemon :=
  if type =? IEEE802_1X_TYPE_EAP_PACKET then handle_eap p (drop LENGTH_8021X_HDR buf) datalen d
  else if type =? IEEE802_1X_TYPE_EAPOL_START then
    let* d := upd_machine p (λ sm, sm ⦃ auth_pae / eapStart := true ⦄) d in step_machine p d
  else if type =? IEEE802_1X_TYPE_EAPOL_LOGOFF then
    let* d := upd_machine p (λ sm, sm ⦃ auth_pae / eapLogoff := true ⦄) d in step_machine p d
  else Ret d.

Definition ieee802_1x_receive (sa : bytes) (apidx : Z) (buf : bytes) (len ethertype SockNum : Z) d :
    outcome daemon :=
  let* (d, sta) := Ap_get_sta sa apidx ethertype SockNum d in
  match sta with
  | None => Ret d
  | Some p =>
      let* snap := RTMPCompareMemory buf SNAP_802_1H 6 in
      let buf := if snap =? 0 then drop LENGTH_802_1_H buf else buf in
      let* hdr := load buf 0 4 in
      let version := idx hdr 0 in
      let type := idx hdr 1 in
      let datalen := of_be (drop 2 hdr) in
      if u32 (len - sizeof_ieee802_1x_hdr) <? datalen then Ret d
      else
        let* s := sta_at d p in
        let* d := match eapol_sm s with Some _ => Ret d | None => alloc_machine p d end in
        let* s := sta_at d p in
        match eapol_sm s with
        | None => Ret d
        | Some _ =>
            if negb (ethertype =? ETH_P_PAE) && negb (ethertype =? ETH_P_PRE_AUTH) then Ret d
            else if negb (version =? EAPOL_VERSION) && negb (version =? EAPOL_VERSION_2) then Ret d
            else
              let* d := dispatch_eapol p type buf datalen d in
              step_machine p d
        end
  end.

(** * From the server *)

Definition ieee802_1x_decapsulate_radius (p : ptr) d : outcome daemon :=
  let* s := sta_at d p in
  match last_recv_radius s with
  | None => Ret d
  | Some msg =>
      let* eap := Radius_msg_get_eap msg in
      match eap with
      | None => upd_sta p (λ s, s ⦃ last_eap_radius := None ⦄) d
      | Some eap =>
          if decide (length eap < 4)%nat then Ret d
          else
            let* d := upd_machine p (λ sm, sm ⦃ be_auth / idFromServer := idx eap 1 ⦄) d in
            upd_sta p (λ s, s ⦃ last_eap_radius := Some eap ⦄) d
      end
  end.

(** The key handed to the driver: 32 bytes of it, or one. *)
Definition pmk_material (s : sta_info) (recv send : bytes) : outcome (bytes * Z) :=
  let n := length recv in
  let* k := load recv 0 (if decide (n = 32%nat) then 32 else 1) in
  let* material := store (replicate 64 0) 0 k in
  if negb (ethertype s =? ETH_P_PRE_AUTH) && bool_decide (n = 32%nat) && bool_decide (length send = 32%nat) then
    let* material := store material 32 (take 32 send) in Ret (material, Z.of_nat n + 32)
  else Ret (material, Z.of_nat n).

Definition ieee802_1x_get_keys (p : ptr) (msg req : radius_msg) (secret : bytes) d : outcome daemon :=
  let* keys := Radius_msg_get_ms_keys (Some msg) (Some req) secret in
  match keys with
  | None => Ret d
  | Some keys =>
      match mppe_recv keys with
      | None | Some [] => Ret d
      | Some recv =>
          let* s := sta_at d p in
          let* (material, keylen) := pmk_material s recv (default [] (mppe_send keys)) in
          let '(d, ok) := install_key s (ndis_key (addr s) 0 keylen material) d in
          if negb ok then Ret d
          else
            match mppe_send keys with
            | None => Ret d
            | Some send =>
                let* d := upd_sta p (λ s, s ⦃ eapol_key_sign := Some send ⦄ ⦃ eapol_key_crypt := Some recv ⦄) d in
                upd_machine p (λ sm, sm ⦃ keyAvailable := true ⦄) d
            end
      end
  end.

(** [dot1x_set_IdleTimeoutAction] of [rtdot1x.c] *)
Definition dot1x_set_IdleTimeoutAction (p : ptr) (idle_timeout : Z) d : outcome daemon :=
  let* s := sta_at d p in
  let t := if idle_timeout <? DEFAULT_IDLE_INTERVAL then DEFAULT_IDLE_INTERVAL else idle_timeout in
  let '(d, _) := RT_ioctl RT_OID_802_DOT1X_IDLE_TIMEOUT (ApIdx s) (addr s ++ le32 t) d in
  Ret d.

(** Whether an answer is accepted: a reject that carries neither an EAP message
    nor a Message-Authenticator is not verified. *)
Definition answer_ok (msg req : radius_msg) (secret : bytes) : outcome (radius_msg * bool) :=
  let* (ma, _) := Radius_msg_get_attr msg RADIUS_ATTR_MESSAGE_AUTHENTICATOR 0 in
  let* (em, _) := Radius_msg_get_attr msg RADIUS_ATTR_EAP_MESSAGE 0 in
  if (hdr_code msg =? RADIUS_CODE_ACCESS_REJECT) && (ma <? 0) && (em <? 0) then Ret (msg, true)
  else let* (msg, res) := Radius_msg_verify msg secret (Some req) in Ret (msg, res =? 0).

(** The session of an accepted station; [true] is [free_flag]. *)
Definition accept_session (p : ptr) (session_timeout : option Z) (termination_action : Z) d : outcome (daemon * bool) :=
  match session_timeout with
  | Some t =>
      if termination_action =? RADIUS_TERMINATION_ACTION_RADIUS_REQUEST then
        let* d := upd_machine p (λ sm, sm ⦃ reauth_timer / reAuthPeriod := t ⦄) d in Ret (d, false)
      else if session_timeout_set (conf d) =? 1 then
        let limit := u32 (session_timeout_interval (conf d)) in
        let* d := Ap_sta_session_timeout p (if t <? limit then t else limit) d in Ret (d, false)
      else let* d := Ap_sta_session_timeout p t d in Ret (d, false)
  | None =>
      if session_timeout_set (conf d) =? 1 then
        let* d := Ap_sta_session_timeout p (u32 (session_timeout_interval (conf d))) d in Ret (d, false)
      else Ret (d, true)
  end.

(** The switch over the code of the answer. *)
Definition apply_answer (p : ptr) (msg req : radius_msg) (secret : bytes) (session_timeout idle_timeout : option Z)
    (termination_action : Z) d : outcome (daemon * bool) :=
  if hdr_code msg =? RADIUS_CODE_ACCESS_ACCEPT then
    let* (d, free_flag) := accept_session p session_timeout termination_action d in
    let* d := upd_machine p (λ sm, sm ⦃ be_auth / aSuccess := true ⦄) d in
    let* d := match idle_timeout with Some t => dot1x_set_IdleTimeoutAction p t d | None => Ret d end in
    let* d := ieee802_1x_get_keys p msg req secret d in
    Ret (d, free_flag)
  else if hdr_code msg =? RADIUS_CODE_ACCESS_REJECT then
    let* d := upd_machine p (λ sm, sm ⦃ be_auth / aFail := true ⦄) d in Ret (d, false)
  else
    let* d := match session_timeout with
              | Some t => upd_machine p (λ sm, sm ⦃ be_auth / suppTimeout := t ⦄) d
              | None => Ret d
              end in
    let* d := upd_machine p (λ sm, sm ⦃ be_auth / aReq := true ⦄) d in
    Ret (d, false).

Definition known_code (msg : radius_msg) : bool :=
  (hdr_code msg =? RADIUS_CODE_ACCESS_ACCEPT) || (hdr_code msg =? RADIUS_CODE_ACCESS_REJECT)
  || (hdr_code msg =? RADIUS_CODE_ACCESS_CHALLENGE).

Definition ieee802_1x_receive_auth (msg req : radius_msg) (shared_secret : option bytes) (shared_secret_len : Z) d :
    outcome (daemon * RadiusRxResult) :=
  let* sta := Ap_get_sta_radius_identifier (hdr_identifier msg) d in
  match sta with
  | None => Ret (d, RADIUS_RX_UNKNOWN)
  | Some p =>
      let* secret := secret_bytes shared_secret shared_secret_len in
      let* (msg, valid) := answer_ok msg req secret in
      if negb valid then Ret (d, RADIUS_RX_UNKNOWN)
      else if negb (known_code msg) then Ret (d, RADIUS_RX_UNKNOWN)
      else
        let* d := upd_sta p (λ s, s ⦃ radius_identifier := -1 ⦄ ⦃ last_recv_radius := Some msg ⦄) d in
        let* session_timeout := Radius_msg_get_attr_int32 msg RADIUS_ATTR_SESSION_TIMEOUT in
        let* action := Radius_msg_get_attr_int32 msg RADIUS_ATTR_TERMINATION_ACTION in
        let* idle_timeout := Radius_msg_get_attr_int32 msg RADIUS_ATTR_IDLE_TIMEOUT in
        let* (d, free_flag) :=
          apply_answer p msg req secret session_timeout idle_timeout
            (default RADIUS_TERMINATION_ACTION_DEFAULT action) d in
        let* d := ieee802_1x_decapsulate_radius p d in
        let* d := step_machine p d in
        let* d := (if (free_flag : bool) then Ap_free_sta p d else Ret d) in
        Ret (d, RADIUS_RX_QUEUED)
  end.

Definition run_rx_handler (h : rx_handler) (msg req : radius_msg) (secret : option bytes) (len : Z) d :
    outcome (daemon * RadiusRxResult) :=
  match h with ieee802_1x_receive_auth_handler => ieee802_1x_receive_auth msg req secret len d end.

Definition ieee802_1x_init d : outcome (daemon * Z) :=
  let* (d, res) := Radius_client_register ieee802_1x_receive_auth_handler d in
  Ret (d, if res =? 0 then 0 else -1).

End Rx.
