(* ===== verification/Rtdot1x.v ===== *)
(** The 802.1X daemon itself ([user/802.1x/rtdot1x.c]): reception of frames,
    commands of the driver, signals, the dispatch of the event loop to the
    handlers, and [main] with the setting up before its loop.

    The argument of the handlers is the one [rtapd] there is, in the code also
    reached through [struct hapd_interfaces].

    The receive buffer of [Handle_read] is an array on the stack: what [recv]
    does not write is what was there before, the argument [stack]. *)

From S2P Require Import Prelude EapolSm Md5 Radius KernelNvram Eloop Dot1xConfig Rtapd RadiusClient Ieee8021xTx StaInfo Ieee8021x.

Definition ETH_P_VLAN : Z := 0x8100.
Definition sizeof_priv_rec : Z := 15.
Definition RalinkIe : bytes := [221; 7; 0x00; 0x0c; 0x43; 0x00; 0x00; 0x00; 0x00].
Definition DOT1X_DISCONNECT_ENTRY : Z := 0.
Definition DOT1X_RELOAD_CONFIG : Z := 1.

Section Daemon.
Context `{World} `{Malloc}.
Implicit Types d : daemon.

Definition Handle_term d : daemon := d ⦃ loop := eloop_terminate (loop d) ⦄.

(** The body of [Handle_reload_config], and of [Handle_usr1] for the one
    interface there is. *)
Definition Handle_reload_config d : outcome daemon :=
  let* (d, newconf) := read_config d in
  match newconf with
  | None => Ret d
  | Some newconf =>
      let d := Radius_client_flush d in
      let d := d ⦃ conf := newconf ⦄ in
      let* d := Apd_free_stas d in
      let* d := upd_radius (λ c, c ⦃ mbss_auth_serv_sock := replicate MAX_MBSSID_NUM (-1) ⦄) d in
      let* (d, _) := Radius_client_init d in
      Ret d
  end.

Definition Handle_usr1 d : outcome daemon := Handle_reload_config d.

(** The index of the interface a frame is for; [None] when there is none. *)
Fixpoint find_apidx (todo i : nat) (da : bytes) (own : list bytes) : outcome (option nat) :=
  match todo with
  | O => Ret None
  | S todo =>
      let* a := at_idx own i in
      if bool_decide (da = a) then Ret (Some i) else find_apidx todo (S i) da own
  end.

(** A command of the driver, [pos] behind the header. *)
Definition internal_command (sa pos : bytes) d : outcome daemon :=
  let* icmd := byte_at pos 5 in
  if icmd =? DOT1X_DISCONNECT_ENTRY then
    let* head := at_idx (sta_hash d) (STA_HASH sa) in
    let* s := hash_find chain_fuel sa head d in
    match s with
    | Some p => Ap_free_sta p d
    | None => Ret d
    end
  else if icmd =? DOT1X_RELOAD_CONFIG then Handle_reload_config d
  else Ret d.

(** The type of the frame behind a VLAN tag, and whether there is a tag. *)
Definition frame_type (buf : bytes) (left : Z) : outcome (Z * bool) :=
  let* e := load buf 12 2 in
  let ethertype := of_be e in
  if ethertype =? ETH_P_VLAN then
    let* e := load buf 16 2 in
    let ethertype := if 4 <=? left then of_be e else ethertype in
    Ret (ethertype, (ethertype =? ETH_P_PRE_AUTH) || (ethertype =? ETH_P_PAE))
  else Ret (ethertype, false).

(** [frame] is what [recv] returns, [None] for an error. *)
Definition Handle_read (stack : bytes) (frame : option bytes) (sock : Z) d : outcome daemon :=
  match frame with
  | None => Ret (Handle_term d)
  | Some frame =>
      let data := take recv_size frame in
      let buf := splice (take recv_size stack) 0 data in
      let left := u32 (Z.of_nat (length data) - sizeof_priv_rec + 1) in
      if left <=? 0 then Ret d
      else
        let* da := load buf 0 6 in
        let* sa := load buf 6 6 in
        let* (ethertype, isVlanTag) := frame_type buf left in
        if negb (ethertype =? ETH_P_PRE_AUTH) && negb (ethertype =? ETH_P_PAE) then Ret d
        else
          let* found := find_apidx (Z.to_nat (SsidNum (conf d))) 0 da (own_addr d) in
          match found with
          | None => Ret d
          | Some apidx =>
              let pos := drop (if (isVlanTag : bool) then 18 else 14) buf in
              let left := if (isVlanTag : bool) then u32 (left - 4) else left in
              let* same := (if left =? Z.of_nat (length RalinkIe)
                            then RTMPCompareMemory pos RalinkIe 5 else Ret 1) in
              if same =? 0 then internal_command sa pos d
              else ieee802_1x_receive sa (Z.of_nat apidx) pos left ethertype sock d
          end
  end.

(** Closing the sockets of one array, [-1] for none. *)
Definition close_socks (socks : list Z) d : daemon :=
  foldl (λ d s, if 0 <=? s then fst (call_out (Close s) d) else d) d socks.

(** The configuration and the prefix are released last. *)
Definition Apd_cleanup d : daemon :=
  let d := foldl (λ d i, close_socks [nth i (wlan_sock d) (-1); nth i (eth_sock d) (-1)] d) d (seq 0 MAX_MBSSID_NUM) in
  let d := close_socks [ioctl_sock d] d in
  Radius_client_deinit d.

(** * Dispatch *)

Definition call_timeout (t : eloop_timeout timeout_handler ctx) d : outcome daemon :=
  match handler t, user_data t with
  | Radius_client_timer_h, _ => Radius_client_timer d
  | Radius_retry_primary_timer_h, _ => Radius_retry_primary_timer d
  | Ap_handle_session_timer_h, CSta p => Ap_handle_session_timer p d
  | eapol_port_timers_tick_h, CSm p => tick_machine p d
  | _, _ => Oob
  end.

Definition call_signal (s : eloop_signal signal_handler ctx) (_ : ctx) d : outcome daemon :=
  match sig_handler s with
  | Handle_term_h => Ret (Handle_term d)
  | Handle_usr1_h => Handle_usr1 d
  end.

(** * Everything that can happen to the daemon *)

(** What one pass of the event loop brings: the time, the first timeout when
    it is due, a frame or a datagram that [recv] returns, a signal. *)
Inductive daemon_event :=
| EvClock (t : timeval)
| EvTimeout
| EvFrame (stack : bytes) (frame : option bytes) (sock : Z)
| EvDatagram (datagram : option bytes)
| EvSignal (s : Z).

Definition handle_event (ev : daemon_event) d : outcome daemon :=
  match ev with
  | EvClock t => Ret (d ⦃ now := t ⦄)
  | EvTimeout => run_first_timeout loop (λ e d, d ⦃ loop := e ⦄) call_timeout (now d) d
  | EvFrame stack frame sock => Handle_read stack frame sock d
  | EvDatagram datagram => Radius_client_receive run_rx_handler datagram d
  | EvSignal s => eloop_handle_signal loop call_signal s d
  end.

Fixpoint handle_events (evs : list daemon_event) d : outcome daemon :=
  match evs with
  | [] => Ret d
  | ev :: evs => let* d := handle_event ev d in handle_events evs d
  end.

(** * Starting *)

Definition ARPHRD_ETHER : Z := 1.
Definition sizeof_rtapd : Z := 2184.

(** [strcpy(ifr.ifr_name, name)]: the string in the array, which must fit with
    its NUL. *)
Definition ifr_name (name : bytes) : outcome bytes :=
  let* s := cstr name in
  if decide (length s < IFNAMSIZ)%nat then Ret s else Oob.

(** The slot [i] of an array of [MAX_MBSSID_NUM]. *)
Definition set_slot {A} (l : list A) (i : nat) (a : A) : outcome (list A) :=
  if decide (i < length l)%nat then Ret (<[i := a]> l) else Oob.

(** A raw socket that is open: it is registered, and bound to its interface. *)
Definition bind_raw (s : Z) (name : outcome bytes) d : outcome (daemon * Z) :=
  let '(e, res) := eloop_register_read_sock s Handle_read_h CApd CNull (loop d) in
  let d := d ⦃ loop := e ⦄ in
  if negb (res =? 0) then Ret (d, -1)
  else
    let* name := name in
    let* name := ifr_name name in
    let '(d, res) := call_out (IfIndex s name) d in
    if negb (res =? 0) then Ret (d, -1)
    else
      let '(d, res) := call_out (Bind s) d in
      if res <? 0 then Ret (d, -1) else Ret (d, 0).

(** The loops over the pre-authentication and over the EAP interfaces. *)
Fixpoint open_eth (todo i : nat) d : outcome (daemon * Z) :=
  match todo with
  | O => Ret (d, 0)
  | S todo =>
      let '(d, s) := call_out Socket d in
      let* socks := set_slot (eth_sock d) i s in
      let d := d ⦃ eth_sock := socks ⦄ in
      if s <? 0 then Ret (d, -1)
      else
        let* (d, res) := bind_raw s (at_idx (preauth_if_name (conf d)) i) d in
        if negb (res =? 0) then Ret (d, -1) else open_eth todo (S i) d
  end.

Fixpoint open_wlan (todo i : nat) d : outcome (daemon * Z) :=
  match todo with
  | O => Ret (d, 0)
  | S todo =>
      let '(d, s) := call_out Socket d in
      let* socks := set_slot (wlan_sock d) i s in
      let d := d ⦃ wlan_sock := socks ⦄ in
      if s <? 0 then Ret (d, -1)
      else
        let* (d, res) := bind_raw s (at_idx (eap_if_name (conf d)) i) d in
        if negb (res =? 0) then Ret (d, -1) else open_wlan todo (S i) d
  end.

(** The hardware addresses of the wireless interfaces. *)
Fixpoint read_addrs (todo i : nat) d : outcome (daemon * Z) :=
  match todo with
  | O => Ret (d, 0)
  | S todo =>
      let '(d, s) := call_out Socket d in
      if s <? 0 then Ret (d, -1)
      else
        let answer := hwaddr_of (length (d_out d)) in
        let '(d, _) := call_out (HwAddr i) d in
        match answer with
        | None => Ret (fst (call_out (Close s) d), -1)
        | Some (family, sa_data) =>
            if negb (family =? ARPHRD_ETHER) then Ret (fst (call_out (Close s) d), -1)
            else
              let* a := load sa_data 0 MAC_ADDR_LEN in
              let* own := set_slot (own_addr d) i a in
              let d := d ⦃ own_addr := own ⦄ in
              read_addrs todo (S i) (fst (call_out (Close s) d))
        end
  end.

Definition Apd_init_sockets d : outcome (daemon * Z) :=
  let* (d, res) := open_eth (Z.to_nat (num_preauth_if (conf d))) 0 d in
  if negb (res =? 0) then Ret (d, -1)
  else
    let* (d, res) := open_wlan (Z.to_nat (num_eap_if (conf d))) 0 d in
    if negb (res =? 0) then Ret (d, -1)
    else
      let* (d, res) := read_addrs (Z.to_nat (SsidNum (conf d))) 0 d in
      if negb (res =? 0) then Ret (d, -1) else Ret (d, 0).

Definition Apd_setup_interface d : outcome (daemon * Z) :=
  let* (d, res) := Apd_init_sockets d in
  if negb (res =? 0) then Ret (d, -1)
  else
    let* (d, res) := Radius_client_init d in
    if negb (res =? 0) then Ret (d, -1)
    else
      let* (d, res) := ieee802_1x_init d in
      if negb (res =? 0) then Ret (d, -1) else Ret (d, 0).

(** The first system call is that for the ioctl socket.  [None] is NULL. *)
Definition Apd_init (prefix_name : bytes) (e : daemon_loop) (t : timeval) : outcome (option daemon) :=
  if negb (malloc_ok sizeof_rtapd) || negb (malloc_ok (Z.of_nat (length prefix_name) + 1)) then Ret None
  else
    let s := ret_of 0 in
    if s <? 0 then Ret None
    else
      let* newconf := Config_read (config_rand 1) (config_answer 1) in
      match newconf with
      | None => Ret None
      | Some c =>
          Ret (Some (mk_daemon c (replicate MAX_MBSSID_NUM (replicate MAC_ADDR_LEN 0)) None 0 None
                       (replicate STA_HASH_SIZE None) ∅ 1%nat e t [Socket; QueryConfig]
                       (replicate MAX_MBSSID_NUM (-1)) (replicate MAX_MBSSID_NUM (-1)) s))
      end.

(** * The main loop *)

(** What the [n]th [recv] of the main loop returns, for a raw socket (with what
    the stack holds before) and for a socket of the RADIUS client. *)
Class Input := {
  recv_frame : nat → bytes * option bytes;
  recv_datagram : nat → option bytes;
  recv_bytes n data : recv_datagram n = Some data → bytes_ok data
}.

Context `{Input}.

(** The daemon and the number of calls of [recv] so far. *)
Definition main_state : Type := daemon * nat.

Definition main_set_loop (e : daemon_loop) (w : main_state) : main_state := ((fst w) ⦃ loop := e ⦄, snd w).

Definition main_timeout (t : eloop_timeout timeout_handler ctx) (w : main_state) : outcome main_state :=
  let* d := call_timeout t (fst w) in Ret (d, snd w).

Definition main_reader (r : eloop_sock read_handler ctx) (w : main_state) : outcome main_state :=
  let '(d, n) := w in
  let* d := match sock_handler r with
            | Handle_read_h => Handle_read (fst (recv_frame n)) (snd (recv_frame n)) (sock r) d
            | Radius_client_receive_h => Radius_client_receive run_rx_handler (recv_datagram n) d
            end in
  Ret (d, S n).

Definition main_signal (s : Z) (w : main_state) : outcome main_state :=
  let* d := eloop_handle_signal loop call_signal s (fst w) in Ret (d, snd w).

(** One pass of [eloop_run] with its clock, or a signal between two passes. *)
Inductive main_pass := Wake (x : wakeup) | Interrupt (s : Z).

(** The condition of the [while] loop, negated. *)
Definition loop_ended (e : daemon_loop) : bool :=
  terminate e || (bool_decide (timeouts e = []) && bool_decide (readers e = [])).

(** [eloop_run]; [false] is its return on an error of [select]. *)
Fixpoint main_loop (passes : list main_pass) (w : main_state) : outcome (main_state * bool) :=
  if loop_ended (loop (fst w)) then Ret (w, true)
  else
    match passes with
    | [] => Ret (w, true)
    | Interrupt s :: passes => let* w := main_signal s w in main_loop passes w
    | Wake x :: passes =>
        let* (w, ok) := eloop_run (loop ∘ fst) main_set_loop main_timeout main_reader [x]
                          ((fst w) ⦃ now := after x ⦄, snd w) in
        if (ok : bool) then main_loop passes w else Ret (w, false)
    end.

(** ** The program *)

Definition SIGHUP : Z := 1.
Definition SIGINT : Z := 2.
Definition SIGUSR1 : Z := 16.
Definition SIGTERM : Z := 15.

Definition main_signals : list (Z * signal_handler) :=
  [(SIGINT, Handle_term_h); (SIGTERM, Handle_term_h); (SIGUSR1, Handle_usr1_h); (SIGHUP, Handle_usr1_h)].

Definition register_signals (e : daemon_loop) : daemon_loop :=
  foldl (λ e x, fst (eloop_register_signal (fst x) (snd x) CNull e)) e main_signals.

Definition sizeof_ptr : Z := 4.

(** What the child of [main] does before the loop, once the command line has
    given the prefix; [inr] is a daemon that could not be set up. *)
Definition main_start (prefix_name : bytes) (pid : Z) (t : timeval) : outcome (option (daemon + daemon)) :=
  if negb (malloc_ok sizeof_ptr) then Ret None
  else
    let e := register_signals (eloop_init CApd) in
    let* apd := Apd_init prefix_name e t in
    match apd with
    | None => Ret None
    | Some d =>
        let* (d, res) := Apd_setup_interface d in
        if negb (res =? 0) then Ret (Some (inr d))
        else
          let '(d, _) := RT_ioctl (Z.lor RT_SET_APD_PID OID_GET_SET_TOGGLE) 0 (le32 pid) d in
          Ret (Some (inl d))
    end.

(** The daemon at the end, when there was one, and the return value. *)
Definition main (prefix_name : bytes) (pid : Z) (t : timeval) (passes : list main_pass) : outcome (option daemon * Z) :=
  let* start := main_start prefix_name pid t in
  match start with
  | None => Ret (None, 1)
  | Some (inr d) => Ret (Some (Apd_cleanup d), 1)
  | Some (inl d) =>
      let* (w, _) := main_loop passes (d, 0%nat) in
      let* d := Apd_free_stas (fst w) in
      Ret (Some (Apd_cleanup d), 0)
  end.

End Daemon.
