(* ===== verification/Ieee8021xProps.v ===== *)
(** Properties of the exchange with stations: the keys in EAPOL-Key frames
    reach a station that computes HMAC-MD5 and RC4 as they are published. *)

From stdpp Require Import gmap.
From S2P Require Import Prelude EapolSm Md5 Md5Props Radius RadiusRep Eloop Dot1xConfig Rtapd.
From S2P Require Import RadiusClient RadiusClientFacts Ieee8021xTx StaInfo StaFacts Ieee8021x.

(** * EAPOL-Key frames *)

(** What a station does with an EAPOL-Key frame (IEEE Std 802.1X-2001, 7.6):
    it checks the signature over the packet with a zero signature, and
    decrypts the key with the initialization vector and its own key.  Its
    HMAC-MD5 and RC4 are those of the RFCs, not the daemon's. *)
Definition supplicant_key (sign crypt frame : bytes) : option (Z * bytes) :=
  let eapol := drop 14 frame in
  let packet := take (Z.to_nat (4 + of_be (take 2 (drop 2 eapol)))) eapol in
  let signature := take 16 (drop 32 packet) in
  let klen := Z.to_nat (of_be (take 2 (drop 5 packet))) in
  if (idx packet 1 =? IEEE802_1X_TYPE_EAPOL_KEY) && (idx packet 4 =? EAPOL_KEY_TYPE_RC4)
     && bool_decide (md5_hmac_ref sign (splice packet 32 (replicate 16 0)) = signature)
  then Some (idx packet 31, Rc4.crypt (take 16 (drop 15 packet) ++ crypt) (take klen (drop 48 packet)))
  else None.

Section Keys.
Context `{World} `{Malloc}.
Implicit Types d : daemon.

Lemma hmac_md5_length k data : length (hmac_md5 k data) = 16%nat.
Proof. done. Qed.

Lemma ntp_stamp_length t : length (ntp_stamp t) = 8%nat.
Proof. done. Qed.

(** The packet behind the Ethernet header, with any signature. *)
Definition key_packet (key_len : Z) (replay iv : bytes) (index : Z) (signature key : bytes) : bytes :=
  [EAPOL_VERSION; IEEE802_1X_TYPE_EAPOL_KEY] ++ be16 (sizeof_eapol_key + key_len)
    ++ eapol_key_struct key_len replay iv index signature key.

Lemma key_packet_split kl replay iv i sig key :
  key_packet kl replay iv i sig key
  = ([EAPOL_VERSION; IEEE802_1X_TYPE_EAPOL_KEY] ++ be16 (sizeof_eapol_key + kl) ++ [EAPOL_KEY_TYPE_RC4] ++ be16 kl)
      ++ (replay ++ iv ++ [u8 i]) ++ sig ++ key.
Proof. unfold key_packet, eapol_key_struct. by rewrite <-!app_assoc. Qed.

Lemma be16_field z (pre rest : bytes) n :
  length pre = n → 0 ≤ z < 65536 → of_be (take 2 (drop n (pre ++ be16 z ++ rest))) = z.
Proof. intros <- Hz. rewrite drop_app_length. cbn [be16 app take]. by apply of_be_be16. Qed.

Lemma supplicant_key_packet sign crypt eth kl replay iv i key enc sig :
  length eth = 14%nat → length replay = 8%nat → length iv = 16%nat → kl = Z.of_nat (length enc) →
  kl < 65492 → 0 ≤ i < 256 → Rc4.crypt (iv ++ crypt) enc = key → length sig = 16%nat →
  sig = md5_hmac_ref sign (key_packet kl replay iv i (replicate 16 0) enc) →
  supplicant_key sign crypt (eth ++ key_packet kl replay iv i sig enc ++ [0; 0]) = Some (i, key).
Proof.
  intros Heth Hr Hiv Hkl Hmax Hi Hrc4 Hs Hsig. unfold supplicant_key. rewrite drop_app_length' by done. cbv zeta.
  assert (length (key_packet kl replay iv i sig enc) = (48 + length enc)%nat) as Hlen.
  { rewrite key_packet_split, !length_app, Hr, Hiv, Hs. cbn. lia. }
  assert (take (Z.to_nat (4 + of_be (take 2 (drop 2 (key_packet kl replay iv i sig enc ++ [0; 0])))))
            (key_packet kl replay iv i sig enc ++ [0; 0]) = key_packet kl replay iv i sig enc) as Hpk.
  { unfold key_packet at 1. rewrite <-!app_assoc, (be16_field (sizeof_eapol_key + kl) [_; _])
      by (done || unfold sizeof_eapol_key; lia).
    replace (Z.to_nat (4 + (sizeof_eapol_key + kl))) with (length (key_packet kl replay iv i sig enc))
      by (rewrite Hlen; unfold sizeof_eapol_key; lia).
    by rewrite take_app_length. }
  rewrite !Hpk. clear Hpk Hlen.
  assert (of_be (take 2 (drop 5 (key_packet kl replay iv i sig enc))) = kl) as ->.
  { apply (be16_field kl ([EAPOL_VERSION; IEEE802_1X_TYPE_EAPOL_KEY] ++ be16 (sizeof_eapol_key + kl) ++ [EAPOL_KEY_TYPE_RC4]));
      [done|lia]. }
  assert (drop 48 (key_packet kl replay iv i sig enc) = enc) as ->.
  { do 8 (destruct replay as [|? replay]; [done|]). destruct replay; [|done].
    do 16 (destruct iv as [|? iv]; [done|]). destruct iv; [|done].
    do 16 (destruct sig as [|? sig]; [done|]). by destruct sig. }
  assert (take 16 (drop 15 (key_packet kl replay iv i sig enc)) = iv) as ->.
  { do 8 (destruct replay as [|? replay]; [done|]). destruct replay; [|done].
    do 16 (destruct iv as [|? iv]; [done|]). by destruct iv. }
  assert (take 16 (drop 32 (key_packet kl replay iv i sig enc)) = sig
          ∧ splice (key_packet kl replay iv i sig enc) 32 (replicate 16 0) = key_packet kl replay iv i (replicate 16 0) enc
          ∧ idx (key_packet kl replay iv i sig enc) 31 = u8 i) as (-> & -> & ->).
  { clear Hsig. do 8 (destruct replay as [|? replay]; [done|]). destruct replay; [|done].
    do 16 (destruct iv as [|? iv]; [done|]). destruct iv; [|done].
    do 16 (destruct sig as [|? sig]; [done|]). by destruct sig. }
  rewrite (bool_decide_true _ (eq_sym Hsig)). rewrite Hkl, Nat2Z.id, firstn_all, Hrc4.
  by rewrite u8_id.
Qed.

Lemma eapol_frame_key s own kl replay iv i sig enc :
  ethertype s ≠ ETH_P_PRE_AUTH → length replay = 8%nat → length iv = 16%nat → length sig = 16%nat →
  kl = Z.of_nat (length enc) →
  eapol_frame s own IEEE802_1X_TYPE_EAPOL_KEY (eapol_key_struct kl replay iv i sig enc)
  = (addr s ++ own ++ be16 ETH_P_PAE) ++ key_packet kl replay iv i sig enc ++ [0; 0].
Proof.
  intros Het Hr Hiv Hs ->. unfold eapol_frame. rewrite (proj2 (Z.eqb_neq _ _) Het).
  assert (Z.of_nat (length (eapol_key_struct (Z.of_nat (length enc)) replay iv i sig enc))
          = sizeof_eapol_key + Z.of_nat (length enc)) as ->.
  { unfold eapol_key_struct. rewrite !length_app, Hr, Hiv, Hs. unfold sizeof_eapol_key. cbn [length be16]. lia. }
  unfold key_packet. by rewrite <-!app_assoc.
Qed.

End Keys.

(** * Properties *)

(** C36. The key in an EAPOL-Key frame arrives.  For a station with keys from the
    server that is not in pre-authentication (for one that is, the signature
    covers another header than the frame has), the frame that
    [ieee802_1x_tx_key_one] hands to the driver is addressed to the station; a
    station that holds the same two keys and computes the HMAC of RFC 2104 over
    the MD5 of RFC 1321 and RC4 as published finds the signature right and
    decrypts the very key that was sent, with its index and the bit for
    unicast. *)
Theorem eapol_key_roundtrip `{World} `{Malloc} p s own sign crypt iv index (broadcast : bool) key d :
  malloc_never_fails → heap d !! p = Some s → ethertype s ≠ ETH_P_PRE_AUTH →
  eapol_key_sign s = Some sign → eapol_key_crypt s = Some crypt →
  own_addr d !! Z.to_nat (ApIdx s) = Some own → length (addr s) = 6%nat → length own = 6%nat →
  rand_of (length (d_out d)) 16 = Some iv → bytes_ok key → Z.of_nat (length key) < 65492 → 0 ≤ index < 128 →
  short sign →
  ∃ d' frame,
    ieee802_1x_tx_key_one p index broadcast key d = Ret d'
    ∧ d_out d' = d_out d ++ [Rand 16; Ioctl RT_OID_802_DOT1X_RADIUS_DATA (ApIdx s) frame]
    ∧ take 6 frame = addr s
    ∧ supplicant_key sign crypt frame = Some (Z.lor index (if broadcast then 0 else 128), key).
Proof.
  intros HM Hs Het Hsign Hcrypt Hown Haddr Hol Hrand Hkey Hlen Hi Hshort.
  destruct (rand_len _ _ _ Hrand) as [Hiv _].
  destruct (rc4_twice key (iv ++ crypt)) as (enc & Henc & Hel & _ & Hdec); [by destruct iv|done|].
  assert (0 ≤ Z.lor index (if broadcast then 0 else 128) < 256) as Hx.
  { assert (index < 2 ^ 7) by lia. destruct broadcast; [rewrite Z.lor_0_r; lia|]. change 256 with (2 ^ 8).
    split; [apply Z.lor_nonneg; lia|]. apply Z.log2_lt_cancel.
    rewrite Z.log2_lor, Z.log2_pow2 by lia. change (Z.log2 128) with 7.
    pose proof (Z.log2_le_mono index 128 ltac:(lia)) as Hm. change (Z.log2 128) with 7 in Hm. lia. }
  unfold ieee802_1x_tx_key_one. rewrite HM. cbn [negb hostapd_get_rand]. rewrite Hrand.
  match goal with |- context [sta_at ?x p] => remember x as d1 eqn:Hd1 end.
  assert (sta_at d1 p = Ret s ∧ own_addr d1 = own_addr d ∧ d_out d1 = d_out d ++ [Rand 16]) as (Hs1 & Hown1 & Hout1).
  { subst d1. split_and!; [by apply sta_at_Ret|done..]. }
  clear Hd1. rewrite Hs1. cbn [mbind outcome_bind].
  rewrite HM, Hsign, Hcrypt. cbn [negb]. change (default [] (Some crypt)) with crypt.
  change (default [] (Some sign)) with sign. rewrite Henc. cbn [mbind outcome_bind].
  set (i := Z.lor _ _) in *. set (kl := Z.of_nat (length key)) in *. set (sig := hmac_md5 _ _).
  assert (sig = hmac_md5 sign (key_packet kl (ntp_stamp (now d)) iv i (replicate 16 0) enc)) as Hsig by reflexivity.
  clearbody sig. unfold ieee802_1x_send.
  rewrite Hs1. cbn [mbind outcome_bind].
  rewrite HM. cbn [negb]. rewrite Hown1, (proj2 (at_idx_Ret _ _ _) Hown). cbn [mbind outcome_bind].
  rewrite (proj2 (Z.eqb_neq _ _) Het). eexists _, _. split; [reflexivity|].
  cbn [d_out]. rewrite Hout1. split; [by rewrite <-app_assoc|].
  assert (kl = Z.of_nat (length enc)) as Hkl by (subst kl; lia).
  rewrite (eapol_frame_key s own kl) by (done || by rewrite Hsig). split.
  - rewrite <-!app_assoc. by rewrite take_app_length'.
  - assert (length sig = 16%nat) as Hs16 by (by rewrite Hsig).
    apply supplicant_key_packet; try done; [by rewrite !length_app, Haddr, Hol| |].
    + rewrite rc4_published in Hdec by (by destruct iv). by injection Hdec.
    + rewrite Hsig. apply hmac_md5_ref; [done|]. unfold short. rewrite key_packet_split, !length_app, Hiv.
      rewrite ntp_stamp_length, length_replicate. cbn [length be16]. lia.
Qed.

#[local] Program Instance demo_world : World :=
  {| ret_of := λ _, 0; rand_of := λ _ n, Some (replicate n 7);
     config_answer := λ _, None; config_rand := λ _ _, replicate 13 0; hwaddr_of := λ _, None |}.
Next Obligation. intros _ n b [= <-]. split; [apply length_replicate|by apply bytes_ok_replicate]. Qed.
#[local] Instance demo_malloc : Malloc := λ _, true.

Definition demo_sta : sta_info :=
  mk_sta None None [0; 17; 34; 51; 68; 85] 0 None 4 None None None None
    (Some (replicate 32 9)) (Some (replicate 32 8)) 0 ETH_P_PAE 0.
Definition demo_client (es : list radius_msg_list) : radius_client_data :=
  mk_client (replicate 8 0) [ieee802_1x_receive_auth_handler] es (Z.of_nat (length es)) 5.
Definition demo_daemon (es : list radius_msg_list) : daemon :=
  mk_daemon (default_config (λ _, replicate 13 0)) (replicate 8 [0; 12; 67; 1; 2; 3]) (Some (demo_client es)) 1
    (Some 1%nat) (replicate STA_HASH_SIZE None) {[1%nat := demo_sta]} 2%nat (eloop_init CApd) (mk_timeval 1000 0) [] (replicate 8 (-1)) (replicate 8 (-1)) 5.

Lemma eapol_key_roundtrip_witness :
  ∃ d' frame, ieee802_1x_tx_key_one 1%nat 2 false [1; 2; 3; 4; 5] (demo_daemon []) = Ret d'
    ∧ d_out d' = [Rand 16; Ioctl RT_OID_802_DOT1X_RADIUS_DATA 0 frame]
    ∧ take 6 frame = [0; 17; 34; 51; 68; 85]
    ∧ supplicant_key (replicate 32 9) (replicate 32 8) frame = Some (130, [1; 2; 3; 4; 5]).
Proof.
  apply (eapol_key_roundtrip 1%nat demo_sta [0; 12; 67; 1; 2; 3] (replicate 32 9) (replicate 32 8) (replicate 16 7) 2 false
           [1; 2; 3; 4; 5] (demo_daemon [])); first [done | by repeat constructor | cbn; lia].
Defined.
