(* ===== verification/DaemonFacts.v ===== *)
(** The invariant of the whole daemon: every Authenticator machine is well
    formed, and unless a station has been accepted its machine stands for a
    closed port and no effect has installed a key or opened a port.  Every
    procedure of the daemon keeps it, whatever it is given. *)

From stdpp Require Import gmap.
From S2P Require Import Prelude EapolSm EapolFacts EapolRun EapolSafety Md5 Radius Eloop Dot1xConfig Rtapd.
From S2P Require Import RadiusRep RadiusFacts RadiusClient Ieee8021xTx StaInfo StaFacts Ieee8021x Rtdot1x.

(** * The invariant *)

(** [B p]: the station [p] has been accepted. *)
Definition machine_ok (B : ptr → Prop) (p : ptr) (m : option eapol_state_machine) : Prop :=
  ∀ sm, m = Some sm → sm_wf sm ∧ (B p ∨ not_accepted sm).

Record daemon_inv (B : ptr → Prop) (d : daemon) : Prop := {
  inv_machines p s : heap d !! p = Some s → machine_ok B p (eapol_sm s);
  inv_out : (∃ p, B p) ∨ Forall harmless (d_out d)
}.

(** Only what is outside the stations has changed, harmlessly. *)
Record quiet (d d' : daemon) : Prop := {
  quiet_heap : heap d' = heap d;
  quiet_out : ∃ outs, d_out d' = d_out d ++ outs ∧ Forall harmless outs
}.

#[export] Instance quiet_preorder : PreOrder quiet.
Proof.
  split.
  - intros d. split; [done|]. exists []. by rewrite app_nil_r.
  - intros d1 d2 d3 [H1 (o1 & E1 & F1)] [H2 (o2 & E2 & F2)]. split; [congruence|].
    exists (o1 ++ o2). rewrite E2, E1, app_assoc. split; [done|]. by apply Forall_app.
Qed.

Lemma quiet_same d d' : heap d' = heap d → d_out d' = d_out d → quiet d d'.
Proof. intros Hh Ho. split; [done|]. exists []. by rewrite Ho, app_nil_r. Qed.

Lemma quiet_inv B d d' : quiet d d' → daemon_inv B d → daemon_inv B d'.
Proof.
  intros [Hh (outs & Ho & HF)] [Hm Hout]. split; [by rewrite Hh|].
  rewrite Ho. destruct Hout; [by left|right]. by apply Forall_app.
Qed.

Create HintDb quiet.

Section Quiet.
Context `{World} `{Malloc}.
Implicit Types d : daemon.

Lemma quiet_call e d : harmless e → quiet d (fst (call_out e d)).
Proof. intros He. split; [done|]. exists [e]. split; [done|by constructor]. Qed.

Lemma quiet_register secs h a b d d' : register_timeout secs h a b d = Ret d' → quiet d d'.
Proof. unfold register_timeout. intros ([e r] & _ & [= <-])%outcome_bind_Ret. by apply quiet_same. Qed.

Lemma quiet_cancel h a b d : quiet d (cancel_timeout h a b d).
Proof. unfold cancel_timeout. destruct (eloop_cancel_timeout _ _ _ _). by apply quiet_same. Qed.

Lemma quiet_radius f d d' : upd_radius f d = Ret d' → quiet d d'.
Proof. unfold upd_radius. intros (c & _ & [= <-])%outcome_bind_Ret. by apply quiet_same. Qed.

Lemma quiet_flush d : quiet d (Radius_client_flush d).
Proof.
  unfold Radius_client_flush. destruct (radius d) as [c|]; [|done].
  etrans; [apply quiet_cancel|by apply quiet_same].
Qed.

Lemma quiet_change_server n o s d d' r : Radius_change_server n o s d = Ret (d', r) → quiet d d'.
Proof.
  unfold Radius_change_server. intros (same & _ & Hd)%outcome_bind_Ret.
  apply outcome_bind_Ret in Hd as (d1 & H1 & Hd). assert (quiet d d1) as Hq.
  { destruct same; [|injection H1 as <-; apply quiet_flush].
    apply outcome_bind_Ret in H1 as (d2 & H2%quiet_radius & H1). etrans; [exact H2|].
    apply outcome_bind_Ret in H1 as (c & _ & H1). destruct (msgs c); [by injection H1 as <-|].
    etrans; [apply quiet_cancel|]. by eapply quiet_register. }
  etrans; [exact Hq|]. destruct (call_out _ d1) as [d2 r2] eqn:E2.
  pose proof (quiet_call (Connect s (srv_addr n) (u16 (port n))) d1 I) as Hc. rewrite E2 in Hc.
  destruct (r2 <? 0); by injection Hd as <- _.
Qed.

Lemma quiet_set_current i v d d' : set_current i v d = Ret d' → quiet d d'.
Proof. unfold set_current. intros (b & _ & [= <-])%outcome_bind_Ret. by apply quiet_same. Qed.

Lemma quiet_failover_bss i n d d' : failover_bss i n d = Ret d' → quiet d d'.
Proof.
  unfold failover_bss. intros (b & _ & Hd)%outcome_bind_Ret. destruct (_ && _); [|by injection Hd as <-].
  destruct (mbss_auth_server b) as [old|]; [|done]. apply outcome_bind_Ret in Hd as (d1 & H1%quiet_set_current & Hd).
  do 4 apply outcome_bind_Ret in Hd as (? & _ & Hd). apply outcome_bind_Ret in Hd as ([d2 r] & H2%quiet_change_server & [= <-]).
  by etrans.
Qed.

Lemma quiet_failover todo i f d d' : failover_loop todo i f d = Ret d' → quiet d d'.
Proof.
  revert i d. induction todo as [|todo IH]; intros i d; cbn [failover_loop]; [by intros [= <-]|].
  intros (n & _ & Hd)%outcome_bind_Ret. apply outcome_bind_Ret in Hd as (d1 & H1%quiet_failover_bss & Hd%IH). by etrans.
Qed.

Lemma quiet_timer_loop now es f t d d' kept f' t' :
  timer_loop now es f t d = Ret (d', kept, f', t') → quiet d d'.
Proof.
  revert f t d d' kept f' t'. induction es as [|e es IH]; intros f t d d' kept f' t'; cbn [timer_loop]; [by intros [= <- _ _ _]|].
  intros ([[d1 e1] b] & H1 & Hd)%outcome_bind_Ret. assert (quiet d d1) as Hq.
  { destruct (next_try e <=? now); [|by injection H1 as <- _ _]. unfold Radius_client_retransmit in H1.
    do 3 apply outcome_bind_Ret in H1 as (? & _ & H1). cbn [call_out] in H1. injection H1 as <- _ _.
    by apply (quiet_call (Send _ _)). }
  etrans; [exact Hq|]. destruct b.
  - apply outcome_bind_Ret in Hd as (d2 & H2%quiet_radius & Hd%IH). by etrans.
  - apply outcome_bind_Ret in Hd as (f2 & _ & Hd). apply outcome_bind_Ret in Hd as ([[[d2 k2] f3] t2] & H2%IH & [= <- _ _ _]).
    exact H2.
Qed.

Lemma quiet_client_timer d d' : Radius_client_timer d = Ret d' → quiet d d'.
Proof.
  unfold Radius_client_timer. intros (c & _ & Hd)%outcome_bind_Ret.
  destruct (msgs c) as [|e es]; [by injection Hd as <-|].
  apply outcome_bind_Ret in Hd as ([[[d1 kept] f] t] & H1%quiet_timer_loop & Hd).
  apply outcome_bind_Ret in Hd as (d2 & H2%quiet_radius & Hd).
  apply outcome_bind_Ret in Hd as (d3 & H3 & Hd%quiet_failover).
  assert (quiet d2 d3) by (destruct kept; [by injection H3 as <-|by eapply quiet_register]).
  by do 3 (etrans; [eassumption|]).
Qed.

Lemma quiet_retry_loop todo i d d' : retry_primary_loop todo i d = Ret d' → quiet d d'.
Proof.
  revert i d. induction todo as [|todo IH]; intros i d; cbn [retry_primary_loop]; [by intros [= <-]|].
  intros (d1 & H1 & Hd%IH)%outcome_bind_Ret. etrans; [|exact Hd]. unfold retry_primary_bss in H1.
  do 3 apply outcome_bind_Ret in H1 as (? & _ & H1). case_match; [by injection H1 as <-|].
  destruct (_ && _); [|by injection H1 as <-]. apply outcome_bind_Ret in H1 as (d2 & Hs%quiet_set_current & H1).
  apply outcome_bind_Ret in H1 as ([d3 r] & Hc%quiet_change_server & [= <-]). by etrans.
Qed.

Lemma quiet_retry_timer d d' : Radius_retry_primary_timer d = Ret d' → quiet d d'.
Proof.
  unfold Radius_retry_primary_timer. intros (d1 & H1%quiet_retry_loop & Hd)%outcome_bind_Ret.
  destruct (_ =? 0); [by injection Hd as <-|]. apply quiet_register in Hd. by etrans.
Qed.

Lemma quiet_init_auth i d d' r : Radius_client_init_auth i d = Ret (d', r) → quiet d d'.
Proof.
  unfold Radius_client_init_auth. intros (b & _ & Hd)%outcome_bind_Ret. destruct (current_server b) as [srv|]; [|done].
  destruct (_ =? 0); [by injection Hd as <- _|]. destruct (call_out Socket d) as [d1 s] eqn:E1.
  pose proof (quiet_call Socket d I) as H1. rewrite E1 in H1. cbn [fst] in H1.
  apply outcome_bind_Ret in Hd as (d2 & H2%quiet_radius & Hd). assert (quiet d d2) as H02 by (by etrans).
  destruct (s <? 0); [by injection Hd as <- _|].
  apply outcome_bind_Ret in Hd as ([d3 r3] & H3%quiet_change_server & Hd). assert (quiet d d3) as H03 by (by etrans).
  destruct (negb _); [by injection Hd as <- _|]. destruct (eloop_register_read_sock _ _ _ _ _) as [e r4].
  injection Hd as <- _. etrans; [exact H03|by apply quiet_same].
Qed.

Lemma quiet_init_loop todo i n d d' n' : init_loop todo i n d = Ret (d', n') → quiet d d'.
Proof.
  revert i n d. induction todo as [|todo IH]; intros i n d; cbn [init_loop]; [by intros [= <- _]|].
  intros (c & _ & Hd)%outcome_bind_Ret. apply outcome_bind_Ret in Hd as (s & _ & Hd).
  destruct (s <? 0); [|by eapply IH]. apply outcome_bind_Ret in Hd as (b & _ & Hd).
  destruct (mbss_auth_server b); [|by eapply IH].
  apply outcome_bind_Ret in Hd as ([d1 r1] & H1%quiet_init_auth & Hd%IH). by etrans.
Qed.

Lemma quiet_client_init d d' r : Radius_client_init d = Ret (d', r) → quiet d d'.
Proof.
  unfold Radius_client_init. destruct (_ && _); [by intros [= <- _]|].
  cbv zeta. generalize (bool_decide (radius d ≠ None)) as re. intros re. set (d0 := if re then d else _).
  assert (quiet d d0) as Hq by (subst d0; destruct re; [done|by apply quiet_same]).
  clearbody d0. intros ([d1 n] & H1%quiet_init_loop & Hd)%outcome_bind_Ret. assert (quiet d d1) as H01 by (by etrans).
  destruct (_ =? 0); [by injection Hd as <- _|]. destruct (_ && _); [|by injection Hd as <- _].
  apply outcome_bind_Ret in Hd as (d2 & H2%quiet_register & [= <- _]). by etrans.
Qed.

End Quiet.

(** * Machines *)

Section Machines.
Context `{World} `{Malloc}.
Implicit Types d : daemon.

Abbreviation any := (λ _ : effect, True).

(** A run of a machine on the daemon: it stays well formed, and a machine that
    is not accepted stays so and asks for nothing harmful. *)
Definition good_run (f : st (W:=sm_world) → outcome (st (W:=sm_world))) : Prop :=
  ∀ s r, f s = Ret r → sm_wf (fst s) →
    sm_wf (fst r) ∧ world_rel any (snd s) (snd r)
    ∧ (not_accepted (fst s) → not_accepted (fst r) ∧ world_rel harmless (snd s) (snd r)).

Lemma good_step : good_run eapol_sm_step.
Proof.
  intros s r Hr Hwf. split_and!.
  - destruct (eapol_sm_step_rule (λ _, True) s) as (r' & Hr' & Hwf' & _); [done..|].
    rewrite Hr in Hr'. by injection Hr' as <-.
  - by apply (sm_step_rel _ _ _ daemon_env_kept).
  - intros Hn. destruct (eapol_sm_step_no_accept (world_rel harmless (snd s)) s) as (r' & Hr' & _ & Hn' & HR);
      [apply daemon_kept_unless_opened|done..|]. rewrite Hr in Hr'. by injection Hr' as <-.
Qed.

Lemma good_tick : good_run eapol_port_timers_tick.
Proof.
  intros [sm w] r. unfold eapol_port_timers_tick. intros ([sm1 w1] & H1 & [= <-])%outcome_bind_Ret Hwf.
  destruct (good_step _ _ H1 (sm_wf_tick _ Hwf)) as (Hwf1 & HR & Hn). cbn [fst snd] in *. split_and!; [done|..].
  - etrans; [exact HR|apply tick_on_rel].
  - intros Hna. destruct (Hn Hna) as [? HR']. split; [done|]. etrans; [exact HR'|apply tick_on_rel].
Qed.

Lemma initialize_keeps b sm :
  (sm_wf sm → sm_wf (sm ⦃ initialize := b ⦄)) ∧ (not_accepted sm → not_accepted (sm ⦃ initialize := b ⦄)).
Proof. split; [intros []; by constructor|done]. Qed.

Lemma good_initialize : good_run eapol_sm_initialize.
Proof.
  intros [sm w] r. unfold eapol_sm_initialize. destruct (initialize_keeps true sm) as [Hw1 Hn1].
  revert Hw1 Hn1. generalize (sm ⦃ initialize := true ⦄) as sm1. intros sm1 Hw1 Hn1 ([sm2 w2] & H2 & Hr)%outcome_bind_Ret Hwf.
  destruct (good_step _ _ H2 (Hw1 Hwf)) as (Hwf2 & HR2 & Hn2). cbn [fst snd] in *.
  revert Hr. destruct (initialize_keeps false sm2) as [Hw3 Hn3]. revert Hw3 Hn3.
  generalize (sm2 ⦃ initialize := false ⦄) as sm3. intros sm3 Hw3 Hn3 ([sm4 w4] & H4 & [= <-])%outcome_bind_Ret.
  destruct (good_step _ _ H4 (Hw3 Hwf2)) as (Hwf4 & HR4 & Hn4). cbn [fst snd] in *.
  assert (∀ P, world_rel P w4 (eloop_register_tick (eloop_cancel_tick w4))) as HT.
  { intros P. etrans; [apply tick_off_rel|apply tick_on_rel]. }
  split_and!; [done|by do 2 (etrans; [eassumption|])|]. intros Hna.
  destruct (Hn2 (Hn1 Hna)) as [Hna2 ?], (Hn4 (Hn3 Hna2)) as [? ?]. split; [done|]. by do 2 (etrans; [eassumption|]).
Qed.

Lemma defaults_not_accepted conf : not_accepted (eapol_sm_defaults conf).
Proof. unfold eapol_sm_defaults. destruct (_ =? 1); split_and!; reflexivity. Qed.

Context (B : ptr → Prop).

(** ** Changes of one station *)

Lemma inv_set_sta d p s s' :
  heap d !! p = Some s → machine_ok B p (eapol_sm s') → daemon_inv B d → daemon_inv B (set_sta d p s').
Proof.
  intros Hs Hok [Hm Ho]. split; [|done]. intros q t. cbn. destruct (decide (q = p)) as [->|Hq].
  - rewrite lookup_insert_eq. by intros [= <-].
  - rewrite lookup_insert_ne by done. apply Hm.
Qed.

Lemma inv_upd_sta p f d d' :
  upd_sta p f d = Ret d' → (∀ s, eapol_sm (f s) = eapol_sm s) → daemon_inv B d → daemon_inv B d'.
Proof.
  intros (s & Hs & ->)%upd_sta_inv Hf Hinv. eapply inv_set_sta; [done| |done]. rewrite Hf. by eapply inv_machines.
Qed.

Lemma inv_upd_machine p g d d' :
  upd_machine p g d = Ret d' → (∀ sm, sm_wf sm → sm_wf (g sm)) →
  (B p ∨ ∀ sm, not_accepted sm → not_accepted (g sm)) → daemon_inv B d → daemon_inv B d'.
Proof.
  intros (s & sm & Hs & Hsm & ->)%upd_machine_inv Hwf Hn Hinv. eapply inv_set_sta; [done| |done].
  intros sm' [= <-]. destruct (inv_machines _ _ Hinv p s Hs sm Hsm) as [Hw Hc].
  split; [by apply Hwf|]. destruct Hc; [by left|]. destruct Hn as [|Hn]; [by left|right; by apply Hn].
Qed.

Lemma tx_rel_inv P p d d' :
  tx_rel P p d d' → ((∃ p, B p) ∨ ∀ e, P e → harmless e) → daemon_inv B d → daemon_inv B d'.
Proof.
  intros [_ Hh _ (outs & Ho & HF)] HP [Hm Hout]. split.
  - intros q s' Hs'. assert ((sta_core <$> heap d') !! q = Some (sta_core s')) as Hq by (by rewrite lookup_fmap, Hs').
    rewrite Hh, lookup_fmap in Hq. destruct (heap d !! q) as [s|] eqn:Hs; [|done]. apply (inj Some) in Hq.
    replace (eapol_sm s') with (eapol_sm s); [by eapply Hm|]. exact (f_equal eapol_sm Hq).
  - rewrite Ho. destruct Hout as [|Hout]; [by left|]. destruct HP as [|HP]; [by left|right].
    apply Forall_app. split; [done|]. by eapply Forall_impl.
Qed.

Lemma inv_put_machine P p r d d' :
  world_rel P (p, Ret d) (snd r) → put_machine p r = Ret d' → ((∃ p, B p) ∨ ∀ e, P e → harmless e) →
  sm_wf (fst r) → B p ∨ not_accepted (fst r) → daemon_inv B d → daemon_inv B d'.
Proof.
  intros HR Hd HP Hwf Hn Hinv. destruct (put_machine_rel _ _ _ _ _ HR Hd) as (d1 & _ & Hrel & Hup).
  apply upd_sta_inv in Hup as (s & Hs & ->). eapply inv_set_sta; [done| |by eapply tx_rel_inv].
  intros sm [= <-]. done.
Qed.

(** Both cases of a run at once. *)
Lemma inv_good_run p s r d d' :
  sm_wf (fst r) → world_rel any s (snd r) →
  (not_accepted (fst r) ∧ world_rel harmless s (snd r) ∨ B p) → s = (p, Ret d) →
  put_machine p r = Ret d' → daemon_inv B d → daemon_inv B d'.
Proof.
  intros Hwf HR [[Hn Hh]|HB] -> Hd Hinv.
  - eapply (inv_put_machine harmless); eauto.
  - eapply (inv_put_machine any); eauto.
Qed.

Lemma inv_run_machine f p d d' : good_run f → run_machine f p d = Ret d' → daemon_inv B d → daemon_inv B d'.
Proof.
  intros Hf (s & sm & r & Hs & Hsm & Hr & Hput)%run_machine_inv Hinv.
  destruct (inv_machines _ _ Hinv p s Hs sm Hsm) as [Hwf Hc].
  destruct (Hf _ _ Hr Hwf) as (Hwf' & HR & Hn). eapply inv_good_run; eauto.
  destruct Hc as [|Hna]; [by right|left]. by apply Hn.
Qed.

Lemma inv_alloc_machine p d d' : alloc_machine p d = Ret d' → daemon_inv B d → daemon_inv B d'.
Proof.
  unfold alloc_machine. intros (r & Hr & Hd)%outcome_bind_Ret Hinv. destruct r as [r|].
  - unfold eapol_sm_alloc in Hr. destruct (negb _); [done|]. revert Hr. generalize (sm_wf_defaults (daemon_sm_conf d)), (defaults_not_accepted (daemon_sm_conf d)).
    generalize (eapol_sm_defaults (daemon_sm_conf d)) as sm. intros sm Hwf Hna (r' & Hr & [= <-])%outcome_bind_Ret.
    destruct (good_initialize _ _ Hr Hwf) as (Hwf' & HR & Hn). eapply inv_good_run; eauto.
  - apply upd_sta_inv in Hd as (s & Hs & ->). eapply inv_set_sta; [done|by intros sm|done].
Qed.

End Machines.

(** * The procedures of the daemon *)

Section Procedures.
Context `{World} `{Malloc} (B : ptr → Prop).
Implicit Types d : daemon.

Lemma inv_new_station p d d' : ieee802_1x_new_station p d = Ret d' → daemon_inv B d → daemon_inv B d'.
Proof.
  assert (∀ sm, sm_wf sm → sm_wf (sm ⦃ portEnabled := true ⦄)) as Hwf by (by intros sm []; constructor).
  unfold ieee802_1x_new_station. intros (s & _ & Hd)%outcome_bind_Ret Hinv. destruct (eapol_sm s).
  - apply outcome_bind_Ret in Hd as (d1 & H1 & Hd). eapply inv_run_machine; [apply good_step|exact Hd|].
    eapply inv_upd_machine; eauto.
  - apply outcome_bind_Ret in Hd as (d1 & H1%(inv_alloc_machine B) & Hd); [|done].
    apply outcome_bind_Ret in Hd as (s1 & _ & Hd). destruct (eapol_sm s1); [|by injection Hd as <-].
    eapply inv_upd_machine; eauto.
Qed.

Lemma inv_free_station p d d' : ieee802_1x_free_station p d = Ret d' → daemon_inv B d → daemon_inv B d'.
Proof.
  unfold ieee802_1x_free_station. intros (s & _ & Hd)%outcome_bind_Ret Hinv.
  apply outcome_bind_Ret in Hd as (d1 & H1 & Hd). eapply inv_upd_sta in H1; [|done..].
  apply outcome_bind_Ret in Hd as (d2 & H2 & Hd). assert (daemon_inv B d2) as Hinv2.
  { destruct (eapol_sm s); [|by injection H2 as <-]. cbn in H2. injection H2 as <-.
    eapply quiet_inv; [apply quiet_cancel|done]. }
  apply upd_sta_inv in Hd as (s2 & Hs2 & ->). eapply inv_set_sta; [done|by intros sm|done].
Qed.

Lemma inv_set_list l d : daemon_inv B d → daemon_inv B (d ⦃ sta_list := l ⦄).
Proof. by intros []. Qed.
Lemma inv_set_hash h d : daemon_inv B d → daemon_inv B (d ⦃ sta_hash := h ⦄).
Proof. by intros []. Qed.
Lemma inv_set_num n d : daemon_inv B d → daemon_inv B (d ⦃ num_sta := n ⦄).
Proof. by intros []. Qed.
Lemma inv_set_conf c d : daemon_inv B d → daemon_inv B (d ⦃ conf := c ⦄).
Proof. by intros []. Qed.
Lemma inv_set_loop e d : daemon_inv B d → daemon_inv B (d ⦃ loop := e ⦄).
Proof. by intros []. Qed.
Lemma inv_set_now t d : daemon_inv B d → daemon_inv B (d ⦃ now := t ⦄).
Proof. by intros []. Qed.
Lemma inv_set_radius c d : daemon_inv B d → daemon_inv B (d ⦃ radius := c ⦄).
Proof. by intros []. Qed.

Lemma inv_hash_add p d d' : Ap_sta_hash_add p d = Ret d' → daemon_inv B d → daemon_inv B d'.
Proof.
  unfold Ap_sta_hash_add. intros (s & _ & Hd)%outcome_bind_Ret Hinv. apply outcome_bind_Ret in Hd as (head & _ & Hd).
  apply outcome_bind_Ret in Hd as (d1 & H1 & [= <-]). eapply inv_upd_sta in H1; [|done..]. by apply inv_set_hash.
Qed.

Lemma inv_hash_del p d d' : Ap_sta_hash_del p d = Ret d' → daemon_inv B d → daemon_inv B d'.
Proof.
  unfold Ap_sta_hash_del. intros (s & _ & Hd)%outcome_bind_Ret Hinv. apply outcome_bind_Ret in Hd as (head & _ & Hd).
  destruct head as [h|]; [|by injection Hd as <-]. apply outcome_bind_Ret in Hd as (f & _ & Hd).
  case_bool_decide; [injection Hd as <-; by apply inv_set_hash|]. apply outcome_bind_Ret in Hd as ([t n] & _ & Hd).
  destruct n as [n|]; [|by injection Hd as <-]. apply outcome_bind_Ret in Hd as (ns & _ & Hd).
  by eapply inv_upd_sta in Hd.
Qed.

Lemma inv_list_del p d d' : Ap_sta_list_del p d = Ret d' → daemon_inv B d → daemon_inv B d'.
Proof.
  unfold Ap_sta_list_del. intros (s & _ & Hd)%outcome_bind_Ret Hinv. case_bool_decide; [injection Hd as <-; by apply inv_set_list|].
  apply outcome_bind_Ret in Hd as (t & _ & Hd). destruct t as [t|]; [|by injection Hd as <-]. by eapply inv_upd_sta in Hd.
Qed.

Lemma inv_free_sta p d d' : Ap_free_sta p d = Ret d' → daemon_inv B d → daemon_inv B d'.
Proof.
  unfold Ap_free_sta. intros Hd Hinv. apply outcome_bind_Ret in Hd as (d1 & H1%inv_hash_del & Hd); [|done].
  apply outcome_bind_Ret in Hd as (d2 & H2%inv_list_del & Hd); [|done].
  apply outcome_bind_Ret in Hd as (d3 & H3%inv_free_station & Hd); [|by apply inv_set_num].
  unfold free_sta in Hd. apply outcome_bind_Ret in Hd as (s & _ & [= <-]). destruct H3 as [Hm Ho].
  split; [|done]. intros q t Hq. cbn in Hq. apply lookup_delete_Some in Hq as [_ Hq]. by eapply Hm.
Qed.

Lemma inv_free_stas fuel o d d' : free_stas fuel o d = Ret d' → daemon_inv B d → daemon_inv B d'.
Proof.
  revert o d. induction fuel as [|fuel IH]; intros o d; cbn [free_stas]; destruct o as [p|]; try by intros [= <-].
  intros (s & _ & Hd)%outcome_bind_Ret Hinv. apply outcome_bind_Ret in Hd as (d1 & H1%inv_free_sta & Hd); [|done].
  by eapply IH.
Qed.

Lemma inv_get_sta sa ap et sk d d' r : Ap_get_sta sa ap et sk d = Ret (d', r) → daemon_inv B d → daemon_inv B d'.
Proof.
  unfold Ap_get_sta. intros (head & _ & Hd)%outcome_bind_Ret Hinv. apply outcome_bind_Ret in Hd as (s & _ & Hd).
  destruct s as [p|]; [by injection Hd as <- _|]. destruct (_ <=? _); [by injection Hd as <- _|].
  destruct (negb _); [by injection Hd as <- _|]. revert Hd. set (n := new_sta _ _ _ _ _). cbn [alloc_sta]. intros Hd.
  apply outcome_bind_Ret in Hd as (d2 & H2%inv_hash_add & Hd).
  - apply outcome_bind_Ret in Hd as (d3 & H3%inv_new_station & [= <- _]); done.
  - destruct Hinv as [Hm Ho]. split; [|done]. intros q t. cbn. destruct (decide (q = brk d)) as [->|Hq].
    + rewrite lookup_insert_eq. intros [= <-]. by intros sm.
    + rewrite lookup_insert_ne by done. apply Hm.
Qed.

Lemma inv_session_timeout p t d d' : Ap_sta_session_timeout p t d = Ret d' → daemon_inv B d → daemon_inv B d'.
Proof.
  unfold Ap_sta_session_timeout. intros Hd%quiet_register. refine (quiet_inv _ _ _ _). etrans; [apply quiet_cancel|exact Hd].
Qed.

Lemma inv_session_timer p d d' : Ap_handle_session_timer p d = Ret d' → daemon_inv B d → daemon_inv B d'.
Proof.
  unfold Ap_handle_session_timer. destruct (negb _); [by intros [= <-]|].
  intros (s & _ & Hd)%outcome_bind_Ret. apply outcome_bind_Ret in Hd as (own & _ & [= <-]).
  refine (quiet_inv _ _ _ _). by apply (quiet_call (Ioctl RT_OID_802_DOT1X_RADIUS_DATA _ _)).
Qed.

Lemma inv_reload d d' : Handle_reload_config d = Ret d' → daemon_inv B d → daemon_inv B d'.
Proof.
  unfold Handle_reload_config. intros ([d1 new] & H1 & Hd)%outcome_bind_Ret Hinv.
  assert (daemon_inv B d1) as Hinv1.
  { unfold read_config in H1. apply outcome_bind_Ret in H1 as (c & _ & [= <- _]).
    eapply quiet_inv; [by apply (quiet_call QueryConfig)|done]. }
  destruct new as [new|]; [|by injection Hd as <-]. apply outcome_bind_Ret in Hd as (d2 & H2%inv_free_stas & Hd).
  - apply outcome_bind_Ret in Hd as (d3 & H3%quiet_radius & Hd).
    apply outcome_bind_Ret in Hd as ([d4 r] & H4%quiet_client_init & [= <-]).
    eapply quiet_inv; [exact H4|]. by eapply quiet_inv; [exact H3|].
  - apply inv_set_conf. eapply quiet_inv; [apply quiet_flush|done].
Qed.

(** ** Frames of the stations *)

Lemma inv_eap_response p eap len d d' : handle_eap_response p eap len d = Ret d' → daemon_inv B d → daemon_inv B d'.
Proof.
  unfold handle_eap_response. intros (s & _ & Hd)%outcome_bind_Ret Hinv. destruct (eapol_sm s) as [sm|]; [|done].
  apply outcome_bind_Ret in Hd as (i & _ & Hd). destruct (negb _); [by injection Hd as <-|].
  destruct (decide _); [by injection Hd as <-|]. destruct (negb _); [by eapply inv_upd_sta in Hd|].
  apply outcome_bind_Ret in Hd as (supp & _ & Hd). apply outcome_bind_Ret in Hd as (d1 & H1 & Hd).
  eapply inv_upd_sta in H1; [|done..]. apply outcome_bind_Ret in Hd as (type & _ & Hd).
  destruct (type =? _).
  - apply outcome_bind_Ret in Hd as (id & _ & Hd). unfold take_identity in Hd.
    apply outcome_bind_Ret in Hd as (d2 & H2 & Hd). eapply inv_upd_sta; [exact Hd|done|].
    eapply inv_upd_machine; [exact H2|by intros ? []; constructor|by right|done].
  - eapply inv_upd_machine; [exact Hd| |right|done]; intros m Hm; destruct (negb _); try done;
      destruct Hm; by constructor.
Qed.

Lemma inv_receive sa ap buf len et sk d d' :
  ieee802_1x_receive sa ap buf len et sk d = Ret d' → daemon_inv B d → daemon_inv B d'.
Proof.
  unfold ieee802_1x_receive. intros Hd Hinv. apply outcome_bind_Ret in Hd as ([d1 sta] & H1%inv_get_sta & Hd); [|done].
  destruct sta as [p|]; [|by injection Hd as <-]. apply outcome_bind_Ret in Hd as (snap & _ & Hd).
  apply outcome_bind_Ret in Hd as (hdr & _ & Hd). destruct (_ <? _); [by injection Hd as <-|].
  apply outcome_bind_Ret in Hd as (s & _ & Hd). apply outcome_bind_Ret in Hd as (d2 & H2 & Hd).
  assert (daemon_inv B d2) as Hinv2 by (destruct (eapol_sm s); [by injection H2 as <-|by eapply inv_alloc_machine]).
  apply outcome_bind_Ret in Hd as (s2 & _ & Hd). destruct (eapol_sm s2); [|by injection Hd as <-].
  destruct (_ && _); [by injection Hd as <-|]. destruct (_ && _); [by injection Hd as <-|].
  apply outcome_bind_Ret in Hd as (d3 & H3 & Hd). eapply inv_run_machine; [apply good_step|exact Hd|].
  unfold dispatch_eapol in H3. destruct (_ =? _).
  - unfold handle_eap in H3. destruct (_ <? _); [by injection H3 as <-|]. apply outcome_bind_Ret in H3 as (code & _ & H3).
    apply outcome_bind_Ret in H3 as (l & _ & H3). cbv zeta in H3.
    repeat (destruct (_ <? _) in H3; [by injection H3 as <-|]). destruct (_ =? _) in H3; [by eapply inv_eap_response|by injection H3 as <-].
  - assert (∀ g dx, upd_machine p g d2 = Ret dx → (∀ sm, sm_wf sm → sm_wf (g sm)) →
      (∀ sm, not_accepted sm → not_accepted (g sm)) → ∀ dy, step_machine p dx = Ret dy → daemon_inv B dy) as Hset.
    { intros g dx Hx Hw Hn dy Hy. eapply inv_run_machine; [apply good_step|exact Hy|].
      eapply inv_upd_machine; [exact Hx|done|by right|done]. }
    destruct (_ =? _); [|destruct (_ =? _); [|by injection H3 as <-]];
      apply outcome_bind_Ret in H3 as (d4 & H4 & H3); (eapply Hset; [exact H4| |done|exact H3]); by intros ? []; constructor.
Qed.

Lemma inv_handle_read stack frame sk d d' : Handle_read stack frame sk d = Ret d' → daemon_inv B d → daemon_inv B d'.
Proof.
  unfold Handle_read. destruct frame as [frame|]; [|intros [= <-]; apply inv_set_loop].
  cbv zeta. destruct (_ <=? 0); [by intros [= <-]|]. intros (da & _ & Hd)%outcome_bind_Ret Hinv.
  apply outcome_bind_Ret in Hd as (sa & _ & Hd). apply outcome_bind_Ret in Hd as ([et vlan] & _ & Hd).
  destruct (_ && _); [by injection Hd as <-|]. apply outcome_bind_Ret in Hd as (found & _ & Hd).
  destruct found as [ap|]; [|by injection Hd as <-]. apply outcome_bind_Ret in Hd as (same & _ & Hd).
  destruct (same =? 0); [|by eapply inv_receive]. unfold internal_command in Hd.
  apply outcome_bind_Ret in Hd as (icmd & _ & Hd). destruct (_ =? _).
  - apply outcome_bind_Ret in Hd as (head & _ & Hd). apply outcome_bind_Ret in Hd as (s & _ & Hd).
    destruct s; [by eapply inv_free_sta|by injection Hd as <-].
  - destruct (_ =? _); [by eapply inv_reload|by injection Hd as <-].
Qed.

(** ** Timeouts *)

Lemma inv_call_timeout t d d' : call_timeout t d = Ret d' → daemon_inv B d → daemon_inv B d'.
Proof.
  unfold call_timeout. intros Hd Hinv. destruct (handler t), (user_data t) as [| |p|p]; try done.
  all: first [ by eapply inv_session_timer | by eapply inv_run_machine; [apply good_tick|..]
    | apply quiet_client_timer in Hd | apply quiet_retry_timer in Hd ].
  all: by eapply quiet_inv.
Qed.

End Procedures.

(** * Answers of the server *)

Lemma idx_bytes_ok b i : bytes_ok b → byte_ok (idx b i).
Proof.
  intros Hb. unfold idx. rewrite nth_lookup. destruct (b !! Z.to_nat i) as [x|] eqn:Hx; [|done].
  by eapply Forall_lookup_1.
Qed.

Lemma load_bytes_ok b off n x : load b off n = Ret x → bytes_ok b → bytes_ok x.
Proof. intros [_ ->]%load_Ret. auto with fw. Qed.

(** Verification overwrites parts of the message and puts them back: it is a
    message of bytes whatever was written, and its first byte is its own. *)
Lemma verify_keeps msg k sent msg' r :
  Radius_msg_verify msg k sent = Ret (msg', r) → bytes_ok (buf msg) →
  bytes_ok (buf msg') ∧ hdr_code msg' = hdr_code msg.
Proof.
  unfold Radius_msg_verify. intros Hv Hb. destruct sent as [sent|]; [|by injection Hv as <- _].
  apply outcome_bind_Ret in Hv as (found & _ & Hv). destruct found as [|a [|? ?]]; try by injection Hv as <- _.
  apply outcome_bind_Ret in Hv as (orig & Horig & Hv). unfold attr_data in Horig.
  unfold msg_write in Hv at 1. apply outcome_bind_Ret in Hv as (m1 & H1 & Hv).
  apply outcome_bind_Ret in H1 as (b1 & [L1 E1]%store_Ret & [= <-]).
  apply outcome_bind_Ret in Hv as (oa & Hoa & Hv). apply outcome_bind_Ret in Hv as (m2 & H2 & Hv).
  unfold msg_write in H2. apply outcome_bind_Ret in H2 as (b2 & [L2 E2]%store_Ret & [= <-]).
  apply outcome_bind_Ret in Hv as (covered & _ & Hv). apply outcome_bind_Ret in Hv as (m3 & H3 & Hv).
  unfold msg_write in H3. apply outcome_bind_Ret in H3 as (b3 & [L3 E3]%store_Ret & [= <-]).
  apply outcome_bind_Ret in Hv as (m4 & H4 & Hv).
  unfold msg_write in H4. apply outcome_bind_Ret in H4 as (b4 & [L4 E4]%store_Ret & [= <-]).
  assert (buf msg' = b4) as Hm'.
  { case_bool_decide; [by injection Hv as <- _|]. by apply outcome_bind_Ret in Hv as (h & _ & [= <- _]). }
  cbn -[splice Nat.add replicate] in L2, L3, L4, Hoa, E1, E2, E3, E4. rewrite length_replicate in L1.
  assert (length (hdr_authenticator sent) ≤ 16)%nat as Hsa by (unfold hdr_authenticator; rewrite length_take; lia).
  assert (length oa = 16%nat) as Hoal.
  { apply load_Ret in Hoa as [? ->]. rewrite length_take, length_drop. lia. }
  assert (bytes_ok orig) as Hbo by (by eapply load_bytes_ok).
  assert (bytes_ok b1) as Hb1.
  { rewrite E1. apply splice_bytes_ok; [done|]. apply bytes_ok_replicate. done. }
  assert (bytes_ok oa) as Hboa by (by eapply load_bytes_ok).
  assert (∀ i, ¬ (4 ≤ i < 20)%nat → ¬ (a + 2 ≤ i < a + 2 + length orig)%nat → b4 !! i = b1 !! i) as Hrest.
  { intros i Hi Ho. rewrite E4, lookup_splice by done. rewrite decide_False by lia.
    rewrite E3, lookup_splice by done. rewrite decide_False by lia.
    rewrite E2, lookup_splice by done. by rewrite decide_False by lia. }
  rewrite Hm'. unfold hdr_code. rewrite Hm'. split.
  - apply Forall_lookup. intros i x Hx. destruct (decide (4 ≤ i < 20)%nat) as [Hi|Hi].
    + rewrite E4, lookup_splice, decide_True in Hx by (done || lia). exact (Forall_lookup_1 _ _ _ _ Hboa Hx).
    + destruct (decide (a + 2 ≤ i < a + 2 + length orig)%nat) as [Ho|Ho].
      * rewrite E4, lookup_splice, decide_False, E3, lookup_splice, decide_True in Hx by (done || lia).
        exact (Forall_lookup_1 _ _ _ _ Hbo Hx).
      * rewrite Hrest in Hx by done. exact (Forall_lookup_1 _ _ _ _ Hb1 Hx).
  - assert (b4 !! 0%nat = buf msg !! 0%nat) as H0.
    { rewrite Hrest by lia. rewrite E1, lookup_splice by (rewrite length_replicate; done).
      by rewrite decide_False by (rewrite length_replicate; lia). }
    unfold idx. rewrite !nth_lookup. by change (Z.to_nat 0) with 0%nat; rewrite H0.
Qed.

Lemma eap_copy_bytes_ok msg as_ eap : eap_copy_loop msg as_ = Ret eap → bytes_ok (buf msg) → bytes_ok eap.
Proof.
  intros He Hb. revert eap He. induction as_ as [|a as_ IH]; intros eap; cbn [eap_copy_loop]; [intros [= <-]; constructor|].
  intros (t & _ & He)%outcome_bind_Ret. apply outcome_bind_Ret in He as (part & Hp & He).
  apply outcome_bind_Ret in He as (more & Hm & [= <-]). apply Forall_app. split; [|by apply IH].
  destruct (_ =? _); [|injection Hp as <-; constructor]. apply outcome_bind_Ret in Hp as (l & _ & Hp).
  by eapply load_bytes_ok.
Qed.

Lemma get_eap_bytes_ok `{Malloc} msg eap : Radius_msg_get_eap msg = Ret (Some eap) → bytes_ok (buf msg) → bytes_ok eap.
Proof.
  unfold Radius_msg_get_eap. intros (len & _ & He)%outcome_bind_Ret Hb. destruct (_ =? 0); [done|].
  destruct (negb _); [done|]. apply outcome_bind_Ret in He as (e & He & [= <-]). by eapply eap_copy_bytes_ok.
Qed.

Lemma parse_bytes_ok `{Malloc} data msg : bytes_ok data → Radius_msg_parse data = Ret (Some msg) → bytes_ok (buf msg).
Proof.
  intros Hb Hp. destruct (parse_sound data Hb) as [Hn|(m & hdr & avs & rest & Hm & _ & Hd & _ & Hbuf)]; [congruence|].
  rewrite Hm in Hp. injection Hp as <-. rewrite Hbuf. rewrite Hd, app_assoc in Hb. by apply bytes_ok_app in Hb as [? _].
Qed.

Section Answers.
Context `{World} `{Malloc} (B : ptr → Prop).
Implicit Types d : daemon.

(** ** What only happens to accepted stations *)

Lemma inv_call_accepted p e d : B p → daemon_inv B d → daemon_inv B (fst (call_out e d)).
Proof. intros HB [Hm _]. split; [exact Hm|left; eauto]. Qed.

Lemma inv_get_keys p msg req k d d' :
  ieee802_1x_get_keys p msg req k d = Ret d' → B p → daemon_inv B d → daemon_inv B d'.
Proof.
  unfold ieee802_1x_get_keys. intros (keys & _ & Hd)%outcome_bind_Ret HB Hinv.
  destruct keys as [[send recv]|]; [|by injection Hd as <-]. cbn [mppe_recv mppe_send] in Hd.
  destruct recv as [[|b recv]|]; [by injection Hd as <-| |by injection Hd as <-].
  apply outcome_bind_Ret in Hd as (s & _ & Hd). apply outcome_bind_Ret in Hd as ([mat kl] & _ & Hd).
  destruct (install_key s _ d) as [d1 ok] eqn:E1. assert (daemon_inv B d1) as Hinv1.
  { unfold install_key, RT_ioctl in E1. destruct (_ =? _); injection E1 as <- _; by eapply (inv_call_accepted p). }
  destruct ok; [|by injection Hd as <-]. cbn [negb] in Hd. destruct send as [send|]; [|by injection Hd as <-].
  apply outcome_bind_Ret in Hd as (d2 & H2 & Hd). eapply inv_upd_sta in H2; [|done..].
  eapply inv_upd_machine; [exact Hd|by intros ? []; constructor|by left|done].
Qed.

Lemma inv_idle_timeout p t d d' : dot1x_set_IdleTimeoutAction p t d = Ret d' → B p → daemon_inv B d → daemon_inv B d'.
Proof.
  unfold dot1x_set_IdleTimeoutAction. intros (s & _ & [= <-])%outcome_bind_Ret. apply inv_call_accepted.
Qed.

Lemma inv_accept_session p t a d d' r : accept_session p t a d = Ret (d', r) → daemon_inv B d → daemon_inv B d'.
Proof.
  unfold accept_session. intros Hd Hinv. destruct t as [t|].
  - destruct (_ =? _); [|destruct (_ =? 1); [set (u := if _ <? _ then _ else _) in Hd|]];
      apply outcome_bind_Ret in Hd as (d1 & H1 & [= <- _]); try by eapply inv_session_timeout.
    eapply inv_upd_machine; [exact H1|by intros ? []; constructor|by right|done].
  - destruct (_ =? 1); [|by injection Hd as <- _]. apply outcome_bind_Ret in Hd as (d1 & H1 & [= <- _]).
    by eapply inv_session_timeout.
Qed.

Lemma inv_apply_answer p msg req k st it ta d d' r :
  apply_answer p msg req k st it ta d = Ret (d', r) → (hdr_code msg = RADIUS_CODE_ACCESS_ACCEPT → B p) →
  daemon_inv B d → daemon_inv B d'.
Proof.
  unfold apply_answer. intros Hd HB Hinv. destruct (hdr_code msg =? RADIUS_CODE_ACCESS_ACCEPT) eqn:Hc.
  - apply Z.eqb_eq in Hc. specialize (HB Hc).
    apply outcome_bind_Ret in Hd as ([d1 ff] & H1%inv_accept_session & Hd); [|done].
    apply outcome_bind_Ret in Hd as (d2 & H2 & Hd).
    eapply inv_upd_machine in H2; [|by intros ? []; constructor|by left|done].
    apply outcome_bind_Ret in Hd as (d3 & H3 & Hd). assert (daemon_inv B d3) as Hinv3.
    { destruct it; [by eapply inv_idle_timeout|by injection H3 as <-]. }
    apply outcome_bind_Ret in Hd as (d4 & H4%inv_get_keys & [= <- _]); done.
  - destruct (hdr_code msg =? RADIUS_CODE_ACCESS_REJECT).
    + apply outcome_bind_Ret in Hd as (d1 & H1 & [= <- _]).
      eapply inv_upd_machine; [exact H1|by intros ? []; constructor|by right|done].
    + apply outcome_bind_Ret in Hd as (d1 & H1 & Hd). assert (daemon_inv B d1) as Hinv1.
      { destruct st; [|by injection H1 as <-].
        eapply inv_upd_machine; [exact H1|by intros ? []; constructor|by right|done]. }
      apply outcome_bind_Ret in Hd as (d2 & H2 & [= <- _]).
      eapply inv_upd_machine; [exact H2|by intros ? []; constructor|by right|done].
Qed.

Lemma inv_decapsulate p d d' :
  ieee802_1x_decapsulate_radius p d = Ret d' →
  (∀ s m, heap d !! p = Some s → last_recv_radius s = Some m → bytes_ok (buf m)) →
  daemon_inv B d → daemon_inv B d'.
Proof.
  unfold ieee802_1x_decapsulate_radius. intros (s & Hs%sta_at_Ret & Hd)%outcome_bind_Ret Hb Hinv.
  destruct (last_recv_radius s) as [m|] eqn:Hm; [|by injection Hd as <-].
  apply outcome_bind_Ret in Hd as (eap & He & Hd). destruct eap as [eap|]; [|by eapply inv_upd_sta in Hd].
  destruct (decide _); [by injection Hd as <-|]. apply outcome_bind_Ret in Hd as (d1 & H1 & Hd).
  eapply inv_upd_sta; [exact Hd|done|]. assert (byte_ok (idx eap 1)) as Hi.
  { apply idx_bytes_ok. eapply get_eap_bytes_ok; eauto. }
  revert H1 Hi. generalize (idx eap 1) as i. intros i H1 Hi.
  eapply inv_upd_machine; [exact H1|by intros ? []; constructor|by right|done].
Qed.

Lemma list_find_id_spec fuel id o d p :
  list_find_id fuel id o d = Ret (Some p) → ∃ s, heap d !! p = Some s ∧ radius_identifier s = id.
Proof.
  revert o. induction fuel as [|fuel IH]; intros o; cbn [list_find_id]; destruct o as [q|]; try done.
  intros (s & Hs%sta_at_Ret & Hp)%outcome_bind_Ret. destruct (_ && _) eqn:Hc; [|by eapply IH].
  injection Hp as <-. exists s. split; [done|lia].
Qed.

(** ** The message a station has received last *)

Definition same_recv (p : ptr) d d' : Prop :=
  (last_recv_radius <$> heap d' !! p) = (last_recv_radius <$> heap d !! p).

#[local] Instance same_recv_preorder p : PreOrder (same_recv p).
Proof. split; [done|]. intros d1 d2 d3 H1 H2. unfold same_recv in *. congruence. Qed.

Lemma recv_heap p d d' : heap d' = heap d → same_recv p d d'.
Proof. unfold same_recv. by intros ->. Qed.

Lemma recv_set_sta p d s s' :
  heap d !! p = Some s → last_recv_radius s' = last_recv_radius s → same_recv p d (set_sta d p s').
Proof. intros Hs He. unfold same_recv. cbn. rewrite lookup_insert_eq, Hs. cbn. by rewrite He. Qed.

Lemma recv_upd_machine p g d d' : upd_machine p g d = Ret d' → same_recv p d d'.
Proof. intros (s & sm & Hs & Hsm & ->)%upd_machine_inv. by eapply recv_set_sta. Qed.

Lemma recv_session_timeout p t d d' : Ap_sta_session_timeout p t d = Ret d' → same_recv p d d'.
Proof.
  unfold Ap_sta_session_timeout. intros Hd%quiet_register. apply recv_heap. rewrite (quiet_heap _ _ Hd).
  apply quiet_cancel.
Qed.

Lemma recv_accept_session p t a d d' r : accept_session p t a d = Ret (d', r) → same_recv p d d'.
Proof.
  unfold accept_session. intros Hd. destruct t as [t|].
  - destruct (_ =? _); [|destruct (_ =? 1); [set (u := if _ <? _ then _ else _) in Hd|]];
      apply outcome_bind_Ret in Hd as (d1 & H1 & [= <- _]); try by eapply recv_session_timeout.
    by eapply recv_upd_machine.
  - destruct (_ =? 1); [|by injection Hd as <- _]. apply outcome_bind_Ret in Hd as (d1 & H1 & [= <- _]).
    by eapply recv_session_timeout.
Qed.

Lemma recv_get_keys p msg req k d d' : ieee802_1x_get_keys p msg req k d = Ret d' → same_recv p d d'.
Proof.
  unfold ieee802_1x_get_keys. intros (keys & _ & Hd)%outcome_bind_Ret.
  destruct keys as [[send recv]|]; [|by injection Hd as <-]. cbn [mppe_recv mppe_send] in Hd.
  destruct recv as [[|b recv]|]; [by injection Hd as <-| |by injection Hd as <-].
  apply outcome_bind_Ret in Hd as (s & _ & Hd). apply outcome_bind_Ret in Hd as ([mat kl] & _ & Hd).
  destruct (install_key s _ d) as [d1 ok] eqn:E1. assert (same_recv p d d1) as H1.
  { unfold install_key, RT_ioctl in E1. destruct (_ =? _); by injection E1 as <- _. }
  destruct ok; [|by injection Hd as <-]. cbn [negb] in Hd. destruct send as [send|]; [|by injection Hd as <-].
  apply outcome_bind_Ret in Hd as (d2 & (s2 & Hs2 & ->)%upd_sta_inv & Hd%recv_upd_machine).
  etrans; [exact H1|]. etrans; [|exact Hd]. by eapply recv_set_sta.
Qed.

Lemma recv_apply_answer p msg req k st it ta d d' r :
  apply_answer p msg req k st it ta d = Ret (d', r) → same_recv p d d'.
Proof.
  unfold apply_answer. intros Hd. destruct (hdr_code msg =? RADIUS_CODE_ACCESS_ACCEPT).
  - apply outcome_bind_Ret in Hd as ([d1 ff] & H1%recv_accept_session & Hd).
    apply outcome_bind_Ret in Hd as (d2 & H2%recv_upd_machine & Hd).
    apply outcome_bind_Ret in Hd as (d3 & H3 & Hd). apply outcome_bind_Ret in Hd as (d4 & H4%recv_get_keys & [= <- _]).
    assert (same_recv p d2 d3) as H23.
    { destruct it; [|by injection H3 as <-]. unfold dot1x_set_IdleTimeoutAction in H3.
      by apply outcome_bind_Ret in H3 as (s & _ & [= <-]). }
    etrans; [exact H1|]. etrans; [exact H2|]. by etrans.
  - destruct (hdr_code msg =? RADIUS_CODE_ACCESS_REJECT).
    + apply outcome_bind_Ret in Hd as (d1 & H1%recv_upd_machine & [= <- _]). done.
    + apply outcome_bind_Ret in Hd as (d1 & H1 & Hd).
      apply outcome_bind_Ret in Hd as (d2 & H2%recv_upd_machine & [= <- _]). etrans; [|exact H2].
      destruct st; [by eapply recv_upd_machine|by injection H1 as <-].
Qed.

(** ** An accept *)

(** [msg] is a valid Access-Accept for the station [p], in answer to [req]. *)
Definition valid_accept (p : ptr) (msg req : radius_msg) (secret : option bytes) (len : Z) d : Prop :=
  ∃ s k msg',
    heap d !! p = Some s ∧ radius_identifier s = hdr_identifier msg
    ∧ hdr_code msg = RADIUS_CODE_ACCESS_ACCEPT
    ∧ secret_bytes secret len = Ret k ∧ Radius_msg_verify msg k (Some req) = Ret (msg', 0).

Lemma inv_receive_auth msg req secret len d d' r :
  ieee802_1x_receive_auth msg req secret len d = Ret (d', r) → bytes_ok (buf msg) →
  (∀ p, valid_accept p msg req secret len d → B p) → daemon_inv B d →
  daemon_inv B d' ∧ (r = RADIUS_RX_UNKNOWN → d' = d).
Proof.
  unfold ieee802_1x_receive_auth. intros (sta & Hsta & Hd)%outcome_bind_Ret Hb HB Hinv.
  destruct sta as [p|]; [|by injection Hd as <- <-]. apply list_find_id_spec in Hsta as (s0 & Hs0 & Hid).
  apply outcome_bind_Ret in Hd as (k & Hk & Hd). apply outcome_bind_Ret in Hd as ([msg1 valid] & Hans & Hd).
  destruct valid; [|by injection Hd as <- <-]. cbn [negb] in Hd.
  assert (bytes_ok (buf msg1) ∧ (hdr_code msg1 = RADIUS_CODE_ACCESS_ACCEPT → B p)) as [Hb1 HB1].
  { unfold answer_ok in Hans. apply outcome_bind_Ret in Hans as ([ma x] & _ & Hans).
    apply outcome_bind_Ret in Hans as ([em y] & _ & Hans). destruct (_ && (em <? 0)) eqn:Hr.
    - injection Hans as <-. split; [done|]. intros Hc. rewrite Hc in Hr. done.
    - apply outcome_bind_Ret in Hans as ([m res] & Hv & [= <- Hres]). apply Z.eqb_eq in Hres as ->.
      destruct (verify_keeps _ _ _ _ _ Hv Hb) as [? Hcode]. split; [done|]. intros Hc. apply HB.
      exists s0, k, m. by rewrite <-Hcode. }
  destruct (negb _); [by injection Hd as <- <-|]. apply outcome_bind_Ret in Hd as (d1 & H1 & Hd).
  pose proof H1 as H1i. eapply inv_upd_sta in H1i; [|done..].
  apply outcome_bind_Ret in Hd as (st & _ & Hd). apply outcome_bind_Ret in Hd as (act & _ & Hd).
  apply outcome_bind_Ret in Hd as (it & _ & Hd). apply outcome_bind_Ret in Hd as ([d2 ff] & H2 & Hd).
  apply outcome_bind_Ret in Hd as (d3 & H3 & Hd). apply outcome_bind_Ret in Hd as (d4 & H4 & Hd).
  apply outcome_bind_Ret in Hd as (d5 & H5 & [= <- <-]). split; [|done].
  assert (daemon_inv B d2) as Hinv2 by (by eapply inv_apply_answer).
  assert (daemon_inv B d3) as Hinv3.
  { eapply inv_decapsulate; [exact H3| |done]. intros s2 m Hs2 Hm.
    apply upd_sta_inv in H1 as (s1 & Hs1 & ->). pose proof (recv_apply_answer _ _ _ _ _ _ _ _ _ _ H2) as Hr.
    unfold same_recv in Hr. rewrite Hs2 in Hr. cbn in Hr. rewrite lookup_insert_eq in Hr. cbn in Hr.
    rewrite Hm in Hr. by injection Hr as ->. }
  assert (daemon_inv B d4) as Hinv4 by (eapply inv_run_machine; [apply good_step|exact H4|done]).
  destruct ff; [by eapply inv_free_sta|by injection H5 as <-].
Qed.

End Answers.

(** * Events *)

Section Events.
Context `{World} `{Malloc}.
Implicit Types d : daemon.

(** The event is a datagram that holds a valid Access-Accept for the station
    [p], in answer to a pending request. *)
Definition accepts (p : ptr) (ev : daemon_event) d : Prop :=
  ∃ data msg c req rest,
    ev = EvDatagram (Some data) ∧ Radius_msg_parse (take recv_size data) = Ret (Some msg)
    ∧ radius d = Some c ∧ take_request (hdr_identifier msg) (msgs c) = Some (req, rest)
    ∧ valid_accept p msg (entry_msg req) (entry_secret req) (entry_secret_len req) d.

(** The network delivers bytes. *)
Definition event_ok (ev : daemon_event) : Prop :=
  match ev with EvDatagram (Some data) => bytes_ok data | _ => True end.

Lemma inv_run_handlers B hs msg req d d' :
  run_handlers run_rx_handler hs msg req d = Ret d' → bytes_ok (buf msg) →
  (∀ p, valid_accept p msg (entry_msg req) (entry_secret req) (entry_secret_len req) d → B p) →
  daemon_inv B d → daemon_inv B d'.
Proof.
  intros Hd Hb HB Hinv. induction hs as [|[] hs IH]; cbn [run_handlers] in Hd; [by injection Hd as <-|].
  apply outcome_bind_Ret in Hd as ([d1 r] & H1 & Hd). cbn [run_rx_handler] in H1.
  destruct (inv_receive_auth B _ _ _ _ _ _ _ H1 Hb HB Hinv) as [Hinv1 Hun].
  destruct r; [by injection Hd as <-..|]. rewrite Hun in Hd by done. auto.
Qed.

Lemma inv_mono (B B' : ptr → Prop) d : (∀ p, B p → B' p) → daemon_inv B d → daemon_inv B' d.
Proof.
  intros HB [Hm Ho]. split.
  - intros p s Hs sm Hsm. destruct (Hm p s Hs sm Hsm) as [? [?|?]]; eauto.
  - destruct Ho as [(p & Hp)|]; [left; eauto|by right].
Qed.

Lemma inv_event B ev d d' :
  handle_event ev d = Ret d' → event_ok ev → daemon_inv B d →
  daemon_inv (λ p, B p ∨ accepts p ev d) d'.
Proof.
  intros Hd Hev Hinv0. assert (daemon_inv (λ p, B p ∨ accepts p ev d) d) as Hinv.
  { eapply inv_mono; [|exact Hinv0]. auto. }
  destruct ev as [t| |stack frame sk|data|s]; cbn [handle_event] in Hd.
  - injection Hd as <-. by apply inv_set_now.
  - unfold run_first_timeout in Hd. destruct (timeouts (loop d)) as [|t q]; [by injection Hd as <-|].
    destruct (timer_ge _ _); [|by injection Hd as <-]. eapply inv_call_timeout; [exact Hd|by apply inv_set_loop].
  - by eapply inv_handle_read.
  - unfold Radius_client_receive in Hd. destruct data as [data|]; [|by injection Hd as <-].
    destruct (decide _); [by injection Hd as <-|]. apply outcome_bind_Ret in Hd as (msg & Hmsg & Hd).
    destruct msg as [msg|]; [|by injection Hd as <-]. apply outcome_bind_Ret in Hd as (c & Hc & Hd).
    unfold get_radius in Hc. destruct (radius d) as [c'|] eqn:Hr; [|done]. injection Hc as ->.
    destruct (take_request _ _) as [[req rest]|] eqn:Ht; [|by injection Hd as <-].
    eapply inv_run_handlers; [exact Hd| | |by apply inv_set_radius].
    + eapply parse_bytes_ok; [|exact Hmsg]. by apply bytes_ok_take.
    + intros p Hp. right. by exists data, msg, c, req, rest.
  - unfold eloop_handle_signal in Hd. destruct (list_find _ _) as [[i x]|]; [|by injection Hd as <-].
    unfold call_signal in Hd. destruct (sig_handler x).
    + injection Hd as <-. by apply inv_set_loop.
    + by eapply inv_reload.
Qed.

(** Some event of the run accepted the station [p]. *)
Inductive accepted (p : ptr) : list daemon_event → daemon → Prop :=
| accepted_now ev evs d : accepts p ev d → accepted p (ev :: evs) d
| accepted_later ev evs d d' : handle_event ev d = Ret d' → accepted p evs d' → accepted p (ev :: evs) d.

Lemma inv_events evs : ∀ B d d',
  handle_events evs d = Ret d' → Forall event_ok evs → daemon_inv B d →
  daemon_inv (λ p, B p ∨ accepted p evs d) d'.
Proof.
  induction evs as [|ev evs IH]; intros B d d' Hd Hok Hinv; cbn [handle_events] in Hd.
  - injection Hd as <-. eapply inv_mono; [|exact Hinv]. auto.
  - apply outcome_bind_Ret in Hd as (d1 & H1 & Hd). apply list.Forall_cons in Hok as [Hev Hok].
    eapply inv_mono; [|exact (IH _ _ _ Hd Hok (inv_event _ _ _ _ H1 Hev Hinv))].
    intros p [[?|?]|?]; [by left|right; by apply accepted_now|right; by eapply accepted_later].
Qed.

Lemma inv_start d : heap d = ∅ → Forall harmless (d_out d) → daemon_inv (λ _, False) d.
Proof. intros Hh Ho. split; [|by right]. intros p s. by rewrite Hh, lookup_empty. Qed.

End Events.
