(* ===== verification/DaemonMain.v ===== *)
(** The program around the handlers: setting up leaves no stations and opens
    nothing, and the main loop is a sequence of the events of [Rtdot1x]. *)

From stdpp Require Import gmap.
From S2P Require Import Prelude EapolSm EapolSafety Md5 Radius Eloop Dot1xConfig Rtapd.
From S2P Require Import RadiusClient Ieee8021xTx StaInfo StaFacts Ieee8021x Rtdot1x DaemonFacts.

Section Start.
Context `{World} `{Malloc}.
Implicit Types d : daemon.

(** * Setting up *)

Lemma quiet_call_out e d d' r : call_out e d = (d', r) → harmless e → quiet d d'.
Proof. intros He Hh. pose proof (quiet_call e d Hh) as Hq. by rewrite He in Hq. Qed.

Lemma quiet_bind_raw s name d d' r : bind_raw s name d = Ret (d', r) → quiet d d'.
Proof.
  unfold bind_raw. destruct (eloop_register_read_sock _ _ _ _ _) as [e res].
  set (d1 := d ⦃ loop := e ⦄). assert (quiet d d1) as Hq by (by apply quiet_same). clearbody d1. intros Hd.
  etrans; [exact Hq|]. destruct (negb _); [by injection Hd as <- _|].
  apply outcome_bind_Ret in Hd as (n1 & _ & Hd). apply outcome_bind_Ret in Hd as (n2 & _ & Hd).
  destruct (call_out _ d1) as [d2 r2] eqn:E2. apply quiet_call_out in E2; [|done].
  etrans; [exact E2|]. destruct (negb _); [by injection Hd as <- _|].
  destruct (call_out _ d2) as [d4 r4] eqn:E4. apply quiet_call_out in E4; [|done].
  destruct (r4 <? 0); by injection Hd as <- _.
Qed.

Lemma quiet_open_eth todo i d d' r : open_eth todo i d = Ret (d', r) → quiet d d'.
Proof.
  revert i d. induction todo as [|todo IH]; intros i d; cbn [open_eth]; [by intros [= <- _]|].
  destruct (call_out Socket d) as [d1 s] eqn:E1. apply quiet_call_out in E1; [|done].
  intros (socks & _ & Hd)%outcome_bind_Ret. etrans; [exact E1|].
  set (d2 := d1 ⦃ eth_sock := socks ⦄) in Hd. assert (quiet d1 d2) as H2 by (by apply quiet_same). clearbody d2.
  etrans; [exact H2|]. destruct (s <? 0); [by injection Hd as <- _|].
  apply outcome_bind_Ret in Hd as ([d3 r3] & H3%quiet_bind_raw & Hd). etrans; [exact H3|].
  destruct (negb _); [by injection Hd as <- _|]. by eapply IH.
Qed.

Lemma quiet_open_wlan todo i d d' r : open_wlan todo i d = Ret (d', r) → quiet d d'.
Proof.
  revert i d. induction todo as [|todo IH]; intros i d; cbn [open_wlan]; [by intros [= <- _]|].
  destruct (call_out Socket d) as [d1 s] eqn:E1. apply quiet_call_out in E1; [|done].
  intros (socks & _ & Hd)%outcome_bind_Ret. etrans; [exact E1|].
  set (d2 := d1 ⦃ wlan_sock := socks ⦄) in Hd. assert (quiet d1 d2) as H2 by (by apply quiet_same). clearbody d2.
  etrans; [exact H2|]. destruct (s <? 0); [by injection Hd as <- _|].
  apply outcome_bind_Ret in Hd as ([d3 r3] & H3%quiet_bind_raw & Hd). etrans; [exact H3|].
  destruct (negb _); [by injection Hd as <- _|]. by eapply IH.
Qed.

Lemma quiet_read_addrs todo i d d' r : read_addrs todo i d = Ret (d', r) → quiet d d'.
Proof.
  revert i d. induction todo as [|todo IH]; intros i d; cbn [read_addrs]; [by intros [= <- _]|].
  destruct (call_out Socket d) as [d1 s] eqn:E1. apply quiet_call_out in E1; [|done]. intros Hd.
  etrans; [exact E1|]. destruct (s <? 0); [by injection Hd as <- _|]. revert Hd.
  generalize (hwaddr_of (length (d_out d1))) as answer. intros answer.
  destruct (call_out (HwAddr i) d1) as [d2 r2] eqn:E2. apply quiet_call_out in E2; [|done]. intros Hd.
  etrans; [exact E2|]. assert (∀ dx, quiet dx (fst (call_out (Close s) dx))) as Hclose by (intros; by apply quiet_call).
  destruct answer as [[family data]|]; [|injection Hd as <- _; apply Hclose].
  destruct (negb _); [injection Hd as <- _; apply Hclose|].
  apply outcome_bind_Ret in Hd as (a & _ & Hd). apply outcome_bind_Ret in Hd as (own & _ & Hd).
  apply IH in Hd. etrans; [|exact Hd]. etrans; [|apply Hclose]. by apply quiet_same.
Qed.

Lemma quiet_init_sockets d d' r : Apd_init_sockets d = Ret (d', r) → quiet d d'.
Proof.
  unfold Apd_init_sockets. intros ([d1 r1] & H1%quiet_open_eth & Hd)%outcome_bind_Ret. etrans; [exact H1|].
  destruct (negb _); [by injection Hd as <- _|].
  apply outcome_bind_Ret in Hd as ([d2 r2] & H2%quiet_open_wlan & Hd). etrans; [exact H2|].
  destruct (negb _); [by injection Hd as <- _|].
  apply outcome_bind_Ret in Hd as ([d3 r3] & H3%quiet_read_addrs & Hd). etrans; [exact H3|].
  destruct (negb _); by injection Hd as <- _.
Qed.

Lemma quiet_setup d d' r : Apd_setup_interface d = Ret (d', r) → quiet d d'.
Proof.
  unfold Apd_setup_interface. intros ([d1 r1] & H1%quiet_init_sockets & Hd)%outcome_bind_Ret. etrans; [exact H1|].
  destruct (negb _); [by injection Hd as <- _|].
  apply outcome_bind_Ret in Hd as ([d2 r2] & H2%quiet_client_init & Hd). etrans; [exact H2|].
  destruct (negb _); [by injection Hd as <- _|].
  apply outcome_bind_Ret in Hd as ([d3 r3] & H3 & Hd). assert (quiet d2 d3) as H23.
  { unfold ieee802_1x_init in H3. apply outcome_bind_Ret in H3 as ([d4 r4] & H4 & [= <- _]).
    unfold Radius_client_register in H4. apply outcome_bind_Ret in H4 as (c & _ & H4).
    destruct (negb _); injection H4 as <- _; by apply quiet_same. }
  etrans; [exact H23|]. destruct (negb _); by injection Hd as <- _.
Qed.

(** The daemon that enters the main loop knows no station, and has asked the
    driver for nothing but its configuration. *)
Lemma main_start_fresh prefix pid t d :
  main_start prefix pid t = Ret (Some (inl d)) → heap d = ∅ ∧ Forall harmless (d_out d).
Proof.
  unfold main_start. destruct (negb _); [done|]. cbv zeta. generalize (register_signals (eloop_init CApd)) as e. intros e.
  intros (apd & Hapd & Hd)%outcome_bind_Ret. destruct apd as [d0|]; [|done].
  assert (heap d0 = ∅ ∧ Forall harmless (d_out d0)) as [Hh Ho].
  { unfold Apd_init in Hapd. destruct (_ || _); [done|]. cbv zeta in Hapd. destruct (ret_of 0 <? 0); [done|].
    apply outcome_bind_Ret in Hapd as (c & _ & Hapd). destruct c as [c|]; [|done].
    injection Hapd as <-. split; [done|]. by repeat constructor. }
  apply outcome_bind_Ret in Hd as ([d1 r1] & [Hh1 (outs & Ho1 & HF)]%quiet_setup & Hd).
  destruct (negb _); [done|]. injection Hd as <-. cbn. split; [by rewrite Hh1|].
  rewrite Ho1. repeat (apply Forall_app; split); try done. by repeat constructor.
Qed.

End Start.

(** * The main loop *)

Section Main.
Context `{World} `{Malloc} `{Input}.
Implicit Types d : daemon.

Lemma handle_events_app evs evs' d d1 :
  handle_events evs d = Ret d1 → handle_events (evs ++ evs') d = handle_events evs' d1.
Proof.
  revert d. induction evs as [|ev evs IH]; intros d; cbn [handle_events app]; [by intros [= ->]|].
  intros (d2 & H2 & H1')%outcome_bind_Ret. rewrite H2. cbn [mbind outcome_bind]. by apply IH.
Qed.

(** The datagrams of the event come from [recv]. *)
Definition from_input (ev : daemon_event) : Prop :=
  ∀ data, ev = EvDatagram (Some data) → ∃ n, recv_datagram n = Some data.

Lemma from_input_ok ev : from_input ev → event_ok ev.
Proof.
  destruct ev as [| | |[data|]|]; try done. intros Hin. destruct (Hin data eq_refl) as (n & Hn).
  by eapply recv_bytes.
Qed.

(** From [w] to [w'] the daemon has handled such events. *)
Definition by_events (w w' : main_state) : Prop :=
  ∃ evs, handle_events evs (fst w) = Ret (fst w') ∧ Forall from_input evs.

#[local] Instance by_events_preorder : PreOrder by_events.
Proof.
  split.
  - intros w. by exists [].
  - intros w1 w2 w3 (e1 & H1' & F1) (e2 & H2 & F2). exists (e1 ++ e2). rewrite (handle_events_app _ _ _ _ H1').
    split; [done|]. by apply Forall_app.
Qed.

Lemma by_event ev w w' : handle_event ev (fst w) = Ret (fst w') → from_input ev → by_events w w'.
Proof. intros Hev Hin. exists [ev]. cbn [handle_events]. rewrite Hev. split; [done|by constructor]. Qed.

Lemma reader_events r w w' : main_reader r w = Ret w' → by_events w w'.
Proof.
  destruct w as [d n]. unfold main_reader. intros (d1 & H1' & [= <-])%outcome_bind_Ret.
  destruct (sock_handler r).
  - by apply (by_event (EvFrame (fst (recv_frame n)) (snd (recv_frame n)) (sock r))).
  - apply (by_event (EvDatagram (recv_datagram n))); [done|]. intros data [= Hd]. eauto.
Qed.

Lemma readers_events fuel i ready w w' :
  run_readers (loop ∘ fst) main_reader fuel i ready w = Ret w' → by_events w w'.
Proof.
  revert i w. induction fuel as [|fuel IH]; intros i w; cbn [run_readers]; (destruct (_ !! i) as [r|]; [|by intros [= <-]]); [done|].
  intros (w1 & H1' & Hw%IH)%outcome_bind_Ret. etrans; [|exact Hw].
  case_bool_decide; [by eapply reader_events|by injection H1' as <-].
Qed.

Lemma first_timeout_events t w w' :
  run_first_timeout (loop ∘ fst) main_set_loop main_timeout t w = Ret w' → now (fst w) = t → by_events w w'.
Proof.
  destruct w as [d n]. intros Hw Ht. apply (by_event EvTimeout); [|done]. revert Hw. cbn [handle_event fst] in *.
  rewrite Ht. unfold run_first_timeout. cbn. destruct (timeouts (loop d)); [by intros [= <-]|].
  destruct (timer_ge _ _); [|by intros [= <-]]. unfold main_timeout.
  by intros (d1 & H1' & [= <-])%outcome_bind_Ret.
Qed.

Lemma pass_events x w w' b :
  eloop_run (loop ∘ fst) main_set_loop main_timeout main_reader [x] w = Ret (w', b) → now (fst w) = after x →
  by_events w w'.
Proof.
  intros Hw Hx. cbn [eloop_run] in Hw. destruct (_ || _); [by injection Hw as <- _|].
  assert (∀ r w1, run_first_timeout (loop ∘ fst) main_set_loop main_timeout (after x) w = Ret w1 →
    (∀ w2, r w1 = Ret w2 → by_events w1 w2) → ∀ w2, r w1 = Ret w2 → by_events w w2) as Hpass.
  { intros r w1 Hw1 Hr w2 Hw2. etrans; [by eapply first_timeout_events|by apply Hr]. }
  destruct (result x) as [| | |ready]; [by injection Hw as <- _|..];
    apply outcome_bind_Ret in Hw as (w1 & Hw1 & Hw); apply outcome_bind_Ret in Hw as (w2 & Hw2 & Hw);
    (destruct (_ || _); injection Hw as <- _).
  all: first [ injection Hw2 as <-; by eapply first_timeout_events
    | etrans; [by eapply first_timeout_events|by eapply readers_events] ].
Qed.

Lemma main_loop_events passes w w' b : main_loop passes w = Ret (w', b) → by_events w w'.
Proof.
  revert w. induction passes as [|p passes IH]; intros w; cbn [main_loop];
    (destruct (loop_ended _); [by intros [= <- _]|]); [by intros [= <- _]|].
  destruct p as [x|s].
  - intros ([w1 ok] & H1' & Hw)%outcome_bind_Ret. apply pass_events in H1'; [|done].
    assert (by_events w w1) as Hw1.
    { etrans; [|exact H1']. by apply (by_event (EvClock (after x))). }
    destruct ok; [|by injection Hw as <- _]. etrans; [exact Hw1|by apply IH].
  - intros (w1 & H1' & Hw%IH)%outcome_bind_Ret. etrans; [|exact Hw].
    unfold main_signal in H1'. apply outcome_bind_Ret in H1' as (d1 & H1' & [= <-]). by apply (by_event (EvSignal s)).
Qed.

End Main.
