(* ===== verification/DaemonProps.v ===== *)
(** Properties of the whole daemon, from [main] on: frames, answers, timers and
    signals in any order. *)

From stdpp Require Import gmap.
From S2P Require Import Prelude EapolSm EapolSafety Md5 Radius RadiusRep RadiusFacts Eloop Dot1xConfig Dot1xConfigProps.
From S2P Require Import Rtapd RadiusClient Ieee8021xTx StaInfo StaFacts Ieee8021x Rtdot1x DaemonFacts DaemonMain.

(** * A concrete run: the daemon starts, and a station is accepted *)

Definition demo_own : bytes := [0; 12; 67; 1; 2; 3].
Definition demo_mac : bytes := [0; 17; 34; 51; 68; 85].
Definition demo_secret : bytes := [107; 101; 121].

(** The raw socket of the wireless interface is 7, that of the RADIUS client is
    9; every other call returns 0. *)
#[local] Program Instance demo_world : World :=
  {| ret_of := λ i, if bool_decide (i = 5%nat) then 7 else if bool_decide (i = 11%nat) then 9 else 0;
     rand_of := λ _ n, Some (replicate n 7);
     config_answer := λ _, Some demo_cmm; config_rand := λ _, demo_rand;
     hwaddr_of := λ _, Some (ARPHRD_ETHER, demo_own ++ replicate 8 0) |}.
Next Obligation. intros _ n b [= <-]. split; [apply length_replicate|by apply bytes_ok_replicate]. Qed.
#[local] Instance demo_malloc : Malloc := λ _, true.

Abbreviation demo_start := (main_start [114; 97] 321 (mk_timeval 1000 0)).

Definition demo_frame (body : bytes) : bytes := demo_own ++ demo_mac ++ be16 ETH_P_PAE ++ body.

(** EAPOL-Start and EAP-Response/Identity. *)
Definition demo_frames : list bytes := [demo_frame [1; 1; 0; 0]; demo_frame [1; 0; 0; 6; 2; 1; 0; 6; 1; 97]].

(** The server's answer to the first pending request. *)
Definition demo_answer (d : daemon) : bytes :=
  match radius d with
  | Some (mk_client _ _ (req :: _) _ _) =>
      let sauth := hdr_authenticator (entry_msg req) in
      let l := [(RADIUS_ATTR_SESSION_TIMEOUT, [0; 0; 1; 0]); (RADIUS_ATTR_EAP_MESSAGE, [3; 1; 0; 4])] in
      let hdr := [RADIUS_CODE_ACCESS_ACCEPT; hdr_identifier (entry_msg req); 0; 50] ++ replicate 16 0 in
      let avs := l ++ [(RADIUS_ATTR_MESSAGE_AUTHENTICATOR, mac_expected demo_secret hdr sauth l [])] in
      take 4 hdr ++ auth_expected demo_secret hdr sauth avs ++ enc avs
  | _ => []
  end.

Definition demo_datagram : bytes :=
  match demo_start with
  | Ret (Some (inl d)) =>
      match handle_events (map (λ f, EvFrame (replicate recv_size 0) (Some f) 7) demo_frames) d with
      | Ret d => demo_answer d
      | _ => []
      end
  | _ => []
  end.

Lemma demo_datagram_ok : bytes_ok demo_datagram.
Proof. apply (bool_decide_unpack _). by vm_compute. Qed.

#[local] Program Instance demo_input : Input :=
  {| recv_frame := λ n, (replicate recv_size 0, demo_frames !! n);
     recv_datagram := λ n, if bool_decide (n = 2%nat) then Some demo_datagram else None |}.
Next Obligation.
  intros n data. generalize demo_datagram, demo_datagram_ok. intros dg Hdg. case_bool_decide; [|done].
  by intros [= <-].
Qed.

Definition demo_passes : list main_pass :=
  map (λ s, Wake (mk_wakeup (mk_timeval 1000 0) (SelectReady [s]) (mk_timeval 1000 0))) [7; 7; 9].

(** The daemon in front of the main loop and behind it. *)
Definition demo_run : outcome (daemon * daemon) :=
  let* start := demo_start in
  match start with
  | Some (inl d0) => let* (w, _) := main_loop demo_passes (d0, 0%nat) in Ret (d0, fst w)
  | _ => Oob
  end.

Lemma demo_run_inversion d0 d :
  demo_run = Ret (d0, d) →
  demo_start = Ret (Some (inl d0)) ∧ ∃ n b, main_loop demo_passes (d0, 0%nat) = Ret ((d, n), b).
Proof.
  unfold demo_run. intros (start & Hs & Hr)%outcome_bind_Ret. destruct start as [[d1|d1]|]; [|done..].
  apply outcome_bind_Ret in Hr as ([[d2 n] b] & Hw & [= <- <-]). split; [exact Hs|by exists n, b].
Qed.

Lemma demo_run_facts :
  match demo_run with
  | Ret (_, d) =>
      (portStatus <$> (heap d !! 1%nat ≫= eapol_sm)) = Some Authorized
      ∧ Ioctl RT_OID_802_DOT1X_STATIC_WEP_COPY 0 demo_mac ∈ d_out d
  | _ => False
  end.
Proof. vm_compute. split; [done|by repeat constructor]. Qed.

(** * Properties *)

(** C1. No port opens without a valid Access-Accept.  Let the daemon start and
    run its main loop through any sequence of frames from stations, datagrams,
    timeouts and signals.  The run is a sequence of events of which the
    datagrams are what [recv] returned, and: when the Authenticator of a
    station stands for an open port at the end, one of the events was a
    datagram with an Access-Accept that answers a pending request of that
    station and whose Message-Authenticator and Response Authenticator are
    valid under the secret the request was sent with; and an effect that
    installs a key, copies the shared key or sets an idle time needs such an
    event for some station. *)
Theorem port_opens_only_on_valid_accept `{World} `{Malloc} `{Input} prefix pid t passes d0 d n b :
  main_start prefix pid t = Ret (Some (inl d0)) → main_loop passes (d0, 0%nat) = Ret ((d, n), b) →
  ∃ evs, handle_events evs d0 = Ret d ∧ Forall from_input evs
    ∧ (∀ p s sm, heap d !! p = Some s → eapol_sm s = Some sm → portStatus sm = Authorized → accepted p evs d0)
    ∧ (∀ e, e ∈ d_out d → ¬ harmless e → ∃ p, accepted p evs d0).
Proof.
  intros Hstart Hrun. destruct (main_start_fresh _ _ _ _ Hstart) as [Hh Ho].
  destruct (main_loop_events _ _ _ _ Hrun) as (evs & Hd & Hin). cbn [fst] in Hd. exists evs.
  split; [done|]. split; [done|].
  destruct (inv_events evs _ _ _ Hd (List.Forall_impl event_ok from_input_ok Hin) (inv_start d0 Hh Ho)) as [Hm Hout]. split.
  - intros p s sm Hs Hsm Hp. destruct (Hm p s Hs sm Hsm) as [_ [[[]|Ha]|(_ & _ & Hu & _)]]; [done|congruence].
  - intros e He Hn. destruct Hout as [(p & [[]|Hp])|HF]; [by exists p|].
    destruct Hn. by eapply list.Forall_forall in HF.
Qed.

Lemma port_opens_only_on_valid_accept_witness :
  ∃ d0 d evs, demo_run = Ret (d0, d)
    ∧ (portStatus <$> (heap d !! 1%nat ≫= eapol_sm)) = Some Authorized
    ∧ handle_events evs d0 = Ret d ∧ accepted 1%nat evs d0 ∧ ∃ p, accepted p evs d0.
Proof.
  pose proof demo_run_facts as Hf. pose proof demo_run_inversion as Hi.
  destruct demo_run as [[d0 d]| |]; [|destruct Hf..].
  destruct Hf as (Hp & He). destruct (Hi _ _ eq_refl) as (Hstart & n & b & Hrun).
  destruct (port_opens_only_on_valid_accept [114; 97] 321 (mk_timeval 1000 0) demo_passes d0 d n b Hstart Hrun)
    as (evs & Hd & _ & H1 & H2).
  exists d0, d, evs. split; [done|]. split; [exact Hp|]. split; [exact Hd|].
  split; [|apply (H2 _ He); discriminate].
  destruct (heap d !! 1%nat) as [s|] eqn:Hs; [|discriminate Hp].
  change (portStatus <$> eapol_sm s = Some Authorized) in Hp.
  destruct (eapol_sm s) as [sm|] eqn:Hsm; [|discriminate Hp]. injection Hp as Hp.
  exact (H1 _ _ _ Hs Hsm Hp).
Defined.
