(* ===== verification/RadiusClientProps.v ===== *)
(** Properties of the RADIUS client: over every run of the daemon its list of
    requests is well formed and has a timer, and its timers use no released memory;
    the timer does what the retransmission schedule says, and a request expires where
    there is one server only. *)

From stdpp Require Import gmap.
From S2P Require Import Prelude EapolSm Md5 Radius RadiusRep RadiusFacts Eloop EloopProps Dot1xConfig Rtapd.
From S2P Require Import RadiusClient RadiusClientFacts Ieee8021xTx StaInfo StaFacts Ieee8021x Rtdot1x DaemonProps.

(** * The invariant *)

Definition server_ok (srv : hostapd_radius_server) : Prop :=
  ∃ key, secret_bytes (shared_secret srv) (shared_secret_len srv) = Ret key.

Definition bss_servers_ok (b : bss_config) : Prop :=
  Forall server_ok (mbss_auth_servers b)
  ∧ match mbss_auth_server b with
    | Some i => (i < length (mbss_auth_servers b))%nat
    | None => mbss_auth_servers b = []
    end.

Definition servers_ok (conf : rtapd_config) : Prop :=
  length (bss conf) = MAX_MBSSID_NUM ∧ 0 ≤ SsidNum conf ≤ Z.of_nat MAX_MBSSID_NUM
  ∧ Forall bss_servers_ok (bss conf).

Record client_ok (c : radius_client_data) : Prop := {
  co_ids : NoDup (ids (msgs c));
  co_count : Z.of_nat (length (msgs c)) ≤ num_msgs c ≤ RADIUS_CLIENT_MAX_ENTRIES;
  co_entries : Forall entry_ok (msgs c);
  co_socks : length (mbss_auth_serv_sock c) = MAX_MBSSID_NUM;
  co_next : byte_ok (next_radius_identifier c)
}.

Record queue_ok (d : daemon) (c : radius_client_data) : Prop := {
  qo_usec : 0 ≤ tv_usec (now d) < 1000000;
  qo_conf : servers_ok (conf d);
  qo_radius : radius d = Some c;
  qo_client : client_ok c
}.

(** Requests wait only while a timer of the client is pending. *)
Definition queue_inv (d : daemon) : Prop := ∃ c, queue_ok d c ∧ (msgs c ≠ [] → timer_pending d).

Section Props.
Context `{World} `{Malloc} (HM : malloc_never_fails).
Implicit Types d : daemon.

Lemma queue_inv_call e d : queue_inv d → queue_inv (fst (call_out e d)).
Proof. intros (c & [] & Hp). by exists c. Qed.

Lemma register_client_timer secs d c :
  queue_ok d c → ∃ d', register_timeout secs Radius_client_timer_h CApd CNull d = Ret d'
                      ∧ queue_inv d' ∧ conf d' = conf d ∧ radius d' = Some c.
Proof.
  intros [Hu Hc Hr Hok]. rewrite register_timeout_Ret by done. eexists. split; [done|].
  split; [|done]. exists c. split; [by split|]. intros _. by apply insert_pending.
Qed.

(** * Changing servers *)

Lemma same_secret_Ret nserv oserv :
  server_ok nserv → (∀ o, oserv = Some o → server_ok o) → ∃ b, same_secret nserv oserv = Ret b.
Proof.
  intros [a Ha] Ho. unfold same_secret. destruct oserv as [o|]; [|by eauto].
  destruct (Z.eqb_spec (shared_secret_len nserv) (shared_secret_len o)) as [E|]; cbn [negb]; [|by eauto].
  destruct (Ho o eq_refl) as [b Hb]. rewrite Ha, E, Hb. cbn. eauto.
Qed.

Lemma flush_inv d : queue_inv d → queue_inv (Radius_client_flush d) ∧ conf (Radius_client_flush d) = conf d.
Proof.
  intros (c & [Hu Hc Hr Hok] & _). unfold Radius_client_flush. rewrite Hr, cancel_timeout_eq.
  split; [|done]. eexists. split; [split; [exact Hu|exact Hc|reflexivity|]|done].
  destruct Hok as [_ _ _ Hs Hn]. by split; [constructor|cbn; unfold RADIUS_CLIENT_MAX_ENTRIES; lia|..].
Qed.

Lemma reset_entries_ok es : Forall entry_ok es → Forall entry_ok (map reset_entry es) ∧ ids (map reset_entry es) = ids es.
Proof.
  intros Hes. split.
  - apply Forall_map. eapply Forall_impl; [|exact Hes]. intros e [Ha Hw Hp Hs].
    split; [..|done|done]; cbn; unfold RADIUS_CLIENT_MAX_RETRIES, RADIUS_CLIENT_MAX_WAIT, RADIUS_CLIENT_FIRST_WAIT; lia.
  - unfold ids. by rewrite map_map.
Qed.

Lemma change_server_inv nserv oserv s d :
  server_ok nserv → (∀ o, oserv = Some o → server_ok o) → queue_inv d →
  ∃ d' r, Radius_change_server nserv oserv s d = Ret (d', r) ∧ queue_inv d' ∧ conf d' = conf d.
Proof.
  intros Hn Ho Hinv. unfold Radius_change_server.
  destruct (same_secret_Ret nserv oserv Hn Ho) as [same ->]. cbn [mbind outcome_bind].
  set (step := if same then _ else _).
  assert (∃ d1, step = Ret d1 ∧ queue_inv d1 ∧ conf d1 = conf d) as (d1 & -> & Hinv1 & Hconf).
  { unfold step. destruct same; [|destruct (flush_inv d Hinv); eauto].
    destruct Hinv as (c & [Hu Hc Hr Hok] & Hp). unfold upd_radius, get_radius. rewrite Hr. cbn [mbind outcome_bind].
    set (c1 := c ⦃ msgs := map reset_entry (msgs c) ⦄). set (d1 := d ⦃ radius := Some c1 ⦄).
    assert (queue_ok d1 c1) as Hq1.
    { destruct Hok as [Hi Hcn He Hs Hx]. destruct (reset_entries_ok _ He) as [He' Hi'].
      split; [done..|]. split; [|cbn; by rewrite length_map|done..].
      change (NoDup (ids (map reset_entry (msgs c)))). by rewrite Hi'. }
    change (radius d1) with (Some c1). cbn [mbind outcome_bind].
    destruct (msgs c1) eqn:E1; [exists d1; split; [done|]; split; [|done]; exists c1; split; [done|by rewrite E1]|].
    rewrite cancel_timeout_eq. set (d2 := with_timeouts d1 _).
    destruct (register_client_timer RADIUS_CLIENT_FIRST_WAIT d2 c1) as (d3 & -> & Hinv3 & Hc3 & _).
    { by destruct Hq1. }
    eauto. }
  cbn [mbind outcome_bind]. pose proof (queue_inv_call (Connect s (srv_addr nserv) (u16 (port nserv))) d1 Hinv1) as H2.
  destruct (call_out _ d1) as [d2 res] eqn:Hcall. cbn [fst] in H2.
  assert (conf d2 = conf d) by (unfold call_out in Hcall; by simplify_eq).
  destruct (res <? 0); eauto.
Qed.

Lemma servers_ok_lookup conf i b : servers_ok conf → bss conf !! i = Some b → bss_servers_ok b.
Proof. intros (_ & _ & Hf) Hb. by apply (Forall_lookup_1 _ _ _ _ Hf Hb). Qed.

Lemma set_current_inv i j b d :
  queue_inv d → bss (conf d) !! i = Some b → (j < length (mbss_auth_servers b))%nat →
  ∃ d', set_current i (Some j) d = Ret d' ∧ queue_inv d' ∧ radius d' = radius d
        ∧ SsidNum (conf d') = SsidNum (conf d).
Proof.
  intros (c & [Hu Hc Hr Hok] & Hp) Hb Hj. unfold set_current.
  rewrite (proj2 (at_idx_Ret _ _ _) Hb). cbn [mbind outcome_bind]. eexists. split; [done|].
  split; [|done]. exists c. split; [|done]. split; [done| |done|done].
  destruct Hc as (Hl & Hs & Hf). split; cbn; [by rewrite length_insert|]. split; [done|].
  apply Forall_insert; [done|]. split; [|done]. by apply (servers_ok_lookup (conf d) i b).
Qed.

Lemma current_ok b i : bss_servers_ok b → mbss_auth_server b = Some i →
  ∃ s, at_idx (mbss_auth_servers b) i = Ret s ∧ server_ok s ∧ current_server b = Some s.
Proof.
  intros [Hf Hi] E. rewrite E in Hi. destruct (at_idx_lt _ _ Hi) as (s & Hs & Hl). exists s.
  split; [done|]. split; [by apply (Forall_lookup_1 _ _ _ _ Hf Hl)|]. unfold current_server. by rewrite E.
Qed.

Lemma failover_bss_inv i n d :
  (i < MAX_MBSSID_NUM)%nat → queue_inv d →
  ∃ d', failover_bss i n d = Ret d' ∧ queue_inv d' ∧ SsidNum (conf d') = SsidNum (conf d).
Proof.
  intros Hi Hinv. pose proof Hinv as (c & [Hu Hc Hr Hok] & Hp). unfold failover_bss.
  destruct (at_idx_lt (bss (conf d)) i) as (b & -> & Hb); [rewrite (proj1 Hc); lia|]. cbn [mbind outcome_bind].
  destruct (_ && _) eqn:E; [|by eauto]. pose proof (servers_ok_lookup _ _ _ Hc Hb) as Hbok.
  destruct (mbss_auth_server b) as [old|] eqn:Eold.
  2:{ destruct Hbok as [_ Hs]. rewrite Eold in Hs. unfold mbss_num_auth_servers in E. rewrite Hs in E. cbn in E. lia. }
  set (next := if _ <? _ then _ else _).
  assert (next < length (mbss_auth_servers b))%nat as Hnext.
  { unfold next, mbss_num_auth_servers in *. case_match; lia. }
  destruct (set_current_inv i next b d Hinv Hb Hnext) as (d1 & -> & Hinv1 & Hr1 & Hs1). cbn [mbind outcome_bind].
  destruct (current_ok b old Hbok Eold) as (oserv & -> & Ho & _). cbn [mbind outcome_bind].
  destruct (at_idx_lt _ _ Hnext) as (nserv & -> & Hns). cbn [mbind outcome_bind].
  unfold get_radius. rewrite Hr1, Hr. cbn [mbind outcome_bind].
  destruct (at_idx_lt (mbss_auth_serv_sock c) i) as (s & -> & _); [rewrite (co_socks _ Hok); lia|]. cbn [mbind outcome_bind].
  destruct (change_server_inv nserv (Some oserv) s d1) as (d2 & r & -> & Hinv2 & Hc2); [|by intros ? [= <-]|done|].
  { by apply (Forall_lookup_1 _ _ _ _ (proj1 Hbok) Hns). }
  cbn [mbind outcome_bind]. eexists. split; [done|]. split; [done|]. by rewrite Hc2.
Qed.

Lemma failover_loop_inv todo i failover d :
  length failover = MAX_MBSSID_NUM → (i + todo ≤ MAX_MBSSID_NUM)%nat → queue_inv d →
  ∃ d', failover_loop todo i failover d = Ret d' ∧ queue_inv d'.
Proof.
  intros Hl. revert i d. induction todo as [|todo IH]; intros i d Hi Hinv; cbn [failover_loop]; [by eauto|].
  destruct (at_idx_lt failover i) as (n & -> & _); [lia|]. cbn [mbind outcome_bind].
  destruct (failover_bss_inv i n d) as (d1 & -> & Hinv1 & _); [lia|done|]. cbn [mbind outcome_bind].
  apply IH; [lia|done].
Qed.

(** * The timer *)

(** The state after the loop of the timer over the requests [es], before it
    changes servers. *)
Definition timer_client (t : Z) (c : radius_client_data) (es : list radius_msg_list) : radius_client_data :=
  c ⦃ num_msgs := num_msgs c - Z.of_nat (length es - length (omap (timer_entry t) es)) ⦄
    ⦃ msgs := omap (timer_entry t) es ⦄.

Definition after_timer d (c : radius_client_data) (es : list radius_msg_list) : daemon :=
  d ⦃ radius := Some (timer_client (time_now d) c es) ⦄
    ⦃ d_out := d_out d ++ timer_sends (time_now d) (mbss_auth_serv_sock c) es ⦄.

Lemma upd_after_loop d c es :
  let t := time_now d in
  upd_radius (λ c, c ⦃ msgs := omap (timer_entry t) es ⦄)
    (after_loop d c (length es - length (omap (timer_entry t) es)) (timer_sends t (mbss_auth_serv_sock c) es))
  = Ret (after_timer d c es).
Proof. done. Qed.

Lemma timer_msgs_ok t c :
  client_ok c →
  client_ok (timer_client t c (msgs c)).
Proof.
  intros [Hi Hc He Hs Hx]. pose proof (length_omap (timer_entry t) (msgs c)) as Hlen.
  split; cbn; [|lia| |done|done].
  - clear Hc Hlen. induction He as [|e es He Hes IH]; cbn; [constructor|].
    apply list.NoDup_cons in Hi as [Hni Hi]. specialize (IH Hi).
    destruct (timer_entry t e) as [e'|] eqn:Ht; [|done]. destruct (timer_entry_ok _ _ _ He Ht) as [_ Hid].
    apply list.NoDup_cons. split; [|done]. rewrite Hid. intros Hin. apply Hni.
    apply (list_elem_of_fmap_1 req_id) in Hin as (x & -> & Hx').
    apply list_elem_of_omap in Hx' as (y & Hy & Hxy).
    destruct (timer_entry_ok _ _ _ (proj1 (list.Forall_forall _ _) Hes y Hy) Hxy) as [_ ->].
    by apply (list_elem_of_fmap_2 req_id).
  - apply list.Forall_forall. intros e' (e & Hel & Ht)%list_elem_of_omap.
    apply (timer_entry_ok t e); [|done]. by apply (proj1 (list.Forall_forall _ _) He).
Qed.

(** The time the timer asks for next, when requests are left. *)
Definition timer_asks (t : Z) (es : list radius_msg_list) : Z :=
  let first := first_of 0 (omap (timer_entry t) es) in
  s32 (t + u32 ((if first <? t then t else first) - t)).

Definition client_timeout_at (sec usec : Z) : eloop_timeout timeout_handler ctx :=
  mk_timeout (mk_timeval sec usec) CApd CNull Radius_client_timer_h.

(** The queue of the event loop after a firing. *)
Definition timer_queue d (es : list radius_msg_list) : list (eloop_timeout timeout_handler ctx) :=
  match omap (timer_entry (time_now d)) es with
  | [] => timeouts (loop d)
  | _ => insert_timeout (client_timeout_at (timer_asks (time_now d) es) (tv_usec (now d))) (timeouts (loop d))
  end.

Lemma client_timer_spec d c :
  queue_ok d c → msgs c ≠ [] →
  ∃ d1 failover, Radius_client_timer d = failover_loop (Z.to_nat (SsidNum (conf d))) 0 failover d1
    ∧ queue_inv d1 ∧ length failover = MAX_MBSSID_NUM
    ∧ d1 = with_timeouts (after_timer d c (msgs c)) (timer_queue d (msgs c)).
Proof.
  intros [Hu Hc Hr Hok] Hne. unfold Radius_client_timer, get_radius. rewrite Hr. cbn [mbind outcome_bind].
  destruct (timer_loop_spec (time_now d) (msgs c) (replicate MAX_MBSSID_NUM 0) 0 d c) as (fo & first & Hl & Hfo & Hfirst & Hnf);
    [done|apply Hok|done|apply Hok|].
  destruct (msgs c) as [|e0 es0] eqn:Emsgs; [done|]. rewrite Hl. cbn [mbind outcome_bind].
  rewrite upd_after_loop. cbn [mbind outcome_bind].
  assert (queue_ok (after_timer d c (e0 :: es0)) (timer_client (time_now d) c (e0 :: es0))) as Hq1.
  { split; [done..|]. rewrite <-Emsgs. by apply timer_msgs_ok. }
  unfold timer_queue, timer_asks. rewrite <-Hfirst. clear Hfirst Hl.
  destruct (omap (timer_entry (time_now d)) (e0 :: es0)) as [|k0 kept'] eqn:Hk.
  - exists (after_timer d c (e0 :: es0)), fo. split; [done|]. split; [|split; [done|]].
    + eexists. split; [exact Hq1|]. unfold timer_client. rewrite Hk. done.
    + by destruct d as [????????[]].
  - destruct (register_client_timer (u32 ((if first <? time_now d then time_now d else first) - time_now d)) _ _ Hq1)
      as (d2 & Hd2 & Hinv2 & Hc2 & _). rewrite Hd2. cbn [mbind outcome_bind].
    rewrite Hc2. exists d2, fo. split; [done|]. split; [done|]. split; [done|].
    rewrite register_timeout_Ret in Hd2 by done. by injection Hd2 as <-.
Qed.

Lemma insert_in (t : eloop_timeout timeout_handler ctx) q : t ∈ insert_timeout t q.
Proof. rewrite insert_timeout_perm. left. Qed.

Lemma client_timer_inv d c : queue_ok d c → ∃ d', Radius_client_timer d = Ret d' ∧ queue_inv d'.
Proof.
  intros Hq. destruct (decide (msgs c = [])) as [E|Hne].
  - exists d. unfold Radius_client_timer, get_radius. rewrite (qo_radius _ _ Hq). cbn. rewrite E.
    split; [done|]. exists c. by rewrite E.
  - destruct (client_timer_spec d c Hq Hne) as (d1 & fo & -> & Hinv & Hl & _).
    apply failover_loop_inv; [done| |done]. pose proof (qo_conf _ _ Hq) as (_ & Hs & _). lia.
Qed.

(** * Requests *)

Lemma get_id_inv d :
  queue_inv d →
  ∃ d' id c', Radius_client_get_id d = Ret (d', id) ∧ queue_inv d' ∧ byte_ok id ∧ radius d' = Some c'
              ∧ (id ∉ ids (msgs c')) ∧ conf d' = conf d.
Proof.
  intros (c & [Hu Hc Hr Hok] & Hp). unfold Radius_client_get_id, get_radius. rewrite Hr. cbn [mbind outcome_bind].
  pose proof Hok as [Hi Hcn He Hs Hx]. rewrite remove_id_spec by done. cbn [mbind outcome_bind].
  set (id := next_radius_identifier c) in *. set (es := filter _ _).
  assert (es `sublist_of` msgs c) as Hsub by apply sublist_filter.
  eexists _, id, _. split; [done|]. split; [|split; [done|split; [reflexivity|split; [|done]]]].
  - eexists. split; [split; [done|done|reflexivity|]|].
    + split; cbn; [by apply (ids_sublist _ _ Hsub)| | |done|apply u8_range].
      * pose proof (sublist_length _ _ Hsub). lia.
      * by apply (sublist_Forall _ _ _ Hsub).
    + cbn. intros Hne. apply Hp. intros E. apply Hne. unfold es. by rewrite E.
  - cbn. intros (x & E & Hin)%(list_elem_of_fmap_1 req_id). apply list_elem_of_filter in Hin as [Hne _]. by rewrite E in Hne.
Qed.

Lemma list_add_inv msg secret len ap d :
  queue_inv d → (∃ data, sent_bytes msg = Ret data) → (Z.to_nat ap < MAX_MBSSID_NUM)%nat →
  (∀ c, radius d = Some c → hdr_identifier msg ∉ ids (msgs c)) →
  ∃ d', Radius_client_list_add msg secret len ap d = Ret d' ∧ queue_inv d'.
Proof.
  intros Hinv Hsent Hap Hid. unfold Radius_client_list_add. destruct (eloop_terminated _); [by eauto|].
  rewrite HM. cbn [negb]. pose proof Hinv as (c & Hq & Hp). pose proof Hq as [Hu Hc Hr Hok].
  unfold get_radius. rewrite Hr. cbn [mbind outcome_bind].
  assert (∃ d1, match msgs c with
                | [] => register_timeout RADIUS_CLIENT_FIRST_WAIT Radius_client_timer_h CApd CNull d
                | _ => Ret d end = Ret d1 ∧ queue_ok d1 c ∧ timer_pending d1) as (d1 & -> & Hq1 & Hp1).
  { destruct (msgs c) eqn:E; [|by exists d; auto].
    rewrite register_timeout_Ret by done. eexists. split; [done|].
    split; [by split|]. by apply insert_pending. }
  cbn [mbind outcome_bind]. destruct Hq1 as [Hu1 Hc1 Hr1 _]. unfold upd_radius, get_radius. rewrite Hr1. cbn [mbind outcome_bind].
  eexists. split; [done|]. eexists. split; [split; [exact Hu1|exact Hc1|reflexivity|]|intros _; exact Hp1].
  set (entry := mk_entry _ _ _ _ _ _ _ _). specialize (Hid c Hr).
  destruct Hok as [Hi Hcn He Hs Hx].
  assert (entry_ok entry) as Hentry.
  { split; cbn; [..|exact Hsent]; [..|exact Hap];
      unfold RADIUS_CLIENT_MAX_RETRIES, RADIUS_CLIENT_MAX_WAIT, RADIUS_CLIENT_FIRST_WAIT; lia. }
  assert (∀ es, es `sublist_of` msgs c → NoDup (ids (entry :: es)) ∧ Forall entry_ok (entry :: es)) as Hadd.
  { intros es Hsub. split.
    - apply list.NoDup_cons. split; [|by apply (ids_sublist _ _ Hsub)]. intros Hin. apply Hid.
      by apply (elem_of_sublist _ _ _ Hin (fmap_sublist req_id _ _ Hsub)).
    - constructor; [done|]. by apply (sublist_Forall _ _ _ Hsub). }
  destruct (Z.leb_spec RADIUS_CLIENT_MAX_ENTRIES (num_msgs c)).
  - destruct (msgs c) as [|e es] eqn:E.
    + destruct (Hadd []) as [? ?]; [done|]. split; cbn; try done. unfold RADIUS_CLIENT_MAX_ENTRIES in *. lia.
    + destruct (Hadd _ (removelast_sublist (e :: es))) as [? ?]. split; [done| |done..].
      cbn [msgs num_msgs set eta_client]. cbn [length]. rewrite length_removelast. cbn [length] in *. lia.
  - destruct (Hadd _ (reflexivity _)) as [? ?]. split; cbn; try done. lia.
Qed.

(** ** The message of a request *)

(** It carries the identifier [id], and is written behind its first two bytes
    from now on. *)
Definition req_msg (id : Z) (msg : radius_msg) : Prop := hdr_identifier msg = id ∧ (2 ≤ buf_used msg)%nat ∧ (2 ≤ length (buf msg))%nat.

Lemma splice_idx1 (b data : bytes) off :
  (2 ≤ off)%nat → (off + length data ≤ length b)%nat → idx (splice b off data) 1 = idx b 1.
Proof.
  intros Hoff Hl. unfold splice, idx. change (Z.to_nat 1) with 1%nat.
  destruct b as [|x [|y b]]; cbn [length] in Hl; [lia..|]. destruct off as [|[|off]]; [lia..|done].
Qed.

Lemma write_req id m off data m' :
  req_msg id m → (2 ≤ off)%nat → msg_write m off data = Ret m' → req_msg id m' ∧ buf_used m' = buf_used m.
Proof.
  intros (Hid & Hu & Hb) Hoff. unfold msg_write. intros (b & [Hl ->]%store_Ret & [= <-])%outcome_bind_Ret.
  split; [|done]. split_and!; [|done|cbn; by rewrite splice_length].
  change (idx (splice (buf m) off data) 1 = id). by rewrite splice_idx1.
Qed.

Lemma add_attr_to_array_req id m a m' : req_msg id m → Radius_msg_add_attr_to_array m a = Some m' → req_msg id m'.
Proof. unfold Radius_msg_add_attr_to_array. intros Hm. repeat case_match; try done; by intros [= <-]. Qed.

Lemma add_attr_req id m type data m' a :
  req_msg id m → Radius_msg_add_attr m type data = Ret (m', a) →
  req_msg id m' ∧ ∀ off, a = Some off → (2 ≤ off)%nat.
Proof.
  intros Hm. unfold Radius_msg_add_attr. destruct (decide _); [by intros [= <- <-]|].
  intros (room & Hroom & Hd)%outcome_bind_Ret. destruct room as [m1|]; [|by injection Hd as <- <-].
  assert (req_msg id m1 ∧ buf_used m1 = buf_used m) as [Hm1 Hu1].
  { destruct (decide _); [|by injection Hroom as <-]. apply outcome_bind_Ret in Hroom as (nlen & _ & Hroom).
    destruct (malloc_ok _); [|done]. injection Hroom as <-. destruct Hm as (Hid & Hu & Hb). split; [|done].
    unfold req_msg, hdr_identifier in *. cbn [buf buf_used set eta_radius_msg]. rewrite length_app.
    split_and!; [|done|lia]. rewrite <-Hid. unfold idx. rewrite app_nth1; [done|]. change (Z.to_nat 1) with 1%nat. lia. }
  apply outcome_bind_Ret in Hd as (m2 & H2 & Hd). apply (write_req id) in H2 as [Hm2 Hu2]; [|done|destruct Hm as (_ & ? & _); lia].
  apply outcome_bind_Ret in Hd as (m3 & H3 & Hd). apply (write_req id) in H3 as [Hm3 Hu3]; [|done|lia].
  set (m4 := m3 ⦃ buf_used := _ ⦄) in Hd. assert (req_msg id m4) as Hm4 by (destruct Hm3 as (? & ? & ?); split_and!; [done|cbn; lia|done]).
  clearbody m4. destruct (Radius_msg_add_attr_to_array m4 _) as [m5|] eqn:H5; injection Hd as <- <-.
  - split; [by eapply add_attr_to_array_req|]. intros off [= <-]. destruct Hm as (_ & ? & _). lia.
  - by split.
Qed.

Lemma finish_req id m secret m' : req_msg id m → Radius_msg_finish m secret = Ret m' → req_msg id m'.
Proof.
  intros Hm. unfold Radius_msg_finish, set_hdr_length. destruct secret as [k|]; [|intros Hd; by apply (write_req id) in Hd as [? _]; [|done|lia]].
  intros ([m1 a] & H1 & Hd)%outcome_bind_Ret. apply (add_attr_req id) in H1 as [Hm1 Ha]; [|done].
  apply outcome_bind_Ret in Hd as (m2 & H2 & Hd). apply (write_req id) in H2 as [Hm2 _]; [|done|lia].
  destruct a as [a|]; [|done]. apply outcome_bind_Ret in Hd as (cov & _ & Hd).
  apply (write_req id) in Hd as [? _]; [done|done|]. specialize (Ha a eq_refl). lia.
Qed.

(** A step that fails or leaves the message of the request. *)
Definition req_step (id : Z) (c : outcome (option radius_msg)) : Prop :=
  ∀ m, c = Ret (Some m) → req_msg id m.

Lemma attr_step_req id c k :
  req_step id c → (∀ m, req_msg id m → req_step id (k m)) → req_step id (attr_step c k).
Proof.
  intros Hc Hk m. unfold attr_step. intros (r & Hr & Hd)%outcome_bind_Ret. destruct r as [m1|]; [|done].
  by apply (Hk m1 (Hc m1 Hr)).
Qed.

Lemma add_attr_step id type data m : req_msg id m → req_step id (add_attr type data m).
Proof.
  intros Hm m'. unfold add_attr. intros ([m1 a] & H1 & Hd)%outcome_bind_Ret.
  apply (add_attr_req id) in H1 as [? _]; [|done]. destruct a; [by injection Hd as <-|done].
Qed.

Lemma add_int32_step id type v m : req_msg id m → req_step id (add_int32 type v m).
Proof.
  intros Hm m'. unfold add_int32, Radius_msg_add_attr_int32. intros ([m1 a] & H1 & Hd)%outcome_bind_Ret.
  apply outcome_bind_Ret in H1 as ([m2 a2] & H2 & [= <- <-]). apply (add_attr_req id) in H2 as [? _]; [|done].
  by case_bool_decide; [injection Hd as <-|].
Qed.

Lemma add_eap_req id m data m' ok : req_msg id m → Radius_msg_add_eap m data = Ret (m', ok) → req_msg id m'.
Proof.
  unfold Radius_msg_add_eap. generalize (length data) as fuel. intros fuel. revert m data.
  induction fuel as [|fuel IH]; intros m data Hm; cbn [add_eap_loop]; destruct data as [|x data]; try done; try by intros [= <- _].
  intros ([m1 a] & H1 & Hd)%outcome_bind_Ret. apply (add_attr_req id) in H1 as [Hm1 _]; [|done].
  destruct a; [by eapply IH|by injection Hd as <- _].
Qed.

Lemma request_attrs_req id s b ip own eap m : req_msg id m → req_step id (request_attrs s b ip own eap m).
Proof.
  assert (∀ m, req_msg id m → req_step id (Ret (Some m))) as Hret by (by intros m0 Hm0 m1 [= <-]).
  intros Hm. unfold request_attrs.
  repeat (apply attr_step_req; [first [by apply add_attr_step|by apply add_int32_step|idtac]|clear dependent m; intros m Hm]).
  - destruct (identity s); [by apply add_attr_step|by apply Hret].
  - destruct (_ <? _); [|by apply Hret]. intros m' (nas & _ & Hd)%outcome_bind_Ret. by eapply add_attr_step.
  - destruct eap as [eap|]; [|by apply Hret]. intros m' ([m1 ok] & H1 & Hd)%outcome_bind_Ret.
    apply (add_eap_req id) in H1; [|done]. destruct ok; [by injection Hd as <-|done].
  - destruct (last_recv_radius s) as [last|]; [|by apply Hret]. destruct (_ =? _); [|by apply Hret].
    intros m' ([m1 r] & H1 & Hd)%outcome_bind_Ret. assert (req_msg id m1).
    { unfold Radius_msg_copy_attr in H1. apply outcome_bind_Ret in H1 as (f & _ & H1).
      destruct f as [a|]; [|by injection H1 as <- _]. apply outcome_bind_Ret in H1 as (l & _ & H1).
      apply outcome_bind_Ret in H1 as (x & _ & H1). apply outcome_bind_Ret in H1 as ([m2 a2] & H2 & [= <- _]).
      by apply (add_attr_req id) in H2 as [? _]. }
    destruct (r <? 0); [done|by injection Hd as <-].
Qed.

Lemma new_req code id m : byte_ok id → Radius_msg_new code id = Ret (Some m) → req_msg id m.
Proof.
  intros Hid. unfold Radius_msg_new. destruct (negb _); [done|].
  destruct (Radius_msg_initialize _) as [m0|] eqn:E0; [|done]. unfold Radius_msg_initialize in E0.
  repeat case_match; try done. injection E0 as <-. intros (m1 & Hw & [= <-])%outcome_bind_Ret.
  unfold Radius_msg_set_hdr, msg_write in Hw. apply outcome_bind_Ret in Hw as (b & [Hl ->]%store_Ret & [= <-]).
  split_and!; [|cbn; unfold sizeof_radius_hdr; lia|cbn [buf set eta_radius_msg]; rewrite splice_length by done; cbn in *; lia].
  change (u8 id = id). by apply u8_id.
Qed.

Lemma client_send_keeps id msg ap d d' r :
  queue_inv d → req_msg id msg → (∀ c, radius d = Some c → id ∉ ids (msgs c)) →
  Radius_client_send msg ap d = Ret (d', r) → queue_inv d'.
Proof.
  intros Hinv Hm Hid. unfold Radius_client_send. intros (b & Hb%at_idx_Ret & Hd)%outcome_bind_Ret.
  destruct (current_server b) as [srv|]; [|done]. do 3 apply outcome_bind_Ret in Hd as (? & _ & Hd).
  apply outcome_bind_Ret in Hd as (m & Hfin & Hd). apply (finish_req id) in Hfin; [|done].
  apply outcome_bind_Ret in Hd as (data & Hsent & Hd). cbn [call_out] in Hd.
  apply outcome_bind_Ret in Hd as (d1 & H1 & [= <- _]).
  assert (Z.to_nat ap < MAX_MBSSID_NUM)%nat as Hap.
  { apply lookup_lt_Some in Hb. destruct Hinv as (c & [_ (Hl & _) _ _] & _). lia. }
  match type of H1 with Radius_client_list_add _ ?sec ?len _ ?d0 = _ =>
    destruct (list_add_inv m sec len ap d0) as (d2 & Hd2 & Hinv2);
      [exact (queue_inv_call (Send _ data) d Hinv)|by exists data|exact Hap| |] end.
  - intros c Hc. destruct Hfin as [-> _]. by apply Hid.
  - rewrite H1 in Hd2. by injection Hd2 as ->.
Qed.

(** * Answers *)

Lemma receive_inv run_handler datagram d d' :
  (∀ h msg req secret len d d' r, queue_inv d → run_handler h msg req secret len d = Ret (d', r) → queue_inv d') →
  queue_inv d → Radius_client_receive run_handler datagram d = Ret d' → queue_inv d'.
Proof.
  intros Hh Hinv. unfold Radius_client_receive. destruct datagram as [data|]; [|by intros [= <-]].
  case_decide; [by intros [= <-]|]. intros Hd. apply outcome_bind_Ret in Hd as (parsed & _ & Hd).
  destruct parsed as [msg|]; [|by injection Hd as <-]. apply outcome_bind_Ret in Hd as (c & Hc & Hd).
  pose proof (take_request_spec (hdr_identifier msg) (msgs c)) as Hreq.
  destruct (take_request _ _) as [[req rest]|]; [|by injection Hd as <-].
  destruct Hreq as (_ & l & k & Hes & -> & _).
  set (d1 := d ⦃ radius := _ ⦄) in Hd.
  assert (queue_inv d1) as Hinv1.
  { destruct Hinv as (c0 & [Hu Hcf Hr Hok] & Hp). unfold get_radius in Hc. rewrite Hr in Hc. injection Hc as ->.
    assert (l ++ k `sublist_of` msgs c) as Hsub by (rewrite Hes; apply sublist_app; [done|by apply sublist_cons]).
    eexists. split; [split; [exact Hu|exact Hcf|reflexivity|]|].
    - destruct Hok as [Hi Hcn He Hs Hx]. split; cbn; [by apply (ids_sublist _ _ Hsub)| | |done..].
      + rewrite Hes, !length_app in Hcn. cbn in Hcn. rewrite length_app. lia.
      + by apply (sublist_Forall _ _ _ Hsub).
    - intros _. apply Hp. rewrite Hes. by destruct l. }
  clearbody d1. revert d1 Hd Hinv1. induction (auth_handlers c) as [|h hs IH]; cbn [run_handlers]; intros d1 Hd Hinv1;
    [by injection Hd as <-|].
  apply outcome_bind_Ret in Hd as ([d2 r] & Hrun & Hd). apply Hh in Hrun; [|done].
  destruct r; [by injection Hd as <-|by injection Hd as <-|by apply (IH d2)].
Qed.

(** * The return to the primary server *)

Lemma retry_primary_loop_inv todo i d :
  (i + todo ≤ MAX_MBSSID_NUM)%nat → queue_inv d →
  ∃ d', retry_primary_loop todo i d = Ret d' ∧ queue_inv d'.
Proof.
  revert i d. induction todo as [|todo IH]; intros i d Hi Hinv; cbn [retry_primary_loop]; [by eauto|].
  assert (∃ d1, retry_primary_bss i d = Ret d1 ∧ queue_inv d1) as (d1 & -> & Hinv1).
  { pose proof Hinv as (c & [Hu Hc Hr Hok] & Hp). unfold retry_primary_bss, get_radius. rewrite Hr. cbn [mbind outcome_bind].
    destruct (at_idx_lt (mbss_auth_serv_sock c) i) as (s & -> & _); [rewrite (co_socks _ Hok); lia|]. cbn [mbind outcome_bind].
    destruct (at_idx_lt (bss (conf d)) i) as (b & -> & Hb); [rewrite (proj1 Hc); lia|]. cbn [mbind outcome_bind].
    destruct (mbss_auth_servers b) as [|p ps] eqn:Eb; [by eauto|]. destruct (_ && _); [|by eauto].
    pose proof (servers_ok_lookup _ _ _ Hc Hb) as Hbok.
    destruct (set_current_inv i 0 b d Hinv Hb) as (d1 & -> & Hinv1 & Hr1 & Hs1); [rewrite Eb; cbn; lia|].
    cbn [mbind outcome_bind].
    destruct (change_server_inv p (current_server b) s d1) as (d2 & r & -> & Hinv2 & _); [| |done|].
    - destruct Hbok as [Hf _]. rewrite Eb in Hf. by apply Forall_cons_1 in Hf as [? _].
    - intros o Ho. destruct (mbss_auth_server b) as [j|] eqn:Ej; [|unfold current_server in Ho; by rewrite Ej in Ho].
      destruct (current_ok b j Hbok Ej) as (x & _ & Hx & Hcur). rewrite Hcur in Ho. by injection Ho as <-.
    - cbn [mbind outcome_bind]. eauto. }
  cbn [mbind outcome_bind]. apply IH; [lia|done].
Qed.

Lemma retry_primary_inv d : queue_inv d → ∃ d', Radius_retry_primary_timer d = Ret d' ∧ queue_inv d'.
Proof.
  intros Hinv. unfold Radius_retry_primary_timer.
  destruct (retry_primary_loop_inv (Z.to_nat (SsidNum (conf d))) 0 d) as (d1 & -> & Hinv1); [|done|].
  { destruct Hinv as (c & [_ (_ & Hs & _) _ _] & _). lia. }
  cbn [mbind outcome_bind]. destruct (_ =? 0); [by eauto|]. unfold register_retry_primary.
  destruct Hinv1 as (c & [Hu Hc Hr Hok] & Hp). rewrite register_timeout_Ret by done. eexists. split; [done|].
  exists c. split; [by split|]. intros Hne. specialize (Hp Hne). unfold timer_pending, with_timeouts in *. cbn.
  rewrite insert_timeout_perm. by right.
Qed.

(** * Starting *)

Lemma new_client_ok : client_ok new_client.
Proof. split; try done. constructor. Qed.

Lemma set_sock_inv i s d : queue_inv d → ∃ d', upd_radius (set_serv_sock i s) d = Ret d' ∧ queue_inv d' ∧ conf d' = conf d.
Proof.
  intros (c & [Hu Hc Hr Hok] & Hp). unfold upd_radius, get_radius. rewrite Hr. eexists. split; [done|].
  split; [|done]. eexists. split; [split; [done|done|reflexivity|]|exact Hp].
  destruct Hok. split; try done. cbn. by rewrite length_insert.
Qed.

Lemma init_auth_inv i d d' r :
  (i < MAX_MBSSID_NUM)%nat → queue_inv d → Radius_client_init_auth i d = Ret (d', r) →
  queue_inv d' ∧ SsidNum (conf d') = SsidNum (conf d).
Proof.
  intros Hi Hinv Hd. unfold Radius_client_init_auth in Hd. apply outcome_bind_Ret in Hd as (b & Hb & Hd).
  apply at_idx_Ret in Hb. destruct (current_server b) as [srv|] eqn:Hsrv; [|done].
  destruct (srv_addr srv =? 0); [by injection Hd as <- <-|].
  pose proof (queue_inv_call Socket d Hinv) as Hinv1.
  assert (server_ok srv) as Hok.
  { destruct Hinv as (c & [_ Hc _ _] & _). pose proof (servers_ok_lookup _ _ _ Hc Hb) as Hbok.
    unfold current_server in Hsrv. destruct (mbss_auth_server b) as [j|] eqn:Ej; [|done].
    by apply (Forall_lookup_1 _ _ _ _ (proj1 Hbok) Hsrv). }
  cbn [call_out fst] in Hd, Hinv1. set (d1 := d ⦃ d_out := _ ⦄) in *.
  destruct (set_sock_inv i (ret_of (length (d_out d))) d1 Hinv1) as (d2 & Hd2 & Hinv2 & Hc2).
  cbv beta iota zeta in Hd. rewrite Hd2 in Hd. cbn [mbind outcome_bind] in Hd.
  destruct (_ <? 0); [injection Hd as <- <-; by rewrite Hc2|].
  destruct (change_server_inv srv None (ret_of (length (d_out d))) d2) as (d3 & r3 & Hd3 & Hinv3 & Hc3); [done..|].
  rewrite Hd3 in Hd. cbn [mbind outcome_bind] in Hd.
  assert (SsidNum (conf d3) = SsidNum (conf d)) as HS by (by rewrite Hc3, Hc2).
  destruct (negb _); [by injection Hd as <- <-|]. unfold eloop_register_read_sock in Hd. rewrite HM in Hd.
  cbn [negb] in Hd. injection Hd as <- _. split; [|done].
  destruct Hinv3 as (c & [] & Hp). exists c. by split.
Qed.

Lemma init_loop_inv todo i n d d' n' :
  (i + todo ≤ MAX_MBSSID_NUM)%nat → queue_inv d → init_loop todo i n d = Ret (d', n') → queue_inv d'.
Proof.
  revert i n d. induction todo as [|todo IH]; intros i n d Hi Hinv Hd; cbn [init_loop] in Hd; [by injection Hd as <- _|].
  apply outcome_bind_Ret in Hd as (c & _ & Hd). apply outcome_bind_Ret in Hd as (s & _ & Hd).
  destruct (s <? 0); [|exact (IH (S i) _ d ltac:(lia) Hinv Hd)].
  apply outcome_bind_Ret in Hd as (b & _ & Hd).
  destruct (mbss_auth_server b); [|exact (IH (S i) _ d ltac:(lia) Hinv Hd)].
  apply outcome_bind_Ret in Hd as ([d1 r] & Hd1 & Hd). apply init_auth_inv in Hd1 as [Hinv1 _]; [|lia|done].
  exact (IH (S i) _ d1 ltac:(lia) Hinv1 Hd).
Qed.

Lemma register_retry_inv d d' : register_retry_primary d = Ret d' → queue_inv d → queue_inv d'.
Proof.
  unfold register_retry_primary. intros Hd (c & Hq & Hp). rewrite (register_timeout_Ret HM) in Hd by apply Hq.
  injection Hd as <-. exists c. split; [by destruct Hq|]. intros Hne. specialize (Hp Hne).
  unfold timer_pending, with_timeouts in *. cbn. rewrite insert_timeout_perm. by right.
Qed.

Lemma client_init_inv d d' r :
  (radius d = None → 0 ≤ tv_usec (now d) < 1000000 ∧ servers_ok (conf d)) → (radius d ≠ None → queue_inv d) →
  Radius_client_init d = Ret (d', r) → queue_inv d'.
Proof.
  intros Hnew Hold. unfold Radius_client_init. rewrite HM. rewrite andb_false_r.
  set (d0 := if bool_decide _ then d else _). assert (queue_inv d0) as Hinv0.
  { subst d0. case_bool_decide as Hr; [by apply Hold|]. destruct (Hnew Hr) as [Hu Hc].
    exists new_client. split; [|done]. by split; [..|apply new_client_ok]. }
  clearbody d0. intros ([d1 n] & H1 & Hd)%outcome_bind_Ret.
  apply init_loop_inv in H1; [|destruct Hinv0 as (c & [_ (_ & Hs & _) _ _] & _); lia|done].
  destruct (_ =? 0); [by injection Hd as <- _|]. destruct (_ && _); [|by injection Hd as <- _].
  apply outcome_bind_Ret in Hd as (d2 & H2 & [= <- _]). by eapply register_retry_inv.
Qed.

(** * The rest of the daemon *)

(** The rest of the daemon leaves the client's data, the configuration and the
    clock alone, and cancels no timer of the client. *)
Record calm (d d' : daemon) : Prop := {
  calm_conf : conf d' = conf d;
  calm_radius : radius d' = radius d;
  calm_now : now d' = now d;
  calm_timer : timer_pending d → timer_pending d'
}.

#[local] Instance calm_preorder : PreOrder calm.
Proof.
  split; [by split|]. intros d1 d2 d3 [] []. split; [congruence..|]. auto.
Qed.

Definition keeps_queue (d d' : daemon) : Prop := queue_inv d → queue_inv d'.

#[local] Instance keeps_queue_preorder : PreOrder keeps_queue.
Proof. split; [intros d Hd; exact Hd|]. intros d1 d2 d3. unfold keeps_queue. auto. Qed.

Lemma calm_keeps d d' : calm d d' → keeps_queue d d'.
Proof.
  intros [Hc Hr Hn Ht] (c & [Hu Hcf Hrd Hok] & Hp). exists c. split; [|auto].
  split; [by rewrite Hn|by rewrite Hc|by rewrite Hr|done].
Qed.

(** Only stations and effects. *)
Lemma calm_same d d' :
  conf d' = conf d → radius d' = radius d → now d' = now d → timeouts (loop d') = timeouts (loop d) → calm d d'.
Proof. intros ??? Ht. split; [done..|]. unfold timer_pending. by rewrite Ht. Qed.

Lemma calm_call e d d' r : call_out e d = (d', r) → calm d d'.
Proof. intros [= <- _]. by apply calm_same. Qed.

Lemma calm_ioctl f ap data d d' r : RT_ioctl f ap data d = (d', r) → calm d d'.
Proof. apply calm_call. Qed.

Lemma calm_rand n d d' r : hostapd_get_rand n d = (d', r) → calm d d'.
Proof. intros [= <- _]. by apply calm_same. Qed.

Lemma calm_upd_sta p f d d' : upd_sta p f d = Ret d' → calm d d'.
Proof. intros (s & _ & ->)%upd_sta_inv. by apply calm_same. Qed.

Lemma calm_upd_machine p g d d' : upd_machine p g d = Ret d' → calm d d'.
Proof. intros (s & sm & _ & _ & ->)%upd_machine_inv. by apply calm_same. Qed.

Lemma calm_register secs h a b d d' : register_timeout secs h a b d = Ret d' → calm d d'.
Proof.
  unfold register_timeout, eloop_register_timeout. rewrite HM. cbn [negb].
  intros ([e r] & (t & _ & [= <- _])%outcome_bind_Ret & [= <-])%outcome_bind_Ret. split; [done..|].
  unfold timer_pending. cbn. rewrite insert_timeout_perm. by right.
Qed.

Lemma calm_cancel h a b d : h ≠ Radius_client_timer_h → calm d (cancel_timeout h a b d).
Proof.
  intros Hh. rewrite cancel_timeout_eq. split; [done..|]. unfold timer_pending. cbn. rewrite !list.Exists_exists.
  intros (t & Ht & Hc). exists t. split; [|done]. apply list_elem_of_filter. split; [|done].
  unfold timeout_matches. destruct Hc as (-> & _).
  rewrite (bool_decide_eq_false_2 _ (not_eq_sym Hh)). by intros [].
Qed.

Create HintDb calm.
#[local] Hint Resolve calm_call calm_ioctl calm_rand calm_upd_sta calm_upd_machine calm_register : calm.

(** Reading a computation that returned, one step at a time. *)
Ltac read_step :=
  match goal with
  | H : mbind _ _ = Ret _ |- _ => apply outcome_bind_Ret in H as (? & ? & H)
  | H : Ret _ = Ret _ |- _ => injection H as H; try subst
  | H : (_, _) = (_, _) |- _ => injection H as H; try subst
  | H : (if ?b then _ else _) = _ |- _ => destruct b eqn:?
  | H : (match ?x with _ => _ end) = _ |- _ => destruct x eqn:?
  end; try done.

Lemma calm_send p type data d d' : ieee802_1x_send p type data d = Ret d' → calm d d'.
Proof. unfold ieee802_1x_send. intros Hd. repeat read_step; eauto with calm. Qed.
#[local] Hint Resolve calm_send : calm.

Lemma calm_authorized p a b d d' : ieee802_1x_set_sta_authorized p a b d = Ret d' → calm d d'.
Proof. unfold ieee802_1x_set_sta_authorized. intros Hd. repeat read_step; eauto with calm. Qed.

Lemma calm_identity p id d d' : ieee802_1x_request_identity p id d = Ret d' → calm d d'.
Proof.
  unfold ieee802_1x_request_identity, ieee802_1x_new_auth_session. intros (d1 & H1 & Hd)%outcome_bind_Ret.
  etrans; [by eapply calm_upd_sta|]. repeat read_step; eauto with calm.
Qed.

Lemma calm_req p id d d' : ieee802_1x_tx_req p id d = Ret d' → calm d d'.
Proof.
  unfold ieee802_1x_tx_req. intros (s & _ & Hd)%outcome_bind_Ret. destruct (last_eap_radius s) as [eap|]; [|by injection Hd as <-].
  apply outcome_bind_Ret in Hd as (i & _ & Hd). apply outcome_bind_Ret in Hd as (eap' & _ & Hd).
  apply outcome_bind_Ret in Hd as (d1 & H1 & Hd). etrans; [by eapply calm_upd_sta|by eapply calm_send].
Qed.

Lemma calm_key_one p i b k d d' : ieee802_1x_tx_key_one p i b k d = Ret d' → calm d d'.
Proof.
  unfold ieee802_1x_tx_key_one. destruct (negb _); [by intros [= <-]|].
  destruct (hostapd_get_rand 16 d) as [d1 iv] eqn:E1. apply calm_rand in E1. intros Hd. etrans; [exact E1|].
  repeat read_step; eauto with calm.
Qed.

Lemma calm_install s key d d' ok : install_key s key d = (d', ok) → calm d d'.
Proof. unfold install_key. intros Hd. repeat read_step; eauto with calm. Qed.

Lemma calm_tx_key p id d d' : ieee802_1x_tx_key p id d = Ret d' → calm d d'.
Proof.
  unfold ieee802_1x_tx_key. intros (s & _ & Hd)%outcome_bind_Ret.
  destruct (eapol_key_sign s), (eapol_key_crypt s); try by injection Hd as <-.
  apply outcome_bind_Ret in Hd as (b0 & _ & Hd). apply outcome_bind_Ret in Hd as (ikey & _ & Hd).
  apply outcome_bind_Ret in Hd as (d1 & H1%calm_key_one & Hd). etrans; [exact H1|].
  apply outcome_bind_Ret in Hd as (mat & _ & Hd). destruct (install_key s _ d1) as [d2 ok] eqn:E2.
  apply calm_install in E2. etrans; [exact E2|]. destruct ok; cbn [negb] in Hd; [|by injection Hd as <-].
  destruct (hostapd_get_rand _ d2) as [d3 rnd] eqn:E3. apply calm_rand in E3. etrans; [exact E3|].
  apply outcome_bind_Ret in Hd as (d4 & H4%calm_key_one & Hd). etrans; [exact H4|].
  apply outcome_bind_Ret in Hd as (mat2 & _ & Hd). destruct (install_key s _ d4) as [d5 ok5] eqn:E5.
  injection Hd as <-. by eapply calm_install.
Qed.

(** A request to the server. *)
Lemma encapsulate_keeps p eap d d' : ieee802_1x_encapsulate_radius p eap d = Ret d' → keeps_queue d d'.
Proof.
  unfold ieee802_1x_encapsulate_radius. intros Hd Hinv.
  destruct (get_id_inv d Hinv) as (d1 & id & c1 & Hid & Hinv1 & Hb & Hr1 & Hni & _).
  rewrite Hid in Hd. cbn [mbind outcome_bind] in Hd. apply outcome_bind_Ret in Hd as (d2 & H2%calm_upd_sta & Hd).
  apply outcome_bind_Ret in Hd as (msg & Hmsg & Hd). pose proof (calm_keeps _ _ H2 Hinv1) as Hinv2.
  destruct msg as [msg|]; [|by injection Hd as <-]. apply (new_req _ id) in Hmsg; [|done].
  apply outcome_bind_Ret in Hd as (s & _ & Hd). destruct (call_out Random d2) as [d3 l] eqn:E3.
  apply calm_call in E3. pose proof (calm_keeps _ _ E3 Hinv2) as Hinv3.
  apply outcome_bind_Ret in Hd as (m1 & H1 & Hd). apply (write_req id) in H1 as [Hm1 _]; [|done|lia].
  do 2 apply outcome_bind_Ret in Hd as (? & _ & Hd). apply outcome_bind_Ret in Hd as (m2 & Hattrs & Hd).
  destruct m2 as [m2|]; [|by injection Hd as <-]. apply (request_attrs_req id) in Hattrs; [|done].
  apply outcome_bind_Ret in Hd as ([d4 r] & H4 & [= <-]). eapply client_send_keeps; [exact Hinv3|exact Hattrs| |exact H4].
  intros c Hc. rewrite (calm_radius _ _ E3), (calm_radius _ _ H2), Hr1 in Hc. by injection Hc as <-.
Qed.

(** ** Machines *)

Definition world_keeps (w w' : sm_world) : Prop :=
  fst w' = fst w ∧ ∀ d', snd w' = Ret d' → ∃ d, snd w = Ret d ∧ keeps_queue d d'.

#[local] Instance world_keeps_preorder : PreOrder world_keeps.
Proof.
  split.
  - intros w. split; [done|]. intros d Hd. by exists d.
  - intros w1 w2 w3 [E1 H1] [E2 H2]. split; [congruence|]. intros d3 Hd3.
    destruct (H2 d3 Hd3) as (d2 & Hd2 & R2). destruct (H1 d2 Hd2) as (d1 & Hd1 & R1).
    exists d1. split; [done|]. by etrans.
Qed.

Lemma on_daemon_keeps f w : (∀ p d d', f p d = Ret d' → keeps_queue d d') → world_keeps w (on_daemon f w).
Proof.
  intros Hf. split; [done|]. cbn. intros d' (d & Hd & Hfd)%outcome_bind_Ret. exists d. split; [done|]. by apply (Hf (fst w)).
Qed.

Lemma daemon_keeps_queue : env_kept world_keeps.
Proof.
  split; intros; apply on_daemon_keeps; intros p d d' Hd.
  - by eapply calm_keeps, calm_authorized.
  - by eapply calm_keeps, calm_send.
  - by eapply calm_keeps, calm_identity.
  - by eapply calm_keeps, calm_req.
  - unfold ieee802_1x_send_resp_to_server in Hd. apply outcome_bind_Ret in Hd as (s & _ & Hd). by eapply encapsulate_keeps.
  - by eapply calm_keeps, calm_tx_key.
Qed.

Lemma tick_on_keeps w : world_keeps w (eloop_register_tick w).
Proof. apply on_daemon_keeps. intros p d d' Hd. apply calm_keeps. by eapply calm_register. Qed.

Lemma tick_off_keeps w : world_keeps w (eloop_cancel_tick w).
Proof. apply on_daemon_keeps. intros p d d' [= <-]. by apply calm_keeps, calm_cancel. Qed.

Definition keeps_run (f : st (W:=sm_world) → outcome (st (W:=sm_world))) : Prop :=
  ∀ s r, f s = Ret r → world_keeps (snd s) (snd r).

Lemma step_keeps : keeps_run eapol_sm_step.
Proof. intros s r Hr. by apply (sm_step_rel _ _ _ daemon_keeps_queue). Qed.

Lemma tick_keeps : keeps_run eapol_port_timers_tick.
Proof.
  intros [sm w] r. unfold eapol_port_timers_tick. intros ([sm1 w1] & H1%step_keeps & [= <-])%outcome_bind_Ret.
  etrans; [exact H1|apply tick_on_keeps].
Qed.

Lemma initialize_keeps_queue : keeps_run eapol_sm_initialize.
Proof.
  intros [sm w] r. unfold eapol_sm_initialize. generalize (sm ⦃ initialize := true ⦄) as sm1.
  intros sm1 ([sm2 w2] & H2%step_keeps & Hr)%outcome_bind_Ret. revert Hr. generalize (sm2 ⦃ initialize := false ⦄) as sm3.
  intros sm3 ([sm4 w4] & H4%step_keeps & [= <-])%outcome_bind_Ret. cbn [snd] in *.
  do 2 (etrans; [eassumption|]). etrans; [apply tick_off_keeps|apply tick_on_keeps].
Qed.

Lemma put_machine_keeps p r d d' : world_keeps (p, Ret d) (snd r) → put_machine p r = Ret d' → keeps_queue d d'.
Proof.
  destruct r as [sm w]. intros [_ Hw] Hd. unfold put_machine in Hd.
  apply outcome_bind_Ret in Hd as (d1 & H1 & Hd%calm_upd_sta). destruct (Hw d1 H1) as (d0 & [= <-] & HR).
  etrans; [exact HR|by apply calm_keeps].
Qed.

Lemma run_machine_keeps f p d d' : keeps_run f → run_machine f p d = Ret d' → keeps_queue d d'.
Proof.
  intros Hf (s & sm & r & _ & _ & Hr & Hput)%run_machine_inv. eapply put_machine_keeps; [|exact Hput]. exact (Hf _ _ Hr).
Qed.

Lemma alloc_machine_keeps p d d' : alloc_machine p d = Ret d' → keeps_queue d d'.
Proof.
  unfold alloc_machine. intros (r & Hr & Hd)%outcome_bind_Ret. destruct r as [r|]; [|by eapply calm_keeps, calm_upd_sta].
  eapply put_machine_keeps; [|exact Hd]. unfold eapol_sm_alloc in Hr. destruct (negb _); [done|]. revert Hr.
  generalize (eapol_sm_defaults (daemon_sm_conf d)) as sm. intros sm (r' & Hr & [= <-])%outcome_bind_Ret.
  exact (initialize_keeps_queue _ _ Hr).
Qed.


(** ** Stations *)

Lemma new_station_keeps p d d' : ieee802_1x_new_station p d = Ret d' → keeps_queue d d'.
Proof.
  unfold ieee802_1x_new_station. intros (s & _ & Hd)%outcome_bind_Ret. destruct (eapol_sm s).
  - apply outcome_bind_Ret in Hd as (d1 & H1%calm_upd_machine & Hd). etrans; [by apply calm_keeps|].
    by eapply run_machine_keeps; [apply step_keeps|].
  - apply outcome_bind_Ret in Hd as (d1 & H1%alloc_machine_keeps & Hd). etrans; [exact H1|].
    apply outcome_bind_Ret in Hd as (s1 & _ & Hd). destruct (eapol_sm s1); [|by injection Hd as <-].
    by eapply calm_keeps, calm_upd_machine.
Qed.

Lemma calm_free_sta p d d' : Ap_free_sta p d = Ret d' → calm d d'.
Proof.
  unfold Ap_free_sta. intros (d1 & H1 & Hd)%outcome_bind_Ret. assert (calm d d1) as C1.
  { unfold Ap_sta_hash_del in H1. repeat read_step; eauto with calm; by apply calm_same. }
  etrans; [exact C1|]. apply outcome_bind_Ret in Hd as (d2 & H2 & Hd). assert (calm d1 d2) as C2.
  { unfold Ap_sta_list_del in H2. repeat read_step; eauto with calm; by apply calm_same. }
  etrans; [exact C2|]. apply outcome_bind_Ret in Hd as (d3 & H3 & Hd). set (d2' := d2 ⦃ num_sta := _ ⦄) in H3.
  assert (calm d2 d2') as C2' by by apply calm_same. clearbody d2'. etrans; [exact C2'|].
  assert (calm d2' d3) as C3.
  { unfold ieee802_1x_free_station in H3. apply outcome_bind_Ret in H3 as (s & _ & H3).
    apply outcome_bind_Ret in H3 as (d4 & H4%calm_upd_sta & H3). apply outcome_bind_Ret in H3 as (d5 & H5 & H3%calm_upd_sta).
    etrans; [exact H4|]. etrans; [|exact H3]. destruct (eapol_sm s); [|by injection H5 as <-].
    cbn in H5. injection H5 as <-. by apply calm_cancel. }
  etrans; [exact C3|]. unfold free_sta in Hd. apply outcome_bind_Ret in Hd as (s & _ & [= <-]). by apply calm_same.
Qed.

Lemma calm_free_stas fuel o d d' : free_stas fuel o d = Ret d' → calm d d'.
Proof.
  revert o d. induction fuel as [|fuel IH]; intros o d; cbn [free_stas]; destruct o as [p|]; try by intros [= <-].
  intros (s & _ & Hd)%outcome_bind_Ret. apply outcome_bind_Ret in Hd as (d1 & H1%calm_free_sta & Hd%IH). by etrans.
Qed.

Lemma get_sta_keeps sa ap et sk d d' r : Ap_get_sta sa ap et sk d = Ret (d', r) → keeps_queue d d'.
Proof.
  unfold Ap_get_sta. intros (head & _ & Hd)%outcome_bind_Ret. apply outcome_bind_Ret in Hd as (s & _ & Hd).
  destruct s as [p|]; [by injection Hd as <- _|]. destruct (_ <=? _); [by injection Hd as <- _|].
  destruct (negb _); [by injection Hd as <- _|]. revert Hd. cbn [alloc_sta]. intros Hd.
  apply outcome_bind_Ret in Hd as (d2 & H2 & Hd). apply outcome_bind_Ret in Hd as (d3 & H3%new_station_keeps & [= <- _]).
  etrans; [|exact H3]. apply calm_keeps. unfold Ap_sta_hash_add in H2. apply outcome_bind_Ret in H2 as (s & _ & H2).
  apply outcome_bind_Ret in H2 as (h & _ & H2). apply outcome_bind_Ret in H2 as (d4 & H4%calm_upd_sta & [= <-]).
  destruct H4 as [Hc Hr Hn Ht]. by split.
Qed.

Lemma calm_session_timeout p t d d' : Ap_sta_session_timeout p t d = Ret d' → calm d d'.
Proof. unfold Ap_sta_session_timeout. intros Hd%calm_register. etrans; [|exact Hd]. by apply calm_cancel. Qed.

Lemma calm_eap p buf len d d' : handle_eap p buf len d = Ret d' → calm d d'.
Proof.
  unfold handle_eap. intros Hd. repeat (destruct (_ <? _) in Hd; [by injection Hd as <-|]).
  apply outcome_bind_Ret in Hd as (code & _ & Hd). apply outcome_bind_Ret in Hd as (l & _ & Hd). cbv zeta in Hd.
  repeat (destruct (_ <? _) in Hd; [by injection Hd as <-|]). destruct (_ =? _) in Hd; [|by injection Hd as <-].
  unfold handle_eap_response in Hd. apply outcome_bind_Ret in Hd as (s & _ & Hd). destruct (eapol_sm s) as [sm|]; [|done].
  apply outcome_bind_Ret in Hd as (i & _ & Hd). destruct (negb _); [by injection Hd as <-|].
  destruct (decide _); [by injection Hd as <-|]. destruct (negb _); [by eapply calm_upd_sta|].
  apply outcome_bind_Ret in Hd as (supp & _ & Hd). apply outcome_bind_Ret in Hd as (d1 & H1%calm_upd_sta & Hd).
  apply outcome_bind_Ret in Hd as (type & _ & Hd). etrans; [exact H1|].
  destruct (type =? _); [|by eapply calm_upd_machine].
  apply outcome_bind_Ret in Hd as (id & _ & Hd). unfold take_identity in Hd.
  apply outcome_bind_Ret in Hd as (d2 & H2%calm_upd_machine & Hd%calm_upd_sta). by etrans.
Qed.

Lemma receive_keeps sa ap buf len et sk d d' : ieee802_1x_receive sa ap buf len et sk d = Ret d' → keeps_queue d d'.
Proof.
  unfold ieee802_1x_receive. intros ([d1 sta] & H1%get_sta_keeps & Hd)%outcome_bind_Ret. etrans; [exact H1|].
  destruct sta as [p|]; [|by injection Hd as <-]. apply outcome_bind_Ret in Hd as (snap & _ & Hd).
  apply outcome_bind_Ret in Hd as (hdr & _ & Hd). destruct (_ <? _); [by injection Hd as <-|].
  apply outcome_bind_Ret in Hd as (s & _ & Hd). apply outcome_bind_Ret in Hd as (d2 & H2 & Hd).
  assert (keeps_queue d1 d2) as K2 by (destruct (eapol_sm s); [by injection H2 as <-|by eapply alloc_machine_keeps]).
  etrans; [exact K2|]. apply outcome_bind_Ret in Hd as (s2 & _ & Hd). destruct (eapol_sm s2); [|by injection Hd as <-].
  destruct (_ && _); [by injection Hd as <-|]. destruct (_ && _); [by injection Hd as <-|].
  apply outcome_bind_Ret in Hd as (d3 & H3 & Hd). apply (run_machine_keeps _ _ _ _ step_keeps) in Hd.
  etrans; [|exact Hd]. unfold dispatch_eapol in H3.
  destruct (_ =? _); [by eapply calm_keeps, calm_eap|].
  do 2 (destruct (_ =? _); [apply outcome_bind_Ret in H3 as (d4 & H4%calm_upd_machine%calm_keeps & H3);
    etrans; [exact H4|by eapply run_machine_keeps; [apply step_keeps|]]|]). by injection H3 as <-.
Qed.

(** ** Answers of the server *)

Lemma calm_accept_session p t a d d' r : accept_session p t a d = Ret (d', r) → calm d d'.
Proof. unfold accept_session. intros Hd. repeat read_step; eauto using calm_upd_machine, calm_session_timeout. Qed.

Lemma calm_get_keys p msg req k d d' : ieee802_1x_get_keys p msg req k d = Ret d' → calm d d'.
Proof.
  unfold ieee802_1x_get_keys. intros (keys & _ & Hd)%outcome_bind_Ret.
  destruct keys as [[send recv]|]; [|by injection Hd as <-]. cbn [mppe_recv mppe_send] in Hd.
  destruct recv as [[|b recv]|]; [by injection Hd as <-| |by injection Hd as <-].
  apply outcome_bind_Ret in Hd as (s & _ & Hd). apply outcome_bind_Ret in Hd as ([mat kl] & _ & Hd).
  destruct (install_key s _ d) as [d1 ok] eqn:E1. apply calm_install in E1. etrans; [exact E1|].
  destruct ok; [|by injection Hd as <-]. cbn [negb] in Hd. destruct send as [send|]; [|by injection Hd as <-].
  apply outcome_bind_Ret in Hd as (d2 & H2%calm_upd_sta & Hd%calm_upd_machine). by etrans.
Qed.

Lemma calm_apply_answer p msg req k st it ta d d' r : apply_answer p msg req k st it ta d = Ret (d', r) → calm d d'.
Proof.
  unfold apply_answer. intros Hd. destruct (hdr_code msg =? RADIUS_CODE_ACCESS_ACCEPT).
  - apply outcome_bind_Ret in Hd as ([d1 ff] & H1%calm_accept_session & Hd).
    apply outcome_bind_Ret in Hd as (d2 & H2%calm_upd_machine & Hd). apply outcome_bind_Ret in Hd as (d3 & H3 & Hd).
    apply outcome_bind_Ret in Hd as (d4 & H4%calm_get_keys & [= <- _]).
    etrans; [exact H1|]. etrans; [exact H2|]. etrans; [|exact H4]. destruct it; [|by injection H3 as <-].
    unfold dot1x_set_IdleTimeoutAction in H3. apply outcome_bind_Ret in H3 as (s & _ & [= <-]). by apply calm_same.
  - repeat read_step; eauto using calm_upd_machine. etrans; by eapply calm_upd_machine.
Qed.

Lemma calm_decapsulate p d d' : ieee802_1x_decapsulate_radius p d = Ret d' → calm d d'.
Proof.
  unfold ieee802_1x_decapsulate_radius. intros Hd. repeat read_step; eauto using calm_upd_sta.
  etrans; [by eapply calm_upd_machine|by eapply calm_upd_sta].
Qed.

Lemma rx_handler_keeps h msg req secret len d d' r :
  run_rx_handler h msg req secret len d = Ret (d', r) → keeps_queue d d'.
Proof.
  destruct h. cbn [run_rx_handler]. unfold ieee802_1x_receive_auth. intros (sta & _ & Hd)%outcome_bind_Ret.
  destruct sta as [p|]; [|by injection Hd as <- _]. apply outcome_bind_Ret in Hd as (k & _ & Hd).
  apply outcome_bind_Ret in Hd as ([m valid] & _ & Hd). destruct (negb _); [by injection Hd as <- _|].
  destruct (negb _); [by injection Hd as <- _|]. apply outcome_bind_Ret in Hd as (d1 & H1%calm_upd_sta%calm_keeps & Hd).
  do 3 apply outcome_bind_Ret in Hd as (? & _ & Hd).
  apply outcome_bind_Ret in Hd as ([d2 ff] & H2%calm_apply_answer%calm_keeps & Hd).
  apply outcome_bind_Ret in Hd as (d3 & H3%calm_decapsulate%calm_keeps & Hd).
  apply outcome_bind_Ret in Hd as (d4 & H4 & Hd). apply (run_machine_keeps _ _ _ _ step_keeps) in H4.
  apply outcome_bind_Ret in Hd as (d5 & H5 & [= <- _]). do 4 (etrans; [eassumption|]).
  destruct ff; [by eapply calm_keeps, calm_free_sta|by injection H5 as <-].
Qed.

(** ** Events *)

(** Every configuration the driver hands out gives secrets that are as long as
    it says, and a current server that is in its list ([servers_ok]). *)
Definition driver_ok : Prop :=
  ∀ n c, Config_read (config_rand n) (config_answer n) = Ret (Some c) → servers_ok c.

Lemma client_init_keeps d d' r : radius d ≠ None → Radius_client_init d = Ret (d', r) → keeps_queue d d'.
Proof. intros Hr Hd Hinv. eapply client_init_inv; [|by intros _|exact Hd]. by intros ?. Qed.

Lemma reload_keeps d d' : driver_ok → Handle_reload_config d = Ret d' → keeps_queue d d'.
Proof.
  intros Hdrv. unfold Handle_reload_config. intros ([d1 new] & H1 & Hd)%outcome_bind_Ret Hinv.
  unfold read_config in H1. apply outcome_bind_Ret in H1 as (nc & Hnc & H1). injection H1 as Hd1 <-.
  assert (queue_inv d1) as Hinv1 by (rewrite <-Hd1; destruct Hinv as (c & [] & Hp); exists c; by split).
  clear Hinv Hd1. destruct nc as [nc|]; [|by injection Hd as <-].
  destruct (flush_inv d1 Hinv1) as [(c2 & [Hu2 Hc2 Hr2 Hok2] & Hp2) _].
  set (d2 := (Radius_client_flush d1) ⦃ conf := nc ⦄) in Hd.
  assert (queue_inv d2) as Hinv2 by (exists c2; split; [split; [done|by eapply Hdrv|done|done]|done]). clearbody d2.
  apply outcome_bind_Ret in Hd as (d3 & H3 & Hd). unfold Apd_free_stas in H3.
  apply calm_free_stas, calm_keeps in H3. specialize (H3 Hinv2).
  apply outcome_bind_Ret in Hd as (d4 & H4 & Hd). apply outcome_bind_Ret in Hd as ([d5 r] & H5 & [= <-]).
  assert (queue_inv d4 ∧ radius d4 ≠ None) as [Hinv4 Hne].
  { destruct H3 as (c3 & [Hu Hc Hr Hok] & Hp). unfold upd_radius, get_radius in H4. rewrite Hr in H4. injection H4 as <-.
    split; [|done]. eexists. split; [split; [done|done|reflexivity|]|exact Hp]. destruct Hok. by split. }
  by eapply client_init_keeps.
Qed.

Lemma set_timeouts_ok d c q : queue_ok d c → queue_ok (d ⦃ loop := (loop d) ⦃ timeouts := q ⦄ ⦄) c.
Proof. by intros []. Qed.

Lemma call_timeout_keeps t q d d' :
  timeouts (loop d) = t :: q → call_timeout t (d ⦃ loop := (loop d) ⦃ timeouts := q ⦄ ⦄) = Ret d' → keeps_queue d d'.
Proof.
  intros Hq Hd (c & Hok & Hp). pose proof (set_timeouts_ok d c q Hok) as Hok'.
  assert (handler t ≠ Radius_client_timer_h → queue_inv (d ⦃ loop := (loop d) ⦃ timeouts := q ⦄ ⦄)) as Hother.
  { intros Hh. exists c. split; [done|]. intros Hne. specialize (Hp Hne). unfold timer_pending in *. rewrite Hq in Hp.
    apply Exists_cons in Hp as [(Ht & _)|]; [by destruct Hh|done]. }
  generalize dependent (d ⦃ loop := (loop d) ⦃ timeouts := q ⦄ ⦄). clear Hq Hp Hok d. intros d Hd Hok Hother.
  unfold call_timeout in Hd. destruct (handler t) eqn:Hh.
  - destruct (client_timer_inv d c Hok) as (d2 & Hd2 & Hinv). rewrite Hd2 in Hd. by injection Hd as <-.
  - destruct (retry_primary_inv d (Hother ltac:(done))) as (d2 & Hd2 & Hinv). rewrite Hd2 in Hd. by injection Hd as <-.
  - specialize (Hother ltac:(done)). destruct (user_data t) as [| |p|p]; try done. revert Hother. apply calm_keeps.
    unfold Ap_handle_session_timer in Hd. repeat read_step; eauto with calm.
  - specialize (Hother ltac:(done)). destruct (user_data t) as [| |p|p]; try done.
    revert Hother. by eapply run_machine_keeps; [apply tick_keeps|].
Qed.

Lemma read_keeps stack frame sk d d' : driver_ok → Handle_read stack frame sk d = Ret d' → keeps_queue d d'.
Proof.
  intros Hdrv. unfold Handle_read. destruct frame as [frame|].
  2:{ intros [= <-]. by apply calm_keeps, calm_same. }
  cbv zeta. destruct (_ <=? 0); [by intros [= <-]|]. intros (da & _ & Hd)%outcome_bind_Ret.
  apply outcome_bind_Ret in Hd as (sa & _ & Hd). apply outcome_bind_Ret in Hd as ([et vlan] & _ & Hd).
  destruct (_ && _); [by injection Hd as <-|]. apply outcome_bind_Ret in Hd as (found & _ & Hd).
  destruct found as [ap|]; [|by injection Hd as <-]. apply outcome_bind_Ret in Hd as (same & _ & Hd).
  destruct (same =? 0); [|by eapply receive_keeps]. unfold internal_command in Hd.
  apply outcome_bind_Ret in Hd as (icmd & _ & Hd). destruct (_ =? _).
  - apply outcome_bind_Ret in Hd as (head & _ & Hd). apply outcome_bind_Ret in Hd as (s & _ & Hd).
    destruct s; [by eapply calm_keeps, calm_free_sta|by injection Hd as <-].
  - destruct (_ =? _); [by eapply reload_keeps|by injection Hd as <-].
Qed.

(** The clock gives microseconds below a second. *)
Definition clock_ok (ev : daemon_event) : Prop :=
  match ev with EvClock t => 0 ≤ tv_usec t < 1000000 | _ => True end.

Lemma event_keeps ev d d' : driver_ok → clock_ok ev → handle_event ev d = Ret d' → keeps_queue d d'.
Proof.
  intros Hdrv Hev Hd. destruct ev as [t| |stack frame sk|data|s]; cbn [handle_event] in Hd.
  - injection Hd as <-. intros (c & [] & Hp). exists c. by split.
  - unfold run_first_timeout in Hd. destruct (timeouts (loop d)) as [|t q] eqn:Hq; [by injection Hd as <-|].
    destruct (timer_ge _ _); [|by injection Hd as <-]. by eapply call_timeout_keeps.
  - by eapply read_keeps.
  - intros Hinv. eapply (receive_inv run_rx_handler); [|exact Hinv|exact Hd]. intros; by eapply rx_handler_keeps.
  - unfold eloop_handle_signal in Hd. destruct (list_find _ _) as [[i x]|]; [|by injection Hd as <-].
    unfold call_signal in Hd. destruct (sig_handler x); [|by eapply reload_keeps].
    injection Hd as <-. by apply calm_keeps, calm_same.
Qed.

Lemma events_keep evs d d' : driver_ok → Forall clock_ok evs → handle_events evs d = Ret d' → keeps_queue d d'.
Proof.
  intros Hdrv Hevs. revert d. induction Hevs as [|ev evs Hev Hevs IH]; intros d Hd; cbn [handle_events] in Hd.
  - by injection Hd as <-.
  - apply outcome_bind_Ret in Hd as (d1 & H1 & Hd%IH). apply event_keeps in H1; [|done..]. by etrans.
Qed.

(** ** Setting up *)

(** Opening the sockets leaves the configuration, the clock and the client. *)
Record setting_up (d d' : daemon) : Prop := {
  su_conf : conf d' = conf d; su_now : now d' = now d; su_radius : radius d' = radius d
}.

#[local] Instance setting_up_preorder : PreOrder setting_up.
Proof. split; [by split|]. intros d1 d2 d3 [] []. split; congruence. Qed.

Lemma bind_raw_up s name d d' r : bind_raw s name d = Ret (d', r) → setting_up d d'.
Proof.
  unfold bind_raw. destruct (eloop_register_read_sock _ _ _ _ _) as [e res].
  set (d1 := d ⦃ loop := e ⦄). assert (setting_up d d1) as Hq by done. clearbody d1. intros Hd.
  etrans; [exact Hq|]. destruct (negb _); [by injection Hd as <- _|].
  apply outcome_bind_Ret in Hd as (n1 & _ & Hd). apply outcome_bind_Ret in Hd as (n2 & _ & Hd).
  cbn [call_out] in Hd. destruct (negb _); [by injection Hd as <- _|]. destruct (_ <? 0); by injection Hd as <- _.
Qed.

Lemma open_eth_up todo i d d' r : open_eth todo i d = Ret (d', r) → setting_up d d'.
Proof.
  revert i d. induction todo as [|todo IH]; intros i d; cbn [open_eth]; [by intros [= <- _]|]. cbn [call_out].
  intros (socks & _ & Hd)%outcome_bind_Ret. set (d2 := d ⦃ d_out := _ ⦄ ⦃ eth_sock := _ ⦄) in Hd.
  assert (setting_up d d2) as H2 by done. clearbody d2. etrans; [exact H2|].
  destruct (_ <? 0); [by injection Hd as <- _|]. apply outcome_bind_Ret in Hd as ([d3 r3] & H3%bind_raw_up & Hd).
  etrans; [exact H3|]. destruct (negb _); [by injection Hd as <- _|]. by eapply IH.
Qed.

Lemma open_wlan_up todo i d d' r : open_wlan todo i d = Ret (d', r) → setting_up d d'.
Proof.
  revert i d. induction todo as [|todo IH]; intros i d; cbn [open_wlan]; [by intros [= <- _]|]. cbn [call_out].
  intros (socks & _ & Hd)%outcome_bind_Ret. set (d2 := d ⦃ d_out := _ ⦄ ⦃ wlan_sock := _ ⦄) in Hd.
  assert (setting_up d d2) as H2 by done. clearbody d2. etrans; [exact H2|].
  destruct (_ <? 0); [by injection Hd as <- _|]. apply outcome_bind_Ret in Hd as ([d3 r3] & H3%bind_raw_up & Hd).
  etrans; [exact H3|]. destruct (negb _); [by injection Hd as <- _|]. by eapply IH.
Qed.

Lemma read_addrs_up todo i d d' r : read_addrs todo i d = Ret (d', r) → setting_up d d'.
Proof.
  revert i d. induction todo as [|todo IH]; intros i d; cbn [read_addrs]; [by intros [= <- _]|]. cbn [call_out].
  destruct (_ <? 0); [by intros [= <- _]|]. intros Hd.
  destruct (hwaddr_of _) as [[family data]|]; [|by injection Hd as <- _]. destruct (negb _); [by injection Hd as <- _|].
  apply outcome_bind_Ret in Hd as (a & _ & Hd). apply outcome_bind_Ret in Hd as (own & _ & Hd).
  apply IH in Hd. etrans; [|exact Hd]. done.
Qed.

Lemma setup_inv d d' :
  0 ≤ tv_usec (now d) < 1000000 → servers_ok (conf d) → radius d = None → Apd_setup_interface d = Ret (d', 0) → queue_inv d'.
Proof.
  intros Hu Hc Hr. unfold Apd_setup_interface. intros ([d1 r1] & H1 & Hd)%outcome_bind_Ret.
  assert (setting_up d d1) as [Hc1 Hn1 Hr1].
  { unfold Apd_init_sockets in H1. apply outcome_bind_Ret in H1 as ([d2 r2] & H2%open_eth_up & H1). etrans; [exact H2|].
    destruct (negb _); [by injection H1 as <- _|]. apply outcome_bind_Ret in H1 as ([d3 r3] & H3%open_wlan_up & H1).
    etrans; [exact H3|]. destruct (negb _); [by injection H1 as <- _|].
    apply outcome_bind_Ret in H1 as ([d4 r4] & H4%read_addrs_up & H1). etrans; [exact H4|].
    destruct (negb _); by injection H1 as <- _. }
  destruct (negb _); [done|]. apply outcome_bind_Ret in Hd as ([d2 r2] & H2 & Hd).
  apply client_init_inv in H2; [|intros _; by rewrite Hn1, Hc1|intros Hne; by rewrite Hr1 in Hne].
  destruct (negb _); [done|]. apply outcome_bind_Ret in Hd as ([d3 r3] & H3 & Hd).
  assert (queue_inv d3) as Hinv3.
  { unfold ieee802_1x_init, Radius_client_register in H3. apply outcome_bind_Ret in H3 as ([d4 r4] & H4 & [= <- _]).
    apply outcome_bind_Ret in H4 as (c & Hcl & H4). rewrite HM in H4. cbn [negb] in H4. injection H4 as <- _.
    destruct H2 as (c0 & [Hu0 Hc0 Hr0 Hok] & Hp). unfold get_radius in Hcl. rewrite Hr0 in Hcl. injection Hcl as <-.
    eexists. split; [split; [done|done|reflexivity|]|exact Hp]. by destruct Hok. }
  destruct (negb _); by injection Hd as <-.
Qed.

Lemma start_inv prefix pid t d :
  driver_ok → 0 ≤ tv_usec t < 1000000 → main_start prefix pid t = Ret (Some (inl d)) → queue_inv d.
Proof.
  intros Hdrv Ht. unfold main_start. destruct (negb _); [done|]. cbv zeta. generalize (register_signals (eloop_init CApd)) as e. intros e.
  intros (apd & Hapd & Hd)%outcome_bind_Ret. destruct apd as [d0|]; [|done].
  assert (conf d0 = conf d0 ∧ radius d0 = None ∧ now d0 = t ∧ servers_ok (conf d0)) as (_ & Hr & Hn & Hc).
  { unfold Apd_init in Hapd. destruct (_ || _); [done|]. cbv zeta in Hapd. destruct (ret_of 0 <? 0); [done|].
    apply outcome_bind_Ret in Hapd as (c & Hcfg & Hapd). destruct c as [c|]; [|done].
    injection Hapd as <-. split_and!; [done..|]. by eapply Hdrv. }
  apply outcome_bind_Ret in Hd as ([d1 r1] & H1 & Hd). destruct (Z.eqb_spec r1 0) as [->|]; [|done]. cbn [negb] in Hd.
  apply setup_inv in H1; [|by rewrite Hn|done|done]. destruct (RT_ioctl _ _ _ d1) as [d2 r2] eqn:E2.
  injection Hd as <-. apply calm_ioctl in E2. by apply (calm_keeps _ _ E2).
Qed.

(** C33. From the start of the daemon on, whatever happens to it - frames,
    answers, commands of the driver, timeouts, signals, the clock, in any
    order - its list of pending requests is well formed: no two requests share
    an identifier, there are at most as many as it counts and at most thirty,
    every request has been sent less than ten times and waits between one
    second and two minutes, and while a request waits a timer of the client is
    pending.  In every such state the timer of the client, that of the primary
    server and the choice of an identifier return: none of them uses released
    memory or indexes outside an array.  (Memory does not run out, and the
    configurations the driver hands out have secrets as long as they say.) *)
Theorem radius_queue_invariant prefix pid t evs d0 d :
  driver_ok → 0 ≤ tv_usec t < 1000000 → Forall clock_ok evs →
  main_start prefix pid t = Ret (Some (inl d0)) → handle_events evs d0 = Ret d →
  queue_inv d
  ∧ (∃ d', Radius_client_timer d = Ret d') ∧ (∃ d', Radius_retry_primary_timer d = Ret d')
  ∧ (∃ d' id, Radius_client_get_id d = Ret (d', id)).
Proof.
  intros Hdrv Ht Hevs Hstart Hrun. assert (queue_inv d) as Hinv.
  { eapply (events_keep evs d0); [done..|]. by eapply start_inv. }
  split; [done|]. split_and!.
  - destruct Hinv as (c & Hq & _). destruct (client_timer_inv d c Hq) as (d' & Hd & _). eauto.
  - destruct (retry_primary_inv d Hinv) as (d' & Hd & _). eauto.
  - destruct (get_id_inv d Hinv) as (d' & id & c' & Hd & _). eauto.
Qed.

(** * Expiry *)

Definition single_server (conf : rtapd_config) : Prop := Forall (λ b, mbss_num_auth_servers b ≤ 1) (bss conf).

Lemma failover_loop_single todo i failover d :
  single_server (conf d) → length (bss (conf d)) = MAX_MBSSID_NUM → length failover = MAX_MBSSID_NUM →
  (i + todo ≤ MAX_MBSSID_NUM)%nat → failover_loop todo i failover d = Ret d.
Proof.
  intros Hs Hb Hf. revert i. induction todo as [|todo IH]; intros i Hi; cbn [failover_loop]; [done|].
  destruct (at_idx_lt failover i) as (n & -> & _); [lia|]. cbn [mbind outcome_bind]. unfold failover_bss.
  destruct (at_idx_lt (bss (conf d)) i) as (b & -> & Hbi); [lia|]. cbn [mbind outcome_bind].
  pose proof (Forall_lookup_1 _ _ _ _ Hs Hbi) as Hone. cbn beta in Hone.
  destruct (Z.ltb_spec 1 (mbss_num_auth_servers b)); [lia|]. rewrite andb_false_r. cbn [mbind outcome_bind].
  apply IH. lia.
Qed.

Lemma after_timer_nil d c : radius d = Some c → msgs c = [] → after_timer d c [] = d.
Proof.
  intros Hr Hm. unfold after_timer, timer_client. cbn. rewrite app_nil_r, Z.sub_0_r.
  destruct d, c; cbn in *. by subst.
Qed.

(** One firing: every due request is sent, and goes when it was its tenth
    time; nothing else happens but the request for the next firing. *)
Lemma single_server_fire d c :
  queue_ok d c → single_server (conf d) →
  Radius_client_timer d = Ret (with_timeouts (after_timer d c (msgs c)) (timer_queue d (msgs c)))
  ∧ queue_inv (with_timeouts (after_timer d c (msgs c)) (timer_queue d (msgs c))).
Proof.
  intros Hq Hs. destruct (decide (msgs c = [])) as [E|Hne].
  - rewrite E, after_timer_nil by (done || apply Hq). change (timer_queue d []) with (timeouts (loop d)).
    assert (with_timeouts d (timeouts (loop d)) = d) as -> by (by destruct d as [????????[]]).
    split; [|exists c; by rewrite E]. unfold Radius_client_timer, get_radius. rewrite (qo_radius _ _ Hq). cbn. by rewrite E.
  - destruct (client_timer_spec d c Hq Hne) as (d1 & fo & -> & Hinv & Hl & ->). split; [|done].
    destruct (qo_conf _ _ Hq) as (Hb & Hn & _). apply failover_loop_single; [done..|lia].
Qed.

(** The timer fires at each of the times: its handler runs. *)
Fixpoint fires (ts : list timeval) d : outcome daemon :=
  match ts with
  | [] => Ret d
  | t :: ts => let* d := Radius_client_timer (d ⦃ now := t ⦄) in fires ts d
  end.

(** How often the requests can still be sent. *)
Definition tries_left (es : list radius_msg_list) : Z :=
  foldr (λ e n, RADIUS_CLIENT_MAX_RETRIES - attempts e + n) 0 es.

Lemma timer_tries_left t socks es :
  Forall entry_ok es → length socks = MAX_MBSSID_NUM →
  Z.of_nat (length (timer_sends t socks es)) + tries_left (omap (timer_entry t) es) = tries_left es.
Proof.
  intros Hes Hs. induction Hes as [|e es [Ha Hw Hp [data Hdata]] Hes IH]; [done|].
  unfold timer_sends in *. cbn [map concat omap list_omap tries_left foldr]. rewrite length_app.
  fold (tries_left es). unfold timer_entry at 1.
  destruct (at_idx_lt socks (Z.to_nat (entry_ApIdx e))) as (s & _ & Hso); [lia|]. rewrite Hso, Hdata.
  destruct (is_due t e); cbn [length].
  - destruct (Z.leb_spec RADIUS_CLIENT_MAX_RETRIES (attempts e + 1)); cbn [tries_left foldr];
      fold (tries_left (omap (timer_entry t) es)); [|cbn]; lia.
  - cbn [tries_left foldr]. fold (tries_left (omap (timer_entry t) es)). lia.
Qed.

(** The earliest time a request waits for. *)
Definition earliest (es : list radius_msg_list) : Z := foldr (λ e m, Z.min (next_try e) m) 2147483647 es.

(** Times of requests: positive 32-bit numbers. *)
Definition times_ok (es : list radius_msg_list) : Prop := Forall (λ e, 0 < next_try e < 2147483648) es.

Lemma earliest_spec es :
  times_ok es →
  0 < earliest es ≤ 2147483647 ∧ Forall (λ e, earliest es ≤ next_try e) es
  ∧ (es ≠ [] → Exists (λ e, next_try e = earliest es) es).
Proof.
  induction 1 as [|e es He Hes IH]; [by cbn; split_and!; [lia..|constructor|]|].
  destruct IH as (H1 & H2 & H3). cbn [earliest foldr]. fold (earliest es). split_and!; [lia..| |].
  - constructor; [lia|]. eapply Forall_impl; [|exact H2]. cbn. lia.
  - intros _. destruct (Z.min_spec (next_try e) (earliest es)) as [[_ ->]|[Hle ->]]; [by left|].
    destruct es as [|e' es']; [left; cbn in *; lia|]. right. by apply H3.
Qed.

Lemma first_of_earliest es : times_ok es → es ≠ [] → first_of 0 es = earliest es.
Proof.
  intros Hes Hne. destruct (earliest_spec es Hes) as (H1 & H2 & H3). specialize (H3 Hne).
  destruct es as [|e es]; [done|]. apply Forall_cons_1 in Hes as [He Hes].
  change (first_of 0 (e :: es)) with (first_of (next_try e) es).
  destruct (first_of_spec (next_try e) es) as (F1 & F2 & F3); [|lia|].
  { eapply Forall_impl; [|exact Hes]. cbn. lia. }
  apply Forall_cons_1 in H2 as [He2 H2]. apply Z.le_antisymm.
  - apply Exists_cons in H3 as [<-|H3]; [lia|]. apply list.Exists_exists in H3 as (x & Hx & <-).
    exact (proj1 (list.Forall_forall _ _) F2 x Hx).
  - destruct F3 as [->|F3]; [done|]. apply list.Exists_exists in F3 as (x & Hx & <-).
    exact (proj1 (list.Forall_forall _ _) H2 x Hx).
Qed.

(** What the timer asks for is the time of the earliest request, or at once. *)
Lemma timer_asks_earliest t es :
  0 ≤ t < 2147483648 → times_ok (omap (timer_entry t) es) → omap (timer_entry t) es ≠ [] →
  timer_asks t es = Z.max t (earliest (omap (timer_entry t) es)).
Proof.
  intros Ht Hes Hne. unfold timer_asks. rewrite first_of_earliest by done.
  destruct (earliest_spec _ Hes) as (H1 & _). set (m := earliest _) in *.
  destruct (Z.ltb_spec m t); rewrite u32_id by lia; rewrite s32_id by lia; lia.
Qed.

Lemma timer_times_ok t es :
  Forall entry_ok es → times_ok es → 0 ≤ t < 2147483528 → times_ok (omap (timer_entry t) es).
Proof.
  intros Hok Hes Ht. apply list.Forall_forall. intros e' (e & Hin & Hte)%list_elem_of_omap.
  pose proof (proj1 (list.Forall_forall _ _) Hok e Hin) as [_ Hw _ _].
  pose proof (proj1 (list.Forall_forall _ _) Hes e Hin) as He. cbn in He. unfold timer_entry in Hte.
  destruct (is_due t e); [|by injection Hte as <-]. destruct (_ <=? _); [done|]. injection Hte as <-. cbn.
  unfold RADIUS_CLIENT_MAX_WAIT in *. rewrite s32_id by lia. lia.
Qed.

Lemma timer_all_ok t es : Forall entry_ok es → Forall entry_ok (omap (timer_entry t) es).
Proof.
  intros Hok. apply list.Forall_forall. intros e' (e & Hin & Hte)%list_elem_of_omap.
  by apply (timer_entry_ok t e e' (proj1 (list.Forall_forall _ _) Hok e Hin) Hte).
Qed.

(** A firing that finds a request due uses up a transmission. *)
Lemma tries_left_due t es :
  Forall entry_ok es →
  tries_left (omap (timer_entry t) es) ≤ tries_left es
  ∧ (Exists (λ e, next_try e ≤ t) es → tries_left (omap (timer_entry t) es) < tries_left es).
Proof.
  induction 1 as [|e es [Ha _ _ _] Hes [IH1 IH2]]; [split; [done|by intros ?%Exists_nil]|].
  assert (omap (timer_entry t) (e :: es) = match timer_entry t e with
            | Some e' => e' :: omap (timer_entry t) es | None => omap (timer_entry t) es end) as -> by done.
  generalize dependent (omap (timer_entry t) es). intros rest IH1 IH2.
  cbn [tries_left foldr]. fold (tries_left es). unfold timer_entry, is_due.
  destruct (Z.leb_spec (next_try e) t) as [Hd|Hd]; [destruct (Z.leb_spec RADIUS_CLIENT_MAX_RETRIES (attempts e + 1))|].
  - split; lia.
  - cbn [tries_left foldr]. fold (tries_left rest). change (attempts (retried t e)) with (attempts e + 1). split; lia.
  - cbn [tries_left foldr]. fold (tries_left rest). split; [lia|].
    intros [?|Hx]%Exists_cons; [lia|]. specialize (IH2 Hx). lia.
Qed.

Lemma tries_left_none es : Forall entry_ok es → 0 ≤ tries_left es ∧ (tries_left es ≤ 0 → es = []).
Proof.
  induction 1 as [|e es [Ha _ _ _] Hes [IH1 IH2]]; [done|]. cbn [tries_left foldr]. fold (tries_left es). lia.
Qed.

(** The schedule of the timer itself: it does not fire before the time it asked
    for, which after a firing is that of the earliest request left (or at
    once); it may be late. *)
Fixpoint on_schedule (asked : Z) (ts : list timeval) (es : list radius_msg_list) : Prop :=
  match ts with
  | [] => True
  | t :: ts =>
      asked ≤ tv_sec t < 2147483528
      ∧ let left := omap (timer_entry (tv_sec t)) es in on_schedule (Z.max (tv_sec t) (earliest left)) ts left
  end.

Lemma schedule_expires asked ts es :
  Forall entry_ok es → times_ok es → earliest es ≤ asked → on_schedule asked ts es →
  tries_left es ≤ Z.of_nat (length ts) →
  foldl (λ es t, omap (timer_entry (tv_sec t)) es) es ts = [].
Proof.
  revert asked es. induction ts as [|t ts IH]; intros asked es Hok Hes Hea Hsch Hle; cbn [foldl].
  { by apply tries_left_none. }
  destruct Hsch as [Ht Hsch]. destruct (earliest_spec es Hes) as (H1 & _ & H3).
  assert (0 ≤ tv_sec t < 2147483528) as Ht0 by lia.
  apply (IH (Z.max (tv_sec t) (earliest (omap (timer_entry (tv_sec t)) es)))); [by apply timer_all_ok|by apply timer_times_ok|lia|done|].
  destruct (tries_left_due (tv_sec t) es Hok) as [_ Hlt].
  destruct (decide (es = [])) as [->|Hne]; [cbn; lia|]. cbn [length] in Hle.
  assert (Exists (λ e, next_try e ≤ tv_sec t) es) as Hdue; [|specialize (Hlt Hdue); lia].
  specialize (H3 Hne). eapply Exists_impl; [|exact H3]. cbn. lia.
Qed.

(** C34. With one server per BSS the retransmissions of the client end.  The
    timer may fire at any times: it always returns, leaves of each request
    what the retransmission rule leaves of it (sent when due, the wait doubled
    up to two minutes, removed at the tenth transmission), sends nothing but
    those requests, and the number of transmissions plus what the requests
    left may still be sent stays the same, so that no request is ever sent
    more than ten times.  As long as requests are left it asks for the next
    firing at the time of the earliest one; and when it fires on that schedule
    of its own (as late as you like, never earlier), the list is empty after
    as many firings as its requests had transmissions left. *)
Theorem radius_request_expires d c ts :
  queue_ok d c → single_server (conf d) → Forall (λ t, 0 ≤ tv_usec t < 1000000) ts → times_ok (msgs c) →
  Forall (λ t, 0 ≤ tv_sec t < 2147483528) ts →
  ∃ d' c' outs,
    fires ts d = Ret d' ∧ queue_ok d' c'
    ∧ msgs c' = foldl (λ es t, omap (timer_entry (tv_sec t)) es) (msgs c) ts
    ∧ d_out d' = d_out d ++ outs
    ∧ Z.of_nat (length outs) + tries_left (msgs c') = tries_left (msgs c)
    ∧ (∀ ts1 t, ts = ts1 ++ [t] → msgs c' ≠ [] →
         client_timeout_at (Z.max (tv_sec t) (earliest (msgs c'))) (tv_usec t) ∈ timeouts (loop d'))
    ∧ (on_schedule (earliest (msgs c)) ts (msgs c) → tries_left (msgs c) ≤ Z.of_nat (length ts) → msgs c' = []).
Proof.
  intros Hq Hs Hts Htimes Hsecs.
  assert (∃ d' c' outs, fires ts d = Ret d' ∧ queue_ok d' c'
            ∧ msgs c' = foldl (λ es t, omap (timer_entry (tv_sec t)) es) (msgs c) ts
            ∧ d_out d' = d_out d ++ outs ∧ Z.of_nat (length outs) + tries_left (msgs c') = tries_left (msgs c)
            ∧ (∀ ts1 t, ts = ts1 ++ [t] → msgs c' ≠ [] →
                 client_timeout_at (Z.max (tv_sec t) (earliest (msgs c'))) (tv_usec t) ∈ timeouts (loop d')))
    as (d' & c' & outs & H1 & H2 & H3 & H4 & H5 & H6).
  2:{ exists d', c', outs. split_and!; [done..|]. intros Hsch Hlen. rewrite H3.
      by apply (schedule_expires (earliest (msgs c))); [apply Hq|..]. }
  revert d c Hq Hs Htimes. induction ts as [|t ts IH]; intros d c Hq Hs Htimes.
  { exists d, c, []. rewrite app_nil_r. split_and!; try done. by intros [|] ?. }
  apply Forall_cons_1 in Hts as [Ht Hts]. apply Forall_cons_1 in Hsecs as [Hsec Hsecs].
  assert (queue_ok (d ⦃ now := t ⦄) c) as Hqt by (by destruct Hq).
  destruct (single_server_fire _ c Hqt Hs) as (Hfire & c1 & Hq1 & _). cbn [fires]. rewrite Hfire. cbn [mbind outcome_bind].
  set (d1 := with_timeouts _ _) in *.
  assert (c1 = timer_client (tv_sec t) c (msgs c)) as Hc1.
  { pose proof (qo_radius _ _ Hq1) as Hr1. cbn in Hr1. by injection Hr1. }
  assert (msgs c1 = omap (timer_entry (tv_sec t)) (msgs c)) as Hm1 by (by rewrite Hc1).
  pose proof (qo_client _ _ Hq) as Hok.
  assert (times_ok (msgs c1)) as Htimes1 by (rewrite Hm1; apply timer_times_ok; [apply Hok|done|done]).
  destruct (IH Hts Hsecs d1 c1 Hq1) as (d' & c' & outs & Hf & Hq' & Hm & Ho & Hn & Hask); [done|done|].
  exists d', c', (timer_sends (tv_sec t) (mbss_auth_serv_sock c) (msgs c) ++ outs).
  rewrite Hm1 in Hm, Hn.
  split; [done|]. split; [done|]. split; [done|]. split; [rewrite Ho; cbn; by rewrite <-app_assoc|]. split.
  - pose proof (timer_tries_left (tv_sec t) (mbss_auth_serv_sock c) (msgs c) (co_entries _ Hok) (co_socks _ Hok)).
    rewrite length_app. lia.
  - intros ts1 t' Hlast Hne. destruct ts1 as [|x ts1]; cbn in Hlast; injection Hlast as -> Hlast; [|by eapply Hask].
    subst ts. cbn [fires] in Hf. injection Hf as <-. cbn [foldl] in Hm. rewrite Hm in Hne |- *.
    rewrite <-timer_asks_earliest by (done || lia || by rewrite <-Hm1).
    change (timeouts (loop d1)) with (timer_queue (d ⦃ now := t' ⦄) (msgs c)). unfold timer_queue.
    change (time_now (d ⦃ now := t' ⦄)) with (tv_sec t'). change (now (d ⦃ now := t' ⦄)) with t'.
    destruct (omap (timer_entry (tv_sec t')) (msgs c)); [done|]. apply insert_in.
Qed.

(** [Radius_client_get_id] drops a request without counting it: the count the
    limit of thirty is compared with stays one too high. *)
Lemma get_id_leaks_count d c e :
  queue_ok d c → e ∈ msgs c → req_id e = next_radius_identifier c →
  ∃ d' c', Radius_client_get_id d = Ret (d', req_id e) ∧ radius d' = Some c'
           ∧ (length (msgs c') < length (msgs c))%nat ∧ num_msgs c' = num_msgs c.
Proof.
  intros [_ _ Hr [Hi _ _ _ _]] Hin He. unfold Radius_client_get_id, get_radius. rewrite Hr. cbn [mbind outcome_bind].
  rewrite remove_id_spec by done. cbn [mbind outcome_bind]. rewrite He. eexists _, _.
  split; [done|]. split; [reflexivity|]. split; [|done]. cbn. apply (length_filter_lt _ _ e); [done|]. by intros [].
Qed.

End Props.

(** * Concrete runs *)

#[local] Existing Instances demo_world demo_malloc.

(** The daemon of [DaemonProps] after the two frames of a station: it waits for
    the server. *)
Definition demo_events : list daemon_event :=
  map (λ f, EvFrame (replicate recv_size 0) (Some f) 7) demo_frames.

Definition demo_waiting : outcome (daemon * daemon) :=
  let* start := demo_start in
  match start with
  | Some (inl d0) => let* d := handle_events demo_events d0 in Ret (d0, d)
  | _ => Oob
  end.

Lemma demo_waiting_inversion d0 d :
  demo_waiting = Ret (d0, d) → demo_start = Ret (Some (inl d0)) ∧ handle_events demo_events d0 = Ret d.
Proof.
  unfold demo_waiting. intros (start & Hs & Hr)%outcome_bind_Ret. destruct start as [[d1|d1]|]; [|done..].
  apply outcome_bind_Ret in Hr as (d2 & Hd & [= <- <-]). by split.
Qed.

(** The timer a second later than it asks for, each time. *)
Definition demo_times : list timeval :=
  map (λ s, mk_timeval s 0) [1002; 1005; 1010; 1019; 1036; 1069; 1134; 1255; 1376].

Lemma demo_waiting_facts :
  match demo_waiting with
  | Ret (_, d) =>
      single_server (conf d)
      ∧ match radius d with
        | Some c => map next_try (msgs c) = [1001] ∧ tries_left (msgs c) = 9
                    ∧ on_schedule (earliest (msgs c)) demo_times (msgs c)
        | None => False
        end
  | _ => False
  end.
Proof. vm_compute. split; [repeat constructor; discriminate|]. repeat split; discriminate. Qed.

Lemma demo_driver_ok : driver_ok.
Proof.
  intros n c Hc. cbn in Hc. vm_compute in Hc. injection Hc as <-. split; [done|]. split; [unfold MAX_MBSSID_NUM; cbn; lia|].
  repeat (constructor; [split; [repeat constructor|cbn; try lia; try done]|]); [|constructor].
  eexists. reflexivity.
Qed.

Lemma radius_queue_invariant_witness :
  ∃ d0 d, demo_start = Ret (Some (inl d0)) ∧ handle_events demo_events d0 = Ret d ∧ queue_inv d
    ∧ ∃ d', Radius_client_timer d = Ret d'.
Proof.
  pose proof demo_waiting_facts as Hf. pose proof demo_waiting_inversion as Hi.
  destruct demo_waiting as [[d0 d]| |]; [|destruct Hf..]. destruct (Hi _ _ eq_refl) as [Hstart Hrun].
  destruct (radius_queue_invariant (λ _, eq_refl) [114; 97] 321 (mk_timeval 1000 0) demo_events d0 d)
    as (Hinv & Htimer & _).
  - exact demo_driver_ok.
  - cbn. lia.
  - repeat constructor.
  - exact Hstart.
  - exact Hrun.
  - exists d0, d. split; [exact Hstart|]. split; [exact Hrun|]. split; [exact Hinv|exact Htimer].
Defined.

Lemma demo_waiting_ok : ∃ d0 d, demo_waiting = Ret (d0, d) ∧ queue_inv d.
Proof.
  pose proof demo_waiting_facts as Hf. pose proof demo_waiting_inversion as Hi.
  destruct demo_waiting as [[d0 d]| |]; [|destruct Hf..]. destruct (Hi _ _ eq_refl) as [Hstart Hrun].
  exists d0, d. split; [done|].
  eapply (events_keep (λ _, eq_refl) demo_events d0); [exact demo_driver_ok|by repeat constructor|exact Hrun|].
  eapply (start_inv (λ _, eq_refl)); [exact demo_driver_ok| |exact Hstart]. cbn. lia.
Qed.

Lemma radius_request_expires_witness :
  ∃ d0 d d' c', demo_waiting = Ret (d0, d) ∧ fires demo_times d = Ret d' ∧ radius d' = Some c' ∧ msgs c' = [].
Proof.
  destruct demo_waiting_ok as (d0 & d & Hd & c & Hq & _). exists d0, d.
  pose proof demo_waiting_facts as Hf. rewrite Hd, (qo_radius _ _ Hq) in Hf. destruct Hf as (Hs & Hn & Hleft & Hsch).
  destruct (radius_request_expires (λ _, eq_refl) d c demo_times Hq Hs)
    as (d' & c' & outs & H1 & H2 & H3 & _ & _ & _ & H4).
  - repeat constructor; cbn; lia.
  - destruct (msgs c) as [|e [|]]; [discriminate Hn| |discriminate Hn]. cbn in Hn. injection Hn as Hn.
    repeat constructor; lia.
  - repeat constructor; cbn; lia.
  - exists d', c'. split; [exact Hd|]. split; [exact H1|]. split; [apply H2|]. apply H4; [exact Hsch|].
    rewrite Hleft. cbn. lia.
Defined.

(** With a second server that shares the secret a request never expires: each
    change of the server, after five transmissions, sets its count back to
    zero.  After forty firings it has been sent forty-one times and still waits. *)
Definition two_servers (d : daemon) : daemon :=
  d ⦃ conf / bss := map (λ b, b ⦃ mbss_auth_servers := mbss_auth_servers b ++ mbss_auth_servers b ⦄) (bss (conf d)) ⦄.

Lemma radius_failover_never_expires :
  match (let* (_, d) := demo_waiting in
         fires (map (λ k, mk_timeval (1200 + 130 * Z.of_nat k) 0) (seq 0 40)) (two_servers d)) with
  | Ret d => length (msgs (default new_client (radius d))) = 1%nat
             ∧ length (List.filter (λ e, match e with Send 9 _ => true | _ => false end) (d_out d)) = 41%nat
  | _ => False
  end.
Proof. vm_compute. split; reflexivity. Qed.
