(* ===== verification/PpeRegs.v ===== *)
(** The registers of the packet engine (PPE) of the hardware NAT, and the helpers
    that access them: [net/nat/hw_nat/util.c] and [frame_engine.h].

    The configuration modelled is the one the SDK's defaults give for an RT3352
    with hardware NAT: first generation (no [CONFIG_HNAT_V2]), IPv6 on, a table of
    4096 flows.  Configuration registers and the policy memory of the engine keep
    what is written to them; what the engine changes on its own (the clock
    [FOE_TS], the counters at [AC_BASE]) is what the map holds when it is read. *)

From S2P Require Import Prelude.
From stdpp Require Export gmap.
#[global] Open Scope Z_scope.
#[global] Open Scope fw_scope.

(** [enum FoeTblTcpUdp] of [foe_fdb.h]: the transport protocol of a rule or a flow. *)
Definition TCP : Z := 0.
Definition UDP : Z := 1.
Definition ANY : Z := 2.

(** * Registers *)

(** The start addresses are globals of [hwnat_ioctl.c]. *)
Record ppe := {
  regs : gmap Z Z;
  pre_acl_start_addr : Z;
  pre_ac_start_addr : Z;
  post_ac_start_addr : Z;
  pre_mtr_start_addr : Z;
  post_mtr_start_addr : Z
}.
#[export] Instance ppe_eta : Eta ppe := λ r,
  {| regs := regs r; pre_acl_start_addr := pre_acl_start_addr r;
     pre_ac_start_addr := pre_ac_start_addr r; post_ac_start_addr := post_ac_start_addr r;
     pre_mtr_start_addr := pre_mtr_start_addr r; post_mtr_start_addr := post_mtr_start_addr r |}.

(** [CPHYSADDR(a) | KSEG1], the uncached window of a physical address. *)
Definition KSEG1ADDR (a : Z) : Z := Z.lor (Z.land a 0x1fffffff) 0xa0000000.

Definition RegRead (p : ppe) (phys : Z) : Z := default 0 (regs p !! KSEG1ADDR phys).
Definition RegWrite (p : ppe) (phys val : Z) : ppe :=
  p ⦃ regs := <[KSEG1ADDR phys := u32 val]> (regs p) ⦄.

(** The loop that builds the mask of [RegModifyBits]. *)
Definition reg_mask (Offset Len : Z) : Z :=
  foldl (λ Mask i, u32 (Z.lor Mask (Z.shiftl 1 (Offset + i)))) 0 (seqZ 0 Len).

Definition RegModifyBits (p : ppe) (Addr Data Offset Len : Z) : ppe :=
  let Mask := reg_mask Offset Len in
  let Value := RegRead p Addr in
  let Value := Z.land Value (Z.lnot Mask) in
  let Value := Z.lor Value (Z.land (u32 (Z.shiftl Data Offset)) Mask) in
  RegWrite p Addr Value.

(** * Addresses *)

Definition RALINK_FRAME_ENGINE_BASE : Z := 0xB0100000.
Definition POLICY_TBL_BASE : Z := RALINK_FRAME_ENGINE_BASE + 0x1000.
Definition FE_GLO_BASE : Z := RALINK_FRAME_ENGINE_BASE.
Definition PPE_BASE : Z := RALINK_FRAME_ENGINE_BASE + 0x200.
Definition AC_BASE : Z := RALINK_FRAME_ENGINE_BASE + 0x400.
Definition METER_BASE : Z := RALINK_FRAME_ENGINE_BASE + 0x600.
Definition FOE_TS : Z := FE_GLO_BASE + 0x1C.
Definition FE_GDMA1_SCH_CFG : Z := FE_GLO_BASE + 0x20 + 0x04.
Definition FE_GDMA2_SCH_CFG : Z := FE_GLO_BASE + 0x60 + 0x04.
Definition PPE_GLO_CFG : Z := PPE_BASE + 0x00.
Definition PPE_FLOW_SET : Z := PPE_BASE + 0x14.
Definition PPE_PRE_ACL : Z := PPE_BASE + 0x18.
Definition PPE_PRE_MTR : Z := PPE_BASE + 0x1C.
Definition PPE_PRE_AC : Z := PPE_BASE + 0x20.
Definition PPE_POST_MTR : Z := PPE_BASE + 0x24.
Definition PPE_POST_AC : Z := PPE_BASE + 0x28.
Definition PPE_POL_CFG : Z := PPE_BASE + 0x2C.
Definition PPE_FOE_CFG : Z := PPE_BASE + 0x30.
Definition PPE_FOE_BASE : Z := PPE_BASE + 0x34.
Definition PPE_FOE_BNDR : Z := PPE_BASE + 0x3C.
Definition PPE_FOE_LMT1 : Z := PPE_BASE + 0x40.
Definition PPE_FOE_LMT2 : Z := PPE_BASE + 0x44.
Definition PPE_FOE_KA : Z := PPE_BASE + 0x48.
Definition PPE_FOE_UNB_AGE : Z := PPE_BASE + 0x4C.
Definition PPE_FOE_BND_AGE0 : Z := PPE_BASE + 0x50.
Definition PPE_FOE_BND_AGE1 : Z := PPE_BASE + 0x54.
Definition DSCP0_7_MAP_UP : Z := PPE_BASE + 0x60.
Definition UP_RES : Z := PPE_BASE + 0x88.
Definition UP_MAP_VPRI : Z := PPE_BASE + 0x8C.
Definition UP0_3_MAP_IDSCP : Z := PPE_BASE + 0x90.
Definition UP4_7_MAP_IDSCP : Z := PPE_BASE + 0x94.
Definition UP0_3_MAP_ODSCP : Z := PPE_BASE + 0x98.
Definition UP4_7_MAP_ODSCP : Z := PPE_BASE + 0x9C.
Definition UP_MAP_AC : Z := PPE_BASE + 0xA0.

(** The bits of [PPE_FLOW_SET]. *)
Definition BIT_FBC_POSA : Z := Z.shiftl 1 0.
Definition BIT_FBC_POSM : Z := Z.shiftl 1 1.
Definition BIT_FBC_FOE : Z := Z.shiftl 1 2.
Definition BIT_FBC_PREA : Z := Z.shiftl 1 3.
Definition BIT_FBC_PREM : Z := Z.shiftl 1 4.
Definition BIT_FBC_ACL : Z := Z.shiftl 1 5.
Definition BIT_FMC_POSA : Z := Z.shiftl 1 8.
Definition BIT_FMC_POSM : Z := Z.shiftl 1 9.
Definition BIT_FMC_FOE : Z := Z.shiftl 1 10.
Definition BIT_FMC_PREA : Z := Z.shiftl 1 11.
Definition BIT_FMC_PREM : Z := Z.shiftl 1 12.
Definition BIT_FMC_ACL : Z := Z.shiftl 1 13.
Definition BIT_FUC_POSA : Z := Z.shiftl 1 16.
Definition BIT_FUC_POSM : Z := Z.shiftl 1 17.
Definition BIT_FUC_FOE : Z := Z.shiftl 1 18.
Definition BIT_FUC_PREA : Z := Z.shiftl 1 19.
Definition BIT_FUC_PREM : Z := Z.shiftl 1 20.
Definition BIT_FUC_ACL : Z := Z.shiftl 1 21.
Definition BIT_IPV4_NAPT_EN : Z := Z.shiftl 1 27.
Definition BIT_IPV4_NAT_EN : Z := Z.shiftl 1 26.
Definition BIT_IPV6_FOE_EN : Z := Z.shiftl 1 24.
Definition BIT_IPV6_PE_EN : Z := Z.shiftl 1 25.

(** Account engine enable period. *)
Definition DFL_POL_AC_PRD : Z := 0xFFFF.

(** * Helpers of [util.c] *)

(** [Mac] is an array of at least six bytes; [i] goes from 5 down to 3. *)
Definition MacReverse (Mac : bytes) : bytes :=
  foldl (λ M i, <[(5 - i)%nat := nth i M 0]> (<[i := nth (5 - i) M 0]> M)) Mac [5; 4; 3]%nat.

(** The loop that looks for the lowest set bit. *)
Fixpoint range_shift (fuel : nat) (Range i : Z) : Z :=
  match fuel with
  | O => i
  | S fuel => if Z.land (Z.shiftr Range i) 1 =? 1 then i else range_shift fuel Range (i + 1)
  end.

(** The mantissa and the exponent, both of type [uint8_t]. *)
Definition CalIpRange (StartIp EndIp : Z) : Z * Z :=
  let Range := u32 (u32 (EndIp + 1) - StartIp) in
  let i := range_shift 32 Range 0 in
  if negb (i =? 32) then (u8 (Z.shiftr Range i), u8 i) else (0, 0).

(** * Facts *)
Lemma KSEG1ADDR_id a : 0xa0000000 ≤ a < 0xc0000000 → KSEG1ADDR a = a.
Proof.
  intros Ha. unfold KSEG1ADDR.
  replace 0x1fffffff with (Z.ones 29) by done. rewrite Z.land_ones by lia.
  rewrite <-Z.lxor_lor, <-Z.add_nocarry_lxor.
  - change (2 ^ 29) with 536870912. zlia.
  - apply Z.bits_inj'. intros i Hi. rewrite Z.land_spec, Z.bits_0.
    destruct (decide (i < 29)).
    + rewrite andb_comm. replace 0xa0000000 with (5 * 2 ^ 29) by done.
      by rewrite Z.mul_pow2_bits_low by lia.
    + by rewrite Z.mod_pow2_bits_high by lia.
  - apply Z.bits_inj'. intros i Hi. rewrite Z.land_spec, Z.bits_0.
    destruct (decide (i < 29)).
    + rewrite andb_comm. replace 0xa0000000 with (5 * 2 ^ 29) by done.
      by rewrite Z.mul_pow2_bits_low by lia.
    + by rewrite Z.mod_pow2_bits_high by lia.
Qed.

Lemma reg_mask_bits Offset Len i :
  0 ≤ Offset → 0 ≤ Len → 0 ≤ i →
  Z.testbit (reg_mask Offset Len) i = bool_decide (Offset ≤ i < Offset + Len ∧ i < 32).
Proof.
  intros HO HL Hi. unfold reg_mask.
  rewrite <-(Z2Nat.id Len) by done. generalize (Z.to_nat Len) as n. clear Len HL.
  intros n. induction n as [|n IH]; [cbn; rewrite Z.bits_0; symmetry; apply bool_decide_eq_false; lia|].
  rewrite seqZ_S, foldl_app. cbn -[Z.of_nat].
  unfold u32 at 1. change 4294967296 with (2 ^ 32).
  destruct (decide (i < 32)) as [H32|H32].
  - rewrite Z.mod_pow2_bits_low, Z.lor_spec, IH by lia.
    rewrite Z.shiftl_1_l, Z.pow2_bits_eqb by lia.
    repeat case_bool_decide; destruct (_ =? _) eqn:E; lia.
  - rewrite Z.mod_pow2_bits_high by lia. symmetry. apply bool_decide_eq_false. lia.
Qed.

(** Every register lies in the uncached window, where addresses are their own. *)
Abbreviation reg_addr a := (0xa0000000 ≤ a < 0xc0000000).

Lemma RegRead_RegWrite p a v : RegRead (RegWrite p a v) a = u32 v.
Proof. unfold RegRead, RegWrite. cbn. by rewrite lookup_insert_eq. Qed.

Lemma RegRead_RegWrite_ne p a b v :
  reg_addr a → reg_addr b → a ≠ b → RegRead (RegWrite p b v) a = RegRead p a.
Proof.
  intros Ha Hb Hab. unfold RegRead, RegWrite. cbn.
  by rewrite !KSEG1ADDR_id, lookup_insert_ne by done.
Qed.

Lemma RegModifyBits_bits p a Data Offset Len i :
  0 ≤ Offset → 0 ≤ Len → 0 ≤ i →
  Z.testbit (RegRead (RegModifyBits p a Data Offset Len) a) i =
    if decide (i < 32) then
      if decide (Offset ≤ i < Offset + Len) then Z.testbit Data (i - Offset)
      else Z.testbit (RegRead p a) i
    else false.
Proof.
  intros HO HL Hi. unfold RegModifyBits. rewrite RegRead_RegWrite.
  unfold u32. change 4294967296 with (2 ^ 32). destruct (decide (i < 32)) as [H32|H32].
  - rewrite Z.mod_pow2_bits_low, Z.lor_spec, !Z.land_spec by lia.
    rewrite Z.lnot_spec, reg_mask_bits, Z.mod_pow2_bits_low, Z.shiftl_spec by lia.
    destruct (decide (Offset ≤ i < Offset + Len)).
    + rewrite bool_decide_eq_true_2 by lia. cbn. by rewrite andb_false_r, andb_true_r.
    + rewrite bool_decide_eq_false_2 by lia. cbn. by rewrite andb_false_r, andb_true_r, orb_false_r.
  - by rewrite Z.mod_pow2_bits_high by lia.
Qed.

(** The field of [Len] bits at [Offset] of a register value. *)
Definition field (v Offset Len : Z) : Z := Z.land (Z.shiftr v Offset) (Z.ones Len).

Lemma field_bits v Offset Len i :
  0 ≤ Offset → 0 ≤ Len → 0 ≤ i →
  Z.testbit (field v Offset Len) i = (bool_decide (i < Len) && Z.testbit v (i + Offset)).
Proof.
  intros. unfold field. rewrite Z.land_spec, Z.shiftr_spec, Z.testbit_ones_nonneg by lia.
  rewrite andb_comm. f_equal. by case_bool_decide; lia.
Qed.

Lemma field_RegModifyBits p a Data Offset Len :
  0 ≤ Offset → 0 ≤ Len → Offset + Len ≤ 32 →
  field (RegRead (RegModifyBits p a Data Offset Len) a) Offset Len = Data mod 2 ^ Len.
Proof.
  intros. apply Z.bits_inj'. intros i Hi.
  rewrite field_bits, RegModifyBits_bits by lia.
  destruct (decide (i < Len)).
  - rewrite bool_decide_eq_true_2, Z.mod_pow2_bits_low by lia.
    rewrite !decide_True by lia. cbn. f_equal. lia.
  - rewrite bool_decide_eq_false_2, Z.mod_pow2_bits_high by lia. done.
Qed.

Lemma field_RegModifyBits_ne p a Data Offset Len off len :
  0 ≤ Offset → 0 ≤ Len → 0 ≤ off → 0 ≤ len → off + len ≤ 32 →
  off + len ≤ Offset ∨ Offset + Len ≤ off →
  field (RegRead (RegModifyBits p a Data Offset Len) a) off len = field (RegRead p a) off len.
Proof.
  intros. apply Z.bits_inj'. intros i Hi.
  rewrite !field_bits, RegModifyBits_bits by lia.
  case_bool_decide; [cbn|done]. rewrite decide_True, decide_False by lia. done.
Qed.

Lemma RegRead_RegModifyBits_ne p a b Data Offset Len :
  reg_addr a → reg_addr b → a ≠ b →
  RegRead (RegModifyBits p b Data Offset Len) a = RegRead p a.
Proof. intros. unfold RegModifyBits. by rewrite RegRead_RegWrite_ne. Qed.

(** *** [MacReverse] and [CalIpRange] *)

Lemma MacReverse_eq a b c d e f : MacReverse [a; b; c; d; e; f] = [f; e; d; c; b; a].
Proof. done. Qed.

Lemma MacReverse_rev Mac : length Mac = 6%nat → MacReverse Mac = reverse Mac.
Proof. intros. do 7 (destruct Mac as [|? Mac]; try done). Qed.

Lemma range_shift_spec fuel Range i :
  0 ≤ i → let k := range_shift fuel Range i in
  i ≤ k ≤ i + Z.of_nat fuel ∧ (∀ j, i ≤ j < k → Z.testbit Range j = false) ∧
  (k < i + Z.of_nat fuel → Z.testbit Range k = true).
Proof.
  revert i. induction fuel as [|fuel IH]; intros i Hi; cbn -[Z.of_nat].
  { split_and!; lia. }
  assert (Hb : Z.land (Z.shiftr Range i) 1 = Z.b2z (Z.testbit Range i)).
  { rewrite (Z.land_ones _ 1) by lia. by rewrite Z.testbit_spec', Z.shiftr_div_pow2 by lia. }
  rewrite Hb. destruct (Z.testbit Range i) eqn:E; cbn -[Z.of_nat].
  - split_and!; [lia..| |done]. lia.
  - destruct (IH (i + 1)) as (H1 & H2 & H3); [lia|]. split_and!; [lia..| |].
    + intros j Hj. destruct (decide (j = i)) as [->|]; [done|]. apply H2. lia.
    + intros. apply H3. lia.
Qed.
