(* ===== verification/Policy.v ===== *)
(** The policy memory of the packet engine: the rules of [policy.h], the five
    tables that share the memory ([acl_policy.c], [ac_policy.c], [mtr_policy.c]:
    pointers, enables and the insertion of an entry) and their layout
    ([PpeSetRuleSize] of [hwnat_ioctl.c]). *)

From S2P Require Import Prelude PpeRegs.

(** * Rules *)

Definition OTHERS : Z := 0.
Definition DMAC : Z := 1.
Definition SMAC : Z := 2.
Definition SDMAC : Z := 3.
Definition IP_QOS : Z := 0.
Definition DIP : Z := 1.
Definition SIP : Z := 2.
Definition DONT_CARE : Z := 0.
Definition DPORT : Z := 1.
Definition SPORT : Z := 2.
Definition L2_RULE : Z := 0.
Definition L3_RULE : Z := 1.
Definition L4_RULE : Z := 2.
Definition PN_DONT_CARE : Z := 7.
Definition AND : Z := 0.
Definition TCP_FIN : Z := 1.
Definition TCP_SYN : Z := 2.
Definition EQUAL : Z := 0.
Definition IN_SET : Z := 2.
Definition FLT_IP_PROT : Z := 0.
Definition FLT_UDP : Z := 1.
Definition FLT_TCP : Z := 2.
Definition FLT_TCP_UDP : Z := 3.
Definition FPN_FRC_PRI_ONLY : Z := 5.
Definition FPN_ALLOW : Z := 4.
Definition FPN_DROP : Z := 7.

(** The first byte of a rule, a union: not the end of an entry, or what the
    engine does with a packet that matches the entry that ends here. *)
Inductive entry_end :=
| Ee0 (ee logic : Z)
| EeMtr (ee dop mg : Z)
| EeAc (ee ag : Z)
| EeFpp (ee fpp fpn up : Z)
| EeFoe (ee foe foe_tb : Z).

Record common_field := {
  com_end : entry_end;
  match_ : Z;
  pn : Z;
  rt : Z;
  dir : Z
}.

(** The rest of an [l2_rule], [l3_rule] or [l4_rule], each a union. *)
Inductive rule_body :=
| L2Mac (mac : bytes)
| L2Others (v s e p vid etyp_pprot pppoe_id : Z)
| L3Ip (ip ip_rng_m ip_rng_e v4 ip_seg : Z)
| L3Qos (tos_s tos_e foz mf fov mfv v4 : Z)
| L4Tcp (p_start p_end tcp_fop tcp_f tcp_fm tu : Z)
| L4Udp (p_start p_end tu : Z)
| L4Ip (p_start p_end prot tu : Z).

Record rule := { com : common_field; body : rule_body }.

(** ** Layout

    A rule is eight bytes.  The compiler allocates bit fields from the least
    significant bit; an assignment keeps the low bits of its value.  [pack]
    takes the fields in that order, each with its width. *)

Fixpoint pack (l : list (Z * Z)) : Z :=
  match l with
  | [] => 0
  | (w, x) :: l => x mod 2 ^ w + 2 ^ w * pack l
  end.

Definition end_fields (e : entry_end) : list (Z * Z) :=
  match e with
  | Ee0 ee logic => [(1, ee); (6, 0); (1, logic)]
  | EeMtr ee dop mg => [(1, ee); (1, dop); (6, mg)]
  | EeAc ee ag => [(1, ee); (1, 0); (6, ag)]
  | EeFpp ee fpp fpn up => [(1, ee); (1, fpp); (3, fpn); (3, up)]
  | EeFoe ee foe foe_tb => [(1, ee); (1, foe); (6, foe_tb)]
  end.

Definition com_fields (c : common_field) : list (Z * Z) :=
  end_fields (com_end c) ++ [(1, match_ c); (3, pn c); (2, rt c); (2, dir c)].

Definition body_fields (b : rule_body) : list (Z * Z) :=
  match b with
  | L2Mac mac => (λ x, (8, x)) <$> mac
  | L2Others v s e p vid etyp pppoe =>
      [(1, v); (1, s); (1, e); (1, p); (12, vid); (16, etyp); (16, pppoe)]
  | L3Ip ip m e v4 seg => [(32, ip); (8, m); (5, e); (1, v4); (2, seg)]
  | L3Qos tos_s tos_e foz mf fov mfv v4 =>
      [(8, tos_s); (8, tos_e); (16, 0); (4, 0); (1, foz); (1, mf); (1, fov); (1, mfv);
       (5, 0); (1, v4); (2, 0)]
  | L4Tcp ps pe fop f fm tu => [(16, ps); (16, pe); (2, fop); (6, f); (6, fm); (2, tu)]
  | L4Udp ps pe tu => [(16, ps); (16, pe); (14, 0); (2, tu)]
  | L4Ip ps pe prot tu => [(16, ps); (16, pe); (8, prot); (6, 0); (2, tu)]
  end.

Definition rule_fields (r : rule) : list (Z * Z) := com_fields (com r) ++ body_fields (body r).

(** The two words [*p] and [*(p + 1)] of a rule seen as [uint32_t *p]. *)
Definition rule_word0 (r : rule) : Z := u32 (pack (rule_fields r)).
Definition rule_word1 (r : rule) : Z := u32 (pack (rule_fields r) / 2 ^ 32).

(** * The tables *)

Inductive table := PRE_ACL | PRE_MTR | PRE_AC | POST_MTR | POST_AC.

#[export] Instance table_dec : EqDecision table.
Proof. solve_decision. Defined.

(** The register with the start and end pointer of each table. *)
Definition ptr_reg (t : table) : Z :=
  match t with
  | PRE_ACL => PPE_PRE_ACL
  | PRE_MTR => PPE_PRE_MTR
  | PRE_AC => PPE_PRE_AC
  | POST_MTR => PPE_POST_MTR
  | POST_AC => PPE_POST_AC
  end.

(** [PpeGetPreAclStr], [PpeGetPreMtrStr], ... and the setters. *)
Definition PpeGetStr (p : ppe) (t : table) : Z := Z.land (RegRead p (ptr_reg t)) 0x1FF.
Definition PpeGetEnd (p : ppe) (t : table) : Z :=
  Z.land (Z.shiftr (RegRead p (ptr_reg t)) 16) 0x1FF.
Definition PpeSetStr (p : ppe) (t : table) (v : Z) : ppe := RegModifyBits p (ptr_reg t) v 0 9.
Definition PpeSetEnd (p : ppe) (t : table) (v : Z) : ppe := RegModifyBits p (ptr_reg t) v 16 9.

(** [PpeRstPreAclPtr], ...; the ACL table is reset to 0. *)
Definition table_start (p : ppe) (t : table) : Z :=
  match t with
  | PRE_ACL => 0
  | PRE_MTR => pre_mtr_start_addr p
  | PRE_AC => pre_ac_start_addr p
  | POST_MTR => post_mtr_start_addr p
  | POST_AC => post_ac_start_addr p
  end.

Definition PpeRstPtr (p : ppe) (t : table) : ppe :=
  let p := PpeSetStr p t (table_start p t) in
  PpeSetEnd p t (table_start p t).

Definition PpeSetRuleSize (p : ppe) (pre_acl pre_meter pre_ac post_meter post_ac : Z) : ppe :=
  let p := p ⦃ pre_acl_start_addr := 0 ⦄ in
  let p := p ⦃ pre_mtr_start_addr := 0 + pre_acl ⦄ in
  let p := p ⦃ pre_ac_start_addr := 0 + pre_acl + pre_meter ⦄ in
  let p := p ⦃ post_mtr_start_addr := 0 + pre_acl + pre_meter + pre_ac ⦄ in
  let p := p ⦃ post_ac_start_addr := 0 + pre_acl + pre_meter + pre_ac + post_meter ⦄ in
  let p := PpeRstPtr p PRE_ACL in
  let p := PpeRstPtr p PRE_MTR in
  let p := PpeRstPtr p PRE_AC in
  let p := PpeRstPtr p POST_MTR in
  PpeRstPtr p POST_AC.

(** The default sizes ([PRE_ACL_SIZE], ...) of [Kconfig]. *)
Definition PRE_ACL_SIZE : Z := 383.
Definition PRE_MTR_SIZE : Z := 32.
Definition PRE_AC_SIZE : Z := 32.
Definition POST_MTR_SIZE : Z := 32.
Definition POST_AC_SIZE : Z := 32.

(** [PpeInsAclEntry], [PpeInsAcEntry] and [PpeInsMtrEntry]: the rule goes where
    the end pointer points, and the pointer advances. *)
Definition PpeInsEntry (p : ppe) (t : table) (r : rule) : ppe :=
  let Index := PpeGetEnd p t in
  let p := RegWrite p (POLICY_TBL_BASE + Index * 8) (rule_word0 r) in
  let p := RegWrite p (POLICY_TBL_BASE + Index * 8 + 4) (rule_word1 r) in
  PpeSetEnd p t (Index + 1).

(** ** Enabling a table *)

Definition flow_bits (t : table) : Z :=
  match t with
  | PRE_ACL => Z.lor (Z.lor BIT_FUC_ACL BIT_FMC_ACL) BIT_FBC_ACL
  | PRE_MTR => Z.lor (Z.lor BIT_FUC_PREM BIT_FMC_PREM) BIT_FBC_PREM
  | PRE_AC => Z.lor (Z.lor BIT_FUC_PREA BIT_FMC_PREA) BIT_FBC_PREA
  | POST_MTR => Z.lor (Z.lor BIT_FUC_POSM BIT_FMC_POSM) BIT_FBC_POSM
  | POST_AC => Z.lor (Z.lor BIT_FUC_POSA BIT_FMC_POSA) BIT_FBC_POSA
  end.

(** The bit of [PPE_POL_CFG] that enables an accounting table. *)
Definition ac_bit (t : table) : option Z :=
  match t with PRE_AC => Some 13 | POST_AC => Some 12 | _ => None end.

(** The accounting tables set the period and their enable bit, and have to set
    the period to 0 first when they are disabled. *)
Definition set_account (p : ppe) (t : table) (Ebl : bool) : ppe :=
  match ac_bit t with
  | None => p
  | Some bit =>
      let p := RegModifyBits p PPE_POL_CFG (if Ebl then DFL_POL_AC_PRD else 0) 16 16 in
      RegModifyBits p PPE_POL_CFG (if Ebl then 1 else 0) bit 1
  end.

(** [PpeSetPreAclEbl], [PpeSetPreMtrEbl], [PpeSetPostMtrEbl], [PpeSetPreAcEbl] and
    [PpeSetPostAcEbl]. *)
Definition PpeSetEbl (p : ppe) (t : table) (Ebl : bool) : ppe :=
  let PpeFlowSet := RegRead p PPE_FLOW_SET in
  if Ebl then
    let PpeFlowSet := Z.lor PpeFlowSet (flow_bits t) in
    let PpeFlowSet := Z.lor PpeFlowSet BIT_IPV6_PE_EN in
    let p := set_account p t true in
    RegWrite p PPE_FLOW_SET PpeFlowSet
  else
    let PpeFlowSet := Z.land PpeFlowSet (Z.lnot (flow_bits t)) in
    let PpeFlowSet := Z.land PpeFlowSet (Z.lnot BIT_IPV6_PE_EN) in
    let p := set_account p t false in
    let p := PpeRstPtr p t in
    RegWrite p PPE_FLOW_SET PpeFlowSet.

(** [PpeGetPreAclEbl], ...: [~] where [&] with the bit was meant. *)
Definition PpeGetEbl (p : ppe) (t : table) : Z :=
  let v := RegRead p PPE_FLOW_SET in
  let test b := negb (Z.land v (u32 (Z.lnot b)) =? 0) in
  match t with
  | PRE_ACL => if test BIT_FUC_ACL || test BIT_FMC_ACL || test BIT_FBC_ACL then 1 else 0
  | PRE_MTR => if test BIT_FUC_PREM || test BIT_FMC_PREM || test BIT_FBC_PREM then 1 else 0
  | PRE_AC => if test BIT_FUC_PREA || test BIT_FMC_PREA || test BIT_FBC_PREA then 1 else 0
  | POST_MTR => if test BIT_FUC_POSM || test BIT_FMC_POSM || test BIT_FBC_POSM then 1 else 0
  | POST_AC => if test BIT_FUC_POSA || test BIT_FMC_POSA || test BIT_FBC_POSA then 1 else 0
  end.
