(* ===== verification/Acl.v ===== *)
(** The access control rules of the hardware NAT: [acl_policy.c] and [acl_ioctl.c].

    A rule of the user is a node of [AclPlcyList]; the engine matches a chain of
    entries of its policy memory.  [SyncAclTbl] writes the chains of all nodes
    into the memory again after every change. *)

From S2P Require Import Prelude PpeRegs Policy.

(** * Data *)

Definition ACL_ADD_SMAC_DIP_ANY : Z := 0.
Definition ACL_ADD_SMAC_DIP_TCP : Z := 1.
Definition ACL_ADD_SMAC_DIP_UDP : Z := 2.
Definition ACL_DEL_SMAC_DIP_ANY : Z := 3.
Definition ACL_DEL_SMAC_DIP_TCP : Z := 4.
Definition ACL_DEL_SMAC_DIP_UDP : Z := 5.
Definition ACL_ADD_SIP_DIP_ANY : Z := 6.
Definition ACL_ADD_SIP_DIP_TCP : Z := 7.
Definition ACL_ADD_SIP_DIP_UDP : Z := 8.
Definition ACL_DEL_SIP_DIP_ANY : Z := 9.
Definition ACL_DEL_SIP_DIP_TCP : Z := 10.
Definition ACL_DEL_SIP_DIP_UDP : Z := 11.
Definition ACL_CLEAN_TBL : Z := 12.
Definition ACL_ADD_SDMAC_ANY : Z := 13.
Definition ACL_DEL_SDMAC_ANY : Z := 14.
Definition ACL_ADD_ETYPE_ANY : Z := 15.
Definition ACL_DEL_ETYPE_ANY : Z := 16.
Definition ACL_ADD_SMAC_DMAC_ETYPE_VID_SIP_DIP_TOS_PORT : Z := 17.
Definition ACL_DEL_SMAC_DMAC_ETYPE_VID_SIP_DIP_TOS_PORT : Z := 18.
Definition ACL_GET_ALL_ENTRIES : Z := 19.

Definition ACL_ALLOW_RULE : Z := 0.
Definition ACL_DENY_RULE : Z := 1.
Definition ACL_PRIORITY_RULE : Z := 2.
Definition ACL_PROTO_ANY : Z := 0.
Definition ACL_PROTO_TCP : Z := 1.
Definition ACL_PROTO_UDP : Z := 2.
Definition ACL_SUCCESS : Z := 0.
Definition ACL_FAIL : Z := 1.
Definition ACL_TBL_FULL : Z := 2.

(** [AclPlcyNode]; the list is linked through [List], and [Operate] is never used. *)
Record AclPlcyNode := {
  acl_Method : Z;
  acl_Proto : Z;
  acl_RuleType : Z;
  acl_Mac : bytes;
  acl_DMac : bytes;
  acl_Ethertype : Z;
  acl_SpecialTag : Z;
  acl_Protocol : Z;
  acl_SipS : Z;
  acl_SipE : Z;
  acl_DipS : Z;
  acl_DipE : Z;
  acl_SpS : Z;
  acl_SpE : Z;
  acl_DpS : Z;
  acl_DpE : Z;
  acl_FoeTb : Z;
  acl_TosS : Z;
  acl_TosE : Z;
  acl_Vid : Z;
  acl_up : Z;
  acl_pn : Z
}.
#[export] Instance acl_node_eta : Eta AclPlcyNode := λ n,
  {| acl_Method := acl_Method n; acl_Proto := acl_Proto n; acl_RuleType := acl_RuleType n;
     acl_Mac := acl_Mac n; acl_DMac := acl_DMac n; acl_Ethertype := acl_Ethertype n;
     acl_SpecialTag := acl_SpecialTag n; acl_Protocol := acl_Protocol n;
     acl_SipS := acl_SipS n; acl_SipE := acl_SipE n; acl_DipS := acl_DipS n;
     acl_DipE := acl_DipE n; acl_SpS := acl_SpS n; acl_SpE := acl_SpE n;
     acl_DpS := acl_DpS n; acl_DpE := acl_DpE n; acl_FoeTb := acl_FoeTb n;
     acl_TosS := acl_TosS n; acl_TosE := acl_TosE n; acl_Vid := acl_Vid n;
     acl_up := acl_up n; acl_pn := acl_pn n |}.

(** [AclClassifyKey]: what a packet shows. *)
Record AclClassifyKey := {
  k_Proto : Z;
  k_Mac : bytes;
  k_DMac : bytes;
  k_Ethertype : Z;
  k_Protocol : Z;
  k_Sip : Z;
  k_Dip : Z;
  k_Sp : Z;
  k_Dp : Z;
  k_Tos : Z;
  k_Vid : Z
}.

(** [memcmp(a, b, ETH_ALEN) == 0]. *)
Definition mac_eq (a b : bytes) : bool := bool_decide (take 6 a = take 6 b).
Definition ZeroMac : bytes := [0; 0; 0; 0; 0; 0].

(** [enum FoeTblEE] of [foe_fdb.h]. *)
Definition NOT_ENTRY_END : Z := 0.
Definition ENTRY_END_FP : Z := 1.
Definition ENTRY_END_FOE : Z := 2.

(** * Writing the entries of a node *)

(** The [switch (End)] that [AclSetMacEntry], [AclSetIpFragEntry], [AclSetIpEntry],
    [AclSetProtoEntry] and [AclSetPortEntry] share; [None]: [ACL_FAIL]. *)
Definition acl_end (node : AclPlcyNode) (End : Z) : option entry_end :=
  if End =? ENTRY_END_FOE then Some (EeFoe 1 1 (acl_FoeTb node))
  else if End =? ENTRY_END_FP then
    Some (if acl_Method node =? ACL_ALLOW_RULE then EeFpp 1 0 FPN_ALLOW (acl_up node)
          else if acl_Method node =? ACL_PRIORITY_RULE then EeFpp 1 0 FPN_FRC_PRI_ONLY (acl_up node)
          else EeFpp 1 0 FPN_DROP 0)
  else if End =? NOT_ENTRY_END then Some (Ee0 0 AND)
  else None.

(** Insert a rule with the given end, match flag and type. *)
Definition acl_insert (p : ppe) (node : AclPlcyNode) (End mtch rtyp d : Z) (b : rule_body) : Z * ppe :=
  match acl_end node End with
  | None => (ACL_FAIL, p)
  | Some e =>
      (ACL_SUCCESS,
       PpeInsEntry p PRE_ACL
         {| com := {| com_end := e; match_ := mtch; pn := acl_pn node; rt := rtyp; dir := d |};
            body := b |})
  end.

(** The layer 2 rule: the type, special tag and VLAN, or an address. *)
Definition mac_body (node : AclPlcyNode) (Dir : Z) : rule_body :=
  if Dir =? OTHERS then
    let '(e, s, etyp) :=
      if negb (acl_Ethertype node =? 0) then (1, 0, acl_Ethertype node)
      else if negb (acl_SpecialTag node =? 0) then (0, 1, acl_SpecialTag node)
      else (0, 0, 0) in
    let '(v, vid) := if negb (acl_Vid node =? 0) then (1, acl_Vid node) else (0, 0) in
    L2Others v s e 0 vid etyp 0
  else
    L2Mac (MacReverse (take 6 (if Dir =? DMAC then acl_DMac node else acl_Mac node))).

Definition AclSetMacEntry (p : ppe) (node : AclPlcyNode) (Dir End : Z) : Z * ppe :=
  acl_insert p node End 1 L2_RULE Dir (mac_body node Dir).

(** Fragments: not a packet with MoreFrag = 0 and Offset = 0. *)
Definition AclSetIpFragEntry (p : ppe) (node : AclPlcyNode) (End : Z) : Z * ppe :=
  acl_insert p node End 0 L3_RULE IP_QOS (L3Qos 0 255 1 0 1 1 1).

(** The layer 3 rule: a range of addresses or of types of service. *)
Definition ip_body (node : AclPlcyNode) (Dir : Z) : option rule_body :=
  if Dir =? SIP then
    let '(M, E) := CalIpRange (acl_SipS node) (acl_SipE node) in Some (L3Ip (acl_SipS node) M E 1 0)
  else if Dir =? DIP then
    let '(M, E) := CalIpRange (acl_DipS node) (acl_DipE node) in Some (L3Ip (acl_DipS node) M E 1 0)
  else if Dir =? IP_QOS then Some (L3Qos (acl_TosS node) (acl_TosE node) 0 0 0 0 1)
  else None.

Definition AclSetIpEntry (p : ppe) (node : AclPlcyNode) (Dir End : Z) : Z * ppe :=
  match ip_body node Dir with
  | Some b => acl_insert p node End 1 L3_RULE Dir b
  | None => (ACL_FAIL, p)
  end.

(** The [switch (End)] has no default here: an unknown end leaves the byte 0. *)
Definition AclSetProtoEntry (p : ppe) (node : AclPlcyNode) (Proto End : Z) : Z * ppe :=
  let b := L4Ip 0 0 (if Proto =? TCP then 6 else 17) 0 in
  match acl_end node End with
  | Some _ => acl_insert p node End 1 L4_RULE 0 b
  | None => acl_insert p node NOT_ENTRY_END 1 L4_RULE 0 b
  end.

(** The layer 4 rule: a range of ports, or with DONT_CARE the IP protocol. *)
Definition port_body (node : AclPlcyNode) (Dir Proto : Z) : option rule_body :=
  let ports ps pe :=
    if Proto =? TCP then L4Tcp ps pe EQUAL 0 0x3F FLT_TCP
    else if Proto =? UDP then L4Udp ps pe FLT_UDP
    else L4Tcp ps pe EQUAL 0 0x3F FLT_TCP_UDP in
  if Dir =? SPORT then Some (ports (acl_SpS node) (acl_SpE node))
  else if Dir =? DPORT then Some (ports (acl_DpS node) (acl_DpE node))
  else if Dir =? DONT_CARE then Some (L4Ip 0 0 (acl_Protocol node) FLT_IP_PROT)
  else None.

Definition AclSetPortEntry (p : ppe) (node : AclPlcyNode) (Dir Proto End : Z) : Z * ppe :=
  match port_body node Dir Proto with
  | Some b => acl_insert p node End 1 L4_RULE Dir b
  | None => (ACL_FAIL, p)
  end.

(** The callers ignore the result of these functions. *)
Definition AclInsSDmac (p : ppe) (node : AclPlcyNode) : ppe :=
  (AclSetMacEntry p node SDMAC ENTRY_END_FP).2.

Definition AclInsEthertype (p : ppe) (node : AclPlcyNode) : ppe :=
  (AclSetMacEntry p node OTHERS ENTRY_END_FP).2.

Definition is_any_dip (node : AclPlcyNode) : bool :=
  (acl_RuleType node =? ACL_ADD_SMAC_DIP_ANY) || (acl_RuleType node =? ACL_ADD_SIP_DIP_ANY).

(** The second half of [AclInsSmacDipDp] and [AclInsSipDipDp]: the destination
    address, and the destination port unless the rule is for any protocol. *)
Definition ins_dip_dp (p : ppe) (node : AclPlcyNode) : ppe :=
  if is_any_dip node then (AclSetIpEntry p node DIP ENTRY_END_FP).2
  else
    let p := (AclSetIpEntry p node DIP NOT_ENTRY_END).2 in
    if (acl_RuleType node =? ACL_ADD_SMAC_DIP_TCP) || (acl_RuleType node =? ACL_ADD_SIP_DIP_TCP) then
      (AclSetPortEntry p node DPORT TCP ENTRY_END_FP).2
    else if (acl_RuleType node =? ACL_ADD_SMAC_DIP_UDP) || (acl_RuleType node =? ACL_ADD_SIP_DIP_UDP) then
      (AclSetPortEntry p node DPORT UDP ENTRY_END_FP).2
    else p.

Definition AclInsSmacDipDp (p : ppe) (node : AclPlcyNode) : ppe :=
  ins_dip_dp (AclSetMacEntry p node SMAC NOT_ENTRY_END).2 node.

Definition AclInsSipDipDp (p : ppe) (node : AclPlcyNode) : ppe :=
  ins_dip_dp (AclSetIpEntry p node SIP NOT_ENTRY_END).2 node.

(** The protocol argument for a port entry of [AclInsSmacETypTOSSipSpDipDp]; no
    entry is written for a protocol that is not one of the three. *)
Definition port_proto (node : AclPlcyNode) : option Z :=
  if acl_Proto node =? ACL_PROTO_TCP then Some TCP
  else if acl_Proto node =? ACL_PROTO_UDP then Some UDP
  else if acl_Proto node =? ACL_PROTO_ANY then Some ANY
  else None.

Definition set_port (p : ppe) (node : AclPlcyNode) (Dir End : Z) : ppe :=
  match port_proto node with Some Pr => (AclSetPortEntry p node Dir Pr End).2 | None => p end.

(** The tests of [AclInsSmacETypTOSSipSpDipDp]: a field that is not zero takes part. *)
Definition has_mac (m : bytes) : bool := negb (mac_eq m ZeroMac).

(** One of the blocks "if the field takes part": [more] tells whether one of the
    fields that come later does; if none does the entry is the last one and the
    function returns. *)
Definition block (used more : bool) (put : Z → ppe) (p : ppe) (k : ppe → ppe) : ppe :=
  if used then (if more then k (put NOT_ENTRY_END) else put ENTRY_END_FP) else k p.

Definition AclInsSmacETypTOSSipSpDipDp (p : ppe) (node : AclPlcyNode) : ppe :=
  let dmac := has_mac (acl_DMac node) in
  let prot := negb (acl_Protocol node =? 0) in
  let etype := negb (acl_Ethertype node =? 0) in
  let vid := negb (acl_Vid node =? 0) in
  let sip := negb (acl_SipS node =? 0) in
  let dip := negb (acl_DipS node =? 0) in
  let tos := negb (acl_TosS node =? 0) in
  let sp := negb (acl_SpS node =? 0) in
  let dp := negb (acl_DpS node =? 0) in
  block (has_mac (acl_Mac node)) (dmac || prot || etype || vid || sip || dip || tos || sp || dp)
    (λ End, (AclSetMacEntry p node SMAC End).2) p $ λ p,
  block dmac (etype || prot || vid || sip || dip || tos || sp || dp)
    (λ End, (AclSetMacEntry p node DMAC End).2) p $ λ p,
  block (etype || vid || negb (acl_SpecialTag node =? 0)) (prot || sip || dip || tos || sp || dp)
    (λ End, (AclSetMacEntry p node OTHERS End).2) p $ λ p,
  block tos (prot || sip || dip || sp || dp) (λ End, (AclSetIpEntry p node IP_QOS End).2) p $ λ p,
  block sip (prot || dip || sp || dp) (λ End, (AclSetIpEntry p node SIP End).2) p $ λ p,
  block dip (prot || sp || dp) (λ End, (AclSetIpEntry p node DIP End).2) p $ λ p,
  block prot (sp || dp) (λ End, (AclSetPortEntry p node DONT_CARE ANY End).2) p $ λ p,
  block sp dp (set_port p node SPORT) p $ λ p,
  set_port p node DPORT ENTRY_END_FP.

(** The two rules behind the last one: ARP is allowed, everything else denied. *)
Definition ETH_P_ARP : Z := 0x0806.
Definition AclInsDflAllow (p : ppe) : ppe :=
  PpeInsEntry p PRE_ACL
    {| com := {| com_end := EeFpp 1 0 FPN_ALLOW 0; match_ := 1; pn := PN_DONT_CARE;
                 rt := L2_RULE; dir := OTHERS |};
       body := L2Others 0 0 1 0 0 ETH_P_ARP 0 |}.

Definition AclInsDflDeny (p : ppe) : ppe :=
  PpeInsEntry p PRE_ACL
    {| com := {| com_end := EeFpp 1 0 FPN_DROP 0; match_ := 1; pn := PN_DONT_CARE;
                 rt := L2_RULE; dir := OTHERS |};
       body := L2Others 0 0 0 0 0 0 0 |}.

(** * The list of rules *)

Record acl := { acl_ppe : ppe; AclPlcyList : list AclPlcyNode }.
#[export] Instance acl_eta : Eta acl := λ a,
  {| acl_ppe := acl_ppe a; AclPlcyList := AclPlcyList a |}.

(** The body of the loop of [SyncAclTbl]. *)
Definition acl_ins_node (p : ppe) (node : AclPlcyNode) : ppe :=
  let t := acl_RuleType node in
  if t =? ACL_ADD_SDMAC_ANY then AclInsSDmac p node
  else if t =? ACL_ADD_ETYPE_ANY then AclInsEthertype p node
  else if (t =? ACL_ADD_SMAC_DIP_ANY) || (t =? ACL_ADD_SMAC_DIP_TCP) || (t =? ACL_ADD_SMAC_DIP_UDP) then
    AclInsSmacDipDp p node
  else if (t =? ACL_ADD_SIP_DIP_ANY) || (t =? ACL_ADD_SIP_DIP_TCP) || (t =? ACL_ADD_SIP_DIP_UDP) then
    AclInsSipDipDp p node
  else if t =? ACL_ADD_SMAC_DMAC_ETYPE_VID_SIP_DIP_TOS_PORT then AclInsSmacETypTOSSipSpDipDp p node
  else p.

(** After the loop [node] is the last node, or NULL when there is none. *)
Definition SyncAclTbl (a : acl) : Z * acl :=
  let p := PpeSetEbl (acl_ppe a) PRE_ACL false in
  let p := foldl acl_ins_node p (AclPlcyList a) in
  match last (AclPlcyList a) with
  | None => (ACL_SUCCESS, a ⦃ acl_ppe := p ⦄)
  | Some node =>
      let p := if acl_Method node =? ACL_ALLOW_RULE then AclInsDflDeny (AclInsDflAllow p) else p in
      (ACL_SUCCESS, a ⦃ acl_ppe := PpeSetEbl p PRE_ACL true ⦄)
  end.

(** The [switch] of [AclExistNode]: the key that the type of the new rule gives. *)
Definition acl_same (New node : AclPlcyNode) : bool :=
  let t := acl_RuleType New in
  let dip := (acl_DipS node =? acl_DipS New) && (acl_DipE node =? acl_DipE New) in
  let sip := (acl_SipS node =? acl_SipS New) && (acl_SipE node =? acl_SipE New) in
  let mac := mac_eq (acl_Mac node) (acl_Mac New) in
  let proto := acl_Proto node =? acl_Proto New in
  let dps := acl_DpS node =? acl_DpS New in
  if t =? ACL_ADD_SDMAC_ANY then mac
  else if t =? ACL_ADD_ETYPE_ANY then acl_Ethertype node =? acl_Ethertype New
  else if t =? ACL_ADD_SMAC_DIP_ANY then mac && dip && proto
  else if (t =? ACL_ADD_SMAC_DIP_TCP) || (t =? ACL_ADD_SMAC_DIP_UDP) then mac && dip && dps && proto
  else if t =? ACL_ADD_SIP_DIP_ANY then sip && dip && proto
  else if (t =? ACL_ADD_SIP_DIP_TCP) || (t =? ACL_ADD_SIP_DIP_UDP) then sip && dip && dps && proto
  else if t =? ACL_ADD_SMAC_DMAC_ETYPE_VID_SIP_DIP_TOS_PORT then
    mac && mac_eq (acl_DMac node) (acl_DMac New) && (acl_Ethertype node =? acl_Ethertype New) &&
    (acl_Vid node =? acl_Vid New) && sip && (acl_Protocol node =? acl_Protocol New) &&
    (acl_TosS node =? acl_TosS New) && (acl_TosE node =? acl_TosE New) && dip && dps &&
    (acl_DpE node =? acl_DpE New) && (acl_SpS node =? acl_SpS New) && (acl_SpE node =? acl_SpE New) &&
    proto
  else false.

Definition AclExistNode (a : acl) (New : AclPlcyNode) : option AclPlcyNode :=
  snd <$> list_find (λ n, acl_same New n = true) (AclPlcyList a).

Definition sizeof_AclPlcyNode : Z := 72.

Section Alloc.
Context `{Malloc}.

Definition AclAddNode (a : acl) (New : AclPlcyNode) : Z * acl :=
  match AclExistNode a New with
  | Some _ => (ACL_SUCCESS, a)
  | None =>
      if negb (malloc_ok sizeof_AclPlcyNode) then (ACL_FAIL, a)
      else SyncAclTbl (a ⦃ AclPlcyList := AclPlcyList a ++ [New] ⦄)
  end.

(** The [switch] of [AclDelNode]. *)
Definition acl_deleted (Del node : AclPlcyNode) : bool :=
  let t := acl_RuleType Del in
  let dip := (acl_DipS node =? acl_DipS Del) && (acl_DipE node =? acl_DipE Del) in
  let sip := (acl_SipS node =? acl_SipS Del) && (acl_SipE node =? acl_SipE Del) in
  let dp := (acl_DpS node =? acl_DpS Del) && (acl_DpE node =? acl_DpE Del) in
  let mac := mac_eq (acl_Mac node) (acl_Mac Del) in
  let proto := acl_Proto node =? acl_Proto Del in
  if t =? ACL_DEL_SDMAC_ANY then mac
  else if t =? ACL_DEL_ETYPE_ANY then acl_Ethertype node =? acl_Ethertype Del
  else if t =? ACL_DEL_SMAC_DIP_ANY then mac && dip
  else if (t =? ACL_DEL_SMAC_DIP_TCP) || (t =? ACL_DEL_SMAC_DIP_UDP) then mac && dip && dp && proto
  else if t =? ACL_DEL_SIP_DIP_ANY then sip && dip
  else if (t =? ACL_DEL_SIP_DIP_TCP) || (t =? ACL_DEL_SIP_DIP_UDP) then sip && dip && dp && proto
  else if t =? ACL_DEL_SMAC_DMAC_ETYPE_VID_SIP_DIP_TOS_PORT then
    mac && mac_eq (acl_DMac node) (acl_DMac Del) && (acl_Vid node =? acl_Vid Del) &&
    (acl_Protocol node =? acl_Protocol Del) && sip && (acl_SpS node =? acl_SpS Del) &&
    (acl_SpE node =? acl_SpE Del) && (acl_TosS node =? acl_TosS Del) &&
    (acl_TosE node =? acl_TosE Del) && dip && dp && (acl_Ethertype node =? acl_Ethertype Del) && proto
  else false.

Definition AclDelNode (a : acl) (Del : AclPlcyNode) : Z * acl :=
  match list_find (λ n, acl_deleted Del n = true) (AclPlcyList a) with
  | None => (ACL_FAIL, a)
  | Some (i, _) => SyncAclTbl (a ⦃ AclPlcyList := delete i (AclPlcyList a) ⦄)
  end.

Definition AclCleanTbl (a : acl) : acl :=
  {| acl_ppe := PpeSetEbl (acl_ppe a) PRE_ACL false; AclPlcyList := [] |}.

(** * The ioctl interface: [acl_ioctl.c] *)

(** [struct acl_args]. *)
Record acl_args := {
  aa_mac : bytes;
  aa_dmac : bytes;
  aa_method : Z;
  aa_L4 : Z;
  aa_sip_s : Z;
  aa_sip_e : Z;
  aa_dip_s : Z;
  aa_dip_e : Z;
  aa_dp_s : Z;
  aa_dp_e : Z;
  aa_sp_s : Z;
  aa_sp_e : Z;
  aa_tos_s : Z;
  aa_tos_e : Z;
  aa_ethertype : Z;
  aa_protocol : Z;
  aa_vid : Z;
  aa_up : Z;
  aa_pn : Z
}.

(** [AclGetAllEntries]: the entries and their number, a field of 16 bits. *)
Definition acl_entry (node : AclPlcyNode) : acl_args :=
  {| aa_mac := take 6 (acl_Mac node); aa_dmac := take 6 (acl_DMac node);
     aa_ethertype := acl_Ethertype node; aa_protocol := acl_Protocol node;
     aa_sip_s := acl_SipS node; aa_sip_e := acl_SipE node;
     aa_dip_s := acl_DipS node; aa_dip_e := acl_DipE node;
     aa_dp_s := acl_DpS node; aa_dp_e := acl_DpE node;
     aa_sp_s := acl_SpS node; aa_sp_e := acl_SpE node;
     aa_tos_s := acl_TosS node; aa_tos_e := acl_TosE node;
     aa_vid := acl_Vid node; aa_up := acl_up node; aa_L4 := acl_Proto node;
     aa_method := acl_Method node; aa_pn := acl_pn node |}.

Definition AclGetAllEntries (a : acl) : list acl_args * Z :=
  (acl_entry <$> AclPlcyList a, u16 (Z.of_nat (length (AclPlcyList a)))).

(** The table is full when the new rule reaches the start of the meter table. *)
Definition acl_rule_size (New : AclPlcyNode) : Z :=
  let t := acl_RuleType New in
  if (t =? ACL_ADD_SDMAC_ANY) || (t =? ACL_ADD_ETYPE_ANY) then 1
  else if (t =? ACL_ADD_SMAC_DIP_ANY) || (t =? ACL_ADD_SIP_DIP_ANY) then 2
  else if (t =? ACL_ADD_SMAC_DIP_TCP) || (t =? ACL_ADD_SMAC_DIP_UDP) ||
          (t =? ACL_ADD_SIP_DIP_TCP) || (t =? ACL_ADD_SIP_DIP_UDP) then 3
  else if t =? ACL_ADD_SMAC_DMAC_ETYPE_VID_SIP_DIP_TOS_PORT then 7
  else 0.

Definition AclBndryCheck (a : acl) (New : AclPlcyNode) : Z :=
  let CurAclEnd := PpeGetEnd (acl_ppe a) PRE_ACL in
  let MaxAclEnd := PpeGetStr (acl_ppe a) PRE_MTR in
  match AclExistNode a New with
  | Some _ => ACL_SUCCESS
  | None => if MaxAclEnd <=? CurAclEnd + acl_rule_size New then ACL_TBL_FULL else ACL_SUCCESS
  end.

Definition RunIoctlAddHandler (a : acl) (New : AclPlcyNode) (Proto : Z) : Z * acl :=
  let New := New ⦃ acl_Proto := Proto ⦄ in
  let Result := AclBndryCheck a New in
  if negb (Result =? ACL_TBL_FULL) then AclAddNode a New else (Result, a).

Definition RunIoctlDelHandler (a : acl) (Del : AclPlcyNode) (Proto : Z) : Z * acl :=
  AclDelNode a (Del ⦃ acl_Proto := Proto ⦄).

(** The node on the stack of [AclIoctl]; [FoeTb] is not assigned (and not used). *)
Definition acl_ioctl_node (cmd : Z) (opt : acl_args) : AclPlcyNode :=
  {| acl_Mac := take 6 (aa_mac opt); acl_DMac := take 6 (aa_dmac opt);
     acl_Method := aa_method opt; acl_RuleType := u16 cmd;
     acl_SipS := aa_sip_s opt; acl_SipE := aa_sip_e opt;
     acl_DipS := aa_dip_s opt; acl_DipE := aa_dip_e opt;
     acl_SpS := aa_sp_s opt; acl_SpE := aa_sp_e opt;
     acl_DpS := aa_dp_s opt; acl_DpE := aa_dp_e opt;
     acl_up := aa_up opt; acl_pn := aa_pn opt;
     acl_TosS := aa_tos_s opt; acl_TosE := aa_tos_e opt;
     acl_Ethertype := aa_ethertype opt; acl_Vid := aa_vid opt;
     acl_Proto := aa_L4 opt; acl_Protocol := aa_protocol opt;
     acl_SpecialTag := 0; acl_FoeTb := 0xa5a5 |}.

(** What the caller finds in its arguments afterwards. *)
Inductive acl_reply :=
| AclResult (r : Z)
| AclEntries (r : Z) (l : list acl_args) (num_of_entries : Z)
| AclNoReply.

Definition AclIoctl (a : acl) (cmd : Z) (opt : acl_args) : acl_reply * acl :=
  let node := acl_ioctl_node cmd opt in
  let result (x : Z * acl) := (AclResult x.1, x.2) in
  if (cmd =? ACL_ADD_SDMAC_ANY) || (cmd =? ACL_ADD_ETYPE_ANY) then
    result (RunIoctlAddHandler a node ACL_PROTO_ANY)
  else if (cmd =? ACL_DEL_SDMAC_ANY) || (cmd =? ACL_DEL_ETYPE_ANY) then
    result (RunIoctlDelHandler a node ACL_PROTO_ANY)
  else if (cmd =? ACL_ADD_SMAC_DIP_ANY) || (cmd =? ACL_ADD_SIP_DIP_ANY) then
    result (RunIoctlAddHandler a node ACL_PROTO_ANY)
  else if (cmd =? ACL_DEL_SMAC_DIP_ANY) || (cmd =? ACL_DEL_SIP_DIP_ANY) then
    result (RunIoctlDelHandler a node ACL_PROTO_ANY)
  else if (cmd =? ACL_ADD_SMAC_DIP_TCP) || (cmd =? ACL_ADD_SIP_DIP_TCP) then
    result (RunIoctlAddHandler a node ACL_PROTO_TCP)
  else if cmd =? ACL_ADD_SMAC_DMAC_ETYPE_VID_SIP_DIP_TOS_PORT then
    result (RunIoctlAddHandler a node (acl_Proto node))
  else if cmd =? ACL_DEL_SMAC_DMAC_ETYPE_VID_SIP_DIP_TOS_PORT then
    result (RunIoctlDelHandler a node (acl_Proto node))
  else if (cmd =? ACL_DEL_SMAC_DIP_TCP) || (cmd =? ACL_DEL_SIP_DIP_TCP) then
    result (RunIoctlDelHandler a node ACL_PROTO_TCP)
  else if (cmd =? ACL_ADD_SMAC_DIP_UDP) || (cmd =? ACL_ADD_SIP_DIP_UDP) then
    result (RunIoctlAddHandler a node ACL_PROTO_UDP)
  else if (cmd =? ACL_DEL_SMAC_DIP_UDP) || (cmd =? ACL_DEL_SIP_DIP_UDP) then
    result (RunIoctlDelHandler a node ACL_PROTO_UDP)
  else if cmd =? ACL_CLEAN_TBL then (AclNoReply, AclCleanTbl a)
  else if cmd =? ACL_GET_ALL_ENTRIES then
    (AclEntries ACL_SUCCESS (AclGetAllEntries a).1 (AclGetAllEntries a).2, a)
  else (AclNoReply, a).
End Alloc.

(** * Classification of packets by the CPU *)

Definition in_range (s x e : Z) : bool := (s <=? x) && (x <=? e).

(** The [switch] of [AclClassify]: whether the node matches the packet. *)
Definition acl_matches (node : AclPlcyNode) (key : AclClassifyKey) : bool :=
  let t := acl_RuleType node in
  let mac_any := mac_eq (acl_Mac node) (k_Mac key) || mac_eq (acl_Mac node) ZeroMac in
  let dmac_any := mac_eq (acl_DMac node) (k_DMac key) || mac_eq (acl_DMac node) ZeroMac in
  let sip := in_range (acl_SipS node) (k_Sip key) (acl_SipE node) || (acl_SipE node =? 0) in
  let dip := in_range (acl_DipS node) (k_Dip key) (acl_DipE node) || (acl_DipE node =? 0) in
  let sp := in_range (acl_SpS node) (k_Sp key) (acl_SpE node) || (acl_SpE node =? 0) in
  let dp := in_range (acl_DpS node) (k_Dp key) (acl_DpE node) || (acl_DpE node =? 0) in
  let proto := acl_Proto node =? k_Proto key in
  if t =? ACL_ADD_SDMAC_ANY then mac_eq (acl_Mac node) (k_Mac key)
  else if t =? ACL_ADD_ETYPE_ANY then acl_Ethertype node =? k_Ethertype key
  else if t =? ACL_ADD_SMAC_DIP_ANY then mac_any && dip
  else if (t =? ACL_ADD_SMAC_DIP_TCP) || (t =? ACL_ADD_SMAC_DIP_UDP) then mac_any && dip && dp && proto
  else if t =? ACL_ADD_SIP_DIP_ANY then sip && dip
  else if (t =? ACL_ADD_SIP_DIP_TCP) || (t =? ACL_ADD_SIP_DIP_UDP) then sip && dip && dp && proto
  else if t =? ACL_ADD_SMAC_DMAC_ETYPE_VID_SIP_DIP_TOS_PORT then
    mac_any && dmac_any && ((acl_Protocol node =? k_Protocol key) || (acl_Protocol node =? 0)) &&
    sip && dip && dp && sp &&
    (in_range (acl_TosS node) (k_Tos key) (acl_TosE node) || (acl_TosE node =? 0)) &&
    ((acl_Vid node =? k_Vid key) || (acl_TosE node =? 0)) &&
    ((acl_Ethertype node =? k_Ethertype key) || (acl_Ethertype node =? 0)) && proto
  else false.

(** The user priority of the first node that matches; 0 by default. *)
Definition AclClassify (a : acl) (key : AclClassifyKey) : Z :=
  match list_find (λ n, acl_matches n key = true) (AclPlcyList a) with
  | Some (_, node) => acl_up node
  | None => 0
  end.
