(* ===== verification/PolicyFacts.v ===== *)
(** What the five policy tables hold: reading back a table, and which operations
    change which table. *)

From S2P Require Import Prelude PpeRegs Policy.

Create HintDb ppe.
Create Rewrite HintDb ppe.


(** * Layout of rules *)

Fixpoint width (l : list (Z * Z)) : Z :=
  match l with [] => 0 | f :: l => f.1 + width l end.

Lemma width_nonneg l : Forall (λ f, 0 ≤ f.1) l → 0 ≤ width l.
Proof. induction 1 as [|f l Hf Hl IH]; cbn in *; lia. Qed.

Lemma pack_range l : Forall (λ f, 0 ≤ f.1) l → 0 ≤ pack l < 2 ^ width l.
Proof.
  induction 1 as [|[w x] l Hw Hl IH]; cbn in *; [lia|].
  pose proof (width_nonneg l Hl).
  rewrite Z.pow_add_r by lia.
  pose proof (Z.pow_pos_nonneg 2 w). pose proof (Z.mod_pos_bound x (2 ^ w)).
  split; nia.
Qed.

(** Reading fields of the given widths back. *)
Fixpoint unpack (ws : list Z) (v : Z) : list Z :=
  match ws with
  | [] => []
  | w :: ws => v mod 2 ^ w :: unpack ws (v / 2 ^ w)
  end.

Lemma unpack_pack l :
  Forall (λ f, 0 ≤ f.1) l → unpack (l.*1) (pack l) = (λ f, f.2 mod 2 ^ f.1) <$> l.
Proof.
  induction 1 as [|[w x] l Hw Hl IH]; [done|]. cbn in *.
  pose proof (Z.pow_pos_nonneg 2 w).
  f_equal.
  - rewrite (Z.mul_comm (2 ^ w)), Z.mod_add, Z.mod_mod by lia. done.
  - rewrite (Z.mul_comm (2 ^ w)), Z.div_add by lia.
    rewrite (Z.div_small (x mod _)) by (apply Z.mod_pos_bound; lia). by rewrite Z.add_0_l.
Qed.

(** * Reading a table *)

Definition entry (p : ppe) (i : Z) : Z * Z :=
  (RegRead p (POLICY_TBL_BASE + i * 8), RegRead p (POLICY_TBL_BASE + i * 8 + 4)).

Definition rule_words (r : rule) : Z * Z := (rule_word0 r, rule_word1 r).

(** The table [t] starts where it should and holds the rules [rs]. *)
Record table_holds (p : ppe) (t : table) (rs : list rule) : Prop := {
  th_start : PpeGetStr p t = table_start p t;
  th_end : PpeGetEnd p t = table_start p t + Z.of_nat (length rs);
  th_rules i r : rs !! i = Some r → entry p (table_start p t + Z.of_nat i) = rule_words r
}.

(** Two states that agree on what table [t] consists of. *)
Definition same_table (t : table) (n : nat) (p p' : ppe) : Prop :=
  table_start p' t = table_start p t ∧
  RegRead p' (ptr_reg t) = RegRead p (ptr_reg t) ∧
  ∀ i, table_start p t ≤ i < table_start p t + Z.of_nat n → entry p' i = entry p i.

Lemma table_holds_same p p' t rs :
  table_holds p t rs → same_table t (length rs) p p' → table_holds p' t rs.
Proof.
  intros [H1 H2 H3] (Hs & Hr & He). split; unfold PpeGetStr, PpeGetEnd in *.
  - by rewrite Hs, Hr.
  - by rewrite Hs, Hr.
  - intros i r Hi. rewrite Hs, He; [auto|]. apply lookup_lt_Some in Hi. lia.
Qed.

(** Addresses of the policy engine. *)
Ltac addr :=
  unfold POLICY_TBL_BASE, PPE_FLOW_SET, PPE_POL_CFG, PPE_PRE_ACL, PPE_PRE_MTR, PPE_PRE_AC,
    PPE_POST_MTR, PPE_POST_AC, AC_BASE, METER_BASE, PPE_BASE, RALINK_FRAME_ENGINE_BASE in *; lia.

Lemma ptr_reg_addr t : 0xB0100200 ≤ ptr_reg t < 0xB0100300.
Proof. destruct t; cbn; addr. Qed.
Lemma ptr_reg_inj t t' : ptr_reg t = ptr_reg t' → t = t'.
Proof. destruct t, t'; cbn; intros; try done; addr. Qed.

(** Writing a register elsewhere. *)
Lemma same_table_write t n p a v :
  reg_addr a → 0 ≤ table_start p t → table_start p t + Z.of_nat n ≤ 512 →
  a ≠ ptr_reg t →
  (∀ i, table_start p t ≤ i < table_start p t + Z.of_nat n →
        a ≠ POLICY_TBL_BASE + i * 8 ∧ a ≠ POLICY_TBL_BASE + i * 8 + 4) →
  same_table t n p (RegWrite p a v).
Proof.
  intros Ha H0 Hn Hp Hi. pose proof (ptr_reg_addr t). split_and!.
  - by destruct t.
  - apply RegRead_RegWrite_ne; [addr..|done].
  - intros i Hr. destruct (Hi i Hr). unfold entry.
    rewrite !RegRead_RegWrite_ne by addr. done.
Qed.

Lemma same_table_refl t n p : same_table t n p p.
Proof. by split_and!. Qed.

Lemma same_table_trans t n p q r :
  same_table t n p q → same_table t n q r → same_table t n p r.
Proof.
  intros (H1 & H2 & H3) (G1 & G2 & G3). split_and!; [congruence..|].
  intros i Hi. rewrite G3 by (rewrite H1; done). auto.
Qed.

(** A register that is not in the policy memory and not a pointer. *)
Definition plain_reg (a : Z) : Prop :=
  reg_addr a ∧ (∀ t, a ≠ ptr_reg t) ∧ ¬ (POLICY_TBL_BASE ≤ a < POLICY_TBL_BASE + 0x1000).

Definition in_bounds (t : table) (n : nat) (p : ppe) : Prop :=
  0 ≤ table_start p t ∧ table_start p t + Z.of_nat n ≤ 512.

Lemma same_table_plain t n p a v :
  plain_reg a → in_bounds t n p → same_table t n p (RegWrite p a v).
Proof.
  intros (Ha & Hp & Hm) [Hb Hb']. apply same_table_write; [done..|auto|].
  intros i Hi. split; intros ->; apply Hm; addr.
Qed.

Lemma table_start_RegWrite p a v t : table_start (RegWrite p a v) t = table_start p t.
Proof. by destruct t. Qed.
Lemma table_start_RegModifyBits p a d o l t :
  table_start (RegModifyBits p a d o l) t = table_start p t.
Proof. apply table_start_RegWrite. Qed.
#[export] Hint Rewrite table_start_RegWrite table_start_RegModifyBits : ppe.

Lemma plain_flow_set : plain_reg PPE_FLOW_SET.
Proof. split_and!; [addr..| |addr]. intros []; cbn; addr. Qed.
Lemma plain_pol_cfg : plain_reg PPE_POL_CFG.
Proof. split_and!; [addr..| |addr]. intros []; cbn; addr. Qed.
#[export] Hint Resolve plain_flow_set plain_pol_cfg : ppe.

(** The pointers of another table. *)
Lemma same_table_ptr t t' n p d o l :
  t ≠ t' → in_bounds t n p → same_table t n p (RegModifyBits p (ptr_reg t') d o l).
Proof.
  intros Ht [Hb Hb']. unfold RegModifyBits. pose proof (ptr_reg_addr t').
  apply same_table_write; [lia|done..| |].
  - intros He. apply Ht. symmetry. by apply ptr_reg_inj.
  - intros i Hi. split; addr.
Qed.

Lemma same_table_Rst t t' n p :
  t ≠ t' → in_bounds t n p → same_table t n p (PpeRstPtr p t').
Proof.
  intros Ht Hb. unfold PpeRstPtr, PpeSetStr, PpeSetEnd.
  eapply same_table_trans; apply same_table_ptr; [done..|].
  unfold in_bounds. by autorewrite with ppe.
Qed.

Lemma same_table_account t t' n p b :
  in_bounds t n p → same_table t n p (set_account p t' b).
Proof.
  intros Hb. unfold set_account. destruct (ac_bit t'); [|apply same_table_refl].
  unfold RegModifyBits. eapply same_table_trans; apply same_table_plain; auto with ppe.
Qed.

Lemma table_start_account p t b t' : table_start (set_account p t b) t' = table_start p t'.
Proof. unfold set_account. destruct (ac_bit t); [by autorewrite with ppe|done]. Qed.
Lemma table_start_Rst p t t' : table_start (PpeRstPtr p t) t' = table_start p t'.
Proof. unfold PpeRstPtr, PpeSetStr, PpeSetEnd. by autorewrite with ppe. Qed.
#[export] Hint Rewrite table_start_account table_start_Rst : ppe.

Lemma table_start_Ebl p t b t' : table_start (PpeSetEbl p t b) t' = table_start p t'.
Proof. unfold PpeSetEbl. destruct b; by autorewrite with ppe. Qed.
Lemma table_start_Ins p t r t' : table_start (PpeInsEntry p t r) t' = table_start p t'.
Proof. unfold PpeInsEntry, PpeSetEnd. by autorewrite with ppe. Qed.
#[export] Hint Rewrite table_start_Ebl table_start_Ins : ppe.

(** Enabling or disabling another table, or enabling this one. *)
Lemma same_table_Ebl t t' n p b :
  (b = true ∨ t ≠ t') → in_bounds t n p → same_table t n p (PpeSetEbl p t' b).
Proof.
  intros Ht Hb. unfold PpeSetEbl. destruct b.
  - eapply same_table_trans; [by apply same_table_account|].
    apply same_table_plain; [auto with ppe|]. unfold in_bounds. by autorewrite with ppe.
  - destruct Ht as [|Ht]; [done|].
    eapply same_table_trans; [by apply same_table_account|].
    eapply same_table_trans; [apply same_table_Rst; [done|]|].
    + unfold in_bounds. by autorewrite with ppe.
    + apply same_table_plain; [auto with ppe|]. unfold in_bounds. by autorewrite with ppe.
Qed.

(** Inserting into another table, at an index outside this one. *)
Lemma same_table_Ins t t' n p r :
  t ≠ t' → in_bounds t n p →
  0 ≤ PpeGetEnd p t' < 512 →
  PpeGetEnd p t' < table_start p t ∨ table_start p t + Z.of_nat n ≤ PpeGetEnd p t' →
  same_table t n p (PpeInsEntry p t' r).
Proof.
  intros Ht [Hb Hb'] He Hd. unfold PpeInsEntry, PpeSetEnd. pose proof (ptr_reg_addr t).
  set (a := POLICY_TBL_BASE + PpeGetEnd p t' * 8).
  apply (same_table_trans _ _ _ (RegWrite p a (rule_word0 r))).
  { apply same_table_write; subst a; [addr|done..|addr|]. intros; addr. }
  apply (same_table_trans _ _ _ (RegWrite (RegWrite p a (rule_word0 r)) (a + 4) (rule_word1 r))).
  { apply same_table_write; autorewrite with ppe; subst a; [addr|done..|addr|]. intros; addr. }
  apply same_table_ptr; [done|]. unfold in_bounds. by autorewrite with ppe.
Qed.

Lemma PpeGetEnd_range p t : 0 ≤ PpeGetEnd p t < 512.
Proof.
  unfold PpeGetEnd. change 0x1FF with (Z.ones 9). rewrite Z.land_ones by lia.
  apply Z.mod_pos_bound. lia.
Qed.
Lemma PpeGetStr_range p t : 0 ≤ PpeGetStr p t < 512.
Proof.
  unfold PpeGetStr. change 0x1FF with (Z.ones 9). rewrite Z.land_ones by lia.
  apply Z.mod_pos_bound. lia.
Qed.

(** * Operations on a table *)

Lemma PpeGetEnd_field p t : PpeGetEnd p t = field (RegRead p (ptr_reg t)) 16 9.
Proof. done. Qed.
Lemma PpeGetStr_field p t : PpeGetStr p t = field (RegRead p (ptr_reg t)) 0 9.
Proof. unfold PpeGetStr, field. by rewrite Z.shiftr_0_r. Qed.

Lemma PpeGetEnd_SetEnd p t v : 0 ≤ v < 512 → PpeGetEnd (PpeSetEnd p t v) t = v.
Proof.
  intros. rewrite PpeGetEnd_field. unfold PpeSetEnd.
  rewrite field_RegModifyBits by lia. by apply Z.mod_small.
Qed.
Lemma PpeGetStr_SetEnd p t v : PpeGetStr (PpeSetEnd p t v) t = PpeGetStr p t.
Proof. rewrite !PpeGetStr_field. unfold PpeSetEnd. by rewrite field_RegModifyBits_ne by lia. Qed.
Lemma PpeGetStr_SetStr p t v : 0 ≤ v < 512 → PpeGetStr (PpeSetStr p t v) t = v.
Proof.
  intros. rewrite PpeGetStr_field. unfold PpeSetStr.
  rewrite field_RegModifyBits by lia. by apply Z.mod_small.
Qed.

Lemma table_holds_Rst p t : 0 ≤ table_start p t < 512 → table_holds (PpeRstPtr p t) t [].
Proof.
  intros H. split; autorewrite with ppe.
  - unfold PpeRstPtr. rewrite PpeGetStr_SetEnd, PpeGetStr_SetStr by done. done.
  - unfold PpeRstPtr, PpeSetStr. autorewrite with ppe.
    rewrite PpeGetEnd_SetEnd by done. cbn. lia.
  - done.
Qed.

Lemma table_holds_disable p t : 0 ≤ table_start p t < 512 → table_holds (PpeSetEbl p t false) t [].
Proof.
  intros H. eapply (table_holds_same (PpeRstPtr (set_account p t false) t)).
  - apply table_holds_Rst. by autorewrite with ppe.
  - apply same_table_plain; [auto with ppe|].
    unfold in_bounds. autorewrite with ppe. cbn. lia.
Qed.

Lemma table_holds_enable p t rs :
  table_holds p t rs → in_bounds t (length rs) p → table_holds (PpeSetEbl p t true) t rs.
Proof. intros. eapply table_holds_same; [done|]. apply same_table_Ebl; auto. Qed.

Lemma table_holds_Ins p t rs r :
  table_holds p t rs → 0 ≤ table_start p t → table_start p t + Z.of_nat (length rs) < 511 →
  table_holds (PpeInsEntry p t r) t (rs ++ [r]).
Proof.
  intros [H1 H2 H3] H0 Hl. pose proof (ptr_reg_addr t).
  set (i := PpeGetEnd p t) in *.
  assert (Hother : ∀ a, reg_addr a → a ≠ ptr_reg t → a ≠ POLICY_TBL_BASE + i * 8 →
    a ≠ POLICY_TBL_BASE + i * 8 + 4 → RegRead (PpeInsEntry p t r) a = RegRead p a).
  { intros a Ha Hne Hne1 Hne2. unfold PpeInsEntry, PpeSetEnd. fold i.
    rewrite RegRead_RegModifyBits_ne by addr. by rewrite !RegRead_RegWrite_ne by addr. }
  assert (Hptr : ∀ p' v w, RegRead (RegWrite (RegWrite p' (POLICY_TBL_BASE + i * 8) v)
    (POLICY_TBL_BASE + i * 8 + 4) w) (ptr_reg t) = RegRead p' (ptr_reg t)).
  { intros. by rewrite !RegRead_RegWrite_ne by addr. }
  split; autorewrite with ppe.
  - unfold PpeInsEntry. rewrite PpeGetStr_SetEnd. unfold PpeGetStr in *. fold i. by rewrite Hptr.
  - unfold PpeInsEntry. fold i. rewrite PpeGetEnd_SetEnd by lia. rewrite length_app. cbn. lia.
  - intros j r' Hj. apply lookup_app_Some in Hj as [Hj|[Hlen Hj]].
    + rewrite <-(H3 j r' Hj). apply lookup_lt_Some in Hj. unfold entry.
      rewrite !Hother by addr. done.
    + apply list_lookup_singleton_Some in Hj as [Hj ->].
      replace (table_start p t + Z.of_nat j) with i by lia.
      unfold entry, rule_words, PpeInsEntry, PpeSetEnd. fold i.
      rewrite !RegRead_RegModifyBits_ne by addr.
      rewrite (RegRead_RegWrite_ne _ (POLICY_TBL_BASE + i * 8)) by addr.
      rewrite !RegRead_RegWrite. f_equal; apply u32_id, u32_range.
Qed.
