(* ===== verification/Accounting.v ===== *)
(** The accounting rules of the hardware NAT: [ac_policy.c] and [ac_ioctl.c].

    A rule counts the packets of an address, a range of addresses or a VLAN, on
    the way in (the table PRE_AC) or out (POST_AC), in one of 64 groups of
    counters.  The groups in use are the bits of [AcFreeList]. *)

From S2P Require Import Prelude PpeRegs Policy.

(** The element of an array at an index of type [uint32_t]. *)
Definition array_get {A} (l : list A) (i : Z) : option A :=
  if Z.of_nat (length l) <=? i then None else l !! Z.to_nat i.

(** * Groups *)

(** The arrays [AcFreeList] and [MtrFreeList]: eight cells of type [char], of which
    the bits 0 to 7 matter.  The two loops of [PpeGetFreeAcGrp]; the inner one
    gives the first clear bit of a cell. *)
Fixpoint clear_bit (fuel : nat) (c j : Z) : option Z :=
  match fuel with
  | O => None
  | S fuel => if Z.land c (Z.shiftl 1 j) =? 0 then Some j else clear_bit fuel c (j + 1)
  end.

Fixpoint get_free_grp (cells : list Z) (i : Z) : Z * list Z :=
  match cells with
  | [] => (-1, [])
  | c :: cells =>
      match clear_bit 8 c 0 with
      | Some j => (i * 8 + j, u8 (Z.lor c (Z.shiftl 1 j)) :: cells)
      | None => let '(g, cells) := get_free_grp cells (i + 1) in (g, c :: cells)
      end
  end.

Definition PpeGetFreeAcGrp (cells : list Z) : Z * list Z := get_free_grp cells 0.

(** The argument is a [uint32_t]; beyond 63 the access leaves the array. *)
Definition PpeSetFreeAcGrp (cells : list Z) (ag_idx : Z) : outcome (list Z) :=
  match array_get cells (ag_idx / 8) with
  | None => Oob
  | Some c =>
      Ret (<[Z.to_nat (ag_idx / 8) := u8 (Z.land c (Z.lnot (Z.shiftl 1 (ag_idx mod 8))))]> cells)
  end.

(** * Data *)

Definition AC_MAC_GROUP : Z := 0.
Definition AC_IP_GROUP : Z := 1.
Definition AC_VLAN_GROUP : Z := 2.
Definition TYPE_PRE_AC : Z := 0.
Definition TYPE_POST_AC : Z := 1.
Definition AC_BYTE_CNT : Z := 0.
Definition AC_PKT_CNT : Z := 1.
Definition AC_SUCCESS : Z := 0.
Definition AC_FAIL : Z := 1.
Definition AC_TBL_FULL : Z := 2.
Definition AC_CLEAN_TBL : Z := 24.

(** [AcPlcyNode]; the ports and the protocol are never used. *)
Record AcPlcyNode := {
  ac_Type : Z;
  ac_RuleType : Z;
  ac_Mac : bytes;
  ac_IpS : Z;
  ac_IpE : Z;
  ac_VLAN : Z;
  ac_AgIdx : Z
}.
#[export] Instance ac_node_eta : Eta AcPlcyNode := λ n,
  {| ac_Type := ac_Type n; ac_RuleType := ac_RuleType n; ac_Mac := ac_Mac n;
     ac_IpS := ac_IpS n; ac_IpE := ac_IpE n; ac_VLAN := ac_VLAN n; ac_AgIdx := ac_AgIdx n |}.

Record ac := { ac_ppe : ppe; AcPlcyList : list AcPlcyNode; AcFreeList : list Z }.
#[export] Instance ac_eta : Eta ac := λ a,
  {| ac_ppe := ac_ppe a; AcPlcyList := AcPlcyList a; AcFreeList := AcFreeList a |}.

Definition ac_table (Type_ : Z) : table := if Type_ =? TYPE_PRE_AC then PRE_AC else POST_AC.

(** * Writing the entry of a node *)

Definition ac_com (node : AcPlcyNode) (rtyp d : Z) : common_field :=
  {| com_end := EeAc 1 (ac_AgIdx node); match_ := 1; pn := PN_DONT_CARE; rt := rtyp; dir := d |}.

Definition AcInsMac (p : ppe) (node : AcPlcyNode) : ppe :=
  if ac_Type node =? TYPE_PRE_AC then
    PpeInsEntry p PRE_AC {| com := ac_com node L2_RULE SMAC; body := L2Mac (take 6 (ac_Mac node)) |}
  else
    PpeInsEntry p POST_AC {| com := ac_com node L2_RULE DMAC; body := L2Mac (take 6 (ac_Mac node)) |}.

Definition AcInsIp (p : ppe) (node : AcPlcyNode) : ppe :=
  let '(M, E) := CalIpRange (ac_IpS node) (ac_IpE node) in
  let b := L3Ip (ac_IpS node) M E 1 0 in
  if ac_Type node =? TYPE_PRE_AC then
    PpeInsEntry p PRE_AC {| com := ac_com node L3_RULE SIP; body := b |}
  else
    PpeInsEntry p POST_AC {| com := ac_com node L3_RULE DIP; body := b |}.

Definition AcInsVlan (p : ppe) (node : AcPlcyNode) : ppe :=
  let r := {| com := ac_com node L2_RULE OTHERS; body := L2Others 1 0 0 0 (ac_VLAN node) 0 0 |} in
  if ac_Type node =? TYPE_PRE_AC then PpeInsEntry p PRE_AC r else PpeInsEntry p POST_AC r.

(** The body of the loop of [SyncAcTbl]. *)
Definition ac_ins_node (p : ppe) (node : AcPlcyNode) : ppe :=
  if ac_RuleType node =? AC_MAC_GROUP then AcInsMac p node
  else if ac_RuleType node =? AC_IP_GROUP then AcInsIp p node
  else if ac_RuleType node =? AC_VLAN_GROUP then AcInsVlan p node
  else p.

Definition ac_is_pre (node : AcPlcyNode) : bool := ac_Type node =? TYPE_PRE_AC.

Definition SyncAcTbl (a : ac) : ac :=
  let p := PpeSetEbl (ac_ppe a) PRE_AC false in
  let p := PpeSetEbl p POST_AC false in
  let p := foldl ac_ins_node p (AcPlcyList a) in
  let PreRuleFound := existsb ac_is_pre (AcPlcyList a) in
  let PostRuleFound := existsb (λ n, negb (ac_is_pre n)) (AcPlcyList a) in
  let p := if PreRuleFound then PpeSetEbl p PRE_AC true else p in
  let p := if PostRuleFound then PpeSetEbl p POST_AC true else p in
  a ⦃ ac_ppe := p ⦄.

(** * The list of rules *)

(** The [switch] of [AcExistNode] and [AcGetCnt], and that of [AcDelNode], which
    does not look at the type. *)
Definition ac_key (New node : AcPlcyNode) : bool :=
  if ac_RuleType New =? AC_MAC_GROUP then bool_decide (take 6 (ac_Mac node) = take 6 (ac_Mac New))
  else if ac_RuleType New =? AC_IP_GROUP then
    (ac_IpS node =? ac_IpS New) && (ac_IpE node =? ac_IpE New)
  else if ac_RuleType New =? AC_VLAN_GROUP then ac_VLAN node =? ac_VLAN New
  else false.

Definition ac_same (New node : AcPlcyNode) : bool :=
  ac_key New node && (ac_Type node =? ac_Type New).

Definition AcExistNode (a : ac) (New : AcPlcyNode) : option AcPlcyNode :=
  snd <$> list_find (λ n, ac_same New n = true) (AcPlcyList a).

Definition sizeof_AcPlcyNode : Z := 44.

Section Alloc.
Context `{Malloc}.

(** [AgIdx] is a [uint8_t]: without a free group it is 255. *)
Definition AcAddNode (a : ac) (New : AcPlcyNode) : Z * ac :=
  match AcExistNode a New with
  | Some _ => (AC_SUCCESS, a)
  | None =>
      if negb (malloc_ok sizeof_AcPlcyNode) then (AC_FAIL, a)
      else
        let '(g, cells) := PpeGetFreeAcGrp (AcFreeList a) in
        let node := New ⦃ ac_AgIdx := u8 g ⦄ in
        (AC_SUCCESS, SyncAcTbl (a ⦃ AcFreeList := cells ⦄ ⦃ AcPlcyList := AcPlcyList a ++ [node] ⦄))
  end.

Definition AcDelNode (a : ac) (Del : AcPlcyNode) : outcome (Z * ac) :=
  match list_find (λ n, ac_key Del n = true) (AcPlcyList a) with
  | None => Ret (AC_FAIL, a)
  | Some (i, node) =>
      let* cells := PpeSetFreeAcGrp (AcFreeList a) (ac_AgIdx node) in
      Ret (AC_SUCCESS, SyncAcTbl (a ⦃ AcFreeList := cells ⦄ ⦃ AcPlcyList := delete i (AcPlcyList a) ⦄))
  end.

(** The groups stay allocated. *)
Definition AcCleanTbl (a : ac) : ac :=
  let p := PpeSetEbl (ac_ppe a) PRE_AC false in
  let p := PpeSetEbl p POST_AC false in
  a ⦃ AcPlcyList := [] ⦄ ⦃ ac_ppe := p ⦄.

(** The counters of group [AgIdx]: bytes in the low, packets in the high word. *)
Definition AcGetCnt (a : ac) (Search : AcPlcyNode) (AcCntType : Z) : Z :=
  match list_find (λ n, ac_same Search n = true) (AcPlcyList a) with
  | None => 0
  | Some (_, node) =>
      if AcCntType =? AC_BYTE_CNT then RegRead (ac_ppe a) (AC_BASE + ac_AgIdx node * 8)
      else RegRead (ac_ppe a) (AC_BASE + ac_AgIdx node * 8 + 4)
  end.

(** * The ioctl interface: [ac_ioctl.c] *)

(** [struct ac_args], its inputs. *)
Record ac_args := { ca_mac : bytes; ca_vid : Z; ca_ip_s : Z; ca_ip_e : Z }.

(** What is assigned to [opt->result] or [opt->cnt]. *)
Inductive ac_reply := AcResult (r : Z) | AcCnt (cnt : Z) | AcNoReply.

(** [AcParam]: the type and the rule type of each command. *)
Definition AcParam : list (Z * Z) :=
  [(TYPE_PRE_AC, AC_MAC_GROUP); (TYPE_POST_AC, AC_MAC_GROUP);
   (TYPE_PRE_AC, AC_MAC_GROUP); (TYPE_POST_AC, AC_MAC_GROUP);
   (TYPE_PRE_AC, AC_IP_GROUP); (TYPE_POST_AC, AC_IP_GROUP);
   (TYPE_PRE_AC, AC_IP_GROUP); (TYPE_POST_AC, AC_IP_GROUP);
   (TYPE_PRE_AC, AC_VLAN_GROUP); (TYPE_POST_AC, AC_VLAN_GROUP);
   (TYPE_PRE_AC, AC_VLAN_GROUP); (TYPE_POST_AC, AC_VLAN_GROUP);
   (TYPE_PRE_AC, AC_MAC_GROUP); (TYPE_POST_AC, AC_MAC_GROUP);
   (TYPE_PRE_AC, AC_MAC_GROUP); (TYPE_POST_AC, AC_MAC_GROUP);
   (TYPE_PRE_AC, AC_IP_GROUP); (TYPE_POST_AC, AC_IP_GROUP);
   (TYPE_PRE_AC, AC_IP_GROUP); (TYPE_POST_AC, AC_IP_GROUP);
   (TYPE_PRE_AC, AC_VLAN_GROUP); (TYPE_POST_AC, AC_VLAN_GROUP);
   (TYPE_PRE_AC, AC_VLAN_GROUP); (TYPE_POST_AC, AC_VLAN_GROUP);
   (TYPE_PRE_AC + TYPE_POST_AC, AC_MAC_GROUP + AC_IP_GROUP)].

(** The pre-accounting table ends where the post-metering table starts. *)
Definition AcBndryCheck (a : ac) (New : AcPlcyNode) : Z :=
  match AcExistNode a New with
  | Some _ => AC_SUCCESS
  | None =>
      let '(Cur, Max) :=
        if ac_Type New =? TYPE_PRE_AC then (PpeGetEnd (ac_ppe a) PRE_AC, PpeGetStr (ac_ppe a) POST_MTR)
        else if ac_Type New =? TYPE_POST_AC then (PpeGetEnd (ac_ppe a) POST_AC, 511)
        else (0, 0) in
      if Max <=? Cur + 1 then AC_TBL_FULL else AC_SUCCESS
  end.

Definition is_ac_add (cmd : Z) : bool :=
  existsb (Z.eqb cmd) [0; 1; 4; 5; 8; 9].
Definition is_ac_del (cmd : Z) : bool :=
  existsb (Z.eqb cmd) [2; 3; 6; 7; 10; 11].
Definition is_ac_pkt (cmd : Z) : bool :=
  existsb (Z.eqb cmd) [12; 13; 16; 17; 20; 21].
Definition is_ac_byte (cmd : Z) : bool :=
  existsb (Z.eqb cmd) [14; 15; 18; 19; 22; 23].

(** [AcIoctl]; the address in the caller's argument is reversed in place, the
    array of the result.  The commands are 0 (AC_ADD_MAC_UL_ENTRY) to 24; the
    parameters of any other one are read behind [AcParam]. *)
Definition AcIoctl (a : ac) (cmd : Z) (opt : ac_args) : outcome (bytes * ac_reply * ac) :=
  let mac := MacReverse (ca_mac opt) in
  match array_get AcParam cmd with
  | None => Oob
  | Some (Type_, RuleType) =>
      let node := {| ac_Mac := take 6 mac; ac_IpS := ca_ip_s opt; ac_IpE := ca_ip_e opt;
                     ac_VLAN := ca_vid opt; ac_Type := Type_; ac_RuleType := RuleType;
                     ac_AgIdx := 0xa5 |} in
      if is_ac_add cmd then
        let r := AcBndryCheck a node in
        if negb (r =? AC_TBL_FULL) then
          let '(r, a) := AcAddNode a node in Ret (mac, AcResult r, a)
        else Ret (mac, AcResult r, a)
      else if is_ac_del cmd then
        let* (r, a) := AcDelNode a node in Ret (mac, AcResult r, a)
      else if is_ac_pkt cmd then Ret (mac, AcCnt (AcGetCnt a node AC_PKT_CNT), a)
      else if is_ac_byte cmd then Ret (mac, AcCnt (AcGetCnt a node AC_BYTE_CNT), a)
      else if cmd =? AC_CLEAN_TBL then Ret (mac, AcNoReply, AcCleanTbl a)
      else Ret (mac, AcNoReply, a)
  end.
End Alloc.
