(* ===== verification/Metering.v ===== *)
(** The metering rules of the hardware NAT: [mtr_policy.c] and [mtr_ioctl.c].

    A rule limits the rate of the packets it matches with one of 64 meters; the
    entry of the policy memory names the meter and [PpeInsMtrTbl] programs it. *)

From S2P Require Import Prelude PpeRegs Policy Accounting.

(** * Data *)

Definition MTR_MAC_GROUP : Z := 0.
Definition MTR_IP_GROUP : Z := 1.
Definition MTR_SYN : Z := 2.
Definition MTR_FIN : Z := 3.
Definition MTR_PROTOCOL_UDP : Z := 4.
Definition MTR_PROTOCOL_ICMP : Z := 5.
Definition TYPE_PRE_MTR : Z := 0.
Definition TYPE_POST_MTR : Z := 1.
Definition MTR_SUCCESS : Z := 0.
Definition MTR_FAIL : Z := 1.
Definition MTR_TBL_FULL : Z := 2.
Definition MTR_CLEAN_TBL : Z := 16.
Definition MTR_GET_ALL_ENTRIES : Z := 18.

(** The union [ByteBase]/[PktBase]/[mtr_info] is the 32-bit [mtr_info]; its bit
    fields are read and written at their position.  [mtr_CurBkSize] and the
    fields before the union are never used. *)
Record MtrPlcyNode := {
  mtr_Type : Z;
  mtr_RuleType : Z;
  mtr_Mac : bytes;
  mtr_IpS : Z;
  mtr_IpE : Z;
  mtr_MgNum : Z;
  mtr_info : Z
}.
#[export] Instance mtr_node_eta : Eta MtrPlcyNode := λ n,
  {| mtr_Type := mtr_Type n; mtr_RuleType := mtr_RuleType n; mtr_Mac := mtr_Mac n;
     mtr_IpS := mtr_IpS n; mtr_IpE := mtr_IpE n; mtr_MgNum := mtr_MgNum n;
     mtr_info := mtr_info n |}.

(** [ByteBase]: MtrMode:1, MaxBkSize:2, TokenRate:14, CurrBkSize:15.
    [PktBase]: MtrMode:1, MaxBkSize:7, MtrIntval:3, TimeToReFill:14, CurrBkSize:7. *)
Definition MtrMode (info : Z) : Z := field info 0 1.
Definition byte_MaxBkSize (info : Z) : Z := field info 1 2.
Definition byte_TokenRate (info : Z) : Z := field info 3 14.
Definition pkt_MaxBkSize (info : Z) : Z := field info 1 7.
Definition pkt_MtrIntval (info : Z) : Z := field info 8 3.

Record mtr := { mtr_ppe : ppe; MtrPlcyList : list MtrPlcyNode; MtrFreeList : list Z }.
#[export] Instance mtr_eta : Eta mtr := λ a,
  {| mtr_ppe := mtr_ppe a; MtrPlcyList := MtrPlcyList a; MtrFreeList := MtrFreeList a |}.

(** The same loops as [PpeGetFreeAcGrp] and [PpeSetFreeAcGrp], on [MtrFreeList]. *)
Definition PpeGetFreeMtrGrp (cells : list Z) : Z * list Z := get_free_grp cells 0.
Definition PpeSetFreeMtrGrp (cells : list Z) (mg_num : Z) : outcome (list Z) :=
  PpeSetFreeAcGrp cells mg_num.

(** * Writing the entry of a node *)

Definition PpeInsMtrTbl (p : ppe) (node : MtrPlcyNode) : ppe :=
  let info := mtr_info node in
  let MtrEntry :=
    if Z.land (MtrMode info) 0x01 =? 0 then
      Z.lor (Z.lor (Z.shiftl (byte_TokenRate info) 3) (Z.shiftl (byte_MaxBkSize info) 1)) (MtrMode info)
    else
      Z.lor (Z.lor (Z.shiftl (pkt_MtrIntval info) 8) (Z.shiftl (pkt_MaxBkSize info) 1)) (MtrMode info) in
  RegWrite p (u32 (METER_BASE + mtr_MgNum node * 4)) MtrEntry.

(** Drop packets out of profile. *)
Definition mtr_com (node : MtrPlcyNode) (rtyp d : Z) : common_field :=
  {| com_end := EeMtr 1 1 (mtr_MgNum node); match_ := 1; pn := PN_DONT_CARE; rt := rtyp; dir := d |}.

Definition mtr_is_pre (node : MtrPlcyNode) : bool := mtr_Type node =? TYPE_PRE_MTR.

Definition MtrInsMac (p : ppe) (node : MtrPlcyNode) : ppe :=
  let b := L2Mac (take 6 (mtr_Mac node)) in
  let p :=
    if mtr_is_pre node then PpeInsEntry p PRE_MTR {| com := mtr_com node L2_RULE SMAC; body := b |}
    else PpeInsEntry p POST_MTR {| com := mtr_com node L2_RULE DMAC; body := b |} in
  PpeInsMtrTbl p node.

Definition MtrInsIp (p : ppe) (node : MtrPlcyNode) : ppe :=
  let '(M, E) := CalIpRange (mtr_IpS node) (mtr_IpE node) in
  let b := L3Ip (mtr_IpS node) M E 1 0 in
  let p :=
    if mtr_is_pre node then PpeInsEntry p PRE_MTR {| com := mtr_com node L3_RULE SIP; body := b |}
    else PpeInsEntry p POST_MTR {| com := mtr_com node L3_RULE DIP; body := b |} in
  PpeInsMtrTbl p node.

(** [MtrInsSYN], [MtrInsFIN] and [MtrInsProtocol] write an entry before routing only. *)
Definition mtr_ins_l4 (p : ppe) (node : MtrPlcyNode) (b : rule_body) : ppe :=
  let p :=
    if mtr_is_pre node then
      PpeInsEntry p PRE_MTR {| com := mtr_com node L4_RULE DONT_CARE; body := b |}
    else p in
  PpeInsMtrTbl p node.

Definition MtrInsSYN (p : ppe) (node : MtrPlcyNode) : ppe :=
  mtr_ins_l4 p node (L4Tcp 0 0 IN_SET TCP_SYN 0 FLT_TCP).
Definition MtrInsFIN (p : ppe) (node : MtrPlcyNode) : ppe :=
  mtr_ins_l4 p node (L4Tcp 0 0 IN_SET TCP_FIN 0 FLT_TCP).
Definition MtrInsProtocol (p : ppe) (node : MtrPlcyNode) : ppe :=
  let prot :=
    if mtr_RuleType node =? MTR_PROTOCOL_UDP then 0x11
    else if mtr_RuleType node =? MTR_PROTOCOL_ICMP then 1
    else 0 in
  mtr_ins_l4 p node (L4Ip 0 0 prot FLT_IP_PROT).

(** The body of the loop of [SyncMtrTbl]. *)
Definition mtr_ins_node (p : ppe) (node : MtrPlcyNode) : ppe :=
  let t := mtr_RuleType node in
  if t =? MTR_MAC_GROUP then MtrInsMac p node
  else if t =? MTR_IP_GROUP then MtrInsIp p node
  else if t =? MTR_SYN then MtrInsSYN p node
  else if t =? MTR_FIN then MtrInsFIN p node
  else if (t =? MTR_PROTOCOL_UDP) || (t =? MTR_PROTOCOL_ICMP) then MtrInsProtocol p node
  else p.

(** The meters behind routing are enabled only when there is none before it. *)
Definition SyncMtrTbl (a : mtr) : mtr :=
  let p := PpeSetEbl (mtr_ppe a) PRE_MTR false in
  let p := PpeSetEbl p POST_MTR false in
  let p := foldl mtr_ins_node p (MtrPlcyList a) in
  let PreRuleFound := existsb mtr_is_pre (MtrPlcyList a) in
  let PostRuleFound := existsb (λ n, negb (mtr_is_pre n)) (MtrPlcyList a) in
  let p :=
    if PreRuleFound then PpeSetEbl p PRE_MTR true
    else if PostRuleFound then PpeSetEbl p POST_MTR true
    else p in
  a ⦃ mtr_ppe := p ⦄.

(** * The list of rules *)

(** The [switch] of [MtrDelNode]; [MtrExistNode] compares the type of the address
    rules too. *)
Definition mtr_key (New node : MtrPlcyNode) : bool :=
  let t := mtr_RuleType New in
  if t =? MTR_MAC_GROUP then bool_decide (take 6 (mtr_Mac node) = take 6 (mtr_Mac New))
  else if t =? MTR_IP_GROUP then (mtr_IpS node =? mtr_IpS New) && (mtr_IpE node =? mtr_IpE New)
  else if (t =? MTR_SYN) || (t =? MTR_FIN) || (t =? MTR_PROTOCOL_UDP) || (t =? MTR_PROTOCOL_ICMP) then
    mtr_RuleType node =? t
  else false.

Definition mtr_same (New node : MtrPlcyNode) : bool :=
  let t := mtr_RuleType New in
  mtr_key New node &&
  (negb ((t =? MTR_MAC_GROUP) || (t =? MTR_IP_GROUP)) || (mtr_Type node =? mtr_Type New)).

(** The position of the node in the list stands for the pointer to it. *)
Definition MtrExistNode (a : mtr) (New : MtrPlcyNode) : option nat :=
  fst <$> list_find (λ n, mtr_same New n = true) (MtrPlcyList a).

Definition sizeof_MtrPlcyNode : Z := 44.

Section Alloc.
Context `{Malloc}.

(** A rule that exists gets the new parameters. *)
Definition MtrAddNode (a : mtr) (New : MtrPlcyNode) : Z * mtr :=
  match MtrExistNode a New with
  | Some i =>
      (MTR_SUCCESS,
       SyncMtrTbl (a ⦃ MtrPlcyList := alter (λ n, n ⦃ mtr_info := mtr_info New ⦄) i (MtrPlcyList a) ⦄))
  | None =>
      if negb (malloc_ok sizeof_MtrPlcyNode) then (MTR_FAIL, a)
      else
        let '(g, cells) := PpeGetFreeMtrGrp (MtrFreeList a) in
        let node := New ⦃ mtr_MgNum := u32 g ⦄ in
        (MTR_SUCCESS, SyncMtrTbl (a ⦃ MtrFreeList := cells ⦄ ⦃ MtrPlcyList := MtrPlcyList a ++ [node] ⦄))
  end.

Definition MtrDelNode (a : mtr) (Del : MtrPlcyNode) : outcome (Z * mtr) :=
  match list_find (λ n, mtr_key Del n = true) (MtrPlcyList a) with
  | None => Ret (MTR_FAIL, a)
  | Some (i, node) =>
      let* cells := PpeSetFreeMtrGrp (MtrFreeList a) (mtr_MgNum node) in
      Ret (MTR_SUCCESS, SyncMtrTbl (a ⦃ MtrFreeList := cells ⦄ ⦃ MtrPlcyList := delete i (MtrPlcyList a) ⦄))
  end.

(** The groups stay allocated. *)
Definition MtrCleanTbl (a : mtr) : mtr :=
  let p := PpeSetEbl (mtr_ppe a) PRE_MTR false in
  let p := PpeSetEbl p POST_MTR false in
  a ⦃ MtrPlcyList := [] ⦄ ⦃ mtr_ppe := p ⦄.

(** * The ioctl interface: [mtr_ioctl.c] *)

(** [struct mtr_args]. *)
Record mtr_args := {
  ma_mac : bytes;
  ma_ip_s : Z;
  ma_ip_e : Z;
  ma_mg_num : Z;
  ma_token_rate : Z;
  ma_bk_size : Z;
  ma_mtr_mode : Z;
  ma_mtr_intval : Z
}.

(** An entry of [MtrGetAllEntries]; in the other mode the token rate or the
    interval of the caller's buffer stays as it was, here 0. *)
Definition mtr_entry (node : MtrPlcyNode) : mtr_args :=
  let info := mtr_info node in
  {| ma_mac := MacReverse (take 6 (mtr_Mac node)); ma_ip_s := mtr_IpS node; ma_ip_e := mtr_IpE node;
     ma_mg_num := mtr_MgNum node; ma_mtr_mode := MtrMode info;
     ma_bk_size := if MtrMode info =? 1 then pkt_MaxBkSize info else byte_MaxBkSize info;
     ma_mtr_intval := if MtrMode info =? 1 then pkt_MtrIntval info else 0;
     ma_token_rate := if MtrMode info =? 1 then 0 else byte_TokenRate info |}.

Definition MtrGetAllEntries (a : mtr) : list mtr_args * Z :=
  (mtr_entry <$> MtrPlcyList a, u16 (Z.of_nat (length (MtrPlcyList a)))).

Definition MtrParam : list (Z * Z) :=
  [(TYPE_PRE_MTR, MTR_MAC_GROUP); (TYPE_POST_MTR, MTR_MAC_GROUP);
   (TYPE_PRE_MTR, MTR_MAC_GROUP); (TYPE_POST_MTR, MTR_MAC_GROUP);
   (TYPE_PRE_MTR, MTR_IP_GROUP); (TYPE_POST_MTR, MTR_IP_GROUP);
   (TYPE_PRE_MTR, MTR_IP_GROUP); (TYPE_POST_MTR, MTR_IP_GROUP);
   (TYPE_PRE_MTR, MTR_SYN); (TYPE_PRE_MTR, MTR_SYN);
   (TYPE_PRE_MTR, MTR_FIN); (TYPE_PRE_MTR, MTR_FIN);
   (TYPE_PRE_MTR, MTR_PROTOCOL_UDP); (TYPE_PRE_MTR, MTR_PROTOCOL_UDP);
   (TYPE_PRE_MTR, MTR_PROTOCOL_ICMP); (TYPE_PRE_MTR, MTR_PROTOCOL_ICMP);
   (TYPE_PRE_MTR + TYPE_POST_MTR, MTR_MAC_GROUP + MTR_IP_GROUP)].

(** Both limits are the start of the post-accounting table. *)
Definition MtrBndryCheck (a : mtr) (New : MtrPlcyNode) : Z :=
  match MtrExistNode a New with
  | Some _ => MTR_SUCCESS
  | None =>
      let '(Cur, Max) :=
        if mtr_Type New =? TYPE_PRE_MTR then (PpeGetEnd (mtr_ppe a) PRE_MTR, PpeGetStr (mtr_ppe a) POST_AC)
        else if mtr_Type New =? TYPE_POST_MTR then
          (PpeGetEnd (mtr_ppe a) POST_MTR, PpeGetStr (mtr_ppe a) POST_AC)
        else (0, 0) in
      if Max <=? Cur + 1 then MTR_TBL_FULL else MTR_SUCCESS
  end.

(** The bits of [mtr_info] that [MtrIoctl] assigns; the others keep what the
    stack held. *)
Definition ioctl_mtr_info (opt : mtr_args) : Z :=
  if ma_mtr_mode opt =? 0 then
    pack [(1, 0); (2, ma_bk_size opt); (14, ma_token_rate opt); (15, 0xa5a5)]
  else pack [(1, 1); (7, ma_bk_size opt); (3, ma_mtr_intval opt); (14, 0xa5a5); (7, 0xa5)].

Inductive mtr_reply :=
| MtrResult (r : Z)
| MtrEntries (r : Z) (l : list mtr_args) (num_of_entries : Z)
| MtrNoReply.

Definition is_mtr_add (cmd : Z) : bool := existsb (Z.eqb cmd) [0; 1; 4; 5; 8; 10; 12; 14].
Definition is_mtr_del (cmd : Z) : bool := existsb (Z.eqb cmd) [2; 3; 6; 7; 9; 11; 13; 15].

(** [MtrIoctl]; as in [AcIoctl] the parameters of a command from 17 on, that of
    MTR_GET_ALL_ENTRIES too, are read behind the table. *)
Definition MtrIoctl (a : mtr) (cmd : Z) (opt : mtr_args) : outcome (bytes * mtr_reply * mtr) :=
  let mac := MacReverse (ma_mac opt) in
  match array_get MtrParam cmd with
  | None => Oob
  | Some (Type_, RuleType) =>
      let node := {| mtr_Mac := take 6 mac; mtr_IpS := ma_ip_s opt; mtr_IpE := ma_ip_e opt;
                     mtr_info := ioctl_mtr_info opt; mtr_Type := Type_; mtr_RuleType := RuleType;
                     mtr_MgNum := 0xa5a5a5a5 |} in
      if is_mtr_add cmd then
        let r := MtrBndryCheck a node in
        if negb (r =? MTR_TBL_FULL) then
          let '(_, a) := MtrAddNode a node in Ret (mac, MtrResult r, a)
        else Ret (mac, MtrResult r, a)
      else if is_mtr_del cmd then
        let* (r, a) := MtrDelNode a node in Ret (mac, MtrResult r, a)
      else if cmd =? MTR_CLEAN_TBL then Ret (mac, MtrNoReply, MtrCleanTbl a)
      else if cmd =? MTR_GET_ALL_ENTRIES then
        Ret (mac, MtrEntries MTR_SUCCESS (MtrGetAllEntries a).1 (MtrGetAllEntries a).2, a)
      else Ret (mac, MtrNoReply, a)
  end.
End Alloc.
