(* ===== verification/PolicyEngine.v ===== *)
(** The policy engine as a whole: the three rule lists over one policy memory,
    the requests that change them, and what the memory is meant to hold. *)

From S2P Require Import Prelude PpeRegs Policy PolicyFacts Acl Accounting Metering.

(** * State and requests *)

(** The globals of [acl_policy.c], [ac_policy.c], [mtr_policy.c] and [hwnat_ioctl.c]. *)
Record engine := {
  e_ppe : ppe;
  e_acl : list AclPlcyNode;
  e_ac : list AcPlcyNode;
  e_ac_free : list Z;
  e_mtr : list MtrPlcyNode;
  e_mtr_free : list Z
}.

Definition acl_of (e : engine) : acl := {| acl_ppe := e_ppe e; AclPlcyList := e_acl e |}.
Definition ac_of (e : engine) : ac :=
  {| ac_ppe := e_ppe e; AcPlcyList := e_ac e; AcFreeList := e_ac_free e |}.
Definition mtr_of (e : engine) : mtr :=
  {| mtr_ppe := e_ppe e; MtrPlcyList := e_mtr e; MtrFreeList := e_mtr_free e |}.

Definition put_acl (e : engine) (a : acl) : engine :=
  {| e_ppe := acl_ppe a; e_acl := AclPlcyList a; e_ac := e_ac e; e_ac_free := e_ac_free e;
     e_mtr := e_mtr e; e_mtr_free := e_mtr_free e |}.
Definition put_ac (e : engine) (a : ac) : engine :=
  {| e_ppe := ac_ppe a; e_acl := e_acl e; e_ac := AcPlcyList a; e_ac_free := AcFreeList a;
     e_mtr := e_mtr e; e_mtr_free := e_mtr_free e |}.
Definition put_mtr (e : engine) (a : mtr) : engine :=
  {| e_ppe := mtr_ppe a; e_acl := e_acl e; e_ac := e_ac e; e_ac_free := e_ac_free e;
     e_mtr := MtrPlcyList a; e_mtr_free := MtrFreeList a |}.

(** A call of one of the three devices [acl0], [ac0] and [mtr0]. *)
Inductive policy_request :=
| ReqAcl (cmd : Z) (opt : acl_args)
| ReqAc (cmd : Z) (opt : ac_args)
| ReqMtr (cmd : Z) (opt : mtr_args).

Section Step.
Context `{Malloc}.

Definition engine_step (e : engine) (r : policy_request) : outcome engine :=
  match r with
  | ReqAcl cmd opt => Ret (put_acl e (AclIoctl (acl_of e) cmd opt).2)
  | ReqAc cmd opt => let* (_, _, a) := AcIoctl (ac_of e) cmd opt in Ret (put_ac e a)
  | ReqMtr cmd opt => let* (_, _, a) := MtrIoctl (mtr_of e) cmd opt in Ret (put_mtr e a)
  end.

(** A run of requests, with a predicate that every state on the way satisfies. *)
Inductive engine_run (P : engine → Prop) : engine → list policy_request → engine → Prop :=
| run_nil e : engine_run P e [] e
| run_cons e r e' rs e'' :
    engine_step e r = Ret e' → P e' → engine_run P e' rs e'' → engine_run P e (r :: rs) e''.
End Step.

(** The module after [PpeInitMod]: [PpeSetRuleSize] with the given sizes and
    [PpeEngStart], whose part for the policy tables disables them all. *)
Definition policy_start (p : ppe) : ppe :=
  let p := PpeSetEbl p PRE_ACL false in
  let p := PpeSetEbl p PRE_MTR false in
  let p := PpeSetEbl p POST_MTR false in
  let p := PpeSetEbl p PRE_AC false in
  PpeSetEbl p POST_AC false.

Definition engine_init (p : ppe) (pre_acl pre_mtr pre_ac post_mtr post_ac : Z) : engine :=
  {| e_ppe := policy_start (PpeSetRuleSize p pre_acl pre_mtr pre_ac post_mtr post_ac);
     e_acl := []; e_ac := []; e_ac_free := replicate 8 0; e_mtr := []; e_mtr_free := replicate 8 0 |}.

(** * What the memory should hold *)

(** ** Access control

    A node is a conjunction of conditions, each a rule type, a direction and a
    body.  Its chain has one entry per condition; all but the last are joined by
    AND, and the last carries the action. *)

Abbreviation cond := (Z * Z * rule_body)%type.

Definition cond_rule (node : AclPlcyNode) (e : entry_end) (c : cond) : rule :=
  {| com := {| com_end := e; match_ := 1; pn := acl_pn node; rt := c.1.1; dir := c.1.2 |};
     body := c.2 |}.

Definition action (node : AclPlcyNode) : entry_end :=
  if acl_Method node =? ACL_ALLOW_RULE then EeFpp 1 0 FPN_ALLOW (acl_up node)
  else if acl_Method node =? ACL_PRIORITY_RULE then EeFpp 1 0 FPN_FRC_PRI_ONLY (acl_up node)
  else EeFpp 1 0 FPN_DROP 0.

Fixpoint chain (node : AclPlcyNode) (cs : list cond) : list rule :=
  match cs with
  | [] => []
  | [c] => [cond_rule node (action node) c]
  | c :: cs => cond_rule node (Ee0 0 AND) c :: chain node cs
  end.

Definition c_mac (node : AclPlcyNode) (Dir : Z) : cond := (L2_RULE, Dir, mac_body node Dir).
Definition c_ip (node : AclPlcyNode) (Dir : Z) : cond :=
  (L3_RULE, Dir, default (L2Mac []) (ip_body node Dir)).
Definition c_port (node : AclPlcyNode) (Dir Proto : Z) : cond :=
  (L4_RULE, Dir, default (L2Mac []) (port_body node Dir Proto)).

(** The fields of a node that can take part, in the order of the chain. *)
Definition all_conds (node : AclPlcyNode) (Proto : Z) : list (bool * cond) :=
  [(has_mac (acl_Mac node), c_mac node SMAC);
   (has_mac (acl_DMac node), c_mac node DMAC);
   (negb (acl_Ethertype node =? 0) || negb (acl_Vid node =? 0) || negb (acl_SpecialTag node =? 0),
    c_mac node OTHERS);
   (negb (acl_TosS node =? 0), c_ip node IP_QOS);
   (negb (acl_SipS node =? 0), c_ip node SIP);
   (negb (acl_DipS node =? 0), c_ip node DIP);
   (negb (acl_Protocol node =? 0), c_port node DONT_CARE ANY);
   (negb (acl_SpS node =? 0), c_port node SPORT Proto);
   (negb (acl_DpS node =? 0), c_port node DPORT Proto)].

Definition used_conds (l : list (bool * cond)) : list cond := snd <$> filter (λ x, x.1 = true) l.

Definition acl_conds (node : AclPlcyNode) : list cond :=
  let t := acl_RuleType node in
  let proto := default ANY (port_proto node) in
  if t =? ACL_ADD_SDMAC_ANY then [c_mac node SDMAC]
  else if t =? ACL_ADD_ETYPE_ANY then [c_mac node OTHERS]
  else if t =? ACL_ADD_SMAC_DIP_ANY then [c_mac node SMAC; c_ip node DIP]
  else if t =? ACL_ADD_SMAC_DIP_TCP then [c_mac node SMAC; c_ip node DIP; c_port node DPORT TCP]
  else if t =? ACL_ADD_SMAC_DIP_UDP then [c_mac node SMAC; c_ip node DIP; c_port node DPORT UDP]
  else if t =? ACL_ADD_SIP_DIP_ANY then [c_ip node SIP; c_ip node DIP]
  else if t =? ACL_ADD_SIP_DIP_TCP then [c_ip node SIP; c_ip node DIP; c_port node DPORT TCP]
  else if t =? ACL_ADD_SIP_DIP_UDP then [c_ip node SIP; c_ip node DIP; c_port node DPORT UDP]
  else if t =? ACL_ADD_SMAC_DMAC_ETYPE_VID_SIP_DIP_TOS_PORT then
    match used_conds (all_conds node proto) with
    | [] => [c_port node DPORT proto]
    | cs => cs
    end
  else [].

Definition acl_chain (node : AclPlcyNode) : list rule := chain node (acl_conds node).

(** ARP is allowed and all else denied when the last node allows. *)
Definition dfl_allow : rule :=
  {| com := {| com_end := EeFpp 1 0 FPN_ALLOW 0; match_ := 1; pn := PN_DONT_CARE;
               rt := L2_RULE; dir := OTHERS |};
     body := L2Others 0 0 1 0 0 ETH_P_ARP 0 |}.
Definition dfl_deny : rule :=
  {| com := {| com_end := EeFpp 1 0 FPN_DROP 0; match_ := 1; pn := PN_DONT_CARE;
               rt := L2_RULE; dir := OTHERS |};
     body := L2Others 0 0 0 0 0 0 0 |}.

Definition acl_defaults (l : list AclPlcyNode) : list rule :=
  match last l with
  | Some node => if acl_Method node =? ACL_ALLOW_RULE then [dfl_allow; dfl_deny] else []
  | None => []
  end.

Definition acl_rules (l : list AclPlcyNode) : list rule :=
  (l ≫= acl_chain) ++ acl_defaults l.

(** ** Accounting and metering: one entry per node in the table of its type *)

Definition ac_rule (node : AcPlcyNode) : rule :=
  let pre := ac_is_pre node in
  if ac_RuleType node =? AC_MAC_GROUP then
    {| com := ac_com node L2_RULE (if pre then SMAC else DMAC); body := L2Mac (take 6 (ac_Mac node)) |}
  else if ac_RuleType node =? AC_IP_GROUP then
    let '(M, E) := CalIpRange (ac_IpS node) (ac_IpE node) in
    {| com := ac_com node L3_RULE (if pre then SIP else DIP); body := L3Ip (ac_IpS node) M E 1 0 |}
  else {| com := ac_com node L2_RULE OTHERS; body := L2Others 1 0 0 0 (ac_VLAN node) 0 0 |}.

Definition mtr_rule (node : MtrPlcyNode) : rule :=
  let pre := mtr_is_pre node in
  let t := mtr_RuleType node in
  if t =? MTR_MAC_GROUP then
    {| com := mtr_com node L2_RULE (if pre then SMAC else DMAC); body := L2Mac (take 6 (mtr_Mac node)) |}
  else if t =? MTR_IP_GROUP then
    let '(M, E) := CalIpRange (mtr_IpS node) (mtr_IpE node) in
    {| com := mtr_com node L3_RULE (if pre then SIP else DIP); body := L3Ip (mtr_IpS node) M E 1 0 |}
  else
    {| com := mtr_com node L4_RULE DONT_CARE;
       body := if t =? MTR_SYN then L4Tcp 0 0 IN_SET TCP_SYN 0 FLT_TCP
               else if t =? MTR_FIN then L4Tcp 0 0 IN_SET TCP_FIN 0 FLT_TCP
               else L4Ip 0 0 (if t =? MTR_PROTOCOL_UDP then 0x11 else 1) FLT_IP_PROT |}.

Definition rules_of (e : engine) (t : table) : list rule :=
  match t with
  | PRE_ACL => acl_rules (e_acl e)
  | PRE_MTR => mtr_rule <$> filter (λ n, mtr_is_pre n = true) (e_mtr e)
  | POST_MTR => mtr_rule <$> filter (λ n, mtr_is_pre n = false) (e_mtr e)
  | PRE_AC => ac_rule <$> filter (λ n, ac_is_pre n = true) (e_ac e)
  | POST_AC => ac_rule <$> filter (λ n, ac_is_pre n = false) (e_ac e)
  end.

(** A table with rules is enabled; but the meters behind routing are not when
    there are meters before it. *)
Definition nonempty {A} (l : list A) : bool := match l with [] => false | _ => true end.

Definition enabled_of (e : engine) (t : table) : bool :=
  match t with
  | PRE_ACL => nonempty (e_acl e)
  | POST_MTR => nonempty (rules_of e POST_MTR) && negb (nonempty (rules_of e PRE_MTR))
  | t => nonempty (rules_of e t)
  end.

(** The bits of [PPE_FLOW_SET] that enable a table. *)
Definition table_bits (t : table) : list Z :=
  match t with
  | PRE_ACL => [5; 13; 21]
  | PRE_MTR => [4; 12; 20]
  | PRE_AC => [3; 11; 19]
  | POST_MTR => [1; 9; 17]
  | POST_AC => [0; 8; 16]
  end.

Definition table_enabled (p : ppe) (t : table) (b : bool) : Prop :=
  Forall (λ i, Z.testbit (RegRead p PPE_FLOW_SET) i = b) (table_bits t).

(** Where the tables are, and that the rules of each fit in its part. *)
Definition table_limit (p : ppe) (t : table) : Z :=
  match t with
  | PRE_ACL => pre_mtr_start_addr p
  | PRE_MTR => pre_ac_start_addr p
  | PRE_AC => post_mtr_start_addr p
  | POST_MTR => post_ac_start_addr p
  | POST_AC => 511
  end.

Definition layout_ok (p : ppe) : Prop := ∀ t, 0 ≤ table_start p t ≤ table_limit p t.

Definition fits (e : engine) : Prop :=
  ∀ t, table_start (e_ppe e) t + Z.of_nat (length (rules_of e t)) ≤ table_limit (e_ppe e) t.

(** The engine holds the rules of the lists, and the tables with rules are enabled. *)
Record engine_ok (e : engine) : Prop := {
  ok_layout : layout_ok (e_ppe e);
  ok_tables t : table_holds (e_ppe e) t (rules_of e t);
  ok_enabled t : table_enabled (e_ppe e) t (enabled_of e t)
}.
