(* ===== verification/PolicyRefine.v ===== *)
(** How each operation of the engine changes the five tables, and every request of the
    policy engine against its specification: a step of the engine goes from a memory
    that tracks the lists to one that does. *)

From S2P Require Import Prelude PpeRegs Policy PolicyFacts Acl Accounting Metering PolicyEngine.
From Stdlib Require Import Btauto.

(** * The enable bits *)

Lemma flow_bits_spec t i :
  0 ≤ i → Z.testbit (flow_bits t) i = bool_decide (i ∈ table_bits t).
Proof.
  intros Hi. destruct t; cbn [flow_bits table_bits];
    unfold BIT_FUC_ACL, BIT_FMC_ACL, BIT_FBC_ACL, BIT_FUC_PREM, BIT_FMC_PREM, BIT_FBC_PREM,
      BIT_FUC_PREA, BIT_FMC_PREA, BIT_FBC_PREA, BIT_FUC_POSM, BIT_FMC_POSM, BIT_FBC_POSM,
      BIT_FUC_POSA, BIT_FMC_POSA, BIT_FBC_POSA;
    rewrite !Z.lor_spec, !Z.shiftl_1_l, !Z.pow2_bits_eqb by lia;
    symmetry; case_bool_decide as H; rewrite !elem_of_cons, elem_of_nil in H; lia.
Qed.

Lemma RegRead_account_flow p t b : RegRead (set_account p t b) PPE_FLOW_SET = RegRead p PPE_FLOW_SET.
Proof.
  unfold set_account. destruct (ac_bit t); [|done]. by rewrite !RegRead_RegModifyBits_ne by addr.
Qed.

(** Enabling or disabling a table changes its three bits and that of IPv6. *)
Lemma flow_Ebl p t b i :
  0 ≤ i < 32 →
  Z.testbit (RegRead (PpeSetEbl p t b) PPE_FLOW_SET) i =
    if decide (i ∈ table_bits t ∨ i = 25) then b else Z.testbit (RegRead p PPE_FLOW_SET) i.
Proof.
  intros Hi. unfold PpeSetEbl.
  destruct b; rewrite RegRead_RegWrite; unfold u32; change 4294967296 with (2 ^ 32);
    rewrite Z.mod_pow2_bits_low by lia.
  - rewrite !Z.lor_spec, flow_bits_spec by lia. unfold BIT_IPV6_PE_EN.
    rewrite Z.shiftl_1_l, Z.pow2_bits_eqb by lia.
    case_decide as H; case_bool_decide as H'.
    + by rewrite orb_true_r.
    + destruct H as [?| ->]; [done|]. by rewrite orb_true_r.
    + tauto.
    + replace (25 =? i) with false by lia. by rewrite !orb_false_r.
  - rewrite !Z.land_spec, !Z.lnot_spec, flow_bits_spec by lia. unfold BIT_IPV6_PE_EN.
    rewrite Z.shiftl_1_l, Z.pow2_bits_eqb by lia.
    case_decide as H; case_bool_decide as H'.
    + by rewrite andb_false_r.
    + destruct H as [?| ->]; [done|]. by rewrite andb_false_r.
    + tauto.
    + replace (25 =? i) with false by lia. by rewrite !andb_true_r.
Qed.

Lemma table_bits_range t i : i ∈ table_bits t → 0 ≤ i < 25.
Proof. destruct t; cbn; rewrite !elem_of_cons, elem_of_nil; lia. Qed.
Lemma table_bits_disjoint t t' i : i ∈ table_bits t → i ∈ table_bits t' → t = t'.
Proof. destruct t, t'; cbn; rewrite !elem_of_cons, !elem_of_nil; try done; lia. Qed.

Lemma table_enabled_Ebl p t b : table_enabled (PpeSetEbl p t b) t b.
Proof.
  apply Forall_forall. intros i Hi. pose proof (table_bits_range t i Hi).
  rewrite flow_Ebl by lia. by rewrite decide_True by auto.
Qed.

Lemma table_enabled_Ebl_ne p t t' b b' :
  t ≠ t' → table_enabled p t b → table_enabled (PpeSetEbl p t' b') t b.
Proof.
  intros Ht Hp. apply Forall_forall. intros i Hi. pose proof (table_bits_range t i Hi).
  rewrite flow_Ebl by lia. rewrite decide_False.
  - by apply (proj1 (Forall_forall _ _) Hp).
  - intros [Hi'|]; [|lia]. apply Ht. by eapply table_bits_disjoint.
Qed.

(** * All tables at once *)

(** What a step that writes entries leaves alone. *)
Record keeps (p p' : ppe) : Prop := {
  kp_start t : table_start p' t = table_start p t;
  kp_flow : RegRead p' PPE_FLOW_SET = RegRead p PPE_FLOW_SET
}.

#[export] Instance keeps_preorder : PreOrder keeps.
Proof.
  split; [done|]. intros p q r [H1 H2] [G1 G2]. split; [intros t; by rewrite G1|congruence].
Qed.

Lemma table_limit_start p p' t :
  (∀ t, table_start p' t = table_start p t) → table_limit p' t = table_limit p t.
Proof. intros H. destruct t; cbn; [apply (H PRE_MTR)|apply (H PRE_AC)|apply (H POST_MTR)|apply (H POST_AC)|done]. Qed.

Definition contents := table → list rule.
Definition content (p : ppe) (f : contents) : Prop := ∀ t, table_holds p t (f t).
Definition fit (p : ppe) (f : contents) : Prop :=
  ∀ t, table_start p t + Z.of_nat (length (f t)) ≤ table_limit p t.

(** Appending entries, each to its table. *)
Definition sel (t : table) (l : list (table * rule)) : list rule :=
  snd <$> filter (λ x, x.1 = t) l.
Definition push (f : contents) (l : list (table * rule)) : contents := λ t, f t ++ sel t l.

Lemma sel_app t l k : sel t (l ++ k) = sel t l ++ sel t k.
Proof. unfold sel. by rewrite filter_app, fmap_app. Qed.
Lemma push_app f l k t : push (push f l) k t = push f (l ++ k) t.
Proof. unfold push. by rewrite sel_app, app_assoc. Qed.

Lemma content_ext p f g : (∀ t, f t = g t) → content p f → content p g.
Proof. intros H Hp t. rewrite <-H. apply Hp. Qed.

Lemma layout_order p :
  layout_ok p →
  0 ≤ table_start p PRE_ACL ≤ table_start p PRE_MTR ∧
  table_start p PRE_MTR ≤ table_start p PRE_AC ≤ table_start p POST_MTR ∧
  table_start p POST_MTR ≤ table_start p POST_AC ≤ 511.
Proof.
  intros H. pose proof (H PRE_ACL). pose proof (H PRE_MTR). pose proof (H PRE_AC).
  pose proof (H POST_MTR). pose proof (H POST_AC). cbn in *. lia.
Qed.

Lemma in_bounds_fit p f t : layout_ok p → fit p f → in_bounds t (length (f t)) p.
Proof.
  intros Hl Hf. apply layout_order in Hl. specialize (Hf t).
  destruct t; unfold in_bounds; cbn in *; lia.
Qed.

(** An index in the part of one table is not in the part of another. *)
Lemma parts_disjoint p t t' i n :
  layout_ok p → t ≠ t' → table_start p t' ≤ i < table_limit p t' →
  table_start p t + n ≤ table_limit p t → i < table_start p t ∨ table_start p t + n ≤ i.
Proof. intros Hl Ht. apply layout_order in Hl. destruct t, t'; cbn in *; try done; lia. Qed.

Lemma sel_one t t' r : sel t [(t', r)] = if decide (t' = t) then [r] else [].
Proof. unfold sel. rewrite filter_cons. cbn. by case_decide. Qed.

Lemma fit_push_l p f l : fit p (push f l) → fit p f.
Proof. intros H t. specialize (H t). unfold push in H. rewrite length_app in H. lia. Qed.

Lemma content_Ins p f t r :
  layout_ok p → content p f → fit p (push f [(t, r)]) →
  content (PpeInsEntry p t r) (push f [(t, r)]) ∧ keeps p (PpeInsEntry p t r).
Proof.
  intros Hl Hc Hf. pose proof (fit_push_l _ _ _ Hf) as Hf'. split.
  - intros t'. unfold push. rewrite sel_one. case_decide as Ht.
    + subst t'. destruct (in_bounds_fit _ _ t Hl Hf) as [Hb Hb'].
      unfold push in Hb'. rewrite sel_one, decide_True, length_app in Hb' by done. cbn in Hb'.
      apply table_holds_Ins; [done..|]. specialize (Hf t). unfold push in Hf.
      rewrite sel_one, decide_True, length_app in Hf by done. cbn in Hf.
      pose proof (layout_order _ Hl). destruct t; cbn in *; lia.
    + rewrite app_nil_r. eapply table_holds_same; [apply Hc|].
      apply same_table_Ins; [done|by apply in_bounds_fit|apply PpeGetEnd_range|].
      apply (parts_disjoint _ _ t); [done..| |apply Hf'].
      destruct (Hc t) as [_ -> _]. specialize (Hf t). unfold push in Hf.
      rewrite sel_one, decide_True, length_app in Hf by done. cbn in Hf. lia.
  - pose proof (PpeGetEnd_range p t). pose proof (ptr_reg_addr t). split; [intros; by autorewrite with ppe|].
    unfold PpeInsEntry, PpeSetEnd.
    rewrite RegRead_RegModifyBits_ne by (destruct t; cbn; addr).
    by rewrite !RegRead_RegWrite_ne by addr.
Qed.

Lemma content_plain p f a v :
  plain_reg a → a ≠ PPE_FLOW_SET → layout_ok p → content p f → fit p f →
  content (RegWrite p a v) f ∧ keeps p (RegWrite p a v).
Proof.
  intros Ha Hne Hl Hc Hf. split.
  - intros t. eapply table_holds_same; [apply Hc|]. apply same_table_plain; [done|].
    by apply in_bounds_fit.
  - split; [by destruct t|]. apply RegRead_RegWrite_ne; [addr|apply Ha|done].
Qed.

Definition clear (f : contents) (t : table) : contents := λ t', if decide (t' = t) then [] else f t'.

Lemma content_disable p f t :
  layout_ok p → content p f → fit p f → content (PpeSetEbl p t false) (clear f t).
Proof.
  intros Hl Hc Hf t'. unfold clear. case_decide as Ht.
  - subst. apply table_holds_disable. apply layout_order in Hl. destruct t; cbn in *; lia.
  - eapply table_holds_same; [apply Hc|]. apply same_table_Ebl; [auto|]. by apply in_bounds_fit.
Qed.

Lemma content_enable p f t :
  layout_ok p → content p f → fit p f → content (PpeSetEbl p t true) f.
Proof.
  intros Hl Hc Hf t'. eapply table_holds_same; [apply Hc|].
  apply same_table_Ebl; [auto|]. by apply in_bounds_fit.
Qed.

Lemma layout_start p p' : (∀ t, table_start p' t = table_start p t) → layout_ok p → layout_ok p'.
Proof. intros H Hl t. rewrite H, (table_limit_start p) by done. apply Hl. Qed.
Lemma fit_start p p' f : (∀ t, table_start p' t = table_start p t) → fit p f → fit p' f.
Proof. intros H Hl t. rewrite H, (table_limit_start p) by done. apply Hl. Qed.
Lemma fit_clear p f t : layout_ok p → fit p f → fit p (clear f t).
Proof.
  intros Hl Hf t'. unfold clear. case_decide; [|apply Hf]. cbn. specialize (Hl t'). lia.
Qed.

(** * What is tracked

    The memory is described by the contents of the tables and their enables.
    [Q] relates it to that description under a condition [pre] on the contents;
    the operations that the handlers are made of keep the relation. *)

Definition enables := table → bool.
Definition upd (en : enables) (t : table) (b : bool) : enables :=
  λ t', if decide (t' = t) then b else en t'.

Abbreviation same_start p p' := (∀ t, table_start p' t = table_start p t).

Class Tracks (pre : ppe → contents → Prop) (Q : ppe → contents → enables → Prop) := {
  tr_ext p f g en en' : (∀ t, f t = g t) → (∀ t, en t = en' t) → Q p f en → Q p g en';
  tr_Ins p f en t r :
    layout_ok p → pre p (push f [(t, r)]) → Q p f en → Q (PpeInsEntry p t r) (push f [(t, r)]) en;
  tr_plain p f en a v :
    plain_reg a → a ≠ PPE_FLOW_SET → layout_ok p → pre p f → Q p f en → Q (RegWrite p a v) f en;
  tr_disable p f en t :
    layout_ok p → pre p f → Q p f en → Q (PpeSetEbl p t false) (clear f t) (upd en t false);
  tr_enable p f en t :
    layout_ok p → pre p f → Q p f en → Q (PpeSetEbl p t true) f (upd en t true);
  pre_start p p' f : same_start p p' → pre p f → pre p' f;
  pre_ext p f g : (∀ t, f t = g t) → pre p f → pre p g;
  pre_push p f l : pre p (push f l) → pre p f;
  pre_clear p f t : layout_ok p → pre p f → pre p (clear f t)
}.

(** The memory holds the contents, if they fit. *)
Definition holds (p : ppe) (f : contents) (en : enables) : Prop :=
  content p f ∧ ∀ t, table_enabled p t (en t).

Lemma enabled_Ebl p en t b :
  (∀ t', table_enabled p t' (en t')) → ∀ t', table_enabled (PpeSetEbl p t b) t' (upd en t b t').
Proof.
  intros H t'. unfold upd. case_decide as Ht; [subst; apply table_enabled_Ebl|].
  by apply table_enabled_Ebl_ne.
Qed.

Lemma enabled_flow p p' t b :
  RegRead p' PPE_FLOW_SET = RegRead p PPE_FLOW_SET → table_enabled p t b → table_enabled p' t b.
Proof. unfold table_enabled. by intros ->. Qed.

#[export] Instance holds_tracks : Tracks fit holds.
Proof.
  split.
  - intros p f g en en' Hf Hen [Hc He]. split; [by eapply content_ext|].
    intros t. rewrite <-Hen. apply He.
  - intros p f en t r Hl Hp [Hc He]. destruct (content_Ins p f t r) as [Hc' Hk]; [done..|].
    split; [done|]. intros t'. eapply enabled_flow; [apply Hk|apply He].
  - intros p f en a v Ha Hne Hl Hp [Hc He].
    destruct (content_plain p f a v) as [Hc' Hk]; [done..|].
    split; [done|]. intros t'. eapply enabled_flow; [apply Hk|apply He].
  - intros p f en t Hl Hp [Hc He]. split; [by apply content_disable|by apply enabled_Ebl].
  - intros p f en t Hl Hp [Hc He]. split; [by apply content_enable|by apply enabled_Ebl].
  - intros p p' f. apply fit_start.
  - intros p f g Hf Hp t. rewrite <-Hf. apply Hp.
  - intros p f l. apply fit_push_l.
  - intros p f t. apply fit_clear.
Qed.

(** The pointers follow the contents whether they fit or not; an end pointer has
    nine bits. *)
Definition points (p : ppe) (f : contents) (en : enables) : Prop :=
  ∀ t, PpeGetStr p t = table_start p t ∧
       PpeGetEnd p t = (table_start p t + Z.of_nat (length (f t))) mod 512.

(** The pointer register of a table is left alone by everything else. *)
Lemma ptr_plain p a v t : plain_reg a → RegRead (RegWrite p a v) (ptr_reg t) = RegRead p (ptr_reg t).
Proof.
  intros (Ha & Hp & _). pose proof (ptr_reg_addr t). apply RegRead_RegWrite_ne; [addr|done|].
  intros He. by apply (Hp t).
Qed.

Lemma ptr_account p t' b t :
  RegRead (set_account p t' b) (ptr_reg t) = RegRead p (ptr_reg t).
Proof.
  unfold set_account. destruct (ac_bit t'); [|done].
  unfold RegModifyBits. by rewrite !ptr_plain by auto with ppe.
Qed.

Lemma ptr_modify_ne p t t' d o l :
  t ≠ t' → RegRead (RegModifyBits p (ptr_reg t') d o l) (ptr_reg t) = RegRead p (ptr_reg t).
Proof.
  intros Ht. pose proof (ptr_reg_addr t). pose proof (ptr_reg_addr t').
  apply RegRead_RegModifyBits_ne; [addr..|]. intros He. by apply Ht, ptr_reg_inj.
Qed.

Lemma ptr_Rst_ne p t t' :
  t ≠ t' → RegRead (PpeRstPtr p t') (ptr_reg t) = RegRead p (ptr_reg t).
Proof. intros. unfold PpeRstPtr, PpeSetStr, PpeSetEnd. by rewrite !ptr_modify_ne. Qed.

Lemma ptr_Ebl p t t' b :
  b = true ∨ t ≠ t' → RegRead (PpeSetEbl p t' b) (ptr_reg t) = RegRead p (ptr_reg t).
Proof.
  intros Hb. unfold PpeSetEbl. destruct b; rewrite ptr_plain by auto with ppe.
  - apply ptr_account.
  - rewrite ptr_Rst_ne by naive_solver. apply ptr_account.
Qed.

Lemma ptr_Ins p t t' r :
  RegRead (PpeInsEntry p t' r) (ptr_reg t) =
    if decide (t = t') then RegRead (PpeSetEnd p t (PpeGetEnd p t + 1)) (ptr_reg t)
    else RegRead p (ptr_reg t).
Proof.
  pose proof (ptr_reg_addr t). pose proof (PpeGetEnd_range p t'). unfold PpeInsEntry, PpeSetEnd.
  case_decide as Ht; [subst t'|].
  - unfold RegModifyBits. rewrite !RegRead_RegWrite. by rewrite !RegRead_RegWrite_ne by addr.
  - rewrite ptr_modify_ne by done. by rewrite !RegRead_RegWrite_ne by addr.
Qed.

Lemma points_same p p' f en t :
  same_start p p' → RegRead p' (ptr_reg t) = RegRead p (ptr_reg t) → points p f en →
  PpeGetStr p' t = table_start p' t ∧
  PpeGetEnd p' t = (table_start p' t + Z.of_nat (length (f t))) mod 512.
Proof. intros Hs Hr Hp. rewrite Hs. unfold PpeGetStr, PpeGetEnd. rewrite Hr. apply (Hp t). Qed.

Lemma layout_start_range p t : layout_ok p → 0 ≤ table_start p t < 512.
Proof. intros H%layout_order. destruct t; cbn in *; lia. Qed.

Lemma points_disable p f en t :
  layout_ok p → points p f en → points (PpeSetEbl p t false) (clear f t) (upd en t false).
Proof.
  intros Hl Hp t'. pose proof (layout_start_range p t Hl). unfold clear. case_decide as Ht.
  - subst t'. destruct (table_holds_disable p t) as [H1 H2 _]; [done|].
    split; [done|]. rewrite H2. cbn. autorewrite with ppe. rewrite Z.mod_small by lia. lia.
  - eapply (points_same p); [intros; by autorewrite with ppe| |exact Hp]. apply ptr_Ebl. auto.
Qed.

#[export] Instance points_tracks : Tracks (λ _ _, True) points.
Proof.
  split; try done.
  - intros p f g en en' Hf _ Hp t. rewrite <-Hf. apply Hp.
  - intros p f en t r Hl _ Hp t'. unfold push. rewrite sel_one. case_decide as Ht.
    + subst t'. destruct (Hp t) as [H1 H2]. autorewrite with ppe.
      unfold PpeGetStr, PpeGetEnd in *. rewrite ptr_Ins, decide_True by done.
      fold (PpeGetStr (PpeSetEnd p t (PpeGetEnd p t + 1)) t).
      fold (PpeGetEnd (PpeSetEnd p t (PpeGetEnd p t + 1)) t).
      rewrite PpeGetStr_SetEnd. split; [done|].
      rewrite PpeGetEnd_field. unfold PpeSetEnd. rewrite field_RegModifyBits by lia.
      rewrite length_app. cbn. unfold PpeGetEnd. rewrite H2.
      change (2 ^ 9) with 512. rewrite Zplus_mod_idemp_l. f_equal. lia.
    + rewrite app_nil_r. eapply (points_same p); [intros; by autorewrite with ppe| |exact Hp].
      by rewrite ptr_Ins, decide_False by congruence.
  - intros p f en a v Ha Hne Hl _ Hp t. eapply (points_same p); [by intros []| |exact Hp].
    by apply ptr_plain.
  - intros p f en t Hl _. by apply points_disable.
  - intros p f en t Hl _ Hp t'. eapply (points_same p); [intros; by autorewrite with ppe| |exact Hp].
    apply ptr_Ebl. auto.
Qed.

(** * The entries of a node *)

Definition ins_all (p : ppe) (t : table) (l : list rule) : ppe := foldl (λ p r, PpeInsEntry p t r) p l.

Definition acl_is_add (t : Z) : bool := existsb (Z.eqb t) [0; 1; 2; 6; 7; 8; 13; 15; 17].

Record acl_node_ok (n : AclPlcyNode) : Prop := {
  an_type : acl_is_add (acl_RuleType n) = true;
  an_proto : acl_RuleType n = 17 → 0 ≤ acl_Proto n ≤ 2;
  an_tag : acl_SpecialTag n = 0
}.

Lemma acl_end_last n : acl_end n ENTRY_END_FP = Some (action n).
Proof. done. Qed.

Lemma acl_insert_not_end p n m rtyp d b :
  (acl_insert p n NOT_ENTRY_END m rtyp d b).2 =
    PpeInsEntry p PRE_ACL
      {| com := {| com_end := Ee0 0 AND; match_ := m; pn := acl_pn n; rt := rtyp; dir := d |}; body := b |}.
Proof. done. Qed.

(** The nine blocks of [AclInsSmacETypTOSSipSpDipDp] write the chain of the
    conditions that take part, or the last one if none does. *)
Definition chain_or (n : AclPlcyNode) (dflt : cond) (l : list (bool * cond)) : list rule :=
  match used_conds l with [] => chain n [dflt] | cs => chain n cs end.

Lemma used_cons b c l : used_conds ((b, c) :: l) = (if b then [c] else []) ++ used_conds l.
Proof. unfold used_conds. rewrite filter_cons. cbn. by destruct b. Qed.

Lemma used_nonempty l : nonempty (used_conds l) = existsb fst l.
Proof. induction l as [|[b c] l IH]; [done|]. rewrite used_cons. cbn. rewrite <-IH. by destruct b. Qed.

Lemma block_chain n dflt b c l more put p k :
  more = existsb fst l →
  put NOT_ENTRY_END = PpeInsEntry p PRE_ACL (cond_rule n (Ee0 0 AND) c) →
  put ENTRY_END_FP = PpeInsEntry p PRE_ACL (cond_rule n (action n) c) →
  (∀ q, k q = ins_all q PRE_ACL (chain_or n dflt l)) →
  block b more put p k = ins_all p PRE_ACL (chain_or n dflt ((b, c) :: l)).
Proof.
  intros -> H1 H2 Hk. unfold block, chain_or in *. rewrite used_cons, <-used_nonempty.
  destruct b; [|apply Hk]. destruct (used_conds l) as [|c' cs] eqn:E; cbn; [done|].
  rewrite Hk, H1. done.
Qed.

Lemma port_proto_some n :
  0 ≤ acl_Proto n ≤ 2 → port_proto n = Some (default ANY (port_proto n)).
Proof.
  intros. unfold port_proto, ACL_PROTO_TCP, ACL_PROTO_UDP, ACL_PROTO_ANY.
  repeat case_match; done || lia.
Qed.

Lemma set_port_eq n p Dir End e :
  0 ≤ acl_Proto n ≤ 2 → Dir = SPORT ∨ Dir = DPORT → acl_end n End = Some e →
  set_port p n Dir End =
    PpeInsEntry p PRE_ACL (cond_rule n e (c_port n Dir (default ANY (port_proto n)))).
Proof.
  intros Hp Hd He. unfold set_port. rewrite port_proto_some by done. cbn.
  unfold AclSetPortEntry. set (pr := default ANY (port_proto n)).
  assert (∃ b, port_body n Dir pr = Some b) as [b Hb] by (destruct Hd as [-> | ->]; by eexists).
  rewrite Hb. unfold acl_insert. rewrite He. unfold c_port, cond_rule. by rewrite Hb.
Qed.

Lemma AclSetIpEntry_eq n p Dir End e :
  Dir = SIP ∨ Dir = DIP ∨ Dir = IP_QOS → acl_end n End = Some e →
  (AclSetIpEntry p n Dir End).2 = PpeInsEntry p PRE_ACL (cond_rule n e (c_ip n Dir)).
Proof.
  intros Hd He. unfold AclSetIpEntry, acl_insert, c_ip, cond_rule. rewrite He.
  destruct Hd as [-> |[-> | ->]]; cbn; [by destruct (CalIpRange _ _)..|done].
Qed.

Lemma AclInsSmacETyp_chain p n :
  acl_SpecialTag n = 0 → 0 ≤ acl_Proto n ≤ 2 →
  AclInsSmacETypTOSSipSpDipDp p n =
    let proto := default ANY (port_proto n) in
    ins_all p PRE_ACL (chain_or n (c_port n DPORT proto) (all_conds n proto)).
Proof.
  intros Ht Hp. cbn zeta. unfold AclInsSmacETypTOSSipSpDipDp, all_conds. rewrite Ht.
  set (dp := negb (acl_DpS n =? 0)). set (sp := negb (acl_SpS n =? 0)).
  set (dmac := has_mac (acl_DMac n)). set (prot := negb (acl_Protocol n =? 0)).
  set (etype := negb (acl_Ethertype n =? 0)). set (vid := negb (acl_Vid n =? 0)).
  set (sip := negb (acl_SipS n =? 0)). set (dip := negb (acl_DipS n =? 0)).
  set (tos := negb (acl_TosS n =? 0)).
  apply block_chain; [cbn; btauto|done..|intros q1].
  apply block_chain; [cbn; btauto|done..|intros q2].
  apply block_chain; [cbn; btauto|done..|intros q3].
  apply block_chain; [cbn; btauto|by apply AclSetIpEntry_eq; auto..|intros q4].
  apply block_chain; [cbn; btauto|by apply AclSetIpEntry_eq; auto..|intros q5].
  apply block_chain; [cbn; btauto|by apply AclSetIpEntry_eq; auto..|intros q6].
  apply block_chain; [cbn; btauto|done..|intros q7].
  apply block_chain; [cbn; btauto|by apply set_port_eq; auto..|intros q8].
  rewrite (set_port_eq _ _ _ _ (action n)) by auto.
  unfold chain_or. rewrite used_cons. by destruct dp.
Qed.

Lemma acl_ins_node_chain p n :
  acl_node_ok n → acl_ins_node p n = ins_all p PRE_ACL (acl_chain n).
Proof.
  intros [Ht Hp Hs]. unfold acl_is_add in Ht. cbn in Ht.
  assert (acl_RuleType n = 0 ∨ acl_RuleType n = 1 ∨ acl_RuleType n = 2 ∨ acl_RuleType n = 6 ∨
          acl_RuleType n = 7 ∨ acl_RuleType n = 8 ∨ acl_RuleType n = 13 ∨ acl_RuleType n = 15 ∨
          acl_RuleType n = 17) as Hc by lia. clear Ht.
  unfold acl_ins_node, acl_chain, acl_conds.
  destruct Hc as [Ht|[Ht|[Ht|[Ht|[Ht|[Ht|[Ht|[Ht|Ht]]]]]]]]; rewrite Ht; cbn -[chain used_conds];
    unfold AclInsSmacDipDp, AclInsSipDipDp, ins_dip_dp, is_any_dip; rewrite ?Ht; cbn -[chain used_conds];
    rewrite ?(AclSetIpEntry_eq n _ _ NOT_ENTRY_END (Ee0 0 AND)) by auto;
    rewrite ?(AclSetIpEntry_eq n _ _ ENTRY_END_FP (action n)) by auto; try done.
  rewrite AclInsSmacETyp_chain by auto. cbv zeta. unfold chain_or. by destruct (used_conds _).
Qed.

Definition ac_node_ok (n : AcPlcyNode) : Prop := 0 ≤ ac_RuleType n ≤ 2.

Definition ac_where (n : AcPlcyNode) : table := if ac_is_pre n then PRE_AC else POST_AC.

Lemma ac_ins_node_eq p n :
  ac_node_ok n → ac_ins_node p n = PpeInsEntry p (ac_where n) (ac_rule n).
Proof.
  unfold ac_node_ok. intros H.
  assert (ac_RuleType n = 0 ∨ ac_RuleType n = 1 ∨ ac_RuleType n = 2) as Hc by lia.
  unfold ac_ins_node, ac_rule, ac_where, AcInsMac, AcInsIp, AcInsVlan, ac_is_pre.
  destruct Hc as [-> |[-> | ->]]; cbn; repeat case_match; congruence || done.
Qed.

(** A meter is one of the 64, or the group of no free meter. *)
Record mtr_node_ok (n : MtrPlcyNode) : Prop := {
  mn_type : 0 ≤ mtr_RuleType n ≤ 5;
  mn_pre : 2 ≤ mtr_RuleType n → mtr_is_pre n = true;
  mn_num : 0 ≤ mtr_MgNum n < 64 ∨ mtr_MgNum n = 0xFFFFFFFF
}.

Definition mtr_where (n : MtrPlcyNode) : table := if mtr_is_pre n then PRE_MTR else POST_MTR.

Lemma mtr_ins_node_eq p n :
  mtr_node_ok n →
  mtr_ins_node p n = PpeInsMtrTbl (PpeInsEntry p (mtr_where n) (mtr_rule n)) n.
Proof.
  intros [Ht Hp _].
  assert (mtr_RuleType n = 0 ∨ mtr_RuleType n = 1 ∨ mtr_RuleType n = 2 ∨ mtr_RuleType n = 3 ∨
          mtr_RuleType n = 4 ∨ mtr_RuleType n = 5) as Hc by lia.
  unfold mtr_ins_node, mtr_rule, mtr_where, MtrInsMac, MtrInsIp, MtrInsSYN, MtrInsFIN, MtrInsProtocol,
    mtr_ins_l4.
  destruct Hc as [E|[E|[E|[E|[E|E]]]]]; rewrite E in *; cbn;
    try (rewrite (Hp ltac:(lia)) in *; done); repeat case_match; congruence || done.
Qed.

Lemma meter_reg n :
  mtr_node_ok n → plain_reg (u32 (METER_BASE + mtr_MgNum n * 4)) ∧
  u32 (METER_BASE + mtr_MgNum n * 4) ≠ PPE_FLOW_SET.
Proof.
  intros [_ _ Hn].
  assert (0xB01005FC ≤ u32 (METER_BASE + mtr_MgNum n * 4) < 0xB0100700).
  { unfold u32, METER_BASE, RALINK_FRAME_ENGINE_BASE. destruct Hn as [Hn| ->]; [|done].
    rewrite Z.mod_small; lia. }
  split; [|addr]. split_and!; [addr..| |addr]. intros t. pose proof (ptr_reg_addr t). addr.
Qed.

(** * Writing a list *)

Definition put (f : contents) (t : table) (l : list rule) : contents :=
  λ t', if decide (t' = t) then l else f t'.

Section Tracked.
Context {pre : ppe → contents → Prop} {Q : ppe → contents → enables → Prop} `{!Tracks pre Q}.

(** The step [g] for an element appends the entries [emit] gives. *)
Definition writes {A} (g : ppe → A → ppe) (emit : A → list (table * rule)) (ok : A → Prop) : Prop :=
  ∀ p f en a, ok a → layout_ok p → pre p (push f (emit a)) → Q p f en →
    Q (g p a) (push f (emit a)) en ∧ same_start p (g p a).

Lemma writes_foldl {A} (g : ppe → A → ppe) emit ok p f en l :
  writes g emit ok → Forall ok l → layout_ok p → pre p (push f (l ≫= emit)) → Q p f en →
  Q (foldl g p l) (push f (l ≫= emit)) en ∧ same_start p (foldl g p l).
Proof.
  intros Hg Hok. revert p f. induction Hok as [|a l Ha Hok IH]; intros p f Hl Hp HQ; cbn in *.
  - split; [|done]. eapply tr_ext; [..|exact HQ]; [|done].
    intros t. unfold push. cbn. by rewrite app_nil_r.
  - assert (Hp' : pre p (push (push f (emit a)) (l ≫= emit))).
    { eapply pre_ext; [|exact Hp]. intros t. by rewrite push_app. }
    destruct (Hg p f en a) as [HQ' Hs]; [done..|by eapply pre_push|done|].
    destruct (IH (g p a) (push f (emit a))) as [HQ'' Hs']; [by eapply layout_start|..|done|].
    + by eapply pre_start.
    + split; [|intros t; by rewrite Hs', Hs]. eapply tr_ext; [..|exact HQ'']; [|done].
      intros t. apply push_app.
Qed.

Lemma writes_Ins t : writes (λ p r, PpeInsEntry p t r) (λ r, [(t, r)]) (λ _, True).
Proof. intros p f en r _ Hl Hp HQ. split; [by apply tr_Ins|intros; by autorewrite with ppe]. Qed.

Lemma bind_single {A B} (h : A → B) (l : list A) : l ≫= (λ x, [h x]) = h <$> l.
Proof. induction l as [|a l IH]; cbn; [done|]. by rewrite IH. Qed.

Lemma ins_all_tracked p t l f en :
  layout_ok p → pre p (push f ((t,.) <$> l)) → Q p f en →
  Q (ins_all p t l) (push f ((t,.) <$> l)) en ∧ same_start p (ins_all p t l).
Proof.
  intros Hl Hp HQ. rewrite <-bind_single in *.
  apply (writes_foldl _ _ (λ _, True)); [apply writes_Ins|by apply Forall_true|done..].
Qed.

Lemma acl_writes : writes acl_ins_node (λ n, (PRE_ACL,.) <$> acl_chain n) acl_node_ok.
Proof. intros p f en n Hn Hl Hp HQ. rewrite acl_ins_node_chain by done. by apply ins_all_tracked. Qed.

Lemma ac_writes : writes ac_ins_node (λ n, [(ac_where n, ac_rule n)]) ac_node_ok.
Proof. intros p f en n Hn Hl Hp HQ. rewrite ac_ins_node_eq by done. by apply writes_Ins. Qed.

Lemma mtr_writes : writes mtr_ins_node (λ n, [(mtr_where n, mtr_rule n)]) mtr_node_ok.
Proof.
  intros p f en n Hn Hl Hp HQ. rewrite mtr_ins_node_eq by done.
  destruct (writes_Ins (mtr_where n) p f en (mtr_rule n)) as [HQ' Hs]; [done..|].
  split; [|intros t; unfold PpeInsMtrTbl; by rewrite <-Hs; autorewrite with ppe].
  destruct (meter_reg n Hn). apply tr_plain; [done..|by eapply layout_start|by eapply pre_start|done].
Qed.

(** ** The three ways to write the tables anew *)

Lemma sel_pair t t' (l : list rule) : sel t ((t',.) <$> l) = if decide (t' = t) then l else [].
Proof.
  induction l as [|r l IH]; [by case_decide|]. rewrite fmap_cons.
  change (sel t ([(t', r)] ++ ((t',.) <$> l)) = if decide (t' = t) then r :: l else []).
  rewrite sel_app, sel_one, IH. by case_decide.
Qed.

Lemma push_pair f t (l : list rule) t' : push (clear f t) ((t,.) <$> l) t' = put f t l t'.
Proof.
  unfold push, clear, put. rewrite sel_pair. repeat case_decide; subst; try done. by rewrite app_nil_r.
Qed.

Lemma bind_pair {A} (t : table) (h : A → list rule) l : l ≫= (λ x, (t,.) <$> h x) = (t,.) <$> (l ≫= h).
Proof. induction l as [|a l IH]; cbn; [done|]. by rewrite fmap_app, IH. Qed.

Lemma acl_rules_last l n :
  last l = Some n →
  acl_rules l = (l ≫= acl_chain) ++ (if acl_Method n =? ACL_ALLOW_RULE then [dfl_allow; dfl_deny] else []).
Proof. intros H. unfold acl_rules, acl_defaults. by rewrite H. Qed.

Lemma SyncAclTbl_tracked a f en :
  let l := AclPlcyList a in let p := acl_ppe a in
  Forall acl_node_ok l → layout_ok p → pre p f → pre p (put f PRE_ACL (acl_rules l)) → Q p f en →
  Q (acl_ppe (SyncAclTbl a).2) (put f PRE_ACL (acl_rules l)) (upd en PRE_ACL (nonempty l)) ∧
  same_start p (acl_ppe (SyncAclTbl a).2).
Proof.
  intros l p Hok Hl Hp Hp' HQ. unfold SyncAclTbl. fold l p.
  pose proof (tr_disable p f en PRE_ACL Hl Hp HQ) as HQ0.
  set (p0 := PpeSetEbl p PRE_ACL false) in *.
  assert (Hs0 : same_start p p0) by (intros; unfold p0; by autorewrite with ppe).
  destruct (last l) as [n|] eqn:Hn.
  - pose proof (acl_rules_last l n Hn) as Hr. rewrite Hr in *.
    set (d := if acl_Method n =? ACL_ALLOW_RULE then _ else _) in *.
    assert (Hd : ∀ q, (if acl_Method n =? ACL_ALLOW_RULE then AclInsDflDeny (AclInsDflAllow q) else q) =
                      ins_all q PRE_ACL d) by (intros; subst d; by destruct (_ =? _)).
    rewrite Hd. set (p1 := foldl acl_ins_node p0 l).
    assert (Hp0 : pre p0 (push (push (clear f PRE_ACL) ((PRE_ACL,.) <$> (l ≫= acl_chain)))
                            ((PRE_ACL,.) <$> d))).
    { apply (pre_start p); [done|]. eapply pre_ext; [|exact Hp'].
      intros t. by rewrite push_app, <-fmap_app, push_pair. }
    destruct (writes_foldl acl_ins_node (λ n, (PRE_ACL,.) <$> acl_chain n) acl_node_ok p0 (clear f PRE_ACL) (upd en PRE_ACL false) l)
      as [HQ1 Hs1].
    { apply acl_writes. }
    { done. }
    { by eapply layout_start. }
    { rewrite bind_pair. by eapply pre_push. }
    { done. }
    rewrite bind_pair in HQ1. fold p1 in HQ1, Hs1.
    destruct (ins_all_tracked p1 PRE_ACL d (push (clear f PRE_ACL) ((PRE_ACL,.) <$> (l ≫= acl_chain)))
      (upd en PRE_ACL false)) as [HQ2 Hs2].
    { eapply layout_start; [|exact Hl]. intros t. by rewrite Hs1. }
    { by apply (pre_start p0). }
    { done. }
    set (p2 := ins_all p1 PRE_ACL d) in *.
    assert (Hs : same_start p p2) by (intros t; by rewrite Hs2, Hs1).
    change (acl_ppe (_, _).2) with (PpeSetEbl p2 PRE_ACL true).
    split; [|intros; by autorewrite with ppe].
    eapply tr_ext; [..|apply (tr_enable p2)]; [| | | |exact HQ2].
    + intros t. by rewrite push_app, <-fmap_app, push_pair.
    + intros t. unfold upd. destruct l; [done|]. by repeat case_decide.
    + by eapply layout_start.
    + apply (pre_start p0); [|done]. intros t. by rewrite Hs, Hs0.
  - apply last_None in Hn. rewrite Hn in *. cbn. split; [|done].
    eapply tr_ext; [..|exact HQ0]; done.
Qed.

(** The accounting rules and the meters share their shape: two tables are
    emptied, and each node is written to the one of its type. *)
Section Two.
Context {A : Type} (is_pre : A → bool) (rule_ : A → rule) (t1 t2 : table) (Ht : t1 ≠ t2).

Definition two (f : contents) (l : list A) : contents :=
  put (put f t1 (rule_ <$> filter (λ n, is_pre n = true) l)) t2
    (rule_ <$> filter (λ n, is_pre n = false) l).

Abbreviation emit2 := (λ n, [(if is_pre n then t1 else t2, rule_ n)]).

Lemma sel_two l t :
  sel t (l ≫= emit2) =
    if decide (t = t2) then rule_ <$> filter (λ n, is_pre n = false) l
    else if decide (t = t1) then rule_ <$> filter (λ n, is_pre n = true) l else [].
Proof using Ht.
  induction l as [|n l IH]; [cbn; by repeat case_decide|].
  change (sel t ([(if is_pre n then t1 else t2, rule_ n)] ++ (l ≫= emit2)) = 
    if decide (t = t2) then rule_ <$> filter (λ n, is_pre n = false) (n :: l)
    else if decide (t = t1) then rule_ <$> filter (λ n, is_pre n = true) (n :: l) else []).
  rewrite sel_app, sel_one, IH, !filter_cons.
  destruct (is_pre n); repeat (case_decide; subst; try done).
Qed.

Lemma push_two f l t : push (clear (clear f t1) t2) (l ≫= emit2) t = two f l t.
Proof using Ht.
  unfold push, two, put, clear. rewrite sel_two. repeat case_decide; subst; try done.
  by rewrite app_nil_r.
Qed.

Lemma two_tracked (g : ppe → A → ppe) ok p f en l :
  writes g emit2 ok → Forall ok l → layout_ok p → pre p f → pre p (two f l) → Q p f en →
  let p' := foldl g (PpeSetEbl (PpeSetEbl p t1 false) t2 false) l in
  Q p' (two f l) (upd (upd en t1 false) t2 false) ∧ same_start p p'.
Proof using Ht Tracks0.
  intros Hg Hok Hl Hp Hp' HQ p'.
  set (q1 := PpeSetEbl p t1 false) in *. set (q2 := PpeSetEbl q1 t2 false) in *.
  assert (Hs1 : same_start p q1) by (intros; unfold q1; by autorewrite with ppe).
  assert (Hs2 : same_start p q2) by (intros; unfold q2; autorewrite with ppe; by rewrite Hs1).
  destruct (writes_foldl g emit2 ok q2 (clear (clear f t1) t2) (upd (upd en t1 false) t2 false) l)
    as [HQ' Hs'].
  - done.
  - done.
  - by eapply layout_start.
  - apply (pre_start p); [done|]. eapply pre_ext; [|exact Hp']. intros t. by rewrite push_two.
  - apply tr_disable; [by eapply layout_start| |by apply tr_disable].
    apply (pre_start p); [done|]. by apply pre_clear.
  - split; [|intros t; unfold p'; by rewrite Hs', Hs2].
    eapply tr_ext; [..|exact HQ']; [|done]. apply push_two.
Qed.

Lemma clean_two p f en :
  layout_ok p → pre p f → Q p f en →
  let p' := PpeSetEbl (PpeSetEbl p t1 false) t2 false in
  Q p' (two f []) (upd (upd en t1 false) t2 false) ∧ same_start p p'.
Proof using Ht Tracks0.
  intros Hl Hp HQ. apply (two_tracked (λ p _, p) (λ _, False) p f en []); [|done..| |done].
  - by intros ?????.
  - eapply pre_ext; [|apply pre_clear, (pre_clear _ f t1)]; done.
Qed.

Lemma existsb_nonempty (h : A → bool) b l :
  (∀ n, h n = bool_decide (is_pre n = b)) →
  existsb h l = nonempty (rule_ <$> filter (λ n, is_pre n = b) l).
Proof.
  intros Hh. induction l as [|n l IH]; [done|].
  rewrite filter_cons. cbn [existsb]. rewrite Hh. by case_decide; case_bool_decide.
Qed.
End Two.
End Tracked.
