(* ===== verification/PolicyGroups.v ===== *)
(** The groups of counters and the meters: the bitmaps that allocate them. *)

From S2P Require Import Prelude PpeRegs Accounting.

(** The bit of group [g] in the bitmap. *)
Definition group_used (cells : list Z) (g : Z) : bool :=
  Z.testbit (nth (Z.to_nat (g / 8)) cells 0) (g mod 8).

Lemma testbit_u8 v j : 0 ≤ j < 8 → Z.testbit (u8 v) j = Z.testbit v j.
Proof. intros. unfold u8. change 256 with (2 ^ 8). by rewrite Z.mod_pow2_bits_low by lia. Qed.

Lemma land_bit c j : 0 ≤ j → (Z.land c (Z.shiftl 1 j) =? 0) = negb (Z.testbit c j).
Proof.
  intros Hj. destruct (Z.testbit c j) eqn:E.
  - apply Z.eqb_neq. intros H. apply (f_equal (λ v, Z.testbit v j)) in H.
    rewrite Z.land_spec, Z.shiftl_1_l, Z.pow2_bits_true, Z.bits_0, E in H by done. done.
  - apply Z.eqb_eq, Z.bits_inj'. intros i Hi. rewrite Z.land_spec, Z.shiftl_1_l, Z.bits_0.
    rewrite Z.pow2_bits_eqb by done. destruct (Z.eqb_spec j i) as [->|]; [by rewrite E|].
    by rewrite andb_false_r.
Qed.

Lemma clear_bit_spec fuel c j k :
  0 ≤ j → clear_bit fuel c j = Some k →
  j ≤ k < j + Z.of_nat fuel ∧ Z.testbit c k = false.
Proof.
  revert j. induction fuel as [|fuel IH]; intros j Hj; [done|]. cbn -[Z.of_nat].
  rewrite land_bit by done. destruct (Z.testbit c j) eqn:E; cbn -[Z.of_nat]; intros Hc.
  - apply IH in Hc; [|lia]. split; [lia|tauto].
  - injection Hc as ->. split; [lia|done].
Qed.

Lemma clear_bit_none fuel c j k :
  0 ≤ j → clear_bit fuel c j = None → j ≤ k < j + Z.of_nat fuel → Z.testbit c k = true.
Proof.
  revert j. induction fuel as [|fuel IH]; intros j Hj; [lia|]. cbn -[Z.of_nat].
  rewrite land_bit by done. destruct (Z.testbit c j) eqn:E; cbn -[Z.of_nat]; [|done].
  intros Hc Hk. destruct (decide (k = j)) as [->|]; [done|]. apply (IH (j + 1)); [lia|done|lia].
Qed.

(** The bit of a cell: the bitmap shifted by [i] cells. *)
Lemma group_used_cons c cells g :
  0 ≤ g → group_used (c :: cells) g =
    if decide (g < 8) then Z.testbit c g else group_used cells (g - 8).
Proof.
  intros Hg. unfold group_used. case_decide.
  - by rewrite Z.div_small, Z.mod_small by lia.
  - replace (g / 8) with ((g - 8) / 8 + 1) by (rewrite <-(Z.div_add _ 1) by lia; f_equal; lia).
    replace (g mod 8) with ((g - 8) mod 8) by (rewrite <-(Z.mod_add (g - 8) 1) by lia; f_equal; lia).
    rewrite Z2Nat.inj_add by (apply Z.div_pos || lia; lia). rewrite Nat.add_comm. done.
Qed.

(** A free group is found if there is one; its bit, and only its bit, is set. *)
Definition free_spec (cells : list Z) (g : Z) (cells' : list Z) : Prop :=
  length cells' = length cells ∧
  ((g = -1 ∧ cells' = cells ∧ ∀ h, 0 ≤ h < 8 * Z.of_nat (length cells) → group_used cells h = true) ∨
   (0 ≤ g < 8 * Z.of_nat (length cells) ∧ group_used cells g = false ∧
    ∀ h, 0 ≤ h < 8 * Z.of_nat (length cells) →
      group_used cells' h = bool_decide (h = g) || group_used cells h)).

Lemma get_free_range cells i : 0 ≤ i → -1 ≤ (get_free_grp cells i).1.
Proof.
  revert i. induction cells as [|c cells IH]; intros i Hi; [done|]. cbn -[clear_bit].
  destruct (clear_bit 8 c 0) as [j|] eqn:E.
  - apply clear_bit_spec in E; [|done]. cbn. lia.
  - specialize (IH (i + 1) ltac:(lia)). by destruct (get_free_grp cells (i + 1)).
Qed.

Lemma get_free_shift cells i :
  0 ≤ i →
  (get_free_grp cells i).2 = (get_free_grp cells 0).2 ∧
  (get_free_grp cells i).1 =
    if (get_free_grp cells 0).1 =? -1 then -1 else (get_free_grp cells 0).1 + i * 8.
Proof.
  revert i. induction cells as [|c cells IH]; intros i Hi; [done|]. cbn -[clear_bit].
  change (0 + 1) with 1.
  destruct (clear_bit 8 c 0) as [j|] eqn:E.
  - apply clear_bit_spec in E; [|done]. cbn [fst snd]. split; [done|].
    rewrite (proj2 (Z.eqb_neq _ _)); lia.
  - destruct (IH (i + 1)) as [H1 H2], (IH 1) as [H3 H4]; [lia..|].
    pose proof (get_free_range cells 0 ltac:(done)) as Hr. revert H1 H2 H3 H4 Hr.
    destruct (get_free_grp cells (i + 1)), (get_free_grp cells 1), (get_free_grp cells 0) as [g k].
    cbn [fst snd]. intros -> -> -> -> Hr. split; [done|].
    destruct (Z.eqb_spec g (-1)); [done|]. rewrite (proj2 (Z.eqb_neq (g + 1 * 8) _)); lia.
Qed.

Lemma get_free_grp_spec cells : free_spec cells (get_free_grp cells 0).1 (get_free_grp cells 0).2.
Proof.
  induction cells as [|c cells IH].
  { split; [done|]. left. split_and!; [done..|]. cbn. lia. }
  cbn [get_free_grp]. destruct (clear_bit 8 c 0) as [j|] eqn:E.
  - apply clear_bit_spec in E as [Hj Hc]; [|done]. cbn [fst snd]. split; [done|].
    right. rewrite length_cons. split_and!; [lia|lia|rewrite group_used_cons, decide_True by lia; by rewrite Z.mul_0_l|].
    intros h Hh. rewrite !group_used_cons by lia. case_decide.
    + rewrite testbit_u8, Z.lor_spec, Z.shiftl_1_l, Z.pow2_bits_eqb by lia.
      rewrite orb_comm. f_equal. case_bool_decide; lia.
    + by rewrite bool_decide_eq_false_2 by lia.
  - pose proof (clear_bit_none 8 c 0) as Hfull.
    destruct (get_free_shift cells 1) as [H1 H2]; [done|]. change (0 + 1) with 1.
    destruct (get_free_grp cells 1) as [g' k'], (get_free_grp cells 0) as [g k]. cbn in H1, H2, IH |- *.
    subst g' k'. destruct IH as [Hlen [(-> & -> & Hall)|(Hg & Hu & Hk)]]; (split; [cbn; lia|]).
    + left. split_and!; [done..|]. intros h Hh. rewrite group_used_cons by lia. case_decide.
      * apply Hfull; [done..|lia].
      * apply Hall. cbn in *; lia.
    + right. rewrite (proj2 (Z.eqb_neq g (-1))) by lia. split_and!; [lia|cbn; lia| |].
      * rewrite group_used_cons, decide_False by lia. by replace (g + 1 * 8 - 8) with g by lia.
      * intros h Hh. rewrite !group_used_cons by lia. case_decide.
        -- by rewrite bool_decide_eq_false_2 by lia.
        -- rewrite Hk by (cbn in *; lia). f_equal. apply bool_decide_ext. lia.
Qed.

(** Freeing a group clears its bit only; beyond the bitmap it does not return. *)
Lemma PpeSetFreeAcGrp_spec cells g :
  0 ≤ g →
  match PpeSetFreeAcGrp cells g with
  | Ret cells' =>
      g < 8 * Z.of_nat (length cells) ∧ length cells' = length cells ∧
      ∀ h, 0 ≤ h → group_used cells' h = negb (bool_decide (h = g)) && group_used cells h
  | _ => 8 * Z.of_nat (length cells) ≤ g
  end.
Proof.
  intros Hg. unfold PpeSetFreeAcGrp, array_get.
  pose proof (Z.div_pos g 8 Hg ltac:(done)). pose proof (Z.div_mod g 8 ltac:(done)).
  pose proof (Z.mod_pos_bound g 8 ltac:(done)).
  destruct (Z.leb_spec (Z.of_nat (length cells)) (g / 8)); [lia|].
  destruct (cells !! Z.to_nat (g / 8)) as [c|] eqn:Hc; [|apply lookup_ge_None in Hc; lia].
  split_and!; [lia|by rewrite length_insert|]. intros h Hh.
  pose proof (Z.mod_pos_bound h 8 ltac:(done)). pose proof (Z.div_mod h 8 ltac:(done)).
  pose proof (Z.div_pos h 8 Hh ltac:(done)).
  unfold group_used. rewrite !nth_lookup.
  destruct (decide (h / 8 = g / 8)) as [He|Hne].
  - rewrite He, list_lookup_insert_eq by lia. rewrite Hc. unfold default, from_option, id.
    rewrite testbit_u8, Z.land_spec, Z.lnot_spec, Z.shiftl_1_l, Z.pow2_bits_eqb by lia.
    cbn. rewrite andb_comm. do 2 f_equal. case_bool_decide; lia.
  - rewrite list_lookup_insert_ne by lia. rewrite bool_decide_eq_false_2; [done|]. by intros ->.
Qed.

(** * No two rules share a group

    [gs] are the groups of the rules in the list, [none] what a rule has when no
    group was free. *)

Record groups_ok (none : Z) (cells gs : list Z) : Prop := {
  gr_len : length cells = 8%nat;
  gr_used g : g ∈ gs → g = none ∨ (0 ≤ g < 64 ∧ group_used cells g = true);
  gr_nodup : NoDup (filter (λ g, g ≠ none) gs)
}.

Lemma groups_alloc none cells gs trunc :
  trunc (-1) = none → (∀ g, 0 ≤ g < 64 → trunc g = g) → 64 ≤ none →
  groups_ok none cells gs →
  groups_ok none (get_free_grp cells 0).2 (gs ++ [trunc (get_free_grp cells 0).1]).
Proof.
  intros Ht1 Ht2 Hn [Hl Hu Hd]. destruct (get_free_grp_spec cells) as [Hl' Hg].
  destruct (get_free_grp cells 0) as [g cells']; cbn in *. rewrite Hl in Hg.
  destruct Hg as [(-> & -> & _)|(Hg & Hc & Hb)].
  - split; [done| |].
    + intros g [?| ->%list_elem_of_singleton]%elem_of_app; [auto|]. by left.
    + rewrite filter_app, filter_cons, Ht1, decide_False by naive_solver.
      cbn. by rewrite app_nil_r.
  - rewrite Ht2 by lia. split; [congruence| |].
    + intros h [Hh| ->%list_elem_of_singleton]%elem_of_app.
      * destruct (Hu h Hh) as [|[? Hh']]; [auto|]. right. split; [done|].
        rewrite Hb by lia. by rewrite Hh', orb_true_r.
      * right. split; [lia|]. rewrite Hb by lia. by rewrite bool_decide_eq_true_2.
    + rewrite filter_app, filter_cons, decide_True by lia. apply NoDup_app. split_and!; [done| |].
      * intros h [Hne Hh]%list_elem_of_filter ->%list_elem_of_singleton.
        destruct (Hu g Hh) as [|[_ Hh']]; [lia|congruence].
      * apply NoDup_singleton.
Qed.

Lemma groups_free none cells gs i g cells' :
  64 ≤ none → groups_ok none cells gs → gs !! i = Some g → PpeSetFreeAcGrp cells g = Ret cells' →
  groups_ok none cells' (delete i gs).
Proof.
  intros Hn [Hl Hu Hd] Hi Hf.
  assert (Hg : 0 ≤ g) by (destruct (Hu g) as [|[]]; [by eapply list_elem_of_lookup_2|lia..]).
  pose proof (PpeSetFreeAcGrp_spec cells g Hg) as Hs. rewrite Hf, Hl in Hs.
  destruct Hs as (Hlt & Hl' & Hb).
  rewrite delete_take_drop. rewrite <-(take_drop_middle gs i g Hi) in Hu, Hd.
  rewrite filter_app, filter_cons, decide_True in Hd by lia.
  apply NoDup_app in Hd as (Hd1 & Hd2 & Hd3). apply NoDup_cons in Hd3 as [Hg2 Hd3].
  split; [congruence| |].
  - intros h Hh. destruct (Hu h) as [|[Hr Hh']].
    { apply elem_of_app. rewrite elem_of_cons. apply elem_of_app in Hh. tauto. }
    { by left. }
    right. split; [done|]. rewrite Hb by lia. rewrite Hh', bool_decide_eq_false_2; [done|].
    intros ->. apply elem_of_app in Hh as [Hh|Hh].
    + apply (Hd2 g); [apply list_elem_of_filter; split; [lia|done]|by left].
    + apply Hg2, list_elem_of_filter. split; [lia|done].
  - rewrite filter_app. apply NoDup_app. split_and!; [done| |done].
    intros h Hh Hh2. apply (Hd2 h Hh). by right.
Qed.

Lemma groups_clear none cells gs : groups_ok none cells gs → groups_ok none cells [].
Proof. intros [Hl _ _]. split; [done|by intros g ?%elem_of_nil|apply NoDup_nil_2]. Qed.

Lemma groups_init none : groups_ok none (replicate 8 0) [].
Proof. split; [done|by intros g ?%elem_of_nil|apply NoDup_nil_2]. Qed.

Lemma groups_distinct none cells gs :
  groups_ok none cells gs →
  ∀ i j g, gs !! i = Some g → gs !! j = Some g → i = j ∨ g = none.
Proof.
  intros [_ _ Hd]. clear cells. revert Hd. induction gs as [|h gs IH]; intros Hd i j g Hi Hj; [done|].
  destruct (decide (g = none)) as [|Hg]; [by right|]. left. rewrite filter_cons in Hd.
  assert (Hin : ∀ k, gs !! k = Some g → g ∈ filter (λ g, g ≠ none) gs).
  { intros k Hk. apply list_elem_of_filter. split; [done|]. by eapply list_elem_of_lookup_2. }
  assert (NoDup (filter (λ g, g ≠ none) gs)) as Hd'.
  { case_decide; [by apply NoDup_cons in Hd as [_ Hd]|done]. }
  destruct i as [|i], j as [|j]; cbn in *; [done|..].
  - injection Hi as ->. rewrite decide_True in Hd by done. apply NoDup_cons in Hd as [Hd _].
    by destruct (Hd (Hin _ Hj)).
  - injection Hj as ->. rewrite decide_True in Hd by done. apply NoDup_cons in Hd as [Hd _].
    by destruct (Hd (Hin _ Hi)).
  - f_equal. by destruct (IH Hd' i j g Hi Hj).
Qed.
