(* ===== verification/PolicySteps.v ===== *)
(** What a request does to the lists: each handler of the policy engine leaves its
    list alone, adds a node that passed the check, removes one or clears it. *)

From S2P Require Import Prelude PpeRegs Policy PolicyFacts Acl Accounting Metering PolicyEngine PolicyRefine PolicyGroups.

(** The protocol of a general rule comes from the user; the handler does not
    check it. *)
Definition request_ok (r : policy_request) : Prop :=
  match r with ReqAcl cmd opt => cmd = 17 → 0 ≤ aa_L4 opt ≤ 2 | _ => True end.

Section Steps.
Context `{Malloc}.

(** * Access control *)

Inductive acl_change (a : acl) : acl → Prop :=
| acl_kept : acl_change a a
| acl_added n :
    acl_node_ok n →
    PpeGetEnd (acl_ppe a) PRE_ACL + acl_rule_size n < PpeGetStr (acl_ppe a) PRE_MTR →
    acl_change a (SyncAclTbl (a ⦃ AclPlcyList := AclPlcyList a ++ [n] ⦄)).2
| acl_removed i n :
    AclPlcyList a !! i = Some n →
    acl_change a (SyncAclTbl (a ⦃ AclPlcyList := delete i (AclPlcyList a) ⦄)).2
| acl_cleaned : acl_change a (AclCleanTbl a).

Lemma acl_add_change a n Proto :
  acl_node_ok (n ⦃ acl_Proto := Proto ⦄) → acl_change a (RunIoctlAddHandler a n Proto).2.
Proof.
  intros Hn. unfold RunIoctlAddHandler. set (m := n ⦃ acl_Proto := Proto ⦄) in *.
  destruct (negb _) eqn:Hb; [|constructor]. unfold AclAddNode, AclBndryCheck in *.
  destruct (AclExistNode a m) as [x|]; [constructor|].
  destruct (negb (malloc_ok _)); [constructor|].
  apply acl_added; [done..|]. case_match; [done|lia].
Qed.

Lemma acl_del_change a n Proto : acl_change a (RunIoctlDelHandler a n Proto).2.
Proof.
  unfold RunIoctlDelHandler, AclDelNode. destruct (list_find _ _) as [[i x]|] eqn:E; [|constructor].
  apply list_find_Some in E as (E & _). by eapply acl_removed.
Qed.

Lemma AclIoctl_change a cmd opt :
  request_ok (ReqAcl cmd opt) → acl_change a (AclIoctl a cmd opt).2.
Proof.
  intros Hr. cbn in Hr.
  unfold AclIoctl, ACL_ADD_SDMAC_ANY, ACL_ADD_ETYPE_ANY, ACL_DEL_SDMAC_ANY, ACL_DEL_ETYPE_ANY,
    ACL_ADD_SMAC_DIP_ANY, ACL_ADD_SIP_DIP_ANY, ACL_DEL_SMAC_DIP_ANY, ACL_DEL_SIP_DIP_ANY,
    ACL_ADD_SMAC_DIP_TCP, ACL_ADD_SIP_DIP_TCP, ACL_DEL_SMAC_DIP_TCP, ACL_DEL_SIP_DIP_TCP,
    ACL_ADD_SMAC_DIP_UDP, ACL_ADD_SIP_DIP_UDP, ACL_DEL_SMAC_DIP_UDP, ACL_DEL_SIP_DIP_UDP,
    ACL_ADD_SMAC_DMAC_ETYPE_VID_SIP_DIP_TOS_PORT, ACL_DEL_SMAC_DMAC_ETYPE_VID_SIP_DIP_TOS_PORT.
  assert (Hadd : ∀ Proto, acl_is_add cmd = true → (cmd = 17 → Proto = aa_L4 opt) →
    acl_change a (RunIoctlAddHandler a (acl_ioctl_node cmd opt) Proto).2).
  { intros Proto Ha Hp. assert (Hc : u16 cmd = cmd).
    { unfold acl_is_add in Ha. cbn in Ha. unfold u16. rewrite Z.mod_small; lia. }
    apply acl_add_change. split; cbn; rewrite ?Hc; [done| |done]. naive_solver. }
  pose proof (acl_del_change a (acl_ioctl_node cmd opt)) as Hdel.
  repeat (case_match; [solve [apply Hdel|apply Hadd; [unfold acl_is_add; cbn; lia|done || lia]|apply acl_cleaned|apply acl_kept]|]).
  apply acl_kept.
Qed.

(** * Accounting *)

Definition ac_max (p : ppe) (n : AcPlcyNode) : Z :=
  if ac_is_pre n then PpeGetStr p POST_MTR else 511.

Inductive ac_change (a : ac) : ac → Prop :=
| ac_kept : ac_change a a
| ac_added n :
    ac_node_ok n → PpeGetEnd (ac_ppe a) (ac_where n) + 1 < ac_max (ac_ppe a) n →
    ac_change a (SyncAcTbl (a ⦃ AcFreeList := (PpeGetFreeAcGrp (AcFreeList a)).2 ⦄
      ⦃ AcPlcyList := AcPlcyList a ++ [n ⦃ ac_AgIdx := u8 (PpeGetFreeAcGrp (AcFreeList a)).1 ⦄] ⦄))
| ac_removed i n cells :
    AcPlcyList a !! i = Some n → PpeSetFreeAcGrp (AcFreeList a) (ac_AgIdx n) = Ret cells →
    ac_change a (SyncAcTbl (a ⦃ AcFreeList := cells ⦄ ⦃ AcPlcyList := delete i (AcPlcyList a) ⦄))
| ac_cleaned : ac_change a (AcCleanTbl a).

(** The parameters of a command that adds: one of the two types and three kinds. *)
Lemma AcParam_add cmd t rt_ :
  array_get AcParam cmd = Some (t, rt_) → is_ac_add cmd = true → (t = 0 ∨ t = 1) ∧ 0 ≤ rt_ ≤ 2.
Proof.
  intros Ha Hc. unfold is_ac_add in Hc. cbn in Hc.
  assert (cmd = 0 ∨ cmd = 1 ∨ cmd = 4 ∨ cmd = 5 ∨ cmd = 8 ∨ cmd = 9) as Hcs by lia.
  destruct Hcs as [-> |[-> |[-> |[-> |[-> | ->]]]]]; cbn in Ha; injection Ha as <- <-;
    unfold TYPE_PRE_AC, TYPE_POST_AC, AC_MAC_GROUP, AC_IP_GROUP, AC_VLAN_GROUP; lia.
Qed.

Lemma AcAddNode_change a n :
  ac_node_ok n → ac_Type n = 0 ∨ ac_Type n = 1 → AcBndryCheck a n ≠ AC_TBL_FULL →
  ac_change a (AcAddNode a n).2.
Proof.
  intros Hn Ht Hb. unfold AcAddNode, AcBndryCheck in *.
  destruct (AcExistNode a n); [constructor|]. destruct (negb (malloc_ok _)); [constructor|].
  pose proof (ac_added a n Hn) as Hadd. destruct (PpeGetFreeAcGrp _) as [g cells]. apply Hadd.
  unfold ac_max, ac_where, ac_is_pre, TYPE_PRE_AC, TYPE_POST_AC in *.
  destruct Ht as [E|E]; rewrite E in *; cbn in *; case_match; done || lia.
Qed.

Lemma AcIoctl_change a cmd opt mac r a' : AcIoctl a cmd opt = Ret (mac, r, a') → ac_change a a'.
Proof.
  unfold AcIoctl. destruct (array_get AcParam cmd) as [[t rt_]|] eqn:Hp; [|done].
  set (n := Build_AcPlcyNode _ _ _ _ _ _ _).
  destruct (is_ac_add cmd) eqn:Hadd.
  { apply AcParam_add in Hp as [Ht Hrt]; [|done].
    pose proof (AcAddNode_change a n Hrt Ht) as Hc. destruct (Z.eqb_spec (AcBndryCheck a n) AC_TBL_FULL); cbn.
    - intros [= _ _ <-]. constructor.
    - destruct (AcAddNode a n). intros [= _ _ <-]. auto. }
  destruct (is_ac_del cmd).
  { unfold AcDelNode. destruct (list_find _ _) as [[i x]|] eqn:E; cbn.
    - apply list_find_Some in E as (E & _).
      destruct (PpeSetFreeAcGrp _ _) as [cells| | ] eqn:Hf; cbn; intros [= _ _ <-].
      by eapply ac_removed.
    - intros [= _ _ <-]. constructor. }
  destruct (is_ac_pkt cmd); [intros [= _ _ <-]; constructor|].
  destruct (is_ac_byte cmd); [intros [= _ _ <-]; constructor|].
  destruct (cmd =? AC_CLEAN_TBL); intros [= _ _ <-]; [apply ac_cleaned|constructor].
Qed.

(** * Metering *)

Definition mtr_max (p : ppe) : Z := PpeGetStr p POST_AC.

Inductive mtr_change (a : mtr) : mtr → Prop :=
| mtr_kept : mtr_change a a
| mtr_changed i info :
    mtr_change a (SyncMtrTbl (a ⦃ MtrPlcyList := alter (λ n, n ⦃ mtr_info := info ⦄) i (MtrPlcyList a) ⦄))
| mtr_added n :
    0 ≤ mtr_RuleType n ≤ 5 → (2 ≤ mtr_RuleType n → mtr_is_pre n = true) →
    PpeGetEnd (mtr_ppe a) (mtr_where n) + 1 < mtr_max (mtr_ppe a) →
    mtr_change a (SyncMtrTbl (a ⦃ MtrFreeList := (PpeGetFreeMtrGrp (MtrFreeList a)).2 ⦄
      ⦃ MtrPlcyList := MtrPlcyList a ++ [n ⦃ mtr_MgNum := u32 (PpeGetFreeMtrGrp (MtrFreeList a)).1 ⦄] ⦄))
| mtr_removed i n cells :
    MtrPlcyList a !! i = Some n → PpeSetFreeMtrGrp (MtrFreeList a) (mtr_MgNum n) = Ret cells →
    mtr_change a (SyncMtrTbl (a ⦃ MtrFreeList := cells ⦄ ⦃ MtrPlcyList := delete i (MtrPlcyList a) ⦄))
| mtr_cleaned : mtr_change a (MtrCleanTbl a).

Lemma MtrParam_add cmd t rt_ :
  array_get MtrParam cmd = Some (t, rt_) → is_mtr_add cmd = true →
  (t = 0 ∨ t = 1) ∧ 0 ≤ rt_ ≤ 5 ∧ (2 ≤ rt_ → t = 0).
Proof.
  intros Ha Hc. unfold is_mtr_add in Hc. cbn in Hc.
  assert (cmd = 0 ∨ cmd = 1 ∨ cmd = 4 ∨ cmd = 5 ∨ cmd = 8 ∨ cmd = 10 ∨ cmd = 12 ∨ cmd = 14) as Hcs by lia.
  destruct Hcs as [-> |[-> |[-> |[-> |[-> |[-> |[-> | ->]]]]]]]; cbn in Ha;
    injection Ha as <- <-; unfold TYPE_PRE_MTR, TYPE_POST_MTR, MTR_MAC_GROUP, MTR_IP_GROUP, MTR_SYN,
      MTR_FIN, MTR_PROTOCOL_UDP, MTR_PROTOCOL_ICMP; lia.
Qed.

Lemma MtrAddNode_change a n :
  0 ≤ mtr_RuleType n ≤ 5 → (2 ≤ mtr_RuleType n → mtr_Type n = 0) →
  mtr_Type n = 0 ∨ mtr_Type n = 1 → MtrBndryCheck a n ≠ MTR_TBL_FULL →
  mtr_change a (MtrAddNode a n).2.
Proof.
  intros Hr Hp Ht Hb. unfold MtrAddNode, MtrBndryCheck in *.
  destruct (MtrExistNode a n); [apply mtr_changed|]. destruct (negb (malloc_ok _)); [constructor|].
  pose proof (mtr_added a n Hr) as Hadd. destruct (PpeGetFreeMtrGrp _) as [g cells]. apply Hadd.
  - unfold mtr_is_pre, TYPE_PRE_MTR. intros H2. by rewrite (Hp H2).
  - unfold mtr_max, mtr_where, mtr_is_pre, TYPE_PRE_MTR, TYPE_POST_MTR in *.
    destruct Ht as [E|E]; rewrite E in *; cbn in *; case_match; done || lia.
Qed.

Lemma MtrIoctl_change a cmd opt mac r a' : MtrIoctl a cmd opt = Ret (mac, r, a') → mtr_change a a'.
Proof.
  unfold MtrIoctl. destruct (array_get MtrParam cmd) as [[t rt_]|] eqn:Hp; [|done].
  set (n := Build_MtrPlcyNode _ _ _ _ _ _ _).
  destruct (is_mtr_add cmd) eqn:Hadd.
  { apply MtrParam_add in Hp as (Ht & Hrt & Hpre); [|done].
    pose proof (MtrAddNode_change a n Hrt Hpre Ht) as Hc.
    destruct (Z.eqb_spec (MtrBndryCheck a n) MTR_TBL_FULL); cbn.
    - intros [= _ _ <-]. constructor.
    - destruct (MtrAddNode a n). intros [= _ _ <-]. auto. }
  destruct (is_mtr_del cmd).
  { unfold MtrDelNode. destruct (list_find _ _) as [[i x]|] eqn:E; cbn.
    - apply list_find_Some in E as (E & _).
      destruct (PpeSetFreeMtrGrp _ _) as [cells| | ] eqn:Hf; cbn; intros [= _ _ <-].
      by eapply mtr_removed.
    - intros [= _ _ <-]. constructor. }
  destruct (cmd =? MTR_CLEAN_TBL); [intros [= _ _ <-]; apply mtr_cleaned|].
  destruct (cmd =? MTR_GET_ALL_ENTRIES); intros [= _ _ <-]; constructor.
Qed.
End Steps.
