(* ===== verification/PolicyInv.v ===== *)
(** The invariants of the policy engine: the nodes are well formed, no two rules
    share a group, and the memory tracks the lists. *)

From S2P Require Import Prelude PpeRegs Policy PolicyFacts Acl Accounting Metering PolicyEngine PolicyRefine PolicyGroups PolicySteps.

(** * The lists *)

Record lists_ok (e : engine) : Prop := {
  lo_acl : Forall acl_node_ok (e_acl e);
  lo_ac : Forall ac_node_ok (e_ac e);
  lo_mtr : Forall mtr_node_ok (e_mtr e);
  lo_ac_groups : groups_ok 255 (e_ac_free e) (ac_AgIdx <$> e_ac e);
  lo_mtr_groups : groups_ok 0xFFFFFFFF (e_mtr_free e) (mtr_MgNum <$> e_mtr e)
}.

Lemma AclPlcyList_Sync a : AclPlcyList (SyncAclTbl a).2 = AclPlcyList a.
Proof. unfold SyncAclTbl. by destruct (last _). Qed.

Lemma Forall_delete {A} (P : A → Prop) i l : Forall P l → Forall P (delete i l).
Proof.
  intros H. rewrite delete_take_drop. apply Forall_app. split; [by apply Forall_take|by apply Forall_drop].
Qed.

Lemma acl_change_ok `{Malloc} a a' :
  acl_change a a' → Forall acl_node_ok (AclPlcyList a) → Forall acl_node_ok (AclPlcyList a').
Proof.
  intros [| n Hn _ | i n _ |] Hl; [done|rewrite AclPlcyList_Sync; cbn..|constructor].
  - apply Forall_app. auto.
  - by apply Forall_delete.
Qed.

Lemma fmap_delete {A B} (f : A → B) i (l : list A) : f <$> delete i l = delete i (f <$> l).
Proof. by rewrite !delete_take_drop, fmap_app, fmap_take, fmap_drop. Qed.

Lemma ac_change_ok `{Malloc} a a' :
  ac_change a a' →
  Forall ac_node_ok (AcPlcyList a) → groups_ok 255 (AcFreeList a) (ac_AgIdx <$> AcPlcyList a) →
  Forall ac_node_ok (AcPlcyList a') ∧ groups_ok 255 (AcFreeList a') (ac_AgIdx <$> AcPlcyList a').
Proof.
  intros [| n Hn _ | i n cells Hi Hf |] Hl Hg; [done|cbn..].
  - split; [apply Forall_app; auto|]. rewrite fmap_app. cbn.
    apply (groups_alloc 255 _ _ u8); [done| |done..]. intros g ?. unfold u8. by apply Z.mod_small; lia.
  - split; [by apply Forall_delete|]. rewrite fmap_delete.
    eapply (groups_free 255 (AcFreeList a)); [done..| |done]. by rewrite list_lookup_fmap, Hi.
  - split; [constructor|]. by eapply groups_clear.
Qed.

Lemma Forall_alter_info (i : nat) info (l : list MtrPlcyNode) :
  Forall mtr_node_ok l → Forall mtr_node_ok (alter (λ n, n ⦃ mtr_info := info ⦄) i l).
Proof. intros Hl. apply Forall_alter; [done|]. intros n _ [H1 H2 H3]. by split. Qed.

Lemma fmap_alter_info (i : nat) info (l : list MtrPlcyNode) :
  mtr_MgNum <$> alter (λ n, n ⦃ mtr_info := info ⦄) i l = mtr_MgNum <$> l.
Proof.
  apply list_eq. intros j. rewrite !list_lookup_fmap.
  destruct (decide (i = j)) as [<-|]; [rewrite list_lookup_alter_eq; by destruct (l !! i)|].
  by rewrite list_lookup_alter_ne.
Qed.

Lemma mtr_change_ok `{Malloc} a a' :
  mtr_change a a' →
  Forall mtr_node_ok (MtrPlcyList a) → groups_ok 0xFFFFFFFF (MtrFreeList a) (mtr_MgNum <$> MtrPlcyList a) →
  Forall mtr_node_ok (MtrPlcyList a') ∧
  groups_ok 0xFFFFFFFF (MtrFreeList a') (mtr_MgNum <$> MtrPlcyList a').
Proof.
  intros [| i info | n Hr Hp _ | i n cells Hi Hf |] Hl Hg; [done|cbn..].
  - split; [by apply Forall_alter_info|].
    rewrite <-(fmap_alter_info i info) in Hg. exact Hg.
  - assert (Hg' : groups_ok 0xFFFFFFFF (get_free_grp (MtrFreeList a) 0).2
      ((mtr_MgNum <$> MtrPlcyList a) ++ [u32 (get_free_grp (MtrFreeList a) 0).1])).
    { apply groups_alloc; [done| |done..]. intros g ?. unfold u32. by apply Z.mod_small; lia. }
    split; [|by rewrite fmap_app].
    apply Forall_app. split; [done|]. apply Forall_singleton. split; [done..|]. cbn.
    destruct (gr_used _ _ _ Hg' (u32 (get_free_grp (MtrFreeList a) 0).1)) as [|[]];
      [apply elem_of_app; right; by left|by right|by left].
  - split; [by apply Forall_delete|]. rewrite fmap_delete.
    eapply (groups_free 0xFFFFFFFF (MtrFreeList a)); [done..| |done]. by rewrite list_lookup_fmap, Hi.
  - split; [constructor|]. by eapply groups_clear.
Qed.

(** What a request does to the engine. *)
Inductive engine_change `{Malloc} (e : engine) : engine → Prop :=
| change_acl a : acl_change (acl_of e) a → engine_change e (put_acl e a)
| change_ac a : ac_change (ac_of e) a → engine_change e (put_ac e a)
| change_mtr a : mtr_change (mtr_of e) a → engine_change e (put_mtr e a).

Lemma engine_step_change `{Malloc} e r e' :
  request_ok r → engine_step e r = Ret e' → engine_change e e'.
Proof.
  destruct r as [cmd opt|cmd opt|cmd opt]; intros Hr; unfold engine_step.
  - intros [= <-]. constructor. by apply AclIoctl_change.
  - destruct (AcIoctl _ _ _) as [[[mac r] a]| | ] eqn:E; cbn; intros [= <-].
    constructor. by eapply AcIoctl_change.
  - destruct (MtrIoctl _ _ _) as [[[mac r] a]| | ] eqn:E; cbn; intros [= <-].
    constructor. by eapply MtrIoctl_change.
Qed.

Lemma engine_change_ok `{Malloc} e e' : engine_change e e' → lists_ok e → lists_ok e'.
Proof.
  intros [a Ha|a Ha|a Ha] [H1 H2 H3 H4 H5].
  - split; cbn; try done. by apply (acl_change_ok _ _ Ha).
  - destruct (ac_change_ok _ _ Ha) as [? ?]; [done..|]. by split.
  - destruct (mtr_change_ok _ _ Ha) as [? ?]; [done..|]. by split.
Qed.

(** * The memory *)

Definition tracks (pre : ppe → contents → Prop) (Q : ppe → contents → enables → Prop) (e : engine) : Prop :=
  layout_ok (e_ppe e) ∧ pre (e_ppe e) (rules_of e) ∧ Q (e_ppe e) (rules_of e) (enabled_of e).

Section Tracked.
Context `{Malloc} {pre : ppe → contents → Prop} {Q : ppe → contents → enables → Prop} `{!Tracks pre Q}.

Lemma acl_change_tracked e a :
  acl_change (acl_of e) a → lists_ok e → tracks pre Q e →
  pre (e_ppe e) (rules_of (put_acl e a)) →
  Q (acl_ppe a) (rules_of (put_acl e a)) (enabled_of (put_acl e a)) ∧ same_start (e_ppe e) (acl_ppe a).
Proof.
  intros Hc Hok (Hl & Hp & HQ) Hp'.
  assert (Hsync : ∀ l, Forall acl_node_ok l →
    let a := (SyncAclTbl {| acl_ppe := e_ppe e; AclPlcyList := l |}).2 in
    pre (e_ppe e) (rules_of (put_acl e a)) →
    Q (acl_ppe a) (rules_of (put_acl e a)) (enabled_of (put_acl e a)) ∧ same_start (e_ppe e) (acl_ppe a)).
  { intros l Hl' a' Hp''. 
    assert (Hput : ∀ t, put (rules_of e) PRE_ACL (acl_rules l) t = rules_of (put_acl e a') t).
    { intros []; cbn; try done. unfold a'. by rewrite AclPlcyList_Sync. }
    destruct (SyncAclTbl_tracked {| acl_ppe := e_ppe e; AclPlcyList := l |} (rules_of e) (enabled_of e))
      as [HQ' Hs]; cbn -[SyncAclTbl]; [done..| |done|].
    - eapply pre_ext; [|exact Hp'']. intros t. by rewrite Hput.
    - split; [|done]. eapply tr_ext; [exact Hput| |exact HQ'].
      intros []; cbn -[SyncAclTbl]; try done. unfold a'. by rewrite AclPlcyList_Sync. }
  assert (Hwf := acl_change_ok _ _ Hc (lo_acl _ Hok)).
  destruct Hc as [| n Hn _ | i n _ |].
  - split; [|done]. by destruct e.
  - apply Hsync; [by rewrite AclPlcyList_Sync in Hwf|done].
  - apply Hsync; [by rewrite AclPlcyList_Sync in Hwf|done].
  - by apply (Hsync []).
Qed.

(** A table is enabled if it has rules. *)
Lemma enable_if (b : bool) p f en t :
  layout_ok p → pre p f → Q p f en →
  let p' := if b then PpeSetEbl p t true else p in
  Q p' f (upd en t (b || en t)) ∧ same_start p p'.
Proof using Tracks0.
  intros Hl Hp HQ. destruct b; cbn.
  - split; [by apply tr_enable|intros; by autorewrite with ppe].
  - split; [|done]. eapply tr_ext; [..|exact HQ]; [done|].
    intros t'. unfold upd. by case_decide; subst.
Qed.


Lemma SyncAcTbl_tracked e l cells :
  Forall ac_node_ok l → tracks pre Q e →
  let a := SyncAcTbl {| ac_ppe := e_ppe e; AcPlcyList := l; AcFreeList := cells |} in
  pre (e_ppe e) (rules_of (put_ac e a)) →
  Q (ac_ppe a) (rules_of (put_ac e a)) (enabled_of (put_ac e a)) ∧ same_start (e_ppe e) (ac_ppe a).
Proof using Tracks0.
  intros Hok (Hl & Hp & HQ) a Hp'.
  assert (Hput : ∀ t, two ac_is_pre ac_rule PRE_AC POST_AC (rules_of e) l t = rules_of (put_ac e a) t)
    by (by intros []).
  assert (Hp2 : pre (e_ppe e) (two ac_is_pre ac_rule PRE_AC POST_AC (rules_of e) l)).
  { eapply pre_ext; [|exact Hp']. intros t. by rewrite Hput. }
  destruct (two_tracked ac_is_pre ac_rule PRE_AC POST_AC ltac:(done) ac_ins_node ac_node_ok (e_ppe e)
    (rules_of e) (enabled_of e) l) as [HQ1 Hs1]; [apply ac_writes|done..|].
  set (p1 := foldl _ _ _) in *.
  destruct (enable_if (existsb ac_is_pre l) p1 _ _ PRE_AC (layout_start _ _ Hs1 Hl)
    (pre_start _ _ _ Hs1 Hp2) HQ1) as [HQ2 Hs2].
  set (p2 := if existsb _ _ then _ else _) in *.
  assert (Hs12 : same_start (e_ppe e) p2) by (intros t; by rewrite Hs2, Hs1).
  destruct (enable_if (existsb (λ n, negb (ac_is_pre n)) l) p2 _ _ POST_AC (layout_start _ _ Hs12 Hl)
    (pre_start _ _ _ Hs12 Hp2) HQ2) as [HQ3 Hs3].
  split; [|intros t; rewrite <-Hs12; apply Hs3].
  eapply tr_ext; [exact Hput| |exact HQ3].
  rewrite (existsb_nonempty ac_is_pre ac_rule _ true) by (intros n; by destruct (ac_is_pre n)).
  rewrite (existsb_nonempty ac_is_pre ac_rule _ false) by (intros n; by destruct (ac_is_pre n)).
  intros []; unfold upd; cbn; by rewrite ?orb_false_r.
Qed.

Lemma ac_change_tracked e a :
  ac_change (ac_of e) a → lists_ok e → tracks pre Q e →
  pre (e_ppe e) (rules_of (put_ac e a)) →
  Q (ac_ppe a) (rules_of (put_ac e a)) (enabled_of (put_ac e a)) ∧ same_start (e_ppe e) (ac_ppe a).
Proof using H Tracks0.
  intros Hc Hok Ht Hp'.
  assert (Hwf := ac_change_ok _ _ Hc (lo_ac _ Hok) (lo_ac_groups _ Hok)).
  destruct Hc as [| n Hn _ | i n cells _ _ |].
  - destruct Ht as (_ & _ & HQ). split; [|done]. by destruct e.
  - by apply SyncAcTbl_tracked; [apply Hwf|..].
  - by apply SyncAcTbl_tracked; [apply Hwf|..].
  - by apply (SyncAcTbl_tracked e [] (e_ac_free e)).
Qed.

(** The meters behind routing stay disabled when there are some before it. *)
Lemma SyncMtrTbl_tracked e l cells :
  Forall mtr_node_ok l → tracks pre Q e →
  let a := SyncMtrTbl {| mtr_ppe := e_ppe e; MtrPlcyList := l; MtrFreeList := cells |} in
  pre (e_ppe e) (rules_of (put_mtr e a)) →
  Q (mtr_ppe a) (rules_of (put_mtr e a)) (enabled_of (put_mtr e a)) ∧ same_start (e_ppe e) (mtr_ppe a).
Proof using Tracks0.
  intros Hok (Hl & Hp & HQ) a Hp'.
  assert (Hput : ∀ t, two mtr_is_pre mtr_rule PRE_MTR POST_MTR (rules_of e) l t = rules_of (put_mtr e a) t)
    by (by intros []).
  assert (Hp2 : pre (e_ppe e) (two mtr_is_pre mtr_rule PRE_MTR POST_MTR (rules_of e) l)).
  { eapply pre_ext; [|exact Hp']. intros t. by rewrite Hput. }
  destruct (two_tracked mtr_is_pre mtr_rule PRE_MTR POST_MTR ltac:(done) mtr_ins_node mtr_node_ok (e_ppe e)
    (rules_of e) (enabled_of e) l) as [HQ1 Hs1]; [apply mtr_writes|done..|].
  set (p1 := foldl _ _ _) in *.
  assert (mtr_ppe a = if existsb mtr_is_pre l then PpeSetEbl p1 PRE_MTR true else
    if existsb (λ n, negb (mtr_is_pre n)) l then PpeSetEbl p1 POST_MTR true else p1) as -> by done.
  assert (Hl1 : layout_ok p1) by (by eapply layout_start).
  assert (Hq1 := pre_start _ _ _ Hs1 Hp2).
  assert (Hen : ∀ t, enabled_of (put_mtr e a) t =
    upd (upd (enabled_of e) PRE_MTR (existsb mtr_is_pre l)) POST_MTR
      (existsb (λ n, negb (mtr_is_pre n)) l && negb (existsb mtr_is_pre l)) t).
  { rewrite (existsb_nonempty mtr_is_pre mtr_rule _ true) by (intros n; by destruct (mtr_is_pre n)).
    rewrite (existsb_nonempty mtr_is_pre mtr_rule _ false) by (intros n; by destruct (mtr_is_pre n)).
    by intros []. }
  destruct (existsb mtr_is_pre l); [|destruct (existsb _ l)].
  - split; [|intros; autorewrite with ppe; apply Hs1].
    eapply tr_ext; [exact Hput| |by apply tr_enable].
    intros t. rewrite Hen, andb_false_r. unfold upd. by destruct t.
  - split; [|intros; autorewrite with ppe; apply Hs1].
    eapply tr_ext; [exact Hput| |by apply tr_enable]. intros t. rewrite Hen. unfold upd. by destruct t.
  - split; [|apply Hs1]. eapply tr_ext; [exact Hput| |exact HQ1]. intros t. by rewrite Hen.
Qed.

Lemma mtr_change_tracked e a :
  mtr_change (mtr_of e) a → lists_ok e → tracks pre Q e →
  pre (e_ppe e) (rules_of (put_mtr e a)) →
  Q (mtr_ppe a) (rules_of (put_mtr e a)) (enabled_of (put_mtr e a)) ∧ same_start (e_ppe e) (mtr_ppe a).
Proof using H Tracks0.
  intros Hc Hok Ht Hp'.
  assert (Hwf := mtr_change_ok _ _ Hc (lo_mtr _ Hok) (lo_mtr_groups _ Hok)).
  destruct Hc as [| i info | n Hn _ | i n cells _ _ |].
  - destruct Ht as (_ & _ & HQ). split; [|done]. by destruct e.
  - by apply SyncMtrTbl_tracked; [apply Hwf|..].
  - by apply SyncMtrTbl_tracked; [apply Hwf|..].
  - by apply SyncMtrTbl_tracked; [apply Hwf|..].
  - by apply (SyncMtrTbl_tracked e [] (e_mtr_free e)).
Qed.

Lemma engine_change_tracked e e' :
  engine_change e e' → lists_ok e → tracks pre Q e → pre (e_ppe e) (rules_of e') →
  tracks pre Q e' ∧ same_start (e_ppe e) (e_ppe e').
Proof using H Tracks0.
  intros Hc Hok Ht Hp.
  assert (Q (e_ppe e') (rules_of e') (enabled_of e') ∧ same_start (e_ppe e) (e_ppe e')) as [HQ Hs].
  { destruct Hc; [by apply acl_change_tracked|by apply ac_change_tracked|by apply mtr_change_tracked]. }
  split; [|done]. destruct Ht as (Hl & _). split_and!; [by eapply layout_start|by eapply pre_start|done].
Qed.
End Tracked.
