(* ===== verification/PolicyBounds.v ===== *)
(** How far the tables of the policy engine can grow, and the state the module
    starts in. *)

From S2P Require Import Prelude PpeRegs Policy PolicyFacts Acl Accounting Metering PolicyEngine PolicyRefine PolicyGroups PolicySteps PolicyInv.

(** * The initial state *)

(** Sizes of the tables that fit in the policy memory. *)
Definition sizes_ok (pre_acl pre_mtr pre_ac post_mtr post_ac : Z) : Prop :=
  0 ≤ pre_acl ≤ 508 ∧ 0 ≤ pre_mtr ∧ 0 ≤ pre_ac ∧ 0 ≤ post_mtr ∧ 0 ≤ post_ac ∧
  pre_acl + pre_mtr + pre_ac + post_mtr + post_ac ≤ 511.

Lemma table_start_SetRuleSize p s1 s2 s3 s4 s5 t :
  table_start (PpeSetRuleSize p s1 s2 s3 s4 s5) t =
    match t with
    | PRE_ACL => 0 | PRE_MTR => s1 | PRE_AC => s1 + s2 | POST_MTR => s1 + s2 + s3
    | POST_AC => s1 + s2 + s3 + s4
    end.
Proof. unfold PpeSetRuleSize. cbn zeta. autorewrite with ppe. destruct t; cbn; lia. Qed.

Lemma table_start_start p t : table_start (policy_start p) t = table_start p t.
Proof. unfold policy_start. by autorewrite with ppe. Qed.

Lemma holds_start p : layout_ok p → holds (policy_start p) (λ _, []) (λ _, false).
Proof.
  intros Hl. pose proof (layout_order p Hl). 
  assert (Hr : ∀ t, 0 ≤ table_start p t < 512) by (intros; by apply layout_start_range).
  unfold policy_start. split.
  - intros t. 
    assert (Hne : ∀ q t', t ≠ t' → same_start p q → table_holds q t [] →
      table_holds (PpeSetEbl q t' false) t []).
    { intros q t' Ht Hs Hq. eapply table_holds_same; [done|]. apply same_table_Ebl; [auto|].
      unfold in_bounds. rewrite Hs. specialize (Hr t). cbn. lia. }
    assert (Heq : ∀ q, same_start p q → table_holds (PpeSetEbl q t false) t []).
    { intros q Hs. apply table_holds_disable. by rewrite Hs. }
    destruct (decide (t = POST_AC)) as [->|]; [apply Heq; intros; by autorewrite with ppe|].
    apply Hne; [done|intros; by autorewrite with ppe|].
    destruct (decide (t = PRE_AC)) as [->|]; [apply Heq; intros; by autorewrite with ppe|].
    apply Hne; [done|intros; by autorewrite with ppe|].
    destruct (decide (t = POST_MTR)) as [->|]; [apply Heq; intros; by autorewrite with ppe|].
    apply Hne; [done|intros; by autorewrite with ppe|].
    destruct (decide (t = PRE_MTR)) as [->|]; [apply Heq; intros; by autorewrite with ppe|].
    apply Hne; [done|intros; by autorewrite with ppe|]. by destruct t; try done; apply Heq.
  - intros t. destruct (decide (t = POST_AC)) as [->|]; [apply table_enabled_Ebl|].
    apply table_enabled_Ebl_ne; [done|].
    destruct (decide (t = PRE_AC)) as [->|]; [apply table_enabled_Ebl|].
    apply table_enabled_Ebl_ne; [done|].
    destruct (decide (t = POST_MTR)) as [->|]; [apply table_enabled_Ebl|].
    apply table_enabled_Ebl_ne; [done|].
    destruct (decide (t = PRE_MTR)) as [->|]; [apply table_enabled_Ebl|].
    apply table_enabled_Ebl_ne; [done|]. destruct t; try done; apply table_enabled_Ebl.
Qed.

Section Init.
Context (p : ppe) (s1 s2 s3 s4 s5 : Z) (Hs : sizes_ok s1 s2 s3 s4 s5).

Lemma layout_init : layout_ok (PpeSetRuleSize p s1 s2 s3 s4 s5).
Proof using Hs.
  intros t. destruct Hs as (? & ? & ? & ? & ? & ?). rewrite table_start_SetRuleSize.
  pose proof (table_start_SetRuleSize p s1 s2 s3 s4 s5) as Ht.
  pose proof (Ht PRE_MTR). pose proof (Ht PRE_AC). pose proof (Ht POST_MTR). pose proof (Ht POST_AC).
  destruct t; cbn in *; lia.
Qed.

Lemma engine_init_rules t : rules_of (engine_init p s1 s2 s3 s4 s5) t = [].
Proof. by destruct t. Qed.
Lemma engine_init_enabled t : enabled_of (engine_init p s1 s2 s3 s4 s5) t = false.
Proof. by destruct t. Qed.

Lemma engine_init_ppe :
  e_ppe (engine_init p s1 s2 s3 s4 s5) = policy_start (PpeSetRuleSize p s1 s2 s3 s4 s5).
Proof. done. Qed.

Lemma start_fit q f :
  layout_ok q → (∀ t, f t = []) → layout_ok (policy_start q) ∧ fit (policy_start q) f.
Proof.
  intros Hl Hf. split; [eapply layout_start; [|exact Hl]; apply table_start_start|].
  apply (fit_start q); [apply table_start_start|]. intros t. rewrite Hf. cbn. specialize (Hl t). lia.
Qed.

Lemma engine_init_tracks : tracks fit holds (engine_init p s1 s2 s3 s4 s5).
Proof using Hs.
  unfold tracks. rewrite engine_init_ppe.
  destruct (start_fit _ (rules_of (engine_init p s1 s2 s3 s4 s5)) layout_init engine_init_rules).
  split; [done|split; [done|]].
  eapply tr_ext; [..|by apply holds_start, layout_init].
  - intros. by rewrite engine_init_rules.
  - intros. by rewrite engine_init_enabled.
Qed.

Lemma engine_init_points : tracks (λ _ _, True) points (engine_init p s1 s2 s3 s4 s5).
Proof using Hs.
  destruct engine_init_tracks as (Hl & _ & [Hc _]). split_and!; [done..|]. intros t.
  destruct (Hc t) as [H1 H2 _]. split; [done|]. rewrite H2, engine_init_rules. symmetry.
  apply Z.mod_small. pose proof (layout_start_range _ t Hl). cbn in *. lia.
Qed.

Lemma engine_init_lists : lists_ok (engine_init p s1 s2 s3 s4 s5).
Proof. split; [constructor..| |]; apply groups_init. Qed.
End Init.

(** * Growth *)

Lemma length_chain n cs : length (chain n cs) = length cs.
Proof. induction cs as [|c [|d cs] IH]; [done..|]. cbn in *. by rewrite IH. Qed.

Lemma length_used l : (length (used_conds l) ≤ length l)%nat.
Proof. unfold used_conds. rewrite length_fmap. apply length_filter. Qed.

(** The check counts seven entries for a general rule, which has up to nine. *)
Lemma acl_chain_size n :
  acl_node_ok n → Z.of_nat (length (acl_chain n)) ≤ acl_rule_size n + 2.
Proof.
  intros [Ht _ _]. unfold acl_is_add in Ht. cbn in Ht. unfold acl_chain. rewrite length_chain.
  assert (acl_RuleType n = 0 ∨ acl_RuleType n = 1 ∨ acl_RuleType n = 2 ∨ acl_RuleType n = 6 ∨
          acl_RuleType n = 7 ∨ acl_RuleType n = 8 ∨ acl_RuleType n = 13 ∨ acl_RuleType n = 15 ∨
          acl_RuleType n = 17) as Hc by lia. clear Ht.
  unfold acl_conds, acl_rule_size.
  destruct Hc as [Ht|[Ht|[Ht|[Ht|[Ht|[Ht|[Ht|[Ht|Ht]]]]]]]]; rewrite Ht; cbn -[used_conds]; try done.
  pose proof (length_used (all_conds n (default ANY (port_proto n)))) as Hu. cbn -[used_conds] in Hu.
  destruct (used_conds _); cbn in *; lia.
Qed.

Abbreviation acl_len l := (Z.of_nat (length (l ≫= acl_chain))).

Lemma acl_len_app l k : acl_len (l ++ k) = acl_len l + acl_len k.
Proof. rewrite bind_app, length_app. lia. Qed.

Lemma acl_len_rules l : acl_len l ≤ Z.of_nat (length (acl_rules l)) ≤ acl_len l + 2.
Proof.
  unfold acl_rules. rewrite length_app. unfold acl_defaults. destruct (last l); [|cbn; lia].
  destruct (_ =? _); cbn; lia.
Qed.

Lemma acl_len_delete i l : acl_len (delete i l) ≤ acl_len l.
Proof.
  destruct (l !! i) as [n|] eqn:E.
  - assert (acl_len l = acl_len (take i l ++ [n] ++ drop (S i) l)) as ->
      by (cbn [app]; by rewrite take_drop_middle).
    rewrite delete_take_drop, !acl_len_app. lia.
  - rewrite delete_take_drop. pose proof (lookup_ge_None_1 _ _ E).
    rewrite take_ge, drop_ge by lia. by rewrite app_nil_r.
Qed.

Abbreviation count h b l := (Z.of_nat (length (filter (λ n, h n = b) l))).

Lemma count_app {A} (h : A → bool) b l k : count h b (l ++ k) = count h b l + count h b k.
Proof. rewrite filter_app, length_app. lia. Qed.

Lemma count_delete {A} (h : A → bool) b i l : count h b (delete i l) ≤ count h b l.
Proof.
  destruct (l !! i) as [n|] eqn:E.
  - assert (count h b l = count h b (take i l ++ [n] ++ drop (S i) l)) as ->
      by (cbn [app]; by rewrite take_drop_middle).
    rewrite delete_take_drop, !count_app. lia.
  - rewrite delete_take_drop. pose proof (lookup_ge_None_1 _ _ E).
    rewrite take_ge, drop_ge by lia. by rewrite app_nil_r.
Qed.

Lemma count_one {A} (h : A → bool) b n : count h b [n] = if Bool.eqb (h n) b then 1 else 0.
Proof. rewrite filter_cons. destruct (h n), b; by case_decide. Qed.

Lemma count_alter_info b i info (l : list MtrPlcyNode) :
  count mtr_is_pre b (alter (λ n, n ⦃ mtr_info := info ⦄) i l) = count mtr_is_pre b l.
Proof.
  revert i. induction l as [|n l IH]; intros [|i]; [done..| |].
  - cbn [alter list_alter]. rewrite !filter_cons.
    change (mtr_is_pre (n ⦃ mtr_info := info ⦄)) with (mtr_is_pre n). by case_decide.
  - change (alter (λ n, n ⦃ mtr_info := info ⦄) (S i) (n :: l)) with
      (n :: alter (λ n, n ⦃ mtr_info := info ⦄) i l).
    rewrite !filter_cons. case_decide; [|apply IH]. rewrite !length_cons, !Nat2Z.inj_succ. by rewrite IH.
Qed.

(** The tables that the checks keep apart do not run into each other; the two
    limits that are wrong leave three entries of access control, and the whole
    of two tables for the meters before routing. *)
Record bounds_ok (e : engine) : Prop := {
  bo_acl : acl_len (e_acl e) ≤ table_start (e_ppe e) PRE_MTR + 1;
  bo_pre_mtr :
    table_start (e_ppe e) PRE_MTR + count mtr_is_pre true (e_mtr e) ≤ table_start (e_ppe e) POST_AC;
  bo_post_mtr :
    table_start (e_ppe e) POST_MTR + count mtr_is_pre false (e_mtr e) ≤ table_start (e_ppe e) POST_AC;
  bo_pre_ac :
    table_start (e_ppe e) PRE_AC + count ac_is_pre true (e_ac e) ≤ table_start (e_ppe e) POST_MTR;
  bo_post_ac : table_start (e_ppe e) POST_AC + count ac_is_pre false (e_ac e) ≤ 511
}.

Lemma rules_len e t :
  Z.of_nat (length (rules_of e t)) =
    match t with
    | PRE_ACL => Z.of_nat (length (acl_rules (e_acl e)))
    | PRE_MTR => count mtr_is_pre true (e_mtr e)
    | POST_MTR => count mtr_is_pre false (e_mtr e)
    | PRE_AC => count ac_is_pre true (e_ac e)
    | POST_AC => count ac_is_pre false (e_ac e)
    end.
Proof. destruct t; cbn; by rewrite ?length_fmap. Qed.

(** The pointers are exact while the bounds hold. *)
Lemma end_exact e t :
  bounds_ok e → tracks (λ _ _, True) points e → table_start (e_ppe e) PRE_MTR ≤ 508 →
  PpeGetEnd (e_ppe e) t = table_start (e_ppe e) t + Z.of_nat (length (rules_of e t)).
Proof.
  intros [] (Hl & _ & Hp) H508. rewrite (proj2 (Hp t)).
  pose proof (layout_order _ Hl). pose proof (acl_len_rules (e_acl e)).
  pose proof (rules_len e t) as Hr. apply Z.mod_small. destruct t; cbn in *; lia.
Qed.

Section Growth.
Context `{Malloc} (e : engine).
Hypothesis Hok : lists_ok e.
Hypothesis Hb : bounds_ok e.
Hypothesis Hp : tracks (λ _ _, True) points e.
Hypothesis H508 : table_start (e_ppe e) PRE_MTR ≤ 508.

Lemma acl_change_bound a :
  acl_change (acl_of e) a → acl_len (AclPlcyList a) ≤ table_start (e_ppe e) PRE_MTR + 1.
Proof using All.
  pose proof (bo_acl _ Hb). destruct Hp as (Hl & _ & HQ). pose proof (layout_order _ Hl).
  intros [| n Hn He | i n _ |]; [done|..|cbn in *; lia].
  - rewrite AclPlcyList_Sync. cbn [AclPlcyList]. cbn -[PpeGetEnd PpeGetStr acl_rule_size] in He.
    change (acl_len (e_acl e ++ [n]) ≤ table_start (e_ppe e) PRE_MTR + 1).
    rewrite acl_len_app. pose proof (acl_chain_size n Hn).
    rewrite end_exact in He by done. rewrite (proj1 (HQ PRE_MTR)), rules_len in He.
    pose proof (acl_len_rules (e_acl e)).
    assert (acl_len [n] = Z.of_nat (length (acl_chain n))) as -> by (cbn; by rewrite app_nil_r).
    cbn in *. lia.
  - rewrite AclPlcyList_Sync. pose proof (acl_len_delete i (e_acl e)). cbn in *. lia.
Qed.

Lemma ac_added_bound n m :
  PpeGetEnd (e_ppe e) (ac_where n) + 1 < ac_max (e_ppe e) n → ac_is_pre m = ac_is_pre n →
  table_start (e_ppe e) PRE_AC + count ac_is_pre true (e_ac e ++ [m]) ≤
    table_start (e_ppe e) POST_MTR ∧
  table_start (e_ppe e) POST_AC + count ac_is_pre false (e_ac e ++ [m]) ≤ 511.
Proof using Hb Hp H508.
  pose proof (bo_pre_ac _ Hb). pose proof (bo_post_ac _ Hb). destruct Hp as (_ & _ & HQ).
  intros He Hm. rewrite end_exact, rules_len in He by done.
  unfold ac_max in He. rewrite (proj1 (HQ POST_MTR)) in He. unfold ac_where in He.
  rewrite !count_app, !count_one, Hm. destruct (ac_is_pre n); cbn -[table_start filter] in *; lia.
Qed.

Lemma ac_change_bound a :
  ac_change (ac_of e) a →
  table_start (e_ppe e) PRE_AC + count ac_is_pre true (AcPlcyList a) ≤ table_start (e_ppe e) POST_MTR ∧
  table_start (e_ppe e) POST_AC + count ac_is_pre false (AcPlcyList a) ≤ 511.
Proof using Hb Hp H508.
  pose proof (bo_pre_ac _ Hb). pose proof (bo_post_ac _ Hb).
  destruct (Hp) as (Hl & _ & HQ). pose proof (layout_order _ Hl).
  intros [| n Hn He | i n cells _ _ |]; [done|..|cbn in *; lia].
  - by apply (ac_added_bound n).
  - pose proof (count_delete ac_is_pre true i (e_ac e)).
    pose proof (count_delete ac_is_pre false i (e_ac e)). cbn -[table_start filter] in *. lia.
Qed.

Lemma mtr_added_bound n m :
  PpeGetEnd (e_ppe e) (mtr_where n) + 1 < mtr_max (e_ppe e) → mtr_is_pre m = mtr_is_pre n →
  table_start (e_ppe e) PRE_MTR + count mtr_is_pre true (e_mtr e ++ [m]) ≤
    table_start (e_ppe e) POST_AC ∧
  table_start (e_ppe e) POST_MTR + count mtr_is_pre false (e_mtr e ++ [m]) ≤
    table_start (e_ppe e) POST_AC.
Proof using Hb Hp H508.
  pose proof (bo_pre_mtr _ Hb). pose proof (bo_post_mtr _ Hb). destruct Hp as (_ & _ & HQ).
  intros He Hm. rewrite end_exact, rules_len in He by done.
  unfold mtr_max in He. rewrite (proj1 (HQ POST_AC)) in He. unfold mtr_where in He.
  rewrite !count_app, !count_one, Hm. destruct (mtr_is_pre n); cbn -[table_start filter] in *; lia.
Qed.

Lemma mtr_change_bound a :
  mtr_change (mtr_of e) a →
  table_start (e_ppe e) PRE_MTR + count mtr_is_pre true (MtrPlcyList a) ≤
    table_start (e_ppe e) POST_AC ∧
  table_start (e_ppe e) POST_MTR + count mtr_is_pre false (MtrPlcyList a) ≤
    table_start (e_ppe e) POST_AC.
Proof using Hb Hp H508.
  pose proof (bo_pre_mtr _ Hb). pose proof (bo_post_mtr _ Hb).
  destruct (Hp) as (Hl & _ & HQ). pose proof (layout_order _ Hl).
  intros [| i info | n Hr Hpre He | i n cells _ _ |]; [done|..|cbn in *; lia].
  - change (MtrPlcyList (SyncMtrTbl _)) with (alter (λ n, n ⦃ mtr_info := info ⦄) i (e_mtr e)).
    rewrite !count_alter_info. done.
  - by apply (mtr_added_bound n).
  - pose proof (count_delete mtr_is_pre true i (e_mtr e)).
    pose proof (count_delete mtr_is_pre false i (e_mtr e)). cbn -[table_start filter] in *. lia.
Qed.
End Growth.

Lemma engine_change_bounds `{Malloc} e e' :
  lists_ok e → tracks (λ _ _, True) points e → table_start (e_ppe e) PRE_MTR ≤ 508 → bounds_ok e →
  engine_change e e' → same_start (e_ppe e) (e_ppe e') → bounds_ok e'.
Proof.
  intros Hok Hp H508 Hb Hc Hs. pose proof Hb as [].
  destruct Hc as [a Hc|a Hc|a Hc]; cbn [e_ppe put_acl put_ac put_mtr] in Hs.
  - pose proof (acl_change_bound e Hok Hb Hp H508 a Hc).
    split; cbn -[table_start filter]; rewrite ?Hs; done.
  - destruct (ac_change_bound e Hb Hp H508 a Hc). split; cbn -[table_start filter]; rewrite ?Hs; done.
  - destruct (mtr_change_bound e Hb Hp H508 a Hc). split; cbn -[table_start filter]; rewrite ?Hs; done.
Qed.

(** * Runs *)

(** What holds in every state of a run. *)
Record run_inv (e : engine) : Prop := {
  ri_lists : lists_ok e;
  ri_points : tracks (λ _ _, True) points e;
  ri_508 : table_start (e_ppe e) PRE_MTR ≤ 508;
  ri_bounds : bounds_ok e
}.

Lemma run_inv_step `{Malloc} e r e' :
  run_inv e → request_ok r → engine_step e r = Ret e' → run_inv e' ∧ same_start (e_ppe e) (e_ppe e').
Proof.
  intros [Hl Hp H508 Hb] Hr Hs. apply engine_step_change in Hs; [|done].
  destruct (engine_change_tracked (pre := λ _ _, True) (Q := points) e e') as [Hp' Hst]; [done..|].
  split; [|done]. split; [by eapply engine_change_ok|done|by rewrite Hst|].
  by eapply engine_change_bounds.
Qed.

Lemma run_inv_init p s1 s2 s3 s4 s5 :
  sizes_ok s1 s2 s3 s4 s5 → run_inv (engine_init p s1 s2 s3 s4 s5).
Proof.
  intros Hs. assert (Hst := table_start_SetRuleSize p s1 s2 s3 s4 s5).
  assert (∀ t, table_start (e_ppe (engine_init p s1 s2 s3 s4 s5)) t =
    table_start (PpeSetRuleSize p s1 s2 s3 s4 s5) t) as He.
  { intros t. rewrite engine_init_ppe. apply table_start_start. }
  destruct Hs as (? & ? & ? & ? & ? & ?).
  split; [by apply engine_init_lists|by apply engine_init_points|rewrite He, Hst; lia|].
  split; rewrite !He, !Hst; cbn; lia.
Qed.

Lemma run_inv_run `{Malloc} P e rs e' :
  engine_run P e rs e' → Forall request_ok rs → run_inv e → run_inv e'.
Proof.
  induction 1 as [e|e r e1 rs e2 Hs _ _ IH]; intros Hrs Hi; [done|].
  apply Forall_cons in Hrs as [Hr Hrs]. apply IH; [done|]. by eapply run_inv_step.
Qed.
