(* ===== verification/PolicyProps.v ===== *)
(** Properties of the policy engine of the hardware NAT. *)

From S2P Require Import Prelude PpeRegs Policy PolicyFacts Acl Accounting Metering PolicyEngine PolicyRefine PolicyGroups PolicySteps PolicyInv PolicyBounds.

(** * Ranges of addresses *)

Lemma range_odd_part R k :
  0 < R → 0 ≤ k → (∀ j, 0 ≤ j < k → Z.testbit R j = false) → Z.testbit R k = true →
  R = 2 ^ k * (R / 2 ^ k) ∧ Z.odd (R / 2 ^ k) = true.
Proof.
  intros HR Hk Hlow Hbit. split.
  - apply Z_div_exact_full_2; [lia|]. apply Z.bits_inj'. intros i Hi. rewrite Z.bits_0.
    destruct (decide (i < k)); [rewrite Z.mod_pow2_bits_low by lia; apply Hlow; lia|].
    by rewrite Z.mod_pow2_bits_high by lia.
  - rewrite <-Z.bit0_odd, Z.div_pow2_bits by lia. by rewrite Z.add_0_l.
Qed.

(** [CalIpRange] gives the mantissa and exponent of the number of addresses:
    the exponent divides it out, the odd rest is cut to eight bits.  So the
    engine's range is never larger than the user's, and is the same exactly when
    the odd rest is below 256; a range of all addresses gives the empty one. *)
Theorem CalIpRange_exact S E :
  0 ≤ S < 2 ^ 32 → 0 ≤ E < 2 ^ 32 → S ≤ E →
  let R := E - S + 1 in
  let '(m, e) := CalIpRange S E in
  (R = 2 ^ 32 ∧ m = 0 ∧ e = 0) ∨
  (R < 2 ^ 32 ∧ 0 < m < 256 ∧ Z.odd m = true ∧ 0 ≤ e < 32 ∧ (2 ^ e | R) ∧
   m = (R / 2 ^ e) mod 256 ∧ m * 2 ^ e ≤ R ∧ (m * 2 ^ e = R ↔ R / 2 ^ e < 256)).
Proof.
  intros HS HE HSE R. unfold CalIpRange.
  assert (u32 (u32 (E + 1) - S) = u32 R) as ->.
  { unfold u32, R. rewrite Zminus_mod_idemp_l. f_equal. lia. }
  destruct (decide (R = 2 ^ 32)) as [HR|HR].
  { rewrite HR. vm_compute. tauto. }
  assert (0 < R < 2 ^ 32) as HR32 by lia.
  assert (u32 R = R) as -> by (unfold u32; change 4294967296 with (2 ^ 32); apply Z.mod_small; lia).
  destruct (range_shift_spec 32 R 0 ltac:(done)) as (Hk & Hlow & Hbit).
  set (k := range_shift 32 R 0) in *. change (0 + Z.of_nat 32) with 32 in *.
  assert (k < 32) as Hk32.
  { destruct (decide (k = 32)); [|lia]. exfalso. assert (R = 0); [|lia].
    apply Z.bits_inj'. intros i Hi. rewrite Z.bits_0. destruct (decide (i < 32)); [apply Hlow; lia|].
    rewrite <-(Z.mod_small R (2 ^ 32)) by lia. by rewrite Z.mod_pow2_bits_high by lia. }
  rewrite (proj2 (Z.eqb_neq k 32)) by lia. cbn [negb]. right.
  destruct (range_odd_part R k) as [HRk Hodd]; [lia|lia|done|by apply Hbit|].
  rewrite Z.shiftr_div_pow2 by lia. set (q := R / 2 ^ k) in *.
  assert (Hp : 0 < 2 ^ k) by (apply Z.pow_pos_nonneg; lia).
  unfold u8. rewrite (Z.mod_small k 256) by lia.
  pose proof (Z.mod_pos_bound q 256 ltac:(done)). pose proof (Z.div_mod q 256 ltac:(done)).
  assert (0 < q) by nia.
  assert (Hom : Z.odd (q mod 256) = true).
  { rewrite <-Z.bit0_odd in *. change 256 with (2 ^ 8). by rewrite Z.mod_pow2_bits_low by lia. }
  assert (q mod 256 ≠ 0) by (intros Hz; by rewrite Hz in Hom).
  assert (0 ≤ q / 256) by (apply Z.div_pos; lia).
  split_and!; [lia..|done|lia|lia| |done|nia|].
  - exists q. lia.
  - split; intros; [|rewrite Z.mod_small by lia; lia]. nia.
Qed.

Lemma CalIpRange_exact_witness :
  CalIpRange 0x0A0A0A03 0x0A0A0A08 = (3, 1) ∧ (3 * 2 ^ 1 = 6 ↔ 6 / 2 ^ 1 < 256).
Proof.
  assert (Hc : CalIpRange 0x0A0A0A03 0x0A0A0A08 = (3, 1)) by (vm_compute; reflexivity).
  split; [exact Hc|].
  pose proof (CalIpRange_exact 0x0A0A0A03 0x0A0A0A08 ltac:(lia) ltac:(lia) ltac:(lia)) as H.
  cbn zeta in H. rewrite Hc in H. change (0x0A0A0A08 - 0x0A0A0A03 + 1) with 6 in H.
  destruct H as [[H _]|(_ & _ & _ & _ & _ & _ & _ & H)]; [discriminate H|exact H].
Defined.

(** * The layout of a rule *)

Definition body_ok (b : rule_body) : Prop :=
  match b with L2Mac mac => length mac = 6%nat | _ => True end.

Lemma rule_width r : body_ok (body r) → width (rule_fields r) = 64.
Proof.
  destruct r as [[e m pn_ rt_ d] b]; cbn. intros Hb.
  destruct e, b as [mac| | | | | |]; cbn in *; try done;
    do 7 (destruct mac as [|? mac]; try done).
Qed.

Lemma rule_fields_nonneg r : Forall (λ f, 0 ≤ f.1) (rule_fields r).
Proof.
  destruct r as [[e m pn_ rt_ d] b]. unfold rule_fields, com_fields. cbn -[body_fields end_fields].
  apply Forall_app. split; [apply Forall_app; split; [by destruct e; repeat constructor|by repeat constructor]|].
  destruct b; cbn; try by repeat constructor. apply Forall_fmap. apply Forall_true. done.
Qed.

(** The two words written for a rule hold its fields one after the other:
    reading fields of the same widths from the sixty-four bits gives each field's
    value, cut to its width. *)
Theorem rule_words_roundtrip r :
  body_ok (body r) →
  unpack ((rule_fields r).*1) (rule_word0 r + 2 ^ 32 * rule_word1 r) =
    (λ f, f.2 mod 2 ^ f.1) <$> rule_fields r.
Proof.
  intros Hb. rewrite <-unpack_pack by apply rule_fields_nonneg. f_equal.
  pose proof (pack_range _ (rule_fields_nonneg r)) as Hr. rewrite rule_width in Hr by done.
  unfold rule_word0, rule_word1, u32. change 4294967296 with (2 ^ 32).
  rewrite (Z.mod_small (_ / _)).
  - rewrite Z.add_comm. symmetry. by apply Z.div_mod.
  - split; [apply Z.div_pos; lia|]. apply Z.div_lt_upper_bound; lia.
Qed.

Definition sample_rule : rule :=
  {| com := {| com_end := EeFpp 1 0 FPN_DROP 0; match_ := 1; pn := 7; rt := L3_RULE; dir := SIP |};
     body := L3Ip 0x0A0A0A03 3 1 1 0 |}.

Lemma rule_words_roundtrip_witness :
  (rule_word0 sample_rule, rule_word1 sample_rule) = (0x0A039F1D, 0x21030A0A) ∧
  unpack ((rule_fields sample_rule).*1) (rule_word0 sample_rule + 2 ^ 32 * rule_word1 sample_rule) =
    [1; 0; 7; 0; 1; 7; 1; 2; 0x0A0A0A03; 3; 1; 1; 0].
Proof.
  pose proof (rule_words_roundtrip sample_rule I) as H.
  split; [vm_compute; reflexivity|]. rewrite H. vm_compute. reflexivity.
Defined.

(** * Runs of the engine *)

(** The rules of access control, and the meters before routing, fit in their
    tables: what the two wrong limits do not ensure. *)
Definition users_fit (e : engine) : Prop :=
  Z.of_nat (length (rules_of e PRE_ACL)) ≤ table_start (e_ppe e) PRE_MTR ∧
  table_start (e_ppe e) PRE_MTR + Z.of_nat (length (rules_of e PRE_MTR)) ≤ table_start (e_ppe e) PRE_AC.

Lemma users_fit_fits e : users_fit e → bounds_ok e → fit (e_ppe e) (rules_of e).
Proof.
  intros [H1 H2] [] t. rewrite rules_len in *. destruct t; cbn in *; lia.
Qed.

Lemma engine_run_tracks `{Malloc} e rs e' :
  engine_run users_fit e rs e' → Forall request_ok rs → run_inv e → tracks fit holds e →
  tracks fit holds e'.
Proof.
  induction 1 as [e|e r e1 rs e2 Hs Hf _ IH]; intros Hrs Hi Ht; [done|].
  apply Forall_cons in Hrs as [Hr Hrs].
  destruct (run_inv_step e r e1 Hi Hr Hs) as [Hi1 Hst]. apply IH; [done..|].
  apply engine_step_change in Hs; [|done].
  apply (engine_change_tracked e e1); [done|apply Hi|done|].
  apply (fit_start (e_ppe e1)); [intros t; by rewrite Hst|]. apply users_fit_fits; [done|apply Hi1].
Qed.

(** Running requests, with the check of [users_fit] in every state. *)
Fixpoint engine_exec `{Malloc} (e : engine) (rs : list policy_request) : option engine :=
  match rs with
  | [] => Some e
  | r :: rs =>
      match engine_step e r with
      | Ret e' =>
          if (Z.of_nat (length (rules_of e' PRE_ACL)) <=? table_start (e_ppe e') PRE_MTR) &&
             (table_start (e_ppe e') PRE_MTR + Z.of_nat (length (rules_of e' PRE_MTR)) <=?
                table_start (e_ppe e') PRE_AC)
          then engine_exec e' rs else None
      | _ => None
      end
  end.

Lemma engine_exec_run `{Malloc} e rs e' : engine_exec e rs = Some e' → engine_run users_fit e rs e'.
Proof.
  revert e. induction rs as [|r rs IH]; intros e; cbn [engine_exec].
  - intros [= <-]. constructor.
  - destruct (engine_step e r) as [e1| | ] eqn:E; [|done..]. destruct (_ && _) eqn:Hf; [|done].
    intros Hx. eapply run_cons; [done| |by apply IH]. split; lia.
Qed.

(** The policy memory implements the lists of rules.  After any sequence of
    requests to the three devices, in which the access control rules and the
    meters before routing always fit in their tables, each of the five tables
    starts where it should and its entries are those of its rules in order, chain
    after chain, with the default rules behind; and each table is enabled for all
    kinds of packets if it has rules, and disabled if not, but for the meters
    behind routing when there are meters before it. *)
Theorem policy_tables_refine `{Malloc} p s1 s2 s3 s4 s5 rs e :
  sizes_ok s1 s2 s3 s4 s5 → Forall request_ok rs →
  engine_run users_fit (engine_init p s1 s2 s3 s4 s5) rs e → engine_ok e.
Proof.
  intros Hs Hrs Hr.
  destruct (engine_run_tracks _ _ _ Hr Hrs (run_inv_init _ _ _ _ _ _ Hs)
    (engine_init_tracks _ _ _ _ _ _ Hs)) as (Hl & _ & Hc & He).
  by split.
Qed.

Lemma engine_run_weaken `{Malloc} (P P' : engine → Prop) e rs e' :
  (∀ x, P x → P' x) → engine_run P e rs e' → engine_run P' e rs e'.
Proof. intros HP. induction 1; [constructor|eapply run_cons; eauto]. Qed.

Definition sample_acl (m : Z) : acl_args :=
  {| aa_mac := [0; 12; 67; 1; 2; 3]; aa_dmac := [0; 12; 67; 4; 5; 6]; aa_method := m; aa_L4 := 1;
     aa_sip_s := 0x0A0A0A03; aa_sip_e := 0x0A0A0A08; aa_dip_s := 0x0A0A0B01; aa_dip_e := 0x0A0A0B01;
     aa_dp_s := 80; aa_dp_e := 81; aa_sp_s := 1024; aa_sp_e := 65535; aa_tos_s := 1; aa_tos_e := 2;
     aa_ethertype := 0x800; aa_protocol := 6; aa_vid := 5; aa_up := 3; aa_pn := 7 |}.
Definition sample_ac : ac_args :=
  {| ca_mac := [0; 12; 67; 1; 2; 3]; ca_vid := 5; ca_ip_s := 0x0A0A0A03; ca_ip_e := 0x0A0A0A08 |}.
Definition sample_mtr : mtr_args :=
  {| ma_mac := [0; 12; 67; 1; 2; 3]; ma_ip_s := 0x0A0A0A03; ma_ip_e := 0x0A0A0A08; ma_mg_num := 0;
     ma_token_rate := 100; ma_bk_size := 2; ma_mtr_mode := 0; ma_mtr_intval := 0 |}.

(** A MAC rule and a general one, an accounting rule each way, a meter each way;
    the MAC rule is deleted again. *)
Definition sample_requests : list policy_request :=
  [ReqAcl 13 (sample_acl 0); ReqAcl 17 (sample_acl 1); ReqAc 0 sample_ac; ReqAc 5 sample_ac;
   ReqMtr 1 sample_mtr; ReqMtr 4 sample_mtr; ReqAcl 14 (sample_acl 1)].

Definition small_init : engine :=
  engine_init {| regs := ∅; pre_acl_start_addr := 0; pre_ac_start_addr := 0; post_ac_start_addr := 0;
                 pre_mtr_start_addr := 0; post_mtr_start_addr := 0 |} 12 4 4 4 4.

#[local] Instance malloc_always : Malloc := λ _, true.

Lemma policy_tables_refine_witness :
  let e := default small_init (engine_exec small_init sample_requests) in
  engine_ok e ∧
  ((λ t, length (rules_of e t)) <$> [PRE_ACL; PRE_MTR; PRE_AC; POST_MTR; POST_AC] = [9; 1; 1; 1; 1]%nat) ∧
  Some (entry (e_ppe e) 0) = rule_words <$> acl_chain (acl_ioctl_node 17 (sample_acl 1)) !! 0%nat.
Proof.
  set (e := default small_init (engine_exec small_init sample_requests)). cbn zeta.
  assert (He : engine_exec small_init sample_requests = Some e) by (vm_compute; reflexivity).
  split_and!.
  - refine (policy_tables_refine _ 12 4 4 4 4 sample_requests e _ _ _).
    + unfold sizes_ok; lia.
    + repeat constructor; cbn; lia.
    + apply engine_exec_run, He.
  - vm_compute. reflexivity.
  - vm_compute. reflexivity.
Defined.

(** C14. How far the tables grow.  In every state the requests can reach, the end
    pointers are exact; accounting and the meters behind routing stay in their
    tables; the access control rules run at most three entries into the table of
    the meters, because a general rule of nine entries counts as seven and the two
    default rules are not counted; and the meters before routing stay below the
    table for accounting behind it, two tables too far. *)
Theorem policy_tables_bounded `{Malloc} p s1 s2 s3 s4 s5 rs e :
  sizes_ok s1 s2 s3 s4 s5 → Forall request_ok rs →
  engine_run (λ _, True) (engine_init p s1 s2 s3 s4 s5) rs e →
  (∀ t, PpeGetStr (e_ppe e) t = table_start (e_ppe e) t ∧
        PpeGetEnd (e_ppe e) t = PpeGetStr (e_ppe e) t + Z.of_nat (length (rules_of e t))) ∧
  PpeGetEnd (e_ppe e) PRE_AC ≤ PpeGetStr (e_ppe e) POST_MTR ∧
  PpeGetEnd (e_ppe e) POST_MTR ≤ PpeGetStr (e_ppe e) POST_AC ∧
  PpeGetEnd (e_ppe e) POST_AC ≤ 511 ∧
  PpeGetEnd (e_ppe e) PRE_ACL ≤ PpeGetStr (e_ppe e) PRE_MTR + 3 ∧
  PpeGetEnd (e_ppe e) PRE_MTR ≤ PpeGetStr (e_ppe e) POST_AC.
Proof.
  intros Hs Hrs Hr.
  destruct (run_inv_run _ _ _ _ Hr Hrs (run_inv_init _ _ _ _ _ _ Hs)) as [_ Hp H508 Hb].
  assert (He : ∀ t, PpeGetStr (e_ppe e) t = table_start (e_ppe e) t) by (intros t; apply Hp).
  pose proof (λ t, end_exact e t Hb Hp H508) as Hend.
  split; [intros t; by rewrite Hend, !He|]. rewrite !Hend, !He, !rules_len.
  pose proof (acl_len_rules (e_acl e)). destruct Hb. cbn -[filter table_start] in *.
  change (table_start (e_ppe e) PRE_ACL) with 0. lia.
Qed.

(** C15. No two accounting rules share a group of counters, and no two metering
    rules a meter: in every state the requests can reach, the groups of the rules
    in a list are distinct and marked as used in the bitmap, but for rules that
    were added when no group was free. *)
Theorem policy_groups_distinct `{Malloc} p s1 s2 s3 s4 s5 rs e :
  sizes_ok s1 s2 s3 s4 s5 → Forall request_ok rs →
  engine_run (λ _, True) (engine_init p s1 s2 s3 s4 s5) rs e →
  (∀ i j n m, e_ac e !! i = Some n → e_ac e !! j = Some m → ac_AgIdx n = ac_AgIdx m →
     i = j ∨ ac_AgIdx n = 255) ∧
  (∀ i j n m, e_mtr e !! i = Some n → e_mtr e !! j = Some m → mtr_MgNum n = mtr_MgNum m →
     i = j ∨ mtr_MgNum n = 0xFFFFFFFF) ∧
  (∀ n, n ∈ e_ac e → ac_AgIdx n = 255 ∨ group_used (e_ac_free e) (ac_AgIdx n) = true) ∧
  (∀ n, n ∈ e_mtr e → mtr_MgNum n = 0xFFFFFFFF ∨ group_used (e_mtr_free e) (mtr_MgNum n) = true).
Proof.
  intros Hs Hrs Hr.
  destruct (run_inv_run _ _ _ _ Hr Hrs (run_inv_init _ _ _ _ _ _ Hs)) as [[_ _ _ Ha Hm] _ _ _].
  split_and!.
  - intros i j n m Hi Hj He. apply (groups_distinct _ _ _ Ha); rewrite list_lookup_fmap.
    + by rewrite Hi.
    + rewrite Hj. cbn. by rewrite He.
  - intros i j n m Hi Hj He. apply (groups_distinct _ _ _ Hm); rewrite list_lookup_fmap.
    + by rewrite Hi.
    + rewrite Hj. cbn. by rewrite He.
  - intros n Hn. destruct (gr_used _ _ _ Ha (ac_AgIdx n)) as [|[]]; auto.
    by apply list_elem_of_fmap_2.
  - intros n Hn. destruct (gr_used _ _ _ Hm (mtr_MgNum n)) as [|[]]; auto.
    by apply list_elem_of_fmap_2.
Qed.

(** The general rule above, with nine entries and the two default ones, in a table
    of eight: it runs three entries past the end. *)
Definition overrun_init : engine :=
  engine_init {| regs := ∅; pre_acl_start_addr := 0; pre_ac_start_addr := 0; post_ac_start_addr := 0;
                 pre_mtr_start_addr := 0; post_mtr_start_addr := 0 |} 8 4 4 4 4.

Lemma policy_tables_bounded_witness :
  let e := put_acl overrun_init (AclIoctl (acl_of overrun_init) 17 (sample_acl 0)).2 in
  PpeGetEnd (e_ppe e) PRE_ACL = 11 ∧ PpeGetStr (e_ppe e) PRE_MTR = 8 ∧
  PpeGetEnd (e_ppe e) PRE_ACL ≤ PpeGetStr (e_ppe e) PRE_MTR + 3.
Proof.
  set (e := put_acl overrun_init (AclIoctl (acl_of overrun_init) 17 (sample_acl 0)).2). cbn zeta.
  split; [vm_compute; reflexivity|]. split; [vm_compute; reflexivity|].
  refine (proj1 (proj2 (proj2 (proj2 (proj2 
    (policy_tables_bounded _ 8 4 4 4 4 [ReqAcl 17 (sample_acl 0)] e _ _ _)))))).
  - unfold sizes_ok; lia.
  - repeat constructor; cbn; lia.
  - eapply run_cons; [reflexivity|exact I|constructor].
Defined.

Lemma policy_groups_distinct_witness :
  let e := default small_init (engine_exec small_init sample_requests) in
  (ac_AgIdx <$> e_ac e) = [0; 1] ∧ (mtr_MgNum <$> e_mtr e) = [0; 1] ∧
  ∀ i j n m, e_ac e !! i = Some n → e_ac e !! j = Some m → ac_AgIdx n = ac_AgIdx m →
    i = j ∨ ac_AgIdx n = 255.
Proof.
  set (e := default small_init (engine_exec small_init sample_requests)). cbn zeta.
  assert (He : engine_exec small_init sample_requests = Some e) by (vm_compute; reflexivity).
  split; [vm_compute; reflexivity|]. split; [vm_compute; reflexivity|].
  refine (proj1 (policy_groups_distinct _ 12 4 4 4 4 sample_requests e _ _ _)).
  - unfold sizes_ok; lia.
  - repeat constructor; cbn; lia.
  - apply (engine_run_weaken users_fit); [done|]. apply engine_exec_run, He.
Defined.
