(* ===== verification/Foe.v ===== *)
(** The table of flows ([foe_fdb.h], [foe_fdb.c]): the entries that the packet
    engine looks packets up in, and the operations of the ioctl on them.

    An entry is the first-generation layout of 64 bytes for IPv4; an entry of an
    IPv6 route has the four words of its destination where an IPv4 entry has the
    two addresses before and after translation.  At the end, that the listing of the
    table is exact. *)

From S2P Require Import Prelude PpeRegs.

Definition FOE_4TB_SIZ : Z := 4096.

(** [enum VlanAction], [enum FoeEntryState], [enum FoeIPAct]. *)
Definition NO_ACT : Z := 0.
Definition MODIFY : Z := 1.
Definition INSERT : Z := 2.
Definition DELETE : Z := 3.
Definition INVALID : Z := 0.
Definition UNBIND : Z := 1.
Definition BIND : Z := 2.
Definition FIN : Z := 3.
Definition IPV4_HNAPT : Z := 0.
Definition IPV4_HNAT : Z := 1.
Definition IPV6_1T_ROUTE : Z := 2.
Definition IPV4_DSLITE : Z := 3.
Definition IPV6_5T_ROUTE : Z := 5.

(** A keep-alive packet has the new header. *)
Definition DFL_FOE_KA : Z := 0.

Definition HWNAT_SUCCESS : Z := 0.
Definition HWNAT_FAIL : Z := 1.
Definition HWNAT_ENTRY_NOT_FOUND : Z := 2.

(** * Bit fields

    An assignment to a bit field keeps the other bits of its word, and the low
    bits of the value; [field] of [PpeRegs] reads one. *)

Definition set_field (v Offset Len x : Z) : Z :=
  Z.lor (Z.land v (Z.lnot (Z.shiftl (Z.ones Len) Offset)))
        (Z.shiftl (Z.land x (Z.ones Len)) Offset).

(** * Entries *)

(** [dmac_blk] is [dmac_hi], [vlan1] and [dmac_lo]; [smac_blk] is [smac_hi],
    [pppoe_id] and [smac_lo]; [resv] stands for [resv1] to [resv4]. *)
Record FoeEntry := {
  info_blk1 : Z;
  sip : Z;
  dip : Z;
  dport : Z;
  sport : Z;
  info_blk2 : Z;
  new_sip : Z;
  new_dip : Z;
  new_dport : Z;
  new_sport : Z;
  dmac_blk : bytes;
  smac_blk : bytes;
  snap_ctrl : bytes;
  act_dp : Z;
  vlan2 : Z;
  resv : bytes
}.
#[export] Instance FoeEntry_eta : Eta FoeEntry := λ r,
  {| info_blk1 := info_blk1 r; sip := sip r; dip := dip r; dport := dport r; sport := sport r;
     info_blk2 := info_blk2 r; new_sip := new_sip r; new_dip := new_dip r;
     new_dport := new_dport r; new_sport := new_sport r; dmac_blk := dmac_blk r;
     smac_blk := smac_blk r; snap_ctrl := snap_ctrl r; act_dp := act_dp r; vlan2 := vlan2 r;
     resv := resv r |}.
#[export] Instance FoeEntry_dec : EqDecision FoeEntry.
Proof. solve_decision. Defined.

(** [memset (entry, 0, sizeof (struct FoeEntry))] *)
Definition zero_entry : FoeEntry :=
  {| info_blk1 := 0; sip := 0; dip := 0; dport := 0; sport := 0; info_blk2 := 0; new_sip := 0;
     new_dip := 0; new_dport := 0; new_sport := 0; dmac_blk := replicate 8 0;
     smac_blk := replicate 8 0; snap_ctrl := replicate 3 0; act_dp := 0; vlan2 := 0;
     resv := replicate 11 0 |}.

(** The bit fields of [info_blk1] ([bf_info_blk1]; of [ud_info_blk1], the short
    [time_stamp]) and of [info_blk2], as offset and width. *)
Abbreviation bitfield := (Z * Z)%type.
Definition bf_time_stamp : bitfield := (0, 16).
Definition bf_v1 : bitfield := (16, 2).
Definition bf_v2 : bitfield := (18, 2).
Definition bf_pppoe : bitfield := (22, 2).
Definition bf_ttl : bitfield := (24, 1).
Definition bf_pkt_type : bitfield := (26, 2).
Definition bf_state : bitfield := (28, 2).
Definition bf_udp : bitfield := (30, 1).
Definition ud_time_stamp : bitfield := (0, 8).
Definition ib2_fd : bitfield := (0, 1).
Definition ib2_dp : bitfield := (1, 3).
Definition ib2_dscp : bitfield := (24, 8).

Definition get1 (e : FoeEntry) (f : bitfield) : Z := field (info_blk1 e) f.1 f.2.
Definition set1 (e : FoeEntry) (f : bitfield) (x : Z) : FoeEntry :=
  e ⦃ info_blk1 := set_field (info_blk1 e) f.1 f.2 x ⦄.
Definition get2 (e : FoeEntry) (f : bitfield) : Z := field (info_blk2 e) f.1 f.2.
Definition set2 (e : FoeEntry) (f : bitfield) (x : Z) : FoeEntry :=
  e ⦃ info_blk2 := set_field (info_blk2 e) f.1 f.2 x ⦄.

Definition IS_IPV4_HNAPT (e : FoeEntry) : bool := get1 e bf_pkt_type =? IPV4_HNAPT.
Definition IS_IPV4_HNAT (e : FoeEntry) : bool := get1 e bf_pkt_type =? IPV4_HNAT.
Definition IS_IPV6_1T_ROUTE (e : FoeEntry) : bool := get1 e bf_pkt_type =? IPV6_1T_ROUTE.

(** The 16-bit field in the middle of a block, and its assignment. *)
Definition blk_tag (blk : bytes) : Z := of_le (take 2 (drop 2 blk)).
Definition set_blk_tag (blk : bytes) (v : Z) : bytes := splice blk 2 [u8 v; u8 (v / 256)].

Definition vlan1 (e : FoeEntry) : Z := blk_tag (dmac_blk e).
Definition pppoe_id (e : FoeEntry) : Z := blk_tag (smac_blk e).

(** * MAC addresses

    Both functions copy single bytes, [Dst[i] = Src[j]]; [Dst] and [Src] are
    offsets in one memory, since one caller lets them overlap. *)

Fixpoint copy_bytes (mem : bytes) (Dst Src : nat) (l : list (nat * nat)) : outcome bytes :=
  match l with
  | [] => Ret mem
  | (i, j) :: l =>
      let* b := load mem (Src + j) 1 in
      let* mem := store mem (Dst + i) b in
      copy_bytes mem Dst Src l
  end.

Definition FoeSetMacInfo (mem : bytes) (Dst Src : nat) : outcome bytes :=
  copy_bytes mem Dst Src [(1, 0); (0, 1); (7, 2); (6, 3); (5, 4); (4, 5)]%nat.
Definition FoeGetMacInfo (mem : bytes) (Dst Src : nat) : outcome bytes :=
  copy_bytes mem Dst Src [(0, 1); (1, 0); (2, 7); (3, 6); (4, 5); (5, 4)]%nat.

(** * The table *)

(** [PpeFoeBase[n]]: read and written; beyond its end the access is out of bounds. *)
Definition foe_get (tbl : list FoeEntry) (n : Z) : outcome FoeEntry :=
  match tbl !! Z.to_nat n with Some e => Ret e | None => Oob end.
Definition foe_put (tbl : list FoeEntry) (n : Z) (e : FoeEntry) : list FoeEntry :=
  <[Z.to_nat n := e]> tbl.

(** Twenty words are printed, but an entry has sixteen: the last four belong to
    the next one. *)
Definition FoeDumpEntry (tbl : list FoeEntry) (Index : Z) : outcome unit :=
  let* _ := foe_get tbl Index in
  let* _ := foe_get tbl (Index + 1) in
  Ret tt.

Definition FoeBindEntry (p : ppe) (tbl : list FoeEntry) (entry_num : Z) :
    outcome (Z * list FoeEntry) :=
  let* entry := foe_get tbl entry_num in
  let entry := set1 entry bf_time_stamp (Z.land (RegRead p FOE_TS) 0xFFFF) in
  let entry := set1 entry bf_state BIND in
  Ret (HWNAT_SUCCESS, foe_put tbl entry_num entry).

Definition FoeUnBindEntry (p : ppe) (tbl : list FoeEntry) (entry_num : Z) :
    outcome (Z * list FoeEntry) :=
  let* entry := foe_get tbl entry_num in
  let entry := set1 entry bf_state UNBIND in
  let entry := set1 entry ud_time_stamp (Z.land (RegRead p FOE_TS) 0xFF) in
  Ret (HWNAT_SUCCESS, foe_put tbl entry_num entry).

Definition FoeDelEntryByNum (tbl : list FoeEntry) (entry_num : Z) : outcome (Z * list FoeEntry) :=
  let* _ := foe_get tbl entry_num in
  Ret (HWNAT_SUCCESS, foe_put tbl entry_num zero_entry).

Definition FoeTblClean (tbl : list FoeEntry) : list FoeEntry := (λ _, zero_entry) <$> tbl.

(** ** Listing the table *)

(** The members of [hwnat_tuple] that are written in this configuration. *)
Record hwnat_tuple := {
  hash_index : Z;
  tup_pkt_type : Z;
  ing_sipv4 : Z;
  ing_dipv4 : Z;
  ing_dipv6_0 : Z;
  ing_dipv6_1 : Z;
  ing_dipv6_2 : Z;
  ing_dipv6_3 : Z;
  eg_sipv4 : Z;
  eg_dipv4 : Z;
  ing_sp : Z;
  ing_dp : Z;
  eg_sp : Z;
  eg_dp : Z
}.
#[export] Instance hwnat_tuple_eta : Eta hwnat_tuple := λ r,
  {| hash_index := hash_index r; tup_pkt_type := tup_pkt_type r; ing_sipv4 := ing_sipv4 r;
     ing_dipv4 := ing_dipv4 r; ing_dipv6_0 := ing_dipv6_0 r; ing_dipv6_1 := ing_dipv6_1 r;
     ing_dipv6_2 := ing_dipv6_2 r; ing_dipv6_3 := ing_dipv6_3 r; eg_sipv4 := eg_sipv4 r;
     eg_dipv4 := eg_dipv4 r; ing_sp := ing_sp r; ing_dp := ing_dp r; eg_sp := eg_sp r;
     eg_dp := eg_dp r |}.

(** What is written to [entries[count]], and whether [count] advances. *)
Definition fill_tuple (i : Z) (entry : FoeEntry) (t : hwnat_tuple) : hwnat_tuple * bool :=
  let t := t ⦃ hash_index := u16 i ⦄ ⦃ tup_pkt_type := get1 entry bf_pkt_type ⦄ in
  if IS_IPV4_HNAT entry then
    (t ⦃ ing_sipv4 := sip entry ⦄ ⦃ ing_dipv4 := dip entry ⦄ ⦃ eg_sipv4 := new_sip entry ⦄
       ⦃ eg_dipv4 := new_dip entry ⦄, true)
  else if IS_IPV4_HNAPT entry then
    (t ⦃ ing_sipv4 := sip entry ⦄ ⦃ ing_dipv4 := dip entry ⦄ ⦃ eg_sipv4 := new_sip entry ⦄
       ⦃ eg_dipv4 := new_dip entry ⦄ ⦃ ing_sp := sport entry ⦄ ⦃ ing_dp := dport entry ⦄
       ⦃ eg_sp := new_sport entry ⦄ ⦃ eg_dp := new_dport entry ⦄, true)
  else if IS_IPV6_1T_ROUTE entry then
    (t ⦃ ing_dipv6_0 := new_dip entry ⦄ ⦃ ing_dipv6_1 := new_sip entry ⦄ ⦃ ing_dipv6_2 := dip entry ⦄
       ⦃ ing_dipv6_3 := sip entry ⦄, true)
  else (t, false).

(** The body of the loop; [entries] is the caller's array, whose size is not
    passed. *)
Definition list_entry (entry_state : Z) (s : list hwnat_tuple * Z) (i : Z) (entry : FoeEntry) :
    outcome (list hwnat_tuple * Z) :=
  let '(entries, count) := s in
  if get1 entry bf_state =? entry_state then
    match entries !! Z.to_nat count with
    | None => Oob
    | Some t =>
        let '(t, more) := fill_tuple i entry t in
        Ret (<[Z.to_nat count := t]> entries, if more then count + 1 else count)
    end
  else Ret (entries, count).

Fixpoint list_entries (entry_state : Z) (s : list hwnat_tuple * Z) (i : Z) (tbl : list FoeEntry) :
    outcome (list hwnat_tuple * Z) :=
  match tbl with
  | [] => Ret s
  | e :: tbl => let* s := list_entry entry_state s i e in list_entries entry_state s (i + 1) tbl
  end.

(** The result, the array and [num_of_entries], a field of 16 bits. *)
Definition FoeGetAllEntries (tbl : list FoeEntry) (entry_state : Z) (entries : list hwnat_tuple) :
    outcome (Z * list hwnat_tuple * Z) :=
  let* (entries, count) := list_entries entry_state (entries, 0) 0 tbl in
  let num_of_entries := u16 count in
  Ret (if 0 <? num_of_entries then HWNAT_SUCCESS else HWNAT_ENTRY_NOT_FOUND, entries, num_of_entries).

(** * Listing the table *)

(** The entries in a state, with their places, of the three types that are listed. *)
Fixpoint listed (s i : Z) (tbl : list FoeEntry) : list (Z * FoeEntry) :=
  match tbl with
  | [] => []
  | e :: tbl =>
      (if (get1 e bf_state =? s) && (IS_IPV4_HNAT e || IS_IPV4_HNAPT e || IS_IPV6_1T_ROUTE e)
       then [(i, e)] else []) ++ listed s (i + 1) tbl
  end.

Definition tuple_of (p : Z * FoeEntry) (t : hwnat_tuple) : hwnat_tuple := (fill_tuple p.1 p.2 t).1.

Lemma fill_tuple_more i e t :
  (fill_tuple i e t).2 = IS_IPV4_HNAT e || IS_IPV4_HNAPT e || IS_IPV6_1T_ROUTE e.
Proof. unfold fill_tuple. by destruct (IS_IPV4_HNAT e), (IS_IPV4_HNAPT e), (IS_IPV6_1T_ROUTE e). Qed.

(** The place and type that are left in the array for an entry of another type are
    overwritten by the next one. *)
Lemma tuple_of_partial p i e t :
  (fill_tuple i e t).2 = false → tuple_of p (fill_tuple i e t).1 = tuple_of p t.
Proof.
  intros Hm. unfold tuple_of. destruct p as [j e']. cbn [fst snd]. revert Hm. unfold fill_tuple at 1 3.
  destruct (IS_IPV4_HNAT e); [done|]. destruct (IS_IPV4_HNAPT e); [done|].
  destruct (IS_IPV6_1T_ROUTE e); [done|]. intros _. cbn [fst]. unfold fill_tuple.
  by destruct (IS_IPV4_HNAT e'), (IS_IPV4_HNAPT e'), (IS_IPV6_1T_ROUTE e').
Qed.

Lemma list_entries_spec s tbl i dn rest :
  (length (listed s i tbl) < length rest)%nat →
  ∃ rest', list_entries s (dn ++ rest, Z.of_nat (length dn)) i tbl =
    Ret (dn ++ zip_with tuple_of (listed s i tbl) rest ++ rest',
         Z.of_nat (length dn) + Z.of_nat (length (listed s i tbl))).
Proof.
  revert i dn rest. induction tbl as [|e tbl IH]; intros i dn rest Hl; cbn [list_entries listed] in *.
  { exists rest. by rewrite Z.add_0_r. }
  unfold list_entry. destruct (get1 e bf_state =? s) eqn:Hs; cbn [andb] in *.
  2: { destruct (IH (i + 1) dn rest Hl) as [rest' Hr]. exists rest'. exact Hr. }
  destruct rest as [|t rest]; [cbn in Hl; lia|].
  rewrite Nat2Z.id, list_lookup_middle by done.
  destruct (fill_tuple i e t) as [t' more] eqn:Hft.
  pose proof (fill_tuple_more i e t) as Hm. rewrite Hft in Hm. cbn [snd] in Hm. rewrite <-Hm in Hl |- *.
  cbn [mbind outcome_bind]. rewrite insert_app_r_alt, Nat.sub_diag by done. cbn [list_insert insert].
  destruct more.
  - cbn [app length zip_with] in *.
    destruct (IH (i + 1) (dn ++ [t']) rest) as [rest' Hr]; [lia|]. exists rest'.
    rewrite length_app in Hr. cbn [length] in Hr. rewrite <-app_assoc in Hr.
    replace (Z.of_nat (length dn) + 1) with (Z.of_nat (length dn + 1)) by lia.
    cbn [app] in Hr. rewrite Hr.
    assert (tuple_of (i, e) t = t') as -> by (unfold tuple_of; cbn [fst snd]; by rewrite Hft).
    rewrite <-app_assoc. cbn [app]. f_equal. f_equal. lia.
  - cbn [app] in *. destruct (IH (i + 1) dn (t' :: rest)) as [rest' Hr]; [done|]. exists rest'. rewrite Hr.
    f_equal. f_equal. f_equal. f_equal. destruct (listed s (i + 1) tbl) as [|p l]; [done|]. cbn [zip_with].
    f_equal. replace t' with (fill_tuple i e t).1 by by rewrite Hft.
    apply tuple_of_partial. by rewrite Hft.
Qed.

(** The list of flows is exact.  If the caller's array has room for one more
    than the flows in the asked state, the call writes exactly those, in the order
    of the table, each with its place and its fields; it returns their number, and
    reports that there is none exactly if there is none. *)
Theorem foe_list_exact tbl s entries :
  (length tbl ≤ 4096)%nat → (length (listed s 0 tbl) < length entries)%nat →
  ∃ entries', FoeGetAllEntries tbl s entries =
    Ret (if decide (listed s 0 tbl = []) then HWNAT_ENTRY_NOT_FOUND else HWNAT_SUCCESS, entries',
         Z.of_nat (length (listed s 0 tbl))) ∧
    take (length (listed s 0 tbl)) entries' = zip_with tuple_of (listed s 0 tbl) entries.
Proof.
  intros Ht Hl. destruct (list_entries_spec s tbl 0 [] entries Hl) as [rest' Hr].
  assert (Hle : ∀ i, (length (listed s i tbl) ≤ length tbl)%nat).
  { clear. induction tbl as [|e tbl IH]; intros i; [done|]. cbn [listed length]. rewrite length_app.
    specialize (IH (i + 1)). destruct (_ && _); cbn; lia. }
  specialize (Hle 0). cbn [app length] in Hr. change (Z.of_nat 0) with 0 in Hr. rewrite Z.add_0_l in Hr.
  unfold FoeGetAllEntries. rewrite Hr. cbn [mbind outcome_bind].
  rewrite u16_id by lia. eexists. split.
  - f_equal. f_equal. f_equal. case_decide as Hd; [by rewrite Hd|].
    rewrite (proj2 (Z.ltb_lt _ _)); [done|]. destruct (listed s 0 tbl); [done|cbn; lia].
  - rewrite take_app_le by (rewrite length_zip_with; lia). apply take_ge. rewrite length_zip_with. lia.
Qed.

Definition blank_tuple : hwnat_tuple :=
  {| hash_index := 0; tup_pkt_type := 0; ing_sipv4 := 0; ing_dipv4 := 0; ing_dipv6_0 := 0; ing_dipv6_1 := 0;
     ing_dipv6_2 := 0; ing_dipv6_3 := 0; eg_sipv4 := 0; eg_dipv4 := 0; ing_sp := 0; ing_dp := 0;
     eg_sp := 0; eg_dp := 0 |}.

(** A table with a bound flow, one that is not, and one of a type not listed. *)
Lemma foe_list_exact_witness :
  let tbl := [set1 zero_entry bf_state UNBIND; set1 (set1 zero_entry bf_state BIND) bf_pkt_type 3;
              (set1 zero_entry bf_state BIND) ⦃ sip := 0xC0A80102 ⦄] in
  ∃ entries', FoeGetAllEntries tbl BIND (replicate 2 blank_tuple) = Ret (HWNAT_SUCCESS, entries', 1) ∧
    (hash_index <$> take 1 entries') = [2] ∧ (ing_sipv4 <$> take 1 entries') = [0xC0A80102].
Proof.
  intros tbl. destruct (foe_list_exact tbl BIND (replicate 2 blank_tuple)) as (entries & H & Ht).
  - vm_compute. lia.
  - vm_compute. lia.
  - exists entries. split; [exact H|]. change (length (listed BIND 0 tbl)) with 1%nat in Ht. rewrite Ht.
    split; vm_compute; reflexivity.
Defined.
