(* ===== verification/PacketTx.v ===== *)
(** Packets on their way out ([ra_nat.c], [ra_nat.h]): the parser of the headers
    and [PpeTxHandler], which completes the entry of a flow and binds it, so that
    the packet engine forwards the rest of the flow without the CPU. *)

From S2P Require Import Prelude PpeRegs Foe.

(** * Byte order

    A 16-bit field of a header that the code reads raw is little endian;
    [htons] and [ntohs] swap the bytes. *)

Definition htons (v : Z) : Z := Z.lor (Z.shiftl (Z.land v 0xff) 8) (Z.land (Z.shiftr v 8) 0xff).
Definition ntohs (v : Z) : Z := htons v.

(** A raw field of [n] bytes at offset [off] of a copied header. *)
Definition raw (h : bytes) (off n : nat) : Z := of_le (take n (drop off h)).
Definition ntohl (v : Z) : Z := of_be (le32 v).

Definition ETH_ALEN : nat := 6.
Definition ETH_HLEN : nat := 14.
Definition VLAN_HLEN : nat := 4.
Definition VLAN_VID_MASK : Z := 0xfff.
Definition ETH_P_IP : Z := 0x0800.
Definition ETH_P_8021Q : Z := 0x8100.
Definition ETH_P_IPV6 : Z := 0x86DD.
Definition ETH_P_PPP_SES : Z := 0x8864.
Definition PPP_IP : Z := 0x21.
Definition PPP_IPV6 : Z := 0x57.
Definition IPPROTO_TCP : Z := 6.
Definition IPPROTO_UDP : Z := 17.
Definition NEXTHDR_TCP : Z := 6.
Definition NEXTHDR_UDP : Z := 17.
Definition NEXTHDR_IPIP : Z := 4.
Definition IP_MF : Z := 0x2000.
Definition IP_OFFSET : Z := 0x1FFF.

(** * Packets *)

Record net_device := { dev_id : Z; dev_name : bytes }.

(** [skb_buf] is the memory from [skb->head] to [skb->end], and [skb_data],
    [skb_mac], [skb_nh] and [skb_h] are offsets in it. *)
Record sk_buff := {
  skb_buf : bytes;
  skb_data : nat;
  skb_mac : nat;
  skb_nh : nat;
  skb_h : nat;
  skb_dev : net_device;
  skb_protocol : Z;
  skb_pkt_type : Z
}.
#[export] Instance sk_buff_eta : Eta sk_buff := λ r,
  {| skb_buf := skb_buf r; skb_data := skb_data r; skb_mac := skb_mac r; skb_nh := skb_nh r;
     skb_h := skb_h r; skb_dev := skb_dev r; skb_protocol := skb_protocol r;
     skb_pkt_type := skb_pkt_type r |}.

(** The six bytes at [skb->head] describe how the engine saw the packet
    ([PdmaRxDescInfo4]). *)
Definition FOE_INFO_LEN : nat := 6.
Definition FOE_MAGIC_PCI : Z := 0x7273.
Definition FOE_MAGIC_WLAN : Z := 0x7274.
Definition FOE_MAGIC_GE : Z := 0x7275.

Record foe_info := { fi_magic : Z; fi_word : Z }.

Definition foe_info_of (skb : sk_buff) : outcome foe_info :=
  let* i := load (skb_buf skb) 0 FOE_INFO_LEN in
  Ret {| fi_magic := raw i 0 2; fi_word := raw i 2 4 |}.

Definition FOE_MAGIC_TAG (i : foe_info) : Z := fi_magic i.
Definition FOE_ENTRY_NUM (i : foe_info) : Z := field (fi_word i) 0 14.
Definition FOE_ALG (i : foe_info) : Z := field (fi_word i) 15 1.
Definition FOE_AI (i : foe_info) : Z := field (fi_word i) 16 8.
Definition FOE_SP (i : foe_info) : Z := field (fi_word i) 24 3.

Definition IS_MAGIC_TAG_VALID (i : foe_info) : bool :=
  (FOE_MAGIC_TAG i =? FOE_MAGIC_PCI) || (FOE_MAGIC_TAG i =? FOE_MAGIC_GE) ||
  (FOE_MAGIC_TAG i =? FOE_MAGIC_WLAN).

(** The reasons ([AI]) that the handlers distinguish. *)
Definition HIT_UNBIND_RATE_REACH : Z := 0x95.
Definition HIT_BIND_KEEPALIVE : Z := 0x98.
Definition HIT_BIND_FORCE_TO_CPU : Z := 0x99.
Definition DFL_FOE_TTL_REGEN : Z := 1.

(** [memset (FOE_INFO_START_ADDR (skb), 0, FOE_INFO_LEN)] *)
Definition clear_foe_info (skb : sk_buff) : outcome sk_buff :=
  let* b := store (skb_buf skb) 0 (replicate FOE_INFO_LEN 0) in
  Ret (skb ⦃ skb_buf := b ⦄).

(** * The parser *)

(** The headers are copied as bytes. *)
Record PktParseResult := {
  dmac : bytes;
  smac : bytes;
  vlan_tag : Z;
  vlan1_gap : nat;
  r_vlan1 : Z;
  vlan2_gap : nat;
  r_vlan2 : Z;
  vlan_layer : Z;
  pppoe_gap : nat;
  ppp_tag : Z;
  pppoe_sid : Z;
  eth_type : Z;
  iph : bytes;
  ip6h : bytes;
  th : bytes;
  uh : bytes;
  pkt_type : Z
}.
#[export] Instance PktParseResult_eta : Eta PktParseResult := λ r,
  {| dmac := dmac r; smac := smac r; vlan_tag := vlan_tag r; vlan1_gap := vlan1_gap r;
     r_vlan1 := r_vlan1 r; vlan2_gap := vlan2_gap r; r_vlan2 := r_vlan2 r;
     vlan_layer := vlan_layer r; pppoe_gap := pppoe_gap r; ppp_tag := ppp_tag r;
     pppoe_sid := pppoe_sid r; eth_type := eth_type r; iph := iph r; ip6h := ip6h r; th := th r;
     uh := uh r; pkt_type := pkt_type r |}.

Definition sizeof_iphdr : nat := 20.
Definition sizeof_ipv6hdr : nat := 40.
Definition sizeof_tcphdr : nat := 20.
Definition sizeof_udphdr : nat := 8.

Definition zero_result : PktParseResult :=
  {| dmac := replicate 6 0; smac := replicate 6 0; vlan_tag := 0; vlan1_gap := 0; r_vlan1 := 0;
     vlan2_gap := 0; r_vlan2 := 0; vlan_layer := 0; pppoe_gap := 0; ppp_tag := 0; pppoe_sid := 0;
     eth_type := 0; iph := replicate sizeof_iphdr 0; ip6h := replicate sizeof_ipv6hdr 0;
     th := replicate sizeof_tcphdr 0; uh := replicate sizeof_udphdr 0; pkt_type := 0 |}.

(** The members of a copied [iphdr], [tcphdr] and [udphdr] that are used. *)
Definition ip_ihl (h : bytes) : Z := Z.land (raw h 0 1) 0xf.
Definition ip_tos (h : bytes) : Z := raw h 1 1.
Definition ip_frag_off (h : bytes) : Z := raw h 6 2.
Definition ip_protocol (h : bytes) : Z := raw h 9 1.
Definition ip_saddr (h : bytes) : Z := raw h 12 4.
Definition ip_daddr (h : bytes) : Z := raw h 16 4.
Definition l4_source (h : bytes) : Z := raw h 0 2.
Definition l4_dest (h : bytes) : Z := raw h 2 2.

(** [ver] and [type] are the low and the high half of the first byte of the
    PPPoE header; [tag[0].tag_type] is the protocol of the PPP frame. *)
Definition GetPppoeSid (skb : sk_buff) (vlan_gap : nat) (r : PktParseResult) :
    outcome (Z * PktParseResult) :=
  let* peh := load (skb_buf skb) (skb_data skb + ETH_HLEN + vlan_gap) 8 in
  let r := r ⦃ ppp_tag := raw peh 6 2 ⦄ in
  if negb (Z.land (raw peh 0 1) 0xf =? 1) || negb (Z.shiftr (raw peh 0 1) 4 =? 1) ||
     (negb (ppp_tag r =? htons PPP_IP) && negb (ppp_tag r =? htons PPP_IPV6))
  then Ret (1, r)
  else Ret (0, r ⦃ pppoe_sid := raw peh 2 2 ⦄).

Definition isSpecialTag (_ : Z) : bool := false.
Definition isHwVlanTx (_ : sk_buff) : bool := false.
Definition is8021Q (r : PktParseResult) (t : Z) : bool * PktParseResult :=
  if t =? htons ETH_P_8021Q then (true, r ⦃ vlan_tag := t ⦄) else (false, r).

(** The branches for PPPoE: the result of [GetPppoeSid], and the new type. *)
Definition parse_pppoe (skb : sk_buff) (gap : nat) (r : PktParseResult) (proto : Z) :
    outcome (Z * PktParseResult) :=
  let r := r ⦃ pppoe_gap := 8%nat ⦄ in
  let* (ret, r) := GetPppoeSid skb gap r in
  if negb (ret =? 0) then Ret (1, r) else Ret (0, r ⦃ eth_type := proto ⦄).

(** [struct vlan_hdr]: the tag and the type of what follows. *)
Definition load_vlan (skb : sk_buff) (off : nat) : outcome (Z * Z) :=
  let* vh := load (skb_buf skb) (skb_data skb + off) 4 in Ret (raw vh 0 2, raw vh 2 2).

(** The tags: VLAN, VLAN in VLAN, PPPoE. *)
Definition parse_tags (skb : sk_buff) (r : PktParseResult) : outcome (Z * PktParseResult) :=
  let '(q, r) := is8021Q r (eth_type r) in
  if q || isSpecialTag (eth_type r) || isHwVlanTx skb then
    let r := r ⦃ vlan1_gap := VLAN_HLEN ⦄ ⦃ vlan_layer := vlan_layer r + 1 ⦄ in
    let* (tci, proto) := load_vlan skb ETH_HLEN in
    let r := r ⦃ r_vlan1 := tci ⦄ in
    if ntohs proto =? ETH_P_PPP_SES then parse_pppoe skb (vlan1_gap r) r proto
    else
      let '(q, r) := is8021Q r proto in
      if q || isSpecialTag proto then
        let r := r ⦃ vlan2_gap := VLAN_HLEN ⦄ ⦃ vlan_layer := vlan_layer r + 1 ⦄ in
        let* (tci, proto) := load_vlan skb (ETH_HLEN + vlan1_gap r) in
        let r := r ⦃ r_vlan2 := tci ⦄ in
        if ntohs proto =? ETH_P_PPP_SES then
          parse_pppoe skb (vlan1_gap r + vlan2_gap r) r proto
        else Ret (0, r ⦃ eth_type := proto ⦄)
      else Ret (0, r ⦃ eth_type := proto ⦄)
  else if ntohs (eth_type r) =? ETH_P_PPP_SES then
    parse_pppoe skb (vlan1_gap r) r (eth_type r)
  else Ret (0, r).

(** The test for IPv4 or IPv6, also over PPPoE. *)
Definition is_l3 (r : PktParseResult) (eth ppp : Z) : bool :=
  (eth_type r =? htons eth) || ((eth_type r =? htons ETH_P_PPP_SES) && (ppp_tag r =? htons ppp)).

(** The transport header at [off]: [LAYER4_HEADER] and its copy. *)
Definition parse_l4 (skb : sk_buff) (r : PktParseResult) (off : nat) (tcp : bool) (type : Z) :
    outcome (sk_buff * PktParseResult) :=
  let skb := skb ⦃ skb_h := off ⦄ in
  if tcp then
    let* t := load (skb_buf skb) off sizeof_tcphdr in
    Ret (skb, r ⦃ th := t ⦄ ⦃ pkt_type := type ⦄)
  else
    let* u := load (skb_buf skb) off sizeof_udphdr in
    Ret (skb, r ⦃ uh := u ⦄ ⦃ pkt_type := type ⦄).

Definition parse_ipv4 (skb : sk_buff) (r : PktParseResult) : outcome (Z * sk_buff * PktParseResult) :=
  let* h := load (skb_buf skb) (skb_nh skb) sizeof_iphdr in
  let r := r ⦃ iph := h ⦄ in
  let tcp := ip_protocol h =? IPPROTO_TCP in
  if tcp || (ip_protocol h =? IPPROTO_UDP) then
    let* (skb, r) := parse_l4 skb r (skb_nh skb + Z.to_nat (ip_ihl h * 4)) tcp IPV4_HNAPT in
    if negb (Z.land (ip_frag_off h) (htons (Z.lor IP_MF IP_OFFSET)) =? 0) then Ret (1, skb, r)
    else Ret (0, skb, r)
  else Ret (1, skb, r).

(** [ip6h + sizeof (struct ipv6hdr)] is pointer arithmetic: forty headers on. *)
Definition parse_ipv6 (skb : sk_buff) (r : PktParseResult) : outcome (Z * sk_buff * PktParseResult) :=
  let* h := load (skb_buf skb) (skb_nh skb) sizeof_ipv6hdr in
  let r := r ⦃ ip6h := h ⦄ in
  let nexthdr := raw h 6 1 in
  let tcp := nexthdr =? NEXTHDR_TCP in
  if tcp || (nexthdr =? NEXTHDR_UDP) then
    let* (skb, r) := parse_l4 skb r (skb_nh skb + sizeof_ipv6hdr) tcp IPV6_5T_ROUTE in
    Ret (0, skb, r)
  else if nexthdr =? NEXTHDR_IPIP then
    let* i := load (skb_buf skb) (skb_nh skb + sizeof_ipv6hdr * sizeof_ipv6hdr) sizeof_iphdr in
    Ret (0, skb, r ⦃ iph := i ⦄ ⦃ pkt_type := IPV4_DSLITE ⦄)
  else Ret (0, skb, r ⦃ pkt_type := IPV6_1T_ROUTE ⦄).

Definition PpeParseLayerInfo (skb : sk_buff) : outcome (Z * sk_buff * PktParseResult) :=
  let* eth := load (skb_buf skb) (skb_data skb) ETH_HLEN in
  let r := zero_result ⦃ dmac := take ETH_ALEN eth ⦄ ⦃ smac := take ETH_ALEN (drop ETH_ALEN eth) ⦄
             ⦃ eth_type := raw eth 12 2 ⦄ in
  if negb (Z.land 1 (raw eth 0 1) =? 0) then Ret (1, skb, r)
  else
    let* (ret, r) := parse_tags skb r in
    if negb (ret =? 0) then Ret (1, skb, r)
    else
      let skb := skb ⦃ skb_mac := skb_data skb ⦄ in
      let skb := skb ⦃ skb_nh := (skb_data skb + ETH_HLEN + vlan1_gap r + vlan2_gap r + pppoe_gap r)%nat ⦄ in
      if is_l3 r ETH_P_IP PPP_IP then parse_ipv4 skb r
      else if is_l3 r ETH_P_IPV6 PPP_IPV6 then parse_ipv6 skb r
      else Ret (1, skb, r).

(** * Completing the entry *)

(** The configuration the handlers read: the devices, and the globals
    [bind_dir], [lan_vid], [wan_vid] and [DebugLevel].  The VLAN identifiers are
    defined as [unsigned char] and declared [uint16_t] in [ra_nat.c];
    [nc_lan_vid] and [nc_wan_vid] are the values as [ra_nat.c] reads them. *)
Record nat_conf := {
  DstPort : list (option net_device);
  nc_bind_dir : Z;
  nc_lan_vid : Z;
  nc_wan_vid : Z;
  DebugLevel : Z
}.

Definition UPSTREAM_ONLY : Z := 0.
Definition DOWNSTREAM_ONLY : Z := 1.
Definition BIDIRECTION : Z := 2.
Definition DP_PCI : nat := 62.
Definition MAX_IF_NUM : nat := 63.

(** Storing a MAC address into the block of an entry. *)
Definition set_mac (blk mac : bytes) : outcome bytes :=
  let* m := FoeSetMacInfo (blk ++ mac) 0 (length blk) in Ret (take (length blk) m).

Definition vlan_action (gap : nat) : Z := if decide (gap = 0%nat) then DELETE else INSERT.

(** The result 1 leaves the entry as it is. *)
Definition PpeFillInL2Info (r : PktParseResult) (foe_entry : FoeEntry) : outcome (Z * FoeEntry) :=
  if get1 foe_entry bf_state =? BIND then Ret (1, foe_entry)
  else
    let* d := set_mac (dmac_blk foe_entry) (dmac r) in
    let* s := set_mac (smac_blk foe_entry) (smac r) in
    let e := foe_entry ⦃ dmac_blk := set_blk_tag d (ntohs (r_vlan1 r)) ⦄
                       ⦃ smac_blk := set_blk_tag s (ntohs (pppoe_sid r)) ⦄
                       ⦃ vlan2 := ntohs (r_vlan2 r) ⦄ in
    let e := set1 e bf_v1 (vlan_action (vlan1_gap r)) in
    let e := set1 e bf_v2 (vlan_action (vlan2_gap r)) in
    Ret (0, set1 e bf_pppoe (vlan_action (pppoe_gap r))).

Definition PpeFillInL3Info (r : PktParseResult) (foe_entry : FoeEntry) : Z * FoeEntry :=
  if is_l3 r ETH_P_IP PPP_IP then
    if (pkt_type r =? IPV4_HNAT) || (pkt_type r =? IPV4_HNAPT) then
      if get1 foe_entry bf_pkt_type =? IPV4_DSLITE then (0, foe_entry)
      else
        let e := foe_entry ⦃ new_sip := ntohl (ip_saddr (iph r)) ⦄
                           ⦃ new_dip := ntohl (ip_daddr (iph r)) ⦄ in
        (0, set2 e ib2_dscp (ip_tos (iph r)))
    else (0, foe_entry)
  else if is_l3 r ETH_P_IPV6 PPP_IPV6 then (0, foe_entry)
  else (1, foe_entry).

(** Early chips cannot do it for UDP: the revision is read from a register. *)
Definition CHIP_REV : Z := 0xB000000C.

Definition set_ports (e : FoeEntry) (h : bytes) (proto : Z) : FoeEntry :=
  let e := e ⦃ new_sport := ntohs (l4_source h) ⦄ ⦃ new_dport := ntohs (l4_dest h) ⦄ in
  set1 e bf_udp proto.

Definition PpeFillInL4Info (p : ppe) (r : PktParseResult) (foe_entry : FoeEntry) : Z * FoeEntry :=
  if pkt_type r =? IPV4_HNAPT then
    if ip_protocol (iph r) =? IPPROTO_TCP then (0, set_ports foe_entry (th r) TCP)
    else if ip_protocol (iph r) =? IPPROTO_UDP then
      let e := set_ports foe_entry (uh r) UDP in
      if RegRead p CHIP_REV <=? 0x0104 then (1, e) else (0, e)
    else (0, foe_entry)
  else (0, foe_entry).

(** [strncmp (name, prefix, strlen (prefix)) == 0]; a name ends with 0. *)
Definition has_prefix (prefix name : bytes) : bool :=
  bool_decide (take (length prefix) name = prefix).

(** "ra", "wds", "mesh" and "apcli", or the device of the PCI bus. *)
Definition cpu_device (c : nat_conf) (d : net_device) : bool :=
  existsb (λ prefix, has_prefix prefix (dev_name d))
    [[114; 97]; [119; 100; 115]; [109; 101; 115; 104]; [97; 112; 99; 108; 105]] ||
  match DstPort c !! DP_PCI with Some (Some d') => dev_id d' =? dev_id d | _ => false end.

Definition PpeSetForcePortInfo (c : nat_conf) (skb : sk_buff) (foe_entry : FoeEntry) : Z * FoeEntry :=
  let e := set2 foe_entry ib2_fd 1 in
  if cpu_device c (skb_dev skb) then (1, e)
  else
    let vid := Z.land (vlan1 e) VLAN_VID_MASK in
    if vid =? nc_lan_vid c then
      if (nc_bind_dir c =? DOWNSTREAM_ONLY) || (nc_bind_dir c =? BIDIRECTION) then (0, set2 e ib2_dp 1)
      else (1, e)
    else if vid =? nc_wan_vid c then
      if (nc_bind_dir c =? UPSTREAM_ONLY) || (nc_bind_dir c =? BIDIRECTION) then (0, set2 e ib2_dp 2)
      else (1, e)
    else (0, set2 e ib2_dp 1).

Definition PpeSetExtIfNum (_ : sk_buff) (foe_entry : FoeEntry) : Z * FoeEntry := (0, foe_entry).

Definition PpeSetEntryBind (p : ppe) (foe_entry : FoeEntry) : FoeEntry :=
  let current_time := Z.land (RegRead p FOE_TS) 0xFFFF in
  let e := set1 foe_entry bf_time_stamp current_time in
  let e := set1 e bf_ttl DFL_FOE_TTL_REGEN in
  set1 e bf_state BIND.

(** The calls after the parser: the first that does not return 0 ends the
    sequence, with what it and the ones before have written. *)
Definition bind_entry (p : ppe) (c : nat_conf) (skb : sk_buff) (r : PktParseResult) (e : FoeEntry) :
    outcome (Z * FoeEntry) :=
  let* (ret, e) := PpeFillInL2Info r e in
  if negb (ret =? 0) then Ret (1, e) else
  let '(ret, e) := PpeFillInL3Info r e in
  if negb (ret =? 0) then Ret (1, e) else
  let '(ret, e) := PpeFillInL4Info p r e in
  if negb (ret =? 0) then Ret (1, e) else
  let '(ret, e) := PpeSetForcePortInfo c skb e in
  if negb (ret =? 0) then Ret (1, e) else
  let '(ret, e) := PpeSetExtIfNum skb e in
  if negb (ret =? 0) then Ret (1, e) else
  Ret (0, PpeSetEntryBind p e).

(** The result, the packet and the table.  [PpeSetEntryBind] prints the entry at
    the default debug level; output at higher levels is left out. *)
Definition PpeTxHandler (p : ppe) (c : nat_conf) (tbl : list FoeEntry) (skb : sk_buff) :
    outcome (Z * sk_buff * list FoeEntry) :=
  let* i := foe_info_of skb in
  if IS_MAGIC_TAG_VALID i && (FOE_AI i =? HIT_UNBIND_RATE_REACH) && (FOE_ALG i =? 0) then
    let* (ret, skb, r) := PpeParseLayerInfo skb in
    if negb (ret =? 0) then let* skb := clear_foe_info skb in Ret (1, skb, tbl)
    else
      let* e := foe_get tbl (FOE_ENTRY_NUM i) in
      let* (ret, e) := bind_entry p c skb r e in
      let tbl := foe_put tbl (FOE_ENTRY_NUM i) e in
      if negb (ret =? 0) then let* skb := clear_foe_info skb in Ret (1, skb, tbl)
      else if 1 <=? DebugLevel c then
        let* _ := FoeDumpEntry tbl (FOE_ENTRY_NUM i) in Ret (1, skb, tbl)
      else Ret (1, skb, tbl)
  else if IS_MAGIC_TAG_VALID i && (FOE_AI i =? HIT_BIND_KEEPALIVE) && (DFL_FOE_KA =? 0) then
    let* skb := clear_foe_info skb in Ret (0, skb, tbl)
  else Ret (1, skb, tbl).
