(* ===== verification/PacketSpec.v ===== *)
(** Frames and their bytes: what the parser of [PacketTx] finds in a frame that is
    built from its headers, and what the steps of [PpeTxHandler] do to an entry. *)

From S2P Require Import Prelude PpeRegs Foe PacketTx.

(** * Frames of IPv4 *)

(** The fields the code uses, and the rest of each header as bytes.  [f_pppoe] is
    the code, the session and the length of a PPPoE header. *)
Record frame := {
  f_dst : bytes;
  f_src : bytes;
  f_vlans : list Z;
  f_pppoe : option (Z * Z * bytes);
  f_tos : Z;
  f_len_id : bytes;
  f_frag : Z;
  f_ttl : Z;
  f_udp : bool;
  f_check : bytes;
  f_saddr : Z;
  f_daddr : Z;
  f_options : bytes;
  f_sport : Z;
  f_dport : Z;
  f_rest : bytes
}.

(** The type of the frame with the tags before it. *)
Fixpoint encode_tags (vlans : list Z) (pppoe : option (Z * Z * bytes)) : bytes :=
  match vlans with
  | tci :: vlans => be16 ETH_P_8021Q ++ be16 tci ++ encode_tags vlans pppoe
  | [] =>
      match pppoe with
      | Some (code, sid, len) => be16 ETH_P_PPP_SES ++ [0x11; code] ++ be16 sid ++ len ++ be16 PPP_IP
      | None => be16 ETH_P_IP
      end
  end.

Definition f_protocol (f : frame) : Z := if f_udp f then IPPROTO_UDP else IPPROTO_TCP.

Definition encode_ip (f : frame) : bytes :=
  [0x45 + Z.of_nat (length (f_options f) / 4); f_tos f] ++ f_len_id f ++ be16 (f_frag f) ++
  [f_ttl f; f_protocol f] ++ f_check f ++ be32 (f_saddr f) ++ be32 (f_daddr f).

Definition encode_l4 (f : frame) : bytes := be16 (f_sport f) ++ be16 (f_dport f) ++ f_rest f.

Definition encode (f : frame) : bytes :=
  f_dst f ++ f_src f ++ encode_tags (f_vlans f) (f_pppoe f) ++ encode_ip f ++ f_options f ++ encode_l4 f.

(** A frame that the parser can deal with: unicast, at most two VLAN tags, not a
    fragment, options of at most 40 bytes, and a whole transport header. *)
Record frame_ok (f : frame) : Prop := {
  fo_dst : length (f_dst f) = 6%nat;
  fo_unicast : Z.land 1 (nth 0 (f_dst f) 0) = 0;
  fo_src : length (f_src f) = 6%nat;
  fo_vlans : (length (f_vlans f) ≤ 2)%nat ∧ Forall (λ t, 0 ≤ t < 2 ^ 16) (f_vlans f);
  fo_pppoe : match f_pppoe f with Some (_, sid, len) => 0 ≤ sid < 2 ^ 16 ∧ length len = 2%nat | None => True end;
  fo_tos : 0 ≤ f_tos f < 256;
  fo_len_id : length (f_len_id f) = 4%nat;
  fo_frag : 0 ≤ f_frag f < 2 ^ 16 ∧ Z.land (f_frag f) (Z.lor IP_MF IP_OFFSET) = 0;
  fo_check : length (f_check f) = 2%nat;
  fo_addrs : 0 ≤ f_saddr f < 2 ^ 32 ∧ 0 ≤ f_daddr f < 2 ^ 32;
  fo_options : ∃ k, length (f_options f) = (4 * k)%nat ∧ (k ≤ 10)%nat;
  fo_ports : 0 ≤ f_sport f < 2 ^ 16 ∧ 0 ≤ f_dport f < 2 ^ 16;
  fo_rest : ((if f_udp f then 4 else 16) ≤ length (f_rest f))%nat
}.

(** * Reading bytes *)

(** [load] by recursion over the buffer. *)
Fixpoint peek (l : bytes) (n : nat) {struct n} : outcome bytes :=
  match n, l with
  | O, _ => Ret []
  | S n, x :: l => let* d := peek l n in Ret (x :: d)
  | S _, [] => Oob
  end.
Fixpoint load_s (l : bytes) (off n : nat) {struct off} : outcome bytes :=
  match off, l with
  | O, _ => peek l n
  | S off, _ :: l => load_s l off n
  | S _, [] => Oob
  end.

Lemma peek_load l n : peek l n = load l 0 n.
Proof.
  revert n. induction l as [|x l IH]; intros [|n]; cbn [peek]; try done.
  rewrite IH. unfold load. rewrite !drop_0. cbn [take length].
  repeat case_decide; cbn in *; [done|lia..|done].
Qed.

Lemma load_s_load l off n : load l off n = load_s l off n.
Proof.
  revert off. induction l as [|x l IH]; intros [|off]; cbn [load_s]; rewrite ?peek_load; try done.
  rewrite <-IH. unfold load. cbn [drop length]. by repeat case_decide; try lia.
Qed.

Lemma load_app pre l k off n :
  k = length pre → load (pre ++ l) (k + off) n = load_s l off n.
Proof.
  intros ->. rewrite <-load_s_load. unfold load. rewrite length_app.
  rewrite drop_app_add. by repeat case_decide; try lia.
Qed.

Lemma load_app_len a b n : n = length a → load_s (a ++ b) 0 n = Ret a.
Proof.
  intros ->. rewrite <-load_s_load. apply load_Ret. rewrite length_app. split; [lia|].
  by rewrite drop_0, take_app_length.
Qed.

Lemma load_s_skip a b k off n : k = length a → load_s (a ++ b) (k + off) n = load_s b off n.
Proof. intros. rewrite <-!load_s_load. rewrite load_app by done. by rewrite load_s_load. Qed.

(** * Byte order *)

Lemma swap16_spec v : 0 ≤ v < 65536 → htons v = u8 v * 256 + v / 256.
Proof.
  intros Hv. unfold htons, u8.
  change 0xff with (Z.ones 8). rewrite !Z.land_ones, Z.shiftl_mul_pow2, Z.shiftr_div_pow2 by lia.
  rewrite <-Z.lxor_lor, <-Z.add_nocarry_lxor.
  - change (2 ^ 8) with 256. rewrite (Z.mod_small (v / 256)) by zlia. lia.
  - apply Z.bits_inj'. intros i Hi. rewrite Z.land_spec, Z.bits_0.
    destruct (decide (i < 8)); [by rewrite Z.mul_pow2_bits_low by lia|].
    by rewrite Z.mod_pow2_bits_high, andb_false_r by lia.
  - apply Z.bits_inj'. intros i Hi. rewrite Z.land_spec, Z.bits_0.
    destruct (decide (i < 8)); [by rewrite Z.mul_pow2_bits_low by lia|].
    by rewrite Z.mod_pow2_bits_high, andb_false_r by lia.
Qed.

Lemma htons_be16 v : 0 ≤ v < 65536 → htons v = of_le (be16 v).
Proof. intros. rewrite swap16_spec by done. unfold of_le, be16, u8. cbn. zlia. Qed.

Lemma of_le_be16_range v : 0 ≤ of_le (be16 v) < 65536.
Proof. unfold of_le, be16. cbn. pose proof (u8_range v). pose proof (u8_range (v / 256)). lia. Qed.

Lemma ntohs_be16 v : 0 ≤ v < 65536 → ntohs (of_le (be16 v)) = v.
Proof.
  intros. unfold ntohs. rewrite swap16_spec by apply of_le_be16_range.
  unfold of_le, be16, u8. cbn. zlia.
Qed.

Lemma be16_eqb v w :
  0 ≤ v < 65536 → 0 ≤ w < 65536 → (of_le (be16 v) =? htons w) = (v =? w).
Proof.
  intros. rewrite htons_be16 by done. apply eq_iff_eq_true. rewrite !Z.eqb_eq.
  split; [|by intros ->]. intros He. by rewrite <-(ntohs_be16 v), He, ntohs_be16.
Qed.

Lemma ntohl_be32 v : 0 ≤ v < 2 ^ 32 → ntohl (of_le (be32 v)) = v.
Proof.
  intros. unfold ntohl, le32, be32, of_le, of_be. cbn.
  pose proof (u8_range v). pose proof (u8_range (v / 256)).
  pose proof (u8_range (v / 65536)). pose proof (u8_range (v / 16777216)).
  set (a := u8 v) in *. set (b := u8 (v / 256)) in *. set (c := u8 (v / 65536)) in *.
  set (d := u8 (v / 16777216)) in *.
  assert (v = a + 256 * (b + 256 * (c + 256 * d))) as Hv by (unfold a, b, c, d, u8; zlia).
  unfold u8. zlia.
Qed.

Lemma htons_bits v i :
  0 ≤ i → Z.testbit (htons v) i =
    if decide (i < 8) then Z.testbit v (i + 8) else if decide (i < 16) then Z.testbit v (i - 8) else false.
Proof.
  intros Hi. unfold htons. change 0xff with (Z.ones 8).
  rewrite Z.lor_spec, Z.shiftl_spec, !Z.land_spec, Z.shiftr_spec by lia.
  destruct (decide (i < 8)).
  - rewrite (Z.testbit_neg_r v (i - 8)), (Z.testbit_ones_nonneg 8 i) by lia.
    rewrite (proj2 (Z.ltb_lt i 8)) by lia. by rewrite andb_true_r.
  - rewrite (Z.testbit_ones_nonneg 8 i), (Z.testbit_ones_nonneg 8 (i - 8)) by lia.
    rewrite (proj2 (Z.ltb_ge i 8)) by lia. rewrite andb_false_r, orb_false_r.
    case_decide; [rewrite (proj2 (Z.ltb_lt (i - 8) 8)) by lia; apply andb_true_r|].
    rewrite (proj2 (Z.ltb_ge (i - 8) 8)) by lia. apply andb_false_r.
Qed.

Lemma htons_land a b : Z.land (htons a) (htons b) = htons (Z.land a b).
Proof.
  apply Z.bits_inj'. intros i Hi. rewrite Z.land_spec, !htons_bits, !Z.land_spec by done.
  by repeat case_decide.
Qed.

(** * The parser on the bytes of a frame *)

(** What the tags add to the result. *)
Definition tags_result (r : PktParseResult) (vlans : list Z) (pppoe : option (Z * Z * bytes)) :
    PktParseResult :=
  let r := match vlans with
           | [] => r
           | t :: _ => r ⦃ vlan_tag := htons ETH_P_8021Q ⦄ ⦃ vlan1_gap := 4%nat ⦄
                         ⦃ vlan_layer := Z.of_nat (length vlans) ⦄ ⦃ r_vlan1 := of_le (be16 t) ⦄
           end in
  let r := match vlans with
           | _ :: t :: _ => r ⦃ vlan2_gap := 4%nat ⦄ ⦃ r_vlan2 := of_le (be16 t) ⦄
           | _ => r
           end in
  match pppoe with
  | Some (_, sid, _) => r ⦃ pppoe_gap := 8%nat ⦄ ⦃ ppp_tag := htons PPP_IP ⦄
                          ⦃ pppoe_sid := of_le (be16 sid) ⦄ ⦃ eth_type := htons ETH_P_PPP_SES ⦄
  | None => r ⦃ eth_type := htons ETH_P_IP ⦄
  end.

(** ** One layer at a time *)

Lemma is8021Q_be16 r v :
  0 ≤ v < 65536 →
  is8021Q r (of_le (be16 v)) =
    if v =? ETH_P_8021Q then (true, r ⦃ vlan_tag := of_le (be16 v) ⦄) else (false, r).
Proof. intros. unfold is8021Q. by rewrite be16_eqb. Qed.

Lemma is8021Q_no r v :
  0 ≤ v < 65536 → v ≠ ETH_P_8021Q → is8021Q r (of_le (be16 v)) = (false, r).
Proof. intros. rewrite is8021Q_be16 by done. by rewrite (proj2 (Z.eqb_neq _ _)). Qed.

Lemma is8021Q_yes r :
  is8021Q r (of_le (be16 ETH_P_8021Q)) = (true, r ⦃ vlan_tag := htons ETH_P_8021Q ⦄).
Proof. done. Qed.

Lemma load_vlan_at skb off a b :
  load (skb_buf skb) (skb_data skb + off) 4 = Ret (be16 a ++ be16 b) →
  load_vlan skb off = Ret (of_le (be16 a), of_le (be16 b)).
Proof. intros H. unfold load_vlan. rewrite H. reflexivity. Qed.

Lemma parse_pppoe_at skb gap r proto code sid len :
  length len = 2%nat →
  load (skb_buf skb) (skb_data skb + (ETH_HLEN + gap)) 8 =
    Ret ([0x11; code] ++ be16 sid ++ len ++ be16 PPP_IP) →
  parse_pppoe skb gap r proto =
    Ret (0, r ⦃ pppoe_gap := 8%nat ⦄ ⦃ ppp_tag := htons PPP_IP ⦄ ⦃ pppoe_sid := of_le (be16 sid) ⦄
              ⦃ eth_type := proto ⦄).
Proof.
  intros Hlen H. do 3 (destruct len as [|? len]; try done).
  unfold parse_pppoe, GetPppoeSid. rewrite <-Nat.add_assoc, H. reflexivity.
Qed.

(** ** The headers of a frame *)

Section Headers.
Context (f : frame) (Hf : frame_ok f).

Definition first_result : PktParseResult :=
  zero_result ⦃ dmac := f_dst f ⦄ ⦃ smac := f_src f ⦄
    ⦃ eth_type := of_le (take 2 (encode_tags (f_vlans f) (f_pppoe f))) ⦄.

Lemma first_type v :
  take 2 (encode_tags (f_vlans f) (f_pppoe f)) = be16 v → eth_type first_result = of_le (be16 v).
Proof. intros H. unfold first_result. rewrite H. done. Qed.

Lemma length_tags :
  length (encode_tags (f_vlans f) (f_pppoe f)) =
    (2 + vlan1_gap (tags_result first_result (f_vlans f) (f_pppoe f)) +
     vlan2_gap (tags_result first_result (f_vlans f) (f_pppoe f)) +
     pppoe_gap (tags_result first_result (f_vlans f) (f_pppoe f)))%nat.
Proof.
  destruct Hf as [_ _ _ [Hl _] Hs _ _ _ _ _ _ _ _].
  destruct (f_pppoe f) as [[[code sid] len]|];
    destruct (f_vlans f) as [|t [|u [|]]]; cbn in *; try lia; rewrite ?length_app; cbn; lia.
Qed.

Lemma length_encode_ip : length (encode_ip f) = 20%nat.
Proof. destruct Hf. unfold encode_ip. rewrite !length_app. cbn. lia. Qed.

Lemma ihl_frame : Z.to_nat (ip_ihl (encode_ip f) * 4) = (20 + length (f_options f))%nat.
Proof.
  destruct Hf as [_ _ _ _ _ _ _ _ _ _ (k & Hk & Hle) _ _]. rewrite Hk.
  unfold ip_ihl, raw, encode_ip. rewrite Hk, Nat.mul_comm, Nat.div_mul by lia. cbn [app drop take of_le foldr].
  do 11 (destruct k as [|k]; [reflexivity|]). lia.
Qed.

(** What is parsed of the frame. *)
Definition frame_result : PktParseResult :=
  let r := (tags_result first_result (f_vlans f) (f_pppoe f)) ⦃ iph := encode_ip f ⦄ in
  (if f_udp f then r ⦃ uh := take 8 (encode_l4 f) ⦄ else r ⦃ th := take 20 (encode_l4 f) ⦄)
    ⦃ pkt_type := IPV4_HNAPT ⦄.

Lemma length_encode_l4 : ((if f_udp f then 8 else 20) ≤ length (encode_l4 f))%nat.
Proof. destruct Hf. unfold encode_l4. rewrite !length_app. cbn. destruct (f_udp f); lia. Qed.

Lemma ip_fields_frame :
  ip_protocol (encode_ip f) = f_protocol f ∧ ip_tos (encode_ip f) = f_tos f ∧
  ip_frag_off (encode_ip f) = of_le (be16 (f_frag f)) ∧
  ip_saddr (encode_ip f) = of_le (be32 (f_saddr f)) ∧ ip_daddr (encode_ip f) = of_le (be32 (f_daddr f)).
Proof.
  destruct Hf as [_ _ _ _ _ _ H1 _ H2 _ _ _ _]. unfold encode_ip.
  destruct (f_len_id f) as [|? [|? [|? [|? [|]]]]]; try done.
  destruct (f_check f) as [|? [|? [|]]]; try done.
  unfold ip_protocol, ip_tos, ip_frag_off, ip_saddr, ip_daddr, raw. cbn [app drop take of_le foldr be16 be32].
  split_and!; try done; lia.
Qed.
End Headers.

Section Frame.
Context (skb : sk_buff) (pre post : bytes) (f : frame).
Hypothesis Hbuf : skb_buf skb = pre ++ encode f ++ post.
Hypothesis Hdata : skb_data skb = length pre.
Hypothesis Hf : frame_ok f.

Lemma fload off n : load (skb_buf skb) (skb_data skb + off) n = load_s (encode f ++ post) off n.
Proof. rewrite Hbuf. by apply load_app. Qed.

Lemma load_tags off n :
  load (skb_buf skb) (skb_data skb + (12 + off)) n =
    load_s (encode_tags (f_vlans f) (f_pppoe f) ++ encode_ip f ++ f_options f ++ encode_l4 f ++ post) off n.
Proof.
  destruct Hf. rewrite fload. unfold encode. rewrite <-!app_assoc.
  rewrite (app_assoc (f_dst f)). apply load_s_skip. rewrite length_app. lia.
Qed.

Ltac tag_type v :=
  rewrite (first_type f v) by (by repeat match goal with H : _ = _ |- _ => rewrite H end).
Ltac test := rewrite ntohs_be16 by done; cbn [Z.eqb Pos.eqb ETH_P_PPP_SES ETH_P_8021Q ETH_P_IP].
Ltac vlan t v H :=
  match goal with |- context [load_vlan _ ?o] => rewrite (load_vlan_at skb o t v H) end;
  cbn [mbind outcome_bind]; test.

Lemma parse_tags_frame :
  parse_tags skb (first_result f) = Ret (0, tags_result (first_result f) (f_vlans f) (f_pppoe f)).
Proof.
  pose proof load_tags as HL. destruct Hf as [_ _ _ [Hl _] Hs _ _ _ _ _ _ _ _]. unfold parse_tags.
  destruct (f_pppoe f) as [[[code sid] len]|] eqn:Hp;
    [destruct Hs as [_ Hlen]; do 3 (destruct len as [|? len]; try done); clear Hlen|];
    destruct (f_vlans f) as [|t [|u [|]]] eqn:Hv; try (exfalso; cbn in *; lia).
  - tag_type ETH_P_PPP_SES. rewrite is8021Q_no by done. cbn [orb isSpecialTag isHwVlanTx].
    tag_type ETH_P_PPP_SES. test.
    exact (parse_pppoe_at skb 0 (first_result f) _ code sid [_; _] eq_refl (HL 2 8)%nat).
  - tag_type ETH_P_8021Q. rewrite is8021Q_yes. cbn [orb isSpecialTag isHwVlanTx].
    vlan t ETH_P_PPP_SES (HL 2 4)%nat.
    exact (parse_pppoe_at skb 4 _ _ code sid [_; _] eq_refl (HL 6 8)%nat).
  - tag_type ETH_P_8021Q. rewrite is8021Q_yes. cbn [orb isSpecialTag isHwVlanTx].
    vlan t ETH_P_8021Q (HL 2 4)%nat.
    rewrite is8021Q_yes. cbn [orb isSpecialTag].
    vlan u ETH_P_PPP_SES (HL 6 4)%nat.
    exact (parse_pppoe_at skb 8 _ _ code sid [_; _] eq_refl (HL 10 8)%nat).
  - tag_type ETH_P_IP. rewrite is8021Q_no by done. cbn [orb isSpecialTag isHwVlanTx].
    tag_type ETH_P_IP. test. unfold first_result. rewrite Hp, Hv. reflexivity.
  - tag_type ETH_P_8021Q. rewrite is8021Q_yes. cbn [orb isSpecialTag isHwVlanTx].
    vlan t ETH_P_IP (HL 2 4)%nat. rewrite is8021Q_no by done. reflexivity.
  - tag_type ETH_P_8021Q. rewrite is8021Q_yes. cbn [orb isSpecialTag isHwVlanTx].
    vlan t ETH_P_8021Q (HL 2 4)%nat.
    rewrite is8021Q_yes. cbn [orb isSpecialTag].
    vlan u ETH_P_IP (HL 6 4)%nat. reflexivity.
Qed.

Definition frame_nh : nat := (skb_data skb + (12 + length (encode_tags (f_vlans f) (f_pppoe f))))%nat.

Lemma load_ip : load (skb_buf skb) frame_nh sizeof_iphdr = Ret (encode_ip f).
Proof.
  unfold frame_nh. rewrite load_tags, <-(Nat.add_0_r (length _)), load_s_skip by done.
  apply load_app_len. by rewrite length_encode_ip by done.
Qed.

Lemma load_l4 n :
  (n ≤ length (encode_l4 f))%nat →
  load (skb_buf skb) (frame_nh + (20 + length (f_options f))) n = Ret (take n (encode_l4 f)).
Proof.
  intros Hn. unfold frame_nh. rewrite <-!Nat.add_assoc.
  rewrite load_tags, load_s_skip, load_s_skip by (rewrite ?length_encode_ip by done; done).
  rewrite <-(Nat.add_0_r (length _)), load_s_skip by done.
  rewrite <-load_s_load. apply load_Ret. rewrite length_app. split; [lia|].
  by rewrite drop_0, take_app_le.
Qed.

Lemma parse_ipv4_frame s r :
  skb_buf s = skb_buf skb → skb_nh s = frame_nh →
  ∃ s', parse_ipv4 s r = Ret (0, s',
    (if f_udp f then r ⦃ iph := encode_ip f ⦄ ⦃ uh := take 8 (encode_l4 f) ⦄
     else r ⦃ iph := encode_ip f ⦄ ⦃ th := take 20 (encode_l4 f) ⦄) ⦃ pkt_type := IPV4_HNAPT ⦄) ∧
    skb_buf s' = skb_buf s ∧ skb_dev s' = skb_dev s.
Proof.
  intros Hb Hn. unfold parse_ipv4. rewrite Hb, Hn, load_ip. cbn [mbind outcome_bind].
  destruct (ip_fields_frame f Hf) as (-> & _ & -> & _). rewrite ihl_frame by done.
  destruct Hf as [_ _ _ _ _ _ _ [Hfr Hnf] _ _ _ _ _].
  rewrite <-htons_be16, htons_land, Hnf by done. change (negb (htons 0 =? 0)) with false.
  pose proof (length_encode_l4 f Hf) as Hl. unfold parse_l4, f_protocol.
  destruct (f_udp f); cbn -[load encode_l4 encode_ip Nat.add take frame_nh]; rewrite Hb, load_l4 by done;
    by eexists.
Qed.

Lemma load_eth :
  load (skb_buf skb) (skb_data skb) ETH_HLEN =
    Ret (f_dst f ++ f_src f ++ take 2 (encode_tags (f_vlans f) (f_pppoe f))).
Proof.
  rewrite <-(Nat.add_0_r (skb_data skb)), fload, <-load_s_load. apply load_Ret.
  assert (2 ≤ length (encode_tags (f_vlans f) (f_pppoe f)))%nat by (rewrite length_tags by done; lia).
  destruct Hf as [Hd _ Hs _ _ _ _ _ _ _ _ _ _].
  unfold encode, ETH_HLEN. rewrite <-!app_assoc, !length_app. split; [lia|]. rewrite drop_0.
  rewrite (take_app_ge (f_dst f)), Hd, (take_app_ge (f_src f)), Hs by lia.
  by rewrite take_app_le by (cbn; lia).
Qed.

(** The parser finds the headers of the frame. *)
Lemma PpeParseLayerInfo_frame :
  ∃ s', PpeParseLayerInfo skb = Ret (0, s', frame_result f) ∧
    skb_buf s' = skb_buf skb ∧ skb_dev s' = skb_dev skb.
Proof.
  unfold PpeParseLayerInfo. rewrite load_eth. cbn [mbind outcome_bind].
  pose proof Hf as [Hd Hu Hs _ _ _ _ _ _ _ _ _ _].
  assert (take ETH_ALEN (f_dst f ++ f_src f ++ take 2 (encode_tags (f_vlans f) (f_pppoe f))) = f_dst f) as ->
    by (rewrite take_app_length'; done).
  assert (raw (f_dst f ++ f_src f ++ take 2 (encode_tags (f_vlans f) (f_pppoe f))) 12 2 =
          of_le (take 2 (encode_tags (f_vlans f) (f_pppoe f)))) as ->.
  { unfold raw. rewrite app_assoc, drop_app_length' by (rewrite length_app; lia).
    by rewrite take_take. }
  assert (take ETH_ALEN (drop ETH_ALEN (f_dst f ++ f_src f ++ take 2 (encode_tags (f_vlans f) (f_pppoe f)))) = f_src f) as ->
    by (rewrite drop_app_length', take_app_length'; done).
  assert (negb (Z.land 1 (raw (f_dst f ++ f_src f ++ take 2 (encode_tags (f_vlans f) (f_pppoe f))) 0 1) =? 0) = false) as ->.
  { destruct (f_dst f) as [|x d]; [done|]. unfold raw. cbn [app drop take of_le foldr].
    cbn [nth] in Hu. change (256 * 0) with 0. by rewrite Z.add_0_r, Hu. }
  change (zero_result ⦃ dmac := _ ⦄ ⦃ smac := _ ⦄ ⦃ eth_type := _ ⦄) with (first_result f).
  rewrite parse_tags_frame. cbn [mbind outcome_bind].
  set (r := tags_result _ _ _) in *.
  assert (is_l3 r ETH_P_IP PPP_IP = true) as Hl3.
  { unfold is_l3, r, tags_result. by destruct (f_pppoe f) as [[[]]|], (f_vlans f) as [|? [|]]. }
  cbn [negb Z.eqb]. rewrite Hl3.
  match goal with |- context [parse_ipv4 ?s _] => destruct (parse_ipv4_frame s r) as (s' & He & Hb & Hdev) end.
  - done.
  - unfold frame_nh. rewrite length_tags by done. fold r. cbn [skb_nh]. unfold ETH_HLEN. cbn. lia.
  - exists s'. split; [|done]. rewrite He. unfold frame_result. fold r. by destruct (f_udp f).
Qed.
End Frame.

(** * Bit fields of an entry *)

Definition bf_ok (f : bitfield) : bool := (0 <=? f.1) && (0 <=? f.2).
Definition bf_disj (f g : bitfield) : bool := (f.1 + f.2 <=? g.1) || (g.1 + g.2 <=? f.1).

Lemma set_field_bits v o l x i :
  0 ≤ o → 0 ≤ l → 0 ≤ i →
  Z.testbit (set_field v o l x) i =
    if decide (o ≤ i < o + l) then Z.testbit x (i - o) else Z.testbit v i.
Proof.
  intros. unfold set_field.
  rewrite Z.lor_spec, Z.land_spec, Z.lnot_spec, !Z.shiftl_spec, Z.land_spec by lia.
  destruct (decide (i < o)).
  { rewrite !(Z.testbit_neg_r _ (i - o)) by lia. rewrite decide_False by lia.
    by rewrite andb_true_r, orb_false_r. }
  rewrite Z.testbit_ones_nonneg by lia. case_decide.
  - rewrite (proj2 (Z.ltb_lt _ _)) by lia. by rewrite andb_false_r, andb_true_r.
  - rewrite (proj2 (Z.ltb_ge _ _)) by lia. by rewrite andb_true_r, andb_false_r, orb_false_r.
Qed.

Lemma field_set_field v o l x :
  0 ≤ o → 0 ≤ l → field (set_field v o l x) o l = x mod 2 ^ l.
Proof.
  intros. apply Z.bits_inj'. intros i Hi. rewrite field_bits, set_field_bits by lia.
  destruct (decide (i < l)).
  - rewrite bool_decide_eq_true_2, decide_True, Z.mod_pow2_bits_low by lia. cbn. f_equal. lia.
  - by rewrite bool_decide_eq_false_2, Z.mod_pow2_bits_high by lia.
Qed.

Lemma field_set_field_ne v o l x o' l' :
  0 ≤ o → 0 ≤ l → 0 ≤ o' → 0 ≤ l' → o + l ≤ o' ∨ o' + l' ≤ o →
  field (set_field v o l x) o' l' = field v o' l'.
Proof.
  intros. apply Z.bits_inj'. intros i Hi. rewrite !field_bits, set_field_bits by lia.
  case_bool_decide; [cbn|done]. by rewrite decide_False by lia.
Qed.

Lemma field_nonneg v o l : 0 ≤ l → 0 ≤ field v o l.
Proof. intros. unfold field. apply Z.land_nonneg. right. rewrite Z.ones_equiv. pose proof (Z.pow_pos_nonneg 2 l). lia. Qed.

Lemma get1_set1 e f x : bf_ok f = true → get1 (set1 e f x) f = x mod 2 ^ f.2.
Proof. unfold bf_ok. intros. apply field_set_field; lia. Qed.
Lemma get1_set1_ne e f g x :
  bf_ok f = true → bf_ok g = true → bf_disj f g = true → get1 (set1 e f x) g = get1 e g.
Proof. unfold bf_ok, bf_disj. intros. apply field_set_field_ne; lia. Qed.
Lemma get2_set2 e f x : bf_ok f = true → get2 (set2 e f x) f = x mod 2 ^ f.2.
Proof. unfold bf_ok. intros. apply field_set_field; lia. Qed.
Lemma get2_set2_ne e f g x :
  bf_ok f = true → bf_ok g = true → bf_disj f g = true → get2 (set2 e f x) g = get2 e g.
Proof. unfold bf_ok, bf_disj. intros. apply field_set_field_ne; lia. Qed.

(** Reading a field after assignments to fields. *)
Ltac bitfields :=
  repeat first
    [ rewrite get1_set1_ne by reflexivity | rewrite get1_set1 by reflexivity
    | rewrite get2_set2_ne by reflexivity | rewrite get2_set2 by reflexivity ].

(** * What the engine finds an entry by *)

Definition key (e : FoeEntry) : Z * Z * Z * Z * Z := (sip e, dip e, sport e, dport e, get1 e bf_pkt_type).

Lemma key_set1 e f x : bf_ok f = true → bf_disj f bf_pkt_type = true → key (set1 e f x) = key e.
Proof. intros. unfold key. by rewrite get1_set1_ne by done. Qed.
Lemma key_set2 e f x : key (set2 e f x) = key e.
Proof. done. Qed.

(** [e'] comes from [e] by steps that keep the key and do not bind. *)
Definition prepares (e e' : FoeEntry) : Prop :=
  key e' = key e ∧ get1 e' bf_state = get1 e bf_state.

#[export] Instance prepares_preorder : PreOrder prepares.
Proof. split; [done|]. intros x y z [H1 H2] [H3 H4]. split; congruence. Qed.

Lemma prepares_set1 e f x :
  bf_ok f = true → bf_disj f bf_pkt_type = true → bf_disj f bf_state = true → prepares e (set1 e f x).
Proof. intros. split; [by apply key_set1|by rewrite get1_set1_ne]. Qed.
Lemma prepares_set2 e f x : prepares e (set2 e f x).
Proof. done. Qed.

Lemma FillInL2_prepares r e ret e' :
  PpeFillInL2Info r e = Ret (ret, e') →
  prepares e e' ∧ (get1 e bf_state = BIND → ret = 1 ∧ e' = e).
Proof.
  unfold PpeFillInL2Info. destruct (_ =? BIND) eqn:E; [by intros [= <- <-]|].
  intros H. apply outcome_bind_Ret in H as (d & _ & H).
  apply outcome_bind_Ret in H as (s & _ & [= <- <-]). split; [|lia].
  do 3 (etrans; [|by apply prepares_set1]). done.
Qed.

Lemma FillInL3_prepares r e : prepares e (PpeFillInL3Info r e).2.
Proof. unfold PpeFillInL3Info. by split_ifs. Qed.

Lemma FillInL4_prepares p r e : prepares e (PpeFillInL4Info p r e).2.
Proof.
  unfold PpeFillInL4Info, set_ports.
  split_ifs; cbn [snd]; try done; (etrans; [|by apply prepares_set1]); done.
Qed.

Lemma ForcePort_prepares c skb e : prepares e (PpeSetForcePortInfo c skb e).2.
Proof. unfold PpeSetForcePortInfo. by split_ifs. Qed.

(** What the whole sequence does: an entry that is bound stays as it is, and one
    that is not is bound only if every step succeeds. *)
Lemma bind_entry_spec p c skb r e ret e' :
  bind_entry p c skb r e = Ret (ret, e') →
  key e' = key e ∧ (get1 e bf_state = BIND → e' = e) ∧
  (get1 e bf_state ≠ BIND → get1 e' bf_state = BIND → ret = 0).
Proof.
  unfold bind_entry. intros H. apply outcome_bind_Ret in H as ([r1 e1] & H1 & H).
  apply FillInL2_prepares in H1 as [[Hk1 Hs1] Hb1].
  destruct (negb (r1 =? 0)) eqn:E1.
  { injection H as <- <-. split_and!; [done|naive_solver|congruence]. }
  assert (Hnb : get1 e bf_state ≠ BIND).
  { intros Hb. destruct (Hb1 Hb) as [-> _]. done. }
  pose proof (FillInL3_prepares r e1) as [Hk2 Hs2]. destruct (PpeFillInL3Info r e1) as [r2 e2]. cbn [snd] in *.
  destruct (negb (r2 =? 0)); [injection H as <- <-; split_and!; [congruence|done|congruence]|].
  pose proof (FillInL4_prepares p r e2) as [Hk3 Hs3]. destruct (PpeFillInL4Info p r e2) as [r3 e3]. cbn [snd] in *.
  destruct (negb (r3 =? 0)); [injection H as <- <-; split_and!; [congruence|done|congruence]|].
  pose proof (ForcePort_prepares c skb e3) as [Hk4 Hs4]. destruct (PpeSetForcePortInfo c skb e3) as [r4 e4]. cbn [snd] in *.
  destruct (negb (r4 =? 0)); [injection H as <- <-; split_and!; [congruence|done|congruence]|].
  cbn in H. injection H as <- <-. split_and!; [|done|done].
  unfold PpeSetEntryBind. rewrite !key_set1 by done. congruence.
Qed.
