(* ===== verification/PacketTxProps.v ===== *)
(** Properties of [PpeTxHandler]. *)

From S2P Require Import Prelude PpeRegs Foe PacketTx PacketSpec.

(** * What an entry makes of a packet *)

(** The headers that a frame leaves the router with. *)
Record headers := {
  h_dst : bytes;
  h_src : bytes;
  h_vlan1 : option Z;
  h_vlan2 : option Z;
  h_pppoe : option Z;
  h_tos : Z;
  h_saddr : Z;
  h_daddr : Z;
  h_sport : Z;
  h_dport : Z;
  h_udp : bool
}.

Definition frame_headers (f : frame) : headers :=
  {| h_dst := f_dst f; h_src := f_src f; h_vlan1 := f_vlans f !! 0%nat; h_vlan2 := f_vlans f !! 1%nat;
     h_pppoe := (λ p, p.1.2) <$> f_pppoe f; h_tos := f_tos f; h_saddr := f_saddr f;
     h_daddr := f_daddr f; h_sport := f_sport f; h_dport := f_dport f; h_udp := f_udp f |}.

(** The headers that a bound entry tells the engine to send: a tag is there when
    its action is [INSERT]; a MAC address is read with [FoeGetMacInfo]. *)
Definition get_mac (blk : bytes) : outcome bytes :=
  let* m := FoeGetMacInfo (replicate 6 0 ++ blk) 0 6 in Ret (take 6 m).

Definition tag_of (action v : Z) : option Z := if action =? INSERT then Some v else None.

Definition egress (e : FoeEntry) : outcome headers :=
  let* d := get_mac (dmac_blk e) in
  let* s := get_mac (smac_blk e) in
  Ret {| h_dst := d; h_src := s; h_vlan1 := tag_of (get1 e bf_v1) (vlan1 e);
         h_vlan2 := tag_of (get1 e bf_v2) (vlan2 e); h_pppoe := tag_of (get1 e bf_pppoe) (pppoe_id e);
         h_tos := get2 e ib2_dscp; h_saddr := new_sip e; h_daddr := new_dip e;
         h_sport := new_sport e; h_dport := new_dport e; h_udp := get1 e bf_udp =? UDP |}.

(** ** MAC addresses *)

Lemma set_mac_eq blk mac :
  length blk = 8%nat → length mac = 6%nat →
  ∃ d, set_mac blk mac = Ret d ∧ length d = 8%nat ∧
    ∀ v, 0 ≤ v < 65536 → get_mac (set_blk_tag d v) = Ret mac ∧ blk_tag (set_blk_tag d v) = v.
Proof.
  intros Hb Hm. do 9 (destruct blk as [|? blk]; try done). do 7 (destruct mac as [|? mac]; try done).
  eexists. split; [vm_compute; reflexivity|]. split; [done|]. intros v Hv. split; [reflexivity|].
  unfold blk_tag, set_blk_tag, splice, u8. cbn. zlia.
Qed.

(** ** The port *)

(** Where the frames of the flow go, if their direction is to be sped up. *)
Definition egress_port (c : nat_conf) (vlan : option Z) : option Z :=
  let vid := Z.land (default 0 vlan) VLAN_VID_MASK in
  if vid =? nc_lan_vid c then
    if (nc_bind_dir c =? DOWNSTREAM_ONLY) || (nc_bind_dir c =? BIDIRECTION) then Some 1 else None
  else if vid =? nc_wan_vid c then
    if (nc_bind_dir c =? UPSTREAM_ONLY) || (nc_bind_dir c =? BIDIRECTION) then Some 2 else None
  else Some 1.

Lemma egress_port_range c v port : egress_port c v = Some port → port = 1 ∨ port = 2.
Proof. unfold egress_port. cbn zeta. split_ifs; intros; simplify_eq; auto. Qed.

Lemma ForcePort_eq c skb e port :
  cpu_device c (skb_dev skb) = false → egress_port c (Some (vlan1 e)) = Some port →
  PpeSetForcePortInfo c skb e = (0, set2 (set2 e ib2_fd 1) ib2_dp port).
Proof.
  unfold egress_port, PpeSetForcePortInfo. intros -> H. cbn [default] in H.
  change (vlan1 (set2 e ib2_fd 1)) with (vlan1 e). cbn zeta in *.
  cbn [id] in H. revert H. split_ifs; intros; by simplify_eq.
Qed.

(** * Binding a flow *)

Section Bind.
Context (p : ppe) (c : nat_conf) (skb : sk_buff) (f : frame) (e : FoeEntry) (port : Z).
Hypothesis Hf : frame_ok f.
Hypothesis Hlen : length (dmac_blk e) = 8%nat ∧ length (smac_blk e) = 8%nat.
Hypothesis Hstate : get1 e bf_state ≠ BIND.
Hypothesis Htype : get1 e bf_pkt_type ≠ IPV4_DSLITE.
Hypothesis Hrev : f_udp f = true → 0x0104 < RegRead p CHIP_REV.
Hypothesis Hdev : cpu_device c (skb_dev skb) = false.
Hypothesis Hport : egress_port c (f_vlans f !! 0%nat) = Some port.

Lemma frame_ports h :
  h = take 8 (encode_l4 f) ∨ h = take 20 (encode_l4 f) →
  ntohs (l4_source h) = f_sport f ∧ ntohs (l4_dest h) = f_dport f.
Proof.
  destruct Hf as [_ _ _ _ _ _ _ _ _ _ _ [H1 H2] _]. intros Hh.
  rewrite <-(ntohs_be16 (f_sport f)), <-(ntohs_be16 (f_dport f)) by done.
  destruct Hh as [->| ->]; done.
Qed.

Lemma tags_frame :
  let r := frame_result f in
  ntohs (r_vlan1 r) = default 0 (f_vlans f !! 0%nat) ∧ ntohs (r_vlan2 r) = default 0 (f_vlans f !! 1%nat) ∧
  ntohs (pppoe_sid r) = default 0 ((λ p, p.1.2) <$> f_pppoe f) ∧
  vlan_action (vlan1_gap r) = (if f_vlans f !! 0%nat is Some _ then INSERT else DELETE) ∧
  vlan_action (vlan2_gap r) = (if f_vlans f !! 1%nat is Some _ then INSERT else DELETE) ∧
  vlan_action (pppoe_gap r) = (if f_pppoe f is Some _ then INSERT else DELETE).
Proof.
  destruct Hf as [_ _ _ [Hl Hv] Hs _ _ _ _ _ _ _ _]. cbn zeta. unfold frame_result.
  destruct (f_udp f), (f_pppoe f) as [[[code sid] len]|], (f_vlans f) as [|t [|u [|]]];
    try (exfalso; cbn in *; lia); cbn [tags_result]; repeat (apply Forall_cons in Hv as [? Hv]);
    split_and!; try reflexivity; apply ntohs_be16; try done; apply Hs.
Qed.

Lemma macs_frame :
  dmac (frame_result f) = f_dst f ∧ smac (frame_result f) = f_src f ∧
  iph (frame_result f) = encode_ip f ∧ pkt_type (frame_result f) = IPV4_HNAPT.
Proof.
  unfold frame_result.
  by destruct (f_udp f), (f_pppoe f) as [[[]]|], (f_vlans f) as [|? [|]].
Qed.

Lemma l3_frame : is_l3 (frame_result f) ETH_P_IP PPP_IP = true.
Proof.
  unfold frame_result.
  by destruct (f_udp f), (f_pppoe f) as [[[]]|], (f_vlans f) as [|? [|]].
Qed.

Lemma FillInL4_frame e1 :
  PpeFillInL4Info p (frame_result f) e1 =
    (0, set1 (e1 ⦃ new_sport := f_sport f ⦄ ⦃ new_dport := f_dport f ⦄) bf_udp (if f_udp f then UDP else TCP)).
Proof.
  unfold PpeFillInL4Info. destruct macs_frame as (_ & _ & -> & ->).
  destruct (ip_fields_frame f Hf) as (-> & _). unfold f_protocol, frame_result.
  destruct (f_udp f) eqn:Hu; cbn -[RegRead tags_result Z.leb encode_l4 take set1].
  - specialize (Hrev eq_refl). rewrite (proj2 (Z.leb_gt _ _)) by done.
    unfold set_ports. destruct (frame_ports (take 8 (encode_l4 f))) as [-> ->]; [by left|]. done.
  - unfold set_ports. destruct (frame_ports (take 20 (encode_l4 f))) as [-> ->]; [by right|]. done.
Qed.

Lemma tag_range : 0 ≤ default 0 (f_vlans f !! 0%nat) < 65536 ∧
  0 ≤ default 0 ((λ p, p.1.2) <$> f_pppoe f) < 65536.
Proof.
  destruct Hf as [_ _ _ [_ Hv] Hs _ _ _ _ _ _ _ _]. split.
  - destruct (f_vlans f); [done|]. apply Forall_cons in Hv as [Hv _]. apply Hv.
  - destruct (f_pppoe f) as [[[]]|]; [apply Hs|done].
Qed.

Lemma FillInL3_frame e1 :
  get1 e1 bf_pkt_type ≠ IPV4_DSLITE →
  PpeFillInL3Info (frame_result f) e1 =
    (0, set2 (e1 ⦃ new_sip := f_saddr f ⦄ ⦃ new_dip := f_daddr f ⦄) ib2_dscp (f_tos f)).
Proof.
  intros He. unfold PpeFillInL3Info. rewrite l3_frame.
  destruct macs_frame as (_ & _ & -> & ->).
  rewrite (proj2 (Z.eqb_neq (get1 e1 bf_pkt_type) IPV4_DSLITE)) by done.
  destruct (ip_fields_frame f Hf) as (_ & -> & _ & -> & ->).
  destruct Hf as [_ _ _ _ _ _ _ _ _ [] _ _ _]. by rewrite !ntohl_be32.
Qed.

(** The entry after the steps: what each writes. *)
Definition bound_entry (d m : bytes) : FoeEntry :=
  let e := e ⦃ dmac_blk := set_blk_tag d (default 0 (f_vlans f !! 0%nat)) ⦄
             ⦃ smac_blk := set_blk_tag m (default 0 ((λ p, p.1.2) <$> f_pppoe f)) ⦄
             ⦃ vlan2 := default 0 (f_vlans f !! 1%nat) ⦄ in
  let e := set1 e bf_v1 (if f_vlans f !! 0%nat is Some _ then INSERT else DELETE) in
  let e := set1 e bf_v2 (if f_vlans f !! 1%nat is Some _ then INSERT else DELETE) in
  let e := set1 e bf_pppoe (if f_pppoe f is Some _ then INSERT else DELETE) in
  let e := set2 (e ⦃ new_sip := f_saddr f ⦄ ⦃ new_dip := f_daddr f ⦄) ib2_dscp (f_tos f) in
  let e := set1 (e ⦃ new_sport := f_sport f ⦄ ⦃ new_dport := f_dport f ⦄) bf_udp (if f_udp f then UDP else TCP) in
  PpeSetEntryBind p (set2 (set2 e ib2_fd 1) ib2_dp port).

Lemma bind_entry_eq s :
  skb_dev s = skb_dev skb →
  ∃ d m, bind_entry p c s (frame_result f) e = Ret (0, bound_entry d m) ∧
    get_mac (dmac_blk (bound_entry d m)) = Ret (f_dst f) ∧
    get_mac (smac_blk (bound_entry d m)) = Ret (f_src f) ∧
    vlan1 (bound_entry d m) = default 0 (f_vlans f !! 0%nat) ∧
    pppoe_id (bound_entry d m) = default 0 ((λ p, p.1.2) <$> f_pppoe f).
Proof.
  intros Hs. unfold bind_entry, PpeFillInL2Info. rewrite (proj2 (Z.eqb_neq _ _)) by done.
  destruct tags_frame as (Hv1 & Hv2 & Hsid & Ha1 & Ha2 & Ha3). rewrite Hv1, Hv2, Hsid, Ha1, Ha2, Ha3.
  destruct macs_frame as (Hd & Hsm & _). rewrite Hd, Hsm.
  destruct tag_range as [Hr1 Hr2]. destruct Hlen as [Hl1 Hl2].
  destruct (set_mac_eq (dmac_blk e) (f_dst f)) as (d & -> & Hld & Hgd); [done|apply Hf|].
  destruct (set_mac_eq (smac_blk e) (f_src f)) as (m & -> & Hlm & Hgm); [done|apply Hf|].
  destruct (Hgd _ Hr1) as [Hgd1 Hgd2]. destruct (Hgm _ Hr2) as [Hgm1 Hgm2].
  exists d, m. split; [|done]. cbn [mbind outcome_bind]. cbn [negb Z.eqb].
  rewrite FillInL3_frame by (rewrite !get1_set1_ne by done; done). cbn [negb Z.eqb].
  rewrite FillInL4_frame. cbn [negb Z.eqb]. rewrite (ForcePort_eq _ _ _ port); [done|by rewrite Hs|].
  etrans; [|apply Hport]. unfold vlan1. cbn [dmac_blk set1 set2 set]. 
  change (blk_tag _) with (blk_tag (set_blk_tag d (default 0 (f_vlans f !! 0%nat)))).
  rewrite Hgd2. by destruct (f_vlans f !! 0%nat).
Qed.

Lemma bound_entry_fields d m :
  let e' := bound_entry d m in
  get1 e' bf_state = BIND ∧ key e' = key e ∧
  get1 e' bf_time_stamp = Z.land (RegRead p FOE_TS) 0xFFFF ∧ get1 e' bf_ttl = 1 ∧
  get2 e' ib2_fd = 1 ∧ get2 e' ib2_dp = port ∧
  get1 e' bf_v1 = (if f_vlans f !! 0%nat is Some _ then INSERT else DELETE) ∧
  get1 e' bf_v2 = (if f_vlans f !! 1%nat is Some _ then INSERT else DELETE) ∧
  get1 e' bf_pppoe = (if f_pppoe f is Some _ then INSERT else DELETE) ∧
  get1 e' bf_udp = (if f_udp f then UDP else TCP) ∧ get2 e' ib2_dscp = f_tos f.
Proof.
  cbn zeta. unfold key, get1, get2.
  cbn -[field set_field Z.land RegRead lookup Z.opp].
  split_and!; repeat first [rewrite field_set_field by lia | rewrite field_set_field_ne by lia];
    try done; try (by repeat case_match).
  - change 65535 with (Z.ones 16). rewrite Z.land_ones by lia. by rewrite Zmod_mod.
  - by destruct (egress_port_range _ _ _ Hport) as [->| ->].
  - apply Z.mod_small. apply Hf.
Qed.

Lemma bind_entry_frame s :
  skb_dev s = skb_dev skb →
  ∃ e', bind_entry p c s (frame_result f) e = Ret (0, e') ∧
    egress e' = Ret (frame_headers f) ∧ get1 e' bf_state = BIND ∧ key e' = key e ∧
    get1 e' bf_time_stamp = Z.land (RegRead p FOE_TS) 0xFFFF ∧ get1 e' bf_ttl = 1 ∧
    get2 e' ib2_fd = 1 ∧ get2 e' ib2_dp = port.
Proof.
  intros Hs. destruct (bind_entry_eq s Hs) as (d & m & He & Hd & Hm & Hv & Hp).
  destruct (bound_entry_fields d m) as (H1 & H2 & H3 & H4 & H5 & H6 & Hv1 & Hv2 & Hpp & Hu & Ht).
  exists (bound_entry d m). split_and!; try done.
  unfold egress. rewrite Hd, Hm. cbn [mbind outcome_bind]. unfold frame_headers.
  rewrite Hv, Hp, Hv1, Hv2, Hpp, Hu, Ht. f_equal. f_equal.
  - by destruct (f_vlans f !! 0%nat).
  - change (vlan2 (bound_entry d m)) with (default 0 (f_vlans f !! 1%nat)). by destruct (f_vlans f !! 1%nat).
  - by destruct (f_pppoe f).
  - by destruct (f_udp f).
Qed.
End Bind.

(** The engine asks to bind the flow: the packet came through the engine, its flow
    has reached the rate, and no application gateway is interested in it. *)
Definition asks_to_bind (i : foe_info) : bool :=
  IS_MAGIC_TAG_VALID i && (FOE_AI i =? HIT_UNBIND_RATE_REACH) && (FOE_ALG i =? 0).

Lemma dump_put c tbl n e e' skb :
  tbl !! Z.to_nat n = Some e → 0 ≤ n → DebugLevel c < 1 ∨ n + 1 < Z.of_nat (length tbl) →
  (if 1 <=? DebugLevel c then
     let* _ := FoeDumpEntry (foe_put tbl n e') n in Ret (1, skb, foe_put tbl n e')
   else Ret (1, skb, foe_put tbl n e')) = Ret (1, skb : sk_buff, foe_put tbl n e').
Proof.
  intros He Hn Hd. destruct (1 <=? DebugLevel c) eqn:Hl; [|done].
  unfold FoeDumpEntry, foe_get, foe_put.
  rewrite list_lookup_insert_eq by (by eapply lookup_lt_Some). cbn [mbind outcome_bind].
  rewrite list_lookup_insert_ne by lia.
  destruct (lookup_lt_is_Some_2 tbl (Z.to_nat (n + 1))) as [e2 ->]; [lia|done].
Qed.

(** C4. A bound entry reproduces what the software did.  For every IPv4 frame over
    Ethernet with up to two VLAN tags and PPPoE, sent for a flow that is to be
    bound, [PpeTxHandler] binds the flow's entry so that the headers the entry
    makes the engine send are those of the frame, the packet itself is unchanged,
    and the entry is still found by the same key.  Needed are an entry that is not
    bound, a chip that can do it for UDP, a port for the flow's direction, and, if
    the entry is printed, one behind it. *)
Theorem tx_binds_mirror p c tbl skb pre post f i e port :
  skb_buf skb = pre ++ encode f ++ post → skb_data skb = length pre → frame_ok f →
  foe_info_of skb = Ret i → asks_to_bind i = true →
  tbl !! Z.to_nat (FOE_ENTRY_NUM i) = Some e →
  length (dmac_blk e) = 8%nat ∧ length (smac_blk e) = 8%nat →
  get1 e bf_state ≠ BIND → get1 e bf_pkt_type ≠ IPV4_DSLITE →
  (f_udp f = true → 0x0104 < RegRead p CHIP_REV) →
  cpu_device c (skb_dev skb) = false → egress_port c (f_vlans f !! 0%nat) = Some port →
  DebugLevel c < 1 ∨ FOE_ENTRY_NUM i + 1 < Z.of_nat (length tbl) →
  ∃ skb' e', PpeTxHandler p c tbl skb = Ret (1, skb', foe_put tbl (FOE_ENTRY_NUM i) e') ∧
    skb_buf skb' = skb_buf skb ∧ egress e' = Ret (frame_headers f) ∧ key e' = key e ∧
    get1 e' bf_state = BIND ∧ get1 e' bf_time_stamp = Z.land (RegRead p FOE_TS) 0xFFFF ∧
    get1 e' bf_ttl = 1 ∧ get2 e' ib2_fd = 1 ∧ get2 e' ib2_dp = port.
Proof.
  intros Hbuf Hdata Hf Hi Ha He Hlen Hst Hty Hrev Hdev Hport Hdbg.
  destruct (PpeParseLayerInfo_frame skb pre post f Hbuf Hdata Hf) as (s & Hp & Hb & Hd).
  destruct (bind_entry_frame p c skb f e port Hf Hlen Hst Hty Hrev Hdev Hport s Hd)
    as (e' & Hbe & H1 & H2 & H3 & H4 & H5 & H6 & H7).
  exists s, e'. split; [|done]. unfold PpeTxHandler. rewrite Hi. cbn [mbind outcome_bind].
  unfold asks_to_bind in Ha. rewrite Ha, Hp. cbn [mbind outcome_bind negb Z.eqb].
  unfold foe_get. rewrite He. cbn [mbind outcome_bind]. rewrite Hbe.
  cbn [mbind outcome_bind negb Z.eqb]. rewrite (dump_put c tbl _ e); [done|done|by apply field_nonneg|done].
Qed.

(** A UDP datagram to the WAN: one VLAN tag and PPPoE; the flow is entry 5. *)
Definition demo_frame : frame :=
  {| f_dst := [0; 0x0c; 0x43; 1; 2; 3]; f_src := [0; 0x0c; 0x43; 4; 5; 6]; f_vlans := [2];
     f_pppoe := Some (0, 0x1234, [0; 42]); f_tos := 0x10; f_len_id := [0; 40; 0x56; 0x78];
     f_frag := 0x4000; f_ttl := 63; f_udp := true; f_check := [0xab; 0xcd]; f_saddr := 0xC0000201;
     f_daddr := 0x08080808; f_options := []; f_sport := 40000; f_dport := 53;
     f_rest := [0; 20; 0; 0; 1; 2; 3; 4] |}.
Definition demo_skb : sk_buff :=
  {| skb_buf := ([0x75; 0x72; 5; 0; 0x95; 0] ++ replicate 10 0) ++ encode demo_frame ++ [0; 0];
     skb_data := 16; skb_mac := 0; skb_nh := 0; skb_h := 0;
     skb_dev := {| dev_id := 1; dev_name := [101; 116; 104; 50] |}; skb_protocol := 8; skb_pkt_type := 0 |}.
Definition demo_conf : nat_conf :=
  {| DstPort := replicate 63 None; nc_bind_dir := BIDIRECTION; nc_lan_vid := 1; nc_wan_vid := 2; DebugLevel := 1 |}.
Definition demo_ppe : ppe :=
  {| regs := {[ CHIP_REV := 0x0105; FOE_TS := 0x12345 ]}; pre_acl_start_addr := 0; pre_ac_start_addr := 0;
     post_ac_start_addr := 0; pre_mtr_start_addr := 0; post_mtr_start_addr := 0 |}.
Definition demo_table : list FoeEntry :=
  replicate 5 zero_entry ++
  [zero_entry ⦃ info_blk1 := 0x10000000 ⦄ ⦃ sip := 0xC0A80102 ⦄ ⦃ dip := 0x08080808 ⦄ ⦃ sport := 1025 ⦄
              ⦃ dport := 53 ⦄; zero_entry].

Lemma demo_frame_ok : frame_ok demo_frame.
Proof.
  split; try (by exists 0%nat); try (vm_compute; reflexivity); cbn; repeat split; try lia; try reflexivity.
  - repeat constructor; lia.
  - exists 0%nat. lia.
Qed.

Lemma tx_binds_mirror_witness :
  ∃ skb' e', PpeTxHandler demo_ppe demo_conf demo_table demo_skb = Ret (1, skb', foe_put demo_table 5 e') ∧
    egress e' = Ret (frame_headers demo_frame) ∧ key e' = (0xC0A80102, 0x08080808, 1025, 53, IPV4_HNAPT) ∧
    get2 e' ib2_dp = 2.
Proof.
  destruct (tx_binds_mirror demo_ppe demo_conf demo_table demo_skb
    ([0x75; 0x72; 5; 0; 0x95; 0] ++ replicate 10 0) [0; 0] demo_frame
    {| fi_magic := 0x7275; fi_word := 0x950005 |} (nth 5 demo_table zero_entry) 2)
    as (s & e & H & _ & H1 & H2 & _ & _ & _ & _ & H3);
    try (vm_compute; reflexivity); try (vm_compute; congruence).
  - apply demo_frame_ok.
  - split; vm_compute; reflexivity.
  - right. vm_compute. reflexivity.
  - exists s, e. split; [exact H|]. split; [exact H1|]. split; [|exact H3]. rewrite H2. vm_compute. reflexivity.
Defined.

(** What sending a packet can do to the table, whatever the packet: only the
    entry the packet belongs to changes; its key stays; an entry that is bound
    stays exactly as it is; and an entry gets bound only if the engine asked for
    it.  The packet is dropped only if it is the copy of a keep-alive. *)
Lemma tx_changes_own_entry p c tbl skb ret skb' tbl' i :
  foe_info_of skb = Ret i → PpeTxHandler p c tbl skb = Ret (ret, skb', tbl') →
  (∀ n, n ≠ Z.to_nat (FOE_ENTRY_NUM i) → tbl' !! n = tbl !! n) ∧
  (∀ n e, tbl !! n = Some e → ∃ e', tbl' !! n = Some e' ∧ key e' = key e ∧
     (get1 e bf_state = BIND → e' = e) ∧
     (get1 e bf_state ≠ BIND → get1 e' bf_state = BIND → asks_to_bind i = true)) ∧
  length tbl' = length tbl ∧ (ret = 0 → FOE_AI i = HIT_BIND_KEEPALIVE ∧ tbl' = tbl).
Proof.
  intros Hi H. unfold PpeTxHandler in H. rewrite Hi in H. cbn [mbind outcome_bind] in H.
  change (IS_MAGIC_TAG_VALID i && (FOE_AI i =? HIT_UNBIND_RATE_REACH) && (FOE_ALG i =? 0))
    with (asks_to_bind i) in H.
  assert (Hid : ∀ (n : nat) e, tbl !! n = Some e → ∃ e', tbl !! n = Some e' ∧ key e' = key e ∧
     (get1 e bf_state = BIND → e' = e) ∧
     (get1 e bf_state ≠ BIND → get1 e' bf_state = BIND → asks_to_bind i = true)).
  { intros n e He. exists e. split_and!; [done..|]. intros Hn Hb. by destruct Hn. }
  destruct (asks_to_bind i) eqn:Ha.
  - apply outcome_bind_Ret in H as ([[r1 s1] r] & _ & H).
    destruct (negb (r1 =? 0)); [apply outcome_bind_Ret in H as (s2 & _ & [= <- <- <-]); done|].
    apply outcome_bind_Ret in H as (e & He & H). apply outcome_bind_Ret in H as ([r2 e'] & Hb & H).
    apply bind_entry_spec in Hb as (Hk & Hsame & _).
    assert (ret = 1 ∧ tbl' = foe_put tbl (FOE_ENTRY_NUM i) e') as [-> ->].
    { destruct (negb (r2 =? 0)); [|destruct (1 <=? _)];
        [apply outcome_bind_Ret in H as (? & _ & [= <- <- <-])..|injection H as <- <- <-]; done. }
    unfold foe_get in He. destruct (tbl !! Z.to_nat (FOE_ENTRY_NUM i)) as [e0|] eqn:E; [|done].
    injection He as ->. unfold foe_put.
    split_and!; [|intros n e1 He1|by rewrite length_insert|done].
    + intros n Hn. by rewrite list_lookup_insert_ne.
    + destruct (decide (n = Z.to_nat (FOE_ENTRY_NUM i))) as [->|Hn].
      * exists e'. rewrite list_lookup_insert_eq by (by eapply lookup_lt_Some). assert (e1 = e) as -> by congruence. done.
      * rewrite list_lookup_insert_ne by done. apply Hid. done.
  - destruct (_ && (FOE_AI i =? HIT_BIND_KEEPALIVE) && _) eqn:Hk; [|by injection H as <- <- <-].
    apply outcome_bind_Ret in H as (s2 & _ & [= <- <- <-]). split_and!; [done..|].
    intros _. split; [lia|done].
Qed.
