(* ===== verification/KeepAlive.v ===== *)
(** Packets on their way in: the Internet checksum of the kernel
    ([include/asm-mips/checksum.h], [arch/mips/lib/csum_partial.S]), its update
    when a header is restored ([util.c]), and [PpeRxHandler] ([ra_nat.c]), which
    turns the keep-alive copy of a translated packet back into the original, so
    that the connection does not time out in the kernel. *)

From S2P Require Import Prelude PpeRegs Foe PacketTx.

(** * Checksums *)

(** [ADDC]: addition with the carry added back. *)
Definition addc (sum reg : Z) : Z :=
  let s := u32 (sum + reg) in u32 (s + (if s <? reg then 1 else 0)).

(** The upper half plus the lower half, plus the carry. *)
Definition fold_half (sum : Z) : Z :=
  let t := u32 (Z.shiftl sum 16) in
  let s := u32 (sum + t) in
  u32 (Z.shiftr s 16 + (if s <? t then 1 else 0)).

Definition csum_fold (sum : Z) : Z := Z.lxor (fold_half sum) 0xffff.

(** [csum_partial] of fewer than 56 bytes at an aligned address that are whole
    words: [end_words], the empty rest, the folding, and the sum passed in. *)
Definition csum_partial (words : list Z) (sum : Z) : Z :=
  let s := foldl addc 0 words in
  let s := addc s 0 in
  addc (fold_half s) sum.

Definition load_word (buf : bytes) (off : nat) : outcome Z :=
  let* w := load buf off 4 in Ret (of_le w).

(** The [do ... while (word != stop)] of [ip_fast_csum], over all of the buffer at most. *)
Fixpoint csum_loop (fuel : nat) (buf : bytes) (iph word stop : nat) (csum : Z) : outcome Z :=
  match fuel with
  | O => NoFuel
  | S fuel =>
      let* w := load_word buf (iph + 4 * word) in
      let csum := addc csum w in
      if decide (S word = stop) then Ret csum else csum_loop fuel buf iph (S word) stop csum
  end.

Definition ip_fast_csum (buf : bytes) (iph ihl : nat) : outcome Z :=
  let* w0 := load_word buf iph in
  let* w1 := load_word buf (iph + 4) in
  let* w2 := load_word buf (iph + 8) in
  let* w3 := load_word buf (iph + 12) in
  let csum := addc (addc (addc w0 w1) w2) w3 in
  let* csum := csum_loop (S (length buf)) buf iph 4 ihl csum in
  Ret (u16 (csum_fold csum)).

(** * Restoring a header ([util.c]) *)

Definition CsumPart (o n old : Z) : Z := u16 (csum_fold (csum_partial [o; n] (Z.lxor old 0xFFFF))).

Definition htonl (v : Z) : Z := ntohl v.
Definition le16 (v : Z) : bytes := [u8 v; u8 (v / 256)].
Definition load16 (buf : bytes) (off : nat) : outcome Z :=
  let* b := load buf off 2 in Ret (of_le b).

(** [h->check = CsumPart (o, n, h->check)] *)
Definition update_check (buf : bytes) (check : nat) (o n : Z) : outcome bytes :=
  let* old := load16 buf check in store buf check (le16 (CsumPart o n old)).

(** [FoeToOrgTcpHdr] and [FoeToOrgUdpHdr], which differ in where the checksum is. *)
Definition FoeToOrgHdr (check : nat) (foe_entry : FoeEntry) (buf : bytes) (iph th : nat) : outcome bytes :=
  let* source := load16 buf th in
  let* buf := update_check buf (th + check) (Z.lxor source 0xffff) (htons (sport foe_entry)) in
  let* dest := load16 buf (th + 2) in
  let* buf := update_check buf (th + check) (Z.lxor dest 0xffff) (htons (dport foe_entry)) in
  let* saddr := load_word buf (iph + 12) in
  let* buf := update_check buf (th + check) (u32 (Z.lnot saddr)) (htonl (sip foe_entry)) in
  let* daddr := load_word buf (iph + 16) in
  let* buf := update_check buf (th + check) (u32 (Z.lnot daddr)) (htonl (dip foe_entry)) in
  let* buf := store buf th (le16 (htons (sport foe_entry))) in
  store buf (th + 2) (le16 (htons (dport foe_entry))).

Definition FoeToOrgTcpHdr : FoeEntry → bytes → nat → nat → outcome bytes := FoeToOrgHdr 16.
Definition FoeToOrgUdpHdr : FoeEntry → bytes → nat → nat → outcome bytes := FoeToOrgHdr 6.

Definition load_ihl (buf : bytes) (iph : nat) : outcome nat :=
  let* b := load buf iph 1 in Ret (Z.to_nat (Z.land (raw b 0 1) 0xf)).

Definition FoeToOrgIpHdr (foe_entry : FoeEntry) (buf : bytes) (iph : nat) : outcome bytes :=
  let* buf := store buf (iph + 12) (le32 (htonl (sip foe_entry))) in
  let* buf := store buf (iph + 16) (le32 (htonl (dip foe_entry))) in
  let* buf := store buf (iph + 10) (le16 0) in
  let* ihl := load_ihl buf iph in
  let* c := ip_fast_csum buf iph ihl in
  store buf (iph + 10) (le16 c).

(** * [PpeKeepAliveHandler] *)

(** The Ethernet header, fourteen bytes before [skb->data]. *)
Definition keep_mac (buf : bytes) (eth : nat) : outcome bytes :=
  let* buf := FoeGetMacInfo buf eth (eth + ETH_ALEN) in
  let* buf := FoeGetMacInfo buf (eth + ETH_ALEN) eth in
  store buf (eth + ETH_ALEN) [1].

(** The tags: the buffer with the VLAN identifier exchanged, the type, and the
    three gaps.  With PPPoE the type stays that of the tag. *)
Definition keep_tags (c : nat_conf) (buf : bytes) (data : nat) (eth_type : Z) :
    outcome (bytes * Z * nat) :=
  if eth_type =? ETH_P_8021Q then
    let* tci := load16 buf data in
    let* buf := store buf data
      (le16 (htons (if ntohs tci =? nc_wan_vid c then nc_lan_vid c else nc_wan_vid c))) in
    let* proto := load16 buf (data + 2) in
    if ntohs proto =? ETH_P_PPP_SES then Ret (buf, eth_type, (VLAN_HLEN + 8)%nat)
    else if ntohs proto =? ETH_P_8021Q then
      let* proto := load16 buf (data + VLAN_HLEN + 2) in
      if ntohs proto =? ETH_P_PPP_SES then Ret (buf, eth_type, (VLAN_HLEN + VLAN_HLEN + 8)%nat)
      else Ret (buf, ntohs proto, (VLAN_HLEN + VLAN_HLEN)%nat)
    else Ret (buf, ntohs proto, VLAN_HLEN)
  else Ret (buf, eth_type, 0%nat).

(** The headers of IPv4. *)
Definition keep_ip (foe_entry : FoeEntry) (buf : bytes) (iph : nat) : outcome bytes :=
  let* proto := load buf (iph + 9) 1 in
  let* buf :=
    if raw proto 0 1 =? IPPROTO_TCP then
      let* ihl := load_ihl buf iph in FoeToOrgTcpHdr foe_entry buf iph (iph + ihl * 4)
    else if raw proto 0 1 =? IPPROTO_UDP then
      let* ihl := load_ihl buf iph in FoeToOrgUdpHdr foe_entry buf iph (iph + ihl * 4)
    else Ret buf in
  FoeToOrgIpHdr foe_entry buf iph.

Definition PACKET_HOST : Z := 0.

Definition PpeKeepAliveHandler (c : nat_conf) (skb : sk_buff) (foe_entry : FoeEntry) :
    outcome (Z * sk_buff) :=
  if decide (skb_data skb < ETH_HLEN)%nat then Oob
  else
    let eth_type := ntohs (skb_protocol skb) in
    let* buf := keep_mac (skb_buf skb) (skb_data skb - ETH_HLEN) in
    let* (buf, eth_type, gap) := keep_tags c buf (skb_data skb) eth_type in
    if eth_type =? ETH_P_IP then
      let* buf := keep_ip foe_entry buf (skb_data skb + gap) in
      Ret (1, skb ⦃ skb_buf := buf ⦄ ⦃ skb_pkt_type := PACKET_HOST ⦄)
    else if eth_type =? ETH_P_IPV6 then
      Ret (1, skb ⦃ skb_buf := buf ⦄ ⦃ skb_pkt_type := PACKET_HOST ⦄)
    else Ret (1, skb ⦃ skb_buf := buf ⦄).

(** * [PpeRxHandler] *)

(** What happens to the packet: 1, the caller goes on with it; or it was sent. *)
Inductive rx_result :=
| RxContinue (skb : sk_buff)
| RxSent (skb : sk_buff).

(** Without the options for wireless and PCI devices both do nothing. *)
Definition PpeExtIfRxHandler (skb : sk_buff) : rx_result := RxContinue skb.
Definition PpeExtIfPingPongHandler (skb : sk_buff) : rx_result := RxContinue skb.

(** [dev_queue_xmit] follows [skb->dev], which must not be NULL; an entry of
    another type leaves the device of arrival. *)
Definition PpeHitBindForceToCpuHandler (c : nat_conf) (skb : sk_buff) (foe_entry : FoeEntry) :
    outcome rx_result :=
  let* skb :=
    if IS_IPV4_HNAT foe_entry || IS_IPV4_HNAPT foe_entry then
      match DstPort c !! Z.to_nat (act_dp foe_entry) with
      | Some (Some d) => Ret (skb ⦃ skb_dev := d ⦄)
      | _ => Oob
      end
    else Ret skb in
  if decide (skb_data skb < ETH_HLEN)%nat then Oob
  else Ret (RxSent (skb ⦃ skb_nh := skb_data skb ⦄ ⦃ skb_data := (skb_data skb - ETH_HLEN)%nat ⦄)).

Definition PpeRxHandler (c : nat_conf) (tbl : list FoeEntry) (skb : sk_buff) : outcome rx_result :=
  let* i := foe_info_of skb in
  if (FOE_MAGIC_TAG i =? FOE_MAGIC_PCI) || (FOE_MAGIC_TAG i =? FOE_MAGIC_WLAN) then
    Ret (PpeExtIfRxHandler skb)
  else if FOE_AI i =? HIT_BIND_FORCE_TO_CPU then
    let* e := foe_get tbl (FOE_ENTRY_NUM i) in PpeHitBindForceToCpuHandler c skb e
  else if (FOE_SP i =? 0) && negb (FOE_AI i =? HIT_BIND_KEEPALIVE) then
    Ret (PpeExtIfPingPongHandler skb)
  else if (FOE_AI i =? HIT_BIND_KEEPALIVE) && (DFL_FOE_KA =? 0) then
    let* e := foe_get tbl (FOE_ENTRY_NUM i) in
    let* (_, skb) := PpeKeepAliveHandler c skb e in Ret (RxContinue skb)
  else Ret (RxContinue skb).
