(* ===== verification/Checksum.v ===== *)
(** The Internet checksum: sums of 16-bit words modulo 65535, and what the
    checksum code of [KeepAlive] does to them. *)

From S2P Require Import Prelude PpeRegs Foe PacketTx PacketSpec KeepAlive.

(** [a ≡ b]: equal in one's complement arithmetic of sixteen bits. *)
Definition eq1 (a b : Z) : Prop := ∃ k, a = b + 65535 * k.
Infix "≡₁" := eq1 (at level 70) : fw_scope.

Lemma eq1_intro a b k : a = b + 65535 * k → a ≡₁ b.
Proof. by exists k. Qed.
Lemma eq1_mod a b : a ≡₁ b ↔ a mod 65535 = b mod 65535.
Proof.
  split; [intros [k ->]; by rewrite Z.mul_comm, Z.mod_add|].
  intros H. exists (a / 65535 - b / 65535). zlia.
Qed.

#[export] Instance eq1_equiv : Equivalence eq1.
Proof.
  split.
  - intros a. exists 0. lia.
  - intros a b [k H]. exists (-k). lia.
  - intros a b c [k H] [l K]. exists (k + l). lia.
Qed.
#[export] Instance eq1_add : Proper (eq1 ==> eq1 ==> eq1) Z.add.
Proof. intros a b [k H] c d [l K]. exists (k + l). lia. Qed.
#[export] Instance eq1_mul : Proper (eq1 ==> eq1 ==> eq1) Z.mul.
Proof. intros a b [k H] c d [l K]. exists (k * d + b * l + 65535 * k * l). subst. lia. Qed.
#[export] Instance eq1_opp : Proper (eq1 ==> eq1) Z.opp.
Proof. intros a b [k H]. exists (-k). lia. Qed.
#[export] Instance eq1_sub : Proper (eq1 ==> eq1 ==> eq1) Z.sub.
Proof. intros a b [k H] c d [l K]. exists (k - l). lia. Qed.

(** The byte order does not matter: swapping is multiplication by 256. *)
Lemma eq1_swap a b : 256 * a ≡₁ 256 * b → a ≡₁ b.
Proof.
  intros H. transitivity (256 * (256 * a)); [symmetry; apply (eq1_intro _ _ a); lia|].
  rewrite H. apply (eq1_intro _ _ b); lia.
Qed.

(** * The code *)

Lemma addc_spec a b : 0 ≤ a < 2 ^ 32 → 0 ≤ b < 2 ^ 32 → 0 ≤ addc a b < 2 ^ 32 ∧ addc a b ≡₁ a + b.
Proof.
  intros Ha Hb. unfold addc. split; [apply u32_range|].
  destruct (decide (a + b < 2 ^ 32)).
  - rewrite (u32_id (a + b)), (proj2 (Z.ltb_ge _ _)), Z.add_0_r, u32_id by lia. done.
  - assert (u32 (a + b) = a + b - 2 ^ 32) as -> by (unfold u32; zlia).
    rewrite (proj2 (Z.ltb_lt _ _)), u32_id by lia.
    apply (eq1_intro _ _ (-65537)). lia.
Qed.

Lemma fold_half_spec s : 0 ≤ s < 2 ^ 32 → 0 ≤ fold_half s < 65536 ∧ fold_half s ≡₁ s.
Proof.
  intros Hs. unfold fold_half. rewrite Z.shiftl_mul_pow2, Z.shiftr_div_pow2 by lia.
  change (2 ^ 16) with 65536.
  pose proof (Z.div_mod s 65536 ltac:(done)). pose proof (Z.mod_pos_bound s 65536 ltac:(done)).
  set (h := s / 65536) in *. set (l := s mod 65536) in *. assert (0 ≤ h < 65536) by lia.
  assert (u32 (s * 65536) = l * 65536) as -> by (unfold u32; zlia).
  destruct (decide (h + l < 65536)).
  - assert (u32 (s + l * 65536) = (h + l) * 65536 + l) as -> by (unfold u32; zlia).
    rewrite (proj2 (Z.ltb_ge _ _)) by lia.
    assert (((h + l) * 65536 + l) / 65536 = h + l) as -> by zlia.
    rewrite Z.add_0_r, u32_id by lia. split; [lia|]. apply (eq1_intro _ _ (-h)). lia.
  - assert (u32 (s + l * 65536) = (h + l - 65536) * 65536 + l) as -> by (unfold u32; zlia).
    rewrite (proj2 (Z.ltb_lt _ _)) by lia.
    assert (((h + l - 65536) * 65536 + l) / 65536 = h + l - 65536) as -> by zlia.
    rewrite u32_id by lia. split; [lia|]. apply (eq1_intro _ _ (-h-1)). lia.
Qed.

Lemma lxor_ffff v : 0 ≤ v < 65536 → Z.lxor v 0xffff = 65535 - v.
Proof.
  intros Hv. assert (Z.lxor v 0xffff = Z.land (Z.lnot v) (Z.ones 16)) as ->.
  { apply Z.bits_inj'. intros i Hi. change 0xffff with (Z.ones 16).
    rewrite Z.lxor_spec, Z.land_spec, Z.lnot_spec, Z.testbit_ones_nonneg by lia.
    destruct (i <? 16) eqn:E; [by rewrite xorb_true_r, andb_true_r|].
    rewrite (word_bits 16) by lia. by rewrite andb_false_r. }
  rewrite Z.land_ones by lia. unfold Z.lnot. change (2 ^ 16) with 65536. zlia.
Qed.

Lemma csum_fold_spec s : 0 ≤ s < 2 ^ 32 → 0 ≤ csum_fold s < 65536 ∧ csum_fold s ≡₁ - s.
Proof.
  intros Hs. destruct (fold_half_spec s Hs) as [H1 H2]. unfold csum_fold.
  rewrite lxor_ffff by done. split; [lia|].
  transitivity (- fold_half s); [apply (eq1_intro _ _ 1); lia|by rewrite H2].
Qed.

Lemma addc_words l s :
  Forall (λ w, 0 ≤ w < 2 ^ 32) l → 0 ≤ s < 2 ^ 32 →
  0 ≤ foldl addc s l < 2 ^ 32 ∧ foldl addc s l ≡₁ s + foldr Z.add 0 l.
Proof.
  intros Hl. revert s. induction Hl as [|w l Hw Hl IH]; intros s Hs; cbn [foldl foldr].
  - by rewrite Z.add_0_r.
  - destruct (addc_spec s w Hs Hw) as [H1 H2]. destruct (IH _ H1) as [H3 H4].
    split; [done|]. rewrite H4, H2. by rewrite Z.add_assoc.
Qed.

Lemma csum_partial_spec l s :
  Forall (λ w, 0 ≤ w < 2 ^ 32) l → 0 ≤ s < 2 ^ 32 →
  0 ≤ csum_partial l s < 2 ^ 32 ∧ csum_partial l s ≡₁ foldr Z.add 0 l + s.
Proof.
  intros Hl Hs. unfold csum_partial.
  destruct (addc_words l 0 Hl ltac:(lia)) as [H1 H2].
  destruct (addc_spec (foldl addc 0 l) 0 H1 ltac:(lia)) as [H3 H4].
  destruct (fold_half_spec _ H3) as [H5 H6].
  destruct (addc_spec (fold_half (addc (foldl addc 0 l) 0)) s ltac:(lia) Hs) as [H7 H8].
  split; [done|]. by rewrite H8, H6, H4, H2, Z.add_0_r, Z.add_0_l.
Qed.

(** A checksum is updated for a word that changes from [~o] to [n]. *)
Lemma CsumPart_spec o n old :
  0 ≤ o < 2 ^ 32 → 0 ≤ n < 2 ^ 32 → 0 ≤ old < 65536 →
  0 ≤ CsumPart o n old < 65536 ∧ CsumPart o n old ≡₁ old - o - n.
Proof.
  intros Ho Hn Hold. unfold CsumPart. rewrite lxor_ffff by done.
  destruct (csum_partial_spec [o; n] (65535 - old)) as [H1 H2]; [by apply Forall_cons_2; [|apply Forall_cons_2]|lia|].
  destruct (csum_fold_spec _ H1) as [H3 H4]. rewrite u16_id by done. split; [done|].
  rewrite H4, H2. cbn [foldr]. apply (eq1_intro _ _ (-1)). lia.
Qed.

(** * Sums of bytes *)

(** The sum of the 16-bit words of a byte string, an odd byte padded with 0; RFC
    1071 calls a header valid if its sum is 0 in one's complement. *)
Fixpoint ones_sum (l : bytes) : Z :=
  match l with
  | a :: b :: l => 256 * a + b + ones_sum l
  | [a] => 256 * a
  | [] => 0
  end.

Lemma pairs_ind (P : bytes → Prop) :
  P [] → (∀ a, P [a]) → (∀ a b l, P l → P (a :: b :: l)) → ∀ l, P l.
Proof.
  intros H0 H1 H2. fix IH 1. intros [|a [|b l]]; [done|done|]. apply H2. apply IH.
Qed.

Lemma ones_sum_app l k : Nat.Even (length l) → ones_sum (l ++ k) = ones_sum l + ones_sum k.
Proof.
  induction l as [|a|a b l IH] using pairs_ind; intros He.
  - done.
  - destruct He as [n He]. cbn in He. lia.
  - cbn [app ones_sum]. rewrite IH; [lia|]. destruct He as [n He]. exists (n - 1)%nat. cbn in He. lia.
Qed.

(** Read as little-endian words the sum is multiplied by 256. *)
Lemma of_le_sum l : Nat.Even (length l) → of_le l ≡₁ 256 * ones_sum l.
Proof.
  induction l as [|a|a b l IH] using pairs_ind; intros He.
  - done.
  - destruct He as [n He]. cbn in He. lia.
  - assert (Hl : Nat.Even (length l)). { destruct He as [n He]. exists (n - 1)%nat. cbn in He. lia. }
    transitivity (a + 256 * b + of_le l).
    + unfold of_le. cbn [foldr]. fold (of_le l). apply (eq1_intro _ _ (of_le l)). lia.
    + rewrite (IH Hl). cbn [ones_sum]. apply (eq1_intro _ _ (-a)). lia.
Qed.

Lemma of_le_range l n : bytes_ok l → length l = n → 0 ≤ of_le l < 2 ^ (8 * Z.of_nat n).
Proof.
  intros Hl <-. induction Hl as [|b l Hb Hl IH]; [done|]. unfold of_le in *. cbn [foldr].
  unfold byte_ok in Hb. cbn [length]. rewrite Nat2Z.inj_succ, Z.mul_succ_r, Z.pow_add_r by lia. lia.
Qed.

Lemma le16_of_le v : 0 ≤ v < 65536 → of_le (le16 v) = v.
Proof. intros. unfold le16, of_le, u8. cbn. zlia. Qed.
Lemma le16_htons v : 0 ≤ v < 65536 → le16 (htons v) = be16 v.
Proof.
  intros. rewrite swap16_spec by done. pose proof (u8_range v). unfold le16, be16.
  f_equal; [|f_equal]; unfold u8 in *; zlia.
Qed.
Lemma le32_htonl v : 0 ≤ v < 2 ^ 32 → le32 (htonl v) = be32 v.
Proof.
  intros. unfold htonl, ntohl. pose proof (u8_range v). pose proof (u8_range (v / 256)).
  pose proof (u8_range (v / 65536)). pose proof (u8_range (v / 16777216)).
  unfold of_be, le32, be32. cbn [foldl].
  set (a := u8 v) in *. set (b := u8 (v / 256)) in *. set (c := u8 (v / 65536)) in *.
  set (d := u8 (v / 16777216)) in *.
  unfold u8. repeat (f_equal; [zlia|]). f_equal. zlia.
Qed.
Lemma htonl_be32 v : 0 ≤ v < 2 ^ 32 → htonl v = of_le (be32 v).
Proof.
  intros Hv. rewrite <-le32_htonl by done. rewrite of_le_le32; [done|].
  unfold htonl, ntohl, of_be, le32. cbn [foldl]. pose proof (u8_range v). pose proof (u8_range (v / 256)).
  pose proof (u8_range (v / 65536)). pose proof (u8_range (v / 16777216)). lia.
Qed.

(** * Pieces of a buffer *)

Lemma load_piece l a x b k n : l = a ++ x ++ b → k = length a → n = length x → load l k n = Ret x.
Proof.
  intros -> -> ->. apply load_Ret. rewrite !length_app. split; [lia|].
  by rewrite drop_app_length, take_app_length.
Qed.

Lemma store_piece l a x y b k :
  l = a ++ x ++ b → k = length a → length y = length x → store l k y = Ret (a ++ y ++ b).
Proof.
  intros -> -> Hy. unfold store. rewrite decide_True by (rewrite !length_app; lia).
  unfold splice. rewrite take_app_length, drop_app_add. by rewrite Hy, drop_app_length.
Qed.
