(* ===== verification/KeepAliveFacts.v ===== *)
(** What restoring the headers does to the bytes of a packet and to its checksums. *)

From S2P Require Import Prelude PpeRegs Foe PacketTx PacketSpec KeepAlive Checksum.

(** * The header checksum *)

(** The side conditions of [load_piece] and [store_piece]. *)
Ltac piece H :=
  first [rewrite H, <-?app_assoc; reflexivity
        |rewrite ?length_app, ?Nat.add_assoc; cbn [length]; lia].

Section Fast.
Context (pre post : bytes).

Lemma csum_loop_spec fuel r word stop buf csum h :
  buf = (pre ++ h) ++ r ++ post → length h = (4 * word)%nat → (word < stop)%nat →
  length r = (4 * (stop - word))%nat → (stop - word ≤ fuel)%nat → bytes_ok r → 0 ≤ csum < 2 ^ 32 →
  ∃ s, csum_loop fuel buf (length pre) word stop csum = Ret s ∧ 0 ≤ s < 2 ^ 32 ∧
    s ≡₁ csum + 256 * ones_sum r.
Proof.
  revert r word csum h. induction fuel as [|fuel IH]; intros r word csum h Hb Hh Hw Hr Hf Hok Hc; [lia|].
  cbn [csum_loop].
  assert (length (take 4 r) = 4%nat) as Hlw by (rewrite length_take; lia).
  assert (length (drop 4 r) = 4 * (stop - S word))%nat as Hlq by (rewrite length_drop; lia).
  rewrite <-(take_drop 4 r) in Hb, Hok |- *. rewrite <-app_assoc in Hb.
  set (w := take 4 r) in *. set (q := drop 4 r) in *.
  apply bytes_ok_app in Hok as [Hokw Hokq].
  unfold load_word at 1. rewrite (load_piece buf (pre ++ h) w (q ++ post))
    by (piece Hb).
  cbn [mbind outcome_bind].
  destruct (addc_spec csum (of_le w)) as [H1 H2]; [done|by apply (of_le_range w 4)|].
  assert (Hs : addc csum (of_le w) ≡₁ csum + 256 * ones_sum w).
  { rewrite H2, of_le_sum; [done|]. rewrite Hlw. by exists 2%nat. }
  rewrite ones_sum_app by (rewrite Hlw; by exists 2%nat).
  case_decide as Hd.
  - eexists. split; [done|]. split; [done|]. rewrite Hs.
    assert (q = []) as -> by (apply nil_length_inv; lia). cbn [ones_sum]. by rewrite Z.add_0_r.
  - destruct (IH q (S word) (addc csum (of_le w)) (h ++ w)) as (s & He & Hrs & Hss);
      [by rewrite Hb, !app_assoc|rewrite length_app; lia|lia|done|lia|done|done|].
    exists s. split; [done|]. split; [done|]. rewrite Hss, Hs.
    apply (eq1_intro _ _ 0). lia.
Qed.

Lemma ip_fast_csum_spec buf h ihl :
  buf = pre ++ h ++ post → length h = (4 * ihl)%nat → (5 ≤ ihl)%nat → bytes_ok h →
  ∃ c, ip_fast_csum buf (length pre) ihl = Ret c ∧ 0 ≤ c < 65536 ∧ c ≡₁ - (256 * ones_sum h).
Proof.
  intros Hb Hl Hi Hok. unfold ip_fast_csum.
  pose proof (take_drop 16 h) as Hh. set (a := take 16 h) in *. set (r := drop 16 h) in *.
  assert (length a = 16%nat) as Hla by (unfold a; rewrite length_take; lia).
  assert (length r = 4 * (ihl - 4))%nat as Hlr by (unfold r; rewrite length_drop; lia).
  rewrite <-Hh in Hok. apply bytes_ok_app in Hok as [Hoka Hokr].
  assert (Ha : ∃ w0 w1 w2 w3, a = w0 ++ w1 ++ w2 ++ w3 ∧ length w0 = 4%nat ∧ length w1 = 4%nat ∧
    length w2 = 4%nat ∧ length w3 = 4%nat).
  { exists (take 4 a), (take 4 (drop 4 a)), (take 4 (drop 8 a)), (drop 12 a).
    rewrite !length_take, !length_drop. split; [|lia].
    transitivity (take 4 a ++ drop 4 a); [by rewrite take_drop|]. f_equal.
    transitivity (take 4 (drop 4 a) ++ drop 4 (drop 4 a)); [by rewrite take_drop|]. f_equal.
    rewrite drop_drop. transitivity (take 4 (drop 8 a) ++ drop 4 (drop 8 a)); [by rewrite take_drop|].
    by rewrite drop_drop. }
  destruct Ha as (w0 & w1 & w2 & w3 & Ha & H0 & H1 & H2 & H3). rewrite Ha in Hoka.
  apply bytes_ok_app in Hoka as [O0 Hoka]. apply bytes_ok_app in Hoka as [O1 Hoka].
  apply bytes_ok_app in Hoka as [O2 O3].
  assert (Hbuf : buf = pre ++ w0 ++ w1 ++ w2 ++ w3 ++ r ++ post).
  { rewrite Hb, <-Hh, Ha. by rewrite <-!app_assoc. }
  unfold load_word.
  rewrite (load_piece buf pre w0 (w1 ++ w2 ++ w3 ++ r ++ post) (length pre) 4) by (piece Hbuf). cbn [mbind outcome_bind].
  rewrite (load_piece buf (pre ++ w0) w1 (w2 ++ w3 ++ r ++ post) (length pre + 4) 4)
    by (piece Hbuf). cbn [mbind outcome_bind].
  rewrite (load_piece buf (pre ++ w0 ++ w1) w2 (w3 ++ r ++ post) (length pre + 8) 4)
    by (piece Hbuf). cbn [mbind outcome_bind].
  rewrite (load_piece buf (pre ++ w0 ++ w1 ++ w2) w3 (r ++ post) (length pre + 12) 4)
    by (piece Hbuf). cbn [mbind outcome_bind].
  assert (He : ∀ w : bytes, length w = 4%nat → Nat.Even (length w)) by (intros w ->; by exists 2%nat).
  destruct (addc_words [of_le w1; of_le w2; of_le w3] (of_le w0)) as [Hr Hs].
  { repeat (apply Forall_cons_2; [by apply (of_le_range _ 4)|]). done. }
  { by apply (of_le_range _ 4). }
  cbn [foldl foldr] in Hr, Hs.
  destruct (csum_loop_spec (S (length buf)) r 4 ihl buf _ a ltac:(rewrite Hb, <-Hh, <-!app_assoc; done)
    Hla ltac:(lia) Hlr ltac:(rewrite Hb, !length_app; lia) Hokr Hr) as (s & -> & Hrs & Hss).
  cbn [mbind outcome_bind]. destruct (csum_fold_spec s Hrs) as [Hc1 Hc2].
  exists (csum_fold s). rewrite u16_id by done. split; [done|]. split; [done|]. rewrite Hc2, Hss, Hs.
  rewrite !of_le_sum by auto. rewrite <-Hh, Ha, <-!app_assoc, !ones_sum_app by auto.
  apply (eq1_intro _ _ 0). lia.
Qed.
End Fast.

(** * The transport header *)

(** A buffer around the addresses, the ports and the checksum of the transport. *)
Section Transport.
Context (X1 X2 X3 X4 sa da sp dp : bytes) (e : FoeEntry) (check iph : nat).
Hypothesis Hiph : length X1 = (iph + 12)%nat.
Hypothesis Hsa : length sa = 4%nat ∧ bytes_ok sa.
Hypothesis Hda : length da = 4%nat ∧ bytes_ok da.
Hypothesis Hsp : length sp = 2%nat ∧ bytes_ok sp.
Hypothesis Hdp : length dp = 2%nat ∧ bytes_ok dp.
Hypothesis Hchk : check = (4 + length X3)%nat.

Definition view (ck : bytes) : bytes := X1 ++ sa ++ da ++ X2 ++ sp ++ dp ++ X3 ++ ck ++ X4.
Definition view_th : nat := (length X1 + 8 + length X2)%nat.

Lemma load_sa ck : load (view ck) (iph + 12) 4 = Ret sa.
Proof. apply (load_piece _ X1 sa (da ++ X2 ++ sp ++ dp ++ X3 ++ ck ++ X4)); [done|lia..]. Qed.
Lemma load_da ck : load (view ck) (iph + 16) 4 = Ret da.
Proof.
  apply (load_piece _ (X1 ++ sa) da (X2 ++ sp ++ dp ++ X3 ++ ck ++ X4)); unfold view;
    [by rewrite <-!app_assoc|rewrite ?length_app; lia..].
Qed.
Lemma load_sp ck : load (view ck) view_th 2 = Ret sp.
Proof.
  apply (load_piece _ (X1 ++ sa ++ da ++ X2) sp (dp ++ X3 ++ ck ++ X4)); unfold view, view_th;
    [by rewrite <-!app_assoc|rewrite ?length_app; lia..].
Qed.
Lemma load_dp ck : load (view ck) (view_th + 2) 2 = Ret dp.
Proof.
  apply (load_piece _ (X1 ++ sa ++ da ++ X2 ++ sp) dp (X3 ++ ck ++ X4)); unfold view, view_th;
    [by rewrite <-!app_assoc|rewrite ?length_app; lia..].
Qed.

Lemma update_view ck o n :
  length ck = 2%nat →
  update_check (view ck) (view_th + check) o n = Ret (view (le16 (CsumPart o n (of_le ck)))).
Proof.
  intros Hck. unfold update_check, load16.
  rewrite (load_piece _ (X1 ++ sa ++ da ++ X2 ++ sp ++ dp ++ X3) ck X4)
    by (unfold view, view_th; first [by rewrite <-!app_assoc|rewrite ?length_app; lia]).
  cbn [mbind outcome_bind].
  rewrite (store_piece _ (X1 ++ sa ++ da ++ X2 ++ sp ++ dp ++ X3) ck _ X4)
    by (unfold view, view_th; first [done|by rewrite <-!app_assoc|rewrite ?length_app; lia]).
  unfold view. by rewrite <-!app_assoc.
Qed.

Lemma store_ports ck s d :
  (let* b := store (view ck) view_th (be16 s) in store b (view_th + 2) (be16 d)) =
    Ret (X1 ++ sa ++ da ++ X2 ++ be16 s ++ be16 d ++ X3 ++ ck ++ X4).
Proof.
  rewrite (store_piece _ (X1 ++ sa ++ da ++ X2) sp (be16 s) (dp ++ X3 ++ ck ++ X4));
    [|by unfold view; rewrite <-!app_assoc|unfold view_th; rewrite !length_app; lia|by rewrite (proj1 Hsp)].
  cbn [mbind outcome_bind].
  rewrite (store_piece _ (X1 ++ sa ++ da ++ X2 ++ be16 s) dp (be16 d) (X3 ++ ck ++ X4)).
  - by rewrite <-!app_assoc.
  - by rewrite <-!app_assoc.
  - unfold view_th. rewrite !length_app. cbn [length be16]. lia.
  - by rewrite (proj1 Hdp).
Qed.

Lemma lnot32 v : 0 ≤ v < 2 ^ 32 → 0 ≤ u32 (Z.lnot v) < 2 ^ 32 ∧ u32 (Z.lnot v) ≡₁ - v.
Proof.
  intros. split; [apply u32_range|]. assert (u32 (Z.lnot v) = 4294967295 - v) as ->.
  { unfold u32, Z.lnot. zlia. }
  apply (eq1_intro _ _ 65537). lia.
Qed.
Lemma lnot16 v : 0 ≤ v < 65536 → 0 ≤ Z.lxor v 0xffff < 2 ^ 32 ∧ Z.lxor v 0xffff ≡₁ - v.
Proof.
  intros. rewrite lxor_ffff by done. split; [lia|]. apply (eq1_intro _ _ 1). lia.
Qed.

Hypothesis He : (0 ≤ sport e < 65536 ∧ 0 ≤ dport e < 65536) ∧ (0 ≤ sip e < 2 ^ 32 ∧ 0 ≤ dip e < 2 ^ 32).

(** The update keeps the sum of all the words it is computed from. *)
Lemma FoeToOrgHdr_view ck :
  length ck = 2%nat → bytes_ok ck →
  ∃ c, FoeToOrgHdr check e (view ck) iph view_th =
    Ret (X1 ++ sa ++ da ++ X2 ++ be16 (sport e) ++ be16 (dport e) ++ X3 ++ le16 c ++ X4) ∧
    0 ≤ c < 65536 ∧
    c + of_le (be16 (sport e)) + of_le (be16 (dport e)) + of_le (be32 (sip e)) + of_le (be32 (dip e)) ≡₁
    of_le ck + of_le sp + of_le dp + of_le sa + of_le da.
Proof.
  intros Hck Hok. destruct He as [[Hes Hed] [Hesi Hedi]].
  pose proof (of_le_range ck 2 Hok Hck) as Rck.
  pose proof (of_le_range sp 2 (proj2 Hsp) (proj1 Hsp)) as Rsp.
  pose proof (of_le_range dp 2 (proj2 Hdp) (proj1 Hdp)) as Rdp.
  pose proof (of_le_range sa 4 (proj2 Hsa) (proj1 Hsa)) as Rsa.
  pose proof (of_le_range da 4 (proj2 Hda) (proj1 Hda)) as Rda.
  assert (H16 : ∀ v, 0 ≤ v < 65536 → 0 ≤ of_le (be16 v) < 2 ^ 32).
  { intros. pose proof (of_le_be16_range v). lia. }
  assert (H32 : ∀ v, 0 ≤ of_le (be32 v) < 2 ^ 32).
  { intros. by apply (of_le_range _ 4); [apply bytes_ok_be32|]. }
  destruct (lnot16 _ Rsp) as [R1 E1]. destruct (lnot16 _ Rdp) as [R2 E2].
  destruct (lnot32 _ Rsa) as [R3 E3]. destruct (lnot32 _ Rda) as [R4 E4].
  unfold FoeToOrgHdr, load16 at 1 2, load_word.
  rewrite load_sp. cbn [mbind outcome_bind].
  pose proof (htons_be16 _ Hes) as Hs. pose proof (htons_be16 _ Hed) as Hd.
  rewrite Hs, Hd, !htonl_be32 by done.
  destruct (CsumPart_spec (Z.lxor (of_le sp) 0xffff) (of_le (be16 (sport e))) (of_le ck)) as [C1 D1]; [done|auto|done|].
  rewrite update_view by done. cbn [mbind outcome_bind]. rewrite load_dp. cbn [mbind outcome_bind].
  set (c1 := CsumPart (Z.lxor (of_le sp) 0xffff) _ _) in *.
  destruct (CsumPart_spec (Z.lxor (of_le dp) 0xffff) (of_le (be16 (dport e))) c1) as [C2 D2]; [done|auto|done|].
  rewrite update_view, le16_of_le by done. cbn [mbind outcome_bind]. rewrite load_sa. cbn [mbind outcome_bind].
  set (c2 := CsumPart (Z.lxor (of_le dp) 0xffff) _ _) in *.
  destruct (CsumPart_spec (u32 (Z.lnot (of_le sa))) (of_le (be32 (sip e))) c2) as [C3 D3]; [done|auto|done|].
  rewrite update_view, le16_of_le by done. cbn [mbind outcome_bind]. rewrite load_da. cbn [mbind outcome_bind].
  set (c3 := CsumPart (u32 (Z.lnot (of_le sa))) _ _) in *.
  destruct (CsumPart_spec (u32 (Z.lnot (of_le da))) (of_le (be32 (dip e))) c3) as [C4 D4]; [done|auto|done|].
  rewrite update_view, le16_of_le by done. cbn [mbind outcome_bind].
  set (c4 := CsumPart (u32 (Z.lnot (of_le da))) _ _) in *.
  rewrite <-Hs, <-Hd, !le16_htons, store_ports by done.
  exists c4. split; [done|]. split; [done|]. rewrite Hs, Hd, D4, D3, D2, D1, E1, E2, E3, E4.
  apply (eq1_intro _ _ 0). lia.
Qed.
End Transport.

(** * The IPv4 header *)

Lemma ihl_bits k : (k ≤ 10)%nat → Z.to_nat (Z.land (0x45 + Z.of_nat k + 256 * 0) 0xf) = (5 + k)%nat.
Proof. intros Hk. do 11 (destruct k as [|k]; [reflexivity|]). lia. Qed.

(** [h10]: the header up to the checksum. *)
Lemma FoeToOrgIpHdr_eq e P h10 ck sa da opts rest k :
  length h10 = 10%nat → length ck = 2%nat → length sa = 4%nat → length da = 4%nat →
  length opts = (4 * k)%nat → (k ≤ 10)%nat → head h10 = Some (0x45 + Z.of_nat k) →
  bytes_ok h10 → bytes_ok opts → 0 ≤ sip e < 2 ^ 32 → 0 ≤ dip e < 2 ^ 32 →
  ∃ c, FoeToOrgIpHdr e (P ++ h10 ++ ck ++ sa ++ da ++ opts ++ rest) (length P) =
      Ret (P ++ h10 ++ le16 c ++ be32 (sip e) ++ be32 (dip e) ++ opts ++ rest) ∧
    0 ≤ c < 65536 ∧ ones_sum (h10 ++ le16 c ++ be32 (sip e) ++ be32 (dip e) ++ opts) ≡₁ 0.
Proof.
  intros Hh Hck Hsa Hda Ho Hk Hhd Hok Hoko Hs Hd. unfold FoeToOrgIpHdr. rewrite !le32_htonl by done.
  rewrite (store_piece _ (P ++ h10 ++ ck) sa (be32 (sip e)) (da ++ opts ++ rest));
    [|by rewrite <-!app_assoc|rewrite !length_app; lia|by rewrite Hsa]. cbn [mbind outcome_bind].
  rewrite (store_piece _ (P ++ h10 ++ ck ++ be32 (sip e)) da (be32 (dip e)) (opts ++ rest));
    [|by rewrite <-!app_assoc|rewrite !length_app; cbn [length be32]; lia|by rewrite Hda]. cbn [mbind outcome_bind].
  rewrite (store_piece _ (P ++ h10) ck (le16 0) (be32 (sip e) ++ be32 (dip e) ++ opts ++ rest));
    [|by rewrite <-!app_assoc|rewrite !length_app; lia|by rewrite Hck]. cbn [mbind outcome_bind].
  rewrite <-!app_assoc.
  set (h := h10 ++ le16 0 ++ be32 (sip e) ++ be32 (dip e) ++ opts).
  assert (length h = (4 * (5 + k))%nat) as Hlh.
  { unfold h. rewrite !length_app. cbn [length le16 be32]. lia. }
  assert (Hoh : bytes_ok h).
  { unfold h. rewrite !bytes_ok_app. split_and!; auto with fw. by repeat constructor. }
  unfold load_ihl.
  assert (load (P ++ h10 ++ le16 0 ++ be32 (sip e) ++ be32 (dip e) ++ opts ++ rest) (length P) 1 =
          Ret [0x45 + Z.of_nat k]) as ->.
  { destruct h10 as [|x h10]; [done|]. injection Hhd as ->.
    apply (load_piece _ P [0x45 + Z.of_nat k] (h10 ++ le16 0 ++ be32 (sip e) ++ be32 (dip e) ++ opts ++ rest)); done. }
  cbn [mbind outcome_bind]. unfold raw. cbn [drop take of_le foldr]. rewrite ihl_bits by done.
  destruct (ip_fast_csum_spec P rest (P ++ h10 ++ le16 0 ++ be32 (sip e) ++ be32 (dip e) ++ opts ++ rest) h (5 + k))
    as (c & Hc & Hr & He); [unfold h; by rewrite <-!app_assoc|done|lia|done|].
  rewrite Hc. cbn [mbind outcome_bind].
  rewrite (store_piece _ (P ++ h10) (le16 0) (le16 c) (be32 (sip e) ++ be32 (dip e) ++ opts ++ rest));
    [|by rewrite <-!app_assoc|rewrite !length_app; lia|done].
  exists c. split; [by rewrite <-!app_assoc|]. split; [done|].
  apply eq1_swap. change (256 * 0) with 0.
  assert (Hev : Nat.Even (length h10)) by (rewrite Hh; by exists 5%nat).
  assert (E2 : Nat.Even (length (le16 c))) by by exists 1%nat.
  assert (E2' : Nat.Even (length (le16 0))) by by exists 1%nat.
  assert (E4 : ∀ v, Nat.Even (length (be32 v))) by (intros; by exists 2%nat).
  unfold h in He. rewrite !ones_sum_app in He |- * by auto.
  transitivity (256 * (ones_sum h10 + (ones_sum (le16 0) + (ones_sum (be32 (sip e)) + (ones_sum (be32 (dip e)) + ones_sum opts))))
    + of_le (le16 c)).
  { rewrite (of_le_sum (le16 c)) by done. change (ones_sum (le16 0)) with 0. apply (eq1_intro _ _ 0). lia. }
  rewrite le16_of_le, He by done. apply (eq1_intro _ _ 0). lia.
Qed.

(** * Frames *)

#[export] Instance frame_eta : Eta frame := λ r,
  {| f_dst := f_dst r; f_src := f_src r; f_vlans := f_vlans r; f_pppoe := f_pppoe r; f_tos := f_tos r;
     f_len_id := f_len_id r; f_frag := f_frag r; f_ttl := f_ttl r; f_udp := f_udp r;
     f_check := f_check r; f_saddr := f_saddr r; f_daddr := f_daddr r; f_options := f_options r;
     f_sport := f_sport r; f_dport := f_dport r; f_rest := f_rest r |}.

(** The header and its options sum up to 0. *)
Definition ip_valid (f : frame) : Prop := ones_sum (encode_ip f ++ f_options f) ≡₁ 0.

(** The sum over the pseudo header and the transport: 0 if its checksum is right. *)
Definition pseudo (f : frame) : bytes :=
  be32 (f_saddr f) ++ be32 (f_daddr f) ++ [0; f_protocol f] ++ be16 (Z.of_nat (length (encode_l4 f))).
Definition l4_sum (f : frame) : Z := ones_sum (pseudo f ++ encode_l4 f).

(** Where the checksum is in [f_rest]. *)
Definition check_pos (f : frame) : nat := if f_udp f then 2 else 12.

(** The frame with the addresses and ports that the entry was found by. *)
Definition original (e : FoeEntry) (f : frame) (ipck l4ck : Z) : frame :=
  f ⦃ f_saddr := sip e ⦄ ⦃ f_daddr := dip e ⦄ ⦃ f_sport := sport e ⦄ ⦃ f_dport := dport e ⦄
    ⦃ f_check := le16 ipck ⦄
    ⦃ f_rest := take (check_pos f) (f_rest f) ++ le16 l4ck ++ drop (check_pos f + 2) (f_rest f) ⦄.

Definition entry_ok (e : FoeEntry) : Prop :=
  (0 ≤ sport e < 65536 ∧ 0 ≤ dport e < 65536) ∧ (0 ≤ sip e < 2 ^ 32 ∧ 0 ≤ dip e < 2 ^ 32).

Section KeepIp.
Context (f : frame) (e : FoeEntry) (P post : bytes).
Hypothesis Hf : frame_ok f.
Hypothesis Hb : bytes_ok (encode_ip f ++ f_options f ++ encode_l4 f).
Hypothesis He : entry_ok e.

Definition h10 : bytes :=
  [0x45 + Z.of_nat (length (f_options f) / 4); f_tos f] ++ f_len_id f ++ be16 (f_frag f) ++ [f_ttl f; f_protocol f].

Lemma encode_ip_h10 : encode_ip f = h10 ++ f_check f ++ be32 (f_saddr f) ++ be32 (f_daddr f).
Proof. unfold encode_ip, h10. by rewrite <-!app_assoc. Qed.

Lemma rest_pieces : ∃ X3 ck X4, f_rest f = X3 ++ ck ++ X4 ∧ length X3 = check_pos f ∧ length ck = 2%nat ∧
  X3 = take (check_pos f) (f_rest f) ∧ X4 = drop (check_pos f + 2) (f_rest f) ∧ bytes_ok ck.
Proof.
  destruct Hf as [_ _ _ _ _ _ _ _ _ _ _ _ Hr].
  assert (check_pos f + 2 ≤ length (f_rest f))%nat by (unfold check_pos; destruct (f_udp f); lia).
  exists (take (check_pos f) (f_rest f)), (take 2 (drop (check_pos f) (f_rest f))), (drop (check_pos f + 2) (f_rest f)).
  rewrite !length_take, length_drop. split_and!; try done; try lia.
  - rewrite <-drop_drop, take_drop, take_drop. done.
  - apply bytes_ok_app in Hb as [_ Hb']. apply bytes_ok_app in Hb' as [_ Hb'].
    unfold encode_l4 in Hb'. apply bytes_ok_app in Hb' as [_ Hb']. apply bytes_ok_app in Hb' as [_ Hb'].
    auto with fw.
Qed.

Lemma h10_facts :
  length h10 = 10%nat ∧ bytes_ok h10 ∧ bytes_ok (f_options f) ∧
  ∃ k, length (f_options f) = (4 * k)%nat ∧ (k ≤ 10)%nat ∧ head h10 = Some (0x45 + Z.of_nat k).
Proof.
  destruct Hf as [_ _ _ _ _ _ Hl _ _ _ (k & Hk & Hk10) _ _]. split_and!.
  - unfold h10. rewrite !length_app. cbn [length be16]. lia.
  - apply bytes_ok_app in Hb as [Hb1 _]. rewrite encode_ip_h10 in Hb1. by apply bytes_ok_app in Hb1 as [? _].
  - apply bytes_ok_app in Hb as [_ Hb2]. by apply bytes_ok_app in Hb2 as [? _].
  - exists k. split_and!; [done..|]. unfold h10. rewrite Hk, Nat.mul_comm, Nat.div_mul by lia. done.
Qed.

(** The step for TCP or UDP. *)
Lemma keep_l4_frame X3 ck X4 :
  f_rest f = X3 ++ ck ++ X4 → length X3 = check_pos f → length ck = 2%nat → bytes_ok ck →
  let buf := P ++ encode_ip f ++ f_options f ++ encode_l4 f ++ post in
  ∃ c,
    (if raw [f_protocol f] 0 1 =? IPPROTO_TCP then
       let* ihl := load_ihl buf (length P) in FoeToOrgTcpHdr e buf (length P) (length P + ihl * 4)
     else if raw [f_protocol f] 0 1 =? IPPROTO_UDP then
       let* ihl := load_ihl buf (length P) in FoeToOrgUdpHdr e buf (length P) (length P + ihl * 4)
     else Ret buf) =
      Ret (P ++ h10 ++ f_check f ++ be32 (f_saddr f) ++ be32 (f_daddr f) ++ f_options f ++
           be16 (sport e) ++ be16 (dport e) ++ X3 ++ le16 c ++ X4 ++ post) ∧
    0 ≤ c < 65536 ∧
    c + of_le (be16 (sport e)) + of_le (be16 (dport e)) + of_le (be32 (sip e)) + of_le (be32 (dip e)) ≡₁
    of_le ck + of_le (be16 (f_sport f)) + of_le (be16 (f_dport f)) + of_le (be32 (f_saddr f)) + of_le (be32 (f_daddr f)).
Proof.
  intros Hr HX3 Hck Hokck buf. destruct h10_facts as (Hl & _ & _ & k & Hk & Hk10 & Hhd).
  pose proof Hf as [_ _ _ _ _ _ _ _ Hc2 _ _ _ _].
  assert (Hbuf : buf = P ++ h10 ++ f_check f ++ be32 (f_saddr f) ++ be32 (f_daddr f) ++ f_options f ++
    be16 (f_sport f) ++ be16 (f_dport f) ++ X3 ++ ck ++ X4 ++ post).
  { unfold buf, encode_l4. rewrite encode_ip_h10, Hr, <-!app_assoc. done. }
  assert (Hihl : load_ihl buf (length P) = Ret (5 + k)%nat).
  { unfold load_ihl. rewrite Hbuf. destruct h10 as [|x h]; [done|]. injection Hhd as ->.
    rewrite (load_piece _ P [0x45 + Z.of_nat k] (h ++ f_check f ++ be32 (f_saddr f) ++ be32 (f_daddr f) ++
      f_options f ++ be16 (f_sport f) ++ be16 (f_dport f) ++ X3 ++ ck ++ X4 ++ post)) by done.
    cbn [mbind outcome_bind]. unfold raw. cbn [drop take of_le foldr]. by rewrite ihl_bits. }
  destruct (FoeToOrgHdr_view (P ++ h10 ++ f_check f) (f_options f) X3 (X4 ++ post) (be32 (f_saddr f))
    (be32 (f_daddr f)) (be16 (f_sport f)) (be16 (f_dport f)) e (if f_udp f then 6 else 16)%nat (length P))
    with (ck := ck) as (c & Hv & Hrc & Hs); try done; try (split; [done|auto with fw]).
  - rewrite !length_app. lia.
  - rewrite HX3. unfold check_pos. by destruct (f_udp f).
  - exists c. split; [|done]. unfold view, view_th in Hv.
    replace (length (P ++ h10 ++ f_check f) + 8 + length (f_options f))%nat with (length P + (5 + k) * 4)%nat in Hv
      by (rewrite !length_app; lia).
    rewrite <-!app_assoc in Hv.
    unfold f_protocol. destruct (f_udp f); cbn [raw drop take of_le foldr Z.eqb Pos.eqb];
      rewrite Hihl; cbn [mbind outcome_bind]; rewrite Hbuf; exact Hv.
Qed.

Lemma l4_sum_eq X3 ck X4 ipck l4ck :
  f_rest f = X3 ++ ck ++ X4 → length X3 = check_pos f → length ck = 2%nat → 0 ≤ l4ck < 65536 →
  X3 = take (check_pos f) (f_rest f) → X4 = drop (check_pos f + 2) (f_rest f) →
  l4ck + of_le (be16 (sport e)) + of_le (be16 (dport e)) + of_le (be32 (sip e)) + of_le (be32 (dip e)) ≡₁
    of_le ck + of_le (be16 (f_sport f)) + of_le (be16 (f_dport f)) + of_le (be32 (f_saddr f)) + of_le (be32 (f_daddr f)) →
  l4_sum (original e f ipck l4ck) ≡₁ l4_sum f.
Proof.
  intros Hr HX3 Hck Hc HeX3 HeX4 Hs.
  assert (E3 : Nat.Even (length X3)).
  { rewrite HX3. unfold check_pos. destruct (f_udp f); [by exists 1%nat|by exists 6%nat]. }
  assert (Ec : Nat.Even (length ck)) by (rewrite Hck; by exists 1%nat).
  assert (El : ∀ v, Nat.Even (length (le16 v))) by (intros; by exists 1%nat).
  assert (E2 : ∀ v, Nat.Even (length (be16 v))) by (intros; by exists 1%nat).
  assert (E4 : ∀ v, Nat.Even (length (be32 v))) by (intros; by exists 2%nat).
  assert (Ep : ∀ x, Nat.Even (length [0; x])) by (intros; by exists 1%nat).
  assert (Hlen : length (encode_l4 (original e f ipck l4ck)) = length (encode_l4 f)).
  { unfold encode_l4, original. cbn -[app be16 le16 take drop]. rewrite <-HeX3, <-HeX4, Hr, !length_app, Hck. done. }
  unfold l4_sum, pseudo. rewrite Hlen. unfold encode_l4.
  change (f_protocol (original e f ipck l4ck)) with (f_protocol f).
  change (f_rest (original e f ipck l4ck)) with (take (check_pos f) (f_rest f) ++ le16 l4ck ++ drop (check_pos f + 2) (f_rest f)).
  rewrite <-HeX3, <-HeX4, Hr.
  change (f_saddr (original e f ipck l4ck)) with (sip e). change (f_daddr (original e f ipck l4ck)) with (dip e).
  change (f_sport (original e f ipck l4ck)) with (sport e). change (f_dport (original e f ipck l4ck)) with (dport e).
  rewrite <-!app_assoc, !ones_sum_app by auto. apply eq1_swap.
  set (p := ones_sum [0; f_protocol f]). set (n := ones_sum (be16 _)). set (s := ones_sum X3). set (t := ones_sum X4).
  transitivity (l4ck + of_le (be16 (sport e)) + of_le (be16 (dport e)) + of_le (be32 (sip e)) + of_le (be32 (dip e)) + 256 * (p + n + s + t)).
  - rewrite <-(le16_of_le l4ck) at 2 by done. rewrite !of_le_sum by auto. apply (eq1_intro _ _ 0). lia.
  - rewrite Hs, !of_le_sum by auto. apply (eq1_intro _ _ 0). lia.
Qed.

Lemma keep_ip_frame :
  ∃ ipck l4ck, keep_ip e (P ++ encode_ip f ++ f_options f ++ encode_l4 f ++ post) (length P) =
      Ret (P ++ encode_ip (original e f ipck l4ck) ++ f_options f ++ encode_l4 (original e f ipck l4ck) ++ post) ∧
    0 ≤ ipck < 65536 ∧ 0 ≤ l4ck < 65536 ∧ ip_valid (original e f ipck l4ck) ∧
    l4_sum (original e f ipck l4ck) ≡₁ l4_sum f.
Proof.
  destruct rest_pieces as (X3 & ck & X4 & Hr & HX3 & Hck & HeX3 & HeX4 & Hokck).
  destruct (keep_l4_frame X3 ck X4 Hr HX3 Hck Hokck) as (l4ck & Hl4 & Hrl4 & Hsum).
  destruct h10_facts as (Hl & Hokh & Hoko & k & Hk & Hk10 & Hhd). destruct He as [_ [Hes Hed]].
  pose proof Hf as [_ _ _ _ _ _ _ _ Hc2 _ _ _ _].
  destruct (FoeToOrgIpHdr_eq e P h10 (f_check f) (be32 (f_saddr f)) (be32 (f_daddr f)) (f_options f)
    (be16 (sport e) ++ be16 (dport e) ++ X3 ++ le16 l4ck ++ X4 ++ post) k) as (ipck & Hip & Hrip & Hval); try done.
  exists ipck, l4ck. split_and!; try done; try apply Hrip; try apply Hrl4.
  - unfold keep_ip.
    assert (load (P ++ encode_ip f ++ f_options f ++ encode_l4 f ++ post) (length P + 9) 1 = Ret [f_protocol f]) as ->.
    { rewrite encode_ip_h10. unfold h10.
      apply (load_piece _ (P ++ [0x45 + Z.of_nat (length (f_options f) / 4); f_tos f] ++ f_len_id f ++ be16 (f_frag f) ++ [f_ttl f])
        [f_protocol f] (f_check f ++ be32 (f_saddr f) ++ be32 (f_daddr f) ++ f_options f ++ encode_l4 f ++ post)).
      - rewrite <-!app_assoc. done.
      - rewrite !length_app, (fo_len_id f Hf). cbn [length be16]. lia.
      - done. }
    cbn [mbind outcome_bind]. cbn zeta in Hl4. rewrite Hl4. cbn [mbind outcome_bind]. rewrite Hip.
    f_equal. f_equal. unfold encode_l4, original. rewrite <-HeX3, <-HeX4.
    unfold encode_ip, h10. cbn -[app be16 be32 le16]. rewrite <-!app_assoc. done.
  - unfold ip_valid. etrans; [|exact Hval]. unfold encode_ip, h10. cbn -[app be16 be32 le16 ones_sum].
    rewrite <-!app_assoc. done.
  - apply (l4_sum_eq X3 ck X4); done.
Qed.
End KeepIp.
