(* ===== verification/KeepAliveProps.v ===== *)
(** What [PpeKeepAliveHandler] makes of a frame: of its MAC addresses, its tags, and
    the headers behind them. *)

From S2P Require Import Prelude PpeRegs Foe PacketTx PacketSpec PacketTxProps KeepAlive Checksum KeepAliveFacts.

(** * The Ethernet header *)

Fixpoint poke (l d : bytes) {struct d} : outcome bytes :=
  match d, l with
  | [], _ => Ret l
  | x :: d, _ :: l => let* r := poke l d in Ret (x :: r)
  | _ :: _, [] => Oob
  end.
Fixpoint store_s (l : bytes) (off : nat) (d : bytes) {struct off} : outcome bytes :=
  match off, l with
  | O, _ => poke l d
  | S off, x :: l => let* r := store_s l off d in Ret (x :: r)
  | S _, [] => Oob
  end.

Lemma poke_store l d : poke l d = store l 0 d.
Proof.
  revert l. induction d as [|x d IH]; intros [|y l]; cbn [poke]; [done..|].
  rewrite IH. unfold store, splice. cbn [length take app drop Nat.add].
  repeat case_decide; cbn in *; [done|lia..|done].
Qed.

Lemma store_s_store l off d : store l off d = store_s l off d.
Proof.
  revert off. induction l as [|x l IH]; intros [|off]; cbn [store_s]; rewrite ?poke_store; try done.
  rewrite <-IH. unfold store, splice. cbn [length take app drop Nat.add].
  repeat case_decide; cbn in *; [done|lia..|done].
Qed.

Lemma store_app pre l k off d :
  k = length pre → store (pre ++ l) (k + off) d = (let* r := store_s l off d in Ret (pre ++ r)).
Proof.
  intros ->. rewrite <-store_s_store. unfold store, splice. rewrite length_app.
  rewrite <-Nat.add_assoc, take_app_add, drop_app_add. repeat case_decide; cbn; try lia; [|done].
  by rewrite <-app_assoc.
Qed.

(** [copy_bytes] on the part of a buffer behind a prefix. *)
Fixpoint copy_s (mem : bytes) (Dst Src : nat) (l : list (nat * nat)) : outcome bytes :=
  match l with
  | [] => Ret mem
  | (i, j) :: l =>
      let* b := load_s mem (Src + j) 1 in
      let* mem := store_s mem (Dst + i) b in
      copy_s mem Dst Src l
  end.

Lemma copy_bytes_app pre mem k Dst Src l :
  k = length pre →
  copy_bytes (pre ++ mem) (k + Dst) (k + Src) l = (let* r := copy_s mem Dst Src l in Ret (pre ++ r)).
Proof.
  intros ->. revert mem. induction l as [|[i j] l IH]; intros mem; [done|]. cbn [copy_bytes copy_s].
  rewrite <-!Nat.add_assoc, load_app by done. destruct (load_s mem (Src + j) 1); cbn; [|done..].
  rewrite store_app by done. destruct (store_s mem (Dst + i) a); cbn; [|done..]. apply IH.
Qed.

(** What the handler makes of the MAC addresses: both copies swap bytes as if the
    source were the block of an entry, and the first reads two bytes of the type. *)
Definition swapped_dst (f : frame) : bytes :=
  let s i := nth i (f_src f) 0 in
  let t i := nth i (encode_tags (f_vlans f) (f_pppoe f)) 0 in
  [s 1%nat; s 0%nat; t 1%nat; t 0%nat; s 5%nat; s 4%nat].
Definition swapped_src (f : frame) : bytes :=
  let d i := nth i (swapped_dst f) 0 in [1; d 0%nat; d 0%nat; d 1%nat; d 5%nat; d 4%nat].

Lemma keep_mac_frame pre f rest :
  frame_ok f →
  keep_mac (pre ++ f_dst f ++ f_src f ++ encode_tags (f_vlans f) (f_pppoe f) ++ rest) (length pre) =
    Ret (pre ++ swapped_dst f ++ swapped_src f ++ encode_tags (f_vlans f) (f_pppoe f) ++ rest).
Proof.
  intros [Hd _ Hs _ _ _ _ _ _ _ _ _ _]. unfold swapped_dst, swapped_src, swapped_dst.
  assert (∃ t0 t1 ts, encode_tags (f_vlans f) (f_pppoe f) = t0 :: t1 :: ts) as (t0 & t1 & ts & ->).
  { destruct (f_vlans f), (f_pppoe f) as [[[]]|]; cbn; eauto. }
  destruct (f_dst f) as [|d0 [|d1 [|d2 [|d3 [|d4 [|d5 [|]]]]]]]; try done.
  destruct (f_src f) as [|s0 [|s1 [|s2 [|s3 [|s4 [|s5 [|]]]]]]]; try done.
  unfold keep_mac, FoeGetMacInfo. rewrite <-(Nat.add_0_r (length pre)) at 1.
  rewrite copy_bytes_app by done. cbn -[store copy_bytes]. 
  rewrite <-(Nat.add_0_r (length pre)) at 2.
  rewrite copy_bytes_app by done. cbn -[store]. rewrite store_app by done. reflexivity.
Qed.

(** * The tags *)

(** The outer VLAN identifier becomes that of the other side. *)
Definition other_vlan (c : nat_conf) (vlans : list Z) : list Z :=
  match vlans with
  | t :: vlans => (if t =? nc_wan_vid c then nc_lan_vid c else nc_wan_vid c) :: vlans
  | [] => []
  end.

Definition vids_ok (c : nat_conf) : Prop := 0 ≤ nc_lan_vid c < 65536 ∧ 0 ≤ nc_wan_vid c < 65536.

Lemma load16_piece l a v b k :
  l = a ++ be16 v ++ b → k = length a → load16 l k = Ret (of_le (be16 v)).
Proof. intros. unfold load16. by rewrite (load_piece l a (be16 v) b). Qed.

Lemma keep_tags_frame c pre mac vlans rest :
  vids_ok c → (length vlans ≤ 2)%nat → Forall (λ t, 0 ≤ t < 2 ^ 16) vlans → length mac = 12%nat →
  keep_tags c (pre ++ mac ++ encode_tags vlans None ++ rest) (length pre + 14)
    (ntohs (of_le (take 2 (encode_tags vlans None)))) =
    Ret (pre ++ mac ++ encode_tags (other_vlan c vlans) None ++ rest, ETH_P_IP, (4 * length vlans)%nat).
Proof.
  intros [Hl Hw] Hn Hv Hm. destruct vlans as [|t vs]; [done|]. apply Forall_cons in Hv as [Ht Hv].
  set (v := if t =? nc_wan_vid c then nc_lan_vid c else nc_wan_vid c).
  assert (Hrv : 0 ≤ v < 65536) by (unfold v; by destruct (_ =? _)).
  unfold keep_tags. change (take 2 (encode_tags (t :: vs) None)) with (be16 ETH_P_8021Q).
  rewrite ntohs_be16 by done. cbn [Z.eqb Pos.eqb ETH_P_8021Q]. cbn [encode_tags other_vlan].
  rewrite <-!app_assoc.
  rewrite (load16_piece _ (pre ++ mac ++ be16 ETH_P_8021Q) t (encode_tags vs None ++ rest))
    by (rewrite ?length_app, <-?app_assoc; first [done|cbn [length be16]; lia]).
  cbn [mbind outcome_bind]. rewrite ntohs_be16 by done. fold v. rewrite le16_htons by done.
  rewrite (store_piece _ (pre ++ mac ++ be16 ETH_P_8021Q) (be16 t) (be16 v) (encode_tags vs None ++ rest))
    by (rewrite ?length_app, <-?app_assoc; first [done|cbn [length be16]; lia]).
  cbn [mbind outcome_bind].
  destruct vs as [|u [|]]; [| |cbn in Hn; lia]; cbn [encode_tags].
  - rewrite (load16_piece _ (pre ++ mac ++ be16 ETH_P_8021Q ++ be16 v) ETH_P_IP rest (length pre + 14 + 2))
      by (rewrite ?length_app, <-?app_assoc; first [done|cbn [length be16]; lia]).
    cbn [mbind outcome_bind]. rewrite !ntohs_be16 by done. cbn [Z.eqb Pos.eqb ETH_P_PPP_SES ETH_P_8021Q ETH_P_IP].
    rewrite <-?app_assoc. reflexivity.
  - rewrite <-!app_assoc.
    rewrite (load16_piece _ (pre ++ mac ++ be16 ETH_P_8021Q ++ be16 v) ETH_P_8021Q (be16 u ++ be16 ETH_P_IP ++ rest)
      (length pre + 14 + 2))
      by (rewrite ?length_app, <-?app_assoc; first [done|cbn [length be16]; lia]).
    cbn [mbind outcome_bind]. rewrite !ntohs_be16 by done. cbn [Z.eqb Pos.eqb ETH_P_PPP_SES ETH_P_8021Q ETH_P_IP].
    rewrite (load16_piece _ (pre ++ mac ++ be16 ETH_P_8021Q ++ be16 v ++ be16 ETH_P_8021Q ++ be16 u) ETH_P_IP rest)
      by (rewrite ?length_app, <-?app_assoc; first [done|unfold VLAN_HLEN; cbn [length be16]; lia]).
    cbn [mbind outcome_bind]. rewrite !ntohs_be16 by done. cbn [Z.eqb Pos.eqb ETH_P_PPP_SES ETH_P_8021Q ETH_P_IP].
    rewrite <-?app_assoc. reflexivity.
Qed.

(** * The whole handler *)

(** The frame with the tag of the other side. *)
Definition retag (c : nat_conf) (f : frame) : frame := f ⦃ f_vlans := other_vlan c (f_vlans f) ⦄.

(** A datagram of UDP may come without a checksum, its field is 0 then. *)
Definition has_checksum (f : frame) : bool := negb (f_udp f) || negb (bool_decide (take 2 (drop 2 (f_rest f)) = [0; 0])).
(** The checksum of TCP or UDP is there and right: the sum over the pseudo header,
    the header and the data is 0. *)
Definition l4_valid (f : frame) : Prop := has_checksum f = true ∧ l4_sum f ≡₁ 0.
(** A receiver takes it: it is right, or there is none. *)
Definition l4_accepted (f : frame) : Prop := l4_sum f ≡₁ 0 ∨ has_checksum f = false.

(** C8. The keep-alive copy of a packet that the engine has translated is one of the
    untranslated flow again to IP and to TCP or UDP.  For an IPv4 frame that is not a
    fragment, with no PPPoE header and at most two VLAN tags, whose TCP or UDP
    checksum is there and right, the handler leaves behind the MAC addresses exactly
    the frame with the addresses and ports of the flow's entry, its VLAN identifier
    that of the other side, every other byte as it was but for the two checksums;
    that of the IPv4 header is right and that of TCP or UDP is accepted.  Nothing before
    or behind the frame changes, and the kernel takes it as a packet for this host.
    Not claimed: the two MAC addresses ([keep_mac_frame] says what they become),
    frames with a PPPoE header, which are not restored, and datagrams with no
    checksum. *)
Theorem keepalive_restores_packet c skb pre post f e :
  skb_buf skb = pre ++ encode f ++ post → skb_data skb = (length pre + ETH_HLEN)%nat →
  skb_protocol skb = of_le (take 2 (encode_tags (f_vlans f) (f_pppoe f))) →
  frame_ok f → f_pppoe f = None → bytes_ok (encode f) → entry_ok e → vids_ok c → l4_valid f →
  ∃ mac buf ipck l4ck,
    PpeKeepAliveHandler c skb e = Ret (1, skb ⦃ skb_buf := buf ⦄ ⦃ skb_pkt_type := PACKET_HOST ⦄) ∧
    let f' := original e (retag c f) ipck l4ck in
    buf = pre ++ mac ++ drop 12 (encode f') ++ post ∧ length mac = 12%nat ∧ ip_valid f' ∧ l4_accepted f'.
Proof.
  intros Hbuf Hdata Hproto Hf Hpp Hok He Hc [_ Hsum0]. unfold PpeKeepAliveHandler.
  rewrite decide_False by lia. rewrite Hdata, Nat.add_sub, Hbuf, Hproto.
  assert (Hsplit : pre ++ encode f ++ post = pre ++ f_dst f ++ f_src f ++ encode_tags (f_vlans f) (f_pppoe f) ++
    encode_ip f ++ f_options f ++ encode_l4 f ++ post) by (unfold encode; by rewrite <-!app_assoc).
  rewrite Hsplit, keep_mac_frame by done. cbn [mbind outcome_bind]. rewrite Hpp.
  pose proof Hf as [_ _ _ [Hn Hv] _ _ _ _ _ _ _ _ _].
  rewrite (app_assoc (swapped_dst f)), keep_tags_frame by done. cbn [mbind outcome_bind Z.eqb Pos.eqb ETH_P_IP].
  set (mac := swapped_dst f ++ swapped_src f).
  assert (Hok' : bytes_ok (encode_ip f ++ f_options f ++ encode_l4 f)).
  { unfold encode in Hok. rewrite !bytes_ok_app in *. tauto. }
  destruct (keep_ip_frame f e (pre ++ mac ++ encode_tags (other_vlan c (f_vlans f)) None) post Hf Hok' He)
    as (ipck & l4ck & Hk & _ & _ & Hval & Hsum).
  replace (length pre + ETH_HLEN + 4 * length (f_vlans f))%nat
    with (length (pre ++ mac ++ encode_tags (other_vlan c (f_vlans f)) None)).
  2: { rewrite !length_app. unfold ETH_HLEN. clear -Hn. destruct (f_vlans f) as [|t [|u [|]]]; cbn in *; lia. }
  rewrite <-?app_assoc in Hk. rewrite <-?app_assoc, Hk. cbn [mbind outcome_bind].
  exists mac. eexists _, ipck, l4ck. split; [done|]. cbn zeta. split_and!; [|done|done|left; by rewrite <-Hsum0].
  assert (Hd : ∀ g, length (f_dst g) = 6%nat → length (f_src g) = 6%nat →
    drop 12 (encode g) = encode_tags (f_vlans g) (f_pppoe g) ++ encode_ip g ++ f_options g ++ encode_l4 g).
  { intros g H1 H2. unfold encode. rewrite app_assoc, drop_app_length' by (rewrite length_app; lia). done. }
  rewrite Hd by apply Hf. cbn -[app encode_tags encode_ip encode_l4]. rewrite Hpp. unfold mac.
  rewrite <-!app_assoc. done.
Qed.

(** The answer to the datagram of [demo_frame] as the engine has translated it
    for the station behind the router; its UDP checksum is right. *)
Definition demo_answer : frame :=
  demo_frame ⦃ f_pppoe := None ⦄ ⦃ f_vlans := [1] ⦄ ⦃ f_saddr := 0x08080808 ⦄ ⦃ f_daddr := 0xC0000201 ⦄
    ⦃ f_sport := 53 ⦄ ⦃ f_dport := 40000 ⦄ ⦃ f_rest := [0; 12; 141; 73; 1; 2; 3; 4] ⦄.
Definition demo_answer_skb : sk_buff :=
  demo_skb ⦃ skb_buf := [0x75; 0x72; 5; 0; 0x98; 1] ++ encode demo_answer ++ [0; 0] ⦄
    ⦃ skb_data := 20%nat ⦄ ⦃ skb_protocol := 0x0081 ⦄.
Definition demo_entry : FoeEntry :=
  zero_entry ⦃ sip := 0x08080808 ⦄ ⦃ dip := 0xC0A80102 ⦄ ⦃ sport := 53 ⦄ ⦃ dport := 1025 ⦄.

Lemma demo_answer_ok : frame_ok demo_answer.
Proof.
  split; try (by exists 0%nat); try (vm_compute; reflexivity); cbn; repeat split; try lia; try reflexivity.
  - repeat constructor; lia.
  - exists 0%nat. lia.
Qed.

Lemma keepalive_restores_packet_witness :
  ∃ mac buf ipck l4ck,
    PpeKeepAliveHandler demo_conf demo_answer_skb demo_entry =
      Ret (1, demo_answer_skb ⦃ skb_buf := buf ⦄ ⦃ skb_pkt_type := PACKET_HOST ⦄) ∧
    let f' := original demo_entry (retag demo_conf demo_answer) ipck l4ck in
    buf = [0x75; 0x72; 5; 0; 0x98; 1] ++ mac ++ drop 12 (encode f') ++ [0; 0] ∧ ip_valid f' ∧ l4_accepted f'.
Proof.
  destruct (keepalive_restores_packet demo_conf demo_answer_skb [0x75; 0x72; 5; 0; 0x98; 1] [0; 0]
    demo_answer demo_entry) as (m & s & i & l & H & H1 & _ & H2 & H3).
  - vm_compute. reflexivity.
  - reflexivity.
  - vm_compute. reflexivity.
  - apply demo_answer_ok.
  - reflexivity.
  - refine (bool_decide_unpack _ _). vm_compute. exact I.
  - vm_compute. repeat split; congruence.
  - vm_compute. repeat split; congruence.
  - split; [reflexivity|]. apply eq1_mod. vm_compute. reflexivity.
  - exists m, s, i, l. split; [exact H|]. split; [exact H1|]. split; [exact H2|exact H3].
Defined.
