(* ===== verification/PpeConfig.v ===== *)
(** The configuration registers of the packet engine: the settings of the ioctl
    [hwnat0] ([hwnat_ioctl.c]) and those of the start of the module
    ([PpeEngStart] of [ra_nat.c]), for the 4096 flows of the default. *)

From S2P Require Import Prelude PpeRegs Policy PolicyEngine Foe.

(** A sequence of calls [RegModifyBits (Addr, Data, Offset, Len)]. *)
Definition modify_all (p : ppe) (l : list (Z * Z * Z * Z)) : ppe :=
  foldl (λ p '(a, d, o, n), RegModifyBits p a d o n) p l.
Definition write_all (p : ppe) (l : list (Z * Z)) : ppe :=
  foldl (λ p '(a, v), RegWrite p a v) p l.

(** * [hwnat_ioctl.c] *)

Definition VUP_WT_OFFSET : Z := 4.
Definition DUP_WT_OFFSET : Z := 8.
Definition AUP_WT_OFFSET : Z := 12.
Definition FUP_WT_OFFSET : Z := 16.
Definition ATP_WT_OFFSET : Z := 20.

Definition DSCP8_15_MAP_UP : Z := PPE_BASE + 0x64.
Definition DSCP16_23_MAP_UP : Z := PPE_BASE + 0x68.
Definition DSCP24_31_MAP_UP : Z := PPE_BASE + 0x6C.
Definition DSCP32_39_MAP_UP : Z := PPE_BASE + 0x70.
Definition DSCP40_47_MAP_UP : Z := PPE_BASE + 0x74.
Definition DSCP48_55_MAP_UP : Z := PPE_BASE + 0x78.
Definition DSCP56_63_MAP_UP : Z := PPE_BASE + 0x7C.

Definition PpeSetDscpRemarkEbl (p : ppe) (enable : Z) : Z * ppe :=
  (HWNAT_SUCCESS, RegModifyBits p PPE_GLO_CFG enable 11 1).
Definition PpeSetVpriRemarkEbl (p : ppe) (enable : Z) : Z * ppe :=
  (HWNAT_SUCCESS, RegModifyBits p PPE_GLO_CFG enable 10 1).
Definition PpeSetWeightFOE (p : ppe) (weight : Z) : Z * ppe :=
  (HWNAT_SUCCESS, RegModifyBits p UP_RES weight FUP_WT_OFFSET 3).
Definition PpeSetWeightACL (p : ppe) (weight : Z) : Z * ppe :=
  (HWNAT_SUCCESS, RegModifyBits p UP_RES weight AUP_WT_OFFSET 3).
Definition PpeSetWeightDSCP (p : ppe) (weight : Z) : Z * ppe :=
  (HWNAT_SUCCESS, RegModifyBits p UP_RES weight DUP_WT_OFFSET 3).
Definition PpeSetWeightVPRI (p : ppe) (weight : Z) : Z * ppe :=
  (HWNAT_SUCCESS, RegModifyBits p UP_RES weight VUP_WT_OFFSET 3).

(** The user priority in each of the eight nibbles; [UP] has three bits. *)
Definition PpeSetDSCP_UP (p : ppe) (DSCP_SET UP : Z) : Z * ppe :=
  let DSCP_UP :=
    foldl (λ v s, Z.lor v (Z.shiftl UP s)) 0 [0; 4; 8; 12; 16; 20; 24; 28] in
  let put a := (HWNAT_SUCCESS, RegWrite p a DSCP_UP) in
  if DSCP_SET =? 0 then put DSCP0_7_MAP_UP
  else if DSCP_SET =? 1 then put DSCP8_15_MAP_UP
  else if DSCP_SET =? 2 then put DSCP16_23_MAP_UP
  else if DSCP_SET =? 3 then put DSCP24_31_MAP_UP
  else if DSCP_SET =? 4 then put DSCP32_39_MAP_UP
  else if DSCP_SET =? 5 then put DSCP40_47_MAP_UP
  else if DSCP_SET =? 6 then put DSCP48_55_MAP_UP
  else if DSCP_SET =? 7 then put DSCP56_63_MAP_UP
  else (HWNAT_SUCCESS, p).

(** The [switch (UP)] of [PpeSetUP_IDSCP] and [PpeSetUP_ODSCP]. *)
Definition set_up_dscp (p : ppe) (lo hi UP v : Z) : Z * ppe :=
  let put a o := (HWNAT_SUCCESS, RegModifyBits p a v o 6) in
  if UP =? 0 then put lo 0
  else if UP =? 1 then put lo 8
  else if UP =? 2 then put lo 16
  else if UP =? 3 then put lo 24
  else if UP =? 4 then put hi 0
  else if UP =? 5 then put hi 8
  else if UP =? 6 then put hi 16
  else if UP =? 7 then put hi 24
  else (HWNAT_SUCCESS, p).

Definition PpeSetUP_IDSCP (p : ppe) (UP IDSCP : Z) : Z * ppe :=
  set_up_dscp p UP0_3_MAP_IDSCP UP4_7_MAP_IDSCP UP IDSCP.
Definition PpeSetUP_ODSCP (p : ppe) (UP ODSCP : Z) : Z * ppe :=
  set_up_dscp p UP0_3_MAP_ODSCP UP4_7_MAP_ODSCP UP ODSCP.

Definition in_priorities (UP : Z) : bool := (0 <=? UP) && (UP <=? 7).

Definition PpeSetUP_VPRI (p : ppe) (UP VPRI : Z) : Z * ppe :=
  (HWNAT_SUCCESS, if in_priorities UP then RegModifyBits p UP_MAP_VPRI VPRI (4 * UP) 3 else p).
Definition PpeSetUP_AC (p : ppe) (UP AC : Z) : Z * ppe :=
  (HWNAT_SUCCESS, if in_priorities UP then RegModifyBits p UP_MAP_AC AC (2 * UP) 2 else p).

Definition PpeSetSchMode (p : ppe) (policy : Z) : Z * ppe :=
  (HWNAT_SUCCESS, modify_all p [(FE_GDMA1_SCH_CFG, policy, 24, 2); (FE_GDMA2_SCH_CFG, policy, 24, 2)]).

Definition PpeWeightRemap (W : Z) : Z :=
  if W =? 8 then 7 else if W =? 4 then 3 else if W =? 2 then 1 else if W =? 1 then 0 else -1.

Definition PpeSetSchWeight (p : ppe) (W0 W1 W2 W3 : Z) : Z * ppe :=
  let _W0 := PpeWeightRemap W0 in
  let _W1 := PpeWeightRemap W1 in
  let _W2 := PpeWeightRemap W2 in
  let _W3 := PpeWeightRemap W3 in
  if (_W0 =? -1) || (_W1 =? -1) || (_W2 =? -1) || (_W3 =? -1) then (HWNAT_FAIL, p)
  else
    (HWNAT_SUCCESS,
     modify_all p
       [(FE_GDMA1_SCH_CFG, _W0, 0, 3); (FE_GDMA1_SCH_CFG, _W1, 4, 3);
        (FE_GDMA1_SCH_CFG, _W2, 8, 3); (FE_GDMA1_SCH_CFG, _W3, 12, 3);
        (FE_GDMA2_SCH_CFG, _W0, 0, 3); (FE_GDMA2_SCH_CFG, _W1, 4, 3);
        (FE_GDMA2_SCH_CFG, _W2, 8, 3); (FE_GDMA2_SCH_CFG, _W3, 12, 3)]).

Definition PpeSetBindThreshold (p : ppe) (threshold : Z) : Z * ppe :=
  (HWNAT_SUCCESS, RegWrite p PPE_FOE_BNDR threshold).
Definition PpeSetMaxEntryLimit (p : ppe) (full half qurt : Z) : Z * ppe :=
  (HWNAT_SUCCESS,
   modify_all p [(PPE_FOE_LMT1, qurt, 0, 14); (PPE_FOE_LMT1, half, 16, 14); (PPE_FOE_LMT2, full, 0, 14)]).
Definition PpeSetKaInterval (p : ppe) (tcp_ka udp_ka : Z) : Z * ppe :=
  (HWNAT_SUCCESS, modify_all p [(PPE_FOE_KA, tcp_ka, 16, 8); (PPE_FOE_KA, udp_ka, 24, 8)]).
Definition PpeSetUnbindLifeTime (p : ppe) (lifetime : Z) : Z * ppe :=
  (HWNAT_SUCCESS, RegModifyBits p PPE_FOE_UNB_AGE lifetime 0 8).
Definition PpeSetBindLifetime (p : ppe) (tcp_life udp_life fin_life : Z) : Z * ppe :=
  (HWNAT_SUCCESS,
   modify_all p [(PPE_FOE_BND_AGE0, udp_life, 0, 16); (PPE_FOE_BND_AGE1, fin_life, 16, 16);
                 (PPE_FOE_BND_AGE1, tcp_life, 0, 16)]).

(** * [PpeEngStart] *)

Definition FoeTblSize_4K : Z := 2.
Definition FWD_CPU_BUILD_ENTRY : Z := 3.
Definition DFL_FOE_HASH_MODE : Z := 1.
Definition DFL_FOE_BNDR : Z := 30.
Definition DFL_FOE_QURT_LMT : Z := 100.
Definition DFL_FOE_HALF_LMT : Z := 50.
Definition DFL_FOE_FULL_LMT : Z := 25.
Definition DFL_FOE_KA_T : Z := 1.
Definition DFL_FOE_TCP_KA : Z := 1.
Definition DFL_FOE_UDP_KA : Z := 1.
Definition DFL_FOE_UNB_AGE : Z := 1.
Definition DFL_FOE_TCP_AGE : Z := 1.
Definition DFL_FOE_UDP_AGE : Z := 1.
Definition DFL_FOE_FIN_AGE : Z := 1.
Definition DFL_FOE_KA_EN : Z := 1.
Definition DFL_FOE_UNB_MNP : Z := 1000.
Definition DFL_FOE_UNB_DLTA : Z := 3.
Definition DFL_FOE_UDP_DLTA : Z := 5.
Definition DFL_FOE_FIN_DLTA : Z := 5.
Definition DFL_FOE_TCP_DLTA : Z := 5.
Definition DFL_TTL0_DRP : Z := 1.
Definition DFL_VPRI_EN : Z := 1.
Definition DFL_DPRI_EN : Z := 1.
Definition DFL_REG_DSCP : Z := 0.
Definition DFL_REG_VPRI : Z := 0.
Definition DFL_ACL_PRI_EN : Z := 1.
Definition DFL_RED_MODE : Z := 1.
Definition DFL_UP_RES : Z := Z.shiftl 7 DUP_WT_OFFSET.

(** Disabling leaves the bits of the flow engine and of IPv6 set. *)
Definition PpeSetFoeEbl (p : ppe) (FoeEbl : bool) : ppe :=
  let PpeFlowSet := RegRead p PPE_FLOW_SET in
  let PpeFlowSet :=
    if FoeEbl then
      let v := Z.lor PpeFlowSet (Z.lor BIT_IPV4_NAPT_EN BIT_IPV4_NAT_EN) in
      let v := Z.lor v (Z.lor (Z.lor BIT_FUC_FOE BIT_FMC_FOE) BIT_FBC_FOE) in
      Z.lor v BIT_IPV6_FOE_EN
    else
      Z.land PpeFlowSet (Z.lnot (Z.lor BIT_IPV4_NAPT_EN BIT_IPV4_NAT_EN)) in
  RegWrite p PPE_FLOW_SET PpeFlowSet.

(** [base]: the bus address that [dma_alloc_coherent] gives for the table. *)
Definition PpeSetFoeHashMode (p : ppe) (base HashMode : Z) : ppe :=
  let p := RegWrite p PPE_FOE_BASE base in
  modify_all p [(PPE_FOE_CFG, FoeTblSize_4K, 0, 3); (PPE_FOE_CFG, HashMode, 3, 1);
                (PPE_FOE_CFG, FWD_CPU_BUILD_ENTRY, 4, 2)].

Definition PpeSetAgeOut (p : ppe) : ppe :=
  modify_all p
    [(PPE_FOE_CFG, DFL_FOE_UNB_AGE, 8, 1); (PPE_FOE_UNB_AGE, DFL_FOE_UNB_MNP, 16, 16);
     (PPE_FOE_UNB_AGE, DFL_FOE_UNB_DLTA, 0, 8); (PPE_FOE_CFG, DFL_FOE_TCP_AGE, 9, 1);
     (PPE_FOE_CFG, DFL_FOE_UDP_AGE, 10, 1); (PPE_FOE_CFG, DFL_FOE_FIN_AGE, 11, 1);
     (PPE_FOE_BND_AGE0, DFL_FOE_UDP_DLTA, 0, 16); (PPE_FOE_BND_AGE1, DFL_FOE_FIN_DLTA, 16, 16);
     (PPE_FOE_BND_AGE1, DFL_FOE_TCP_DLTA, 0, 16)].

Definition PpeSetFoeKa (p : ppe) : ppe :=
  modify_all p
    [(PPE_FOE_CFG, DFL_FOE_KA, 12, 1); (PPE_FOE_CFG, DFL_FOE_KA_EN, 13, 1);
     (PPE_FOE_KA, DFL_FOE_KA_T, 0, 16); (PPE_FOE_KA, DFL_FOE_TCP_KA, 16, 8);
     (PPE_FOE_KA, DFL_FOE_UDP_KA, 24, 8)].

Definition PpeSetFoeBindRate (p : ppe) (FoeBindRate : Z) : ppe :=
  let p := modify_all p [(PPE_FOE_LMT1, DFL_FOE_QURT_LMT, 0, 14); (PPE_FOE_LMT1, DFL_FOE_HALF_LMT, 16, 14);
                         (PPE_FOE_LMT2, DFL_FOE_FULL_LMT, 0, 14)] in
  RegWrite p PPE_FOE_BNDR FoeBindRate.

Definition PpeSetFoeGloCfgEbl (p : ppe) (Ebl : bool) : ppe :=
  if Ebl then
    modify_all p
      [(PPE_GLO_CFG, 1, 0, 1); (PPE_GLO_CFG, DFL_TTL0_DRP, 4, 1); (PPE_GLO_CFG, DFL_VPRI_EN, 8, 1);
       (PPE_GLO_CFG, DFL_DPRI_EN, 9, 1); (PPE_GLO_CFG, DFL_REG_VPRI, 10, 1);
       (PPE_GLO_CFG, DFL_REG_DSCP, 11, 1); (PPE_GLO_CFG, DFL_RED_MODE, 12, 2);
       (PPE_GLO_CFG, DFL_ACL_PRI_EN, 14, 1); (PPE_GLO_CFG, DFL_TTL0_DRP, 4, 1)]
  else RegModifyBits p PPE_GLO_CFG 0 0 1.

(** The values of [frame_engine.h] for the priorities 0 to 7. *)
Definition PpeSetUserPriority (p : ppe) : ppe :=
  let p := write_all p
    [(UP_RES, DFL_UP_RES); (DSCP0_7_MAP_UP, 0x00000000); (DSCP24_31_MAP_UP, 0x33333333);
     (DSCP8_15_MAP_UP, 0x11111111); (DSCP16_23_MAP_UP, 0x22222222); (DSCP32_39_MAP_UP, 0x44444444);
     (DSCP40_47_MAP_UP, 0x55555555); (DSCP48_55_MAP_UP, 0x66666666); (DSCP56_63_MAP_UP, 0x77777777)] in
  modify_all p
    [(UP_MAP_VPRI, 0, 0, 3); (UP_MAP_VPRI, 1, 4, 3); (UP_MAP_VPRI, 2, 8, 3); (UP_MAP_VPRI, 3, 12, 3);
     (UP_MAP_VPRI, 4, 16, 3); (UP_MAP_VPRI, 5, 20, 3); (UP_MAP_VPRI, 6, 24, 3); (UP_MAP_VPRI, 7, 28, 3);
     (UP0_3_MAP_IDSCP, 0x00, 0, 6); (UP0_3_MAP_IDSCP, 0x08, 8, 6); (UP0_3_MAP_IDSCP, 0x10, 16, 6);
     (UP0_3_MAP_IDSCP, 0x18, 24, 6); (UP4_7_MAP_IDSCP, 0x20, 0, 6); (UP4_7_MAP_IDSCP, 0x28, 8, 6);
     (UP4_7_MAP_IDSCP, 0x30, 16, 6); (UP4_7_MAP_IDSCP, 0x38, 24, 6);
     (UP0_3_MAP_ODSCP, 0x00, 0, 6); (UP0_3_MAP_ODSCP, 0x00, 8, 6); (UP0_3_MAP_ODSCP, 0x08, 16, 6);
     (UP0_3_MAP_ODSCP, 0x10, 24, 6); (UP4_7_MAP_ODSCP, 0x18, 0, 6); (UP4_7_MAP_ODSCP, 0x20, 8, 6);
     (UP4_7_MAP_ODSCP, 0x28, 16, 6); (UP4_7_MAP_ODSCP, 0x30, 24, 6);
     (UP_MAP_AC, 0, 0, 2); (UP_MAP_AC, 0, 2, 2); (UP_MAP_AC, 0, 4, 2); (UP_MAP_AC, 0, 6, 2);
     (UP_MAP_AC, 1, 8, 2); (UP_MAP_AC, 1, 10, 2); (UP_MAP_AC, 2, 12, 2); (UP_MAP_AC, 2, 14, 2)].

Definition PpeEngStart (p : ppe) (base : Z) : ppe :=
  let p := PpeSetFoeEbl p true in
  let p := PpeSetFoeHashMode p base DFL_FOE_HASH_MODE in
  let p := policy_start p in
  let p := PpeSetAgeOut p in
  let p := PpeSetFoeKa p in
  let p := PpeSetFoeBindRate p DFL_FOE_BNDR in
  let p := PpeSetFoeGloCfgEbl p true in
  PpeSetUserPriority p.

Definition PpeEngStop (p : ppe) : ppe :=
  let p := PpeSetFoeGloCfgEbl p false in
  let p := PpeSetFoeEbl p false in
  let p := policy_start p in
  RegWrite p PPE_FOE_BASE 0.

(** The accounting rule of a VLAN, written to the entry [index] of the memory,
    which belongs to the access control table. *)
Definition PpeSetAGInfo (p : ppe) (index vlan_id : Z) : ppe :=
  let r := {| com := {| com_end := EeAc 1 index; match_ := 1; pn := PN_DONT_CARE; rt := L2_RULE;
                        dir := OTHERS |};
              body := L2Others 1 0 0 0 vlan_id 0 0 |} in
  let p := RegWrite p (POLICY_TBL_BASE + index * 8) (rule_word0 r) in
  RegWrite p (POLICY_TBL_BASE + index * 8 + 4) (rule_word1 r).

(** [SetGdmaFwd]: the four kinds of frames go to the packet engine, or to the CPU. *)
Definition FE_GDMA1_FWD_CFG : Z := RALINK_FRAME_ENGINE_BASE + 0x20.
Definition GDM1_UFRC_P_PPE : Z := Z.shiftl 6 12.
Definition GDM1_BFRC_P_PPE : Z := Z.shiftl 6 8.
Definition GDM1_MFRC_P_PPE : Z := Z.shiftl 6 4.
Definition GDM1_OFRC_P_PPE : Z := Z.shiftl 6 0.

Definition SetGdmaFwd (p : ppe) (Ebl : bool) : ppe :=
  let kinds := [GDM1_UFRC_P_PPE; GDM1_BFRC_P_PPE; GDM1_MFRC_P_PPE; GDM1_OFRC_P_PPE] in
  let data := RegRead p FE_GDMA1_FWD_CFG in
  let data := if Ebl then foldl Z.lor data kinds
              else foldl (λ d k, Z.land d (Z.lnot k)) data kinds in
  RegWrite p FE_GDMA1_FWD_CFG data.
