(* ===== verification/HwNat.v ===== *)
(** The driver as a whole: the state that its devices and its packet hooks share,
    the ioctl [hwnat0] ([hwnat_ioctl.c]), and loading and unloading the module
    ([ra_nat.c]). *)

From S2P Require Import Prelude PpeRegs Policy PolicyEngine PpeConfig Foe PacketTx KeepAlive.

(** * Requests to [hwnat0] *)

Definition HW_NAT_DUMP_ENTRY : Z := 0x03.
Definition HW_NAT_GET_ALL_ENTRIES : Z := 0x04.
Definition HW_NAT_BIND_ENTRY : Z := 0x05.
Definition HW_NAT_UNBIND_ENTRY : Z := 0x06.
Definition HW_NAT_INVALID_ENTRY : Z := 0x07.
Definition HW_NAT_DEBUG : Z := 0x08.
Definition HW_NAT_DSCP_REMARK : Z := 0x09.
Definition HW_NAT_VPRI_REMARK : Z := 0x0a.
Definition HW_NAT_FOE_WEIGHT : Z := 0x0b.
Definition HW_NAT_ACL_WEIGHT : Z := 0x0c.
Definition HW_NAT_DSCP_WEIGHT : Z := 0x0d.
Definition HW_NAT_VPRI_WEIGHT : Z := 0x0e.
Definition HW_NAT_DSCP_UP : Z := 0x0f.
Definition HW_NAT_UP_IDSCP : Z := 0x10.
Definition HW_NAT_UP_ODSCP : Z := 0x11.
Definition HW_NAT_UP_VPRI : Z := 0x12.
Definition HW_NAT_UP_AC : Z := 0x13.
Definition HW_NAT_SCH_MODE : Z := 0x14.
Definition HW_NAT_SCH_WEIGHT : Z := 0x15.
Definition HW_NAT_BIND_THRESHOLD : Z := 0x16.
Definition HW_NAT_MAX_ENTRY_LMT : Z := 0x17.
Definition HW_NAT_RULE_SIZE : Z := 0x18.
Definition HW_NAT_KA_INTERVAL : Z := 0x19.
Definition HW_NAT_UB_LIFETIME : Z := 0x1A.
Definition HW_NAT_BIND_LIFETIME : Z := 0x1B.
Definition HW_NAT_BIND_DIRECTION : Z := 0x1C.
Definition HW_NAT_VLAN_ID : Z := 0x1D.

(** The members that the handler reads; the widths are those of the bit fields. *)
Record hwnat_args := {
  debug : Z;
  entry_state : Z;
  entry_num : Z;
  entries : list hwnat_tuple
}.
Record hwnat_qos_args := {
  enable : Z;
  up : Z;
  weight : Z;
  dscp : Z;
  dscp_set : Z;
  vpri : Z;
  qos_ac : Z;
  mode : Z;
  weight0 : Z;
  weight1 : Z;
  weight2 : Z;
  weight3 : Z
}.
Record hwnat_config_args := {
  bind_threshold : Z;
  foe_full_lmt : Z;
  foe_half_lmt : Z;
  foe_qut_lmt : Z;
  pre_acl : Z;
  pre_meter : Z;
  pre_ac : Z;
  post_meter : Z;
  post_ac : Z;
  foe_tcp_ka : Z;
  foe_udp_ka : Z;
  foe_unb_dlta : Z;
  foe_tcp_dlta : Z;
  foe_udp_dlta : Z;
  foe_fin_dlta : Z;
  cfg_wan_vid : Z;
  cfg_lan_vid : Z;
  cfg_bind_dir : Z
}.

(** The argument of the ioctl, as each of the three structures it may be. *)
Record hwnat_arg := { opt : hwnat_args; opt3 : hwnat_qos_args; opt4 : hwnat_config_args }.

(** What is written back: [result], if it is, and for a listing the tuples and
    [num_of_entries]. *)
Record hwnat_reply := { result : option Z; rep_entries : list hwnat_tuple; num_of_entries : option Z }.

(** * State *)

(** The globals of the driver: the registers and rule lists, the table, and those
    of [hwnat_ioctl.c], where the VLAN identifiers are bytes. *)
Record hwnat := {
  hn_engine : engine;
  PpeFoeBase : list FoeEntry;
  hn_ports : list (option net_device);
  bind_dir : Z;
  lan_vid : Z;
  wan_vid : Z;
  hn_debug : Z
}.
#[export] Instance hwnat_eta : Eta hwnat := λ r,
  {| hn_engine := hn_engine r; PpeFoeBase := PpeFoeBase r; hn_ports := hn_ports r;
     bind_dir := bind_dir r; lan_vid := lan_vid r; wan_vid := wan_vid r; hn_debug := hn_debug r |}.

Definition hn_ppe (s : hwnat) : ppe := e_ppe (hn_engine s).
Definition set_ppe (s : hwnat) (p : ppe) : hwnat :=
  let e := hn_engine s in
  s ⦃ hn_engine := {| e_ppe := p; e_acl := e_acl e; e_ac := e_ac e; e_ac_free := e_ac_free e;
                      e_mtr := e_mtr e; e_mtr_free := e_mtr_free e |} ⦄.

(** What the 16-bit reads of [lan_vid] and [wan_vid] in [ra_nat.c] give depends on
    what the linker puts behind each byte: a parameter. *)
Class VidLayout := read_vids : hwnat → Z * Z.

Definition conf_of `{VidLayout} (s : hwnat) : nat_conf :=
  {| DstPort := hn_ports s; nc_bind_dir := bind_dir s; nc_lan_vid := (read_vids s).1;
     nc_wan_vid := (read_vids s).2; DebugLevel := hn_debug s |}.

(** * [HwNatIoctl] *)

Definition reply (r : Z) : hwnat_reply :=
  {| result := Some r; rep_entries := []; num_of_entries := None |}.
Definition no_reply : hwnat_reply := {| result := None; rep_entries := []; num_of_entries := None |}.

(** The commands that only set registers. *)
Definition ioctl_config (p : ppe) (cmd : Z) (opt3 : hwnat_qos_args) (opt4 : hwnat_config_args) :
    option (Z * ppe) :=
  if cmd =? HW_NAT_DSCP_REMARK then Some (PpeSetDscpRemarkEbl p (enable opt3))
  else if cmd =? HW_NAT_VPRI_REMARK then Some (PpeSetVpriRemarkEbl p (enable opt3))
  else if cmd =? HW_NAT_FOE_WEIGHT then Some (PpeSetWeightFOE p (weight opt3))
  else if cmd =? HW_NAT_ACL_WEIGHT then Some (PpeSetWeightACL p (weight opt3))
  else if cmd =? HW_NAT_DSCP_WEIGHT then Some (PpeSetWeightDSCP p (weight opt3))
  else if cmd =? HW_NAT_VPRI_WEIGHT then Some (PpeSetWeightVPRI p (weight opt3))
  else if cmd =? HW_NAT_DSCP_UP then Some (PpeSetDSCP_UP p (dscp_set opt3) (up opt3))
  else if cmd =? HW_NAT_UP_IDSCP then Some (PpeSetUP_IDSCP p (up opt3) (dscp opt3))
  else if cmd =? HW_NAT_UP_ODSCP then Some (PpeSetUP_ODSCP p (up opt3) (dscp opt3))
  else if cmd =? HW_NAT_UP_VPRI then Some (PpeSetUP_VPRI p (up opt3) (vpri opt3))
  else if cmd =? HW_NAT_UP_AC then Some (PpeSetUP_AC p (up opt3) (qos_ac opt3))
  else if cmd =? HW_NAT_SCH_MODE then Some (PpeSetSchMode p (mode opt3))
  else if cmd =? HW_NAT_SCH_WEIGHT then
    Some (PpeSetSchWeight p (weight0 opt3) (weight1 opt3) (weight2 opt3) (weight3 opt3))
  else if cmd =? HW_NAT_RULE_SIZE then
    Some (HWNAT_SUCCESS,
          PpeSetRuleSize p (pre_acl opt4) (pre_meter opt4) (pre_ac opt4) (post_meter opt4) (post_ac opt4))
  else if cmd =? HW_NAT_BIND_THRESHOLD then Some (PpeSetBindThreshold p (bind_threshold opt4))
  else if cmd =? HW_NAT_MAX_ENTRY_LMT then
    Some (PpeSetMaxEntryLimit p (foe_full_lmt opt4) (foe_half_lmt opt4) (foe_qut_lmt opt4))
  else if cmd =? HW_NAT_KA_INTERVAL then Some (PpeSetKaInterval p (foe_tcp_ka opt4) (foe_udp_ka opt4))
  else if cmd =? HW_NAT_UB_LIFETIME then Some (PpeSetUnbindLifeTime p (foe_unb_dlta opt4))
  else if cmd =? HW_NAT_BIND_LIFETIME then
    Some (PpeSetBindLifetime p (foe_tcp_dlta opt4) (foe_udp_dlta opt4) (foe_fin_dlta opt4))
  else None.

Definition HwNatIoctl (s : hwnat) (cmd : Z) (arg : hwnat_arg) : outcome (hwnat_reply * hwnat) :=
  let p := hn_ppe s in
  let tbl := PpeFoeBase s in
  let num := entry_num (opt arg) in
  if cmd =? HW_NAT_GET_ALL_ENTRIES then
    let* (r, l, n) := FoeGetAllEntries tbl (entry_state (opt arg)) (entries (opt arg)) in
    Ret ({| result := Some r; rep_entries := l; num_of_entries := Some n |}, s)
  else if cmd =? HW_NAT_BIND_ENTRY then
    let* (r, tbl) := FoeBindEntry p tbl num in Ret (reply r, s ⦃ PpeFoeBase := tbl ⦄)
  else if cmd =? HW_NAT_UNBIND_ENTRY then
    let* (r, tbl) := FoeUnBindEntry p tbl num in Ret (reply r, s ⦃ PpeFoeBase := tbl ⦄)
  else if cmd =? HW_NAT_INVALID_ENTRY then
    let* (r, tbl) := FoeDelEntryByNum tbl num in Ret (reply r, s ⦃ PpeFoeBase := tbl ⦄)
  else if cmd =? HW_NAT_DUMP_ENTRY then let* _ := FoeDumpEntry tbl num in Ret (no_reply, s)
  else if cmd =? HW_NAT_DEBUG then Ret (no_reply, s ⦃ hn_debug := debug (opt arg) ⦄)
  else if cmd =? HW_NAT_BIND_DIRECTION then Ret (no_reply, s ⦃ bind_dir := cfg_bind_dir (opt4 arg) ⦄)
  else if cmd =? HW_NAT_VLAN_ID then
    Ret (no_reply, s ⦃ wan_vid := u8 (cfg_wan_vid (opt4 arg)) ⦄ ⦃ lan_vid := u8 (cfg_lan_vid (opt4 arg)) ⦄)
  else
    match ioctl_config p cmd (opt3 arg) (opt4 arg) with
    | Some (r, p) => Ret (reply r, set_ppe s p)
    | None => Ret (no_reply, s)
    end.

(** * Loading and unloading *)

(** [PpeSetDstPort (1)]; the kernel's devices are a parameter.  "ra0", "eth2" and
    "eth0". *)
Definition DP_RA0 : nat := 11.
Definition DP_GMAC : nat := 60.

Definition PpeSetDstPort (dev_get_by_name : bytes → option net_device) : list (option net_device) :=
  <[DP_PCI := dev_get_by_name [101; 116; 104; 48]]>
    (<[DP_GMAC := dev_get_by_name [101; 116; 104; 50]]>
      (<[DP_RA0 := dev_get_by_name [114; 97; 48]]> (replicate MAX_IF_NUM None))).

(** [p] is what the registers hold before; [base] is the bus address of the new
    table, which is cleared.  The rest are the initial values of the globals. *)
Definition PpeInitMod (p : ppe) (base : Z) (dev_get_by_name : bytes → option net_device)
    (pre_acl pre_mtr pre_ac post_mtr post_ac : Z) : hwnat :=
  let p := PpeSetRuleSize p pre_acl pre_mtr pre_ac post_mtr post_ac in
  let p := PpeSetAGInfo p 1 1 in
  let p := PpeSetAGInfo p 2 2 in
  let p := PpeEngStart p base in
  let p := SetGdmaFwd p true in
  {| hn_engine := {| e_ppe := p; e_acl := []; e_ac := []; e_ac_free := replicate 8 0; e_mtr := [];
                     e_mtr_free := replicate 8 0 |};
     PpeFoeBase := replicate (Z.to_nat FOE_4TB_SIZ) zero_entry;
     hn_ports := PpeSetDstPort dev_get_by_name;
     bind_dir := BIDIRECTION; lan_vid := 1; wan_vid := 2; hn_debug := 1 |}.

(** The registers after [PpeCleanupMod]. *)
Definition PpeCleanupMod (s : hwnat) : ppe := PpeEngStop (SetGdmaFwd (hn_ppe s) false).

(** * Steps *)

(** What can happen while the module is loaded: a call of one of the four devices,
    a packet to or from a hook, and what the packet engine does on its own, to an
    entry of the table and to the clock. *)
Inductive hw_event :=
| HwPolicy (r : policy_request)
| HwIoctl (cmd : Z) (arg : hwnat_arg)
| HwTx (skb : sk_buff)
| HwRx (skb : sk_buff)
| HwEntry (n : nat) (entry : FoeEntry)
| HwClock (v : Z).

Section Step.
Context `{Malloc} `{VidLayout}.

Definition hwnat_step (s : hwnat) (ev : hw_event) : outcome hwnat :=
  match ev with
  | HwPolicy r => let* e := engine_step (hn_engine s) r in Ret (s ⦃ hn_engine := e ⦄)
  | HwIoctl cmd arg => let* (_, s) := HwNatIoctl s cmd arg in Ret s
  | HwTx skb =>
      let* (_, _, tbl) := PpeTxHandler (hn_ppe s) (conf_of s) (PpeFoeBase s) skb in
      Ret (s ⦃ PpeFoeBase := tbl ⦄)
  | HwRx skb => let* _ := PpeRxHandler (conf_of s) (PpeFoeBase s) skb in Ret s
  | HwEntry n entry => Ret (s ⦃ PpeFoeBase := <[n := entry]> (PpeFoeBase s) ⦄)
  | HwClock v => Ret (set_ppe s (RegWrite (hn_ppe s) FOE_TS v))
  end.

Inductive hwnat_run (P : hwnat → Prop) : hwnat → list hw_event → hwnat → Prop :=
| hrun_nil s : hwnat_run P s [] s
| hrun_cons s ev s1 evs s2 :
    hwnat_step s ev = Ret s1 → P s1 → hwnat_run P s1 evs s2 → hwnat_run P s (ev :: evs) s2.
End Step.
