(* ===== verification/HwNatFacts.v ===== *)
(** The driver as a whole, facts: the settings and the packet hooks leave the
    policy tables alone, and the steps that touch the table of flows. *)

From S2P Require Import Prelude PpeRegs Policy PolicyFacts PolicyEngine PolicyRefine PolicyGroups PolicySteps PolicyInv PolicyBounds PpeConfig Foe PacketTx KeepAlive PacketSpec HwNat.

(** * Writes of configuration registers *)

(** A register of the engine that is no pointer, not in the policy memory and does
    not enable the tables. *)
Definition config_reg (a : Z) : bool :=
  (0xB0100000 <=? a) && (a <? 0xB0101000) &&
  forallb (λ r, negb (a =? r)) (PPE_FLOW_SET :: (ptr_reg <$> [PRE_ACL; PRE_MTR; PRE_AC; POST_MTR; POST_AC])).

Lemma config_reg_plain a : config_reg a = true → plain_reg a ∧ a ≠ PPE_FLOW_SET.
Proof.
  intros H. assert (0xB0100000 ≤ a < 0xB0101000) by (unfold config_reg in H; lia).
  assert (∀ b, config_reg b = false → a ≠ b) as Hne by (intros b Hb ->; congruence).
  split; [split_and!|by apply Hne]; [addr..| |addr].
  intros []; by apply Hne.
Qed.

Inductive config_writes : ppe → ppe → Prop :=
| cw_refl p : config_writes p p
| cw_write p a v q : config_reg a = true → config_writes (RegWrite p a v) q → config_writes p q.

Lemma cw_trans p q r : config_writes p q → config_writes q r → config_writes p r.
Proof. induction 1; eauto using config_writes. Qed.

Lemma cw_one p a v : config_reg a = true → config_writes p (RegWrite p a v).
Proof. eauto using config_writes. Qed.

Lemma cw_modify p a d o n : config_reg a = true → config_writes p (RegModifyBits p a d o n).
Proof. apply cw_one. Qed.

Lemma cw_modify_all p l : forallb (λ x, config_reg x.1.1.1) l = true → config_writes p (modify_all p l).
Proof.
  revert p. induction l as [|[[[a d] o] n] l IH]; intros p; cbn; [constructor|].
  intros [Ha Hl]%andb_true_iff. eapply cw_trans; [by apply cw_modify|by apply IH].
Qed.

Lemma cw_write_all p l : forallb (λ x, config_reg x.1) l = true → config_writes p (write_all p l).
Proof.
  revert p. induction l as [|[a v] l IH]; intros p; cbn; [constructor|].
  intros [Ha Hl]%andb_true_iff. eapply cw_trans; [by apply cw_one|by apply IH].
Qed.

Create HintDb config.
#[export] Hint Extern 1 (config_writes _ (modify_all _ _)) => apply cw_modify_all; reflexivity : config.
#[export] Hint Extern 1 (config_writes _ (write_all _ _)) => apply cw_write_all; reflexivity : config.
#[export] Hint Extern 1 (config_writes _ (RegModifyBits _ _ _ _ _)) => apply cw_modify; reflexivity : config.
#[export] Hint Extern 1 (config_writes _ (RegWrite _ _ _)) => apply cw_one; reflexivity : config.
#[export] Hint Resolve cw_refl : config.

(** Every setting but the one of the sizes: a write per branch. *)
Ltac settings := repeat case_match; cbn -[modify_all write_all RegModifyBits RegWrite]; eauto with config.

Lemma cw_UP_IDSCP p UP v : config_writes p (PpeSetUP_IDSCP p UP v).2.
Proof. unfold PpeSetUP_IDSCP, set_up_dscp. settings. Qed.
Lemma cw_UP_ODSCP p UP v : config_writes p (PpeSetUP_ODSCP p UP v).2.
Proof. unfold PpeSetUP_ODSCP, set_up_dscp. settings. Qed.
Lemma cw_DSCP_UP p s UP : config_writes p (PpeSetDSCP_UP p s UP).2.
Proof. unfold PpeSetDSCP_UP. settings. Qed.
Lemma cw_UP_VPRI p UP v : config_writes p (PpeSetUP_VPRI p UP v).2.
Proof. unfold PpeSetUP_VPRI. settings. Qed.
Lemma cw_UP_AC p UP v : config_writes p (PpeSetUP_AC p UP v).2.
Proof. unfold PpeSetUP_AC. settings. Qed.
Lemma cw_SchWeight p a b c d : config_writes p (PpeSetSchWeight p a b c d).2.
Proof. unfold PpeSetSchWeight. cbv zeta. case_match; cbn -[modify_all]; eauto with config. Qed.
#[export] Hint Resolve cw_UP_IDSCP cw_UP_ODSCP cw_DSCP_UP cw_UP_VPRI cw_UP_AC cw_SchWeight : config.

Lemma ioctl_config_writes p cmd o3 o4 r q :
  cmd ≠ HW_NAT_RULE_SIZE → ioctl_config p cmd o3 o4 = Some (r, q) → config_writes p q.
Proof.
  intros Hc H.
  assert (Hs : ∀ x : Z * ppe, config_writes p x.2 → Some x = Some (r, q) → config_writes p q)
    by (intros [] Hx [= -> ->]; exact Hx).
  unfold ioctl_config in H.
  repeat (case_match; [first [by destruct Hc; apply Z.eqb_eq | refine (Hs _ _ H); solve
    [eauto with config | cbn -[modify_all RegModifyBits RegWrite]; eauto with config]]|]); done.
Qed.

(** * What the settings keep *)

Lemma config_start p q : config_writes p q → same_start p q.
Proof. induction 1 as [|p a v q _ _ IH]; intros t; [done|]. rewrite IH. by autorewrite with ppe. Qed.

Section Tracked.
Context {pre : ppe → contents → Prop} {Q : ppe → contents → enables → Prop} `{!Tracks pre Q}.

Lemma config_tracked p q f en :
  config_writes p q → layout_ok p → pre p f → Q p f en → Q q f en.
Proof using Tracks0.
  induction 1 as [|p a v q Ha _ IH]; intros Hl Hp HQ; [done|].
  apply config_reg_plain in Ha as [Hr Hf].
  assert (Hs : same_start p (RegWrite p a v)) by (intros t; by autorewrite with ppe).
  apply IH; [by eapply layout_start|by eapply pre_start|by apply tr_plain].
Qed.

(** The engine with other registers. *)
Definition with_ppe (e : engine) (p : ppe) : engine :=
  {| e_ppe := p; e_acl := e_acl e; e_ac := e_ac e; e_ac_free := e_ac_free e; e_mtr := e_mtr e;
     e_mtr_free := e_mtr_free e |}.

Lemma config_tracks e q : config_writes (e_ppe e) q → tracks pre Q e → tracks pre Q (with_ppe e q).
Proof using Tracks0.
  intros Hc (Hl & Hp & HQ). pose proof (config_start _ _ Hc) as Hs.
  split_and!; cbn; [by eapply layout_start|..].
  - eapply pre_ext; [|by eapply pre_start]. by intros [].
  - eapply tr_ext; [..|by eapply config_tracked]; by intros [].
Qed.
End Tracked.

Lemma config_run_inv e q : config_writes (e_ppe e) q → run_inv e → run_inv (with_ppe e q).
Proof.
  intros Hc [Hl Hp H508 Hb]. pose proof (config_start _ _ Hc) as Hs. split.
  - destruct Hl. by split.
  - by apply (config_tracks (pre := λ _ _, True)).
  - cbn [e_ppe with_ppe]. by rewrite Hs.
  - destruct Hb. split; cbn [e_ppe with_ppe e_acl e_ac e_mtr]; by rewrite ?Hs.
Qed.

(** * The start of the module *)

Lemma cw_AgeOut p : config_writes p (PpeSetAgeOut p).
Proof. unfold PpeSetAgeOut. eauto with config. Qed.
Lemma cw_FoeKa p : config_writes p (PpeSetFoeKa p).
Proof. unfold PpeSetFoeKa. eauto with config. Qed.
Lemma cw_FoeBindRate p v : config_writes p (PpeSetFoeBindRate p v).
Proof. eapply cw_trans; [apply cw_modify_all|apply cw_one]; reflexivity. Qed.
Lemma cw_FoeGloCfgEbl p b : config_writes p (PpeSetFoeGloCfgEbl p b).
Proof. unfold PpeSetFoeGloCfgEbl. destruct b; eauto with config. Qed.
Lemma cw_UserPriority p : config_writes p (PpeSetUserPriority p).
Proof. eapply cw_trans; [apply cw_write_all|apply cw_modify_all]; reflexivity. Qed.
Lemma cw_GdmaFwd p b : config_writes p (SetGdmaFwd p b).
Proof. unfold SetGdmaFwd. eauto with config. Qed.

(** Before the tables are emptied only their starts matter. *)
Lemma start_before p base t :
  table_start (PpeSetFoeHashMode (PpeSetFoeEbl (PpeSetAGInfo (PpeSetAGInfo p 1 1) 2 2) true) base
    DFL_FOE_HASH_MODE) t = table_start p t.
Proof.
  unfold PpeSetFoeHashMode, PpeSetFoeEbl, PpeSetAGInfo, modify_all. cbn [foldl].
  by autorewrite with ppe.
Qed.

Lemma start_after p :
  config_writes (policy_start p)
    (SetGdmaFwd (PpeSetUserPriority (PpeSetFoeGloCfgEbl (PpeSetFoeBindRate (PpeSetFoeKa
      (PpeSetAgeOut (policy_start p))) DFL_FOE_BNDR) true)) true).
Proof.
  eapply cw_trans; [|apply cw_GdmaFwd]. eapply cw_trans; [|apply cw_UserPriority].
  eapply cw_trans; [|apply cw_FoeGloCfgEbl]. eapply cw_trans; [|apply cw_FoeBindRate].
  eapply cw_trans; [apply cw_AgeOut|apply cw_FoeKa].
Qed.

Section Fresh.
Context (p q : ppe) (s1 s2 s3 s4 s5 : Z) (Hs : sizes_ok s1 s2 s3 s4 s5).
Context (Hq : same_start (PpeSetRuleSize p s1 s2 s3 s4 s5) q).

(** The lists are empty, and the tables have just been disabled. *)
Definition fresh : engine := with_ppe (engine_init p s1 s2 s3 s4 s5) (policy_start q).

Lemma fresh_ppe : e_ppe fresh = policy_start q.
Proof using Type. reflexivity. Qed.

Lemma fresh_tracks : tracks fit holds fresh.
Proof using Hs Hq.
  assert (Hl : layout_ok q) by (eapply layout_start; [exact Hq|by apply layout_init]).
  destruct (start_fit q (rules_of fresh) Hl) as [Hl' Hf]; [by intros []|].
  unfold tracks. rewrite fresh_ppe. split; [exact Hl'|split; [exact Hf|]].
  eapply tr_ext; [..|by apply holds_start]; by intros [].
Qed.

Lemma fresh_inv : run_inv fresh.
Proof using Hs Hq.
  assert (Hst : same_start (e_ppe (engine_init p s1 s2 s3 s4 s5)) (policy_start q)).
  { intros t. rewrite engine_init_ppe, !table_start_start. apply Hq. }
  destruct (run_inv_init p s1 s2 s3 s4 s5 Hs) as [[] _ H508 []], fresh_tracks as (Hl & _ & [Hc _]).
  split; [by split| |rewrite fresh_ppe; by rewrite Hst|].
  - split; [exact Hl|split; [exact I|]]. intros t. destruct (Hc t) as [H1 H2 _]. split; [done|]. rewrite H2.
    symmetry. apply Z.mod_small. pose proof (layout_start_range _ t Hl). replace (rules_of fresh t) with (@nil rule) by (by destruct t).
    cbn [length]. lia.
  - split; rewrite ?fresh_ppe, ?Hst; done.
Qed.
End Fresh.

(** * Runs *)

Record hw_inv (s : hwnat) : Prop := {
  hi_run : run_inv (hn_engine s);
  hi_tracks : tracks fit holds (hn_engine s);
  hi_table : length (PpeFoeBase s) = Z.to_nat FOE_4TB_SIZ
}.

Lemma hw_inv_init p base dev s1 s2 s3 s4 s5 :
  sizes_ok s1 s2 s3 s4 s5 → hw_inv (PpeInitMod p base dev s1 s2 s3 s4 s5).
Proof.
  intros Hs. set (q := PpeSetFoeHashMode (PpeSetFoeEbl (PpeSetAGInfo (PpeSetAGInfo
    (PpeSetRuleSize p s1 s2 s3 s4 s5) 1 1) 2 2) true) base DFL_FOE_HASH_MODE).
  assert (Hq : same_start (PpeSetRuleSize p s1 s2 s3 s4 s5) q) by (intros t; apply start_before).
  pose proof (start_after q) as Hc. split.
  - apply (config_run_inv (fresh p q s1 s2 s3 s4 s5)); [exact Hc|by apply fresh_inv].
  - apply (config_tracks (fresh p q s1 s2 s3 s4 s5)); [exact Hc|by apply fresh_tracks].
  - apply length_replicate.
Qed.
