(* ===== verification/HwNatProps.v ===== *)
(** The driver as a whole: the policy tables stay right whatever else the driver
    does, and what can bind or release the entry of a flow. *)

From S2P Require Import Prelude PpeRegs Policy PolicyFacts Acl Accounting Metering PolicyEngine PolicyRefine PolicySteps PolicyInv PolicyBounds PolicyProps PpeConfig Foe PacketTx PacketSpec PacketTxProps KeepAlive HwNat HwNatFacts.

(** * The table of flows *)

Lemma foe_get_Ret tbl n e : foe_get tbl n = Ret e → tbl !! Z.to_nat n = Some e.
Proof. unfold foe_get. destruct (tbl !! _); [|done]. by intros [= ->]. Qed.

Lemma foe_put_lookup tbl n e m : m ≠ Z.to_nat n → foe_put tbl n e !! m = tbl !! m.
Proof. intros. unfold foe_put. by rewrite list_lookup_insert_ne. Qed.

(** The commands on one entry replace it, and nothing else. *)
Definition entry_command (cmd : Z) : bool :=
  (cmd =? HW_NAT_BIND_ENTRY) || (cmd =? HW_NAT_UNBIND_ENTRY) || (cmd =? HW_NAT_INVALID_ENTRY).

Inductive ioctl_change (s : hwnat) (cmd : Z) (arg : hwnat_arg) : hwnat → Prop :=
| ioctl_entry e :
    entry_command cmd = true →
    (get1 e bf_state = BIND → cmd = HW_NAT_BIND_ENTRY) →
    ioctl_change s cmd arg (s ⦃ PpeFoeBase := foe_put (PpeFoeBase s) (entry_num (opt arg)) e ⦄)
| ioctl_other s' :
    entry_command cmd = false → PpeFoeBase s' = PpeFoeBase s →
    (cmd ≠ HW_NAT_RULE_SIZE →
     ∃ q, config_writes (hn_ppe s) q ∧ hn_engine s' = with_ppe (hn_engine s) q) →
    ioctl_change s cmd arg s'.

Lemma with_own_ppe e : with_ppe e (e_ppe e) = e.
Proof. by destruct e. Qed.

Lemma HwNatIoctl_change s cmd arg r s' :
  HwNatIoctl s cmd arg = Ret (r, s') → ioctl_change s cmd arg s'.
Proof.
  intros H.
  assert (Hsame : entry_command cmd = false → ∀ s', PpeFoeBase s' = PpeFoeBase s →
    hn_engine s' = hn_engine s → ioctl_change s cmd arg s').
  { intros Hc t Ht He. apply ioctl_other; [done..|]. intros _. exists (hn_ppe s).
    split; [constructor|]. by rewrite He, with_own_ppe. }
  unfold HwNatIoctl, entry_command in *.
  destruct (Z.eqb_spec cmd HW_NAT_GET_ALL_ENTRIES) as [->|_].
  { apply outcome_bind_Ret in H as ([[? ?] ?] & _ & [= <- <-]). by apply Hsame. }
  destruct (Z.eqb_spec cmd HW_NAT_BIND_ENTRY) as [->|Hb].
  { apply outcome_bind_Ret in H as ([x tbl] & H & [= <- <-]).
    apply outcome_bind_Ret in H as (e & _ & [= <- <-]). by apply ioctl_entry. }
  destruct (Z.eqb_spec cmd HW_NAT_UNBIND_ENTRY) as [->|Hu].
  { apply outcome_bind_Ret in H as ([x tbl] & H & [= <- <-]).
    apply outcome_bind_Ret in H as (e & _ & [= <- <-]). apply ioctl_entry; [done|].
    by bitfields. }
  destruct (Z.eqb_spec cmd HW_NAT_INVALID_ENTRY) as [->|Hd].
  { apply outcome_bind_Ret in H as ([x tbl] & H & [= <- <-]).
    apply outcome_bind_Ret in H as (e & _ & [= <- <-]). by apply ioctl_entry. }
  cbn [orb] in Hsame. destruct (cmd =? HW_NAT_DUMP_ENTRY).
  { apply outcome_bind_Ret in H as (? & _ & [= <- <-]). by apply Hsame. }
  destruct (cmd =? HW_NAT_DEBUG); [injection H as <- <-; by apply Hsame|].
  destruct (cmd =? HW_NAT_BIND_DIRECTION); [injection H as <- <-; by apply Hsame|].
  destruct (cmd =? HW_NAT_VLAN_ID); [injection H as <- <-; by apply Hsame|].
  destruct (ioctl_config _ _ _ _) as [[x q]|] eqn:Hc; injection H as <- <-; [|by apply Hsame].
  apply ioctl_other; [unfold entry_command; lia|done|]. intros Hn. exists q.
  split; [by eapply ioctl_config_writes|done].
Qed.

(** * Runs *)

(** The sizes of the tables are not changed, and the protocol of a general access
    control rule is one of the three. *)
Definition event_ok (ev : hw_event) : Prop :=
  match ev with HwPolicy r => request_ok r | HwIoctl cmd _ => cmd ≠ HW_NAT_RULE_SIZE | _ => True end.

Section Runs.
Context `{Malloc} `{VidLayout}.

Lemma hw_inv_engine s s' q :
  hw_inv s → config_writes (hn_ppe s) q → hn_engine s' = with_ppe (hn_engine s) q →
  length (PpeFoeBase s') = length (PpeFoeBase s) → hw_inv s'.
Proof using Type.
  intros [H1 H2 H3] Hc He Hl. split; [rewrite He..|by rewrite Hl].
  - by apply config_run_inv.
  - by apply config_tracks.
Qed.

Lemma hw_inv_table s s' :
  hw_inv s → hn_engine s' = hn_engine s → length (PpeFoeBase s') = length (PpeFoeBase s) → hw_inv s'.
Proof using Type.
  intros Hi He Hl. eapply hw_inv_engine; [done|constructor| |done]. by rewrite He, with_own_ppe.
Qed.

Lemma tx_length p c tbl skb ret skb' tbl' :
  PpeTxHandler p c tbl skb = Ret (ret, skb', tbl') → length tbl' = length tbl.
Proof using Type.
  intros Hx. pose proof Hx as Hi. unfold PpeTxHandler in Hi. apply outcome_bind_Ret in Hi as (i & Hi & _).
  by destruct (tx_changes_own_entry _ _ _ _ _ _ _ _ Hi Hx) as (_ & _ & ? & _).
Qed.

Lemma hw_inv_step s ev s' :
  hw_inv s → event_ok ev → hwnat_step s ev = Ret s' → users_fit (hn_engine s') → hw_inv s'.
Proof using Type.
  intros Hi Hev Hs Hf. destruct ev as [r|cmd arg|skb|skb|n e|v]; cbn [hwnat_step] in Hs.
  - apply outcome_bind_Ret in Hs as (e & Hs & [= <-]). destruct Hi as [H1 H2 H3].
    assert (Hr : engine_run users_fit (hn_engine s) [r] e) by (eapply run_cons; [done..|constructor]).
    split; [|by eapply engine_run_tracks; eauto|done].
    by eapply run_inv_run; eauto.
  - apply outcome_bind_Ret in Hs as ([x t] & Hs & [= <-]). apply HwNatIoctl_change in Hs.
    destruct Hs as [e _ _|t _ Ht He].
    + apply (hw_inv_table s); [done..|]. apply length_insert.
    + destruct (He Hev) as (q & Hq & He'). eapply hw_inv_engine; [done..|]. by rewrite Ht.
  - apply outcome_bind_Ret in Hs as ([[x y] tbl] & Hs & [= <-]).
    apply (hw_inv_table s); [done..|]. by eapply tx_length.
  - apply outcome_bind_Ret in Hs as (? & _ & [= <-]). done.
  - injection Hs as <-. apply (hw_inv_table s); [done..|]. apply length_insert.
  - injection Hs as <-. eapply (hw_inv_engine s); [done|by apply (cw_one _ FOE_TS v)|done..].
Qed.

Lemma hw_inv_run s evs s' :
  hwnat_run (λ s, users_fit (hn_engine s)) s evs s' → Forall event_ok evs → hw_inv s → hw_inv s'.
Proof using Type.
  induction 1 as [|s ev s1 evs s2 Hs Hf _ IH]; intros Hev Hi; [done|].
  apply Forall_cons in Hev as [He Hev]. apply IH; [done|]. by eapply hw_inv_step.
Qed.
End Runs.

(** C7. The policy tables of the loaded module are right at all times.  From
    loading the module on, with any sequence of calls of the four devices, packets
    in and out, and changes the packet engine makes on its own: as long as the
    sizes of the tables are not changed and the access control rules and the
    meters before routing fit, the five tables hold exactly the entries of the
    rule lists and are enabled accordingly, although the settings write other
    fields of the same registers, and loading the module writes two rules behind
    their back; and the table of flows keeps its size. *)
Theorem hwnat_policy_tables_ok `{Malloc} `{VidLayout} p base dev s1 s2 s3 s4 s5 evs s :
  sizes_ok s1 s2 s3 s4 s5 → Forall event_ok evs →
  hwnat_run (λ s, users_fit (hn_engine s)) (PpeInitMod p base dev s1 s2 s3 s4 s5) evs s →
  engine_ok (hn_engine s) ∧ length (PpeFoeBase s) = 4096%nat.
Proof.
  intros Hs Hev Hr.
  destruct (hw_inv_run _ _ _ Hr Hev (hw_inv_init p base dev _ _ _ _ _ Hs)) as [_ (Hl & _ & Hc & He) Ht].
  split; [by split|exact Ht].
Qed.

Definition users_fitb (e : engine) : bool :=
  (Z.of_nat (length (rules_of e PRE_ACL)) <=? table_start (e_ppe e) PRE_MTR) &&
  (table_start (e_ppe e) PRE_MTR + Z.of_nat (length (rules_of e PRE_MTR)) <=? table_start (e_ppe e) PRE_AC).

Fixpoint hwnat_exec `{Malloc} `{VidLayout} (s : hwnat) (evs : list hw_event) : option hwnat :=
  match evs with
  | [] => Some s
  | ev :: evs =>
      match hwnat_step s ev with
      | Ret s' => if users_fitb (hn_engine s') then hwnat_exec s' evs else None
      | _ => None
      end
  end.

Lemma hwnat_exec_run `{Malloc} `{VidLayout} s evs s' :
  hwnat_exec s evs = Some s' → hwnat_run (λ s, users_fit (hn_engine s)) s evs s'.
Proof.
  revert s. induction evs as [|ev evs IH]; intros s; cbn [hwnat_exec]; [intros [= <-]; constructor|].
  destruct (hwnat_step s ev) as [s1| | ] eqn:E; [|done..]. destruct (users_fitb _) eqn:Hf; [|done].
  intros Hx. eapply hrun_cons; [done| |by apply IH]. unfold users_fitb in Hf. split; lia.
Qed.

#[local] Instance malloc_always : Malloc := λ _, true.
#[local] Instance vids_alone : VidLayout := λ s, (lan_vid s, wan_vid s).

Definition demo_arg : hwnat_arg :=
  {| opt := {| debug := 1; entry_state := BIND; entry_num := 7; entries := [] |};
     opt3 := {| enable := 1; up := 5; weight := 3; dscp := 0x2E; dscp_set := 2; vpri := 6; qos_ac := 3;
                mode := 1; weight0 := 8; weight1 := 4; weight2 := 2; weight3 := 1 |};
     opt4 := {| bind_threshold := 10; foe_full_lmt := 4096; foe_half_lmt := 2048; foe_qut_lmt := 1024;
                pre_acl := 1; pre_meter := 1; pre_ac := 1; post_meter := 1; post_ac := 1; foe_tcp_ka := 5;
                foe_udp_ka := 5; foe_unb_dlta := 3; foe_tcp_dlta := 300; foe_udp_dlta := 60;
                foe_fin_dlta := 5; cfg_wan_vid := 2; cfg_lan_vid := 1; cfg_bind_dir := 2 |} |}.

Definition demo_init : hwnat :=
  PpeInitMod {| regs := {[ CHIP_REV := 0x0105 ]}; pre_acl_start_addr := 9; pre_ac_start_addr := 9;
                post_ac_start_addr := 9; pre_mtr_start_addr := 9; post_mtr_start_addr := 9 |}
    0x1000000 (λ _, None) 12 4 4 4 4.

(** The requests of [sample_requests] between settings, and a flow that the engine
    has built and a packet binds. *)
Definition demo_events : list hw_event :=
  (HwPolicy <$> sample_requests) ++
  ((λ cmd, HwIoctl cmd demo_arg) <$> [0x09; 0x0a; 0x0f; 0x10; 0x13; 0x15; 0x17; 0x1B; 0x1C; 0x1D]) ++
  [HwEntry 5 (nth 5 demo_table zero_entry); HwClock 0x12345; HwTx demo_skb].

Lemma hwnat_policy_tables_ok_witness :
  let s := default demo_init (hwnat_exec demo_init demo_events) in
  engine_ok (hn_engine s) ∧
  ((λ t, length (rules_of (hn_engine s) t)) <$> [PRE_ACL; PRE_MTR; PRE_AC; POST_MTR; POST_AC] =
    [9; 1; 1; 1; 1]%nat) ∧
  ((λ e, get1 e bf_state) <$> PpeFoeBase s !! 5%nat) = Some BIND.
Proof.
  set (s := default demo_init (hwnat_exec demo_init demo_events)). cbn zeta.
  assert (Hs : hwnat_exec demo_init demo_events = Some s) by (vm_compute; reflexivity).
  split_and!.
  - refine (proj1 (hwnat_policy_tables_ok _ _ _ 12 4 4 4 4 demo_events s _ _ (hwnat_exec_run _ _ _ Hs))).
    + unfold sizes_ok; lia.
    + repeat (apply Forall_cons; split; [cbn; first [exact I|lia|intros [=]]|]). by apply Forall_nil.
  - vm_compute. reflexivity.
  - vm_compute. reflexivity.
Defined.

(** C12. What can bind or release a flow.  Whatever step the module makes, an entry
    becomes bound only by the command that binds it, by a packet on its way out
    that the engine marked for this entry - and then the flow it describes stays
    the same - or by the engine itself; and an entry that is bound stays as it is,
    to the last bit, but for the three commands on it and the engine. *)
Theorem hwnat_entry_changes `{Malloc} `{VidLayout} s ev s' n e e' :
  hwnat_step s ev = Ret s' → PpeFoeBase s !! n = Some e → PpeFoeBase s' !! n = Some e' →
  (get1 e bf_state ≠ BIND → get1 e' bf_state = BIND →
     (∃ arg, ev = HwIoctl HW_NAT_BIND_ENTRY arg ∧ Z.to_nat (entry_num (opt arg)) = n) ∨
     (∃ skb i, ev = HwTx skb ∧ foe_info_of skb = Ret i ∧ asks_to_bind i = true ∧
        Z.to_nat (FOE_ENTRY_NUM i) = n ∧ key e' = key e) ∨
     ev = HwEntry n e') ∧
  (get1 e bf_state = BIND →
     e' = e ∨
     (∃ cmd arg, ev = HwIoctl cmd arg ∧ entry_command cmd = true ∧ Z.to_nat (entry_num (opt arg)) = n) ∨
     ev = HwEntry n e').
Proof.
  intros Hs He He'.
  assert (Hid : PpeFoeBase s' = PpeFoeBase s → e' = e) by (intros Ht; congruence).
  destruct ev as [r|cmd arg|skb|skb|m x|v]; cbn [hwnat_step] in Hs.
  - apply outcome_bind_Ret in Hs as (? & _ & [= <-]). rewrite (Hid eq_refl). naive_solver.
  - apply outcome_bind_Ret in Hs as ([y t] & Hs & [= <-]). apply HwNatIoctl_change in Hs.
    destruct Hs as [x Hc Hb|t _ Ht _]; [|rewrite (Hid Ht); naive_solver].
    destruct (decide (n = Z.to_nat (entry_num (opt arg)))) as [->|Hn].
    + assert (e' = x) as ->.
      { cbn in He'. unfold foe_put in He'. rewrite list_lookup_insert_eq in He' by by eapply lookup_lt_Some.
        congruence. }
      split; [|eauto 10]. intros _ Hx. left. exists arg. by rewrite (Hb Hx).
    + cbn in He'. rewrite foe_put_lookup in He' by done. assert (e' = e) as -> by congruence. naive_solver.
  - apply outcome_bind_Ret in Hs as ([[x y] tbl] & Hs & [= <-]). cbn in He'.
    pose proof Hs as Hi. unfold PpeTxHandler in Hi. apply outcome_bind_Ret in Hi as (i & Hi & _).
    destruct (tx_changes_own_entry _ _ _ _ _ _ _ _ Hi Hs) as (Hn & Ho & _).
    destruct (Ho n e He) as (e1 & He1 & Hk & Hb & Ha). assert (e1 = e') as -> by congruence.
    split; [|auto]. intros Hu Hx. right; left. exists skb, i. split_and!; [done..|by apply Ha| |done].
    destruct (decide (n = Z.to_nat (FOE_ENTRY_NUM i))) as [|Hne]; [done|].
    rewrite Hn in He' by done. congruence.
  - apply outcome_bind_Ret in Hs as (? & _ & [= <-]). rewrite (Hid eq_refl). naive_solver.
  - injection Hs as <-. cbn in He'. destruct (decide (m = n)) as [->|Hn].
    + rewrite list_lookup_insert_eq in He' by by eapply lookup_lt_Some. injection He' as ->. naive_solver.
    + rewrite list_lookup_insert_ne in He' by done. assert (e' = e) as -> by congruence. naive_solver.
  - injection Hs as <-. rewrite (Hid eq_refl). naive_solver.
Qed.

(** The flow of the sample packet, built by the engine and bound by the packet. *)
Definition demo_unbound : hwnat :=
  demo_init ⦃ PpeFoeBase := <[5%nat := nth 5 demo_table zero_entry]> (PpeFoeBase demo_init) ⦄.

Lemma hwnat_entry_changes_witness :
  ∃ s e', hwnat_step demo_unbound (HwTx demo_skb) = Ret s ∧ PpeFoeBase s !! 5%nat = Some e' ∧
    get1 e' bf_state = BIND ∧ key e' = key (nth 5 demo_table zero_entry).
Proof.
  assert (H : ∃ s, hwnat_step demo_unbound (HwTx demo_skb) = Ret s ∧
    ∃ e', PpeFoeBase s !! 5%nat = Some e' ∧ get1 e' bf_state = BIND).
  { eexists. split; [vm_compute; reflexivity|]. eexists. split; vm_compute; reflexivity. }
  destruct H as (s & Hs & e' & He' & Hb). exists s, e'. split_and!; [exact Hs|exact He'|exact Hb|].
  destruct (hwnat_entry_changes demo_unbound (HwTx demo_skb) s 5 (nth 5 demo_table zero_entry) e' Hs
    ltac:(vm_compute; reflexivity) He') as [Hu _].
  destruct (Hu ltac:(vm_compute; congruence) Hb) as [(arg & Ha & _)|[(skb & i & _ & _ & _ & _ & Hk)|Ha]];
    [discriminate Ha|exact Hk|discriminate Ha].
Defined.
